(* ===== verification/_CoqProject ===== *)
-Q . S2P
Prelude.v
RustStd.v
Ordering.v
DeviceTypes.v
Samples.v
Devices.v
DeviceGraph.v
Reducers.v
GraphSpec.v
Daemon.v
MountEmitter.v
UeventListener.v
Zed.v
LinuxPlugin.v
PluginSpec.v
Change.v
DeviceIndex.v
IndexSpec.v
WireTypes.v
ActionRunner.v
ActionSpec.v
AgentComms.v
CommsSpec.v
ProtocolSpec.v
AgentSession.v
AgentSpec.v
AgentPlugins.v
DeviceService.v
OstPools.v
F64.v
Snapshots.v
RequestRetry.v
WarpTypes.v
WarpCache.v
WarpDrive.v
WarpLocks.v
WarpSpec.v
WarpDb.v
VersionUtils.v
Fids.v
Tasks.v
TasksSpec.v
Alerts.v
Journal.v
Sql.v
Network.v
SnapshotStore.v
Ldev.v
Corosync.v
DependencyTree.v
CommandModal.v
ModalSpec.v
Sfa.v
SfaService.v
Routes.v
Paging.v
Tree.v
TreeSpec.v
NtpConfig.v
FidActions.v
Stratagem.v
StratagemApi.v
Stonith.v
Fstab.v
Systemd.v
PoolActions.v
SnapshotActions.v
CrmMon.v
HaActions.v
CorosyncConf.v
