(* ===== verification/Prelude.v ===== *)
(** * Integrated Manager for Lustre

    The manager watches and runs Lustre file systems. On every storage server a set
    of small programs reports which block devices, pools and mounts there are; an
    agent sends that to the manager and carries out its orders; on the manager, a
    front end keeps the agents' sessions and passes their messages through queues to
    services, which keep the database in line with what the agents report; and warp
    drive pushes every change of the database to the users' browsers. Further services
    of the manager hand out tasks on files, raise alerts, and store what journals,
    networks, clusters and storage arrays report. This development models the Rust
    programs on that path, from the udev event to the page, and proves what each part
    promises to the next.

    ** The parts and the files that model them (sources under [src/])

    Base. [Prelude]: [Result] as a monad, tactics, the hint database [iml], lemmas on
    lists, options and maps. [RustStd]: what the code uses of Rust's standard library
    (strings, UTF-8, integers at machine width, paths). [Ordering]: derived [Ord], and
    ordered sets and maps. [F64]: floating point as the retention rules use it, and where
    it is exact. [Samples]: concrete devices for the witnesses.

    The device scanner ([device-scanner/]). [DeviceTypes], [Devices]: the types crate
    and the device tree with its searches. [DeviceGraph]: [state.rs], which links udev
    events into a tree. [Reducers]: how commands change the daemon's tables. [Daemon]:
    [reader] and [writer], one command or streaming client per connection.
    [MountEmitter], [UeventListener], [Zed]: the programs that send those commands.
    [GraphSpec] states which device belongs under which and proves the tree right.

    The agent ([iml-agent/]). [AgentSession]: sessions, poller, reader and their tasks
    on shared state, with time; [AgentSpec] proves what they promise in every
    interleaving. [AgentPlugins]: the plugins that run actions and report OST pools.
    [VersionUtils]: [version-utils/] and the action that picks a kernel. [Ldev],
    [NtpConfig], [Fstab]: the actions that edit [/etc/ldev.conf], [/etc/ntp.conf] and
    [/etc/fstab]. [FidActions]: the actions on lists of identifiers that the task runner
    asks for, copies, mirrors, removal and reports. [PoolActions], [SnapshotActions]: OST
    pools and snapshots as [lctl] prints them, and what is reported of them. [Systemd]:
    [iml-systemd/], units and the loop that waits for a state. [Stonith]: whether a node
    can be fenced, against the class [ElementTree] of the XML library. [CrmMon]: the
    cluster as [crm_mon] prints it, the report of it and the wait for a resource; the
    loops have fuel, and one round more than the document has events is enough.
    [HaActions]: the actions on the resources of a cluster, as computations that run
    commands. [CorosyncConf]: the edits of [corosync.conf].

    The front end and the queues ([iml-agent-comms/], [iml-services/iml-service-queue],
    [iml-wire-types/]). [WireTypes]: messages. [AgentComms]: sessions, hosts and
    queues; [CommsSpec]: the streams the services see and what agents get.

    The services ([iml-services/]). [ActionRunner], [ActionSpec]: actions in flight and
    the sessions they follow; [ProtocolSpec] runs it together with the front end.
    [LinuxPlugin], [PluginSpec]: the view of the storage plugin. [Change]: [iml-change],
    as a class [Changeable] with its laws. [DeviceIndex], [IndexSpec]: which hosts reach
    a device and where targets are mounted; [DeviceService]: the service around them,
    to the rows of its tables. [OstPools], [Snapshots]: the services of these names;
    [SnapshotStore]: the tables of the second. [RequestRetry]: [iml-request-retry], the
    loop against the class [RetryPolicy]. [Fids], [Tasks], [TasksSpec]: identifiers of
    files, [iml-task-runner] and [iml-mailbox], with the statements of each transaction
    interleaved. [Alerts]: the ntp service and the statements on alerts. [Journal]: the
    messages of a journal, their classes and the purge. [Sql]: what the text of a
    statement's condition means where the services build it. [Network]: interfaces,
    LNet and their tables. [Corosync]: clusters, nodes, resources and bans.

    Scans ([action_plugins/stratagem/server.rs], [iml-api/src/graphql/stratagem.rs]).
    [Stratagem]: configurations, results and the mailboxes the agent fills.
    [StratagemApi]: the tasks, scans and jobs of the API's commands.

    Storage arrays ([iml-sfa/], [iml-wire-types/src/sfa.rs]). [Sfa]: the instances an
    array reports and the records made of them. [SfaService]: endpoints, tables as a
    class [SfaTable] with its laws, and the loop with refused statements and restarts.

    Warp drive ([iml-warp-drive/], [iml-wire-types/src/warp_drive.rs],
    [iml-gui/crate/src/lib.rs]). [WarpTypes]: the records, field by field. [WarpCache]:
    the cache of 28 tables, the rows and their changes. [WarpDrive]: the listener, the
    locks queue, the users, the mutexes held over a wait, and the page in the browser.
    [WarpSpec], [WarpLocks], [WarpDb]: what users see, the locks, the database.

    The window of commands ([iml-gui/crate/src/dependency_tree.rs],
    [components/command_modal.rs], [components/modal.rs], [sleep.rs]). [DependencyTree]:
    the graph of jobs and its traversal, against the class [Deps]. [CommandModal]: the
    state of the window, its messages, requests and timer. [ModalSpec]: its theorems.
    The rest of the page ([route.rs], [components/paging.rs], [components/tree.rs]):
    [Routes], [Paging], and [Tree] with [TreeSpec], the tree of servers and file systems
    as the records of warp drive change.

    ** How code is modelled

    A pure function is a function. A [Result] is [Result], with [?] as the monad's bind;
    a panic is [None]. A handler that awaits is cut where it may wait, and the
    interleavings of the pieces are a step function or relation over a state with all
    that is shared ([ActionSpec], [CommsSpec], [AgentSession], [WarpDrive]); what the
    outside decides (a message, the outcome of a request, the time) is the label of a
    step. A [HashMap] is a [gmap] where it is looked into, and the list of its bindings
    where the code iterates over it, so that no theorem rests on an order. A table is a
    map from the columns of its unique index, and a statement is what it does to the
    tables it names. Integers keep their width where the code can leave it; [f32] and
    [f64] are the floats of [SpecFloat].

    Parameters, with what the code relies on as hypotheses: libzfs ([LibZfs]), JSON and
    serde ([Json], [Bytes], [Rows]), the manager's API ([Api]), the broker, the clock,
    the random numbers, the journal gateway, external commands ([modinfo], [rpm],
    [lctl], [busctl], and the commands of actions, by how they end and when), the codec
    that cuts a file into lines, the natural order of labels, XML elements, the WBEM
    requests, and the character classes of regular expressions; the expressions
    themselves are written out as searches. A property that assumes something of a
    parameter has an instance of it in its witness.

    Fuel: [build_device_graph] recurses without a bound, and [fuel] is its depth;
    [device_graph_terminates] shows that [R + 4] is enough when devices and volume
    groups are stacked at most [R] high, and [device_graph_md_diverges] that with an MD array no
    fuel is. [retry_loop] has one more than the policy's bound on retries
    ([retry_ends]), and [retry_fn] one more than there are endpoints
    ([retry_fn_first]). The broadcast of the daemon inherits the fuel of the tree.
    [traverse_node] descends only into nodes it has not met, and one more than the
    number of links is enough ([forest_spec]); the purge of the journal has as much as
    there are rows above its low mark ([purge_loop_exact]). Every other recursion is
    structural.

    ** What the theorems show

    The tree holds exactly the linked devices, from usable events, and is built in
    finite time; the daemon's state is the fold of the commands it was sent and every
    streaming client sees it ([GraphSpec], [Reducers], [Daemon]). Parsers accept what
    they print and well-formed events come from well-formed input ([MountEmitter],
    [UeventListener]); a pool command leaves the daemon with the pool as libzfs has it
    ([Zed]). Each service sees one well-formed stream of sessions per host, no message
    reaches an agent twice, no action is answered twice when sessions change and none is
    lost while the receiving task lives, and runner and front end agree on the sessions
    ([CommsSpec], [ActionSpec], [ProtocolSpec]; an agent posts under its own name). The agent posts only for sessions it was granted, polls a
    plugin only when nothing of it is in flight, and gives up a poll in a time bounded on
    both sides by how late the poller runs ([AgentSpec]). Every action that an agent can
    read is answered or was cancelled ([AgentPlugins]). The device
    index, the targets and the rows written are those of a declarative description
    ([IndexSpec], [DeviceService]); pools in the database become those reported
    ([OstPools]); snapshots are unmounted and destroyed only when the rules allow it, the oldest
    first, and a reserve in GiB or TiB is compared as if in bytes ([Snapshots]); retries end ([RequestRetry]). Whatever the order of its tasks, warp
    drive's users end up with the records and locks it has, its tasks never block one
    another for good, and its cache converges to the database ([WarpSpec], [WarpDb]).
    Every identifier of a task is queued, in the hands of one worker, done or recorded
    as failed, the counts are those numbers, a task that must run on one host does, and
    the workers stay within their limit ([TasksSpec]). What clusters, networks, snapshots, ntp
    states and storage arrays report is what the tables hold after it ([Corosync],
    [Network], [SnapshotStore], [Alerts], [SfaService]). The file of targets is read back
    as it was written, edits of the configuration of ntp and of the mounts can be taken
    back and do not pile up ([Ldev], [NtpConfig], [Fstab]). Copies report exactly what
    failed, a report and its errors are all the items, and names of copies are decoded
    ([FidActions]); the lists of a scan go to the tasks its command has stored, and the
    jobs of every command can be run in order ([Stratagem], [StratagemApi]). The pools
    in the tables are those that [lctl] printed, snapshots are read as printed and the
    last list is delivered ([PoolActions], [SnapshotActions]); waiting ends, with success
    exactly when the state was seen ([Systemd], [CrmMon]), and the cluster that is
    reported is the one that was printed ([CrmMon]). A resource is created stopped, then
    its constraints, then it is started; its element is read back as written, and
    removing a client removes what creating it made ([HaActions]); versions and ports
    that are set do not pile up ([CorosyncConf]). Links lead back to their pages, pages
    show the rows they name, and the items of the tree are those of the records; its numbers are too, as long as no
    delete names a record the page does not have ([Routes], [Paging], [TreeSpec]). The window of commands shows every job once, keeps its
    selection a path in what is loaded, and polls until all commands have finished
    ([DependencyTree], [ModalSpec]).

    Where the code does not do what it means to, a theorem says what it does instead:
    MD arrays ([device_graph_md_diverges]), actions lost with a client that has gone
    ([panic_drops_others]), polls given up as they start after a pause
    ([burst_gives_up]), numbers of the tree after a delete it did not expect
    ([stray_delete_miscounts]), actions entered while a session is created
    ([create_session_race]), a termination that never reaches the agent
    ([terminate_never_delivered]), session starts that are cancelled and not repeated
    ([stale_poll_cancels_start], [start_not_retried]), targets of other hosts after a
    restart ([restart_unmounts]), emptied pools ([emptied_pool_keeps_osts]), unmounts
    that fail ([unmount_not_retried]), delays above the maximum ([max_delay_exceeded]),
    pools that are not sent again ([ostpool_never_resent]), changes between the first
    reading of the API and the listening ([api_window_missed]), tasks that never
    complete ([fidlist_never_completes]), rows counted though they were rolled back
    ([aborted_rows_counted]), clients without work after a panic
    ([panic_blocks_clients]), identifiers that are printed and not read
    ([fid_high_bit_rejected]), kernels that are not passed over ([kernel_not_skipped]),
    enclosures whose model is not updated ([enclosure_model_stale]), a window that
    polls after it is closed or stops after a request fails ([closed_window_polls],
    [first_request_fails]), pages of the tree that are too long, pools that leave it or
    do not get their OSTs ([second_page_too_long], [ost_takes_pool_along],
    [ost_not_added_to_pool], [second_filesystem_missed]), panics of the page
    ([shrunk_list_panics], [unnamed_target_panics]), failures of actions that are counted
    as done ([mirror_failures_lost], [purge_failures_lost], [unknown_path_dropped],
    [report_failure_lost], [lost_failures_counted], [fidlist_dropped]), copies with the
    same name ([get_unique_collides]), pools that one failing command deletes
    ([failed_lctl_deletes]), a report that never comes when the document is cut off
    ([unclosed_document_hangs]), clones that stay stopped or are created twice
    ([clone_stays_stopped], [cloned_created_again]), a move that is not taken back
    ([move_left_behind]), and a version that falls ([version_may_fall]).

    ** Not modelled

    Set-up of processes, sockets and queues, logging, and the text of SQL statements.
    [iml-api] beyond the task queue and the scans, [iml-manager-cli] and [iml-cmd]: mostly
    statements, requests and printing. [iml-gui] beyond the page's records, its routes,
    lists, tree and the window of commands: rendering and generated code. The other
    plugins and actions of the agent, which run external commands, and their parsers
    built with a parser library; the stats and postoffice services; the WBEM client; the wrappers of client libraries; [liblustreapi];
    [number-formatter], which uses a logarithm of [f64]; the manager's Python code.

    ** What comes next

    [iml-timer] and the stats service; the agent's parser of network interfaces; the
    other resolvers of [iml-api]; the agent, the front end and the action runner in one
    model. *)
From stdpp Require Import base gmap sets list strings pretty countable sorting.
From Stdlib Require Import ZArith Lia.

(** * Results

    Fallible Rust code returns [Result<T, E>]; [Result E A] is its model, an
    stdpp monad so that [x ← e; k] reads as the [?] operator. *)
Inductive Result (E A : Type) : Type :=
| Ok (a : A)
| Err (e : E).
Arguments Ok {E A} _.
Arguments Err {E A} _.

#[export] Instance Result_ret {E} : MRet (Result E) := fun A a => Ok a.
#[export] Instance Result_bind {E} : MBind (Result E) :=
  fun A B f m => match m with Ok a => f a | Err e => Err e end.
#[export] Instance Result_fmap {E} : FMap (Result E) :=
  fun A B f m => match m with Ok a => Ok (f a) | Err e => Err e end.
#[export] Instance Result_eq_dec `{EqDecision E, EqDecision A} : EqDecision (Result E A).
Proof. solve_decision. Defined.

(** [Option::ok_or_else] and [Result::map_err]. *)
Definition ok_or {E A} (e : E) (o : option A) : Result E A :=
  match o with Some a => Ok a | None => Err e end.

Definition map_err {E E' A} (f : E -> E') (m : Result E A) : Result E' A :=
  match m with Ok a => Ok a | Err e => Err (f e) end.

(** [Result::ok]. *)
Definition ok {E A} (m : Result E A) : option A :=
  match m with Ok a => Some a | Err _ => None end.

(** * Tactics *)

Create HintDb iml discriminated.
Create Rewrite HintDb iml_rw.

(** Case analysis on the scrutinee of a match in the goal or a hypothesis. *)
Ltac break_match :=
  match goal with
  | |- context [match ?x with _ => _ end] =>
      lazymatch x with
      | context [match _ with _ => _ end] => fail
      | _ => let H := fresh "E" in destruct x eqn:H
      end
  | H0 : context [match ?x with _ => _ end] |- _ =>
      lazymatch x with
      | context [match _ with _ => _ end] => fail
      | _ => let H := fresh "E" in destruct x eqn:H
      end
  end.

(** Turns boolean tests among the hypotheses and in the goal into the
    propositions they decide. *)
Ltac reflect :=
  repeat match goal with
  | H : (_ && _)%bool = true |- _ => apply andb_prop in H as [? ?]
  | H : (_ || _)%bool = false |- _ => apply orb_false_elim in H as [? ?]
  | H : negb _ = true |- _ => apply negb_true_iff in H
  | H : negb _ = false |- _ => apply negb_false_iff in H
  | H : String.eqb _ _ = true |- _ => apply String.eqb_eq in H
  | H : String.eqb _ _ = false |- _ => apply String.eqb_neq in H
  | H : Z.eqb _ _ = true |- _ => apply Z.eqb_eq in H
  | H : Z.eqb _ _ = false |- _ => apply Z.eqb_neq in H
  | H : Z.ltb _ _ = true |- _ => apply Z.ltb_lt in H
  | H : Z.ltb _ _ = false |- _ => apply Z.ltb_ge in H
  | H : Z.leb _ _ = true |- _ => apply Z.leb_le in H
  | H : Z.leb _ _ = false |- _ => apply Z.leb_gt in H
  | H : bool_decide _ = true |- _ => apply bool_decide_eq_true in H
  | H : bool_decide _ = false |- _ => apply bool_decide_eq_false in H
  end.

(** * Lemmas on results *)

Section ResultLemmas.
Context {E A B : Type}.
Implicit Types (m : Result E A) (f : A -> Result E B).

Lemma bind_Ok m f b : (m ≫= f) = Ok b <-> exists a, m = Ok a /\ f a = Ok b.
Proof. destruct m; simpl; naive_solver. Qed.

Lemma fmap_Ok m (g : A -> B) b : (g <$> m) = Ok b <-> exists a, m = Ok a /\ b = g a.
Proof. destruct m; simpl; naive_solver. Qed.

Lemma ok_or_Ok (e : E) (o : option A) a : ok_or e o = Ok a <-> o = Some a.
Proof. destruct o; simpl; naive_solver. Qed.

(** [iter().map(f).collect::<Result<Vec<_>, _>>()]: succeeds exactly when
    every element does, with the images in order. *)
Lemma mapM_Ok f l k : mapM f l = Ok k <-> Forall2 (fun x y => f x = Ok y) l k.
Proof.
  split.
  - revert k. induction l as [|x l IH]; intros k; simpl.
    + intros [= <-]. constructor.
    + destruct (f x) eqn:Ex; simpl; [|discriminate].
      destruct (mapM f l); simpl; [|discriminate]. intros [= <-]. auto.
  - induction 1 as [|x y l k H ? IH]; simpl; [done|]. by rewrite H, IH.
Qed.

Lemma mapM_total f l : (forall x, x ∈ l -> exists y, f x = Ok y) -> exists k, mapM f l = Ok k.
Proof.
  induction l as [|x l IH]; intros H; simpl; [eauto|].
  destruct (H x) as [y ->]; [left|]. destruct IH as [k ->].
  - intros z Hz. apply H. by right.
  - simpl. eauto.
Qed.

Lemma mapM_Err f l e : mapM f l = Err e -> exists x, x ∈ l /\ f x = Err e.
Proof.
  induction l as [|x l IH]; simpl; [discriminate|].
  destruct (f x) eqn:Ex; simpl.
  - destruct (mapM f l); simpl; [discriminate|]. intros [= ->].
    destruct IH as (z & ? & ?); [done|]. exists z. split; [by right|done].
  - intros [= ->]. exists x. split; [left|done].
Qed.

End ResultLemmas.

(** Elements of a successful [collect] are images of elements of the source. *)
Lemma elem_of_mapM_Ok {E A B} (f : A -> Result E B) l k y :
  mapM f l = Ok k -> (y ∈ k <-> exists x, x ∈ l /\ f x = Ok y).
Proof.
  rewrite mapM_Ok. induction 1 as [|x z l k Hxz _ IH].
  - split; [intros H; inversion H|]. intros (x & H & _). inversion H.
  - rewrite elem_of_cons, IH. split.
    + intros [->|(w & ? & ?)]; [exists x|exists w]; rewrite elem_of_cons; auto.
    + intros (w & Hw & Hf). rewrite elem_of_cons in Hw. destruct Hw as [->|]; [|eauto].
      left. congruence.
Qed.

#[export] Hint Rewrite @bind_Ok @fmap_Ok @ok_or_Ok : iml_rw.

(** Inverts a chain of [?] operators that ended in [Ok]. *)
Ltac inv_ok :=
  repeat match goal with
  | H : (_ ≫= _) = Ok _ |- _ => apply bind_Ok in H as (? & ? & ?)
  | H : (_ <$> _) = Ok _ |- _ => apply fmap_Ok in H as (? & ? & ?)
  | H : ok_or _ _ = Ok _ |- _ => apply ok_or_Ok in H
  | H : Ok _ = Ok _ |- _ => injection H as H
  | H : mret _ = Ok _ |- _ => injection H as H
  | H : Err _ = Ok _ |- _ => discriminate H
  end; subst.

(** The partner of an element under [Forall2]. *)
Lemma elem_of_Forall2_r {A B} (P : A -> B -> Prop) l k y :
  Forall2 P l k -> y ∈ k -> exists x, x ∈ l /\ P x y.
Proof.
  intros Hf [i Hi]%list_elem_of_lookup_1.
  destruct (Forall2_lookup_r _ _ _ _ _ Hf Hi) as (x & Hx & ?). eauto using list_elem_of_lookup_2.
Qed.

Lemma elem_of_Forall2_l {A B} (P : A -> B -> Prop) l k x :
  Forall2 P l k -> x ∈ l -> exists y, y ∈ k /\ P x y.
Proof.
  intros Hf [i Hi]%list_elem_of_lookup_1.
  destruct (Forall2_lookup_l _ _ _ _ _ Hf Hi) as (y & Hy & ?). eauto using list_elem_of_lookup_2.
Qed.

(** [Iterator::filter]. *)
Lemma elem_of_filter_fn {A} (q : A -> bool) l x : x ∈ List.filter q l <-> x ∈ l /\ q x = true.
Proof. by rewrite !list_elem_of_In, filter_In. Qed.


(** * What all the values of a map hold *)

Section Gather.
Context {K A C : Type} `{Countable K} (f : A -> list C).
Implicit Types (m : gmap K A).

Definition gather m : list C := (map_to_list m).*2 ≫= f.

Lemma elem_of_gather m x : x ∈ gather m <-> exists k a, m !! k = Some a /\ x ∈ f a.
Proof.
  unfold gather. rewrite list_elem_of_bind. split.
  - intros (a & Hx & ((k & a') & -> & Hk%elem_of_map_to_list)%list_elem_of_fmap). eauto.
  - intros (k & a & Hk & Hx). exists a. split; [done|]. apply list_elem_of_fmap.
    exists (k, a). split; [done|]. by apply elem_of_map_to_list.
Qed.

Lemma gather_insert m k a : m !! k = None -> gather (<[k := a]> m) ≡ₚ f a ++ gather m.
Proof. intros Hk. unfold gather. by rewrite map_to_list_insert. Qed.

Lemma gather_delete m k a : m !! k = Some a -> gather m ≡ₚ f a ++ gather (delete k m).
Proof.
  intros Hk. rewrite <-(gather_insert (delete k m) k a) by apply lookup_delete_eq.
  by rewrite insert_delete_id.
Qed.

Lemma gather_update m k a : gather (<[k := a]> m) ≡ₚ f a ++ gather (delete k m).
Proof. rewrite <-insert_delete_eq, gather_insert by apply lookup_delete_eq. done. Qed.

Lemma gather_overwrite m k a : gather (<[k := a]> m) ⊆+ f a ++ gather m.
Proof.
  rewrite gather_update. apply submseteq_app; [done|]. destruct (m !! k) as [b|] eqn:Hk.
  - rewrite (gather_delete m k b) by done. by apply submseteq_inserts_l.
  - by rewrite delete_id.
Qed.

Lemma gather_delete_sub m k : gather (delete k m) ⊆+ gather m.
Proof.
  destruct (m !! k) as [b|] eqn:Hk; [|by rewrite delete_id].
  rewrite (gather_delete m k b) by done. by apply submseteq_inserts_l.
Qed.

(** A value that keeps what it holds. *)
Lemma gather_same m k a b : m !! k = Some a -> f b ≡ₚ f a -> gather (<[k := b]> m) ≡ₚ gather m.
Proof. intros Hk Hf. by rewrite gather_update, Hf, <-gather_delete. Qed.

End Gather.
