(* ===== verification/RustStd.v ===== *)
(** Rust's standard library, as far as the modelled code uses it: [str]
    searching, splitting and trimming, UTF-8 validation, integer parsing and
    printing at machine width, and Unix path components. A Rust [String] is a
    sequence of bytes, the model's [string]; a [PathBuf] is its raw string, and
    everything the code asks of a path but its spelling goes through
    [components], as in [std::path]. *)
From S2P Require Import Prelude.
From stdpp Require Import base gmap sets list strings pretty.
From Stdlib Require Import ZArith Ascii.

Open Scope Z_scope.

(** * Bytes and strings *)

Definition byte_of (a : ascii) : Z := Z.of_N (N_of_ascii a).

Definition slen (s : string) : nat := String.length s.

Fixpoint sdrop (n : nat) (s : string) : string :=
  match n, s with
  | O, _ => s
  | S n, String _ s => sdrop n s
  | S _, EmptyString => EmptyString
  end.

Fixpoint stake (n : nat) (s : string) : string :=
  match n, s with
  | S n, String a s => String a (stake n s)
  | _, _ => EmptyString
  end.

(** [str::starts_with], [str::ends_with], [str::contains]. *)
Definition starts_with (p s : string) : bool := String.prefix p s.

Definition ends_with (q s : string) : bool :=
  (slen q <=? slen s)%nat && String.eqb (sdrop (slen s - slen q) s) q.

Fixpoint contains (p s : string) : bool :=
  starts_with p s || match s with EmptyString => false | String _ s => contains p s end.

Fixpoint contains_char (c : ascii) (s : string) : bool :=
  match s with EmptyString => false | String a s => Ascii.eqb a c || contains_char c s end.

(** [str::split(c)] for a one-byte pattern: never empty. *)
Fixpoint str_split (c : ascii) (s : string) : list string :=
  match s with
  | EmptyString => [EmptyString]
  | String a s =>
      if Ascii.eqb a c then EmptyString :: str_split c s
      else match str_split c s with
           | x :: xs => String a x :: xs
           | [] => [String a EmptyString]
           end
  end.

(** What precedes and follows the first occurrence of the pattern. *)
Fixpoint split_first (p : string) (s : string) : option (string * string) :=
  if starts_with p s then Some (EmptyString, sdrop (slen p) s)
  else match s with
       | EmptyString => None
       | String a s => (fun '(x, y) => (String a x, y)) <$> split_first p s
       end.

(** [str::splitn(2, p)]. *)
Definition splitn2 (p s : string) : list string :=
  match split_first p s with Some (x, y) => [x; y] | None => [s] end.

(** What precedes and follows the last occurrence of a one-byte pattern. *)
Fixpoint split_last (c : ascii) (s : string) : option (string * string) :=
  match s with
  | EmptyString => None
  | String a s =>
      match split_last c s with
      | Some (x, y) => Some (String a x, y)
      | None => if Ascii.eqb a c then Some (EmptyString, s) else None
      end
  end.

(** [str::rsplitn(2, c)]: the last piece first. *)
Definition rsplitn2 (c : ascii) (s : string) : list string :=
  match split_last c s with Some (x, y) => [y; x] | None => [s] end.

(** [\[_\]::join]. *)
Fixpoint str_join (sep : string) (l : list string) : string :=
  match l with
  | [] => EmptyString
  | [x] => x
  | x :: l => x +:+ sep +:+ str_join sep l
  end.

(** The UTF-8 encodings of the characters with the White_Space property, which
    [str::trim] removes. *)
Definition utf8 (bs : list nat) : string := String.string_of_list_ascii (ascii_of_nat <$> bs).

Definition white_space : list string :=
  ((fun b => utf8 [b]) <$> [9; 10; 11; 12; 13; 32]%nat) ++
  ([utf8 [194; 133]; utf8 [194; 160]; utf8 [225; 154; 128]] ++
   ((fun b => utf8 [226; 128; b]) <$> seq 128 11) ++
   [utf8 [226; 128; 168]; utf8 [226; 128; 169]; utf8 [226; 128; 175];
    utf8 [226; 129; 159]; utf8 [227; 128; 128]])%nat.

(** The longest rest of [s] after prefixes out of [ps], for non-empty [ps];
    [slen s] rounds are enough, each removes at least one byte. *)
Fixpoint strip_prefixes (ps : list string) (fuel : nat) (s : string) : string :=
  match fuel with
  | O => s
  | S fuel =>
      match list_find (fun p => starts_with p s = true) ps with
      | Some (_, p) => strip_prefixes ps fuel (sdrop (slen p) s)
      | None => s
      end
  end.

Definition trim_start_matches (p s : string) : string := strip_prefixes [p] (slen s) s.

Definition trim_start (s : string) : string := strip_prefixes white_space (slen s) s.

Definition trim_end (s : string) : string :=
  String.rev (strip_prefixes (String.rev <$> white_space) (slen s) (String.rev s)).

Definition trim (s : string) : string := trim_end (trim_start s).

(** [str::trim_matches(c)] for a one-byte pattern. *)
Definition trim_matches (c : ascii) (s : string) : string :=
  let p := [String c EmptyString] in
  String.rev (strip_prefixes p (slen s) (String.rev (strip_prefixes p (slen s) s))).

(** * UTF-8 *)

Definition in_range (lo hi : Z) (a : ascii) : bool := (lo <=? byte_of a) && (byte_of a <=? hi).

Definition is_cont (a : ascii) : bool := in_range 128 191 a.

(** [str::from_utf8] succeeds: the well-formed byte sequences of RFC 3629. *)
Fixpoint utf8_valid (s : string) : bool :=
  match s with
  | EmptyString => true
  | String a r =>
      if in_range 0 127 a then utf8_valid r
      else if in_range 194 223 a then
        match r with String b r => is_cont b && utf8_valid r | _ => false end
      else if in_range 224 239 a then
        match r with
        | String b (String c r) =>
            in_range (if byte_of a =? 224 then 160 else 128)
                     (if byte_of a =? 237 then 159 else 191) b && is_cont c && utf8_valid r
        | _ => false
        end
      else if in_range 240 244 a then
        match r with
        | String b (String c (String d r)) =>
            in_range (if byte_of a =? 240 then 144 else 128)
                     (if byte_of a =? 244 then 143 else 191) b &&
            is_cont c && is_cont d && utf8_valid r
        | _ => false
        end
      else false
  end.

(** [str::is_char_boundary]. *)
Definition is_char_boundary (n : nat) (s : string) : bool :=
  if (n =? slen s)%nat then true
  else match sdrop n s with String a _ => negb (is_cont a) | EmptyString => false end.

(** [str::get(n..)] and [str::get(..n)]. *)
Definition get_from (n : nat) (s : string) : option string :=
  if is_char_boundary n s then Some (sdrop n s) else None.

Definition get_to (n : nat) (s : string) : option string :=
  if is_char_boundary n s then Some (stake n s) else None.

(** * Machine integers *)

Definition u64_max : Z := 2 ^ 64 - 1.
Definition is_u64 (x : Z) : Prop := 0 <= x < 2 ^ 64.
Definition is_i64 (x : Z) : Prop := - 2 ^ 63 <= x < 2 ^ 63.

(** Multiplication as a release build performs it, modulo [2 ^ 64]. *)
Definition u64_mul (x y : Z) : Z := (x * y) mod 2 ^ 64.

Inductive ParseIntError : Type := IntEmpty | IntInvalidDigit | IntPosOverflow | IntNegOverflow.

#[export] Instance ParseIntError_eq_dec : EqDecision ParseIntError.
Proof. solve_decision. Defined.

(** [char::to_digit(radix)] for radix 10 and 16. *)
Definition to_digit (radix : Z) (a : ascii) : option Z :=
  let d :=
    if in_range 48 57 a then Some (byte_of a - 48)
    else if in_range 97 102 a then Some (byte_of a - 87)
    else if in_range 65 70 a then Some (byte_of a - 55)
    else None in
  match d with Some x => if x <? radix then Some x else None | None => None end.

(** The digit loops of [from_str_radix]: each step is a checked multiplication
    and a checked addition (subtraction on the negative side). *)
Fixpoint parse_pos (radix max acc : Z) (s : string) : Result ParseIntError Z :=
  match s with
  | EmptyString => Ok acc
  | String a s =>
      match to_digit radix a with
      | None => Err IntInvalidDigit
      | Some d =>
          if acc * radix + d <=? max then parse_pos radix max (acc * radix + d) s
          else Err IntPosOverflow
      end
  end.

Fixpoint parse_neg (radix min acc : Z) (s : string) : Result ParseIntError Z :=
  match s with
  | EmptyString => Ok acc
  | String a s =>
      match to_digit radix a with
      | None => Err IntInvalidDigit
      | Some d =>
          if min <=? acc * radix - d then parse_neg radix min (acc * radix - d) s
          else Err IntNegOverflow
      end
  end.

Definition from_str_radix (radix min max : Z) (s : string) : Result ParseIntError Z :=
  match s with
  | EmptyString => Err IntEmpty
  | String a r =>
      if Ascii.eqb a "+" then
        if String.eqb r "" then Err IntInvalidDigit else parse_pos radix max 0 r
      else if Ascii.eqb a "-" && (min <? 0) then
        if String.eqb r "" then Err IntInvalidDigit else parse_neg radix min 0 r
      else parse_pos radix max 0 s
  end.

Definition u64_from_str_radix (radix : Z) (s : string) : Result ParseIntError Z :=
  from_str_radix radix 0 u64_max s.

Definition parse_u64 (s : string) : Result ParseIntError Z := u64_from_str_radix 10 s.

Definition parse_i64 (s : string) : Result ParseIntError Z :=
  from_str_radix 10 (- 2 ^ 63) (2 ^ 63 - 1) s.

(** [Display] of an integer. *)
Definition fmt_int (x : Z) : string := pretty x.

(** Upper-case hexadecimal digits of [x], most significant first, [n] of them. *)
Definition hex_digit (x : Z) : ascii :=
  ascii_of_N (Z.to_N (if x <? 10 then x + 48 else x + 55)).

Fixpoint hex_digits (n : nat) (x : Z) : string :=
  match n with
  | O => EmptyString
  | S n => hex_digits n (x / 16) +:+ String (hex_digit (x mod 16)) EmptyString
  end.

(** * Paths *)

Abbreviation PathBuf := string (only parsing).

Inductive Component : Type :=
| RootDir
| CurDir
| ParentDir
| Normal (s : string).

#[export] Instance Component_eq_dec : EqDecision Component.
Proof. solve_decision. Defined.

Definition normal_component (s : string) : option Component :=
  if String.eqb s "" || String.eqb s "." then None
  else if String.eqb s ".." then Some ParentDir else Some (Normal s).

(** [Path::components] on Unix: repeated separators and [.] segments vanish,
    but for a leading [.] of a relative path. *)
Definition components (p : PathBuf) : list Component :=
  let segs := str_split "/" p in
  if starts_with "/" p then RootDir :: omap normal_component segs
  else match segs with
       | s :: rest =>
           if String.eqb s "." then CurDir :: omap normal_component rest
           else omap normal_component segs
       | [] => []
       end.

Fixpoint is_prefix (xs ys : list Component) : bool :=
  match xs, ys with
  | [], _ => true
  | x :: xs, y :: ys => bool_decide (x = y) && is_prefix xs ys
  | _ :: _, [] => false
  end.

(** [Path::starts_with], component-wise. *)
Definition path_starts_with (p base : PathBuf) : bool := is_prefix (components base) (components p).

(** [Path == Path]. *)
Definition path_eqb (p q : PathBuf) : bool := bool_decide (components p = components q).

(** * Lemmas on strings *)

Lemma str_app_nil_l s : "" +:+ s = s.
Proof. done. Qed.

Lemma str_app_cons a s t : String a s +:+ t = String a (s +:+ t).
Proof. done. Qed.

#[export] Hint Rewrite str_app_nil_l str_app_cons : iml_rw.

Lemma str_app_nil_r s : s +:+ "" = s.
Proof. induction s as [|a s IH]; [done|]. by rewrite str_app_cons, IH. Qed.

Lemma str_app_assoc s t u : s +:+ (t +:+ u) = (s +:+ t) +:+ u.
Proof. induction s as [|a s IH]; [done|]. by rewrite !str_app_cons, IH. Qed.

Lemma slen_app s t : slen (s +:+ t) = (slen s + slen t)%nat.
Proof. induction s as [|a s IH]; [done|]. unfold slen in *. rewrite str_app_cons. simpl. by rewrite IH. Qed.

Lemma sdrop_app s t : sdrop (slen s) (s +:+ t) = t.
Proof. induction s as [|a s IH]; [done|]. by rewrite str_app_cons. Qed.

Lemma ends_with_app s t : ends_with t (s +:+ t) = true.
Proof.
  unfold ends_with. rewrite slen_app, Nat.add_sub, sdrop_app, String.eqb_refl, andb_true_r.
  apply Nat.leb_le. lia.
Qed.

Lemma stake_app s t : stake (slen s) (s +:+ t) = s.
Proof. induction s as [|a s IH]; [by destruct t|]. change (String a (stake (slen s) (s +:+ t)) = String a s). by rewrite IH. Qed.

Lemma stake_sdrop n s : stake n s +:+ sdrop n s = s.
Proof. revert s. induction n as [|n IH]; intros [|a s]; [done..|]. change (String a (stake n s +:+ sdrop n s) = String a s). by rewrite IH. Qed.

Lemma slen_stake n s : (n <= slen s)%nat -> slen (stake n s) = n.
Proof.
  revert s. induction n as [|n IH]; intros [|a s] H; simpl in *; [done..|unfold slen in H; simpl in H; lia|].
  unfold slen in *. simpl in *. f_equal. apply IH. lia.
Qed.

Lemma slen_sdrop n s : slen (sdrop n s) = (slen s - n)%nat.
Proof. revert s. induction n as [|n IH]; intros [|a s]; simpl; [done..|]. rewrite IH. done. Qed.

Lemma starts_with_spec p s : starts_with p s = true <-> exists r, s = p +:+ r.
Proof.
  unfold starts_with. revert s. induction p as [|a p IH]; intros s.
  - split; [intros _; by exists s|intros _; by destruct s].
  - destruct s as [|b s]; simpl; [split; [done|intros [r Hr]; by rewrite str_app_cons in Hr]|].
    destruct (ascii_dec a b) as [->|Hab].
    + rewrite IH. split; intros [r Hr]; exists r; [by rewrite Hr|].
      rewrite str_app_cons in Hr. by injection Hr.
    + split; [done|]. intros [r Hr]. rewrite str_app_cons in Hr. congruence.
Qed.

Lemma starts_with_app p r : starts_with p (p +:+ r) = true.
Proof. apply starts_with_spec. eauto. Qed.

(** ** Splitting and joining *)

(** A string without the separator is one piece. *)
Lemma str_split_no_sep c s : contains_char c s = false -> str_split c s = [s].
Proof.
  induction s as [|a s IH]; simpl; [done|]. intros [H1 H2]%orb_false_elim.
  by rewrite H1, IH.
Qed.

Lemma str_split_app c s t :
  contains_char c s = false -> str_split c (s +:+ String c t) = s :: str_split c t.
Proof.
  induction s as [|a s IH]; intros H; [rewrite str_app_nil_l; simpl; by rewrite Ascii.eqb_refl|].
  simpl in H. apply orb_false_elim in H as [H1 H2]. rewrite str_app_cons. simpl.
  by rewrite H1, IH.
Qed.

(** Splitting undoes joining, for pieces free of the separator. *)
Lemma str_split_join c l :
  l <> [] -> Forall (fun s => contains_char c s = false) l ->
  str_split c (str_join (String c "") l) = l.
Proof.
  intros Hne Hl. destruct l as [|x l]; [done|]. clear Hne. revert x Hl.
  induction l as [|y l IH]; intros x Hl; inversion_clear Hl as [|? ? Hx Hrest].
  - by apply str_split_no_sep.
  - change (str_join (String c "") (x :: y :: l)) with
      (x +:+ String c "" +:+ str_join (String c "") (y :: l)).
    rewrite str_app_cons, str_app_nil_l, str_split_app by done. f_equal. by apply IH.
Qed.

(** No piece holds the separator, and joining undoes splitting. *)
Lemma str_split_pieces c s : Forall (fun x => contains_char c x = false) (str_split c s).
Proof.
  induction s as [|a s IH]; simpl; [by repeat constructor|].
  destruct (Ascii.eqb a c) eqn:E; [by constructor|].
  destruct (str_split c s) as [|x xs]; inversion_clear IH; constructor; try done; simpl.
  all: rewrite E; done.
Qed.

Lemma str_split_nonempty c s : str_split c s <> [].
Proof. destruct s; simpl; [done|]. repeat case_match; done. Qed.

Lemma str_join_split c s : str_join (String c "") (str_split c s) = s.
Proof.
  induction s as [|a s IH]; [done|]. simpl.
  pose proof (str_split_nonempty c s) as Hne.
  destruct (Ascii.eqb a c) eqn:E.
  - apply Ascii.eqb_eq in E as ->. destruct (str_split c s) as [|x xs]; [done|].
    change (str_join (String c "") ("" :: x :: xs)) with
      ("" +:+ String c "" +:+ str_join (String c "") (x :: xs)).
    by rewrite IH.
  - destruct (str_split c s) as [|x [|y xs]]; [done| |].
    + simpl in *. by rewrite IH.
    + change (str_join (String c "") (String a x :: y :: xs)) with
        (String a (x +:+ String c "" +:+ str_join (String c "") (y :: xs))).
      f_equal. exact IH.
Qed.

(** The first split is at the first separator. *)
Lemma split_first_char c s t :
  contains_char c s = false -> split_first (String c "") (s +:+ String c t) = Some (s, t).
Proof.
  induction s as [|a s IH]; intros H.
  - rewrite str_app_nil_l. simpl. destruct (ascii_dec c c); [|done]. by destruct t.
  - simpl in H. apply orb_false_elim in H as [H1 H2]. rewrite str_app_cons. cbn.
    destruct (ascii_dec c a) as [->|]; [by rewrite Ascii.eqb_refl in H1|].
    by rewrite IH.
Qed.

Lemma contains_char_app c s t :
  contains_char c (s +:+ t) = contains_char c s || contains_char c t.
Proof.
  induction s as [|a s IH]; [done|]. rewrite str_app_cons. simpl. by rewrite IH, orb_assoc.
Qed.

Lemma contains_char_join c sep l :
  contains_char c sep = false -> Forall (fun s => contains_char c s = false) l ->
  contains_char c (str_join sep l) = false.
Proof.
  intros Hs. induction 1 as [|x l Hx Hl IH]; [done|]. destruct l as [|y l]; [done|].
  change (str_join sep (x :: y :: l)) with (x +:+ sep +:+ str_join sep (y :: l)).
  by rewrite !contains_char_app, Hx, Hs, IH.
Qed.

Lemma str_rev_app_spec s t : String.rev_app s t = String.rev s +:+ t.
Proof.
  unfold String.rev. revert t. induction s as [|a s IH]; intros t; [done|]. simpl.
  rewrite (IH (String a t)), (IH (String a "")), <-str_app_assoc. done.
Qed.

Lemma str_rev_cons a s : String.rev (String a s) = String.rev s +:+ String a "".
Proof. unfold String.rev at 1. simpl. apply str_rev_app_spec. Qed.

Lemma str_rev_app s t : String.rev (s +:+ t) = String.rev t +:+ String.rev s.
Proof.
  induction s as [|a s IH]; [by rewrite str_app_nil_l, str_app_nil_r|].
  by rewrite str_app_cons, !str_rev_cons, IH, str_app_assoc.
Qed.

Lemma str_rev_involutive s : String.rev (String.rev s) = s.
Proof. induction s as [|a s IH]; [done|]. rewrite str_rev_cons, str_rev_app, IH. done. Qed.

Lemma slen_rev s : slen (String.rev s) = slen s.
Proof. induction s as [|a s IH]; [done|]. rewrite str_rev_cons, slen_app, IH. unfold slen. simpl. lia. Qed.

Lemma contains_char_rev c s : contains_char c (String.rev s) = contains_char c s.
Proof.
  induction s as [|a s IH]; [done|]. rewrite str_rev_cons, contains_char_app, IH. simpl.
  by rewrite orb_false_r, orb_comm.
Qed.

(** Stripping stops where no prefix matches. *)
Lemma strip_prefixes_stop ps n s :
  Forall (fun p => starts_with p s = false) ps -> strip_prefixes ps n s = s.
Proof.
  intros Hp. destruct n; simpl; [done|].
  rewrite (proj2 (list_find_None _ ps)); [done|]. eapply Forall_impl; [done|]. simpl. congruence.
Qed.

Lemma starts_with_char c a s : starts_with (String c "") (String a s) = Ascii.eqb c a.
Proof.
  unfold starts_with. simpl. destruct (ascii_dec c a) as [->|Hn].
  - rewrite Ascii.eqb_refl. by destruct s.
  - by destruct (Ascii.eqb_spec c a).
Qed.

(** Stripping a one-byte prefix. *)
Lemma strip_char_one c n s :
  strip_prefixes [String c ""] (S n) (String c s) = strip_prefixes [String c ""] n s.
Proof.
  cbn [strip_prefixes list_find].
  by rewrite decide_True by (by rewrite starts_with_char, Ascii.eqb_refl).
Qed.

Lemma strip_char_stop c n s t :
  contains_char c s = false -> s <> "" -> strip_prefixes [String c ""] n (s +:+ t) = s +:+ t.
Proof.
  destruct s as [|a s]; [done|]. simpl. intros [Hs _]%orb_false_elim _.
  apply strip_prefixes_stop. constructor; [|done]. rewrite str_app_cons, starts_with_char.
  destruct (Ascii.eqb_spec c a); [subst; by rewrite Ascii.eqb_refl in Hs|done].
Qed.

(** Quotes around a text without quotes go away. *)
Lemma trim_matches_quoted c s :
  contains_char c s = false -> trim_matches c (String c (s +:+ String c "")) = s.
Proof.
  intros Hs. unfold trim_matches. change (slen (String c ?t)) with (S (slen t)).
  rewrite slen_app. change (slen (String c "")) with 1%nat. rewrite Nat.add_1_r, strip_char_one.
  destruct s as [|a s].
  - rewrite str_app_nil_l. change (slen "") with 0%nat. by rewrite strip_char_one.
  - rewrite strip_char_stop by done. rewrite str_rev_app.
    change (String.rev (String c "")) with (String c "").
    rewrite str_app_cons, str_app_nil_l, strip_char_one.
    assert (String.rev (String a s) <> "") as Hne.
    { intros E%(f_equal slen). by rewrite slen_rev in E. }
    rewrite <-(str_app_nil_r (String.rev (String a s))).
    rewrite strip_char_stop; [|by rewrite contains_char_rev|done].
    by rewrite str_app_nil_r, str_rev_involutive.
Qed.

(** ** Integers *)

Ltac Zify.zify_post_hook ::= Z.div_mod_to_equations.

Lemma to_digit_hex x : 0 <= x < 16 -> to_digit 16 (hex_digit x) = Some x.
Proof.
  intros Hx.
  assert (x ∈ (Z.of_nat <$> seq 0 16)) as Hin.
  { rewrite list_elem_of_fmap. exists (Z.to_nat x). split; [lia|]. apply elem_of_seq. lia. }
  clear Hx. revert x Hin. apply Forall_forall. repeat constructor.
Qed.

Lemma parse_pos_app radix max s t acc x :
  parse_pos radix max acc s = Ok x ->
  parse_pos radix max acc (s +:+ t) = parse_pos radix max x t.
Proof.
  revert acc. induction s as [|a s IH]; intros acc H; [by injection H as ->|].
  rewrite str_app_cons. simpl in *. repeat case_match; try discriminate; auto.
Qed.

(** Parsing fixed-width hexadecimal digits gives the number modulo the width. *)
Lemma parse_hex_digits n x acc :
  0 <= x < 16 ^ Z.of_nat n -> 0 <= acc -> acc * 16 ^ Z.of_nat n + x <= u64_max ->
  parse_pos 16 u64_max acc (hex_digits n x) = Ok (acc * 16 ^ Z.of_nat n + x).
Proof.
  revert x acc. induction n as [|n IH]; intros x acc Hx Hacc Hmax.
  - simpl in *. f_equal. lia.
  - rewrite Nat2Z.inj_succ, Z.pow_succ_r in * by lia. simpl.
    assert (0 < 16 ^ Z.of_nat n) by (apply Z.pow_pos_nonneg; lia).
    assert (0 <= x / 16 < 16 ^ Z.of_nat n) by lia.
    rewrite (parse_pos_app _ _ _ _ _ (acc * 16 ^ Z.of_nat n + x / 16)).
    + simpl. rewrite to_digit_hex by lia.
      rewrite (proj2 (Z.leb_le _ _)); [f_equal; lia|nia].
    + apply IH; [lia..|]. nia.
Qed.

Lemma parse_pos_bounds radix max s acc x :
  0 <= radix -> 0 <= acc <= max -> parse_pos radix max acc s = Ok x -> 0 <= x <= max.
Proof.
  intros Hr. revert acc. induction s as [|a s IH]; intros acc Hacc; simpl; [by intros [= <-]|].
  destruct (to_digit radix a) as [d|] eqn:Hd; [|discriminate]. case_match; [|discriminate].
  reflect. apply IH. split; [|lia].
  assert (0 <= d); [|nia].
  unfold to_digit, in_range in Hd. repeat case_match; simplify_eq; reflect; lia.
Qed.

(** What parses as a [u64] fits in one. *)
Lemma u64_from_str_radix_bounds radix s x :
  0 <= radix -> u64_from_str_radix radix s = Ok x -> is_u64 x.
Proof.
  unfold u64_from_str_radix, from_str_radix, is_u64. intros Hr H.
  destruct s as [|a s]; [discriminate|].
  change (0 <? 0) with false in H. rewrite andb_false_r in H.
  repeat case_match; try discriminate;
    apply parse_pos_bounds in H; unfold u64_max in *; lia.
Qed.

Lemma u64_mul_exact x y : 0 <= x * y < 2 ^ 64 -> u64_mul x y = x * y.
Proof. intros. unfold u64_mul. by apply Z.mod_small. Qed.

(** ** Paths *)

Lemma is_prefix_spec xs ys : is_prefix xs ys = true <-> xs `prefix_of` ys.
Proof.
  revert ys. induction xs as [|x xs IH]; intros [|y ys]; simpl.
  - split; [intros _; apply prefix_nil|done].
  - split; [intros _; apply prefix_nil|done].
  - split; [done|]. intros H. by apply prefix_nil_inv in H.
  - rewrite andb_true_iff, bool_decide_eq_true, IH. split.
    + intros [-> ?]. by apply prefix_cons.
    + intros H. split; [by eapply prefix_cons_inv_1|by eapply prefix_cons_inv_2].
Qed.

(** ** Decimal numbers *)

Lemma to_digit_pretty x : (x < 10)%N -> to_digit 10 (pretty_N_char x) = Some (Z.of_N x).
Proof. intros H. do 10 (destruct x as [|x] using N.peano_ind; [done|clear IHx]). lia. Qed.

Lemma parse_pos_pretty max n s : Z.of_N n <= max ->
  parse_pos 10 max 0 (pretty_N_go n s) = parse_pos 10 max (Z.of_N n) s.
Proof.
  revert s. induction (N.lt_wf_0 n) as [n _ IH]; intros s Hn.
  assert (n = 0 \/ 0 < n)%N as [->|Hp] by lia; [by rewrite pretty_N_go_0|].
  rewrite pretty_N_go_step by done. pose proof (N.div_mod' n 10) as Hd. pose proof (N.mod_lt n 10 ltac:(done)) as Hm.
  rewrite IH; [|by apply N.div_lt|lia]. simpl. rewrite to_digit_pretty by done.
  replace (Z.of_N (n `div` 10) * 10 + Z.of_N (n `mod` 10)) with (Z.of_N n) by lia.
  by rewrite (proj2 (Z.leb_le _ _) Hn).
Qed.

Lemma parse_neg_pretty min n s : min <= - Z.of_N n ->
  parse_neg 10 min 0 (pretty_N_go n s) = parse_neg 10 min (- Z.of_N n) s.
Proof.
  revert s. induction (N.lt_wf_0 n) as [n _ IH]; intros s Hn.
  assert (n = 0 \/ 0 < n)%N as [->|Hp] by lia; [by rewrite pretty_N_go_0|].
  rewrite pretty_N_go_step by done. pose proof (N.div_mod' n 10) as Hd. pose proof (N.mod_lt n 10 ltac:(done)) as Hm.
  rewrite IH; [|by apply N.div_lt|lia]. simpl. rewrite to_digit_pretty by done.
  replace (- Z.of_N (n `div` 10) * 10 - Z.of_N (n `mod` 10)) with (- Z.of_N n) by lia.
  by rewrite (proj2 (Z.leb_le _ _) Hn).
Qed.

(** A printed number starts with a digit and has only digits. *)
Lemma pretty_N_go_head n s : (0 < n)%N -> exists d r, (d < 10)%N /\ pretty_N_go n s = String (pretty_N_char d) r.
Proof.
  revert s. induction (N.lt_wf_0 n) as [n _ IH]; intros s Hn. rewrite pretty_N_go_step by done.
  assert (n `div` 10 = 0 \/ 0 < n `div` 10)%N as [E|Hp] by lia.
  - rewrite E, pretty_N_go_0. exists (n `mod` 10)%N, s. split; [by apply N.mod_lt|done].
  - apply IH; [by apply N.div_lt|done].
Qed.

Lemma contains_char_pretty c n s : (forall d, (d < 10)%N -> pretty_N_char d <> c) ->
  contains_char c (pretty_N_go n s) = contains_char c s.
Proof.
  intros Hc. revert s. induction (N.lt_wf_0 n) as [n _ IH]; intros s.
  assert (n = 0 \/ 0 < n)%N as [->|Hp] by lia; [by rewrite pretty_N_go_0|].
  rewrite pretty_N_go_step, IH by (done || by apply N.div_lt). simpl.
  rewrite (proj2 (Ascii.eqb_neq _ c)); [done|]. apply Hc. by apply N.mod_lt.
Qed.

Lemma pretty_pos p : pretty p = pretty_N_go (Npos p) "".
Proof. done. Qed.

Lemma fmt_int_contains c z : (forall d, (d < 10)%N -> pretty_N_char d <> c) -> c <> "-"%char ->
  contains_char c (fmt_int z) = false.
Proof.
  intros Hc Hm. unfold fmt_int. destruct z as [|p|p]; cbn [pretty pretty_Z].
  - cbn [contains_char]. rewrite (proj2 (Ascii.eqb_neq _ c)); [done|]. by apply (Hc 0%N).
  - by rewrite pretty_pos, contains_char_pretty.
  - rewrite contains_char_app, pretty_pos, contains_char_pretty by done. cbn [contains_char].
    by rewrite (proj2 (Ascii.eqb_neq _ c)) by congruence.
Qed.

(** Parsing undoes printing, for the numbers of the type. *)
Lemma parse_fmt_int min max z : min < 0 <= max -> min <= z <= max -> from_str_radix 10 min max (fmt_int z) = Ok z.
Proof.
  intros Hr Hz. unfold fmt_int. destruct z as [|p|p]; cbn [pretty pretty_Z].
  - change (parse_pos 10 max 0 "0" = Ok 0). cbn [parse_pos]. change (to_digit 10 "0") with (Some 0). cbn iota.
    change (0 * 10 + 0) with 0. by rewrite (proj2 (Z.leb_le 0 max)) by lia.
  - rewrite pretty_pos. pose proof (parse_pos_pretty max (Npos p) "" ltac:(lia)) as H.
    destruct (pretty_N_go_head (Npos p) "") as (d & r & Hd & E); [done|]. rewrite E in *. simpl in H |- *.
    assert (Ascii.eqb (pretty_N_char d) "+" = false /\ Ascii.eqb (pretty_N_char d) "-" = false) as [-> ->]; [|exact H].
    do 10 (destruct d as [|d] using N.peano_ind; [done|clear IHd]). lia.
  - rewrite pretty_pos. pose proof (parse_neg_pretty min (Npos p) "" ltac:(lia)) as H.
    destruct (pretty_N_go_head (Npos p) "") as (d & r & Hd & E); [done|]. rewrite E in *.
    unfold from_str_radix. rewrite str_app_cons, str_app_nil_l. cbn [Ascii.eqb Bool.eqb String.eqb].
    rewrite (proj2 (Z.ltb_lt min 0)) by lia. simpl in *. rewrite H. done.
Qed.
