(* ===== verification/Ordering.v ===== *)
(** Rust's derived [Ord]. A derived order is lexicographic over the fields in
    declaration order, an enum's over the index of its variant first, a
    container's over its iteration. Each modelled type is given its [key], the
    tree of what the derived order reads, and is compared by [kcmp] on keys;
    [x ≡ y] (Rust's [==]) is equality of keys. Ordered sets and maps
    ([im::OrdSet], [BTreeSet], [BTreeMap]) are lists in strictly increasing key
    order, which is also their iteration order. *)
From S2P Require Import Prelude RustStd.
From stdpp Require Import base gmap sets list strings countable sorting.
From Stdlib Require Import ZArith.

Inductive key : Type :=
| KZ (z : Z)
| KS (s : string)
| KL (l : list key).

Fixpoint kcmp (a b : key) {struct a} : comparison :=
  match a, b with
  | KZ x, KZ y => Z.compare x y
  | KZ _, _ => Lt
  | KS _, KZ _ => Gt
  | KS x, KS y => String.compare x y
  | KS _, KL _ => Lt
  | KL xs, KL ys =>
      (fix go xs ys :=
         match xs, ys with
         | [], [] => Eq
         | [], _ :: _ => Lt
         | _ :: _, [] => Gt
         | x :: xs, y :: ys => match kcmp x y with Eq => go xs ys | c => c end
         end) xs ys
  | KL _, _ => Gt
  end.

Fixpoint lcmp (xs ys : list key) : comparison :=
  match xs, ys with
  | [], [] => Eq
  | [], _ :: _ => Lt
  | _ :: _, [] => Gt
  | x :: xs, y :: ys => match kcmp x y with Eq => lcmp xs ys | c => c end
  end.

(** What a type's derived order reads. *)
Class Keyed (A : Type) := key_of : A -> key.

#[export] Instance string_keyed : Keyed string := KS.
#[export] Instance Z_keyed : Keyed Z := KZ.
#[export] Instance option_keyed `{Keyed A} : Keyed (option A) :=
  fun o => KL (match o with None => [] | Some a => [key_of a] end).
#[export] Instance list_keyed `{Keyed A} : Keyed (list A) := fun l => KL (key_of <$> l).

(** An enum variant: its index and its payload. *)
Definition kvariant (i : Z) (fields : list key) : key := KL (KZ i :: fields).

(** A path is compared by components. *)
Definition component_key (c : Component) : key :=
  match c with
  | RootDir => kvariant 1 []
  | CurDir => kvariant 2 []
  | ParentDir => kvariant 3 []
  | Normal s => kvariant 4 [KS s]
  end.

Definition path_key (p : PathBuf) : key := KL (component_key <$> components p).

(** ** Ordered sets *)

Section OrdSet.
Context {A : Type} `{Keyed A}.
Implicit Types (x y : A) (l : list A).

Definition cmp x y : comparison := kcmp (key_of x) (key_of y).

Definition eqv x y : Prop := key_of x = key_of y.

Definition eqvb x y : bool := match cmp x y with Eq => true | _ => false end.

(** Insertion; [rep] says whether an equal element is replaced, as
    [im::OrdSet::insert] does, or kept, as [BTreeSet::insert] does. *)
Fixpoint set_insert (rep : bool) x l : list A :=
  match l with
  | [] => [x]
  | y :: l' =>
      match cmp x y with
      | Lt => x :: l
      | Eq => (if rep then x else y) :: l'
      | Gt => y :: set_insert rep x l'
      end
  end.

Definition set_contains x l : bool := existsb (eqvb x) l.

Definition set_from (rep : bool) l : list A := foldl (fun acc x => set_insert rep x acc) [] l.

(** [!a.intersection(b).is_empty()] and [a.is_superset(b)]. *)
Definition set_meets l1 l2 : bool := existsb (fun x => set_contains x l2) l1.

Definition set_superset l1 l2 : bool := forallb (fun x => set_contains x l1) l2.

Definition set_union l1 l2 : list A := foldl (fun acc x => set_insert true x acc) l1 l2.

(** [BTreeSet::difference]. *)
Definition set_difference l1 l2 : list A := List.filter (fun x => negb (set_contains x l2)) l1.

(** The representation invariant: strictly increasing keys. *)
Definition klt (a b : key) : Prop := kcmp a b = Lt.

Definition oset_wf l : Prop := StronglySorted klt (key_of <$> l).

End OrdSet.
#[export] Hint Unfold eqv : iml.

(** * The order on keys *)

Lemma key_ind' (P : key -> Prop) :
  (forall z, P (KZ z)) -> (forall s, P (KS s)) ->
  (forall l, Forall P l -> P (KL l)) -> forall k, P k.
Proof.
  intros HZ HS HL. fix IH 1. intros [z|s|l]; [apply HZ|apply HS|].
  apply HL. induction l as [|k l IHl]; constructor; [apply IH|apply IHl].
Qed.

Lemma kcmp_KL xs ys : kcmp (KL xs) (KL ys) = lcmp xs ys.
Proof.
  reflexivity.
Qed.

Lemma string_compare_refl s : String.compare s s = Eq.
Proof.
  destruct (String.compare s s) eqn:E; try done;
    pose proof (String.compare_antisym s s) as Ha; rewrite E in Ha; done.
Qed.

Lemma kcmp_refl a : kcmp a a = Eq.
Proof.
  induction a as [z|s|l IH] using key_ind'.
  - apply Z.compare_refl.
  - apply string_compare_refl.
  - rewrite kcmp_KL. induction IH as [|k l Hk _ IHl]; simpl; [done|]. by rewrite Hk.
Qed.

Lemma kcmp_eq a b : kcmp a b = Eq <-> a = b.
Proof.
  split; [|intros ->; apply kcmp_refl].
  revert b. induction a as [z|s|l IH] using key_ind'; intros [z'|s'|l']; try discriminate.
  - intros ?%Z.compare_eq_iff. by subst.
  - intros ?%String.compare_eq_iff. by subst.
  - rewrite kcmp_KL. intros Hl. f_equal. revert l' Hl.
    induction IH as [|k l Hk _ IHl]; intros [|k' l']; simpl; try discriminate; [done|].
    destruct (kcmp k k') eqn:E; try discriminate. intros. f_equal; auto.
Qed.

Lemma kcmp_antisym a b : kcmp b a = CompOpp (kcmp a b).
Proof.
  revert b. induction a as [z|s|l IH] using key_ind'; intros [z'|s'|l']; try done.
  - apply Z.compare_antisym.
  - apply String.compare_antisym.
  - rewrite !kcmp_KL. revert l'.
    induction IH as [|k l Hk _ IHl]; intros [|k' l']; simpl; try done.
    rewrite Hk. by destruct (kcmp k k'); simpl.
Qed.

Lemma string_compare_trans s t u :
  String.compare s t = Lt -> String.compare t u = Lt -> String.compare s u = Lt.
Proof.
  intros H1 H2.
  assert (String.le s u) as Hle.
  { transitivity t; unfold String.le, String.leb; [by rewrite H1|by rewrite H2]. }
  unfold String.le, String.leb in Hle.
  destruct (String.compare s u) eqn:E; try done.
  apply String.compare_eq_iff in E as ->.
  rewrite String.compare_antisym, H1 in H2. done.
Qed.

Lemma kcmp_trans a b c : kcmp a b = Lt -> kcmp b c = Lt -> kcmp a c = Lt.
Proof.
  revert b c. induction a as [z|s|l IH] using key_ind';
    intros [z'|s'|l'] [z''|s''|l'']; try done.
  - simpl. rewrite !Z.compare_lt_iff. lia.
  - apply string_compare_trans.
  - rewrite !kcmp_KL. revert l' l''.
    induction IH as [|k l Hk _ IHl]; intros [|k' l'] [|k'' l'']; simpl; try done.
    destruct (kcmp k k') eqn:E1; try done.
    + apply kcmp_eq in E1 as ->. destruct (kcmp k' k'') eqn:E2; try done. apply IHl.
    + intros _. destruct (kcmp k' k'') eqn:E2; try done.
      * apply kcmp_eq in E2 as ->. by rewrite E1.
      * by rewrite (Hk _ _ E1 E2).
Qed.

#[export] Instance klt_strict : StrictOrder klt.
Proof.
  split.
  - intros a Ha. unfold klt in Ha. by rewrite kcmp_refl in Ha.
  - intros a b c. apply kcmp_trans.
Qed.

(** The order is total on keys. *)
Lemma klt_total a b : klt a b \/ a = b \/ klt b a.
Proof.
  unfold klt. destruct (kcmp a b) eqn:E; [right; left; by apply kcmp_eq|auto|].
  right; right. by rewrite kcmp_antisym, E.
Qed.

#[export] Instance key_eq_dec : EqDecision key.
Proof.
  intros a b. destruct (kcmp a b) eqn:E; [left; by apply kcmp_eq|right..];
    intros ->; by rewrite kcmp_refl in E.
Defined.

Fixpoint key_to_tree (k : key) : gen_tree (Z + string) :=
  match k with
  | KZ z => GenLeaf (inl z)
  | KS s => GenLeaf (inr s)
  | KL l => GenNode 0 (key_to_tree <$> l)
  end.

Fixpoint key_of_tree (t : gen_tree (Z + string)) : key :=
  match t with
  | GenLeaf (inl z) => KZ z
  | GenLeaf (inr s) => KS s
  | GenNode _ l => KL (key_of_tree <$> l)
  end.

(** Keys index finite maps. *)
#[export] Program Instance key_countable : Countable key :=
  inj_countable' key_to_tree key_of_tree _.
Next Obligation.
  intros k. induction k as [z|s|l IH] using key_ind'; simpl; [done..|]. f_equal.
  rewrite <-list_fmap_compose. rewrite <-(list_fmap_id l) at 2.
  apply list_fmap_ext. intros i k Hk. rewrite Forall_lookup in IH. simpl. eauto.
Qed.

(** * Ordered sets *)

Section OrdSetLemmas.
Context {A : Type} `{Keyed A}.
Implicit Types (x y : A) (l : list A) (k : key) (rep : bool).

#[export] Instance eqv_equivalence : Equivalence (@eqv A _).
Proof. split; unfold eqv; [intros x|intros x y|intros x y z]; congruence. Qed.

Lemma eqvb_spec x y : eqvb x y = true <-> eqv x y.
Proof.
  unfold eqvb, cmp, eqv. rewrite <-kcmp_eq. by destruct (kcmp (key_of x) (key_of y)).
Qed.

Lemma set_contains_spec x l : set_contains x l = true <-> key_of x ∈ (key_of <$> l).
Proof.
  unfold set_contains. rewrite existsb_exists, list_elem_of_fmap.
  setoid_rewrite eqvb_spec. setoid_rewrite list_elem_of_In. naive_solver.
Qed.

#[export] Instance set_contains_proper l : Proper (eqv ==> eq) (fun x => set_contains x l).
Proof.
  intros x y Hxy. apply eq_true_iff_eq. by rewrite !set_contains_spec, Hxy.
Qed.

Lemma set_insert_keys rep x l k :
  k ∈ (key_of <$> set_insert rep x l) <-> k = key_of x \/ k ∈ (key_of <$> l).
Proof.
  induction l as [|y l IH]; simpl; [by rewrite list_elem_of_singleton, elem_of_nil; tauto|].
  unfold cmp. destruct (kcmp (key_of x) (key_of y)) eqn:E; csimpl; rewrite ?elem_of_cons.
  - apply kcmp_eq in E. destruct rep; csimpl; rewrite ?E; tauto.
  - tauto.
  - rewrite IH. tauto.
Qed.

(** No element is made up: a member of the result is the new one or an old one. *)
Lemma elem_of_set_insert rep x y l : y ∈ set_insert rep x l -> y = x \/ y ∈ l.
Proof.
  induction l as [|z l IH]; simpl; [rewrite list_elem_of_singleton; auto|].
  destruct (cmp x z), rep; rewrite ?elem_of_cons; naive_solver.
Qed.

Lemma set_insert_wf rep x l : oset_wf l -> oset_wf (set_insert rep x l).
Proof.
  unfold oset_wf. induction l as [|y l IH]; simpl.
  - repeat constructor.
  - intros Hwf. inversion_clear Hwf as [|? ? Hl Hy]. unfold cmp.
    destruct (kcmp (key_of x) (key_of y)) eqn:E.
    + apply kcmp_eq in E. destruct rep; csimpl; rewrite ?E; by constructor.
    + csimpl. constructor; [by constructor|]. constructor; [done|].
      eapply Forall_impl; [exact Hy|]. intros k Hk. by transitivity (key_of y).
    + csimpl. constructor; [by apply IH|]. apply Forall_forall. intros k Hk.
      rewrite set_insert_keys in Hk. destruct Hk as [->|Hk].
      * unfold klt. by rewrite kcmp_antisym, E.
      * rewrite Forall_forall in Hy. by apply Hy.
Qed.

Lemma set_insert_ne rep x l : set_insert rep x l <> [].
Proof. destruct l; simpl; [done|]. by repeat case_match. Qed.

Lemma set_insert_contains rep x y l :
  set_contains y (set_insert rep x l) = eqvb y x || set_contains y l.
Proof.
  apply eq_true_iff_eq.
  rewrite orb_true_iff, eqvb_spec, !set_contains_spec, set_insert_keys. done.
Qed.

Lemma foldl_insert_keys rep l acc k :
  k ∈ (key_of <$> foldl (fun acc x => set_insert rep x acc) acc l) <->
  k ∈ (key_of <$> acc) \/ k ∈ (key_of <$> l).
Proof.
  revert acc. induction l as [|x l IH]; intros acc; csimpl; [rewrite elem_of_nil; tauto|].
  rewrite IH, set_insert_keys, elem_of_cons. tauto.
Qed.

Lemma elem_of_foldl_insert rep l acc y :
  y ∈ foldl (fun acc x => set_insert rep x acc) acc l -> y ∈ acc \/ y ∈ l.
Proof.
  revert acc. induction l as [|x l IH]; intros acc; simpl; [auto|].
  intros [Hy|Hy]%IH; [apply elem_of_set_insert in Hy as [->|Hy]|]; rewrite elem_of_cons; auto.
Qed.

Lemma foldl_insert_wf rep l acc :
  oset_wf acc -> oset_wf (foldl (fun acc x => set_insert rep x acc) acc l).
Proof. revert acc. induction l; intros acc; simpl; auto using set_insert_wf. Qed.

Lemma set_from_keys rep l k : k ∈ (key_of <$> set_from rep l) <-> k ∈ (key_of <$> l).
Proof. unfold set_from. rewrite foldl_insert_keys. csimpl. rewrite elem_of_nil. tauto. Qed.

Lemma set_from_wf rep l : oset_wf (set_from rep l).
Proof. apply foldl_insert_wf. constructor. Qed.

Lemma elem_of_set_from rep l y : y ∈ set_from rep l -> y ∈ l.
Proof. intros [Hy|?]%elem_of_foldl_insert; [inversion Hy|done]. Qed.

Lemma set_union_keys l1 l2 k :
  k ∈ (key_of <$> set_union l1 l2) <-> k ∈ (key_of <$> l1) \/ k ∈ (key_of <$> l2).
Proof. apply foldl_insert_keys. Qed.

Lemma set_meets_spec l1 l2 :
  set_meets l1 l2 = true <-> exists k, k ∈ (key_of <$> l1) /\ k ∈ (key_of <$> l2).
Proof.
  unfold set_meets. rewrite existsb_exists. setoid_rewrite set_contains_spec.
  setoid_rewrite list_elem_of_fmap. setoid_rewrite <-list_elem_of_In. naive_solver.
Qed.

Lemma set_superset_spec l1 l2 :
  set_superset l1 l2 = true <-> (key_of <$> l2) ⊆ (key_of <$> l1).
Proof.
  unfold set_superset. rewrite forallb_forall. setoid_rewrite set_contains_spec.
  setoid_rewrite <-list_elem_of_In. split.
  - intros Hx k (x & -> & Hx2)%list_elem_of_fmap. auto.
  - intros Hk x Hx. apply Hk, list_elem_of_fmap. eauto.
Qed.

End OrdSetLemmas.
#[export] Hint Resolve set_insert_wf set_from_wf foldl_insert_wf : iml.

Lemma klt_sorted_nodup (l : list key) : StronglySorted klt l -> NoDup l.
Proof.
  induction 1 as [|x l _ IH Hx]; constructor; [|done]. intros Hin.
  rewrite Forall_forall in Hx. specialize (Hx _ Hin). exact (StrictOrder_Irreflexive _ Hx).
Qed.

(** Strictly sorted lists with the same members are equal: an ordered set is
    determined by its members, whatever the order of insertion. *)
Lemma klt_sorted_ext (l1 l2 : list key) :
  StronglySorted klt l1 -> StronglySorted klt l2 -> (forall k, k ∈ l1 <-> k ∈ l2) -> l1 = l2.
Proof.
  intros H1 H2 Hext. pose proof klt_sorted_nodup as Hnd.
  apply (StronglySorted_unique_strong klt); [|done..|].
  - intros x1 x2 _ _ H3 H4. destruct (StrictOrder_Irreflexive x1). by transitivity x2.
  - apply NoDup_Permutation; auto.
Qed.

Lemma oset_wf_ext `{Keyed A} (l1 l2 : list A) :
  oset_wf l1 -> oset_wf l2 ->
  (forall k, k ∈ (key_of <$> l1) <-> k ∈ (key_of <$> l2)) -> key_of <$> l1 = key_of <$> l2.
Proof. apply klt_sorted_ext. Qed.

(** The first element of a set is its minimum ([OrdSet::get_min]). *)
Lemma oset_wf_head `{Keyed A} (x y : A) l : oset_wf (x :: l) -> y ∈ l -> klt (key_of x) (key_of y).
Proof.
  intros Hwf Hy. inversion_clear Hwf as [|? ? _ Hx]. rewrite Forall_forall in Hx.
  apply Hx, list_elem_of_fmap. eauto.
Qed.

(** ** Maps in key order

    A [BTreeMap] is the ordered set of its bindings, compared by the key. *)
Section BTreeMap.
Context {K V : Type} `{Keyed K}.
Implicit Types (k : K) (v : V) (m : list (K * V)).

Fixpoint btree_get k m : option V :=
  match m with
  | [] => None
  | (k', v) :: m => if eqvb k k' then Some v else btree_get k m
  end.

Fixpoint btree_insert k v m : list (K * V) :=
  match m with
  | [] => [(k, v)]
  | (k', v') :: m' =>
      match cmp k k' with
      | Lt => (k, v) :: m
      | Eq => (k', v) :: m'
      | Gt => (k', v') :: btree_insert k v m'
      end
  end.

Definition btree_wf m : Prop := StronglySorted klt (key_of <$> m.*1).

Lemma btree_insert_keys k v m a :
  a ∈ (key_of <$> (btree_insert k v m).*1) <-> a = key_of k \/ a ∈ (key_of <$> m.*1).
Proof.
  induction m as [|[k' v'] m IH]; csimpl; [by rewrite list_elem_of_singleton, elem_of_nil; tauto|].
  unfold cmp. destruct (kcmp (key_of k) (key_of k')) eqn:E; csimpl; rewrite ?elem_of_cons.
  - apply kcmp_eq in E. rewrite E. tauto.
  - tauto.
  - rewrite IH. tauto.
Qed.

Lemma btree_insert_wf k v m : btree_wf m -> btree_wf (btree_insert k v m).
Proof.
  unfold btree_wf. induction m as [|[k' v'] m IH]; csimpl; [repeat constructor|].
  intros Hwf. inversion_clear Hwf as [|? ? Hl Hy]. unfold cmp.
  destruct (kcmp (key_of k) (key_of k')) eqn:E; csimpl.
  - by constructor.
  - constructor; [by constructor|]. constructor; [done|].
    eapply Forall_impl; [exact Hy|]. intros a Ha. by transitivity (key_of k').
  - constructor; [by apply IH|]. apply Forall_forall. intros a Ha.
    rewrite btree_insert_keys in Ha. destruct Ha as [->|Ha].
    + unfold klt. by rewrite kcmp_antisym, E.
    + rewrite Forall_forall in Hy. by apply Hy.
Qed.

Lemma btree_get_insert k k' v m :
  btree_wf m -> btree_get k' (btree_insert k v m) = if eqvb k' k then Some v else btree_get k' m.
Proof.
  unfold btree_wf. induction m as [|[k0 v0] m IH]; csimpl; [done|].
  intros Hwf. inversion_clear Hwf as [|? ? Hl Hy]. specialize (IH Hl). unfold cmp.
  destruct (kcmp (key_of k) (key_of k0)) eqn:E; simpl.
  - apply kcmp_eq in E. unfold eqvb, cmp. rewrite E.
    by destruct (kcmp (key_of k') (key_of k0)).
  - done.
  - rewrite IH. unfold eqvb, cmp. destruct (kcmp (key_of k') (key_of k0)) eqn:E2; try done.
    apply kcmp_eq in E2. by rewrite E2, (kcmp_antisym (key_of k)), E.
Qed.

Lemma btree_get_is_Some k m : is_Some (btree_get k m) <-> key_of k ∈ (key_of <$> m.*1).
Proof.
  induction m as [|[k' v] m IH]; csimpl; [split; [by intros [? ?]|intros Hk; inversion Hk]|].
  rewrite elem_of_cons. destruct (eqvb k k') eqn:E.
  - apply eqvb_spec in E. split; [by left|eauto].
  - rewrite IH. split; [tauto|]. intros [Hk|?]; [|done].
    assert (eqvb k k' = true) by (by apply eqvb_spec). congruence.
Qed.

Lemma btree_get_elem k v m : btree_get k m = Some v -> exists k', (k', v) ∈ m /\ key_of k' = key_of k.
Proof.
  induction m as [|[k' v'] m IH]; simpl; [done|]. destruct (eqvb k k') eqn:E.
  - intros [= ->]. exists k'. split; [left|]. symmetry. by apply eqvb_spec.
  - intros (k0 & ? & ?)%IH. exists k0. split; [by right|done].
Qed.

Lemma elem_of_btree_insert k v m e : e ∈ btree_insert k v m -> e.2 = v \/ e ∈ m.
Proof.
  induction m as [|[k' v'] m IH]; simpl; [intros ->%list_elem_of_singleton; by left|].
  destruct (cmp k k'); rewrite !elem_of_cons; naive_solver.
Qed.

Lemma btree_elem_get k v m : btree_wf m -> (k, v) ∈ m -> btree_get k m = Some v.
Proof.
  unfold btree_wf. induction m as [|[k' v'] m IH]; csimpl; [intros _ Hk; inversion Hk|].
  intros Hwf. inversion_clear Hwf as [|? ? Hl Hy].
  intros [[= -> ->]|Hk]%elem_of_cons.
  - by rewrite (proj2 (eqvb_spec k' k') eq_refl).
  - destruct (eqvb k k') eqn:E; [|by apply IH]. apply eqvb_spec in E.
    rewrite Forall_forall in Hy. assert (klt (key_of k') (key_of k)) as Hlt.
    { apply Hy, list_elem_of_fmap. exists k. split; [done|]. apply list_elem_of_fmap. by exists (k, v). }
    unfold eqv in E. rewrite E in Hlt. unfold klt in Hlt. by rewrite kcmp_refl in Hlt.
Qed.

End BTreeMap.
