(* ===== verification/DeviceTypes.v ===== *)
(** The [device-types] crate: device paths and their preference order, mounts,
    udev events, pool commands, the scanner's state and the device tree with
    its searches. The [libzfs-types] crate is not part of the repository: the
    shapes its types are matched against here are the ones the code shows, and
    what the code never reads of them is a parameter ([LibZfs]). *)
From S2P Require Import Prelude RustStd Ordering.
From stdpp Require Import base gmap sets list strings.
From Stdlib Require Import ZArith Ascii.

Open Scope Z_scope.

(** [Iterator::find_map]. *)
Section FindMap.
Context {A B : Type} (f : A -> option B).
Fixpoint find_map (l : list A) : option B :=
  match l with
  | [] => None
  | x :: l => match f x with Some y => Some y | None => find_map l end
  end.
End FindMap.

(** * Parameters: libzfs-types *)

(** [VDev], as [get_vdev_paths] matches it exhaustively; [info] stands for the
    fields behind [..]. *)
Inductive VDev (I : Type) : Type :=
| VDisk (info : I) (dev_id : option string) (path : PathBuf)
| VFile (info : I)
| VMirror (info : I) (children : list (VDev I))
| VRaidZ (info : I) (children : list (VDev I))
| VReplacing (info : I) (children : list (VDev I))
| VRoot (info : I) (children spares cache : list (VDev I)).
Arguments VDisk {I} _ _ _.
Arguments VFile {I} _.
Arguments VMirror {I} _ _.
Arguments VRaidZ {I} _ _.
Arguments VReplacing {I} _ _.
Arguments VRoot {I} _ _ _ _.

(** [libzfs_types::ZProp]. *)
Record ZProp : Type := MkZProp { zp_name : string; zp_value : string }.

(** What the model leaves open: the fields never read, the other errors, and
    [VDev]'s own [Ord]. *)
Class LibZfs : Type := {
  vdev_info : Type;
  pool_info : Type;
  dataset_info : Type;
  libzfs_other : Type;
  vdev_key : VDev vdev_info -> key;
}.

#[export] Instance ZProp_eq_dec : EqDecision ZProp.
Proof. solve_decision. Defined.

#[export] Instance ZProp_keyed : Keyed ZProp := fun p => KL [KS (zp_name p); KS (zp_value p)].

(** * Device paths *)

Record DevicePath : Type := MkDevicePath { dp_path : PathBuf }.

#[export] Instance DevicePath_eq_dec : EqDecision DevicePath.
Proof. solve_decision. Defined.

(** The classes of paths, the preferred ones first. *)
Definition sort_slots : list (PathBuf -> bool) :=
  [ (fun p => path_starts_with p "/dev/mapper/");
    (fun p => path_starts_with p "/dev/disk/by-id/");
    (fun p => path_starts_with p "/dev/disk/by-path/");
    (fun p => path_starts_with p "/dev/");
    (fun _ => true) ].

(** [position(..).unwrap()]: the last class accepts every path. *)
Definition find_sort_slot (d : DevicePath) : Z :=
  Z.of_nat (default 4%nat (fst <$> list_find (fun f => f (dp_path d) = true) sort_slots)).

(** [Ord for DevicePath]: the slot, then the path. *)
#[export] Instance DevicePath_keyed : Keyed DevicePath :=
  fun d => KL [KZ (find_sort_slot d); path_key (dp_path d)].

Definition device_path_cmp (a b : DevicePath) : comparison :=
  match Z.compare (find_sort_slot a) (find_sort_slot b) with
  | Gt => Gt
  | Lt => Lt
  | Eq => kcmp (path_key (dp_path a)) (path_key (dp_path b))
  end.

(** [PartialEq for DevicePath]. *)
Definition device_path_eq (a b : DevicePath) : bool := path_eqb (dp_path a) (dp_path b).

(** [Paths = OrdSet<DevicePath>]. *)
Abbreviation Paths := (list DevicePath) (only parsing).

(** The device paths under a vdev. *)
Fixpoint get_vdev_paths {I} (v : VDev I) : list DevicePath :=
  match v with
  | VDisk _ dev_id path =>
      let p := match dev_id with
               | Some x => "/dev/disk/by-id/" +:+ x
               | None => path
               end in
      set_insert false (MkDevicePath p) []
  | VFile _ => []
  | VMirror _ children | VRaidZ _ children | VReplacing _ children =>
      set_from false (children ≫= get_vdev_paths)
  | VRoot _ children spares cache =>
      set_from false ((children ≫= get_vdev_paths) ++ (spares ≫= get_vdev_paths) ++
                      (cache ≫= get_vdev_paths))
  end.

(** * Mounts *)

Record MountPoint : Type := MkMountPoint { mp_path : PathBuf }.
Record FsType : Type := MkFsType { ft_name : string }.
Record MountOpts : Type := MkMountOpts { mo_opts : string }.

Record Mount : Type := MkMount {
  mt_source : DevicePath;
  mt_target : MountPoint;
  mt_fs_type : FsType;
  mt_opts : MountOpts;
}.

Definition Mount_new (target : MountPoint) (source : DevicePath) (fs_type : FsType)
    (opts : MountOpts) : Mount :=
  {| mt_target := target; mt_source := source; mt_fs_type := fs_type; mt_opts := opts |}.

#[export] Instance MountPoint_eq_dec : EqDecision MountPoint.
Proof. solve_decision. Defined.
#[export] Instance FsType_eq_dec : EqDecision FsType.
Proof. solve_decision. Defined.
#[export] Instance MountOpts_eq_dec : EqDecision MountOpts.
Proof. solve_decision. Defined.
#[export] Instance Mount_eq_dec : EqDecision Mount.
Proof. solve_decision. Defined.

(** Derived [Ord], [Eq] and [Hash]: source, target, type, options. *)
#[export] Instance Mount_keyed : Keyed Mount := fun m =>
  KL [key_of (mt_source m); path_key (mp_path (mt_target m));
      KS (ft_name (mt_fs_type m)); KS (mo_opts (mt_opts m))].

Inductive MountCommand : Type :=
| AddMount (target : MountPoint) (source : DevicePath) (fs_type : FsType) (opts : MountOpts)
| RemoveMount (target : MountPoint) (source : DevicePath) (fs_type : FsType) (opts : MountOpts)
| ReplaceMount (target : MountPoint) (source : DevicePath) (fs_type : FsType)
    (opts old_opts : MountOpts)
| MoveMount (target : MountPoint) (source : DevicePath) (fs_type : FsType) (opts : MountOpts)
    (old_target : MountPoint).

(** * Udev events *)

Record UEvent : Type := MkUEvent {
  ue_major : string;
  ue_minor : string;
  ue_seqnum : Z;
  ue_paths : list DevicePath;
  ue_devname : PathBuf;
  ue_devpath : PathBuf;
  ue_devtype : string;
  ue_vendor : option string;
  ue_model : option string;
  ue_serial : option string;
  ue_fs_type : option string;
  ue_fs_usage : option string;
  ue_fs_uuid : option string;
  ue_fs_label : option string;
  ue_part_entry_number : option Z;
  ue_part_entry_mm : option string;
  ue_size : option Z;
  ue_rotational : option bool;
  ue_scsi80 : option string;
  ue_scsi83 : option string;
  ue_read_only : option bool;
  ue_bios_boot : option bool;
  ue_zfs_reserved : option bool;
  ue_is_mpath : option bool;
  ue_dm_slave_mms : list string;
  ue_dm_vg_size : option Z;
  ue_md_devs : list DevicePath;
  ue_dm_multipath_devpath : option bool;
  ue_dm_name : option string;
  ue_dm_lv_name : option string;
  ue_lv_uuid : option string;
  ue_dm_vg_name : option string;
  ue_vg_uuid : option string;
  ue_md_uuid : option string;
}.

#[export] Instance UEvent_eq_dec : EqDecision UEvent.
Proof. solve_decision. Defined.

Inductive UdevCommand : Type :=
| UdevAdd (x : UEvent)
| UdevChange (x : UEvent)
| UdevRemove (x : UEvent).

(** * Pools *)

(** [zed::zpool::Guid] and the other one-field structs around a [String]. *)
Record Guid : Type := MkGuid { guid_str : string }.
Record ZpoolName : Type := MkZpoolName { zpn_str : string }.
Record ZpoolState : Type := MkZpoolState { zps_str : string }.
Record ZfsName : Type := MkZfsName { zfn_str : string }.
Record PropKey : Type := MkPropKey { pk_str : string }.
Record PropValue : Type := MkPropValue { pv_str : string }.

(** [From<u64> for Guid]: [format!("{:#018X}", x)]. *)
Definition Guid_from_u64 (x : Z) : Guid := MkGuid ("0x" +:+ hex_digits 16 x).

(** [From<Guid> for Result<u64, ParseIntError>]. *)
Definition Guid_to_u64 (g : Guid) : Result ParseIntError Z :=
  u64_from_str_radix 16 (trim_start_matches "0x" (guid_str g)).

Section Libzfs.
Context {L : LibZfs}.

(** [libzfs_types::Dataset] and [libzfs_types::Pool]. *)
Record ZDataset : Type := MkZDataset {
  zd_name : string;
  zd_kind : string;
  zd_guid : string;
  zd_props : list ZProp;
  zd_rest : dataset_info;
}.

Record Pool : Type := MkPool {
  po_guid : Z;
  po_name : string;
  po_health : string;
  po_state : string;
  po_size : string;
  po_vdev : VDev vdev_info;
  po_props : list ZProp;
  po_datasets : list ZDataset;
  po_rest : pool_info;
}.

(** [libzfs_types::LibZfsError]: the two the code raises, and the others. *)
Inductive LibZfsError : Type :=
| PoolNotFound (name : option string) (guid : option Z)
| ZfsNotFound (name : string)
| OtherZfsError (e : libzfs_other).

Inductive PoolCommand : Type :=
| AddPools (pools : list Pool)
| AddPool (pool : Pool)
| UpdatePool (pool : Pool)
| RemovePool (guid : Guid)
| AddDataset (guid : Guid) (dataset : ZDataset)
| RemoveDataset (guid : Guid) (name : ZfsName)
| PoolSetZpoolProp (guid : Guid) (k : PropKey) (v : PropValue)
| PoolSetZfsProp (guid : Guid) (name : ZfsName) (k : PropKey) (v : PropValue).

Inductive ZedCommand : Type :=
| ZedInit
| CreateZpool (name : ZpoolName) (guid : Guid) (state : ZpoolState)
| ImportZpool (name : ZpoolName) (guid : Guid) (state : ZpoolState)
| ExportZpool (guid : Guid) (state : ZpoolState)
| DestroyZpool (guid : Guid)
| CreateZfs (guid : Guid) (name : ZfsName)
| DestroyZfs (guid : Guid) (name : ZfsName)
| ZedSetZpoolProp (guid : Guid) (k : PropKey) (v : PropValue)
| ZedSetZfsProp (guid : Guid) (name : ZfsName) (k : PropKey) (v : PropValue)
| AddVdev (name : ZpoolName) (guid : Guid).

Inductive Command : Type :=
| CmdStream
| CmdGetMounts
| CmdPool (c : PoolCommand)
| CmdUdev (c : UdevCommand)
| CmdMount (c : MountCommand).

(** [state::State]. A [HashMap<PathBuf, _>] is indexed by the path's components,
    a [HashSet<Mount>] by the mount's key: what Rust's [Hash] and [Eq] read. *)
Record State : Type := MkState {
  st_uevents : gmap key UEvent;
  st_zed_events : gmap Z Pool;
  st_local_mounts : gmap key Mount;
}.

Definition State_new : State :=
  {| st_uevents := ∅; st_zed_events := ∅; st_local_mounts := ∅ |}.

End Libzfs.

(** * Properties *)

Lemma trim_start_matches_once p s :
  p <> "" -> starts_with p s = false -> trim_start_matches p (p +:+ s) = s.
Proof.
  intros Hp Hs. unfold trim_start_matches.
  assert (forall n, (slen s <= n)%nat -> strip_prefixes [p] n s = s) as Hstop.
  { intros [|n] _; simpl; [done|]. rewrite Hs. by case_decide. }
  destruct p as [|a p]; [done|]. rewrite slen_app.
  change (slen (String a p) + slen s)%nat with (S (slen p + slen s)).
  cbn [strip_prefixes list_find]. rewrite (decide_True (P := starts_with _ _ = true)).
  - rewrite sdrop_app. apply Hstop. lia.
  - apply starts_with_app.
Qed.

(** Hexadecimal digits never form the prefix [0x]. *)
Lemma hex_digits_no_prefix n x : starts_with "0x" (hex_digits n x) = false.
Proof.
  destruct (starts_with "0x" (hex_digits n x)) eqn:E; [|done].
  apply starts_with_spec in E as [r Hr].
  assert (forall m y, contains_char "x" (hex_digits m y) = false) as Hx.
  { clear. induction m as [|m IH]; intros y; [done|]. simpl.
    assert (forall s t, contains_char "x" (s +:+ t) =
              contains_char "x" s || contains_char "x" t) as Happ.
    { induction s as [|a s IHs]; intros t; [done|]. rewrite str_app_cons. simpl.
      by rewrite IHs, orb_assoc. }
    rewrite Happ, IH. simpl. rewrite orb_false_r.
    pose proof (Z.mod_pos_bound y 16 ltac:(lia)) as Hb.
    pose proof (to_digit_hex _ Hb) as Hd.
    destruct (Ascii.eqb_spec (hex_digit (y mod 16)) "x") as [Heq|]; [|done].
    by rewrite Heq in Hd. }
  specialize (Hx n x). by rewrite Hr in Hx.
Qed.

Lemma slen_hex_digits n x : slen (hex_digits n x) = n.
Proof.
  revert x. induction n as [|n IH]; intros x; [done|]. cbn [hex_digits].
  rewrite slen_app, IH. unfold slen. simpl. lia.
Qed.

(** A pool guid survives the trip through its printed form: formatting a
    [u64] as [{:#018X}] and parsing it back gives the same number. *)
Theorem guid_round_trip x : is_u64 x -> Guid_to_u64 (Guid_from_u64 x) = Ok x.
Proof.
  intros Hx. unfold Guid_to_u64, Guid_from_u64. cbn [guid_str].
  rewrite trim_start_matches_once by (done || apply hex_digits_no_prefix).
  unfold u64_from_str_radix, from_str_radix.
  destruct (hex_digits 16 x) as [|a s] eqn:E.
  - apply (f_equal slen) in E. by rewrite slen_hex_digits in E.
  - assert (parse_pos 16 u64_max 0 (String a s) = Ok x) as Hparse.
    { rewrite <-E, parse_hex_digits; unfold is_u64, u64_max in *; [f_equal| | |]; lia. }
    assert (to_digit 16 a <> None) as Ha.
    { simpl in Hparse. by destruct (to_digit 16 a). }
    destruct (Ascii.eqb_spec a "+") as [->|]; [by destruct Ha|].
    change (0 <? 0) with false. by rewrite andb_false_r.
Qed.

Lemma guid_round_trip_witness :
  is_u64 255 /\ Guid_to_u64 (Guid_from_u64 255) = Ok 255.
Proof. split; [unfold is_u64; lia|]. apply guid_round_trip. unfold is_u64. lia. Defined.

Lemma component_key_inj c1 c2 : component_key c1 = component_key c2 -> c1 = c2.
Proof. destruct c1, c2; simpl; unfold kvariant; congruence. Qed.

#[export] Instance component_key_injective : Inj (=) (=) component_key.
Proof. intros x y. apply component_key_inj. Qed.

(** Paths with the same key are the same path to Rust. *)
Lemma path_key_eq p q : path_key p = path_key q <-> components p = components q.
Proof.
  unfold path_key. split; [|by intros ->]. intros [= H]. by apply (inj (fmap component_key)) in H.
Qed.

Lemma find_sort_slot_components a b :
  components (dp_path a) = components (dp_path b) -> find_sort_slot a = find_sort_slot b.
Proof.
  intros H. unfold find_sort_slot, sort_slots, path_starts_with. simpl. by rewrite H.
Qed.

Lemma device_path_eqv a b : eqv a b <-> device_path_eq a b = true.
Proof.
  unfold eqv, device_path_eq, path_eqb. rewrite bool_decide_eq_true, <-path_key_eq. split.
  - unfold key_of, DevicePath_keyed. congruence.
  - intros H. unfold key_of, DevicePath_keyed. rewrite H. do 3 f_equal.
    by apply find_sort_slot_components, path_key_eq.
Qed.

(** [Ord for DevicePath] is a total order that agrees with [PartialEq] and
    ranks paths by class first: comparison is antisymmetric and transitive,
    answers [Equal] exactly on equal paths, and a path of an earlier class
    ([/dev/mapper], then [by-id], then [by-path]) is smaller. *)
Theorem device_path_ord a b c :
  device_path_cmp a b = cmp a b /\
  (device_path_cmp a b = Eq <-> device_path_eq a b = true) /\
  device_path_cmp b a = CompOpp (device_path_cmp a b) /\
  (device_path_cmp a b = Lt -> device_path_cmp b c = Lt -> device_path_cmp a c = Lt) /\
  (find_sort_slot a < find_sort_slot b -> device_path_cmp a b = Lt).
Proof.
  assert (forall x y, device_path_cmp x y = cmp x y) as Hcmp.
  { intros x y. unfold device_path_cmp, cmp, key_of, DevicePath_keyed.
    rewrite kcmp_KL. cbn [lcmp kcmp]. destruct (Z.compare _ _); try done.
    by destruct (kcmp (path_key (dp_path x)) (path_key (dp_path y))). }
  rewrite !Hcmp. repeat split.
  - unfold cmp. rewrite kcmp_eq. apply device_path_eqv.
  - unfold cmp. rewrite kcmp_eq. apply device_path_eqv.
  - unfold cmp. apply kcmp_antisym.
  - apply kcmp_trans.
  - intros Hlt. rewrite <-Hcmp. unfold device_path_cmp. by rewrite (proj2 (Z.compare_lt_iff _ _) Hlt).
Qed.

(** [OrdSet::get_min] on the paths of a device gives one of the best class:
    no path of the set has an earlier slot than the first. *)
Theorem get_min_best_slot (p q : DevicePath) (ps : list DevicePath) :
  oset_wf (p :: ps) -> q ∈ p :: ps -> find_sort_slot p <= find_sort_slot q.
Proof.
  intros Hwf [->|Hq]%elem_of_cons; [lia|].
  pose proof (oset_wf_head _ _ _ Hwf Hq) as Hlt. unfold klt, key_of, DevicePath_keyed in Hlt.
  rewrite kcmp_KL in Hlt. simpl in Hlt.
  destruct (Z.compare_spec (find_sort_slot p) (find_sort_slot q)); try done; lia.
Qed.

Lemma get_min_best_slot_witness :
  let ps := set_from true [MkDevicePath "/dev/sda"; MkDevicePath "/dev/mapper/mpatha"] in
  oset_wf ps /\ head ps = Some (MkDevicePath "/dev/mapper/mpatha") /\
  find_sort_slot (MkDevicePath "/dev/mapper/mpatha") <= find_sort_slot (MkDevicePath "/dev/sda").
Proof.
  intros ps. split; [apply set_from_wf|]. split; [by vm_compute|].
  apply (get_min_best_slot _ _ [MkDevicePath "/dev/sda"]); [|by right; left].
  change (oset_wf ps). apply set_from_wf.
Defined.

(** ** The paths of a vdev *)

(** The vdevs directly below one. *)
Definition vdev_kids {I} (v : VDev I) : list (VDev I) :=
  match v with
  | VDisk _ _ _ | VFile _ => []
  | VMirror _ vs | VRaidZ _ vs | VReplacing _ vs => vs
  | VRoot _ cs ss ca => cs ++ ss ++ ca
  end.

(** The disks below a vdev. *)
Inductive vdev_disk {I} : VDev I -> option string -> PathBuf -> Prop :=
| vd_disk i d p : vdev_disk (VDisk i d p) d p
| vd_kid v c d p : c ∈ vdev_kids v -> vdev_disk c d p -> vdev_disk v d p.

(** The path a disk is known by: by its id when it has one. *)
Definition disk_path (dev_id : option string) (path : PathBuf) : DevicePath :=
  MkDevicePath (match dev_id with Some x => "/dev/disk/by-id/" +:+ x | None => path end).

Lemma VDev_ind' {I} (P : VDev I -> Prop) :
  (forall v, Forall P (vdev_kids v) -> P v) -> forall v, P v.
Proof.
  intros H. fix IH 1.
  intros [i d p|i|i vs|i vs|i vs|i cs ss ca]; apply H; simpl; try constructor.
  4: apply Forall_app; split; [|apply Forall_app; split].
  4: induction cs as [|v vs IHvs].
  6: induction ss as [|v vs IHvs].
  8: induction ca as [|v vs IHvs].
  1-3: induction vs as [|v vs IHvs].
  all: constructor; (apply IH || apply IHvs).
Qed.

Lemma get_vdev_paths_kids {I} (v : VDev I) k :
  (forall i d p, v <> VDisk i d p) ->
  k ∈ (key_of <$> get_vdev_paths v) <->
  exists c, c ∈ vdev_kids v /\ k ∈ (key_of <$> get_vdev_paths c).
Proof.
  assert (forall vs : list (VDev I), k ∈ (key_of <$> set_from false (vs ≫= get_vdev_paths)) <->
    exists c, c ∈ vs /\ k ∈ (key_of <$> get_vdev_paths c)) as Hbind.
  { intros vs. rewrite set_from_keys. setoid_rewrite list_elem_of_fmap.
    setoid_rewrite list_elem_of_bind. naive_solver. }
  intros Hv. destruct v as [i d p|i|i vs|i vs|i vs|i cs ss ca];
    cbn [get_vdev_paths vdev_kids]; rewrite <-?bind_app; try apply Hbind.
  - by destruct (Hv i d p).
  - csimpl. setoid_rewrite elem_of_nil. naive_solver.
Qed.

(** [get_vdev_paths] collects, in an ordered set, exactly the paths of the
    disks under a vdev (children, spares and cache of a root included; a file
    has none). *)
Theorem get_vdev_paths_spec {I} (v : VDev I) :
  oset_wf (get_vdev_paths v) /\
  forall k, k ∈ (key_of <$> get_vdev_paths v) <->
            exists d p, vdev_disk v d p /\ k = key_of (disk_path d p).
Proof.
  split; [destruct v; simpl; eauto with iml; constructor; constructor|].
  induction v as [v IH] using VDev_ind'. intros k. rewrite Forall_forall in IH.
  assert ((exists i d p, v = VDisk i d p) \/ forall i d p, v <> VDisk i d p)
    as [(i & d & p & ->)|Hnd] by (destruct v; eauto; right; congruence).
  - simpl. rewrite list_elem_of_singleton. split.
    + intros ->. exists d, p. split; [constructor|done].
    + intros (d' & p' & H & ->). by inversion H as [|? ? ? ? Hc]; subst; [|inversion Hc].
  - rewrite get_vdev_paths_kids by naive_solver. split.
    + intros (c & Hc & (d & p & ? & ?)%IH); [|done]. exists d, p. split; [by econstructor|done].
    + intros (d & p & H & ->). destruct H as [i d p|v c d p Hc Hd]; [naive_solver|].
      exists c. split; [done|]. apply IH; eauto.
Qed.
