(* ===== verification/Samples.v ===== *)
(** Concrete devices on which the theorems are evaluated: a disk with a
    partition, an MD array, and a pool on the partition. *)
From S2P Require Import Prelude RustStd Ordering DeviceTypes.
From stdpp Require Import base gmap sets list strings.
From Stdlib Require Import ZArith Ascii.

Open Scope Z_scope.

(** ZFS types without further fields. *)
Definition sample_libzfs : LibZfs :=
  {| vdev_info := unit; pool_info := unit; dataset_info := unit; libzfs_other := unit;
     vdev_key := fun _ => KL [] |}.

#[local] Existing Instance sample_libzfs.

(** An event with the fields every event has, and nothing else. *)
Definition blank_event (major minor : string) (paths : list string) (devpath : string)
    (size : option Z) : UEvent :=
  {| ue_major := major; ue_minor := minor; ue_seqnum := 1;
     ue_paths := set_from true (MkDevicePath <$> paths);
     ue_devname := default "" (head paths); ue_devpath := devpath; ue_devtype := "disk";
     ue_vendor := None; ue_model := None; ue_serial := None; ue_fs_type := None;
     ue_fs_usage := None; ue_fs_uuid := None; ue_fs_label := None;
     ue_part_entry_number := None; ue_part_entry_mm := None; ue_size := size;
     ue_rotational := None; ue_scsi80 := None; ue_scsi83 := None; ue_read_only := Some false;
     ue_bios_boot := None; ue_zfs_reserved := None; ue_is_mpath := None;
     ue_dm_slave_mms := []; ue_dm_vg_size := None; ue_md_devs := [];
     ue_dm_multipath_devpath := None; ue_dm_name := None; ue_dm_lv_name := None;
     ue_lv_uuid := None; ue_dm_vg_name := None; ue_vg_uuid := None; ue_md_uuid := None |}.

Definition sample_disk : UEvent :=
  blank_event "8" "0" ["/dev/sda"; "/dev/disk/by-id/scsi-1"] "/devices/sda" (Some 1024).

Definition sample_partition : UEvent :=
  let e := blank_event "8" "1" ["/dev/sda1"] "/devices/sda/sda1" (Some 512) in
  {| ue_major := ue_major e; ue_minor := ue_minor e; ue_seqnum := 2; ue_paths := ue_paths e;
     ue_devname := ue_devname e; ue_devpath := ue_devpath e; ue_devtype := "partition";
     ue_vendor := None; ue_model := None; ue_serial := None; ue_fs_type := Some "ext4";
     ue_fs_usage := None; ue_fs_uuid := None; ue_fs_label := None;
     ue_part_entry_number := Some 1; ue_part_entry_mm := Some "8:0"; ue_size := ue_size e;
     ue_rotational := None; ue_scsi80 := None; ue_scsi83 := None; ue_read_only := Some false;
     ue_bios_boot := None; ue_zfs_reserved := None; ue_is_mpath := None;
     ue_dm_slave_mms := []; ue_dm_vg_size := None; ue_md_devs := [];
     ue_dm_multipath_devpath := None; ue_dm_name := None; ue_dm_lv_name := None;
     ue_lv_uuid := None; ue_dm_vg_name := None; ue_vg_uuid := None; ue_md_uuid := None |}.

(** An array of two disks, [sdb] and [sdc]. *)
Definition sample_md : UEvent :=
  let e := blank_event "9" "0" ["/dev/md0"] "/devices/md0" (Some 2048) in
  {| ue_major := ue_major e; ue_minor := ue_minor e; ue_seqnum := 3; ue_paths := ue_paths e;
     ue_devname := ue_devname e; ue_devpath := ue_devpath e; ue_devtype := "disk";
     ue_vendor := None; ue_model := None; ue_serial := None; ue_fs_type := None;
     ue_fs_usage := None; ue_fs_uuid := None; ue_fs_label := None;
     ue_part_entry_number := None; ue_part_entry_mm := None; ue_size := ue_size e;
     ue_rotational := None; ue_scsi80 := None; ue_scsi83 := None; ue_read_only := Some false;
     ue_bios_boot := None; ue_zfs_reserved := None; ue_is_mpath := None;
     ue_dm_slave_mms := []; ue_dm_vg_size := None;
     ue_md_devs := set_from true [MkDevicePath "/dev/sdb"; MkDevicePath "/dev/sdc"];
     ue_dm_multipath_devpath := None; ue_dm_name := None; ue_dm_lv_name := None;
     ue_lv_uuid := None; ue_dm_vg_name := None; ue_vg_uuid := None; ue_md_uuid := Some "m0" |}.

(** A pool on the partition with one dataset. *)
Definition sample_pool : Pool (L := sample_libzfs) :=
  {| po_guid := 7; po_name := "tank"; po_health := "ONLINE"; po_state := "ACTIVE";
     po_size := "4096"; po_vdev := VDisk (I := vdev_info) tt None "/dev/sda1";
     po_props := [];
     po_datasets := [{| zd_name := "tank/ost0"; zd_guid := "11"; zd_kind := "filesystem";
                        zd_props := []; zd_rest := tt |}];
     po_rest := tt |}.
