(* ===== verification/Devices.v ===== *)
(** The device tree of [device-types/src/devices.rs]: one record per kind of
    device, the [Device] enum over them, its derived order, and the searches the
    manager runs on a tree. *)
From S2P Require Import Prelude RustStd Ordering DeviceTypes.
From stdpp Require Import base gmap sets list strings.
From Stdlib Require Import ZArith Ascii.

Open Scope Z_scope.

(** * The tree

    [D] is the type of the children, [Device] itself below. *)

Record Root (D : Type) : Type := MkRoot { ro_children : list D }.

Record ScsiDevice (D : Type) : Type := MkScsiDevice {
  sd_serial : option string;
  sd_scsi80 : option string;
  sd_major : string;
  sd_minor : string;
  sd_devpath : PathBuf;
  sd_size : Z;
  sd_filesystem_type : option string;
  sd_fs_uuid : option string;
  sd_fs_label : option string;
  sd_paths : list DevicePath;
  sd_mount : option Mount;
  sd_children : list D;
}.

Record Partition (D : Type) : Type := MkPartition {
  pa_serial : option string;
  pa_scsi80 : option string;
  pa_partition_number : Z;
  pa_size : Z;
  pa_major : string;
  pa_minor : string;
  pa_devpath : PathBuf;
  pa_filesystem_type : option string;
  pa_fs_uuid : option string;
  pa_fs_label : option string;
  pa_paths : list DevicePath;
  pa_mount : option Mount;
  pa_children : list D;
}.

Record MdRaid (D : Type) : Type := MkMdRaid {
  md_size : Z;
  md_major : string;
  md_minor : string;
  md_filesystem_type : option string;
  md_fs_uuid : option string;
  md_fs_label : option string;
  md_paths : list DevicePath;
  md_mount : option Mount;
  md_uuid : string;
  md_children : list D;
}.

Record Mpath (D : Type) : Type := MkMpath {
  mp_devpath : PathBuf;
  mp_serial : option string;
  mp_scsi80 : option string;
  mp_dm_name : string;
  mp_size : Z;
  mp_major : string;
  mp_minor : string;
  mp_filesystem_type : option string;
  mp_fs_uuid : option string;
  mp_fs_label : option string;
  mp_paths : list DevicePath;
  mp_children : list D;
  mp_mount : option Mount;
}.

Record VolumeGroup (D : Type) : Type := MkVolumeGroup {
  vg_name : string;
  vg_uuid : string;
  vg_size : Z;
  vg_children : list D;
}.

Record LogicalVolume (D : Type) : Type := MkLogicalVolume {
  lv_name : string;
  lv_uuid : string;
  lv_major : string;
  lv_minor : string;
  lv_size : Z;
  lv_children : list D;
  lv_devpath : PathBuf;
  lv_paths : list DevicePath;
  lv_filesystem_type : option string;
  lv_fs_uuid : option string;
  lv_fs_label : option string;
  lv_mount : option Mount;
}.

Record Zpool (I D : Type) : Type := MkZpool {
  zo_guid : Z;
  zo_name : string;
  zo_health : string;
  zo_state : string;
  zo_size : Z;
  zo_vdev : VDev I;
  zo_props : list ZProp;
  zo_children : list D;
  zo_mount : option Mount;
}.

Record Dataset : Type := MkDataset {
  ds_guid : Z;
  ds_name : string;
  ds_kind : string;
  ds_props : list ZProp;
  ds_mount : option Mount;
}.

Arguments MkRoot {D}. Arguments MkScsiDevice {D}. Arguments MkPartition {D}.
Arguments MkMdRaid {D}. Arguments MkMpath {D}. Arguments MkVolumeGroup {D}.
Arguments MkLogicalVolume {D}. Arguments MkZpool {I D}.
Arguments ro_children {D} _.
Arguments sd_serial {D} _. Arguments sd_scsi80 {D} _. Arguments sd_major {D} _.
Arguments sd_minor {D} _. Arguments sd_devpath {D} _. Arguments sd_size {D} _.
Arguments sd_filesystem_type {D} _. Arguments sd_fs_uuid {D} _. Arguments sd_fs_label {D} _.
Arguments sd_paths {D} _. Arguments sd_mount {D} _. Arguments sd_children {D} _.
Arguments pa_serial {D} _. Arguments pa_scsi80 {D} _. Arguments pa_partition_number {D} _.
Arguments pa_size {D} _. Arguments pa_major {D} _. Arguments pa_minor {D} _.
Arguments pa_devpath {D} _. Arguments pa_filesystem_type {D} _. Arguments pa_fs_uuid {D} _.
Arguments pa_fs_label {D} _. Arguments pa_paths {D} _. Arguments pa_mount {D} _.
Arguments pa_children {D} _.
Arguments md_size {D} _. Arguments md_major {D} _. Arguments md_minor {D} _.
Arguments md_filesystem_type {D} _. Arguments md_fs_uuid {D} _. Arguments md_fs_label {D} _.
Arguments md_paths {D} _. Arguments md_mount {D} _. Arguments md_uuid {D} _.
Arguments md_children {D} _.
Arguments mp_devpath {D} _. Arguments mp_serial {D} _. Arguments mp_scsi80 {D} _.
Arguments mp_dm_name {D} _. Arguments mp_size {D} _. Arguments mp_major {D} _.
Arguments mp_minor {D} _. Arguments mp_filesystem_type {D} _. Arguments mp_fs_uuid {D} _.
Arguments mp_fs_label {D} _. Arguments mp_paths {D} _. Arguments mp_children {D} _.
Arguments mp_mount {D} _.
Arguments vg_name {D} _. Arguments vg_uuid {D} _. Arguments vg_size {D} _.
Arguments vg_children {D} _.
Arguments lv_name {D} _. Arguments lv_uuid {D} _. Arguments lv_major {D} _.
Arguments lv_minor {D} _. Arguments lv_size {D} _. Arguments lv_children {D} _.
Arguments lv_devpath {D} _. Arguments lv_paths {D} _. Arguments lv_filesystem_type {D} _.
Arguments lv_fs_uuid {D} _. Arguments lv_fs_label {D} _. Arguments lv_mount {D} _.
Arguments zo_guid {I D} _. Arguments zo_name {I D} _. Arguments zo_health {I D} _.
Arguments zo_state {I D} _. Arguments zo_size {I D} _. Arguments zo_vdev {I D} _.
Arguments zo_props {I D} _. Arguments zo_children {I D} _. Arguments zo_mount {I D} _.

Inductive Device {L : LibZfs} : Type :=
| DRoot (x : Root Device)
| DScsiDevice (x : ScsiDevice Device)
| DPartition (x : Partition Device)
| DMdRaid (x : MdRaid Device)
| DMpath (x : Mpath Device)
| DVolumeGroup (x : VolumeGroup Device)
| DLogicalVolume (x : LogicalVolume Device)
| DZpool (x : Zpool vdev_info Device)
| DDataset (x : Dataset).

(** [Default for Root]. *)
Definition Root_default {L : LibZfs} : Root Device := {| ro_children := [] |}.

(** [DeviceId]. *)
Record DeviceId : Type := MkDeviceId { did_str : string }.

#[export] Instance DeviceId_eq_dec : EqDecision DeviceId.
Proof. solve_decision. Defined.

#[export] Instance DeviceId_keyed : Keyed DeviceId := fun i => KS (did_str i).

Section Devices.
Context {L : LibZfs}.

(** [Device::children]. *)
Definition device_children (d : Device) : option (list Device) :=
  match d with
  | DRoot x => Some (ro_children x)
  | DScsiDevice x => Some (sd_children x)
  | DPartition x => Some (pa_children x)
  | DMdRaid x => Some (md_children x)
  | DMpath x => Some (mp_children x)
  | DVolumeGroup x => Some (vg_children x)
  | DLogicalVolume x => Some (lv_children x)
  | DZpool x => Some (zo_children x)
  | DDataset _ => None
  end.

(** The children, none for a dataset. *)
Definition kids (d : Device) : list Device := default [] (device_children d).

(** [Device::get_id]. *)
Definition get_id (d : Device) : option DeviceId :=
  match d with
  | DRoot _ => Some (MkDeviceId "root")
  | DScsiDevice x => s ← sd_serial x; Some (MkDeviceId ("scsi_" +:+ s))
  | DPartition x =>
      s ← pa_serial x;
      Some (MkDeviceId ("partition" +:+ fmt_int (pa_partition_number x) +:+ "_" +:+ s))
  | DMdRaid x => Some (MkDeviceId ("mdraid_" +:+ md_uuid x))
  | DMpath x => s ← mp_serial x; Some (MkDeviceId ("mpath_" +:+ s))
  | DVolumeGroup x => Some (MkDeviceId ("vg_" +:+ vg_uuid x))
  | DLogicalVolume x => Some (MkDeviceId ("lv_" +:+ lv_uuid x))
  | DZpool x => Some (MkDeviceId ("zpool_" +:+ fmt_int (zo_guid x)))
  | DDataset x => Some (MkDeviceId ("dataset_" +:+ fmt_int (ds_guid x)))
  end.

(** [Device::get_fs_uuid]. *)
Definition get_fs_uuid (d : Device) : option string :=
  match d with
  | DRoot _ => None
  | DScsiDevice x => sd_fs_uuid x
  | DPartition x => pa_fs_uuid x
  | DMdRaid x => md_fs_uuid x
  | DMpath x => mp_fs_uuid x
  | DVolumeGroup _ => None
  | DLogicalVolume x => lv_fs_uuid x
  | DZpool _ => None
  | DDataset x => p ← list_find (fun p => zp_name p = "guid") (ds_props x); Some (zp_value p.2)
  end.

(** [Device::find_device_by_devpath]. *)
Fixpoint find_device_by_devpath (dev_path : DevicePath) (d : Device) : option Device :=
  match d with
  | DRoot x => find_map (find_device_by_devpath dev_path) (ro_children x)
  | DScsiDevice x =>
      if set_contains dev_path (sd_paths x) then Some d
      else find_map (find_device_by_devpath dev_path) (sd_children x)
  | DPartition x =>
      if set_contains dev_path (pa_paths x) then Some d
      else find_map (find_device_by_devpath dev_path) (pa_children x)
  | DMdRaid x =>
      if set_contains dev_path (md_paths x) then Some d
      else find_map (find_device_by_devpath dev_path) (md_children x)
  | DMpath x =>
      if set_contains dev_path (mp_paths x) then Some d
      else find_map (find_device_by_devpath dev_path) (mp_children x)
  | DVolumeGroup x => find_map (find_device_by_devpath dev_path) (vg_children x)
  | DLogicalVolume x =>
      if set_contains dev_path (lv_paths x) then Some d
      else find_map (find_device_by_devpath dev_path) (lv_children x)
  | DZpool x => find_map (find_device_by_devpath dev_path) (zo_children x)
  | DDataset x => if String.eqb (ds_name x) (dp_path dev_path) then Some d else None
  end.

(** [Device::find_device_by_id]: the [?] on [get_id] leaves the search of the
    whole subtree when a device has no id. *)
Fixpoint find_device_by_id (id : DeviceId) (d : Device) : option Device :=
  match d with
  | DRoot x => find_map (find_device_by_id id) (ro_children x)
  | DScsiDevice x =>
      i ← get_id d;
      if bool_decide (i = id) then Some d else find_map (find_device_by_id id) (sd_children x)
  | DPartition x =>
      i ← get_id d;
      if bool_decide (i = id) then Some d else find_map (find_device_by_id id) (pa_children x)
  | DMdRaid x =>
      i ← get_id d;
      if bool_decide (i = id) then Some d else find_map (find_device_by_id id) (md_children x)
  | DMpath x =>
      i ← get_id d;
      if bool_decide (i = id) then Some d else find_map (find_device_by_id id) (mp_children x)
  | DVolumeGroup x =>
      i ← get_id d;
      if bool_decide (i = id) then Some d else find_map (find_device_by_id id) (vg_children x)
  | DLogicalVolume x =>
      i ← get_id d;
      if bool_decide (i = id) then Some d else find_map (find_device_by_id id) (lv_children x)
  | DZpool x =>
      i ← get_id d;
      if bool_decide (i = id) then Some d else find_map (find_device_by_id id) (zo_children x)
  | DDataset _ =>
      i ← get_id d;
      if bool_decide (i = id) then Some d else None
  end.

(** The derived [Ord] of [Device]: variant index, then the fields in the order
    of their declaration. *)
Fixpoint device_key (d : Device) : key :=
  match d with
  | DRoot x => kvariant 0 [KL [KL (device_key <$> ro_children x)]]
  | DScsiDevice x => kvariant 1 [KL
      [key_of (sd_serial x); key_of (sd_scsi80 x); KS (sd_major x); KS (sd_minor x);
       path_key (sd_devpath x); KZ (sd_size x); key_of (sd_filesystem_type x);
       key_of (sd_fs_uuid x); key_of (sd_fs_label x); key_of (sd_paths x);
       key_of (sd_mount x); KL (device_key <$> sd_children x)]]
  | DPartition x => kvariant 2 [KL
      [key_of (pa_serial x); key_of (pa_scsi80 x); KZ (pa_partition_number x); KZ (pa_size x);
       KS (pa_major x); KS (pa_minor x); path_key (pa_devpath x);
       key_of (pa_filesystem_type x); key_of (pa_fs_uuid x); key_of (pa_fs_label x);
       key_of (pa_paths x); key_of (pa_mount x); KL (device_key <$> pa_children x)]]
  | DMdRaid x => kvariant 3 [KL
      [KZ (md_size x); KS (md_major x); KS (md_minor x); key_of (md_filesystem_type x);
       key_of (md_fs_uuid x); key_of (md_fs_label x); key_of (md_paths x);
       key_of (md_mount x); KS (md_uuid x); KL (device_key <$> md_children x)]]
  | DMpath x => kvariant 4 [KL
      [path_key (mp_devpath x); key_of (mp_serial x); key_of (mp_scsi80 x);
       KS (mp_dm_name x); KZ (mp_size x); KS (mp_major x); KS (mp_minor x);
       key_of (mp_filesystem_type x); key_of (mp_fs_uuid x); key_of (mp_fs_label x);
       key_of (mp_paths x); KL (device_key <$> mp_children x); key_of (mp_mount x)]]
  | DVolumeGroup x => kvariant 5 [KL
      [KS (vg_name x); KS (vg_uuid x); KZ (vg_size x); KL (device_key <$> vg_children x)]]
  | DLogicalVolume x => kvariant 6 [KL
      [KS (lv_name x); KS (lv_uuid x); KS (lv_major x); KS (lv_minor x); KZ (lv_size x);
       KL (device_key <$> lv_children x); path_key (lv_devpath x); key_of (lv_paths x);
       key_of (lv_filesystem_type x); key_of (lv_fs_uuid x); key_of (lv_fs_label x);
       key_of (lv_mount x)]]
  | DZpool x => kvariant 7 [KL
      [KZ (zo_guid x); KS (zo_name x); KS (zo_health x); KS (zo_state x); KZ (zo_size x);
       vdev_key (zo_vdev x); key_of (zo_props x); KL (device_key <$> zo_children x);
       key_of (zo_mount x)]]
  | DDataset x => kvariant 8 [KL
      [KZ (ds_guid x); KS (ds_name x); KS (ds_kind x); key_of (ds_props x);
       key_of (ds_mount x)]]
  end.

#[export] Instance Device_keyed : Keyed Device := device_key.

End Devices.

(** * Properties *)

Section DeviceProperties.
Context {L : LibZfs}.
Implicit Types (d c : Device).

(** Induction over a tree through the children. *)
Lemma Device_ind' (P : Device -> Prop) :
  (forall d, Forall P (kids d) -> P d) -> forall d, P d.
Proof.
  intros H. fix IH 1.
  intros [[ch]|[? ? ? ? ? ? ? ? ? ? ? ch]|[? ? ? ? ? ? ? ? ? ? ? ? ch]|[? ? ? ? ? ? ? ? ? ch]|[? ? ? ? ? ? ? ? ? ? ? ch ?]
         |[? ? ? ch]|[? ? ? ? ? ch ? ? ? ? ? ?]|[? ? ? ? ? ? ? ch ?]|x]; apply H; cbn;
    try solve [constructor].
  all: induction ch as [|c ch IHch]; constructor; (apply IH || apply IHch).
Qed.

(** [below d c]: [c] is [d] or a descendant of it. *)
Inductive below : Device -> Device -> Prop :=
| below_refl d : below d d
| below_kid d c e : c ∈ kids d -> below c e -> below d e.

(** The devices a path names: those that list it, and the dataset of that name. *)
Definition has_devpath (p : DevicePath) d : bool :=
  match d with
  | DScsiDevice x => set_contains p (sd_paths x)
  | DPartition x => set_contains p (pa_paths x)
  | DMdRaid x => set_contains p (md_paths x)
  | DMpath x => set_contains p (mp_paths x)
  | DLogicalVolume x => set_contains p (lv_paths x)
  | DDataset x => String.eqb (ds_name x) (dp_path p)
  | DRoot _ | DVolumeGroup _ | DZpool _ => false
  end.

Lemma find_map_Some {A B} (f : A -> option B) l y :
  find_map f l = Some y -> exists x, x ∈ l /\ f x = Some y.
Proof.
  induction l as [|x l IH]; simpl; [done|]. destruct (f x) eqn:E.
  - intros [= <-]. exists x. split; [left|done].
  - intros (z & ? & ?)%IH. exists z. split; [by right|done].
Qed.

Lemma find_map_None {A B} (f : A -> option B) l :
  find_map f l = None <-> forall x, x ∈ l -> f x = None.
Proof.
  induction l as [|x l IH]; simpl; [split; [intros _ ? H; inversion H|done]|].
  destruct (f x) eqn:E.
  - split; [done|]. intros H. rewrite <-E. apply H. left.
  - rewrite IH. split.
    + intros H z [->|?]%elem_of_cons; auto.
    + intros H z ?. apply H. by right.
Qed.

(** One step of the search by path. *)
Lemma find_device_by_devpath_step p d :
  find_device_by_devpath p d =
  if has_devpath p d then Some d else find_map (find_device_by_devpath p) (kids d).
Proof. destruct d; simpl; try done; by case_match. Qed.

(** [find_device_by_devpath] finds a device of the tree that the path
    names, and finds one whenever the tree has one. *)
Theorem find_device_by_devpath_spec p d :
  (forall e, find_device_by_devpath p d = Some e -> below d e /\ has_devpath p e = true) /\
  (forall e, below d e -> has_devpath p e = true -> is_Some (find_device_by_devpath p d)).
Proof.
  induction d as [d IH] using Device_ind'. rewrite Forall_forall in IH.
  rewrite find_device_by_devpath_step. split; intros e.
  - destruct (has_devpath p d) eqn:E; [intros [= <-]; split; [constructor|done]|].
    intros (c & Hc & Hf)%find_map_Some. destruct (proj1 (IH c Hc) e Hf).
    split; [by econstructor|done].
  - intros Hb He. destruct (has_devpath p d) eqn:E; [eauto|].
    destruct Hb as [d|d c e Hc Hb]; [congruence|].
    destruct (find_map _ _) eqn:Ef; [eauto|].
    apply find_map_None with (x := c) in Ef; [|done].
    destruct (proj2 (IH c Hc) e Hb He). congruence.
Qed.

(** [visible d e]: a path from [d] to [e] on which every device has an id. *)
Inductive visible : Device -> Device -> Prop :=
| visible_self d : is_Some (get_id d) -> visible d d
| visible_kid d c e : is_Some (get_id d) -> c ∈ kids d -> visible c e -> visible d e.

Definition is_root d : bool := match d with DRoot _ => true | _ => false end.

Lemma find_device_by_id_step id d :
  find_device_by_id id d =
  match get_id d with
  | None => None
  | Some i =>
      if negb (is_root d) && bool_decide (i = id) then Some d
      else find_map (find_device_by_id id) (kids d)
  end.
Proof. destruct d; simpl; try done; repeat (case_match; simplify_eq/=; try done). Qed.

(** [find_device_by_id] finds exactly what is visible: a device other than
    a root, with that id, none of whose ancestors lacks an id. The [?] on
    [get_id] makes a device without an id hide everything below it. *)
Theorem find_device_by_id_spec id d :
  (forall e, find_device_by_id id d = Some e ->
     visible d e /\ get_id e = Some id /\ is_root e = false) /\
  (forall e, visible d e -> get_id e = Some id -> is_root e = false ->
     is_Some (find_device_by_id id d)).
Proof.
  induction d as [d IH] using Device_ind'. rewrite Forall_forall in IH.
  rewrite find_device_by_id_step. split; intros e.
  - destruct (get_id d) as [i|] eqn:Ei; [|done].
    destruct (negb (is_root d) && bool_decide (i = id)) eqn:E.
    + intros [= <-]. reflect. subst. split; [constructor; eauto|done].
    + intros (c & Hc & Hf)%find_map_Some. destruct (proj1 (IH c Hc) e Hf).
      split; [econstructor; eauto|done].
  - intros Hv He Hr. destruct Hv as [d [i Hi]|d c e [i Hi] Hc Hv]; rewrite Hi.
    + simplify_eq/=. rewrite Hr, bool_decide_eq_true_2 by congruence. eauto.
    + destruct (_ && _); [eauto|]. destruct (find_map _ _) eqn:Ef; [eauto|].
      apply find_map_None with (x := c) in Ef; [|done].
      destruct (proj2 (IH c Hc) e Hv He Hr). congruence.
Qed.

End DeviceProperties.
#[export] Hint Constructors below visible : iml.
