(* ===== verification/DeviceGraph.v ===== *)
(** The device graph of [device-scanner-daemon/src/state.rs]: udev events are
    filtered, sorted into buckets, and linked into a tree that starts at the
    root. A [HashMap] or [HashSet] is iterated in an order the program does not
    fix; here the iteration is the list the function is given. The recursion of
    [build_device_graph] is not structural: [fuel] bounds its depth, and [None]
    says that the bound was reached. *)
From S2P Require Import Prelude RustStd Ordering DeviceTypes Devices.
From stdpp Require Import base gmap sets list strings.
From Stdlib Require Import ZArith Ascii.

Open Scope Z_scope.

Section DeviceGraph.
Context {L : LibZfs}.

(** [error::Error]; foreign errors are kept as their message. *)
Inductive Error : Type :=
| EIo (msg : string)
| ETrySend (msg : string)
| ESerdeJson (msg : string)
| ELinesCodec (msg : string)
| ELibZfs (e : LibZfsError)
| EParseInt (e : ParseIntError)
| ENone (msg : string).

(** [error::none_error]. *)
Definition none_error (msg : string) : Error := ENone msg.

(** * Filters *)

Definition keep_usable (x : UEvent) : bool :=
  negb (bool_decide (ue_size x = Some 0)) && bool_decide (is_Some (ue_size x)) &&
  negb (bool_decide (ue_read_only x = Some true)) &&
  negb (bool_decide (ue_bios_boot x = Some true)).

Definition is_mpath (x : UEvent) : bool := bool_decide (ue_is_mpath x = Some true).

Definition is_dm (x : UEvent) : bool :=
  forallb (fun o => bool_decide (is_Some o)) [ue_lv_uuid x; ue_vg_uuid x; ue_dm_lv_name x].

Definition is_partition (x : UEvent) : bool := bool_decide (is_Some (ue_part_entry_mm x)).

Definition is_mdraid (x : UEvent) : bool := bool_decide (is_Some (ue_md_uuid x)).

Definition format_major_minor (major minor : string) : string := major +:+ ":" +:+ minor.

Definition find_by_major_minor (xs : list string) (major minor : string) : bool :=
  existsb (String.eqb (format_major_minor major minor)) xs.

Definition find_mount (xs : list DevicePath) (ys : list Mount) : option Mount :=
  List.find (fun m => existsb (fun x => device_path_eq x (mt_source m)) xs) ys.

(** * Buckets *)

Record Buckets : Type := MkBuckets {
  b_dms : list UEvent;
  b_mds : list UEvent;
  b_mpaths : list UEvent;
  b_partitions : list UEvent;
  b_pools : list Pool;
  b_rest : list UEvent;
}.

Definition no_buckets : Buckets :=
  {| b_dms := []; b_mds := []; b_mpaths := []; b_partitions := []; b_pools := []; b_rest := [] |}.

(** The fold's step: the first class an event belongs to takes it. *)
Definition bucket_step (acc : Buckets) (x : UEvent) : Buckets :=
  let 'MkBuckets dms mds mpaths partitions pools rest := acc in
  if is_dm x then MkBuckets (dms ++ [x]) mds mpaths partitions pools rest
  else if is_mdraid x then MkBuckets dms (mds ++ [x]) mpaths partitions pools rest
  else if is_mpath x then MkBuckets dms mds (mpaths ++ [x]) partitions pools rest
  else if is_partition x then MkBuckets dms mds mpaths (partitions ++ [x]) pools rest
  else MkBuckets dms mds mpaths partitions pools (rest ++ [x]).

Definition bucket_devices (xs : list UEvent) (pools : list Pool) : Buckets :=
  let 'MkBuckets dms mds mpaths partitions _ rest := foldl bucket_step no_buckets xs in
  MkBuckets dms mds mpaths partitions pools rest.

Definition build_device_list (values : list UEvent) : list UEvent :=
  List.filter keep_usable values.

(** * The devices of one bucket that hang below a given one *)

(** [iter().filter(p).map(f).collect::<Result<HashSet<Device>>>()]. *)
Definition collect_devices {A} (p : A -> bool) (f : A -> Result Error Device) (xs : list A) :
    Result Error (list Device) :=
  ys ← mapM f (List.filter p xs); Ok (set_from true ys).

Definition vg_of (x : UEvent) : Result Error Device :=
  name ← ok_or (none_error "Expected dm_vg_name") (ue_dm_vg_name x);
  size ← ok_or (none_error "Expected Size") (ue_dm_vg_size x);
  uuid ← ok_or (none_error "Expected vg_uuid") (ue_vg_uuid x);
  Ok (DVolumeGroup {| vg_name := name; vg_children := []; vg_size := size; vg_uuid := uuid |}).

Definition get_vgs (b : Buckets) (major minor : string) : Result Error (list Device) :=
  collect_devices (fun x => find_by_major_minor (ue_dm_slave_mms x) major minor) vg_of (b_dms b).

Definition partition_of (ys : list Mount) (x : UEvent) : Result Error Device :=
  let mount := find_mount (ue_paths x) ys in
  number ← ok_or (none_error "Expected part_entry_number") (ue_part_entry_number x);
  size ← ok_or (none_error "Expected size") (ue_size x);
  Ok (DPartition {|
    pa_serial := ue_scsi83 x; pa_scsi80 := ue_scsi80 x; pa_partition_number := number;
    pa_devpath := ue_devpath x; pa_major := ue_major x; pa_minor := ue_minor x;
    pa_size := size; pa_paths := ue_paths x; pa_filesystem_type := ue_fs_type x;
    pa_fs_uuid := ue_fs_uuid x; pa_fs_label := ue_fs_label x; pa_children := [];
    pa_mount := mount |}).

Definition get_partitions (b : Buckets) (ys : list Mount) (major minor : string) :
    Result Error (list Device) :=
  collect_devices
    (fun x => match ue_part_entry_mm x with
              | Some p => String.eqb p (format_major_minor major minor)
              | None => false
              end)
    (partition_of ys) (b_partitions b).

Definition lv_of (ys : list Mount) (x : UEvent) : Result Error Device :=
  let mount := find_mount (ue_paths x) ys in
  name ← ok_or (none_error "Expected dm_lv_name") (ue_dm_lv_name x);
  uuid ← ok_or (none_error "Expected lv_uuid") (ue_lv_uuid x);
  size ← ok_or (none_error "Expected size") (ue_size x);
  Ok (DLogicalVolume {|
    lv_name := name; lv_devpath := ue_devpath x; lv_uuid := uuid; lv_size := size;
    lv_major := ue_major x; lv_minor := ue_minor x; lv_paths := ue_paths x;
    lv_mount := mount; lv_filesystem_type := ue_fs_type x; lv_fs_uuid := ue_fs_uuid x;
    lv_fs_label := ue_fs_label x; lv_children := [] |}).

Definition get_lvs (b : Buckets) (ys : list Mount) (uuid : string) : Result Error (list Device) :=
  collect_devices
    (fun x => match ue_vg_uuid x with Some p => String.eqb p uuid | None => false end)
    (lv_of ys) (b_dms b).

Definition scsi_of (ys : list Mount) (x : UEvent) : Result Error Device :=
  let mount := find_mount (ue_paths x) ys in
  size ← ok_or (none_error "Expected size") (ue_size x);
  Ok (DScsiDevice {|
    sd_serial := ue_scsi83 x; sd_scsi80 := ue_scsi80 x; sd_devpath := ue_devpath x;
    sd_major := ue_major x; sd_minor := ue_minor x; sd_size := size;
    sd_filesystem_type := ue_fs_type x; sd_fs_uuid := ue_fs_uuid x;
    sd_fs_label := ue_fs_label x; sd_paths := ue_paths x; sd_children := [];
    sd_mount := mount |}).

Definition get_scsis (b : Buckets) (ys : list Mount) : Result Error (list Device) :=
  collect_devices (fun _ => true) (scsi_of ys) (b_rest b).

Definition mpath_of (ys : list Mount) (x : UEvent) : Result Error Device :=
  let mount := find_mount (ue_paths x) ys in
  name ← ok_or (none_error "Mpath device did not have a name") (ue_dm_name x);
  size ← ok_or (none_error "Expected size") (ue_size x);
  Ok (DMpath {|
    mp_serial := ue_scsi83 x; mp_scsi80 := ue_scsi80 x; mp_dm_name := name; mp_size := size;
    mp_major := ue_major x; mp_minor := ue_minor x; mp_paths := ue_paths x;
    mp_filesystem_type := ue_fs_type x; mp_fs_uuid := ue_fs_uuid x;
    mp_fs_label := ue_fs_label x; mp_children := []; mp_devpath := ue_devpath x;
    mp_mount := mount |}).

Definition get_mpaths (b : Buckets) (ys : list Mount) (major minor : string) :
    Result Error (list Device) :=
  collect_devices (fun x => find_by_major_minor (ue_dm_slave_mms x) major minor)
    (mpath_of ys) (b_mpaths b).

Definition mdraid_of (ys : list Mount) (x : UEvent) : Result Error Device :=
  let mount := find_mount (ue_paths x) ys in
  size ← ok_or (none_error "Expected size") (ue_size x);
  uuid ← ok_or (none_error "Expected md_uuid") (ue_md_uuid x);
  Ok (DMdRaid {|
    md_paths := ue_paths x; md_filesystem_type := ue_fs_type x; md_fs_uuid := ue_fs_uuid x;
    md_fs_label := ue_fs_label x; md_mount := mount; md_major := ue_major x;
    md_minor := ue_minor x; md_size := size; md_children := []; md_uuid := uuid |}).

(** The filter keeps the arrays whose members do not meet [paths]. *)
Definition get_mds (b : Buckets) (ys : list Mount) (paths : list DevicePath) :
    Result Error (list Device) :=
  collect_devices (fun x => negb (set_meets paths (ue_md_devs x))) (mdraid_of ys) (b_mds b).

Definition zpool_of (ys : list Mount) (x : Pool) : Result Error Device :=
  let mount := find_mount (set_from true [MkDevicePath (po_name x)]) ys in
  size ← map_err EParseInt (parse_u64 (po_size x));
  Ok (DZpool {|
    zo_guid := po_guid x; zo_health := po_health x; zo_name := po_name x; zo_mount := mount;
    zo_props := po_props x; zo_state := po_state x; zo_vdev := po_vdev x; zo_size := size;
    zo_children := [] |}).

Definition get_pools (b : Buckets) (ys : list Mount) (paths : list DevicePath) :
    Result Error (list Device) :=
  collect_devices (fun x => set_meets paths (get_vdev_paths (po_vdev x))) (zpool_of ys) (b_pools b).

Definition dataset_of (ys : list Mount) (x : ZDataset) : Result Error Device :=
  let mount := find_mount (set_from true [MkDevicePath (zd_name x)]) ys in
  guid ← map_err EParseInt (parse_u64 (zd_guid x));
  Ok (DDataset {| ds_name := zd_name x; ds_mount := mount; ds_guid := guid;
                  ds_kind := zd_kind x; ds_props := zd_props x |}).

Definition get_datasets (b : Buckets) (ys : list Mount) (guid : Z) : Result Error (list Device) :=
  ds ← ok_or (none_error ("Could not find pool with guid: " +:+ fmt_int guid +:+ " in buckets"))
         (po_datasets <$> List.find (fun p => Z.eqb (po_guid p) guid) (b_pools b));
  collect_devices (fun _ => true) (dataset_of ys) ds.

(** * The graph *)

(** [HashSet::unions]. *)
Definition unions (xs : list (list Device)) : list Device := foldl set_union [] xs.

(** The devices each arm of [build_device_graph] collects before its loop. *)
Definition next_devices (b : Buckets) (ys : list Mount) (ptr : Device) :
    Result Error (list Device) :=
  match ptr with
  | DRoot _ => get_scsis b ys
  | DMpath x =>
      vs ← get_vgs b (mp_major x) (mp_minor x);
      ps ← get_partitions b ys (mp_major x) (mp_minor x);
      mds ← get_mds b ys (mp_paths x);
      pools ← get_pools b ys (mp_paths x);
      Ok (unions [vs; ps; mds; pools])
  | DScsiDevice {| sd_paths := paths; sd_major := major; sd_minor := minor |}
  | DPartition {| pa_paths := paths; pa_major := major; pa_minor := minor |} =>
      xs ← get_partitions b ys major minor;
      ms ← get_mpaths b ys major minor;
      vs ← get_vgs b major minor;
      mds ← get_mds b ys paths;
      pools ← get_pools b ys paths;
      Ok (unions [xs; ms; vs; mds; pools])
  | DVolumeGroup x => get_lvs b ys (vg_uuid x)
  | DLogicalVolume x =>
      ps ← get_partitions b ys (lv_major x) (lv_minor x);
      pools ← get_pools b ys (lv_paths x);
      Ok (unions [ps; pools])
  | DMdRaid x =>
      vs ← get_vgs b (md_major x) (md_minor x);
      ps ← get_partitions b ys (md_major x) (md_minor x);
      mds ← get_mds b ys (md_paths x);
      pools ← get_pools b ys (md_paths x);
      Ok (unions [vs; ps; mds; pools])
  | DZpool x => get_datasets b ys (zo_guid x)
  | DDataset _ => Ok []
  end.

(** The device with other children. *)
Definition set_children (d : Device) (ch : list Device) : Device :=
  match d with
  | DRoot _ => DRoot (MkRoot ch)
  | DScsiDevice (MkScsiDevice a b c d e f g h i j k _) =>
      DScsiDevice (MkScsiDevice a b c d e f g h i j k ch)
  | DPartition (MkPartition a b c d e f g h i j k l _) =>
      DPartition (MkPartition a b c d e f g h i j k l ch)
  | DMdRaid (MkMdRaid a b c d e f g h i _) => DMdRaid (MkMdRaid a b c d e f g h i ch)
  | DMpath (MkMpath a b c d e f g h i j k _ l) => DMpath (MkMpath a b c d e f g h i j k ch l)
  | DVolumeGroup (MkVolumeGroup a b c _) => DVolumeGroup (MkVolumeGroup a b c ch)
  | DLogicalVolume (MkLogicalVolume a b c d e _ f g h i j k) =>
      DLogicalVolume (MkLogicalVolume a b c d e ch f g h i j k)
  | DZpool (MkZpool a b c d e f g _ h) => DZpool (MkZpool a b c d e f g ch h)
  | DDataset x => DDataset x
  end.

(** [for mut x in xs { build(&mut x)?; children.insert(x); }] *)
Fixpoint build_children (build : Device -> option (Result Error Device)) (xs : list Device)
    (children : list Device) : option (Result Error (list Device)) :=
  match xs with
  | [] => Some (Ok children)
  | x :: xs =>
      match build x with
      | None => None
      | Some (Err e) => Some (Err e)
      | Some (Ok x') => build_children build xs (set_insert true x' children)
      end
  end.

Fixpoint build_device_graph (fuel : nat) (b : Buckets) (ys : list Mount) (ptr : Device) :
    option (Result Error Device) :=
  match fuel with
  | O => None
  | S fuel =>
      match next_devices b ys ptr with
      | Err e => Some (Err e)
      | Ok xs =>
          r ← build_children (build_device_graph fuel b ys) xs (kids ptr);
          Some (fmap (M:=Result Error) (set_children ptr) r)
      end
  end.

(** [produce_device_graph], up to the serialization of its result: [values],
    [pools] and [mounts] are the state's tables in iteration order. *)
Definition device_graph (fuel : nat) (values : list UEvent) (pools : list Pool)
    (mounts : list Mount) : option (Result Error Device) :=
  let dev_list := build_device_list values in
  let dev_list := bucket_devices dev_list pools in
  build_device_graph fuel dev_list mounts (DRoot Root_default).

End DeviceGraph.

(** * Buckets: properties *)

Section BucketProperties.
Context {L : LibZfs}.

(** Which bucket takes an event. *)
Inductive bucket_class : Type := ClsDm | ClsMd | ClsMpath | ClsPartition | ClsRest.

#[export] Instance bucket_class_eq_dec : EqDecision bucket_class.
Proof. solve_decision. Defined.

Definition classify (x : UEvent) : bucket_class :=
  if is_dm x then ClsDm else if is_mdraid x then ClsMd
  else if is_mpath x then ClsMpath else if is_partition x then ClsPartition else ClsRest.

Definition of_class (c : bucket_class) (xs : list UEvent) : list UEvent :=
  List.filter (fun x => bool_decide (classify x = c)) xs.

Lemma foldl_bucket_step xs acc :
  foldl bucket_step acc xs =
  MkBuckets (b_dms acc ++ of_class ClsDm xs) (b_mds acc ++ of_class ClsMd xs)
    (b_mpaths acc ++ of_class ClsMpath xs) (b_partitions acc ++ of_class ClsPartition xs)
    (b_pools acc) (b_rest acc ++ of_class ClsRest xs).
Proof.
  revert acc. induction xs as [|x xs IH]; intros [dms mds mps pas pos rest].
  - simpl. by rewrite !app_nil_r.
  - cbn [foldl]. rewrite IH. unfold of_class, bucket_step. cbn [List.filter].
    unfold classify. repeat case_match; simpl; by rewrite <-?app_assoc.
Qed.

Lemma of_class_permutation xs :
  xs ≡ₚ of_class ClsDm xs ++ of_class ClsMd xs ++ of_class ClsMpath xs ++
        of_class ClsPartition xs ++ of_class ClsRest xs.
Proof.
  induction xs as [|x xs IH]; [done|]. unfold of_class in *. cbn [List.filter].
  destruct (classify x); simpl; rewrite IH at 1; solve_Permutation.
Qed.

Lemma bucket_devices_eq xs pools :
  bucket_devices xs pools =
  MkBuckets (of_class ClsDm xs) (of_class ClsMd xs) (of_class ClsMpath xs)
    (of_class ClsPartition xs) pools (of_class ClsRest xs).
Proof. unfold bucket_devices. by rewrite foldl_bucket_step. Qed.

(** [bucket_devices] puts every event in exactly one bucket, keeping the
    order within a bucket: device-mapper volumes first, then MD arrays, then
    multipaths, then partitions, and the plain disks last. *)
Theorem bucket_devices_partition xs pools :
  let b := bucket_devices xs pools in
  b_dms b = List.filter is_dm xs /\
  b_mds b = List.filter (fun x => negb (is_dm x) && is_mdraid x) xs /\
  b_mpaths b = List.filter (fun x => negb (is_dm x || is_mdraid x) && is_mpath x) xs /\
  b_partitions b =
    List.filter (fun x => negb (is_dm x || is_mdraid x || is_mpath x) && is_partition x) xs /\
  b_rest b =
    List.filter (fun x => negb (is_dm x || is_mdraid x || is_mpath x || is_partition x)) xs /\
  b_pools b = pools /\
  xs ≡ₚ b_dms b ++ b_mds b ++ b_mpaths b ++ b_partitions b ++ b_rest b.
Proof.
  rewrite bucket_devices_eq. simpl.
  repeat split; try (apply of_class_permutation);
    unfold of_class; apply filter_ext; intros x; unfold classify;
    destruct (is_dm x), (is_mdraid x), (is_mpath x), (is_partition x); done.
Qed.

Lemma elem_of_of_class c xs x : x ∈ of_class c xs <-> x ∈ xs /\ classify x = c.
Proof.
  unfold of_class. rewrite !list_elem_of_In, filter_In, bool_decide_eq_true. done.
Qed.

End BucketProperties.
