(* ===== verification/Reducers.v ===== *)
(** The reducers of [device-scanner-daemon/src/reducers/]: how a command changes
    the daemon's tables of udev events, mounts and pools. *)
From S2P Require Import Prelude RustStd Ordering DeviceTypes Samples DeviceGraph.
From stdpp Require Import base gmap sets list strings.
From Stdlib Require Import ZArith Ascii.

Open Scope Z_scope.

Section Reducers.
Context {L : LibZfs}.

(** * Udev: [reducers/udev.rs] *)

Definition update_udev (uevents : gmap key UEvent) (cmd : UdevCommand) : gmap key UEvent :=
  match cmd with
  | UdevAdd x | UdevChange x => <[path_key (ue_devpath x) := x]> uevents
  | UdevRemove x => delete (path_key (ue_devpath x)) uevents
  end.

(** * Mounts: [reducers/mount.rs] *)

(** [HashSet::update], [without] and [remove]. *)
Definition hs_insert `{Keyed A} (x : A) (s : gmap key A) : gmap key A := <[key_of x := x]> s.
Definition hs_remove `{Keyed A} (x : A) (s : gmap key A) : gmap key A := delete (key_of x) s.

Definition update_mount (local_mounts : gmap key Mount) (cmd : MountCommand) : gmap key Mount :=
  match cmd with
  | AddMount target source fstype opts =>
      hs_insert (Mount_new target source fstype opts) local_mounts
  | RemoveMount target source fstype opts =>
      hs_remove (Mount_new target source fstype opts) local_mounts
  | ReplaceMount target source fstype opts old_ops =>
      let mount := Mount_new target source fstype old_ops in
      let local_mounts := hs_remove mount local_mounts in
      hs_insert {| mt_source := mt_source mount; mt_target := mt_target mount;
                   mt_fs_type := mt_fs_type mount; mt_opts := opts |} local_mounts
  | MoveMount target source fstype opts old_target =>
      let mount := Mount_new old_target source fstype opts in
      let local_mounts := hs_remove mount local_mounts in
      hs_insert {| mt_source := mt_source mount; mt_target := target;
                   mt_fs_type := mt_fs_type mount; mt_opts := mt_opts mount |} local_mounts
  end.

(** * Pools: [reducers/zed.rs] *)

(** [collect] into a [HashMap]: a later pool replaces an earlier one. *)
Definition into_zed_events (xs : list Pool) : gmap Z Pool :=
  foldl (fun m p => <[po_guid p := p]> m) ∅ xs.

Definition remove_pool (zed_events : gmap Z Pool) (guid : Z) :
    Result Error (Pool * gmap Z Pool) :=
  match zed_events !! guid with
  | Some p => Ok (p, delete guid zed_events)
  | None => Err (ELibZfs (PoolNotFound None (Some guid)))
  end.

(** The pool a [&mut] refers to; the caller writes it back. *)
Definition get_pool (zed_events : gmap Z Pool) (guid : Z) : Result Error Pool :=
  ok_or (ELibZfs (PoolNotFound None (Some guid))) (zed_events !! guid).

Definition update_prop (name value : string) (xs : list ZProp) : list ZProp :=
  List.filter (fun z => negb (String.eqb (zp_name z) name)) xs ++
  [{| zp_name := name; zp_value := value |}].

Definition guid_to_u64 (guid : Guid) : Result Error Z := map_err EParseInt (Guid_to_u64 guid).

(** [pool.datasets.retain(|d| d.name != name)] *)
Definition retain_datasets (name : string) (ds : list ZDataset) : list ZDataset :=
  List.filter (fun d => negb (String.eqb (zd_name d) name)) ds.

(** [iter_mut().find(|d| d.name == name)] with the write through the reference:
    the first dataset of that name changes. *)
Fixpoint modify_dataset (name : string) (f : ZDataset -> ZDataset) (ds : list ZDataset) :
    option (list ZDataset) :=
  match ds with
  | [] => None
  | d :: ds =>
      if String.eqb (zd_name d) name then Some (f d :: ds)
      else ds' ← modify_dataset name f ds; Some (d :: ds')
  end.

Definition set_datasets (p : Pool) (ds : list ZDataset) : Pool :=
  {| po_guid := po_guid p; po_name := po_name p; po_health := po_health p; po_state := po_state p;
     po_size := po_size p; po_vdev := po_vdev p; po_props := po_props p; po_datasets := ds;
     po_rest := po_rest p |}.

Definition set_props (p : Pool) (props : list ZProp) : Pool :=
  {| po_guid := po_guid p; po_name := po_name p; po_health := po_health p; po_state := po_state p;
     po_size := po_size p; po_vdev := po_vdev p; po_props := props;
     po_datasets := po_datasets p; po_rest := po_rest p |}.

Definition set_dataset_props (d : ZDataset) (props : list ZProp) : ZDataset :=
  {| zd_name := zd_name d; zd_kind := zd_kind d; zd_guid := zd_guid d; zd_props := props;
     zd_rest := zd_rest d |}.

Definition update_zed_events (zed_events : gmap Z Pool) (cmd : PoolCommand) :
    Result Error (gmap Z Pool) :=
  match cmd with
  | AddPools pools => Ok (into_zed_events pools)
  | AddPool pool | UpdatePool pool => Ok (<[po_guid pool := pool]> zed_events)
  | RemovePool guid =>
      guid ← guid_to_u64 guid;
      '(_, zed_events) ← remove_pool zed_events guid;
      Ok zed_events
  | AddDataset guid dataset =>
      guid ← guid_to_u64 guid;
      pool ← get_pool zed_events guid;
      Ok (<[guid := set_datasets pool
              (retain_datasets (zd_name dataset) (po_datasets pool) ++ [dataset])]> zed_events)
  | RemoveDataset guid name =>
      guid ← guid_to_u64 guid;
      pool ← get_pool zed_events guid;
      Ok (<[guid := set_datasets pool
              (retain_datasets (zfn_str name) (po_datasets pool))]> zed_events)
  | PoolSetZpoolProp guid k v =>
      guid ← guid_to_u64 guid;
      pool ← get_pool zed_events guid;
      Ok (<[guid := set_props pool (update_prop (pk_str k) (pv_str v) (po_props pool))]> zed_events)
  | PoolSetZfsProp guid name k v =>
      guid ← guid_to_u64 guid;
      pool ← get_pool zed_events guid;
      ds ← ok_or (ELibZfs (ZfsNotFound (zfn_str name)))
             (modify_dataset (zfn_str name)
                (fun d => set_dataset_props d (update_prop (pk_str k) (pv_str v) (zd_props d)))
                (po_datasets pool));
      Ok (<[guid := set_datasets pool ds]> zed_events)
  end.

End Reducers.

(** * Properties *)

Section ReducerProperties.
Context {L : LibZfs}.

(** ** Udev *)

Definition udev_event (c : UdevCommand) : UEvent :=
  match c with UdevAdd x | UdevChange x | UdevRemove x => x end.

(** The contract: what is known of a device is what the last command about its
    devpath says. *)
Fixpoint last_event (k : key) (cs : list UdevCommand) (old : option UEvent) : option UEvent :=
  match cs with
  | [] => old
  | c :: cs =>
      last_event k cs
        (if decide (path_key (ue_devpath (udev_event c)) = k)
         then match c with UdevRemove _ => None | _ => Some (udev_event c) end
         else old)
  end.

(** After any sequence of udev commands the table holds, for each device
    path, the event of the last [Add] or [Change] about it, and nothing when the
    last command about it was a [Remove]. *)
Theorem update_udev_last_wins cs m k :
  foldl update_udev m cs !! k = last_event k cs (m !! k).
Proof.
  revert m. induction cs as [|c cs IH]; intros m; [done|]. simpl. rewrite IH. f_equal.
  by destruct c as [x|x|x]; simpl; case_decide; subst; simplify_map_eq.
Qed.

(** ** Mounts *)

(** The contract: a set of mounts. *)
Definition mount_effect (c : MountCommand) (s : gset key) : gset key :=
  match c with
  | AddMount t src f o => {[ key_of (Mount_new t src f o) ]} ∪ s
  | RemoveMount t src f o => s ∖ {[ key_of (Mount_new t src f o) ]}
  | ReplaceMount t src f o old =>
      {[ key_of (Mount_new t src f o) ]} ∪ (s ∖ {[ key_of (Mount_new t src f old) ]})
  | MoveMount t src f o old =>
      {[ key_of (Mount_new t src f o) ]} ∪ (s ∖ {[ key_of (Mount_new old src f o) ]})
  end.

(** Every entry sits under its own key. *)
Definition keyed_by {K A} `{Countable K} (f : A -> K) (m : gmap K A) : Prop :=
  map_Forall (fun k x => f x = k) m.

Lemma keyed_insert {K A} `{Countable K} (f : A -> K) m x :
  keyed_by f m -> keyed_by f (<[f x := x]> m).
Proof. intros Hm. by apply map_Forall_insert_2. Qed.

Lemma keyed_delete {K A} `{Countable K} (f : A -> K) m k :
  keyed_by f m -> keyed_by f (delete k m).
Proof. apply map_Forall_delete. Qed.

#[local] Hint Resolve keyed_insert keyed_delete : iml.

(** [update_mount] maintains a set of mounts: adding, removing, replacing the
    options of a mount and moving it to another target have the effect of the
    set operation of that name, over any sequence of commands. *)
Theorem update_mount_refines cs m :
  keyed_by key_of m ->
  keyed_by key_of (foldl update_mount m cs) /\
  dom (foldl update_mount m cs) = foldl (flip mount_effect) (dom m) cs.
Proof.
  revert m. induction cs as [|c cs IH]; intros m Hm; [done|]. simpl.
  destruct (IH (update_mount m c)) as [Hk Hd].
  - destruct c; unfold update_mount, hs_insert, hs_remove; auto with iml.
  - split; [done|]. rewrite Hd. f_equal.
    destruct c; unfold update_mount, hs_insert, hs_remove; simpl;
      rewrite ?dom_insert_L, ?dom_delete_L; done.
Qed.

(** ** Pools *)

(** The pool a command is about, when it names one. *)
Definition target_guid (c : PoolCommand) : option Guid :=
  match c with
  | AddPools _ | AddPool _ | UpdatePool _ => None
  | RemovePool g | AddDataset g _ | RemoveDataset g _ | PoolSetZpoolProp g _ _
  | PoolSetZfsProp g _ _ _ => Some g
  end.

Definition named_dataset (c : PoolCommand) : option string :=
  match c with PoolSetZfsProp _ n _ _ => Some (zfn_str n) | _ => None end.

Lemma modify_dataset_None name f ds :
  modify_dataset name f ds = None <-> name ∉ (zd_name <$> ds).
Proof.
  induction ds as [|d ds IH]; csimpl; [split; [intros _ H; inversion H|done]|].
  destruct (String.eqb_spec (zd_name d) name) as [<-|Hn].
  - split; [done|]. intros H. destruct H. left.
  - rewrite elem_of_cons. destruct (modify_dataset name f ds); simpl; naive_solver.
Qed.

(** What a command does to the pool it names: the new pool, or none. *)
Definition pool_action (c : PoolCommand) (p : Pool) : Result Error (option Pool) :=
  match c with
  | AddDataset _ d =>
      Ok (Some (set_datasets p (retain_datasets (zd_name d) (po_datasets p) ++ [d])))
  | RemoveDataset _ n => Ok (Some (set_datasets p (retain_datasets (zfn_str n) (po_datasets p))))
  | PoolSetZpoolProp _ k v =>
      Ok (Some (set_props p (update_prop (pk_str k) (pv_str v) (po_props p))))
  | PoolSetZfsProp _ n k v =>
      ds ← ok_or (ELibZfs (ZfsNotFound (zfn_str n))) (modify_dataset (zfn_str n)
             (fun d => set_dataset_props d (update_prop (pk_str k) (pv_str v) (zd_props d)))
             (po_datasets p));
      Ok (Some (set_datasets p ds))
  | _ => Ok None
  end.

(** A command that names a pool parses the guid, finds the pool, and replaces or
    removes that pool. *)
Lemma update_zed_events_target m c g :
  target_guid c = Some g ->
  update_zed_events m c =
    i ← guid_to_u64 g; p ← get_pool m i; o ← pool_action c p;
    Ok (partial_alter (fun _ => o) i m).
Proof.
  intros Ht. destruct c; simplify_eq/=; destruct (guid_to_u64 _) as [i|]; simpl; try done;
    unfold remove_pool, get_pool; destruct (m !! i); simpl; try done.
  by destruct (modify_dataset _ _ _).
Qed.

Lemma pool_action_Err c p e :
  pool_action c p = Err e <->
  exists n, named_dataset c = Some n /\ n ∉ (zd_name <$> po_datasets p) /\
    e = ELibZfs (ZfsNotFound n).
Proof.
  destruct c as [?|?|?|g|g ?|g ?|g ? ?|g n k v]; simpl; try (split; [done|]; by intros (? & ? & _)).
  destruct (modify_dataset _ _ _) eqn:Ed; simpl.
  - split; [done|]. intros (? & [= <-] & Hn & _).
    eapply modify_dataset_None in Hn. by rewrite Hn in Ed.
  - apply modify_dataset_None in Ed. split; [intros [= <-]; eauto|].
    by intros (? & [= <-] & _ & ->).
Qed.

(** A pool command fails in exactly three cases, each with its own error: the
    guid it names does not parse, the guid names no known pool, or it sets a
    property of a dataset the pool does not have. *)
Theorem update_zed_events_errors m c e :
  update_zed_events m c = Err e <->
  exists g, target_guid c = Some g /\
    ((exists pe, Guid_to_u64 g = Err pe /\ e = EParseInt pe) \/
     (exists i, Guid_to_u64 g = Ok i /\ m !! i = None /\
        e = ELibZfs (PoolNotFound None (Some i))) \/
     (exists i p n, Guid_to_u64 g = Ok i /\ m !! i = Some p /\ named_dataset c = Some n /\
        n ∉ (zd_name <$> po_datasets p) /\ e = ELibZfs (ZfsNotFound n))).
Proof.
  destruct (target_guid c) as [g|] eqn:Et.
  2: { destruct c; simpl in *; try done; split; try done; by intros (? & ? & _). }
  rewrite (update_zed_events_target _ _ _ Et). unfold guid_to_u64, map_err, get_pool.
  destruct (Guid_to_u64 g) as [i|pe] eqn:Eg; simpl.
  2: { split; [intros [= <-]; eauto 10|].
    intros (? & [= <-] & [(? & ? & ?)|[(? & ? & _)|(? & ? & ? & ? & _)]]); congruence. }
  destruct (m !! i) as [p|] eqn:Em; simpl.
  2: { split; [intros [= <-]; eauto 10|].
    intros (? & [= <-] & [(? & ? & ?)|[(? & ? & ? & ?)|(? & ? & ? & ? & ? & _)]]); congruence. }
  destruct (pool_action c p) as [o|e'] eqn:Ep; simpl.
  - split; [done|].
    intros (? & [= <-] & [(? & ? & ?)|[(? & ? & ? & ?)|(j & q & n & Hj & Hq & Hn & Hni & ->)]]);
      [congruence..|]. simplify_eq.
    assert (pool_action c p = Err (ELibZfs (ZfsNotFound n))); [|congruence].
    apply pool_action_Err. exists n. split_and!; [congruence..|done].
  - apply pool_action_Err in Ep as (n & Hn & Hni & ->). split; [intros [= <-]; eauto 15|].
    intros (? & [= <-] & [(? & ? & ?)|[(? & ? & ? & ?)|(j & q & ? & ? & ? & ? & ? & ->)]]);
      congruence.
Qed.

(** Tables as lists with a name per entry: [retain] and [push]. *)
Section Named.
Context {A : Type} (f : A -> string).

Definition named (n : string) (xs : list A) : option A :=
  List.find (fun x => String.eqb (f x) n) xs.

Lemma named_retain n k xs :
  named k (List.filter (fun x => negb (String.eqb (f x) n)) xs) =
  if decide (k = n) then None else named k xs.
Proof.
  unfold named. induction xs as [|x xs IH]; simpl; [by case_decide|].
  destruct (String.eqb_spec (f x) n); simpl; rewrite IH; case_decide; subst; try done.
  - by destruct (String.eqb_spec (f x) k).
  - by destruct (String.eqb_spec (f x) n).
Qed.

Lemma named_app k xs ys :
  named k (xs ++ ys) = match named k xs with Some x => Some x | None => named k ys end.
Proof. unfold named. induction xs as [|x xs IH]; simpl; [done|]. by destruct (String.eqb _ _). Qed.

Lemma named_replace k x xs :
  named k (List.filter (fun y => negb (String.eqb (f y) (f x))) xs ++ [x]) =
  if decide (k = f x) then Some x else named k xs.
Proof.
  rewrite named_app, named_retain. unfold named at 2. simpl. case_decide as Hk.
  - subst. by rewrite String.eqb_refl.
  - destruct (named k xs); [done|]. by destruct (String.eqb_spec (f x) k).
Qed.

Lemma retain_names n xs k :
  k ∈ (f <$> List.filter (fun y => negb (String.eqb (f y) n)) xs) <-> k ∈ (f <$> xs) /\ k <> n.
Proof.
  induction xs as [|x xs IH]; csimpl; [split; [intros H; inversion H|intros [H _]; inversion H]|].
  destruct (String.eqb_spec (f x) n); csimpl; rewrite ?elem_of_cons, IH; naive_solver.
Qed.

Lemma NoDup_retain n xs :
  NoDup (f <$> xs) -> NoDup (f <$> List.filter (fun y => negb (String.eqb (f y) n)) xs).
Proof.
  induction xs as [|x xs IH]; csimpl; [done|]. intros [Hx Hn]%NoDup_cons.
  destruct (String.eqb_spec (f x) n); csimpl; [auto|]. apply NoDup_cons. split; [|auto].
  rewrite retain_names. tauto.
Qed.

Lemma NoDup_replace x xs :
  NoDup (f <$> xs) ->
  NoDup (f <$> List.filter (fun y => negb (String.eqb (f y) (f x))) xs ++ [x]).
Proof.
  intros Hn. rewrite fmap_app. apply NoDup_app. split_and!; [by apply NoDup_retain| |].
  - intros k [_ Hk]%retain_names ->%list_elem_of_singleton. done.
  - apply NoDup_singleton.
Qed.

End Named.

Lemma named_modify n g ds ds' k :
  (forall d, zd_name (g d) = zd_name d) -> modify_dataset n g ds = Some ds' ->
  named zd_name k ds' = if decide (k = n) then g <$> named zd_name n ds else named zd_name k ds.
Proof.
  intros Hg. revert ds'. induction ds as [|d ds IH]; intros ds' H; simpl in H; [done|].
  destruct (String.eqb_spec (zd_name d) n) as [<-|Hn].
  - simplify_eq. unfold named. simpl. rewrite Hg, String.eqb_refl.
    case_decide; subst; simpl; [by rewrite String.eqb_refl|].
    by destruct (String.eqb_spec (zd_name d) k).
  - destruct (modify_dataset n g ds) as [r|]; simplify_eq/=. specialize (IH r eq_refl).
    unfold named in *. simpl. rewrite IH.
    destruct (String.eqb_spec (zd_name d) k) as [<-|], (String.eqb_spec (zd_name d) n); try done.
    by rewrite decide_False by done.
Qed.

Lemma modify_names n g ds ds' :
  (forall d, zd_name (g d) = zd_name d) -> modify_dataset n g ds = Some ds' ->
  zd_name <$> ds' = zd_name <$> ds.
Proof.
  intros Hg. revert ds'. induction ds as [|d ds IH]; intros ds' H; simpl in H; [done|].
  destruct (String.eqb (zd_name d) n); [simplify_eq; csimpl; by rewrite Hg|].
  destruct (modify_dataset n g ds) as [r|]; simplify_eq/=. by rewrite (IH r).
Qed.

Lemma modify_Forall (P : ZDataset -> Prop) n g ds ds' :
  (forall d, P d -> P (g d)) -> modify_dataset n g ds = Some ds' -> Forall P ds -> Forall P ds'.
Proof.
  intros Hg. revert ds'. induction ds as [|d ds IH]; intros ds' H Hf; simpl in H; [done|].
  apply Forall_cons in Hf as [Hd Hf].
  destruct (String.eqb (zd_name d) n); [simplify_eq; auto|].
  destruct (modify_dataset n g ds) as [r|]; simplify_eq/=. auto.
Qed.

(** What a command leaves of the pool [p] it names, seen through lookups. *)
Definition pool_effect (c : PoolCommand) (p : Pool) (p' : option Pool) : Prop :=
  match c with
  | AddDataset _ d => exists q, p' = Some q /\ po_props q = po_props p /\
      forall n, named zd_name n (po_datasets q) =
        if decide (n = zd_name d) then Some d else named zd_name n (po_datasets p)
  | RemoveDataset _ m => exists q, p' = Some q /\ po_props q = po_props p /\
      forall n, named zd_name n (po_datasets q) =
        if decide (n = zfn_str m) then None else named zd_name n (po_datasets p)
  | PoolSetZpoolProp _ k v => exists q, p' = Some q /\ po_datasets q = po_datasets p /\
      forall n, named zp_name n (po_props q) =
        if decide (n = pk_str k) then Some (MkZProp (pk_str k) (pv_str v))
        else named zp_name n (po_props p)
  | PoolSetZfsProp _ m k v => exists q d d', p' = Some q /\ po_props q = po_props p /\
      named zd_name (zfn_str m) (po_datasets p) = Some d /\
      named zd_name (zfn_str m) (po_datasets q) = Some d' /\
      (forall n, n <> zfn_str m ->
         named zd_name n (po_datasets q) = named zd_name n (po_datasets p)) /\
      (forall n, named zp_name n (zd_props d') =
         if decide (n = pk_str k) then Some (MkZProp (pk_str k) (pv_str v))
         else named zp_name n (zd_props d))
  | _ => p' = None
  end.

Lemma named_update_prop n k v xs :
  named zp_name n (update_prop k v xs) =
  if decide (n = k) then Some (MkZProp k v) else named zp_name n xs.
Proof. exact (named_replace zp_name n (MkZProp k v) xs). Qed.

Lemma pool_action_effect c p o : pool_action c p = Ok o -> pool_effect c p o.
Proof.
  destruct c as [?|?|?|g|g d|g n|g k v|g n k v]; simpl; intros H; inv_ok; try done.
  - eexists. split_and!; [done..|]. intros n. apply named_replace.
  - eexists. split_and!; [done..|]. intros k. apply named_retain.
  - eexists. split_and!; [done..|]. intros n. apply named_update_prop.
  - match goal with H : modify_dataset _ _ _ = Some _ |- _ => rename H into Hm end.
    pose proof (fun k' Hz => named_modify _ _ _ _ k' Hz Hm) as Hk.
    assert (exists d, named zd_name (zfn_str n) (po_datasets p) = Some d) as [d Hd].
    { destruct (named _ _ (po_datasets p)) as [d|] eqn:Ed; [eauto|].
      assert (modify_dataset (zfn_str n) (fun d => d) (po_datasets p) = None) as Hn.
      { apply modify_dataset_None. intros (d & Hn & Hin)%list_elem_of_fmap.
        eapply List.find_none in Ed; [|by apply list_elem_of_In].
        rewrite Hn, String.eqb_refl in Ed. done. }
      apply modify_dataset_None in Hn. by rewrite (proj2 (modify_dataset_None _ _ _) Hn) in Hm. }
    eexists _, d, _. split_and!; [done|done|done| | |].
    + cbn [po_datasets set_datasets]. by rewrite Hk, decide_True, Hd by done.
    + intros k' Hk'. cbn [po_datasets set_datasets]. by rewrite Hk, decide_False by done.
    + intros k'. apply named_update_prop.
Qed.

Lemma pool_command_effect m m' c g :
  target_guid c = Some g -> update_zed_events m c = Ok m' ->
  exists i p, Guid_to_u64 g = Ok i /\ m !! i = Some p /\ pool_effect c p (m' !! i) /\
    forall j, j <> i -> m' !! j = m !! j.
Proof.
  intros Ht H. rewrite (update_zed_events_target _ _ _ Ht) in H.
  unfold guid_to_u64, get_pool in H. inv_ok. destruct (Guid_to_u64 g) as [i|] eqn:Eg; simplify_eq/=.
  inv_ok. exists x, x0. rewrite lookup_partial_alter_eq. split_and!; [done..| |].
  - by apply pool_action_effect.
  - intros j Hj. by rewrite lookup_partial_alter_ne.
Qed.

(** A pool command that succeeds changes the pool it names and no other:
    datasets are added, replaced and removed by name, properties are set by key,
    and every other dataset and property of the pool is as before. *)
Theorem update_zed_events_effect m m' c g :
  target_guid c = Some g -> update_zed_events m c = Ok m' ->
  exists i p, Guid_to_u64 g = Ok i /\ m !! i = Some p /\ pool_effect c p (m' !! i) /\
    forall j, j <> i -> m' !! j = m !! j.
Proof. apply pool_command_effect. Qed.

(** ** The invariant of the pools table *)

Definition dataset_wf (d : ZDataset) : Prop := NoDup (zp_name <$> zd_props d).

Record pool_wf (p : Pool) : Prop := {
  pw_datasets : NoDup (zd_name <$> po_datasets p);
  pw_props : NoDup (zp_name <$> po_props p);
  pw_dataset : Forall dataset_wf (po_datasets p);
}.

Definition zed_wf (m : gmap Z Pool) : Prop :=
  keyed_by po_guid m /\ map_Forall (fun _ p => pool_wf p) m.

(** What a command brings in is well formed. *)
Definition pool_cmd_wf (c : PoolCommand) : Prop :=
  match c with
  | AddPools ps => Forall pool_wf ps
  | AddPool p | UpdatePool p => pool_wf p
  | AddDataset _ d => dataset_wf d
  | _ => True
  end.

Lemma zed_wf_insert m p : zed_wf m -> pool_wf p -> zed_wf (<[po_guid p := p]> m).
Proof. intros [Hk Hw] Hp. split; [by apply keyed_insert|by apply map_Forall_insert_2]. Qed.

Lemma Forall_retain {A} (P : A -> Prop) q xs : Forall P xs -> Forall P (List.filter q xs).
Proof. rewrite !Forall_forall. setoid_rewrite list_elem_of_In. setoid_rewrite filter_In. naive_solver. Qed.

Lemma NoDup_update_prop k v xs : NoDup (zp_name <$> xs) -> NoDup (zp_name <$> update_prop k v xs).
Proof. exact (NoDup_replace zp_name (MkZProp k v) xs). Qed.

Lemma pool_action_wf c p q :
  pool_cmd_wf c -> pool_wf p -> pool_action c p = Ok (Some q) -> pool_wf q /\ po_guid q = po_guid p.
Proof.
  intros Hc [Hd Hp Hf] H. destruct c; simpl in *; inv_ok; simplify_eq; split; try done; split; simpl;
    try (solve [eauto using NoDup_retain, NoDup_update_prop, Forall_retain]).
  - by apply NoDup_replace.
  - apply Forall_app. split; [by apply Forall_retain|by constructor].
  - match goal with H : modify_dataset _ _ _ = Some _ |- _ =>
      apply modify_names in H; [by rewrite H|done] end.
  - eapply modify_Forall; [|done..]. intros d. apply NoDup_update_prop.
Qed.

Lemma update_zed_events_wf m m' c :
  zed_wf m -> pool_cmd_wf c -> update_zed_events m c = Ok m' -> zed_wf m'.
Proof.
  intros Hm Hc H. destruct (target_guid c) as [g|] eqn:Et.
  - rewrite (update_zed_events_target _ _ _ Et) in H. unfold get_pool in H. inv_ok.
    match goal with Hp : m !! ?i = Some ?p, Ha : pool_action c ?p = Ok ?o |- _ =>
      destruct Hm as [Hk Hw]; pose proof (Hk _ _ Hp) as Hi; pose proof (Hw _ _ Hp) as Hpw;
      destruct o as [q|]; simpl in Hi
    end.
    + destruct (pool_action_wf _ _ _ Hc Hpw ltac:(eassumption)) as [Hq Hg].
      rewrite <-Hi, <-Hg. apply zed_wf_insert; [by split|done].
    + change (partial_alter _ ?i m) with (delete i m).
      split; [by apply keyed_delete|by apply map_Forall_delete].
  - destruct c; simpl in *; simplify_eq; try (by apply zed_wf_insert).
    unfold into_zed_events. assert (zed_wf ∅) as Hz by (split; apply map_Forall_empty).
    revert Hz. generalize (∅ : gmap Z Pool). induction Hc as [|p ps Hp _ IH]; simpl; intros m0 Hz; [done|].
    by apply IH, zed_wf_insert.
Qed.

End ReducerProperties.

(** ** Examples *)

Section ReducerWitnesses.
#[local] Existing Instance sample_libzfs.

Definition sample_mount : Mount :=
  Mount_new (MkMountPoint "/mnt/ost0") (MkDevicePath "/dev/sda1") (MkFsType "lustre")
    (MkMountOpts "ro").

Lemma update_mount_refines_witness :
  keyed_by key_of (foldl update_mount ∅
    [AddMount (mt_target sample_mount) (mt_source sample_mount) (mt_fs_type sample_mount)
       (mt_opts sample_mount)]) /\
  dom (foldl update_mount ∅
    [AddMount (mt_target sample_mount) (mt_source sample_mount) (mt_fs_type sample_mount)
       (mt_opts sample_mount)]) = {[ key_of sample_mount ]} ∪ dom (∅ : gmap key Mount).
Proof. apply update_mount_refines. apply map_Forall_empty. Defined.

Definition sample_pools : gmap Z Pool := {[ 7 := sample_pool ]}.
Definition sample_cmd : PoolCommand :=
  PoolSetZfsProp (Guid_from_u64 7) (MkZfsName "tank/ost0") (MkPropKey "lustre:svname")
    (MkPropValue "fs-OST0000").

Definition sample_pools_after : gmap Z Pool :=
  match update_zed_events sample_pools sample_cmd with Ok m => m | Err _ => ∅ end.

Lemma update_zed_events_effect_witness :
  exists i p, Guid_to_u64 (Guid_from_u64 7) = Ok i /\ sample_pools !! i = Some p /\
    pool_effect sample_cmd p (sample_pools_after !! i) /\
    forall j, j <> i -> sample_pools_after !! j = sample_pools !! j.
Proof. apply update_zed_events_effect; by vm_compute. Defined.

End ReducerWitnesses.
