(* ===== verification/GraphSpec.v ===== *)
(** What the device graph promises. [link] states declaratively which device
    belongs under which; the built tree has exactly the linked children at
    every node, every block device in it comes from a usable udev event, and
    building it ends when no device is its own ancestor. MD arrays are the
    exception: the inverted test of [get_mds] puts an array under every device
    it is not made of, itself included. *)
From S2P Require Import Prelude RustStd Ordering DeviceTypes Samples Devices DeviceGraph.
From stdpp Require Import base gmap sets list strings.
From Stdlib Require Import ZArith Ascii.

Open Scope Z_scope.

Section GraphSpec.
Context {L : LibZfs}.
Implicit Types (b : Buckets) (ys : list Mount) (d e p t : Device) (u : UEvent).

(** A node without its subtree. *)
Definition strip d : Device := set_children d [].

(** The number pair a child names its parent by, and the parent's paths. *)
Definition mm_of d : option (string * string) :=
  match d with
  | DScsiDevice x => Some (sd_major x, sd_minor x)
  | DPartition x => Some (pa_major x, pa_minor x)
  | DMdRaid x => Some (md_major x, md_minor x)
  | DMpath x => Some (mp_major x, mp_minor x)
  | DLogicalVolume x => Some (lv_major x, lv_minor x)
  | _ => None
  end.

Definition paths_of d : list DevicePath :=
  match d with
  | DScsiDevice x => sd_paths x
  | DPartition x => pa_paths x
  | DMdRaid x => md_paths x
  | DMpath x => mp_paths x
  | DLogicalVolume x => lv_paths x
  | _ => []
  end.

(** Disks and partitions carry multipaths; those, multipaths and arrays carry
    volume groups and arrays. *)
Definition carries_mpaths d : bool :=
  match d with DScsiDevice _ | DPartition _ => true | _ => false end.

Definition carries_vgs d : bool :=
  match d with DScsiDevice _ | DPartition _ | DMpath _ | DMdRaid _ => true | _ => false end.

(** [link b ys p d]: the bare device [d] belongs directly under [p]. *)
Inductive link b ys : Device -> Device -> Prop :=
| link_scsi r u d :
    u ∈ b_rest b -> scsi_of ys u = Ok d -> link b ys (DRoot r) d
| link_partition p ma mi u d :
    mm_of p = Some (ma, mi) -> u ∈ b_partitions b ->
    ue_part_entry_mm u = Some (format_major_minor ma mi) ->
    partition_of ys u = Ok d -> link b ys p d
| link_mpath p ma mi u d :
    carries_mpaths p = true -> mm_of p = Some (ma, mi) -> u ∈ b_mpaths b ->
    format_major_minor ma mi ∈ ue_dm_slave_mms u -> mpath_of ys u = Ok d -> link b ys p d
| link_vg p ma mi u d :
    carries_vgs p = true -> mm_of p = Some (ma, mi) -> u ∈ b_dms b ->
    format_major_minor ma mi ∈ ue_dm_slave_mms u -> vg_of u = Ok d -> link b ys p d
| link_md p u d :
    carries_vgs p = true -> u ∈ b_mds b -> set_meets (paths_of p) (ue_md_devs u) = false ->
    mdraid_of ys u = Ok d -> link b ys p d
| link_pool p q d :
    q ∈ b_pools b -> set_meets (paths_of p) (get_vdev_paths (po_vdev q)) = true ->
    zpool_of ys q = Ok d -> link b ys p d
| link_lv x u d :
    u ∈ b_dms b -> ue_vg_uuid u = Some (vg_uuid x) -> lv_of ys u = Ok d ->
    link b ys (DVolumeGroup x) d
| link_dataset x q z d :
    List.find (fun q => Z.eqb (po_guid q) (zo_guid x)) (b_pools b) = Some q ->
    z ∈ po_datasets q -> dataset_of ys z = Ok d -> link b ys (DZpool x) d.

(** ** One node *)

Lemma find_by_major_minor_spec xs ma mi :
  find_by_major_minor xs ma mi = true <-> format_major_minor ma mi ∈ xs.
Proof.
  unfold find_by_major_minor. rewrite existsb_exists. setoid_rewrite String.eqb_eq.
  setoid_rewrite list_elem_of_In. naive_solver.
Qed.

(** A collected set holds images of elements that pass the filter, and one with
    the key of each image. *)
Lemma collect_devices_elem {A} (q : A -> bool) (f : A -> Result Error Device) xs l d :
  collect_devices q f xs = Ok l -> d ∈ l -> exists x, x ∈ xs /\ q x = true /\ f x = Ok d.
Proof.
  unfold collect_devices. intros H Hd. inv_ok. apply elem_of_set_from in Hd.
  rewrite elem_of_mapM_Ok in Hd by done. destruct Hd as (z & Hz & Hf).
  apply elem_of_filter_fn in Hz as [? ?]. eauto.
Qed.

Lemma collect_devices_key {A} (q : A -> bool) (f : A -> Result Error Device) xs l d x :
  collect_devices q f xs = Ok l -> x ∈ xs -> q x = true -> f x = Ok d ->
  key_of d ∈ (key_of <$> l).
Proof.
  unfold collect_devices. intros H Hx Hq Hf. inv_ok. rewrite set_from_keys.
  apply list_elem_of_fmap_2. rewrite elem_of_mapM_Ok by done. exists x. split; [|done].
  by apply elem_of_filter_fn.
Qed.

Lemma foldl_union_keys xss acc k :
  k ∈ (key_of <$> foldl set_union acc xss) <->
  k ∈ (key_of <$> acc) \/ exists xs : list Device, xs ∈ xss /\ k ∈ (key_of <$> xs).
Proof.
  revert acc. induction xss as [|xs xss IH]; intros acc; simpl.
  - setoid_rewrite elem_of_nil. naive_solver.
  - rewrite IH, set_union_keys. setoid_rewrite elem_of_cons. naive_solver.
Qed.

Lemma unions_keys xss k :
  k ∈ (key_of <$> unions xss) <-> exists xs, xs ∈ xss /\ k ∈ (key_of <$> xs).
Proof. unfold unions. rewrite foldl_union_keys. csimpl. rewrite elem_of_nil. naive_solver. Qed.

Lemma elem_of_unions xss d : d ∈ unions xss -> exists xs, xs ∈ xss /\ d ∈ xs.
Proof.
  unfold unions. assert (forall acc, d ∈ foldl set_union acc xss ->
    d ∈ acc \/ exists xs, xs ∈ xss /\ d ∈ xs) as H.
  { induction xss as [|xs xss IH]; intros acc; simpl; [auto|].
    setoid_rewrite elem_of_cons. intros [Hd|(? & ? & ?)]%IH; [|naive_solver].
    apply elem_of_foldl_insert in Hd. naive_solver. }
  intros [Hd|?]%H; [inversion Hd|done].
Qed.

Section OneNode.
Context (b : Buckets) (ys : list Mount) (p d : Device) (l : list Device).

Lemma in_partitions ma mi :
  mm_of p = Some (ma, mi) -> get_partitions b ys ma mi = Ok l -> d ∈ l -> link b ys p d.
Proof.
  intros Hmm Hl Hin. destruct (collect_devices_elem _ _ _ _ _ Hl Hin) as (u & Hu & Hq & Hf).
  destruct (ue_part_entry_mm u) as [m|] eqn:Em; [|done]. reflect. subst.
  by eapply link_partition.
Qed.

Lemma in_vgs ma mi :
  carries_vgs p = true -> mm_of p = Some (ma, mi) -> get_vgs b ma mi = Ok l -> d ∈ l ->
  link b ys p d.
Proof.
  intros Hc Hmm Hl Hin. destruct (collect_devices_elem _ _ _ _ _ Hl Hin) as (u & Hu & Hq & Hf).
  rewrite find_by_major_minor_spec in Hq. by eapply link_vg.
Qed.

Lemma in_mpaths ma mi :
  carries_mpaths p = true -> mm_of p = Some (ma, mi) -> get_mpaths b ys ma mi = Ok l -> d ∈ l ->
  link b ys p d.
Proof.
  intros Hc Hmm Hl Hin. destruct (collect_devices_elem _ _ _ _ _ Hl Hin) as (u & Hu & Hq & Hf).
  rewrite find_by_major_minor_spec in Hq. by eapply link_mpath.
Qed.

Lemma in_mds :
  carries_vgs p = true -> get_mds b ys (paths_of p) = Ok l -> d ∈ l -> link b ys p d.
Proof.
  intros Hc Hl Hin. destruct (collect_devices_elem _ _ _ _ _ Hl Hin) as (u & Hu & Hq & Hf).
  reflect. by eapply link_md.
Qed.

Lemma in_pools : get_pools b ys (paths_of p) = Ok l -> d ∈ l -> link b ys p d.
Proof.
  intros Hl Hin. destruct (collect_devices_elem _ _ _ _ _ Hl Hin) as (q & Hu & Hq & Hf).
  by eapply link_pool.
Qed.

Lemma in_datasets x :
  p = DZpool x -> get_datasets b ys (zo_guid x) = Ok l -> d ∈ l -> link b ys p d.
Proof.
  intros -> H Hd. unfold get_datasets in H. inv_ok.
  match goal with H : (po_datasets <$> _) = Some _ |- _ =>
    apply fmap_Some in H as (q & Hq & ->) end.
  match goal with H : collect_devices _ _ _ = Ok _ |- _ =>
    destruct (collect_devices_elem _ _ _ _ _ H Hd) as (z & Hz & _ & Hf) end.
  by eapply link_dataset.
Qed.

End OneNode.

Ltac in_unions Hd :=
  apply elem_of_unions in Hd as (? & Hin & Hd);
  repeat (apply elem_of_cons in Hin as [->|Hin]); [..|by inversion Hin].

(** Under each kind of device the code gathers linked devices only. *)
Lemma next_devices_sound b ys p xs d :
  next_devices b ys p = Ok xs -> d ∈ xs -> link b ys p d.
Proof.
  intros H Hd.
  destruct p as [x|[]|[]|x|x|x|x|x|x]; simpl in H; inv_ok;
    try (in_unions Hd; eauto using in_partitions, in_vgs, in_mpaths, in_mds, in_pools).
  - destruct (collect_devices_elem _ _ _ _ _ H Hd) as (u & Hu & _ & Hf). by eapply link_scsi.
  - destruct (collect_devices_elem _ _ _ _ _ H Hd) as (u & Hu & Hq & Hf).
    destruct (ue_vg_uuid u) eqn:Eu; [|done]. reflect. subst. by eapply link_lv.
  - by eapply in_datasets.
  - inversion Hd.
Qed.

(** ... and all of them. *)
Lemma next_devices_complete b ys p xs d :
  next_devices b ys p = Ok xs -> link b ys p d -> key_of d ∈ (key_of <$> xs).
Proof.
  intros H Hl.
  destruct Hl as [r u d Hu Hf|p ma mi u d Hm Hu He Hf|p ma mi u d Hc Hm Hu He Hf
    |p ma mi u d Hc Hm Hu He Hf|p u d Hc Hu He Hf|p q d Hu He Hf|x u d Hu He Hf|x q z d Hq Hz Hf].
  - eapply collect_devices_key; eauto.
  - destruct p as [x|[]|[]|x|x|x|x|x|x]; simplify_eq/=; inv_ok; apply unions_keys;
      match goal with H : get_partitions _ _ _ _ = Ok ?l |- _ => exists l; split; [set_solver|];
        eapply collect_devices_key; [exact H|done| |done]; simpl; rewrite He; apply String.eqb_refl
      end.
  - destruct p as [x|[]|[]|x|x|x|x|x|x]; simplify_eq/=; inv_ok; apply unions_keys;
      match goal with H : get_mpaths _ _ _ _ = Ok ?l |- _ => exists l; split; [set_solver|];
        eapply collect_devices_key; [exact H|done| |done]; by apply find_by_major_minor_spec
      end.
  - destruct p as [x|[]|[]|x|x|x|x|x|x]; simplify_eq/=; inv_ok; apply unions_keys;
      match goal with H : get_vgs _ _ _ = Ok ?l |- _ => exists l; split; [set_solver|];
        eapply collect_devices_key; [exact H|done| |done]; by apply find_by_major_minor_spec
      end.
  - destruct p as [x|[]|[]|x|x|x|x|x|x]; simplify_eq/=; inv_ok; apply unions_keys;
      match goal with H : get_mds _ _ _ = Ok ?l |- _ => exists l; split; [set_solver|];
        eapply collect_devices_key; [exact H|done| |done]; simpl; by rewrite He
      end.
  - destruct p as [x|[]|[]|x|x|x|x|x|x]; simplify_eq/=; inv_ok; apply unions_keys;
      match goal with H : get_pools _ _ _ = Ok ?l |- _ => exists l; split; [set_solver|];
        eapply collect_devices_key; [exact H|done| |done]; simpl; by rewrite He
      end.
  - eapply collect_devices_key; eauto. simpl. rewrite He. apply String.eqb_refl.
  - simpl in H. unfold get_datasets in H. rewrite Hq in H. inv_ok.
    simplify_eq/=. eapply collect_devices_key; eauto.
Qed.

(** ** The whole tree *)

Lemma next_devices_strip b ys p ch : next_devices b ys (set_children p ch) = next_devices b ys p.
Proof. by destruct p as [[]|[]|[]|[]|[]|[]|[]|[]|[]]. Qed.

Lemma set_children_attrs d ch :
  mm_of (set_children d ch) = mm_of d /\ paths_of (set_children d ch) = paths_of d /\
  carries_mpaths (set_children d ch) = carries_mpaths d /\
  carries_vgs (set_children d ch) = carries_vgs d.
Proof. by destruct d as [[]|[]|[]|[]|[]|[]|[]|[]|[]]. Qed.

Lemma set_children_twice d ch ch' : set_children (set_children d ch) ch' = set_children d ch'.
Proof. by destruct d as [[]|[]|[]|[]|[]|[]|[]|[]|[]]. Qed.

Lemma set_children_kids d : set_children d (kids d) = d.
Proof. by destruct d as [[]|[]|[]|[]|[]|[]|[]|[]|[]]. Qed.

Lemma link_children b ys p ch d : link b ys p d -> link b ys (set_children p ch) d.
Proof.
  intros Hl. destruct (set_children_attrs p ch) as (Em & Ep & Ec & Ev).
  destruct Hl; [..|destruct x|destruct x]; rewrite <-?Em, <-?Ep, <-?Ec, <-?Ev in *;
    [eapply link_scsi|eapply link_partition|eapply link_mpath|eapply link_vg|eapply link_md
    |eapply link_pool|eapply link_lv|eapply link_dataset]; eassumption.
Qed.

Lemma link_set_children b ys p ch d : link b ys (set_children p ch) d <-> link b ys p d.
Proof.
  split; [|apply link_children]. intros Hl%(link_children _ _ _ (kids p)).
  by rewrite set_children_twice, set_children_kids in Hl.
Qed.

(** A linked device is bare. *)
Lemma link_strip b ys p d : link b ys p d -> strip d = d.
Proof.
  intros [r u e ? Hf|? ? ? u e ? ? ? Hf|? ? ? u e ? ? ? ? Hf|? ? ? u e ? ? ? ? Hf|? u e ? ? ? Hf
    |? q e ? ? Hf|x u e ? ? Hf|x q z e ? ? Hf];
    unfold scsi_of, partition_of, mpath_of, vg_of, mdraid_of, zpool_of, lv_of, dataset_of in Hf;
    inv_ok; done.
Qed.

(** The children sit at a fixed place of a device's key. *)
Definition children_slot (variant : Z) : nat :=
  nth (Z.to_nat variant) [0; 11; 12; 9; 11; 3; 5; 7]%nat 99%nat.

Definition strip_key (k : key) : key :=
  match k with
  | KL [KZ i; KL fields] => KL [KZ i; KL (<[children_slot i := KL []]> fields)]
  | _ => k
  end.

Lemma key_of_strip d : key_of (strip d) = strip_key (key_of d).
Proof. by destruct d as [[]|[]|[]|[]|[]|[]|[]|[]|[]]. Qed.

Lemma key_strip d e : key_of d = key_of e -> key_of (strip d) = key_of (strip e).
Proof. rewrite !key_of_strip. by intros ->. Qed.

(** The children of a built node: the images of the collected devices. *)
Lemma build_children_Ok f xs acc ch :
  build_children f xs acc = Some (Ok ch) ->
  exists xs', Forall2 (fun x y => f x = Some (Ok y)) xs xs' /\
    ch = set_union acc xs'.
Proof.
  revert acc. induction xs as [|x xs IH]; intros acc; simpl; intros H.
  - simplify_eq. exists []. split; [constructor|done].
  - destruct (f x) as [[x'|]|] eqn:E; try done.
    apply IH in H as (xs' & H & ->). exists (x' :: xs'). split; [by constructor|done].
Qed.

(** The tree the links prescribe: at every node the children are an ordered
    set, each child is linked to its parent, and for each link there is a child
    that differs from the linked device, if at all, in its subtree only. *)
Inductive linked b ys : Device -> Prop :=
| linked_node d :
    oset_wf (kids d) ->
    (forall c, c ∈ kids d -> link b ys d (strip c)) ->
    (forall c, c ∈ kids d -> linked b ys c) ->
    (forall e, link b ys d e -> exists c, c ∈ kids d /\ key_of (strip c) = key_of e) ->
    linked b ys d.

Lemma kids_set_children d ch : kids (set_children d ch) = ch \/ kids (set_children d ch) = [].
Proof. destruct d as [[]|[]|[]|[]|[]|[]|[]|[]|[]]; auto. Qed.

(** One level of the recursion. *)
Lemma build_device_graph_S n b ys p t :
  build_device_graph (S n) b ys p = Some (Ok t) ->
  exists xs xs', next_devices b ys p = Ok xs /\
    Forall2 (fun x y => build_device_graph n b ys x = Some (Ok y)) xs xs' /\
    t = set_children p (set_union (kids p) xs').
Proof.
  cbn [build_device_graph]. destruct (next_devices b ys p) as [xs|] eqn:En; [|done].
  destruct (build_children _ _ _) as [[ch|]|] eqn:Eb; simpl; intros H; simplify_eq/=.
  apply build_children_Ok in Eb as (xs' & Hf & ->). eauto.
Qed.

Lemma build_device_graph_strip n b ys p t :
  build_device_graph n b ys p = Some (Ok t) -> strip t = strip p.
Proof.
  destruct n; [done|]. intros (xs & xs' & _ & _ & ->)%build_device_graph_S.
  unfold strip. apply set_children_twice.
Qed.

Lemma kids_of_bare p xs : kids p = [] -> xs = [] \/ kids (set_children p xs) = xs \/
  forall b ys, next_devices b ys p = Ok [].
Proof. destruct p as [[]|[]|[]|[]|[]|[]|[]|[]|[]]; auto. Qed.

(** The children of a node come from the collected devices, and the other way
    round up to their keys. *)
Lemma built_child n b ys p xs xs' c :
  next_devices b ys p = Ok xs ->
  Forall2 (fun x y => build_device_graph n b ys x = Some (Ok y)) xs xs' ->
  c ∈ set_union [] xs' ->
  exists x, link b ys p x /\ build_device_graph n b ys x = Some (Ok c) /\ strip c = x.
Proof.
  intros Hn Hf [Hc|Hc]%elem_of_foldl_insert; [inversion Hc|].
  destruct (elem_of_Forall2_r _ _ _ _ Hf Hc) as (x & Hx & Hb).
  pose proof (next_devices_sound _ _ _ _ x Hn Hx) as Hl. exists x. split_and!; [done..|].
  rewrite (build_device_graph_strip _ _ _ _ _ Hb). by eapply link_strip.
Qed.

Lemma built_key n b ys p xs xs' e :
  next_devices b ys p = Ok xs ->
  Forall2 (fun x y => build_device_graph n b ys x = Some (Ok y)) xs xs' ->
  link b ys p e -> exists x c, c ∈ set_union [] xs' /\ key_of (strip c) = key_of e /\
    key_of x = key_of e /\ is_Some (build_device_graph n b ys x ≫= ok).
Proof.
  intros Hn Hf He.
  pose proof (next_devices_complete _ _ _ _ _ Hn He) as (x & Hx & Hin)%list_elem_of_fmap.
  destruct (elem_of_Forall2_l _ _ _ _ Hf Hin) as (y & Hy & Hb).
  assert (key_of y ∈ (key_of <$> set_union [] xs')) as (c & Hc & Hcin)%list_elem_of_fmap.
  { apply set_union_keys. right. by apply list_elem_of_fmap_2. }
  exists x, c. apply key_strip in Hc. rewrite <-Hc, (build_device_graph_strip _ _ _ _ _ Hb), Hx, Hb.
  by rewrite (link_strip _ _ _ x) by eauto using next_devices_sound.
Qed.

Lemma bare_kids p : strip p = p -> kids p = [].
Proof. intros <-. unfold strip. by destruct (kids_set_children p []). Qed.

(** One level of the recursion, on a bare device. *)
Lemma build_device_graph_bare n b ys p t :
  strip p = p -> build_device_graph (S n) b ys p = Some (Ok t) ->
  exists xs xs', next_devices b ys p = Ok xs /\
    Forall2 (fun x y => build_device_graph n b ys x = Some (Ok y)) xs xs' /\
    t = set_children p (set_union [] xs') /\ kids t = set_union [] xs'.
Proof.
  intros Hp (xs & xs' & Hn & Hf & ->)%build_device_graph_S.
  rewrite (bare_kids p Hp). exists xs, xs'. split_and!; [done..|].
  destruct (kids_of_bare p (set_union [] xs') (bare_kids p Hp)) as [->|[?|Hx]]; [|done|].
  - by destruct (kids_set_children p []).
  - rewrite Hx in Hn. simplify_eq. inversion Hf; subst. by destruct (kids_set_children p []).
Qed.

Lemma build_linked n b ys p t :
  strip p = p -> build_device_graph n b ys p = Some (Ok t) -> linked b ys t.
Proof.
  revert p t. induction n as [|n IH]; intros p t Hp H; [done|].
  apply build_device_graph_bare in H as (xs & xs' & Hn & Hf & -> & Hk); [|done].
  constructor; rewrite Hk.
  - apply foldl_insert_wf. constructor.
  - intros c Hc. destruct (built_child _ _ _ _ _ _ _ Hn Hf Hc) as (x & Hl & _ & ->).
    apply link_set_children. done.
  - intros c Hc. destruct (built_child _ _ _ _ _ _ _ Hn Hf Hc) as (x & Hl & Hb & _).
    eauto using link_strip.
  - intros e He%link_set_children. destruct (built_key _ _ _ _ _ _ _ Hn Hf He) as (_ & c & ? & ? & _).
    eauto.
Qed.

(** C1: whenever the daemon builds a device graph, the graph is the tree the
    links prescribe: it starts at the root, and at every node the children are
    exactly the devices linked to it, up to their own subtrees: disks under the
    root, partitions under the device that [part_entry_mm] names, multipaths and
    volume groups under their slaves, logical volumes under their group, pools
    under the devices of their vdevs, datasets under their pool. *)
Theorem device_graph_linked n values pools mounts t :
  device_graph n values pools mounts = Some (Ok t) ->
  strip t = DRoot Root_default /\
  linked (bucket_devices (build_device_list values) pools) mounts t.
Proof.
  unfold device_graph. intros H. split; [|eapply build_linked; [|exact H]; done].
  by apply build_device_graph_strip in H.
Qed.

(** ** Where the devices come from *)

(** A linked block device repeats the numbers and paths of an event of the
    buckets. *)
Lemma link_block b ys p d ma mi :
  link b ys p d -> mm_of d = Some (ma, mi) ->
  exists u, u ∈ b_dms b ++ b_mds b ++ b_mpaths b ++ b_partitions b ++ b_rest b /\
    ue_major u = ma /\ ue_minor u = mi /\ paths_of d = ue_paths u.
Proof.
  intros [r u e ? Hf|? ? ? u e ? ? ? Hf|? ? ? u e ? ? ? ? Hf|? ? ? u e ? ? ? ? Hf|? u e ? ? ? Hf
    |? q e ? ? Hf|x u e ? ? Hf|x q z e ? ? Hf];
    unfold scsi_of, partition_of, mpath_of, vg_of, mdraid_of, zpool_of, lv_of, dataset_of in Hf;
    inv_ok; simpl; intros [= <- <-]; exists u; (split; [|done]); rewrite !elem_of_app; auto.
Qed.

Lemma linked_below b ys t d : linked b ys t -> below t d ->
  strip d = strip t \/ exists p, link b ys p (strip d).
Proof.
  intros Ht. induction 1 as [t|t c d Hc Hd IH]; [by left|right].
  inversion Ht as [? ? Hl Hk]; subst.
  destruct (IH (Hk _ Hc)) as [->|?]; [|done]. eauto.
Qed.

Lemma attrs_strip d : mm_of (strip d) = mm_of d /\ paths_of (strip d) = paths_of d.
Proof. unfold strip. by destruct (set_children_attrs d []) as (? & ? & _). Qed.

(** C2: every block device of a built graph, at any depth, is a usable device
    that udev reported: it has the major and minor number and the paths of an
    event whose size is known and not zero, that is writable and not a BIOS
    boot partition. *)
Theorem device_graph_provenance n values pools mounts t d ma mi :
  device_graph n values pools mounts = Some (Ok t) -> below t d -> mm_of d = Some (ma, mi) ->
  exists u s, u ∈ values /\ ue_major u = ma /\ ue_minor u = mi /\ paths_of d = ue_paths u /\
    ue_size u = Some s /\ s <> 0 /\ ue_read_only u <> Some true /\ ue_bios_boot u <> Some true.
Proof.
  intros Hg Hd Hm. unfold device_graph in Hg.
  pose proof (build_device_graph_strip _ _ _ _ _ Hg) as Hs.
  apply build_linked in Hg; [|done]. destruct (attrs_strip d) as [Em Ep].
  destruct (linked_below _ _ _ _ Hg Hd) as [Hr|[p Hl]].
  - rewrite <-Em, Hr, Hs in Hm. done.
  - rewrite <-Em in Hm. destruct (link_block _ _ _ _ _ _ Hl Hm) as (u & Hu & ? & ? & Hp).
    rewrite bucket_devices_eq in Hu. cbn [b_dms b_mds b_mpaths b_partitions b_rest] in Hu.
    rewrite <-of_class_permutation in Hu. apply elem_of_filter_fn in Hu as [Hu Hk].
    unfold keep_usable in Hk. reflect. destruct (ue_size u) as [s|] eqn:Es; [|by destruct_and?].
    exists u, s. rewrite <-Ep. destruct_and?. naive_solver.
Qed.

(** ** Termination *)

Section Rank.
Context (b : Buckets) (ys : list Mount) (reached : Device -> Prop) (rank : Device -> nat).
Hypothesis reached_link : forall p d, reached p -> link b ys p d -> reached d.
Hypothesis rank_link : forall p d, reached p -> link b ys p d -> (rank d < rank p)%nat.

Lemma build_children_total (f : Device -> option (Result Error Device)) xs acc :
  (forall x, x ∈ xs -> is_Some (f x)) -> is_Some (build_children f xs acc).
Proof.
  revert acc. induction xs as [|x xs IH]; intros acc H; simpl; [eauto|].
  destruct (H x (list_elem_of_here _ _)) as [[y|e] ->]; [|eauto].
  apply IH. intros z Hz. apply H. by right.
Qed.

(** A rank that falls along every link from a device that is reached bounds the depth. *)
Lemma build_device_graph_total n p : reached p -> (rank p < n)%nat -> is_Some (build_device_graph n b ys p).
Proof.
  revert p. induction n as [|n IH]; intros p Hr Hp; [lia|]. cbn [build_device_graph].
  destruct (next_devices b ys p) as [xs|e] eqn:En; [|eauto].
  destruct (build_children_total (build_device_graph n b ys) xs (kids p)) as [r ->].
  - intros x Hx. pose proof (next_devices_sound _ _ _ _ _ En Hx) as Hl. apply IH; [by eapply reached_link|].
    pose proof (rank_link p x Hr Hl). lia.
  - simpl. eauto.
Qed.

End Rank.

(** The name of an event's device in other events. *)
Definition mm_name u : string := format_major_minor (ue_major u) (ue_minor u).

(** The disks, partitions and multipaths: what can be a physical volume of a group. *)
Definition physical b : list UEvent := b_rest b ++ b_partitions b ++ b_mpaths b.

(** How block devices are stacked, at most [R] layers and without MD arrays: a partition lies on
    its disk, a multipath on its paths, a volume group on its physical volumes, and a volume on
    its group. A volume may be made of other volumes of its group. *)
Record stacked (rk : string -> nat) (vg : string -> nat) (R : nat) b : Prop := {
  stk_mds : b_mds b = [];
  stk_rest u : u ∈ b_rest b -> (rk (mm_name u) <= R)%nat;
  stk_partition u m : u ∈ b_partitions b -> ue_part_entry_mm u = Some m ->
    (rk (mm_name u) < rk m)%nat;
  stk_mpath u m : u ∈ b_mpaths b -> m ∈ ue_dm_slave_mms u -> (rk (mm_name u) < rk m)%nat;
  stk_pv u uuid v : u ∈ b_dms b -> ue_vg_uuid u = Some uuid -> v ∈ physical b ->
    mm_name v ∈ ue_dm_slave_mms u -> (vg uuid < rk (mm_name v))%nat;
  stk_lv u uuid : u ∈ b_dms b -> ue_vg_uuid u = Some uuid -> (rk (mm_name u) < vg uuid)%nat;
}.

Section Stacked.
Context (rk : string -> nat) (vg : string -> nat) (R : nat) (b : Buckets) (ys : list Mount).
Hypothesis Hst : stacked rk vg R b.

(** What carries volume groups is a disk, a partition or a multipath. *)
Definition named d : Prop := carries_vgs d = true ->
  exists u ma mi, u ∈ physical b /\ mm_of d = Some (ma, mi) /\ mm_name u = format_major_minor ma mi.

Definition stack_rank d : nat :=
  match d with
  | DRoot _ => R + 3
  | DVolumeGroup x => vg (vg_uuid x) + 2
  | DZpool _ => 1
  | DDataset _ => 0
  | _ => match mm_of d with
         | Some (ma, mi) => rk (format_major_minor ma mi) + 2
         | None => 0
         end
  end.

Lemma stack_rank_block d ma mi :
  mm_of d = Some (ma, mi) -> stack_rank d = (rk (format_major_minor ma mi) + 2)%nat.
Proof. destruct d; simpl; intros; simplify_eq; done. Qed.

Lemma paths_of_block p ps : set_meets (paths_of p) ps = true -> is_Some (mm_of p).
Proof. destruct p; simpl; eauto; done. Qed.

Ltac by_link Hl :=
  destruct Hl as [r u e Hu Hf|q ma mi u e Hm Hu He Hf|q ma mi u e Hc Hm Hu He Hf
    |q ma mi u e Hc Hm Hu He Hf|q u e Hc Hu He Hf|q o e Hu He Hf|x u e Hu He Hf|x q z e Hq Hz Hf];
  unfold scsi_of, partition_of, mpath_of, vg_of, mdraid_of, zpool_of, lv_of, dataset_of in Hf; inv_ok.

Lemma named_link p d : link b ys p d -> named d.
Proof.
  intros Hl. by_link Hl; unfold named, physical; cbn [carries_vgs mm_of]; intros Hcarries; try done.
  - exists u. do 2 eexists. split; [set_solver|]. by split.
  - exists u. do 2 eexists. split; [set_solver|]. by split.
  - exists u. do 2 eexists. split; [set_solver|]. by split.
  - rewrite (stk_mds _ _ _ _ Hst) in Hu. inversion Hu.
Qed.

Lemma stack_rank_link p d : named p -> link b ys p d -> (stack_rank d < stack_rank p)%nat.
Proof.
  intros Hn Hl. by_link Hl; rewrite ?(stack_rank_block _ _ _ Hm); cbn [stack_rank mm_of].
  - pose proof (stk_rest _ _ _ _ Hst u Hu). unfold mm_name in *. simpl. lia.
  - pose proof (stk_partition _ _ _ _ Hst _ _ Hu He). unfold mm_name in *. simpl. lia.
  - pose proof (stk_mpath _ _ _ _ Hst _ _ Hu He). unfold mm_name in *. simpl. lia.
  - destruct (Hn Hc) as (v & ma' & mi' & Hv & Hm' & Hname). rewrite Hm in Hm'. injection Hm' as <- <-. rewrite <-Hname in *.
    simpl. match goal with E : ue_vg_uuid u = Some _ |- _ => pose proof (stk_pv _ _ _ _ Hst u _ v Hu E Hv He) end. lia.
  - rewrite (stk_mds _ _ _ _ Hst) in Hu. inversion Hu.
  - destruct (paths_of_block _ _ He) as [[ma mi] Hm]. rewrite (stack_rank_block _ _ _ Hm). lia.
  - pose proof (stk_lv _ _ _ _ Hst u _ Hu He). unfold mm_name in *. simpl. lia.
  - lia.
Qed.

End Stacked.

(** C3: building the graph ends. When the block devices and volume groups are stacked in at most
    [R] layers, each above what it is built on (partitions on disks, multipaths on their paths,
    volume groups on their physical volumes, volumes on their groups), and there are no MD
    arrays, then the recursion is at most [R + 4] deep. *)
Theorem device_graph_terminates rk vg R values pools mounts :
  stacked rk vg R (bucket_devices (build_device_list values) pools) ->
  is_Some (device_graph (R + 4) values pools mounts).
Proof.
  intros Hst. eapply build_device_graph_total.
  - intros p d _ Hl. by eapply named_link.
  - intros p d. by apply stack_rank_link.
  - by intros H.
  - cbn [stack_rank]. lia.
Qed.

(** ** MD arrays *)

Lemma set_meets_keys (l1 l2 : list DevicePath) ps :
  key_of l1 = key_of l2 -> set_meets l1 ps = set_meets l2 ps.
Proof.
  unfold key_of at 1 2, list_keyed. intros [= Hk]. apply eq_true_iff_eq.
  rewrite !set_meets_spec. by setoid_rewrite Hk.
Qed.

(** An array [u] none of whose members is the array itself is linked under
    every array node with its paths. *)
Lemma md_self_link b ys u s id x :
  u ∈ b_mds b -> ue_size u = Some s -> ue_md_uuid u = Some id ->
  set_meets (ue_paths u) (ue_md_devs u) = false -> key_of (md_paths x) = key_of (ue_paths u) ->
  exists x', link b ys (DMdRaid x) (DMdRaid x') /\ md_paths x' = ue_paths u.
Proof.
  intros Hu Hs Hid Hm Hk. eexists. split.
  - eapply link_md; [done|exact Hu| |]; simpl.
    + by rewrite (set_meets_keys _ _ _ Hk).
    + unfold mdraid_of. rewrite Hs, Hid. reflexivity.
  - done.
Qed.

Definition key_slot (i : nat) (k : key) : option key :=
  match k with KL [_; KL fields] => fields !! i | _ => None end.

Lemma device_key_md e x : key_of e = key_of (DMdRaid x) ->
  exists x', e = DMdRaid x' /\ key_of (md_paths x') = key_of (md_paths x).
Proof.
  destruct e as [[]|[]|[]|x'|[]|[]|[]|[]|[]]; try discriminate. intros H. exists x'. split; [done|].
  apply (inj Some). exact (f_equal (key_slot 6) H).
Qed.

Lemma device_key_scsi e x : key_of e = key_of (DScsiDevice x) ->
  exists x', e = DScsiDevice x' /\ key_of (sd_paths x') = key_of (sd_paths x).
Proof.
  destruct e as [[]|x'|[]|[]|[]|[]|[]|[]|[]]; try discriminate. intros H. exists x'. split; [done|].
  apply (inj Some). exact (f_equal (key_slot 9) H).
Qed.

(** A built node has a built node below it for every link. *)
Lemma built_link n b ys p t d :
  strip p = p -> build_device_graph (S n) b ys p = Some (Ok t) -> link b ys p d ->
  exists e y, strip e = e /\ key_of e = key_of d /\ build_device_graph n b ys e = Some (Ok y).
Proof.
  intros Hp H Hl. apply build_device_graph_bare in H as (xs & xs' & Hn & Hf & _); [|done].
  pose proof (next_devices_complete _ _ _ _ _ Hn Hl) as (e & He & Hin)%list_elem_of_fmap.
  destruct (elem_of_Forall2_l _ _ _ _ Hf Hin) as (y & _ & Hb). exists e, y.
  split_and!; [|done..]. eapply link_strip, next_devices_sound; eauto.
Qed.

Lemma build_md_never b ys u s id :
  u ∈ b_mds b -> ue_size u = Some s -> ue_md_uuid u = Some id ->
  set_meets (ue_paths u) (ue_md_devs u) = false ->
  forall n x t, strip (DMdRaid x) = DMdRaid x -> key_of (md_paths x) = key_of (ue_paths u) ->
  build_device_graph n b ys (DMdRaid x) <> Some (Ok t).
Proof.
  intros Hu Hs Hid Hm n. induction n as [|n IH]; intros x t Hx Hk H; [done|].
  destruct (md_self_link b ys u s id x) as (x1 & Hl & Hp); [done..|].
  destruct (built_link _ _ _ _ _ _ Hx H Hl) as (e & y & He & Hke & Hb).
  destruct (device_key_md _ _ Hke) as (x2 & -> & Hk2). eapply IH; [exact He| |exact Hb].
  by rewrite Hk2, Hp.
Qed.

Lemma usable_size u values : u ∈ build_device_list values -> is_Some (ue_size u).
Proof.
  intros [_ Hk]%elem_of_filter_fn. unfold keep_usable in Hk. reflect. by destruct_and?.
Qed.

Lemma classify_md u : classify u = ClsMd -> is_Some (ue_md_uuid u).
Proof.
  unfold classify. destruct (is_dm u); [done|]. destruct (is_mdraid u) eqn:E; [|by repeat case_match].
  intros _. unfold is_mdraid in E. by reflect.
Qed.

(** The inverted test of [get_mds] makes an MD array loop. If udev reports
    a usable MD array that is not a member of itself, and a usable disk that is
    not a member either, no depth of recursion produces a device graph: the
    array is put under the disk, and then under itself for ever. *)
Theorem device_graph_md_diverges n values pools mounts t u v :
  u ∈ build_device_list values -> classify u = ClsMd ->
  set_meets (ue_paths u) (ue_md_devs u) = false ->
  v ∈ build_device_list values -> classify v = ClsRest ->
  set_meets (ue_paths v) (ue_md_devs u) = false ->
  device_graph n values pools mounts <> Some (Ok t).
Proof.
  intros Hu Hcu Hmu Hv Hcv Hmv Hg. unfold device_graph in Hg.
  destruct (usable_size _ _ Hu) as [su Hsu], (usable_size _ _ Hv) as [sv Hsv],
    (classify_md _ Hcu) as [id Hid].
  set (b := bucket_devices _ _) in *.
  assert (u ∈ b_mds b /\ v ∈ b_rest b) as [Hub Hvb].
  { unfold b. rewrite bucket_devices_eq. simpl. by rewrite !elem_of_of_class. }
  destruct n as [|n]; [done|].
  destruct (scsi_of mounts v) as [d|] eqn:Ed; unfold scsi_of in Ed; rewrite Hsv in Ed; [|done].
  destruct (built_link n b mounts (DRoot Root_default) t d eq_refl Hg) as (e & y & He & Hk & Hb).
  { apply link_scsi with v; [done|]. unfold scsi_of. by rewrite Hsv. }
  inv_ok. destruct (device_key_scsi _ _ Hk) as (x1 & -> & Hkx). destruct n as [|n]; [done|].
  destruct (mdraid_of mounts u) as [d|] eqn:Ed; unfold mdraid_of in Ed; rewrite Hsu, Hid in Ed; [|done].
  destruct (built_link n b mounts _ y d He Hb) as (e2 & y2 & He2 & Hk2 & Hb2).
  { apply link_md with u; [done..| |].
    - simpl. by rewrite (set_meets_keys _ _ _ Hkx).
    - unfold mdraid_of. by rewrite Hsu, Hid. }
  inv_ok. destruct (device_key_md _ _ Hk2) as (xm & -> & Hkx2).
  by eapply (build_md_never b mounts u su id); [..|exact Hb2].
Qed.
End GraphSpec.

(** ** Concrete graphs *)

Section GraphWitnesses.
#[local] Existing Instance sample_libzfs.

Definition sample_values : list UEvent := [sample_partition; sample_disk].

(** The disk, its partition, the pool on it and the pool's dataset. *)
Definition sample_tree : Device :=
  match device_graph 6 sample_values [sample_pool] [] with
  | Some (Ok t) => t
  | _ => DRoot Root_default
  end.

Lemma sample_tree_built : device_graph 6 sample_values [sample_pool] [] = Some (Ok sample_tree).
Proof. by vm_compute. Qed.

Lemma device_graph_linked_witness :
  strip sample_tree = DRoot Root_default /\
  linked (bucket_devices (build_device_list sample_values) [sample_pool]) [] sample_tree.
Proof. apply (device_graph_linked 6), sample_tree_built. Defined.

(** The partition of the sample tree. *)
Definition sample_tree_partition : Device :=
  default sample_tree (find_device_by_devpath (MkDevicePath "/dev/sda1") sample_tree).

Lemma device_graph_provenance_witness :
  exists u s, u ∈ sample_values /\ ue_major u = "8" /\ ue_minor u = "1" /\
    paths_of sample_tree_partition = ue_paths u /\
    ue_size u = Some s /\ s <> 0 /\ ue_read_only u <> Some true /\ ue_bios_boot u <> Some true.
Proof.
  apply (device_graph_provenance 6 _ [sample_pool] [] sample_tree).
  - apply sample_tree_built.
  - eapply below_kid; [vm_compute; apply list_elem_of_here|].
    eapply below_kid; [vm_compute; apply list_elem_of_here|]. vm_compute. apply below_refl.
  - by vm_compute.
Defined.

(** A volume of the group [vg0] on the devices [slaves]. *)
Definition sample_lv (minor lv : string) (slaves : list string) : UEvent :=
  let e := blank_event "253" minor ["/dev/mapper/" +:+ lv] ("/devices/dm-" +:+ minor) (Some 512) in
  {| ue_major := ue_major e; ue_minor := ue_minor e; ue_seqnum := 4; ue_paths := ue_paths e;
     ue_devname := ue_devname e; ue_devpath := ue_devpath e; ue_devtype := "disk";
     ue_vendor := None; ue_model := None; ue_serial := None; ue_fs_type := None;
     ue_fs_usage := None; ue_fs_uuid := None; ue_fs_label := None;
     ue_part_entry_number := None; ue_part_entry_mm := None; ue_size := ue_size e;
     ue_rotational := None; ue_scsi80 := None; ue_scsi83 := None; ue_read_only := Some false;
     ue_bios_boot := None; ue_zfs_reserved := None; ue_is_mpath := None;
     ue_dm_slave_mms := slaves; ue_dm_vg_size := Some 1024; ue_md_devs := [];
     ue_dm_multipath_devpath := None; ue_dm_name := None; ue_dm_lv_name := Some lv;
     ue_lv_uuid := Some (lv +:+ "-uuid"); ue_dm_vg_name := Some "vg0"; ue_vg_uuid := Some "vg0-uuid"; ue_md_uuid := None |}.

(** A disk, the data of a thin pool on it, the pool on its data, and a thin volume on the pool. *)
Definition thin_values : list UEvent :=
  [sample_disk; sample_lv "0" "pool_tdata" ["8:0"]; sample_lv "1" "pool" ["253:0"]; sample_lv "2" "thin" ["253:1"]].

Lemma device_graph_terminates_witness : is_Some (device_graph 6 thin_values [] []).
Proof.
  apply (device_graph_terminates (fun m => if String.eqb m "8:0" then 2%nat else 0%nat) (fun _ => 1%nat) 2).
  constructor; [done|..]; vm_compute bucket_devices; cbn [b_rest b_partitions b_mpaths b_dms physical app].
  - intros u ->%list_elem_of_singleton. by vm_compute; constructor.
  - intros u m H. inversion H.
  - intros u m H. inversion H.
  - intros u uuid v _ _ ->%list_elem_of_singleton _. vm_compute. constructor.
  - intros u uuid Hu _. rewrite !elem_of_cons, elem_of_nil in Hu. destruct Hu as [->|[->|[->|[]]]]; vm_compute; constructor.
Defined.

Lemma device_graph_md_diverges_witness :
  device_graph 40 [sample_disk; sample_md] [] [] <> Some (Ok (DRoot Root_default)).
Proof.
  apply (device_graph_md_diverges 40 _ [] [] _ sample_md sample_disk).
  - vm_compute. apply list_elem_of_further, list_elem_of_here.
  - by vm_compute.
  - by vm_compute.
  - vm_compute. apply list_elem_of_here.
  - by vm_compute.
  - by vm_compute.
Defined.

End GraphWitnesses.
