(* ===== verification/Daemon.v ===== *)
(** The scanner daemon of [device-scanner-daemon/src/daemon.rs]: [reader] takes
    one command per connection, updates the state and hands the new device graph
    to [writer], which passes it to every streaming client. The operating system
    (accepted connections, outcomes of writes) and [serde_json] are arguments;
    what the daemon does to the outside is a list of effects. *)
From S2P Require Import Prelude RustStd Ordering DeviceTypes Samples Devices DeviceGraph Reducers.
From stdpp Require Import base gmap sets list strings.
From Stdlib Require Import ZArith Ascii.

Open Scope Z_scope.

(** * The writer *)

Section Writer.
Context {S : Type}.

Inductive WriterCmd : Type :=
| WAdd (w : S)
| WMsg (msg : string).

(** [is_error]: true when the write went well; an index out of range panics. *)
Definition is_error (xs : list (Result string unit)) (idx : nat) : option bool :=
  match xs !! idx with
  | None => None
  | Some (Err _) => Some false
  | Some (Ok _) => Some true
  end.

(** [enumerate().filter(..).map(..).collect()] from index [i] on. *)
Fixpoint keep_alive (xs : list (Result string unit)) (i : nat) (ws : list S) : option (list S) :=
  match ws with
  | [] => Some []
  | w :: ws =>
      b ← is_error xs i;
      ws' ← keep_alive xs (Datatypes.S i) ws;
      Some (if (b : bool) then w :: ws' else ws')
  end.

(** One turn of [writer]'s loop; [write_all w x] is how the write of [x] to [w]
    ends. *)
Definition writer_step (write_all : S -> string -> Result string unit) (writers : list S)
    (cmd : WriterCmd) : option (list S) :=
  match cmd with
  | WAdd w => Some (writers ++ [w])
  | WMsg x =>
      let xs := (fun w => write_all w x) <$> writers in
      keep_alive xs 0 writers
  end.

(** The loop over the commands received, each with the outcome of its writes. *)
Fixpoint writer (writers : list S)
    (cmds : list (WriterCmd * (S -> string -> Result string unit))) : option (list S) :=
  match cmds with
  | [] => Some writers
  | (cmd, write_all) :: cmds =>
      writers ← writer_step write_all writers cmd; writer writers cmds
  end.

(** ** What it promises: a client stays until a write to it fails. *)

Definition writes_ok (w : S) (c : WriterCmd * (S -> string -> Result string unit)) : bool :=
  match c with
  | (WAdd _, _) => true
  | (WMsg x, write_all) => match write_all w x with Ok _ => true | Err _ => false end
  end.

Fixpoint survivors (cmds : list (WriterCmd * (S -> string -> Result string unit))) : list S :=
  match cmds with
  | [] => []
  | (WAdd w, _) :: cmds => (if forallb (writes_ok w) cmds then [w] else []) ++ survivors cmds
  | (WMsg _, _) :: cmds => survivors cmds
  end.

Lemma keep_alive_spec (f : S -> Result string unit) pre ws :
  keep_alive (f <$> (pre ++ ws)) (length pre) ws =
  Some (List.filter (fun w => match f w with Ok _ => true | Err _ => false end) ws).
Proof.
  revert pre. induction ws as [|w ws IH]; intros pre; [done|]. simpl.
  unfold is_error. rewrite fmap_app, lookup_app_r; rewrite length_fmap; [|done].
  rewrite Nat.sub_diag. csimpl. specialize (IH (pre ++ [w])).
  rewrite length_app, <-app_assoc in IH. simpl in IH. rewrite Nat.add_1_r, fmap_app in IH.
  csimpl in IH. rewrite <-fmap_cons, <-fmap_app in *.
  destruct (f w) eqn:E; simpl; rewrite IH; done.
Qed.

Lemma writer_survivors ws cmds :
  writer ws cmds = Some (List.filter (fun w => forallb (writes_ok w) cmds) ws ++ survivors cmds).
Proof.
  revert ws. induction cmds as [|[[w|x] f] cmds IH]; intros ws; simpl.
  - rewrite app_nil_r. f_equal. induction ws; simpl; congruence.
  - rewrite IH, List.filter_app, <-app_assoc. simpl. by destruct (forallb _ cmds).
  - pose proof (keep_alive_spec (fun w => f w x) [] ws) as Hk. simpl in Hk. rewrite Hk.
    clear Hk. simpl. rewrite IH. do 2 f_equal.
    induction ws as [|w ws IHw]; simpl; [done|].
    destruct (f w x); simpl; [|done]. rewrite IHw. by destruct (forallb _ cmds).
Qed.

(** [writer] never indexes out of range, and it keeps exactly the clients all
    of whose writes since they were added went well, in the order they came; one
    failing client never costs another one its place. *)
Theorem writer_keeps_healthy cmds : writer [] cmds = Some (survivors cmds).
Proof. by rewrite writer_survivors. Qed.

End Writer.
Arguments WriterCmd : clear implicits.

(** * The reader *)

(** What [serde_json] does with the daemon's values. *)
Class Serde {L : LibZfs} : Type := {
  cmd_from_str : string -> Result string Command;
  graph_to_string : Device -> list Mount -> Result string string;
  mounts_to_string : list Mount -> Result string string;
}.

(** The order in which Rust iterates over a table; the program does not fix it. *)
Class HashIter {L : LibZfs} : Type := {
  iter_uevents : gmap key UEvent -> list UEvent;
  iter_pools : gmap Z Pool -> list Pool;
  iter_mounts : gmap key Mount -> list Mount;
  iter_uevents_perm m : iter_uevents m ≡ₚ (map_to_list m).*2;
  iter_pools_perm m : iter_pools m ≡ₚ (map_to_list m).*2;
  iter_mounts_perm m : iter_mounts m ≡ₚ (map_to_list m).*2;
}.

Section Reader.
Context {L : LibZfs} {serde : Serde} {hash_iter : HashIter} {S : Type}.

(** A connection: the socket, the first line the client sends, and how the
    operations on the socket and the channel will end. *)
Record Conn : Type := MkConn {
  cn_sock : S;
  cn_line : option (Result string string);
  cn_write : Result string unit;
  cn_shutdown : Result string unit;
  cn_send : Result string unit;
}.

(** What others see of the daemon. *)
Inductive Effect : Type :=
| EffWrite (sock : S) (bytes : string)
| EffSend (cmd : WriterCmd S).

(** Computations that emit effects, may fail, and may not return ([None]). *)
Definition Act (A : Type) : Type := list Effect * option (Result Error A).

Definition act_ret {A} (a : A) : Act A := ([], Some (Ok a)).

Definition act_lift {A} (r : Result Error A) : Act A := ([], Some r).

Definition act_bind {A B} (m : Act A) (f : A -> Act B) : Act B :=
  match m with
  | (es, Some (Ok a)) => let '(es', r) := f a in (es ++ es', r)
  | (es, Some (Err e)) => (es, Some (Err e))
  | (es, None) => (es, None)
  end.

(** An effect that happens when the operation succeeds. *)
Definition act_do (r : Result Error unit) (e : Effect) : Act unit :=
  match r with Ok _ => ([e], Some (Ok tt)) | Err x => ([], Some (Err x)) end.

#[local] Notation "'let?' x := m 'in' k" := (act_bind m (fun x => k))
  (at level 200, x name, right associativity).

(** [state::produce_device_graph]. *)
Definition produce_device_graph (fuel : nat) (st : State) : option (Result Error string) :=
  let mounts := iter_mounts (st_local_mounts st) in
  r ← device_graph fuel (iter_uevents (st_uevents st)) (iter_pools (st_zed_events st)) mounts;
  Some (root ← r;
        v ← map_err ESerdeJson (graph_to_string root mounts);
        Ok (v +:+ String "010" "")).

Definition with_uevents (st : State) (m : gmap key UEvent) : State :=
  {| st_uevents := m; st_zed_events := st_zed_events st; st_local_mounts := st_local_mounts st |}.
Definition with_zed_events (st : State) (m : gmap Z Pool) : State :=
  {| st_uevents := st_uevents st; st_zed_events := m; st_local_mounts := st_local_mounts st |}.
Definition with_local_mounts (st : State) (m : gmap key Mount) : State :=
  {| st_uevents := st_uevents st; st_zed_events := st_zed_events st; st_local_mounts := m |}.

(** The end of a turn that changed the state: broadcast the new graph. *)
Definition broadcast (fuel : nat) (c : Conn) (st : State) : Act State :=
  let? output := ([], produce_device_graph fuel st) : Act string in
  let? _ := act_do (map_err ETrySend (cn_send c)) (EffSend (WMsg output)) in
  act_ret st.

(** One turn of [reader]'s loop: the state after the connection. *)
Definition reader_conn (fuel : nat) (st : State) (c : Conn) : Act State :=
  match cn_line c with
  | None => act_ret st
  | Some x =>
      let? x := act_lift (map_err ELinesCodec x) in
      let? cmd := act_lift (map_err ESerdeJson (cmd_from_str (trim_end x))) in
      match cmd with
      | CmdStream =>
          let? output := ([], produce_device_graph fuel st) : Act string in
          let? _ := act_do (map_err EIo (cn_write c)) (EffWrite (cn_sock c) output) in
          let? _ := act_do (map_err ETrySend (cn_send c)) (EffSend (WAdd (cn_sock c))) in
          act_ret st
      | CmdGetMounts =>
          let? v := act_lift (map_err ESerdeJson
                      (mounts_to_string (iter_mounts (st_local_mounts st)))) in
          let? _ := act_lift (map_err EIo (cn_shutdown c)) in
          let? _ := act_do (map_err EIo (cn_write c))
                      (EffWrite (cn_sock c) (v +:+ String "010" "")) in
          act_ret st
      | CmdUdev x =>
          let? _ := act_lift (map_err EIo (cn_shutdown c)) in
          broadcast fuel c (with_uevents st (update_udev (st_uevents st) x))
      | CmdMount x =>
          let? _ := act_lift (map_err EIo (cn_shutdown c)) in
          broadcast fuel c (with_local_mounts st (update_mount (st_local_mounts st) x))
      | CmdPool x =>
          let? _ := act_lift (map_err EIo (cn_shutdown c)) in
          let? zed_events := act_lift (update_zed_events (st_zed_events st) x) in
          broadcast fuel c (with_zed_events st zed_events)
      end
  end.

(** [reader]: the loop over the accepted connections, with the state it ends in. *)
Fixpoint reader (fuel : nat) (st : State) (incoming : list (Result string Conn)) : Act State :=
  match incoming with
  | [] => act_ret st
  | sock :: incoming =>
      let? c := act_lift (map_err EIo sock) in
      let? st := reader_conn fuel st c in
      reader fuel st incoming
  end.

(** ** The contract *)

(** The command of a connection, when the client sent one. *)
Definition conn_cmd (c : Conn) : option (option Command) :=
  match cn_line c with
  | None => Some None
  | Some x => s ← ok x; cmd ← ok (cmd_from_str (trim_end s)); Some (Some cmd)
  end.

Definition apply_cmd (st : State) (cmd : Command) : Result Error State :=
  match cmd with
  | CmdStream | CmdGetMounts => Ok st
  | CmdUdev x => Ok (with_uevents st (update_udev (st_uevents st) x))
  | CmdMount x => Ok (with_local_mounts st (update_mount (st_local_mounts st) x))
  | CmdPool x => with_zed_events st <$> update_zed_events (st_zed_events st) x
  end.

Definition mutates (cmd : Command) : bool :=
  match cmd with CmdStream | CmdGetMounts => false | _ => true end.

Definition graph_of (fuel : nat) (st : State) : option string :=
  r ← produce_device_graph fuel st; ok r.

(** The state and the graphs broadcast after a sequence of commands. *)
Fixpoint run_cmds (fuel : nat) (st : State) (cmds : list (option Command)) :
    option (State * list string) :=
  match cmds with
  | [] => Some (st, [])
  | None :: cmds => run_cmds fuel st cmds
  | Some cmd :: cmds =>
      st' ← ok (apply_cmd st cmd);
      if mutates cmd then
        g ← graph_of fuel st'; '(s, gs) ← run_cmds fuel st' cmds; Some (s, g :: gs)
      else run_cmds fuel st' cmds
  end.

Definition broadcasts (es : list Effect) : list string :=
  omap (fun e => match e with EffSend (WMsg m) => Some m | _ => None end) es.

(** What reaches a client over its socket, if every write to it goes well: the
    reader's own writes, and the broadcasts once the writer has the socket. *)
Fixpoint received `{!EqDecision S} (s : S) (attached : bool) (es : list Effect) : list string :=
  match es with
  | [] => []
  | EffWrite s' b :: es =>
      if decide (s' = s) then b :: received s attached es else received s attached es
  | EffSend (WAdd s') :: es => received s (attached || bool_decide (s' = s)) es
  | EffSend (WMsg m) :: es => if attached then m :: received s attached es else received s attached es
  end.

Lemma act_bind_Ok {A B} (m : Act A) (f : A -> Act B) es b :
  act_bind m f = (es, Some (Ok b)) ->
  exists es1 es2 a, m = (es1, Some (Ok a)) /\ f a = (es2, Some (Ok b)) /\ es = es1 ++ es2.
Proof.
  destruct m as [es1 [[a|]|]]; simpl; try done. destruct (f a) as [es2 r] eqn:E. intros [= <- ->].
  eauto 10.
Qed.

Lemma act_do_Ok r e es u : act_do r e = (es, Some (Ok u)) -> es = [e] /\ r = Ok tt.
Proof. destruct r as [[]|]; simpl; intros [=]; eauto. Qed.

Ltac inv_act :=
  repeat match goal with
  | H : act_bind _ _ = (_, Some (Ok _)) |- _ =>
      apply act_bind_Ok in H as (? & ? & ? & ? & ? & ->)
  | H : act_do _ _ = (_, Some (Ok _)) |- _ => apply act_do_Ok in H as [-> ?]
  | H : act_lift _ = (_, Some (Ok _)) |- _ => injection H as <- ?
  | H : act_ret _ = (_, Some (Ok _)) |- _ => injection H as <- ?
  | H : (_, _) = (_, Some (Ok _)) |- _ => injection H as <- ?
  | H : map_err _ ?r = Ok _ |- _ => destruct r eqn:?; simpl in H; simplify_eq
  end; subst.

(** What one served connection does. *)
Lemma reader_conn_Ok fuel st c es st' :
  reader_conn fuel st c = (es, Some (Ok st')) ->
  (conn_cmd c = Some None /\ st' = st /\ es = []) \/
  exists cmd, conn_cmd c = Some (Some cmd) /\ apply_cmd st cmd = Ok st' /\
    match cmd with
    | CmdStream => exists g, graph_of fuel st = Some g /\
        es = [EffWrite (cn_sock c) g; EffSend (WAdd (cn_sock c))]
    | CmdGetMounts => exists v, es = [EffWrite (cn_sock c) v]
    | _ => exists g, graph_of fuel st' = Some g /\ es = [EffSend (WMsg g)]
    end.
Proof.
  unfold reader_conn, conn_cmd. destruct (cn_line c) as [x|].
  2: { intros [= <- <-]. auto. }
  intros H. right. inv_act.
  match goal with
  | Hc : cmd_from_str _ = Ok ?cmd, H : _ = (_, Some (Ok _)) |- _ =>
      exists cmd; simpl; rewrite Hc; simpl; split; [done|]; destruct cmd; unfold broadcast in H
  end; inv_act; unfold graph_of; simpl; split;
    repeat match goal with
    | H : produce_device_graph _ _ = _ |- _ => rewrite H
    | H : update_zed_events _ _ = _ |- _ => rewrite H
    end; simpl; eauto.
Qed.

Lemma reader_cons fuel st i incoming es st' :
  reader fuel st (i :: incoming) = (es, Some (Ok st')) ->
  exists c es1 es2 st1, i = Ok c /\ reader_conn fuel st c = (es1, Some (Ok st1)) /\
    reader fuel st1 incoming = (es2, Some (Ok st')) /\ es = es1 ++ es2.
Proof.
  simpl. destruct i as [c|]; simpl; [|done]. intros H.
  destruct (act_bind _ _) as [es' r] eqn:E; simplify_eq.
  apply act_bind_Ok in E as (es1 & es2 & st1 & ? & ? & ->). simplify_eq/=. eauto 10.
Qed.

Lemma broadcasts_app es1 es2 : broadcasts (es1 ++ es2) = broadcasts es1 ++ broadcasts es2.
Proof. apply omap_app. Qed.

Lemma reader_run fuel st incoming es st' :
  reader fuel st incoming = (es, Some (Ok st')) ->
  exists cmds, mapM (fun i => c ← ok i; conn_cmd c) incoming = Some cmds /\
    run_cmds fuel st cmds = Some (st', broadcasts es).
Proof.
  revert st es. induction incoming as [|i incoming IH]; intros st es H.
  - injection H as <- <-. by exists [].
  - apply reader_cons in H as (c & es1 & es2 & st1 & -> & Hc & (cmds & Hm & Hr)%IH & ->).
    rewrite broadcasts_app.
    apply reader_conn_Ok in Hc as [(Hc & -> & ->)|(cmd & Hc & Ha & He)].
    + exists (None :: cmds). simpl. by rewrite Hc, Hm.
    + exists (Some cmd :: cmds). simpl. rewrite Hc, Hm, Ha. split; [done|].
      destruct cmd; simpl; destruct He as (g & He); destruct_and?; subst; simpl;
        try done; match goal with H : graph_of _ _ = _ |- _ => rewrite H end; simpl; by rewrite Hr.
Qed.

(** C4: as long as the reader runs, its state is the one the commands received so
    far lead to through the reducers, [Stream] and [GetMounts] and connections
    without a line leave it alone, and the graphs handed to the writer are
    exactly those of the state after each changing command, in order. *)
Theorem reader_refines fuel incoming es st' :
  reader fuel State_new incoming = (es, Some (Ok st')) ->
  exists cmds, mapM (fun i => c ← ok i; conn_cmd c) incoming = Some cmds /\
    run_cmds fuel State_new cmds = Some (st', broadcasts es).
Proof. apply reader_run. Qed.

(** *** The first failure ends the daemon *)

Lemma reader_app fuel st xs ys es st' :
  reader fuel st xs = (es, Some (Ok st')) ->
  reader fuel st (xs ++ ys) = let '(es', r) := reader fuel st' ys in (es ++ es', r).
Proof.
  revert st es. induction xs as [|i xs IH]; intros st es H.
  - injection H as <- <-. simpl. by destruct (reader _ _ _).
  - apply reader_cons in H as (c & es1 & es2 & st1 & -> & Hc & H & ->). simpl.
    rewrite Hc. simpl. rewrite (IH _ _ H). destruct (reader fuel st' ys) as [es' r]. simpl.
    by rewrite app_assoc.
Qed.

(** The reader serves its connections one after the other and stops at the
    first that fails: what a bad connection (a line that is no command, a client
    that went away, an unknown pool) causes is that error, after the effects of
    the connections before it, and no later connection is served. *)
Theorem reader_stops_at_failure fuel st pre c post es st' es' e :
  reader fuel st pre = (es, Some (Ok st')) ->
  reader_conn fuel st' c = (es', Some (Err e)) ->
  reader fuel st (pre ++ Ok c :: post) = (es ++ es', Some (Err e)).
Proof.
  intros Hpre Hc. rewrite (reader_app _ _ _ _ _ _ Hpre). simpl. by rewrite Hc.
Qed.

(** *** The view of a streaming client *)

Context `{!EqDecision S}.

Lemma received_fresh s b es :
  (forall s' x, EffWrite s' x ∈ es -> s' <> s) -> (forall s', EffSend (WAdd s') ∈ es -> s' <> s) ->
  received s b es = if b then broadcasts es else [].
Proof.
  revert b. induction es as [|e es IH]; intros b Hw Ha; [by destruct b|].
  assert (received s b es = if b then broadcasts es else []) as IHb.
  { apply IH; intros; [eapply Hw|eapply Ha]; by right. }
  destruct e as [s' x|[s'|m]]; simpl.
  - rewrite decide_False; [done|]. eapply Hw. left.
  - rewrite bool_decide_false, orb_false_r; [done|]. eapply Ha. left.
  - rewrite IHb. by destruct b.
Qed.

Lemma received_app s b es1 es2 :
  (forall s', EffSend (WAdd s') ∈ es1 -> s' <> s) ->
  received s b (es1 ++ es2) = received s b es1 ++ received s b es2.
Proof.
  induction es1 as [|e es1 IH]; intros Ha; [done|].
  assert (received s b (es1 ++ es2) = received s b es1 ++ received s b es2) as IHb.
  { apply IH. intros. apply Ha. by right. }
  destruct e as [s' x|[s'|m]]; simpl.
  - case_decide; rewrite IHb; done.
  - rewrite bool_decide_false, orb_false_r; [done|]. apply Ha. left.
  - rewrite IHb. by destruct b.
Qed.

(** The sockets in the effects are those of the connections. *)
Lemma reader_sockets fuel st incoming es st' s :
  reader fuel st incoming = (es, Some (Ok st')) ->
  (forall c, Ok c ∈ incoming -> cn_sock c <> s) ->
  (forall s' x, EffWrite s' x ∈ es -> s' <> s) /\ (forall s', EffSend (WAdd s') ∈ es -> s' <> s).
Proof.
  revert st es. induction incoming as [|i incoming IH]; intros st es H Hs.
  - injection H as <- <-. split; [intros ? ? Hx|intros ? Hx]; inversion Hx.
  - apply reader_cons in H as (c & es1 & es2 & st1 & -> & Hc & H & ->).
    destruct (IH _ _ H) as [IH1 IH2]; [intros ? ?; apply Hs; by right|].
    assert (cn_sock c <> s) as Hcs by (apply Hs; left).
    assert (forall e, e ∈ es1 -> match e with EffWrite s' _ | EffSend (WAdd s') => s' <> s | _ => True end)
      as He.
    { apply reader_conn_Ok in Hc as [(_ & _ & ->)|(cmd & _ & _ & He)]; [intros e Hx; inversion Hx|].
      intros e Hx. destruct cmd; destruct He as (g & He); destruct_and?; subst;
        repeat (apply elem_of_cons in Hx as [->|Hx]); try done; inversion Hx. }
    split; [intros s' x [Hx|Hx]%elem_of_app|intros s' [Hx|Hx]%elem_of_app]; eauto; exact (He _ Hx).
Qed.

(** A client that asks for the stream gets the graph of the state at that
    moment, and then every graph broadcast after it: none is missed between the
    first write and the hand-over to the writer, and none sent before. *)
Theorem stream_client_view fuel pre c post es st' :
  reader fuel State_new (pre ++ Ok c :: post) = (es, Some (Ok st')) ->
  conn_cmd c = Some (Some CmdStream) ->
  (forall c', Ok c' ∈ pre ++ post -> cn_sock c' <> cn_sock c) ->
  exists es1 st1 g es2, reader fuel State_new pre = (es1, Some (Ok st1)) /\
    graph_of fuel st1 = Some g /\ reader fuel st1 post = (es2, Some (Ok st')) /\
    received (cn_sock c) false es = g :: broadcasts es2.
Proof.
  intros H Hc Hs.
  assert (exists es1 st1, reader fuel State_new pre = (es1, Some (Ok st1))) as (es1 & st1 & Hpre).
  { revert H. clear. generalize State_new as st. revert es. induction pre as [|i pre IH]; intros es st H.
    - by eexists _, _.
    - simpl app in H. apply reader_cons in H as (c' & es1 & es2 & st1 & -> & Hc & (es3 & st3 & H)%IH & ->).
      exists (es1 ++ es3), st3. simpl. rewrite Hc. simpl. by rewrite H. }
  rewrite (reader_app _ _ _ _ _ _ Hpre) in H.
  destruct (reader fuel st1 (Ok c :: post)) as [es2 r] eqn:E. simplify_eq.
  apply reader_cons in E as (? & es3 & es4 & st2 & [= <-] & Hr & Hpost & ->).
  apply reader_conn_Ok in Hr as [(Hc' & _)|(cmd & Hc' & Ha & He)]; rewrite Hc in Hc'; simplify_eq/=.
  simplify_eq. destruct He as (g & Hg & ->). exists es1, st2, g, es4. split_and!; [done..|].
  destruct (reader_sockets _ _ _ _ _ (cn_sock c) Hpre) as [Hw1 Ha1]; [set_solver|].
  destruct (reader_sockets _ _ _ _ _ (cn_sock c) Hpost) as [Hw2 Ha2]; [set_solver|].
  rewrite received_app, (received_fresh _ _ es1) by done. simpl.
  rewrite decide_True, bool_decide_true by done. simpl. by rewrite received_fresh.
Qed.

(** *** The invariant of the daemon's state *)

Record state_wf (st : State) : Prop := {
  sw_uevents : keyed_by (fun u => path_key (ue_devpath u)) (st_uevents st);
  sw_mounts : keyed_by key_of (st_local_mounts st);
  sw_pools : zed_wf (st_zed_events st);
}.

Definition cmd_wf (o : option Command) : Prop :=
  match o with Some (CmdPool c) => pool_cmd_wf c | _ => True end.

Lemma apply_cmd_wf st st' cmd :
  state_wf st -> cmd_wf (Some cmd) -> apply_cmd st cmd = Ok st' -> state_wf st'.
Proof.
  intros [Hu Hm Hz] Hc H. destruct cmd as [| |x|x|x]; simpl in *; inv_ok; try done; split; try done.
  - by eapply update_zed_events_wf.
  - destruct x; simpl; try apply keyed_delete; try apply (keyed_insert (fun u => path_key (ue_devpath u))); done.
  - unfold with_local_mounts. cbn [st_local_mounts].
    destruct x; unfold update_mount, hs_insert, hs_remove;
      try apply (keyed_insert key_of); try apply keyed_delete; done.
Qed.

Lemma run_cmds_wf fuel st cmds st' gs :
  state_wf st -> Forall cmd_wf cmds -> run_cmds fuel st cmds = Some (st', gs) -> state_wf st'.
Proof.
  intros Hst Hw. revert st gs Hst. induction Hw as [|[cmd|] cmds Hc _ IH]; intros st gs Hst H; simpl in H.
  - by simplify_eq.
  - destruct (apply_cmd st cmd) as [st1|] eqn:Ea; simplify_eq/=.
    assert (state_wf st1) by (by eapply apply_cmd_wf). destruct (mutates cmd); [|eauto].
    destruct (graph_of fuel st1); simplify_eq/=.
    destruct (run_cmds fuel st1 cmds) as [[s1 gs1]|] eqn:Er; simplify_eq/=. eauto.
  - eauto.
Qed.

Lemma keyed_values_NoDup {K A} `{Countable K} (f : A -> K) (m : gmap K A) :
  keyed_by f m -> NoDup (f <$> (map_to_list m).*2).
Proof.
  intros Hk. rewrite <-list_fmap_compose.
  rewrite (list_fmap_ext (f ∘ snd) fst (map_to_list m)); [apply NoDup_fst_map_to_list|].
  intros i [k x] Hi. apply Hk, elem_of_map_to_list. by eapply list_elem_of_lookup_2.
Qed.

(** In every state the daemon reaches, each event is filed under its device
    path, each mount and pool under its own identity, and no pool has two
    datasets or two properties of one name, provided the pools it is sent are
    so; a graph is then built from at most one event per device path. *)
Theorem reader_invariant fuel incoming es st' cmds :
  reader fuel State_new incoming = (es, Some (Ok st')) ->
  mapM (fun i => c ← ok i; conn_cmd c) incoming = Some cmds -> Forall cmd_wf cmds ->
  state_wf st' /\
  NoDup ((fun u => path_key (ue_devpath u)) <$> iter_uevents (st_uevents st')).
Proof.
  intros (cmds' & Hm & Hr)%reader_run Hm' Hw. simplify_eq.
  assert (state_wf st') as Hst.
  { eapply run_cmds_wf; [|done..]. split; [apply map_Forall_empty..|].
    split; apply map_Forall_empty. }
  split; [done|]. rewrite iter_uevents_perm. apply keyed_values_NoDup, Hst.
Qed.

End Reader.

(** * Examples *)

Section DaemonWitnesses.
#[local] Existing Instance sample_libzfs.

#[local] Instance sample_serde : Serde :=
  {| cmd_from_str := fun s =>
       if String.eqb s "stream" then Ok CmdStream
       else if String.eqb s "disk" then Ok (CmdUdev (UdevAdd sample_disk))
       else if String.eqb s "partition" then Ok (CmdUdev (UdevAdd sample_partition))
       else Err "expected value";
     graph_to_string := fun d ms => Ok (fmt_int (Z.of_nat (length (kids d))));
     mounts_to_string := fun ms => Ok (fmt_int (Z.of_nat (length ms))) |}.

#[local] Instance sample_hash_iter : HashIter :=
  {| iter_uevents := fun m => (map_to_list m).*2;
     iter_pools := fun m => (map_to_list m).*2;
     iter_mounts := fun m => (map_to_list m).*2;
     iter_uevents_perm := fun m => Permutation_refl _;
     iter_pools_perm := fun m => Permutation_refl _;
     iter_mounts_perm := fun m => Permutation_refl _ |}.

Definition sample_conn (sock : Z) (line : string) : Conn :=
  {| cn_sock := sock; cn_line := Some (Ok line); cn_write := Ok tt; cn_shutdown := Ok tt;
     cn_send := Ok tt |}.

Definition sample_incoming : list (Result string (Conn (S := Z))) :=
  [Ok (sample_conn 1 "disk"); Ok (sample_conn 2 "stream"); Ok (sample_conn 3 "partition")].

Definition sample_state : State :=
  match reader 6 State_new sample_incoming with
  | (_, Some (Ok st)) => st
  | _ => State_new
  end.
Definition sample_effects : list Effect := fst (reader 6 State_new sample_incoming).

Lemma sample_run : reader 6 State_new sample_incoming = (sample_effects, Some (Ok sample_state)).
Proof. by vm_compute. Qed.

Lemma reader_refines_witness :
  exists cmds, mapM (fun i => c ← ok i; conn_cmd c) sample_incoming = Some cmds /\
    run_cmds 6 State_new cmds = Some (sample_state, broadcasts sample_effects).
Proof. apply reader_refines, sample_run. Defined.

Lemma reader_stops_at_failure_witness :
  reader 6 State_new (sample_incoming ++ Ok (sample_conn 4 "{") :: sample_incoming) =
    (sample_effects ++ [], Some (Err (ESerdeJson "expected value"))).
Proof.
  apply (reader_stops_at_failure _ _ _ _ _ _ sample_state); [apply sample_run|by vm_compute].
Defined.

Lemma stream_client_view_witness :
  exists es1 st1 g es2,
    reader 6 State_new [Ok (sample_conn 1 "disk")] = (es1, Some (Ok st1)) /\
    graph_of 6 st1 = Some g /\
    reader 6 st1 [Ok (sample_conn 3 "partition")] = (es2, Some (Ok sample_state)) /\
    received 2 false sample_effects = g :: broadcasts es2.
Proof.
  apply (stream_client_view 6 [Ok (sample_conn 1 "disk")] (sample_conn 2 "stream")).
  - apply sample_run.
  - by vm_compute.
  - intros c' Hc. simpl in Hc. repeat (apply elem_of_cons in Hc as [[= ->]|Hc]); [done..|].
    inversion Hc.
Defined.

Lemma reader_invariant_witness :
  state_wf sample_state /\
  NoDup ((fun u => path_key (ue_devpath u)) <$> iter_uevents (st_uevents sample_state)).
Proof.
  apply (reader_invariant 6 sample_incoming sample_effects _
    [Some (CmdUdev (UdevAdd sample_disk)); Some CmdStream; Some (CmdUdev (UdevAdd sample_partition))]).
  - apply sample_run.
  - by vm_compute.
  - by repeat constructor.
Defined.

End DaemonWitnesses.
