(* ===== verification/MountEmitter.v ===== *)
(** [mount-emitter/src/]: turns the lines of [findmnt --poll -P] and of
    [findmnt -P] into mount commands and sends one message per line. *)
From S2P Require Import Prelude RustStd Ordering DeviceTypes.
From stdpp Require Import base gmap sets list strings.
From Stdlib Require Import ZArith Ascii.

Open Scope Z_scope.

Module MountEmitter.

(** [mount_emitter::Error]; foreign errors are kept as their message. *)
Inductive MError : Type :=
| MIo (msg : string)
| MSerdeJson (msg : string)
| MUtf8Error
| MMissing (field : string)
| MUnexpected (msg : string).

Definition dquote : ascii := "034".
Definition newline : ascii := "010".

(** [build_hashmap]; [None] is its panic on a piece without an equals sign. *)
Definition build_hashmap (acc : gmap string string) (x : string) : option (gmap string string) :=
  match splitn2 "=" x with
  | [k; v] => Some (<[k := trim_matches dquote v]> acc)
  | _ => None
  end.

Fixpoint fold_pieces (acc : gmap string string) (xs : list string) : option (gmap string string) :=
  match xs with
  | [] => Some acc
  | x :: xs => acc ← build_hashmap acc x; fold_pieces acc xs
  end.

(** The outcome of a function that may panic ([None]) or fail. *)
Definition line_to_hashmap (x : string) : option (Result MError (gmap string string)) :=
  if utf8_valid x then m ← fold_pieces ∅ (str_split " " (trim x)); Some (Ok m)
  else Some (Err MUtf8Error).

(** [x.remove(k).ok_or_else(|| Error::Missing(k))?] *)
Definition take_field (m : gmap string string) (k : string) :
    Result MError (string * gmap string string) :=
  v ← ok_or (MMissing k) (m !! k); Ok (v, delete k m).

Definition hashmap_to_command (x : gmap string string) : Result MError MountCommand :=
  '(target, x) ← take_field x "TARGET";
  '(source, x) ← take_field x "SOURCE";
  '(fstype, x) ← take_field x "FSTYPE";
  '(mount_opts, x) ← take_field x "OPTIONS";
  let old_opts := x !! "OLD-OPTIONS" in
  let old_target := x !! "OLD-TARGET" in
  let target := MkMountPoint target in
  let source := MkDevicePath source in
  let fstype := MkFsType fstype in
  let mount_opts := MkMountOpts mount_opts in
  match x !! "ACTION" with
  | None => Ok (AddMount target source fstype mount_opts)
  | Some a =>
      if String.eqb a "mount" then Ok (AddMount target source fstype mount_opts)
      else if String.eqb a "umount" then Ok (RemoveMount target source fstype mount_opts)
      else if String.eqb a "remount" then
        o ← ok_or (MMissing "OLD-OPTIONS") old_opts;
        Ok (ReplaceMount target source fstype mount_opts (MkMountOpts o))
      else if String.eqb a "move" then
        t ← ok_or (MMissing "OLD-TARGET") old_target;
        Ok (MoveMount target source fstype mount_opts (MkMountPoint t))
      else Err (MUnexpected a)
  end.

Definition line_to_command (x : string) : option (Result MError MountCommand) :=
  r ← line_to_hashmap x; Some (r ≫= hashmap_to_command).

(** [read_until(b'\n')]: up to and with the first newline, and the rest. *)
Fixpoint read_until (s : string) : string * string :=
  match s with
  | EmptyString => (EmptyString, EmptyString)
  | String a s =>
      if Ascii.eqb a newline then (String a EmptyString, s)
      else let '(l, r) := read_until s in (String a l, r)
  end.

Section Looper.

(** [serde_json::to_string], and the outcome of connecting and writing. *)
Context (to_string : MountCommand -> Result string string)
        (connect : Result MError unit) (write_out : string -> Result string unit).

(** [looper] on the input [s]: the messages written, and how it ends. [None] is
    a panic or the end of the fuel; every turn but the last consumes input, so
    [S (slen s)] turns are enough. *)
Fixpoint looper (fuel : nat) (s : string) : list string * option (Result MError unit) :=
  match fuel with
  | O => ([], None)
  | S fuel =>
      let '(line, rest) := read_until s in
      if negb (utf8_valid line) then ([], Some (Err MUtf8Error))
      else if String.eqb line "" then ([], Some (Ok tt))
      else match line_to_command line with
      | None => ([], None)
      | Some (Err e) => ([], Some (Err e))
      | Some (Ok mount_command) =>
          match to_string mount_command with
          | Err e => ([], Some (Err (MSerdeJson e)))
          | Ok x =>
              match connect with
              | Err e => ([], Some (Err e))
              | Ok _ =>
                  match write_out x with
                  | Err e => ([], Some (Err (MIo e)))
                  | Ok _ =>
                      if ends_with (String newline "") line then
                        let '(ms, r) := looper fuel rest in (x :: ms, r)
                      else ([x], Some (Ok tt))
                  end
              end
          end
      end
  end.

(** One round of [swap_emitter]'s loop over the lines [findmnt] printed. *)
Fixpoint swap_round (xs : list string) : list string * option (Result MError unit) :=
  match xs with
  | [] => ([], Some (Ok tt))
  | x :: xs =>
      let x := trim x in
      if String.eqb x "" then swap_round xs
      else match line_to_command x with
      | None => ([], None)
      | Some (Err e) => ([], Some (Err e))
      | Some (Ok mount_command) =>
          match to_string mount_command with
          | Err e => ([], Some (Err (MSerdeJson e)))
          | Ok v =>
              match connect with
              | Err e => ([], Some (Err e))
              | Ok _ =>
                  match write_out (v +:+ String newline "") with
                  | Err e => ([], Some (Err (MIo e)))
                  | Ok _ => let '(ms, r) := swap_round xs in ((v +:+ String newline "") :: ms, r)
                  end
              end
          end
      end
  end.

End Looper.

(** * The lines [findmnt --poll -P] prints *)

Definition field (k v : string) : string := k +:+ "=" +:+ String dquote (v +:+ String dquote "").

Definition action_of (c : MountCommand) : string :=
  match c with
  | AddMount _ _ _ _ => "mount" | RemoveMount _ _ _ _ => "umount"
  | ReplaceMount _ _ _ _ _ => "remount" | MoveMount _ _ _ _ _ => "move"
  end.

(** Target, source, type, options, old target and old options. *)
Definition fields_of (c : MountCommand) : list string :=
  match c with
  | AddMount t s f o | RemoveMount t s f o =>
      [mp_path t; dp_path s; ft_name f; mo_opts o; ""; ""]
  | ReplaceMount t s f o oo => [mp_path t; dp_path s; ft_name f; mo_opts o; ""; mo_opts oo]
  | MoveMount t s f o ot => [mp_path t; dp_path s; ft_name f; mo_opts o; mp_path ot; ""]
  end.

Definition field_names : list string :=
  ["TARGET"; "SOURCE"; "FSTYPE"; "OPTIONS"; "OLD-TARGET"; "OLD-OPTIONS"].

Definition pieces_of (c : MountCommand) : list string :=
  field "ACTION" (action_of c) :: zip_with field field_names (fields_of c).

Definition print_line (c : MountCommand) : string :=
  str_join " " (pieces_of c) +:+ String newline "".

(** [findmnt] escapes blanks, quotes and control characters in values. *)
Definition clean (v : string) : bool :=
  negb (contains_char " " v || contains_char dquote v || contains_char newline v).

(** * Properties *)

Lemma clean_spec v :
  clean v = true -> contains_char " " v = false /\ contains_char dquote v = false /\
    contains_char newline v = false.
Proof. unfold clean. destruct (contains_char " " v), (contains_char dquote v), (contains_char newline v); done. Qed.

Lemma contains_field c k v :
  contains_char c (field k v) = contains_char c k || Ascii.eqb "=" c || Ascii.eqb dquote c ||
    contains_char c v || Ascii.eqb dquote c.
Proof.
  unfold field. rewrite !contains_char_app. simpl. rewrite contains_char_app. simpl.
  rewrite ?orb_false_r, ?orb_assoc. done.
Qed.

Lemma build_hashmap_field acc k v :
  contains_char "=" k = false -> contains_char dquote v = false ->
  build_hashmap acc (field k v) = Some (<[k := v]> acc).
Proof.
  intros Hk Hv. unfold build_hashmap, splitn2, field.
  change ("=" +:+ ?s) with (String "=" s). rewrite split_first_char by done.
  by rewrite trim_matches_quoted.
Qed.

Lemma pieces_clean c ch :
  ch ∈ [" "%char; newline] -> Forall (fun v => clean v = true) (fields_of c) ->
  Forall (fun s => contains_char ch s = false) (pieces_of c).
Proof.
  intros Hch Hc.
  assert (forall v, clean v = true -> contains_char ch v = false) as Hv.
  { intros v (? & ? & ?)%clean_spec.
    repeat (apply elem_of_cons in Hch as [->|Hch]); try done. inversion Hch. }
  assert (forall k v, contains_char ch k = false -> clean v = true ->
    contains_char ch (field k v) = false) as Hf.
  { intros k v Hk Hcl. rewrite contains_field, Hk, (Hv v Hcl).
    repeat (apply elem_of_cons in Hch as [->|Hch]); try done. inversion Hch. }
  assert (forall k, k ∈ "ACTION" :: field_names -> contains_char ch k = false) as Hn.
  { intros k Hk. repeat (apply elem_of_cons in Hch as [->|Hch]); [..|inversion Hch];
      repeat (apply elem_of_cons in Hk as [->|Hk]; [done|]); inversion Hk. }
  unfold pieces_of. destruct c; cbn [fields_of zip_with field_names] in *;
    repeat match goal with H : Forall _ (_ :: _) |- _ => apply Forall_cons in H as [? H] end;
    repeat apply Forall_cons_2; try apply Forall_nil_2; apply Hf; try done;
    apply Hn; unfold field_names; set_solver.
Qed.

(** The words of a printed line. *)
Lemma trim_line s :
  trim (String "A" (s +:+ String dquote (String newline ""))) = String "A" (s +:+ String dquote "").
Proof.
  unfold trim, trim_start. rewrite strip_prefixes_stop.
  2: { vm_compute white_space. repeat constructor. }
  unfold trim_end.
  change (String dquote (String newline "")) with (String dquote "" +:+ String newline "").
  rewrite <-str_app_cons, str_app_assoc, str_rev_app. change (String.rev (String newline "")) with (String newline "").
  rewrite slen_app. change (slen (String newline "")) with 1%nat. rewrite Nat.add_1_r.
  change (String newline "" +:+ ?t) with (String newline t).
  cbn [strip_prefixes].
  assert (list_find (fun p => starts_with p (String newline (String.rev (String "A" s +:+ String dquote ""))) = true)
    (String.rev <$> white_space) = Some (1%nat, String newline "")) as ->.
  { vm_compute white_space. vm_compute (String.rev <$> _). cbn [list_find].
    rewrite decide_False; [|by destruct (String.rev _)].
    rewrite decide_True; [done|]. by rewrite starts_with_char. }
  cbn [sdrop slen String.length]. rewrite strip_prefixes_stop; [apply str_rev_involutive|].
  rewrite str_rev_app. change (String.rev (String dquote "") +:+ ?t) with (String dquote t).
  vm_compute white_space. vm_compute (String.rev <$> _). repeat constructor.
Qed.

Lemma join_last sep l x : exists p, str_join sep (l ++ [x]) = p +:+ x.
Proof.
  induction l as [|y l [p Hp]]; [by exists ""|]. simpl app.
  destruct (l ++ [x]) as [|z r] eqn:E; [by destruct l|].
  change (str_join sep (y :: z :: r)) with (y +:+ sep +:+ str_join sep (z :: r)).
  rewrite Hp. exists (y +:+ sep +:+ p). by rewrite !str_app_assoc.
Qed.

Lemma join_first sep a x l : str_join sep (String a x :: l) = String a (str_join sep (x :: l)).
Proof. by destruct l. Qed.

Lemma pieces_shape c : exists x l k v, pieces_of c = String "A" x :: l ++ [field k v].
Proof.
  unfold pieces_of, field at 1. rewrite str_app_cons. eexists _.
  destruct c; cbn [fields_of zip_with field_names];
    match goal with |- exists _ _ _, _ :: [?a; ?b; ?c; ?d; ?e; ?f] = _ =>
      exists [a; b; c; d; e] end; by do 2 eexists.
Qed.

Lemma trim_print_line c : trim (print_line c) = str_join " " (pieces_of c).
Proof.
  unfold print_line. destruct (pieces_shape c) as (x & l & k & v & ->).
  rewrite join_first. destruct (join_last " " (x :: l) (field k v)) as [p Hp].
  change ((x :: l) ++ [field k v]) with (x :: l ++ [field k v]) in Hp. rewrite Hp.
  unfold field. change (String dquote (v +:+ String dquote "")) with
    ((String dquote "" +:+ v) +:+ String dquote ""). rewrite !str_app_assoc.
  rewrite str_app_cons, <-(str_app_assoc _ (String dquote "")).
  change (String dquote "" +:+ String newline "") with (String dquote (String newline "")).
  apply trim_line.
Qed.

Lemma fold_pieces_fields c m :
  Forall (fun v => clean v = true) (fields_of c) ->
  fold_pieces m (pieces_of c) =
  Some (foldl (fun m '(k, v) => <[k := v]> m) m
          (("ACTION", action_of c) :: zip field_names (fields_of c))).
Proof.
  intros Hc. unfold pieces_of. cbn [fold_pieces foldl].
  rewrite build_hashmap_field by (by destruct c). cbn [mbind option_bind].
  assert (Forall (fun k => contains_char "=" k = false) field_names) as Hn by (by repeat constructor).
  generalize (<["ACTION" := action_of c]> m). revert Hn Hc. generalize field_names, (fields_of c).
  induction l as [|k ks IH]; intros [|v vs] Hn Hv m'; try done.
  apply Forall_cons in Hn as [Hk Hn]. apply Forall_cons in Hv as [(_ & Hd & _)%clean_spec Hv].
  cbn [zip_with fold_pieces foldl]. rewrite build_hashmap_field by done. by apply IH.
Qed.

Lemma line_to_command_print c :
  Forall (fun v => clean v = true) (fields_of c) -> utf8_valid (print_line c) = true ->
  line_to_command (print_line c) = Some (Ok c).
Proof.
  intros Hc Hu. unfold line_to_command, line_to_hashmap. rewrite Hu, trim_print_line.
  rewrite str_split_join; [|done|apply pieces_clean; [left|done]].
  rewrite fold_pieces_fields by done.
  by destruct c as [[] [] [] []|[] [] [] []|[] [] [] [] []|[] [] [] [] []].
Qed.

(** A line that [findmnt --poll -P] prints for a mount event, with its values
    free of blanks and quotes as [findmnt] escapes them, is turned back into
    exactly that event: mounts, unmounts, remounts with the old options and moves
    with the old target. *)
Theorem mount_line_round_trip c :
  Forall (fun v => clean v = true) (fields_of c) -> utf8_valid (print_line c) = true ->
  line_to_command (print_line c) = Some (Ok c).
Proof. apply line_to_command_print. Qed.

Lemma read_until_line s rest :
  contains_char newline s = false ->
  read_until (s +:+ String newline rest) = (s +:+ String newline "", rest).
Proof.
  induction s as [|a s IH]; intros H; [done|]. simpl in H. apply orb_false_elim in H as [H1 H2].
  rewrite !str_app_cons. cbn [read_until]. by rewrite H1, IH.
Qed.

Lemma print_line_body c :
  Forall (fun v => clean v = true) (fields_of c) ->
  contains_char newline (str_join " " (pieces_of c)) = false.
Proof.
  intros Hc. apply contains_char_join; [done|]. apply pieces_clean; [right; left|done].
Qed.

Lemma print_line_nonempty c : String.eqb (print_line c) "" = false.
Proof. by destruct c. Qed.

Definition event_ok (c : MountCommand) : Prop :=
  Forall (fun v => clean v = true) (fields_of c) /\ utf8_valid (print_line c) = true.

(** What [findmnt] prints over a session. *)
Fixpoint input_of (cs : list MountCommand) : string :=
  match cs with [] => "" | c :: cs => print_line c +:+ input_of cs end.

(** Over a whole session, [looper] sends exactly one message per line of
    [findmnt], in the order of the lines, and ends without error at the end of
    the input. *)
Theorem looper_forwards_all to_string connect write_out cs fuel :
  Forall event_ok cs -> connect = Ok tt ->
  Forall (fun c => exists x, to_string c = Ok x /\ write_out x = Ok tt) cs ->
  (length cs < fuel)%nat ->
  exists xs, looper to_string connect write_out fuel (input_of cs) =
               (xs, Some (Ok tt)) /\
    Forall2 (fun c x => to_string c = Ok x) cs xs.
Proof.
  intros Hok -> Hw. revert fuel. induction cs as [|c cs IH]; intros [|fuel] Hf; simpl in Hf; try lia.
  - exists []. split; [done|constructor].
  - apply Forall_cons in Hok as [[Hc Hu] Hok]. apply Forall_cons in Hw as [(x & Hx & Hwx) Hw].
    destruct (IH Hok Hw fuel ltac:(lia)) as (xs & Hl & Hxs). exists (x :: xs).
    split; [|by constructor].
    cbn [input_of]. unfold print_line at 1. rewrite <-str_app_assoc.
    change (String newline "" +:+ ?t) with (String newline t).
    cbn [looper]. rewrite read_until_line by (by apply print_line_body).
    fold (print_line c). rewrite Hu, print_line_nonempty, line_to_command_print, Hx, Hwx by done.
    cbn [negb]. unfold print_line at 1. rewrite ends_with_app. by rewrite Hl.
Qed.

(** * Examples *)

Definition sample_event : MountCommand :=
  ReplaceMount (MkMountPoint "/mnt/ost0") (MkDevicePath "/dev/sda1") (MkFsType "lustre")
    (MkMountOpts "ro") (MkMountOpts "rw").

Lemma sample_event_ok : event_ok sample_event.
Proof. split; [by repeat constructor|by vm_compute]. Qed.

Lemma mount_line_round_trip_witness :
  line_to_command (print_line sample_event) = Some (Ok sample_event).
Proof. apply mount_line_round_trip; apply sample_event_ok. Defined.

Lemma looper_forwards_all_witness :
  exists xs, looper (fun c => Ok (action_of c)) (Ok tt) (fun _ => Ok tt) 2
      (input_of [sample_event]) = (xs, Some (Ok tt)) /\
    Forall2 (fun c x => Ok (E := string) (action_of c) = Ok x) [sample_event] xs.
Proof.
  apply (looper_forwards_all (fun c => Ok (action_of c))).
  - constructor; [apply sample_event_ok|done].
  - done.
  - constructor; [|done]. eexists. done.
  - simpl. lia.
Defined.

End MountEmitter.
