(* ===== verification/UeventListener.v ===== *)
(** [uevent-listener/src/main.rs]: udev runs it once per event; it builds the
    event from its environment and sends it to the daemon. [None] is a panic. *)
From S2P Require Import Prelude RustStd Ordering DeviceTypes DeviceGraph.
From stdpp Require Import base gmap sets list strings.
From Stdlib Require Import ZArith Ascii.

Open Scope Z_scope.

Module UeventListener.

(** The environment block, in order. *)
Abbreviation Env := (list (string * string)) (only parsing).

(** [env::var(name).ok()]: set, and valid UTF-8. *)
Definition env_var (env : Env) (name : string) : option string :=
  v ← (snd ∘ snd) <$> list_find (fun kv => kv.1 = name) env;
  if utf8_valid v then Some v else None.

Definition required_field (env : Env) (name : string) : option string := env_var env name.
Definition optional_field (env : Env) (name : string) : option string := env_var env name.

Definition split_space (x : string) : list string :=
  List.filter (fun x => negb (String.eqb (trim x) "")) (str_split " " x).

Definition get_paths (env : Env) : option (list DevicePath) :=
  let devlinks := default "" (env_var env "DEVLINKS") in
  devname ← required_field env "DEVNAME";
  let xs := set_from true (MkDevicePath <$> split_space devlinks) in
  Some (set_insert true (MkDevicePath devname) xs).

Definition empty_str_to_none (x : string) : option string :=
  if String.eqb x "" then None else Some x.

(** [x.parse::<T>().ok()], with the parser of [T]. *)
Definition parse_to {T} (parse : string -> Result ParseIntError T) (x : string) : option T :=
  ok (parse x).

Definition is_one (x : string) : bool := String.eqb x "1".

Definition lvm_uuids (x : string) : option (string * string) :=
  let lvm_pfix := "LVM-" in
  let uuid_len := 32%nat in
  if negb (starts_with lvm_pfix x) then None
  else
    uuids ← get_from (slen lvm_pfix) x;
    if negb (slen uuids =? uuid_len * 2)%nat then None
    else a ← get_to uuid_len uuids; b ← get_from uuid_len uuids; Some (a, b).

Definition md_devs (iter : Env) : list DevicePath :=
  set_from true ((fun kv => MkDevicePath kv.2) <$>
    List.filter (fun kv => ends_with "_DEV" kv.1)
      (List.filter (fun kv => starts_with "MD_DEVICE_" kv.1) iter)).

(** [env::vars()] panics on a name or value that is not UTF-8. *)
Definition env_vars (env : Env) : option Env :=
  if forallb (fun kv => utf8_valid kv.1 && utf8_valid kv.2) env then Some env else None.

Definition build_uevent (env : Env) : option UEvent :=
  devname ← required_field env "DEVNAME";
  devpath ← required_field env "DEVPATH";
  major ← required_field env "MAJOR";
  minor ← required_field env "MINOR";
  seqnum ← required_field env "SEQNUM" ≫= parse_to parse_i64;
  paths ← get_paths env;
  devtype ← required_field env "DEVTYPE";
  vars ← env_vars env;
  Some {|
    ue_major := major; ue_minor := minor; ue_seqnum := seqnum; ue_paths := paths;
    ue_devname := devname; ue_devpath := devpath; ue_devtype := devtype;
    ue_vendor := optional_field env "ID_VENDOR";
    ue_model := optional_field env "ID_MODEL";
    ue_serial := optional_field env "ID_SERIAL";
    ue_fs_type := optional_field env "ID_FS_TYPE" ≫= empty_str_to_none;
    ue_fs_usage := optional_field env "ID_FS_USAGE" ≫= empty_str_to_none;
    ue_fs_uuid := optional_field env "ID_FS_UUID" ≫= empty_str_to_none;
    ue_fs_label := optional_field env "ID_FS_LABEL" ≫= empty_str_to_none;
    ue_part_entry_number :=
      optional_field env "ID_PART_ENTRY_NUMBER" ≫= parse_to parse_u64;
    ue_part_entry_mm := optional_field env "ID_PART_ENTRY_DISK" ≫= empty_str_to_none;
    ue_size := (fun x => u64_mul x 512) <$>
      ((optional_field env "IML_SIZE" ≫= empty_str_to_none) ≫= parse_to parse_u64);
    ue_rotational := is_one <$> optional_field env "IML_ROTATIONAL";
    ue_scsi80 := trim <$> optional_field env "IML_SCSI_80";
    ue_scsi83 := trim <$> optional_field env "IML_SCSI_83";
    ue_read_only := is_one <$> optional_field env "IML_IS_RO";
    ue_bios_boot := is_one <$> optional_field env "IML_IS_BIOS_BOOT";
    ue_zfs_reserved := is_one <$> optional_field env "IML_IS_ZFS_RESERVED";
    ue_is_mpath := is_one <$> optional_field env "IML_IS_MPATH";
    ue_dm_slave_mms := default [] (split_space <$> optional_field env "IML_DM_SLAVE_MMS");
    ue_dm_vg_size := Some 0;
    ue_md_devs := md_devs vars;
    ue_dm_multipath_devpath := is_one <$> optional_field env "DM_MULTIPATH_DEVICE_PATH";
    ue_dm_name := optional_field env "DM_NAME";
    ue_dm_lv_name := optional_field env "DM_LV_NAME";
    ue_lv_uuid := snd <$> (optional_field env "DM_UUID" ≫= lvm_uuids);
    ue_dm_vg_name := optional_field env "DM_VG_NAME";
    ue_vg_uuid := fst <$> (optional_field env "DM_UUID" ≫= lvm_uuids);
    ue_md_uuid := optional_field env "MD_UUID" |}.

(** How a run ends: the command sent, or [exit(1)]; a panic is [None]. *)
Inductive Outcome : Type := Sent (c : UdevCommand) | ExitFailure.

(** [main], up to the serialization and the socket. *)
Definition main (env : Env) : option Outcome :=
  event ← build_uevent env;
  action ← required_field env "ACTION";
  Some (if String.eqb action "add" then Sent (UdevAdd event)
        else if String.eqb action "change" then Sent (UdevChange event)
        else if String.eqb action "remove" then Sent (UdevRemove event)
        else ExitFailure).

(** * Properties *)

(** [lvm_uuids] takes a device-mapper uuid apart exactly when it is [LVM-]
    followed by two 32-byte uuids: the volume group's and the logical volume's. *)
Theorem lvm_uuids_spec x vg lv :
  lvm_uuids x = Some (vg, lv) <->
  x = "LVM-" +:+ vg +:+ lv /\ slen vg = 32%nat /\ slen lv = 32%nat /\
  is_char_boundary 4 x = true /\ is_char_boundary 32 (vg +:+ lv) = true.
Proof.
  unfold lvm_uuids. cbv zeta. destruct (starts_with "LVM-" x) eqn:Es; cbn [negb].
  2: { split; [done|]. intros (-> & _). by rewrite starts_with_app in Es. }
  apply starts_with_spec in Es as [r ->]. unfold get_from, get_to.
  change (slen "LVM-") with 4%nat. change (sdrop 4 ("LVM-" +:+ r)) with r.
  destruct (is_char_boundary 4 ("LVM-" +:+ r)) eqn:Eb.
  2: { split; [done|]. intros (Hr & _ & _ & Hb & _). congruence. }
  cbn [mbind option_bind]. destruct (Nat.eqb_spec (slen r) (32 * 2)) as [Hl|Hl]; cbn [negb].
  2: { split; [done|]. intros (Hr%(f_equal (sdrop 4)) & Hv & Hw & _). change (r = vg +:+ lv) in Hr. subst. rewrite slen_app in Hl. lia. }
  destruct (is_char_boundary 32 r) eqn:Eb2; cbn [mbind option_bind].
  2: { split; [done|]. intros (Hr%(f_equal (sdrop 4)) & _ & _ & _ & ?). change (r = vg +:+ lv) in Hr. congruence. }
  split.
  - intros [<- <-]%(inj Some)%pair_eq. rewrite stake_sdrop, slen_stake, slen_sdrop by lia.
    split_and!; [done|done|lia|done|done].
  - intros (Hr%(f_equal (sdrop 4)) & Hv & _). change (r = vg +:+ lv) in Hr. subst. rewrite <-Hv, stake_app, sdrop_app. done.
Qed.

(** What udev names the device: its name, and its links, which are separated by spaces. *)
Definition named (env : Env) (p : string) : Prop :=
  env_var env "DEVNAME" = Some p \/
  exists links, env_var env "DEVLINKS" = Some links /\ p ∈ str_split " " links /\ trim p <> "".

Lemma elem_of_split_space env p :
  p ∈ split_space (default "" (env_var env "DEVLINKS")) <->
  exists links, env_var env "DEVLINKS" = Some links /\ p ∈ str_split " " links /\ trim p <> "".
Proof.
  unfold split_space. rewrite elem_of_filter_fn, negb_true_iff, String.eqb_neq.
  destruct (env_var env "DEVLINKS") as [links|]; simpl; [naive_solver|].
  split; [intros [->%list_elem_of_singleton []]; done|by intros (? & [=] & _)].
Qed.

Lemma elem_of_path_set (x : DevicePath) l : x ∈ set_from true l -> x ∈ l.
Proof.
  unfold set_from. assert (forall acc, x ∈ foldl (fun s y => set_insert true y s) acc l -> x ∈ acc \/ x ∈ l) as H.
  { induction l as [|y l IH]; intros acc; cbn [foldl]; [by left|].
    intros [[->|?]%elem_of_set_insert|?]%IH; rewrite elem_of_cons; auto. }
  intros [?%elem_of_nil|?]%H; done.
Qed.

(** The paths are the device's names, up to the equality of paths. *)
Lemma get_paths_spec env paths :
  get_paths env = Some paths ->
  oset_wf paths /\ (forall p, p ∈ paths -> named env (dp_path p)) /\
  forall s, named env s -> exists p, p ∈ paths /\ components (dp_path p) = components s.
Proof.
  unfold get_paths, required_field. intros (devname & Hd & [= <-])%bind_Some.
  split; [apply set_insert_wf, set_from_wf|]. unfold named. rewrite Hd. setoid_rewrite <-elem_of_split_space. split.
  - intros p [->|(y & -> & Hy)%elem_of_path_set%list_elem_of_fmap]%elem_of_set_insert; [by left|by right].
  - intros s Hs. assert (key_of (MkDevicePath s) ∈ (key_of <$> set_insert true (MkDevicePath devname)
      (set_from true (MkDevicePath <$> split_space (default "" (env_var env "DEVLINKS")))))) as (p & Hk & Hp)%list_elem_of_fmap.
    { apply set_insert_keys. destruct Hs as [[= <-]|Hs]; [by left|right]. apply set_from_keys.
      by do 2 apply list_elem_of_fmap_2. }
    exists p. split; [done|]. apply path_key_eq. unfold key_of, DevicePath_keyed in Hk. simpl in Hk. congruence.
Qed.

Lemma size_sectors env s :
  (fun x => u64_mul x 512) <$>
    ((optional_field env "IML_SIZE" ≫= empty_str_to_none) ≫= parse_to parse_u64) = Some s <->
  exists v n, env_var env "IML_SIZE" = Some v /\ v <> "" /\ parse_u64 v = Ok n /\ s = (n * 512) mod 2 ^ 64.
Proof.
  unfold optional_field, empty_str_to_none, parse_to.
  destruct (env_var env "IML_SIZE") as [v|]; simpl; [|split; [done|by intros (? & ? & [=] & _)]].
  destruct (String.eqb_spec v "") as [->|]; simpl; [split; [done|by intros (? & ? & [= <-] & [] & _)]|].
  destruct (parse_u64 v) as [k|] eqn:E; simpl.
  - split; [intros [= <-]; by exists v, k|]. intros (? & ? & [= <-] & _ & Hn & ->). rewrite E in Hn. by injection Hn as ->.
  - split; [done|]. intros (? & ? & [= <-] & _ & Hn & _). congruence.
Qed.

(** The uuids of a device-mapper uuid of LVM. *)
Definition lvm_uuid_of (env : Env) (vg lv : string) : Prop :=
  env_var env "DM_UUID" = Some ("LVM-" +:+ vg +:+ lv) /\ slen vg = 32%nat /\ slen lv = 32%nat /\
  is_char_boundary 4 ("LVM-" +:+ vg +:+ lv) = true /\ is_char_boundary 32 (vg +:+ lv) = true.

Lemma lvm_uuid_of_spec env vg lv :
  optional_field env "DM_UUID" ≫= lvm_uuids = Some (vg, lv) <-> lvm_uuid_of env vg lv.
Proof.
  unfold optional_field, lvm_uuid_of. destruct (env_var env "DM_UUID") as [x|]; simpl; [|naive_solver].
  rewrite lvm_uuids_spec. split; [by intros (-> & ?)|]. intros ([= ->] & ?). done.
Qed.

(** C40: what the daemon is told of a device is what udev set. The event's paths are the
    device name and the links, every one of them (paths that Rust takes for equal, such as
    [/dev//a] and [/dev/a], once) and in order; its size is there exactly when
    [IML_SIZE] is a number, and is that many sectors of 512 bytes, exactly below 2{^55}
    sectors and modulo 2{^64} above; it has the uuids of a volume group and of a logical
    volume exactly when the device-mapper uuid is [LVM-] and the two, in this order; and
    the daemon takes it for a logical volume exactly when it also has a volume name. *)
Theorem build_uevent_wf env u :
  build_uevent env = Some u ->
  env_var env "DEVNAME" = Some (ue_devname u) /\ oset_wf (ue_paths u) /\
  (forall p, p ∈ ue_paths u -> named env (dp_path p)) /\
  (forall s, named env s -> exists p, p ∈ ue_paths u /\ components (dp_path p) = components s) /\
  (forall s, ue_size u = Some s <->
     exists v n, env_var env "IML_SIZE" = Some v /\ v <> "" /\ parse_u64 v = Ok n /\ s = (n * 512) mod 2 ^ 64) /\
  (forall s v n, ue_size u = Some s -> env_var env "IML_SIZE" = Some v -> parse_u64 v = Ok n -> n < 2 ^ 55 -> s = n * 512) /\
  (forall vg lv, ue_vg_uuid u = Some vg /\ ue_lv_uuid u = Some lv <-> lvm_uuid_of env vg lv) /\
  (is_dm u = true <-> (exists vg lv, lvm_uuid_of env vg lv) /\ is_Some (env_var env "DM_LV_NAME")).
Proof.
  unfold build_uevent, required_field. intros H.
  apply bind_Some in H as (devname & Ed & H).
  repeat match goal with H : (?m ≫= _) = Some _ |- _ =>
    apply bind_Some in H as (? & ? & H) end. injection H as <-. cbn [ue_devname ue_paths ue_size ue_vg_uuid ue_lv_uuid].
  match goal with Hp : get_paths env = Some _ |- _ =>
    destruct (get_paths_spec _ _ Hp) as (Hw & Hc & Hall) end.
  setoid_rewrite <-lvm_uuid_of_spec. split_and!; [done..| | | |].
  - intros s. apply size_sectors.
  - intros s v n (v' & n' & Hv' & _ & Hn' & ->)%size_sectors Hv Hn Hb. rewrite Hv in Hv'. injection Hv' as <-. rewrite Hn in Hn'. injection Hn' as <-.
    apply Z.mod_small. apply u64_from_str_radix_bounds in Hn; [|lia]. unfold is_u64 in Hn. lia.
  - intros vg lv. destruct (optional_field env "DM_UUID" ≫= lvm_uuids) as [[a b]|]; simpl; [|naive_solver].
    split; [by intros [[= ->] [= ->]]|by intros [= -> ->]].
  - unfold is_dm. cbn [ue_lv_uuid ue_vg_uuid ue_dm_lv_name forallb].
    destruct (optional_field env "DM_UUID" ≫= lvm_uuids) as [[a b]|]; simpl; [|naive_solver].
    unfold optional_field. destruct (env_var env "DM_LV_NAME"); simpl; naive_solver.
Qed.

(** * Examples *)

Definition sample_env : Env :=
  [("ACTION", "add"); ("DEVNAME", "/dev/dm-3"); ("DEVPATH", "/devices/virtual/block/dm-3");
   ("MAJOR", "253"); ("MINOR", "3"); ("SEQNUM", "4021"); ("DEVTYPE", "disk");
   ("DEVLINKS", "/dev/mapper/vg-lv /dev/disk/by-id/dm-name-vg-lv"); ("IML_SIZE", "2048");
   ("DM_LV_NAME", "lv");
   ("DM_UUID", "LVM-pV8TgNKMJVNrolJgMhVwg4CAeFFAIMC83Ch5TjlWtPw1BCu2ytrGIjlgzeo7oEtu")].

Definition sample_uevent : UEvent :=
  match build_uevent sample_env with
  | Some u => u
  | None => MkUEvent "" "" 0 [] "" "" "" None None None None None None None None None None None
              None None None None None None [] None [] None None None None None None None
  end.

Lemma build_uevent_wf_witness :
  (exists p, p ∈ ue_paths sample_uevent /\ components (dp_path p) = components "/dev/mapper/vg-lv") /\
  ue_size sample_uevent = Some (2048 * 512) /\ is_dm sample_uevent = true.
Proof.
  destruct (build_uevent_wf sample_env sample_uevent) as (_ & _ & _ & Hp & Hs & _ & _ & Hd); [by vm_compute|].
  split; [|split].
  - apply Hp. right. exists "/dev/mapper/vg-lv /dev/disk/by-id/dm-name-vg-lv". split; [by vm_compute|].
    split; [vm_compute; left|done].
  - apply Hs. exists "2048", 2048. split_and!; [by vm_compute|done|by vm_compute|by vm_compute].
  - apply Hd. split; [|eexists; by vm_compute].
    exists "pV8TgNKMJVNrolJgMhVwg4CAeFFAIMC8", "3Ch5TjlWtPw1BCu2ytrGIjlgzeo7oEtu". by vm_compute.
Defined.

End UeventListener.
