(* ===== verification/Zed.v ===== *)
(** ZFS events on their way to the daemon: the zedlets
    ([device-scanner-zedlets/src/]) read them from ZED's environment, and
    [zed-enhancer/src/lib.rs] asks libzfs for what they leave out and sends pool
    commands. libzfs is an interface; its calls answer as the pools are. *)
From S2P Require Import Prelude RustStd Ordering DeviceTypes Samples DeviceGraph Reducers.
From stdpp Require Import base gmap sets list strings.
From Stdlib Require Import ZArith Ascii.

Open Scope Z_scope.

(** * The zedlets *)

Module Zedlets.

Inductive VarError : Type := NotPresent | NotUnicode.

Inductive ZedletError : Type :=
| ZlSerdeJson (msg : string)
| ZlIo (msg : string)
| ZlVar (e : VarError).

(** [env::var]. *)
Definition env_get (env : list (string * string)) (name : string) : Result VarError string :=
  match list_find (fun kv => kv.1 = name) env with
  | None => Err NotPresent
  | Some (_, kv) => if utf8_valid kv.2 then Ok kv.2 else Err NotUnicode
  end.

Section Env.
Context {L : LibZfs} (env : list (string * string)).

Definition zpool_get_name : Result ZedletError ZpoolName :=
  map_err ZlVar (MkZpoolName <$> env_get env "ZEVENT_POOL").
Definition zpool_get_guid : Result ZedletError Guid :=
  map_err ZlVar (MkGuid <$> env_get env "ZEVENT_POOL_GUID").
Definition zpool_get_state : Result ZedletError ZpoolState :=
  map_err ZlVar (MkZpoolState <$> env_get env "ZEVENT_POOL_STATE_STR").
Definition zfs_get_name : Result ZedletError ZfsName :=
  map_err ZlVar (MkZfsName <$> env_get env "ZEVENT_HISTORY_DSNAME").

Definition get_key_value (x : string) : Result VarError (PropKey * PropValue) :=
  match str_split "=" x with
  | [a; b] => Ok (MkPropKey a, MkPropValue b)
  | _ => Err NotPresent
  end.

Definition get_history_string : Result ZedletError (PropKey * PropValue) :=
  map_err ZlVar (env_get env "ZEVENT_HISTORY_INTERNAL_STR" ≫= get_key_value).

Inductive HistoryEvent : Type := HCreate | HDestroy | HSet.

Definition get_history_name : Result ZedletError HistoryEvent :=
  x ← map_err ZlVar (env_get env "ZEVENT_HISTORY_INTERNAL_NAME");
  if String.eqb x "create" then Ok HCreate
  else if String.eqb x "destroy" then Ok HDestroy
  else if String.eqb x "set" then Ok HSet
  else Err (ZlVar NotPresent).

(** The programs of [src/bin], up to the socket: the command they send. *)
Definition history_event : Result ZedletError (option ZedCommand) :=
  history_name ← get_history_name;
  guid ← zpool_get_guid;
  match history_name, zfs_get_name with
  | HCreate, Ok name => Ok (Some (CreateZfs guid name))
  | HDestroy, Ok name => Ok (Some (DestroyZfs guid name))
  | HSet, Ok name => '(k, v) ← get_history_string; Ok (Some (ZedSetZfsProp guid name k v))
  | HSet, Err _ => '(k, v) ← get_history_string; Ok (Some (ZedSetZpoolProp guid k v))
  | _, _ => Ok None
  end.

Definition pool_create : Result ZedletError ZedCommand :=
  name ← zpool_get_name; guid ← zpool_get_guid; state ← zpool_get_state;
  Ok (CreateZpool name guid state).

Definition pool_import : Result ZedletError ZedCommand :=
  name ← zpool_get_name; guid ← zpool_get_guid; state ← zpool_get_state;
  Ok (ImportZpool name guid state).

Definition pool_destroy : Result ZedletError ZedCommand :=
  guid ← zpool_get_guid; Ok (DestroyZpool guid).

Definition pool_export : Result ZedletError ZedCommand :=
  guid ← zpool_get_guid; state ← zpool_get_state; Ok (ExportZpool guid state).

Definition vdev_add : Result ZedletError ZedCommand :=
  name ← zpool_get_name; guid ← zpool_get_guid; Ok (AddVdev name guid).

End Env.

Lemma get_key_value_spec x k v :
  get_key_value x = Ok (k, v) <->
  x = pk_str k +:+ String "=" (pv_str v) /\
  contains_char "=" (pk_str k) = false /\ contains_char "=" (pv_str v) = false.
Proof.
  unfold get_key_value. split.
  - pose proof (str_join_split "=" x) as Hj. pose proof (str_split_pieces "=" x) as Hp.
    destruct (str_split "=" x) as [|a [|b [|]]]; try done. intros [= <- <-].
    apply Forall_cons in Hp as [Ha [Hb _]%Forall_cons]. by rewrite <-Hj.
  - intros (-> & Hk & Hv). rewrite str_split_app, str_split_no_sep by done.
    by destruct k, v.
Qed.

End Zedlets.

(** * The enhancer *)

Module Enhancer.

(** The calls into libzfs, and what its documentation says of them: the pool
    found by name and guid has that guid, the dataset found by name that name. *)
Class LibZfsCalls {L : LibZfs} : Type := {
  get_imported_pools : Result LibZfsError (list Pool);
  get_pool_by_name_and_guid : string -> Z -> Result LibZfsError Pool;
  get_dataset_by_name : string -> Result LibZfsError ZDataset;
  pool_by_guid n g p : get_pool_by_name_and_guid n g = Ok p -> po_guid p = g;
  dataset_by_name n d : get_dataset_by_name n = Ok d -> zd_name d = n;
}.

Section Enhancer.
Context {L : LibZfs} {calls : LibZfsCalls}.

(** [zed_enhancer::Error]. *)
Inductive EnhError : Type :=
| EnIo (msg : string)
| EnSerdeJson (msg : string)
| EnLibZfs (e : LibZfsError)
| EnParseInt (e : ParseIntError)
| EnLinesCodec (msg : string).

Definition enh_guid_to_u64 (guid : Guid) : Result EnhError Z := map_err EnParseInt (Guid_to_u64 guid).

Definition handle_zed_commands (cmd : ZedCommand) : Result EnhError PoolCommand :=
  match cmd with
  | ZedInit => pools ← map_err EnLibZfs get_imported_pools; Ok (AddPools pools)
  | CreateZpool name guid _ =>
      guid ← enh_guid_to_u64 guid;
      pool ← map_err EnLibZfs (get_pool_by_name_and_guid (zpn_str name) guid);
      Ok (AddPool pool)
  | ImportZpool name guid _ | AddVdev name guid =>
      guid ← enh_guid_to_u64 guid;
      pool ← map_err EnLibZfs (get_pool_by_name_and_guid (zpn_str name) guid);
      Ok (UpdatePool pool)
  | ExportZpool guid _ | DestroyZpool guid => Ok (RemovePool guid)
  | CreateZfs guid name =>
      dataset ← map_err EnLibZfs (get_dataset_by_name (zfn_str name));
      Ok (AddDataset guid dataset)
  | DestroyZfs guid name => Ok (RemoveDataset guid name)
  | ZedSetZpoolProp guid key value => Ok (PoolSetZpoolProp guid key value)
  | ZedSetZfsProp guid name key value => Ok (PoolSetZfsProp guid name key value)
  end.

(** [processor] over the lines of one connection: what it sends, and how it
    ends. [from_str] is [serde_json]'s, [send] how sending a command ends. *)
Fixpoint processor (from_str : string -> Result string ZedCommand)
    (send : PoolCommand -> Result EnhError unit) (lines : list (Result string string)) :
    list PoolCommand * Result EnhError unit :=
  match lines with
  | [] => ([], Ok tt)
  | line :: lines =>
      match (x ← map_err EnLinesCodec line;
             c ← map_err EnSerdeJson (from_str x);
             p ← handle_zed_commands c;
             _ ← send p;
             Ok p) with
      | Err e => ([], Err e)
      | Ok p => let '(ps, r) := processor from_str send lines in (p :: ps, r)
      end
  end.

(** The pool a ZFS event is about. *)
Definition zed_guid (c : ZedCommand) : option Guid :=
  match c with
  | ZedInit => None
  | CreateZpool _ g _ | ImportZpool _ g _ | ExportZpool g _ | DestroyZpool g | CreateZfs g _
  | DestroyZfs g _ | ZedSetZpoolProp g _ _ | ZedSetZfsProp g _ _ _ | AddVdev _ g => Some g
  end.

(** What the daemon's table must hold for the pool of an event afterwards, given
    what it held before. *)
Definition zed_effect (c : ZedCommand) (i : Z) (p p' : option Pool) : Prop :=
  match c with
  | ZedInit => False
  | CreateZpool n _ _ | ImportZpool n _ _ | AddVdev n _ =>
      exists q, get_pool_by_name_and_guid (zpn_str n) i = Ok q /\ p' = Some q
  | ExportZpool _ _ | DestroyZpool _ => is_Some p /\ p' = None
  | CreateZfs _ n => exists q q' d, p = Some q /\ p' = Some q' /\
      get_dataset_by_name (zfn_str n) = Ok d /\ named zd_name (zfn_str n) (po_datasets q') = Some d
  | DestroyZfs _ n => exists q q', p = Some q /\ p' = Some q' /\
      named zd_name (zfn_str n) (po_datasets q') = None
  | ZedSetZpoolProp _ k v => exists q q', p = Some q /\ p' = Some q' /\
      named zp_name (pk_str k) (po_props q') = Some (MkZProp (pk_str k) (pv_str v))
  | ZedSetZfsProp _ n k v => exists q q' d, p = Some q /\ p' = Some q' /\
      named zd_name (zfn_str n) (po_datasets q') = Some d /\
      named zp_name (pk_str k) (zd_props d) = Some (MkZProp (pk_str k) (pv_str v))
  end.

Lemma enh_guid_Ok g i : enh_guid_to_u64 g = Ok i -> Guid_to_u64 g = Ok i.
Proof. unfold enh_guid_to_u64. destruct (Guid_to_u64 g); simpl; congruence. Qed.

Lemma map_err_Ok {E F A} (f : E -> F) (r : Result E A) a : map_err f r = Ok a <-> r = Ok a.
Proof. destruct r; simpl; split; congruence. Qed.

(** A ZFS event that passes the enhancer and the daemon has its effect on the
    daemon's table of pools, and on the pool it names only: a created, imported
    or extended pool is stored as libzfs reports it, an exported or destroyed
    one is gone, a new dataset and a new property value are found under their
    names. *)
Theorem zed_event_effect c p m m' g :
  zed_guid c = Some g -> handle_zed_commands c = Ok p -> update_zed_events m p = Ok m' ->
  exists i, Guid_to_u64 g = Ok i /\ zed_effect c i (m !! i) (m' !! i) /\
    forall j, j <> i -> m' !! j = m !! j.
Proof.
  intros Hg Hh Hu. destruct c as [|n g' s|n g' s|g' s|g'|g' n|g' n|g' k v|g' n k v|n g'];
    simpl in Hg; simplify_eq; cbn [handle_zed_commands] in Hh; inv_ok;
    repeat match goal with
    | H : enh_guid_to_u64 _ = Ok _ |- _ => apply enh_guid_Ok in H
    | H : map_err _ _ = Ok _ |- _ => apply map_err_Ok in H
    end;
    try (match goal with H : get_pool_by_name_and_guid _ ?i = Ok ?q |- _ =>
      pose proof (pool_by_guid _ _ _ H) as Hq; simpl in Hu; simplify_eq;
      exists (po_guid q); split_and!; [done| |intros; by rewrite lookup_insert_ne];
      exists q; rewrite lookup_insert_eq; done end).
  all: match type of Hu with update_zed_events _ ?c = _ =>
    destruct (pool_command_effect m m' c g eq_refl Hu) as (i & q & Hi & Hm & He & Hf) end;
    exists i; split_and!; [done| |done]; rewrite Hm; simpl in He |- *.
  - eauto.
  - eauto.
  - destruct He as (q' & -> & _ & He). do 3 eexists. split_and!; [done..|]. rewrite He.
    rewrite decide_True; [done|]. symmetry. by eapply dataset_by_name.
  - destruct He as (q' & -> & _ & He). do 2 eexists. split_and!; [done..|].
    by rewrite He, decide_True.
  - destruct He as (q' & -> & _ & He). do 2 eexists. split_and!; [done..|].
    by rewrite He, decide_True.
  - destruct He as (q' & d & d' & -> & _ & _ & Hd & _ & He). do 3 eexists.
    split_and!; [done..|]. by rewrite He, decide_True.
Qed.

(** What the history zedlet reports of a property change is what ZED was told:
    a [set] event whose text is [key=value], with one equals sign in all, becomes
    the command that sets that property, of the dataset if one is named and of
    the pool otherwise; any other text is an error and is never sent. *)
Theorem history_set_spec env guid x :
  Zedlets.env_get env "ZEVENT_HISTORY_INTERNAL_NAME" = Ok "set" ->
  Zedlets.zpool_get_guid env = Ok guid ->
  Zedlets.env_get env "ZEVENT_HISTORY_INTERNAL_STR" = Ok x ->
  (forall k v, x = pk_str k +:+ String "=" (pv_str v) ->
     contains_char "=" (pk_str k) = false -> contains_char "=" (pv_str v) = false ->
     Zedlets.history_event env = Ok (Some
       match Zedlets.zfs_get_name env with
       | Ok name => ZedSetZfsProp guid name k v
       | Err _ => ZedSetZpoolProp guid k v
       end)) /\
  (forall c, Zedlets.history_event env = Ok c -> exists k v, x = pk_str k +:+ String "=" (pv_str v) /\
     contains_char "=" (pk_str k) = false /\ contains_char "=" (pv_str v) = false).
Proof.
  intros Hn Hg Hx. unfold Zedlets.history_event, Zedlets.get_history_name, Zedlets.get_history_string.
  rewrite Hn, Hg, Hx. simpl. split.
  - intros k v Hk H1 H2. rewrite (proj2 (Zedlets.get_key_value_spec x k v)) by done. simpl.
    by destruct (Zedlets.zfs_get_name env).
  - intros c H. destruct (Zedlets.get_key_value x) as [[k v]|] eqn:E.
    + apply Zedlets.get_key_value_spec in E as (? & ? & ?). eauto.
    + by destruct (Zedlets.zfs_get_name env).
Qed.

End Enhancer.

(** * Examples *)

Section EnhancerWitnesses.
#[local] Existing Instance sample_libzfs.

#[local] Program Instance sample_calls : LibZfsCalls :=
  {| get_imported_pools := Ok [sample_pool];
     get_pool_by_name_and_guid := fun n g => if g =? 7 then Ok sample_pool else
       Err (PoolNotFound (Some n) (Some g));
     get_dataset_by_name := fun n => Err (ZfsNotFound n) |}.
Next Obligation. simpl. intros n g p. destruct (Z.eqb_spec g 7); [|done]. by intros [= <-]. Qed.
Next Obligation. done. Qed.

Lemma zed_event_effect_witness :
  exists i, Guid_to_u64 (Guid_from_u64 7) = Ok i /\
    zed_effect (ImportZpool (MkZpoolName "tank") (Guid_from_u64 7) (MkZpoolState "ACTIVE")) i
      ((∅ : gmap Z Pool) !! i) (({[ 7 := sample_pool ]} : gmap Z Pool) !! i) /\
    forall j, j <> i -> ({[ 7 := sample_pool ]} : gmap Z Pool) !! j = (∅ : gmap Z Pool) !! j.
Proof.
  apply (zed_event_effect _ (UpdatePool sample_pool)); [done| |done]. by vm_compute.
Defined.

Definition sample_zed_env : list (string * string) :=
  [("ZEVENT_HISTORY_INTERNAL_NAME", "set"); ("ZEVENT_POOL_GUID", "0x07");
   ("ZEVENT_HISTORY_INTERNAL_STR", "lustre:svname=fs-OST0000");
   ("ZEVENT_HISTORY_DSNAME", "tank/ost0")].

Lemma history_set_spec_witness :
  Zedlets.history_event sample_zed_env = Ok (Some
    (ZedSetZfsProp (MkGuid "0x07") (MkZfsName "tank/ost0") (MkPropKey "lustre:svname")
       (MkPropValue "fs-OST0000"))).
Proof.
  destruct (history_set_spec sample_zed_env (MkGuid "0x07") "lustre:svname=fs-OST0000") as [Hset _];
    [reflexivity..|].
  apply (Hset (MkPropKey "lustre:svname") (MkPropValue "fs-OST0000")); reflexivity.
Defined.

End EnhancerWitnesses.
End Enhancer.
