(* ===== verification/LinuxPlugin.v ===== *)
(** [iml-services/iml-device/src/linux_plugin_transforms.rs]: the device trees of
    the hosts in the flat form the manager's storage plugin reads, with the pools
    and volume groups that several hosts can reach. [None] is a panic. *)
From S2P Require Import Prelude RustStd Ordering DeviceTypes Samples Devices DeviceGraph GraphSpec.
From stdpp Require Import base gmap sets list strings.
From Stdlib Require Import ZArith Ascii.

Open Scope Z_scope.

(** [MajorMinor(format!("{}:{}", major, minor))], compared as a string. *)
Abbreviation MajorMinor := string (only parsing).
Definition major_minor (major minor : string) : MajorMinor := major +:+ ":" +:+ minor.

Record LinuxPluginDevice : Type := MkLinuxPluginDevice {
  lpd_major_minor : MajorMinor;
  lpd_parent : option MajorMinor;
  lpd_partition_number : option Z;
  lpd_path : DevicePath;
  lpd_paths : list DevicePath;
  lpd_serial_83 : option string;
  lpd_serial_80 : option string;
  lpd_size : option Z;
  lpd_filesystem_type : option string;
}.

(** [Ord for LinuxPluginDevice]: the numbers only. *)
#[export] Instance LinuxPluginDevice_keyed : Keyed LinuxPluginDevice :=
  fun d => KS (lpd_major_minor d).

Record LinuxPluginMpathDevice : Type := MkLinuxPluginMpathDevice {
  lpm_name : string;
  lpm_block_device : MajorMinor;
  lpm_nodes : list LinuxPluginDevice;
}.

Record LinuxPluginVgDevice : Type := MkLinuxPluginVgDevice {
  lpv_name : string;
  lpv_uuid : string;
  lpv_size : Z;
  lpv_pvs_major_minor : list MajorMinor;
}.

Record LinuxPluginLvDevice : Type := MkLinuxPluginLvDevice {
  lpl_block_device : MajorMinor;
  lpl_size : Z;
  lpl_uuid : string;
  lpl_name : string;
}.

Record LinuxPluginZpool : Type := MkLinuxPluginZpool {
  lpz_block_device : MajorMinor;
  lpz_drives : list MajorMinor;
  lpz_name : string;
  lpz_path : string;
  lpz_size : Z;
  lpz_uuid : Z;
}.

Inductive LinuxPluginItem : Type :=
| LPDevice (d : LinuxPluginDevice)
| LPZpool (z : LinuxPluginZpool).

(** Every map is a [BTreeMap]. *)
Record LinuxPluginData : Type := MkLinuxPluginData {
  ld_devs : list (MajorMinor * LinuxPluginItem);
  ld_local_fs : list (MajorMinor * (MountPoint * FsType));
  ld_mpath : list (string * LinuxPluginMpathDevice);
  ld_vgs : list (string * LinuxPluginVgDevice);
  ld_lvs : list (string * list (string * LinuxPluginLvDevice));
  ld_zfspools : list (Z * LinuxPluginZpool);
  ld_zfsdatasets : list (Z * LinuxPluginZpool);
}.

Definition LinuxPluginData_default : LinuxPluginData :=
  {| ld_devs := []; ld_local_fs := []; ld_mpath := []; ld_vgs := []; ld_lvs := [];
     ld_zfspools := []; ld_zfsdatasets := [] |}.

Definition set_devs (x : LinuxPluginData) m : LinuxPluginData :=
  {| ld_devs := m; ld_local_fs := ld_local_fs x; ld_mpath := ld_mpath x; ld_vgs := ld_vgs x;
     ld_lvs := ld_lvs x; ld_zfspools := ld_zfspools x; ld_zfsdatasets := ld_zfsdatasets x |}.
Definition set_local_fs (x : LinuxPluginData) m : LinuxPluginData :=
  {| ld_devs := ld_devs x; ld_local_fs := m; ld_mpath := ld_mpath x; ld_vgs := ld_vgs x;
     ld_lvs := ld_lvs x; ld_zfspools := ld_zfspools x; ld_zfsdatasets := ld_zfsdatasets x |}.
Definition set_mpath (x : LinuxPluginData) m : LinuxPluginData :=
  {| ld_devs := ld_devs x; ld_local_fs := ld_local_fs x; ld_mpath := m; ld_vgs := ld_vgs x;
     ld_lvs := ld_lvs x; ld_zfspools := ld_zfspools x; ld_zfsdatasets := ld_zfsdatasets x |}.
Definition set_vgs (x : LinuxPluginData) m : LinuxPluginData :=
  {| ld_devs := ld_devs x; ld_local_fs := ld_local_fs x; ld_mpath := ld_mpath x; ld_vgs := m;
     ld_lvs := ld_lvs x; ld_zfspools := ld_zfspools x; ld_zfsdatasets := ld_zfsdatasets x |}.
Definition set_lvs (x : LinuxPluginData) m : LinuxPluginData :=
  {| ld_devs := ld_devs x; ld_local_fs := ld_local_fs x; ld_mpath := ld_mpath x; ld_vgs := ld_vgs x;
     ld_lvs := m; ld_zfspools := ld_zfspools x; ld_zfsdatasets := ld_zfsdatasets x |}.
Definition set_zfspools (x : LinuxPluginData) m : LinuxPluginData :=
  {| ld_devs := ld_devs x; ld_local_fs := ld_local_fs x; ld_mpath := ld_mpath x; ld_vgs := ld_vgs x;
     ld_lvs := ld_lvs x; ld_zfspools := m; ld_zfsdatasets := ld_zfsdatasets x |}.
Definition set_zfsdatasets (x : LinuxPluginData) m : LinuxPluginData :=
  {| ld_devs := ld_devs x; ld_local_fs := ld_local_fs x; ld_mpath := ld_mpath x; ld_vgs := ld_vgs x;
     ld_lvs := ld_lvs x; ld_zfspools := ld_zfspools x; ld_zfsdatasets := m |}.

(** [entry(k).or_insert(v)] followed by a write through the reference. *)
Definition btree_entry {K V} `{Keyed K} (k : K) (v : V) (f : V -> V) (m : list (K * V)) :
    list (K * V) :=
  btree_insert k (f (default v (btree_get k m))) m.

(** [for x in xs { f(x) }] with a body that may panic. *)
Section ForEach.
Context {A B : Type} (f : B -> A -> option B).
Fixpoint for_each (acc : B) (xs : list A) : option B :=
  match xs with
  | [] => Some acc
  | x :: xs => acc ← f acc x; for_each acc xs
  end.
End ForEach.

Section Transforms.
Context {L : LibZfs}.

(** ** The [From] conversions; [paths.get_min().unwrap()] is the first path. *)

Definition lpd_of_scsi (s : ScsiDevice Device) : option LinuxPluginDevice :=
  path ← head (sd_paths s);
  Some {| lpd_major_minor := major_minor (sd_major s) (sd_minor s); lpd_parent := None;
          lpd_path := path; lpd_paths := sd_paths s; lpd_partition_number := None;
          lpd_serial_83 := sd_serial s; lpd_serial_80 := sd_scsi80 s;
          lpd_size := Some (sd_size s); lpd_filesystem_type := sd_filesystem_type s |}.

Definition lpd_of_partition (x : Partition Device) (p : option LinuxPluginDevice) :
    option LinuxPluginDevice :=
  path ← head (pa_paths x);
  Some {| lpd_major_minor := major_minor (pa_major x) (pa_minor x);
          lpd_parent := lpd_major_minor <$> p; lpd_path := path; lpd_paths := pa_paths x;
          lpd_partition_number := Some (pa_partition_number x);
          lpd_serial_83 := None; lpd_serial_80 := None;
          lpd_size := Some (pa_size x); lpd_filesystem_type := pa_filesystem_type x |}.

Definition lpd_of_mpath (x : Mpath Device) : option LinuxPluginDevice :=
  path ← head (mp_paths x);
  Some {| lpd_major_minor := major_minor (mp_major x) (mp_minor x); lpd_parent := None;
          lpd_path := path; lpd_paths := mp_paths x; lpd_partition_number := None;
          lpd_serial_83 := mp_serial x; lpd_serial_80 := mp_scsi80 x;
          lpd_size := Some (mp_size x); lpd_filesystem_type := mp_filesystem_type x |}.

Definition lpd_of_lv (x : LogicalVolume Device) : option LinuxPluginDevice :=
  path ← head (lv_paths x);
  Some {| lpd_major_minor := major_minor "lv" (lv_uuid x); lpd_parent := None;
          lpd_path := path; lpd_paths := lv_paths x; lpd_partition_number := None;
          lpd_serial_83 := None; lpd_serial_80 := None;
          lpd_size := Some (lv_size x); lpd_filesystem_type := lv_filesystem_type x |}.

Definition lpz_of_zpool (x : Zpool vdev_info Device) : LinuxPluginZpool :=
  {| lpz_name := zo_name x; lpz_path := zo_name x;
     lpz_block_device := major_minor "zfspool" (fmt_int (zo_guid x));
     lpz_size := zo_size x; lpz_uuid := zo_guid x; lpz_drives := [] |}.

Definition lpz_of_dataset (x : Dataset) (size : Z) : LinuxPluginZpool :=
  {| lpz_name := ds_name x; lpz_path := ds_name x;
     lpz_block_device := major_minor "zfsset" (fmt_int (ds_guid x));
     lpz_size := size; lpz_uuid := ds_guid x; lpz_drives := [] |}.

Definition add_drive (mm : MajorMinor) (z : LinuxPluginZpool) : LinuxPluginZpool :=
  {| lpz_name := lpz_name z; lpz_path := lpz_path z; lpz_block_device := lpz_block_device z;
     lpz_size := lpz_size z; lpz_uuid := lpz_uuid z;
     lpz_drives := set_insert false mm (lpz_drives z) |}.

(** Mounts under the temporary names the manager itself uses are left out. *)
Definition add_mount (mount : Mount) (d : LinuxPluginDevice) (data : LinuxPluginData) :
    LinuxPluginData :=
  let target := mp_path (mt_target mount) in
  if (slen target =? 14)%nat && starts_with "/tmp/mnt" target then data
  else set_local_fs data
    (btree_insert (lpd_major_minor d) (mt_target mount, mt_fs_type mount) (ld_local_fs data)).

(** [if let Some(mount) = &x.mount { add_mount(..) }] *)
Definition add_mount_opt (mount : option Mount) (d : LinuxPluginDevice) (data : LinuxPluginData) :
    LinuxPluginData :=
  match mount with Some m => add_mount m d data | None => data end.

Definition insert_dev (d : LinuxPluginDevice) (data : LinuxPluginData) : LinuxPluginData :=
  set_devs data (btree_insert (lpd_major_minor d) (LPDevice d) (ld_devs data)).

(** One pool or dataset: its item in [devs], then its copy in the other map,
    which [put] updates from the [LinuxPluginZpool] found. *)
Definition add_zfs_item (key : MajorMinor) (z : LinuxPluginZpool) (mm : MajorMinor)
    (put : LinuxPluginZpool -> LinuxPluginData -> LinuxPluginData) (data : LinuxPluginData) :
    LinuxPluginData :=
  match default (LPZpool z) (btree_get key (ld_devs data)) with
  | LPZpool p =>
      let p := add_drive mm p in
      put p (set_devs data (btree_insert key (LPZpool p) (ld_devs data)))
  | LPDevice _ => data
  end.

Definition populate_zpool (x : Zpool vdev_info Device) (mm : MajorMinor) (data : LinuxPluginData) :
    LinuxPluginData :=
  match zo_children x with
  | [] =>
      add_zfs_item (major_minor "zfspool" (fmt_int (zo_guid x))) (lpz_of_zpool x) mm
        (fun p data => set_zfspools data
           (btree_entry (lpz_uuid p) p (add_drive mm) (ld_zfspools data))) data
  | children =>
      foldl (fun data dev =>
        match dev with
        | DDataset d =>
            add_zfs_item (major_minor "zfsset" (fmt_int (ds_guid d)))
              (lpz_of_dataset d (zo_size x)) mm
              (fun p data => set_zfsdatasets data
                 (btree_entry (lpz_uuid p) p (add_drive mm) (ld_zfsdatasets data))) data
        | _ => data
        end) data children
  end.

(** The entry of a multipath device, and of a volume group, with the parent. *)
Definition add_mpath (x : Mpath Device) (block_device : MajorMinor)
    (parent : option LinuxPluginDevice) (data : LinuxPluginData) : LinuxPluginData :=
  set_mpath data (btree_entry (mp_dm_name x)
    {| lpm_name := mp_dm_name x; lpm_block_device := block_device; lpm_nodes := [] |}
    (fun m => match parent with
              | Some p => {| lpm_name := lpm_name m; lpm_block_device := lpm_block_device m;
                             lpm_nodes := set_insert false p (lpm_nodes m) |}
              | None => m
              end) (ld_mpath data)).

Definition add_vg (x : VolumeGroup Device) (parent : option LinuxPluginDevice)
    (data : LinuxPluginData) : LinuxPluginData :=
  set_vgs data (btree_entry (vg_name x)
    {| lpv_name := vg_name x; lpv_size := vg_size x; lpv_uuid := vg_uuid x;
       lpv_pvs_major_minor := [] |}
    (fun v => match parent with
              | Some p => {| lpv_name := lpv_name v; lpv_size := lpv_size v; lpv_uuid := lpv_uuid v;
                             lpv_pvs_major_minor :=
                               set_insert false (lpd_major_minor p) (lpv_pvs_major_minor v) |}
              | None => v
              end) (ld_vgs data)).

Definition add_lv (vg : string) (lv : LogicalVolume Device) (block_device : MajorMinor)
    (data : LinuxPluginData) : LinuxPluginData :=
  set_lvs data (btree_entry vg []
    (btree_entry (lv_name lv)
       {| lpl_name := lv_name lv; lpl_size := lv_size lv; lpl_uuid := lv_uuid lv;
          lpl_block_device := block_device |} (fun l => l)) (ld_lvs data)).

Fixpoint devtree2linuxoutput (device : Device) (parent : option LinuxPluginDevice)
    (data : LinuxPluginData) : option LinuxPluginData :=
  match device with
  | DRoot x => for_each (fun data c => devtree2linuxoutput c None data) data (ro_children x)
  | DScsiDevice x =>
      d ← lpd_of_scsi x;
      let data := add_mount_opt (sd_mount x) d data in
      data ← for_each (fun data c => devtree2linuxoutput c (Some d) data) data (sd_children x);
      Some (insert_dev d data)
  | DPartition x =>
      d ← lpd_of_partition x parent;
      let data := add_mount_opt (pa_mount x) d data in
      data ← for_each (fun data c => devtree2linuxoutput c (Some d) data) data (pa_children x);
      Some (insert_dev d data)
  | DMpath x =>
      d ← lpd_of_mpath x;
      let data := add_mount_opt (mp_mount x) d data in
      data ← for_each (fun data c => devtree2linuxoutput c (Some d) data) data (mp_children x);
      Some (add_mpath x (lpd_major_minor d) parent (insert_dev d data))
  | DVolumeGroup x =>
      for_each (fun data c =>
        match c with
        | DLogicalVolume lv =>
            d ← lpd_of_lv lv;
            let data := add_mount_opt (lv_mount lv) d data in
            data ← for_each (fun data c => devtree2linuxoutput c (Some d) data) data (lv_children lv);
            Some (add_lv (vg_name x) lv (lpd_major_minor d) (insert_dev d data))
        | _ => Some data
        end) (add_vg x parent data) (vg_children x)
  | DZpool x => p ← parent; Some (populate_zpool x (lpd_major_minor p) data)
  | _ => Some data
  end.

(** ** Lookup tables *)

(** [PoolMap]: each pool with the device paths of its vdevs. *)
Abbreviation PathMap := (list (DevicePath * MajorMinor)) (only parsing).
Abbreviation PoolMap := (list (Z * (Zpool vdev_info Device * list DevicePath))) (only parsing).

Definition insert_paths (paths : list DevicePath) (mm : MajorMinor) (m : PathMap) : PathMap :=
  foldl (fun m p => btree_insert p mm m) m paths.

Fixpoint build_device_lookup (dev_tree : Device) (maps : PathMap * PoolMap) : PathMap * PoolMap :=
  match dev_tree with
  | DRoot x => foldl (fun maps c => build_device_lookup c maps) maps (ro_children x)
  | DVolumeGroup x => foldl (fun maps c => build_device_lookup c maps) maps (vg_children x)
  | DScsiDevice x =>
      foldl (fun maps c => build_device_lookup c maps)
        (insert_paths (sd_paths x) (major_minor (sd_major x) (sd_minor x)) maps.1, maps.2)
        (sd_children x)
  | DPartition x =>
      foldl (fun maps c => build_device_lookup c maps)
        (insert_paths (pa_paths x) (major_minor (pa_major x) (pa_minor x)) maps.1, maps.2)
        (pa_children x)
  | DMdRaid x =>
      foldl (fun maps c => build_device_lookup c maps)
        (insert_paths (md_paths x) (major_minor (md_major x) (md_minor x)) maps.1, maps.2)
        (md_children x)
  | DMpath x =>
      foldl (fun maps c => build_device_lookup c maps)
        (insert_paths (mp_paths x) (major_minor (mp_major x) (mp_minor x)) maps.1, maps.2)
        (mp_children x)
  | DLogicalVolume x =>
      foldl (fun maps c => build_device_lookup c maps)
        (insert_paths (lv_paths x) (major_minor "lv" (lv_uuid x)) maps.1, maps.2)
        (lv_children x)
  | DZpool x =>
      (maps.1, btree_entry (zo_guid x) (x, get_vdev_paths (zo_vdev x)) (fun v => v) maps.2)
  | DDataset _ => maps
  end.

(** ** Storage that several hosts reach *)

Abbreviation Fqdn := string (only parsing).

(** The pushes of one pool: [path_map\[&d\]] panics on an unknown path. *)
Definition pool_parents (path_map : PathMap) (v : Zpool vdev_info Device * list DevicePath) :
    option (list (Zpool vdev_info Device * MajorMinor)) :=
  mapM (fun d => mm ← btree_get d path_map; Some (v.1, mm)) v.2.

(** [cluster_pools] is a [HashMap], here in iteration order. *)
Definition get_shared_pools (host : Fqdn) (path_map : PathMap)
    (cluster_pools : list (Fqdn * PoolMap)) :
    option (list (Zpool vdev_info Device * MajorMinor)) :=
  let paths := path_map.*1 in
  for_each (fun shared_pools '(h, ps) =>
    if String.eqb host h then Some shared_pools
    else for_each (fun shared_pools '(_, v) =>
           if negb (set_superset paths v.2) then Some shared_pools
           else xs ← pool_parents path_map v; Some (shared_pools ++ xs)) shared_pools ps)
    [] cluster_pools.

Definition major_minors_to_dev_paths (xs : list MajorMinor) (path_map : PathMap) :
    list DevicePath :=
  foldl (fun acc mm =>
    let paths := (List.filter (fun '(_, pmm) => String.eqb mm pmm) path_map).*1 in
    foldl (fun acc p => set_insert false p acc) acc paths) [] xs.

(** The volume groups of [x] all of whose physical volumes [to_paths] has. *)
Definition shareable_vgs (from_paths : PathMap) (to_paths : list DevicePath) (x : LinuxPluginData) :
    list string :=
  (List.filter (fun '(_, vg) =>
     set_superset to_paths (major_minors_to_dev_paths (lpv_pvs_major_minor vg) from_paths))
     (ld_vgs x)).*1.

(** What [update_vgs] collects before it changes anything. *)
Definition shared_vgs (xs : list (Fqdn * LinuxPluginData)) (path_map : gmap Fqdn PathMap) :
    option (list (Fqdn * Fqdn * string)) :=
  for_each (fun acc '(from_host, x) =>
    from_paths ← path_map !! from_host;
    others ← for_each (fun others '(to_host, _) =>
      if String.eqb to_host from_host then Some others
      else
        to_map ← path_map !! to_host;
        Some (others ++ ((fun vg_name => (from_host, to_host, vg_name)) <$>
                         shareable_vgs from_paths to_map.*1 x))) [] xs;
    Some (acc ++ others)) [] xs.

(** [lvs.iter().map(..).collect()]: the devices of the logical volumes. *)
Definition lv_devices (from : LinuxPluginData) (lvs : list (string * LinuxPluginLvDevice)) :
    option (list (MajorMinor * LinuxPluginItem)) :=
  mapM (fun '(_, lv) => i ← btree_get (lpl_block_device lv) (ld_devs from);
                        Some (lpl_block_device lv, i)) lvs.

(** One turn of the second loop of [update_vgs]. *)
Definition copy_vg (xs : list (Fqdn * LinuxPluginData)) (s : Fqdn * Fqdn * string) :
    option (list (Fqdn * LinuxPluginData)) :=
  let '(from_host, to_host, vg_name) := s in
  from ← btree_get from_host xs;
  vg ← btree_get vg_name (ld_vgs from);
  let lvs := btree_get vg_name (ld_lvs from) in
  lv_devs ← match lvs with None => Some None | Some l => Some <$> lv_devices from l end;
  to ← btree_get to_host xs;
  let to := set_vgs to (btree_insert vg_name vg (ld_vgs to)) in
  let to := match lvs with Some l => set_lvs to (btree_insert vg_name l (ld_lvs to)) | None => to end in
  let to := match lv_devs with
            | Some ds => set_devs to (foldl (fun m '(mm, d) => btree_insert mm d m) (ld_devs to) ds)
            | None => to
            end in
  Some (btree_insert to_host to xs).

Definition update_vgs (xs : list (Fqdn * LinuxPluginData)) (path_map : gmap Fqdn PathMap) :
    option (list (Fqdn * LinuxPluginData)) :=
  shared ← shared_vgs xs path_map; for_each copy_vg xs shared.

(** ** The view: the [get] route of [iml-device/src/main.rs]

    [cache] is the table of device trees in iteration order. *)
Definition devices_view (cache : list (Fqdn * Device)) : option (list (Fqdn * LinuxPluginData)) :=
  outs ← mapM (fun '(k, v) => out ← devtree2linuxoutput v None LinuxPluginData_default; Some (k, out))
           cache;
  let xs := foldl (fun m '(k, out) => btree_insert k out m) [] outs in
  let lookups := (fun '(k, v) => (k, build_device_lookup v ([], []))) <$> cache in
  let path_index : gmap Fqdn PathMap := list_to_map ((fun '(k, (p, _)) => (k, p)) <$> lookups) in
  let cluster_pools := (fun '(k, (_, q)) => (k, q)) <$> lookups in
  xs ← mapM (fun '(h, x) =>
         path_to_mm ← path_index !! h;
         shared_pools ← get_shared_pools h path_to_mm cluster_pools;
         Some (h, foldl (fun x '(a, b) => populate_zpool a b x) x shared_pools)) xs;
  update_vgs xs path_index.

End Transforms.
