(* ===== verification/PluginSpec.v ===== *)
(** What the storage plugin's view promises. It never panics on trees the scanner
    builds; every disk, partition, multipath and volume of a tree is listed;
    pools and volume groups are shared with exactly the hosts that reach all of
    their devices. *)
From S2P Require Import Prelude RustStd Ordering DeviceTypes Samples Devices DeviceGraph GraphSpec.
From S2P Require Import LinuxPlugin.
From stdpp Require Import base gmap sets list strings.
From Stdlib Require Import ZArith Ascii.

Open Scope Z_scope.

(** ** Loops that may panic *)

Section ForEachLemmas.
Context {A B : Type} (f : B -> A -> option B).

(** A loop with an invariant that rules the panic out. *)
Lemma for_each_total (P : B -> Prop) xs acc :
  P acc -> (forall acc x, x ∈ xs -> P acc -> exists acc', f acc x = Some acc' /\ P acc') ->
  exists r, for_each f acc xs = Some r /\ P r.
Proof.
  revert acc. induction xs as [|x xs IH]; intros acc Hp Hf; simpl; [eauto|].
  destruct (Hf acc x) as (acc' & -> & Hp'); [left|done|]. simpl.
  apply IH; [done|]. intros a y Hy. apply Hf. by right.
Qed.

(** An invariant of a loop that ended. *)
Lemma for_each_inv (P : B -> Prop) xs acc r :
  for_each f acc xs = Some r -> P acc ->
  (forall acc x acc', x ∈ xs -> P acc -> f acc x = Some acc' -> P acc') -> P r.
Proof.
  revert acc. induction xs as [|x xs IH]; intros acc H Hp Hf; simpl in H; [by simplify_eq|].
  destruct (f acc x) as [acc'|] eqn:E; [|done]. simpl in H. eapply IH; [done| |].
  - eapply Hf; [left|done|done].
  - intros a y a' Hy. apply Hf. by right.
Qed.

Lemma for_each_app xs ys acc :
  for_each f acc (xs ++ ys) = acc' ← for_each f acc xs; for_each f acc' ys.
Proof.
  revert acc. induction xs as [|x xs IH]; intros acc; simpl; [done|].
  destruct (f acc x); simpl; [apply IH|done].
Qed.

End ForEachLemmas.

(** A loop that appends one list per element. *)
Lemma for_each_append {A C} (g : A -> option (list C)) xs :
  (forall x, x ∈ xs -> is_Some (g x)) ->
  exists ys, (forall acc, for_each (fun acc x => y ← g x; Some (acc ++ y)) acc xs = Some (acc ++ ys)) /\
    forall c, c ∈ ys <-> exists x y, x ∈ xs /\ g x = Some y /\ c ∈ y.
Proof.
  induction xs as [|x xs IH]; intros Hg; simpl.
  - exists []. split; [intros acc; by rewrite app_nil_r|]. intros c.
    split; [intros H; inversion H|]. intros (x & _ & H & _). inversion H.
  - destruct (Hg x) as [y Hy]; [left|].
    destruct IH as (ys & Hys & Hc); [intros z Hz; apply Hg; by right|].
    exists (y ++ ys). split.
    { intros acc. rewrite Hy. simpl. by rewrite Hys, app_assoc. }
    intros c. rewrite elem_of_app, Hc. setoid_rewrite elem_of_cons. split.
    + intros [?|(z & w & ? & ? & ?)]; eauto 10.
    + intros (z & w & [->|?] & ? & ?); [left; congruence|eauto 10].
Qed.

Lemma for_each_ext {A B} (f g : B -> A -> option B) acc xs :
  (forall acc x, x ∈ xs -> f acc x = g acc x) -> for_each f acc xs = for_each g acc xs.
Proof.
  revert acc. induction xs as [|x xs IH]; intros acc H; simpl; [done|].
  rewrite H by left. destruct (g acc x); simpl; [|done]. apply IH. intros; apply H; by right.
Qed.

(** ** Shared pools *)

Section SharedPools.
Context {L : LibZfs}.

Lemma pool_parents_total path_map (v : Zpool vdev_info Device * list DevicePath) :
  set_superset path_map.*1 v.2 = true ->
  exists xs, pool_parents path_map v = Some xs /\
    forall z mm, (z, mm) ∈ xs <-> z = v.1 /\ exists d, d ∈ v.2 /\ btree_get d path_map = Some mm.
Proof.
  rewrite set_superset_spec. unfold pool_parents. destruct v as [z0 ds]. simpl. intros Hs.
  assert (forall d, d ∈ ds -> is_Some (btree_get d path_map)) as Hd.
  { intros d Hd. apply btree_get_is_Some, Hs. by apply list_elem_of_fmap_2. }
  clear Hs. induction ds as [|d ds IH]; simpl.
  - exists []. split; [done|]. intros z mm. split; [intros H; inversion H|].
    intros (_ & d & H & _). inversion H.
  - destruct (Hd d) as [mm Hmm]; [left|]. rewrite Hmm. simpl.
    destruct IH as (xs & -> & Hx); [intros; apply Hd; by right|]. simpl. eexists. split; [done|].
    intros z mm'. rewrite elem_of_cons, Hx. setoid_rewrite elem_of_cons. naive_solver.
Qed.

(** The pools of one other host. *)
Lemma host_loop path_map (ps : list (Z * (Zpool vdev_info Device * list DevicePath))) :
  exists ys,
    (forall acc, for_each (fun shared_pools '(_, v) =>
      if negb (set_superset path_map.*1 v.2) then Some shared_pools
      else xs ← pool_parents path_map v; Some (shared_pools ++ xs)) acc ps = Some (acc ++ ys)) /\
    forall z mm, (z, mm) ∈ ys <->
      exists g v d, (g, v) ∈ ps /\ z = v.1 /\ set_superset path_map.*1 v.2 = true /\
        d ∈ v.2 /\ btree_get d path_map = Some mm.
Proof.
  destruct (for_each_append (fun e => if negb (set_superset path_map.*1 e.2.2) then Some []
    else pool_parents path_map e.2) ps) as (ys & Hys & Hc).
  { intros [g v] _. simpl. destruct (set_superset _ _) eqn:E; simpl; [|eauto].
    destruct (pool_parents_total _ _ E) as (xs & -> & _). eauto. }
  exists ys. split.
  { intros acc. rewrite <-Hys. apply for_each_ext. intros a [g v] _. simpl.
    destruct (set_superset _ _); simpl; [done|]. by rewrite app_nil_r. }
  intros z mm. rewrite Hc. split.
  - intros ([g v] & y & Hin & Hy & Hz). simpl in Hy.
    destruct (set_superset _ _) eqn:E; simplify_eq/=; [|inversion Hz].
    destruct (pool_parents_total _ _ E) as (xs & Hx & Hxs). rewrite Hx in Hy. simplify_eq.
    apply Hxs in Hz as (-> & d & Hd & Hg). eauto 10.
  - intros (g & v & d & Hin & -> & E & Hd & Hg).
    destruct (pool_parents_total _ _ E) as (xs & Hx & Hxs). exists (g, v), xs. simpl. rewrite E.
    split_and!; [done|done|]. apply Hxs. eauto.
Qed.

Lemma superset_paths (path_map : list (DevicePath * string)) ds :
  set_superset path_map.*1 ds = true <-> forall p, p ∈ ds -> is_Some (btree_get p path_map).
Proof.
  rewrite set_superset_spec. setoid_rewrite btree_get_is_Some. split.
  - intros H p Hp. apply H. by apply list_elem_of_fmap_2.
  - intros H k (p & -> & Hp)%list_elem_of_fmap. auto.
Qed.

Lemma get_shared_pools_elem host path_map cluster_pools :
  exists xs, get_shared_pools host path_map cluster_pools = Some xs /\
    forall z mm, (z, mm) ∈ xs <->
      exists h ps g v d, (h, ps) ∈ cluster_pools /\ h <> host /\ (g, v) ∈ ps /\ z = v.1 /\
        (forall p, p ∈ v.2 -> is_Some (btree_get p path_map)) /\
        d ∈ v.2 /\ btree_get d path_map = Some mm.
Proof.
  unfold get_shared_pools.
  set (g := fun e : string * list (Z * (Zpool vdev_info Device * list DevicePath)) =>
    if String.eqb host e.1 then Some [] else
    for_each (fun shared_pools '(_, v) =>
      if negb (set_superset path_map.*1 v.2) then Some shared_pools
      else xs ← pool_parents path_map v; Some (shared_pools ++ xs)) [] e.2).
  destruct (for_each_append g cluster_pools) as (ys & Hys & Hc).
  { intros [h ps] _. unfold g. simpl. destruct (String.eqb host h); [eauto|].
    destruct (host_loop path_map ps) as (ys & -> & _). eauto. }
  exists ys. split.
  { rewrite <-(app_nil_l ys), <-Hys. apply for_each_ext. intros a [h ps] _. unfold g. simpl.
    destruct (String.eqb host h); simpl; [by rewrite app_nil_r|].
    destruct (host_loop path_map ps) as (y & Hy & _). by rewrite !Hy. }
  intros z mm. rewrite Hc. unfold g. split.
  - intros ([h ps] & y & Hin & Hy & Hz). simpl in Hy.
    destruct (String.eqb_spec host h) as [|Hn]; simplify_eq/=; [inversion Hz|].
    destruct (host_loop path_map ps) as (y' & Hy' & Hx). rewrite Hy' in Hy. simplify_eq/=.
    apply Hx in Hz as (k & v & d & ? & ? & Hs & ? & ?). rewrite superset_paths in Hs.
    exists h, ps, k, v, d. naive_solver.
  - intros (h & ps & k & v & d & Hin & Hn & Hv & -> & Hp & Hd & Hg).
    destruct (host_loop path_map ps) as (y & Hy & Hx). exists (h, ps), y. simpl. rewrite Hy.
    destruct (String.eqb_spec host h); [congruence|]. split_and!; [done|done|].
    apply Hx. exists k, v, d. rewrite superset_paths. naive_solver.
Qed.

(** [get_shared_pools] never indexes an unknown path, and it gives a host
    exactly the pools of other hosts all of whose vdev paths the host knows, once
    per vdev path, each with the numbers the host itself has for that path. *)
Theorem get_shared_pools_spec host path_map cluster_pools :
  exists xs, get_shared_pools host path_map cluster_pools = Some xs /\
    forall z mm, (z, mm) ∈ xs <->
      exists h ps g v d, (h, ps) ∈ cluster_pools /\ h <> host /\ (g, v) ∈ ps /\ z = v.1 /\
        (forall p, p ∈ v.2 -> is_Some (btree_get p path_map)) /\
        d ∈ v.2 /\ btree_get d path_map = Some mm.
Proof. apply get_shared_pools_elem. Qed.

End SharedPools.

(** ** Trees that convert without a panic *)

Section Convert.
Context {L : LibZfs}.

(** [plugin_ok has_parent d]: block devices have a path, and a pool has a device
    above it. The code does not look below MD arrays. *)
Inductive plugin_ok : bool -> Device -> Prop :=
| ok_root b x : (forall c, c ∈ ro_children x -> plugin_ok false c) -> plugin_ok b (DRoot x)
| ok_scsi b x : sd_paths x <> [] -> (forall c, c ∈ sd_children x -> plugin_ok true c) ->
    plugin_ok b (DScsiDevice x)
| ok_partition b x : pa_paths x <> [] -> (forall c, c ∈ pa_children x -> plugin_ok true c) ->
    plugin_ok b (DPartition x)
| ok_md b x : plugin_ok b (DMdRaid x)
| ok_mpath b x : mp_paths x <> [] -> (forall c, c ∈ mp_children x -> plugin_ok true c) ->
    plugin_ok b (DMpath x)
| ok_vg b x : (forall c, c ∈ vg_children x -> plugin_ok b c) -> plugin_ok b (DVolumeGroup x)
| ok_lv b x : lv_paths x <> [] -> (forall c, c ∈ lv_children x -> plugin_ok true c) ->
    plugin_ok b (DLogicalVolume x)
| ok_zpool x : plugin_ok true (DZpool x)
| ok_dataset b x : plugin_ok b (DDataset x).

(** Every logical volume listed has its block device listed. *)
Definition dev_keys (data : LinuxPluginData) : list key := key_of <$> (ld_devs data).*1.

Definition lv_ok (data : LinuxPluginData) : Prop :=
  forall vg lvs n l, (vg, lvs) ∈ ld_lvs data -> (n, l) ∈ lvs ->
    KS (lpl_block_device l) ∈ dev_keys data.

Lemma lv_ok_mono data data' :
  ld_lvs data' = ld_lvs data -> dev_keys data ⊆ dev_keys data' -> lv_ok data -> lv_ok data'.
Proof. intros E Hs H vg lvs n l. rewrite E. intros. eapply Hs, H; eauto. Qed.

Lemma dev_keys_insert data k i :
  dev_keys data ⊆ dev_keys (set_devs data (btree_insert k i (ld_devs data))).
Proof. intros a Ha. unfold dev_keys. simpl. apply btree_insert_keys. by right. Qed.

Lemma add_mount_lv_ok m d data : lv_ok data -> lv_ok (add_mount_opt m d data).
Proof.
  intros H. unfold add_mount_opt, add_mount. destruct m; [|done]. case_match; [done|].
  by apply (lv_ok_mono data).
Qed.

Lemma insert_dev_lv_ok d data : lv_ok data -> lv_ok (insert_dev d data).
Proof. intros H. eapply (lv_ok_mono data); [done|apply dev_keys_insert|done]. Qed.

Lemma add_mpath_lv_ok x bd p data : lv_ok data -> lv_ok (add_mpath x bd p data).
Proof. by apply lv_ok_mono. Qed.

Lemma add_vg_lv_ok x p data : lv_ok data -> lv_ok (add_vg x p data).
Proof. by apply lv_ok_mono. Qed.

Lemma add_zfs_item_lv_ok k z mm put data :
  (forall p data, lv_ok data -> lv_ok (put p data)) -> lv_ok data ->
  lv_ok (add_zfs_item k z mm put data).
Proof.
  intros Hp H. unfold add_zfs_item. case_match; [done|]. apply Hp.
  eapply (lv_ok_mono data); [done|apply dev_keys_insert|done].
Qed.

Lemma populate_zpool_lv_ok x mm data : lv_ok data -> lv_ok (populate_zpool x mm data).
Proof.
  intros H. unfold populate_zpool. destruct (zo_children x) as [|c cs].
  - apply add_zfs_item_lv_ok; [|done]. intros p d. by apply lv_ok_mono.
  - revert data H. generalize (c :: cs). induction l as [|e l IH]; intros data H; simpl; [done|].
    apply IH. destruct e; try done. apply add_zfs_item_lv_ok; [|done]. intros p d. by apply lv_ok_mono.
Qed.

Lemma add_lv_lv_ok vg lv d data :
  lv_ok data -> lv_ok (add_lv vg lv (lpd_major_minor d) (insert_dev d data)).
Proof.
  intros H vg' lvs n l Hv Hl. unfold add_lv in *. cbn [ld_lvs ld_devs set_lvs] in *.
  assert (lv_ok (insert_dev d data)) as H' by (by apply insert_dev_lv_ok).
  change (dev_keys (set_lvs ?a ?b)) with (dev_keys a).
  apply elem_of_btree_insert in Hv as [Hv|Hv]; [|by eapply H'].
  simpl in Hv. subst lvs. apply elem_of_btree_insert in Hl as [Hl|Hl].
  - simpl in Hl. subst l. destruct (btree_get (lv_name lv) _) as [l|] eqn:E; simpl.
    + apply btree_get_elem in E as (n' & Hn & _).
      destruct (btree_get vg _) as [lvs|] eqn:E; simpl in Hn; [|inversion Hn].
      apply btree_get_elem in E as (vg0 & Hvg & _). by eapply H'.
    + unfold dev_keys, insert_dev. simpl. apply btree_insert_keys. by left.
  - destruct (btree_get vg _) as [lvs|] eqn:E; simpl in Hl; [|inversion Hl].
    apply btree_get_elem in E as (vg0 & Hvg & _). by eapply H'.
Qed.

#[local] Hint Resolve add_mount_lv_ok insert_dev_lv_ok add_mpath_lv_ok add_vg_lv_ok
  populate_zpool_lv_ok add_lv_lv_ok : iml.

(** [converts b d]: the conversion of [d] returns and keeps the invariant. *)
Definition converts (b : bool) (d : Device) : Prop :=
  forall parent data, (b = true -> is_Some parent) -> lv_ok data ->
  exists out, devtree2linuxoutput d parent data = Some out /\ lv_ok out.

Lemma converts_children (d : LinuxPluginDevice) cs data :
  (forall c, c ∈ cs -> converts true c) -> lv_ok data ->
  exists out, for_each (fun data c => devtree2linuxoutput c (Some d) data) data cs = Some out /\
    lv_ok out.
Proof. intros Hc H. apply for_each_total; [done|]. intros acc c Hin Ha. apply Hc; eauto. Qed.

Lemma head_path (l : list DevicePath) : l <> [] -> exists p, head l = Some p.
Proof. destruct l; [done|]. simpl. eauto. Qed.

(** The volumes of a group are converted by the group. *)
Definition lv_children_convert (d : Device) : Prop :=
  match d with DLogicalVolume x => forall c, c ∈ lv_children x -> converts true c | _ => True end.

Lemma converts_lv (vg : string) x data :
  lv_paths x <> [] -> (forall c, c ∈ lv_children x -> converts true c) -> lv_ok data ->
  exists out,
    (d ← lpd_of_lv x;
     let data := add_mount_opt (lv_mount x) d data in
     data ← for_each (fun data c => devtree2linuxoutput c (Some d) data) data (lv_children x);
     Some (add_lv vg x (lpd_major_minor d) (insert_dev d data))) = Some out /\ lv_ok out.
Proof.
  intros Hp Hc H. unfold lpd_of_lv. destruct (head_path _ Hp) as [p ->]. cbn [mbind option_bind].
  edestruct converts_children as (out & -> & Ho); [exact Hc|by apply add_mount_lv_ok|].
  simpl. eauto with iml.
Qed.

Lemma plugin_ok_converts b d : plugin_ok b d -> converts b d /\ lv_children_convert d.
Proof.
  induction 1 as [b x _ IH|b x Hp _ IH|b x Hp _ IH|b x|b x Hp _ IH|b x Hk IH|b x Hp _ IH|x|b x];
    (split; [|try done; intros c Hc; by apply IH]); intros parent data Hb H; cbn [devtree2linuxoutput].
  - apply for_each_total; [done|]. intros acc c Hc Ha. by apply IH.
  - unfold lpd_of_scsi. destruct (head_path _ Hp) as [p ->]. cbn [mbind option_bind].
    edestruct converts_children as (out & -> & Ho);
      [intros c Hc; by apply IH|by apply add_mount_lv_ok|]. simpl. eauto with iml.
  - unfold lpd_of_partition. destruct (head_path _ Hp) as [p ->]. cbn [mbind option_bind].
    edestruct converts_children as (out & -> & Ho);
      [intros c Hc; by apply IH|by apply add_mount_lv_ok|]. simpl. eauto with iml.
  - eauto.
  - unfold lpd_of_mpath. destruct (head_path _ Hp) as [p ->]. cbn [mbind option_bind].
    edestruct converts_children as (out & -> & Ho);
      [intros c Hc; by apply IH|by apply add_mount_lv_ok|]. simpl. eauto with iml.
  - apply for_each_total; [by apply add_vg_lv_ok|]. intros acc c Hc Ha.
    destruct (IH c Hc) as [_ Hlv]. specialize (Hk c Hc). destruct c; eauto.
    inversion Hk; subst. by apply converts_lv.
  - eauto.
  - destruct (Hb eq_refl) as [p ->]. simpl. eauto with iml.
  - eauto.
Qed.

(** ** The scanner's trees convert *)

Definition event_paths (b : Buckets) : Prop :=
  forall u, u ∈ b_dms b ++ b_mds b ++ b_mpaths b ++ b_partitions b ++ b_rest b -> ue_paths u <> [].

Lemma linked_plugin_ok b ys d flag :
  event_paths b -> linked b ys d ->
  (forall ma mi, mm_of d = Some (ma, mi) -> paths_of d <> []) ->
  (forall x, d = DZpool x -> flag = true) -> plugin_ok flag d.
Proof.
  intros He Hl. revert flag. induction Hl as [d _ Hlk _ IH _]; intros flag Hp Hz.
  assert (forall c, c ∈ kids d -> forall ma mi, mm_of c = Some (ma, mi) -> paths_of c <> []) as Hpc.
  { intros c Hc ma mi Hm. destruct (attrs_strip c) as [Em Ep].
    rewrite <-Em in Hm. destruct (link_block _ _ _ _ _ _ (Hlk c Hc) Hm) as (u & Hu & _ & _ & Hpu).
    rewrite <-Ep, Hpu. by apply He. }
  assert (forall c, c ∈ kids d -> is_root d = false -> plugin_ok true c) as Hc.
  { intros c Hc _. apply IH; [done|by apply Hpc|done]. }
  destruct d as [x|x|x|x|x|x|x|x|x]; try constructor; try (intros c Hin; by apply Hc);
    try (by eapply Hp); try (by rewrite (Hz _ eq_refl); constructor).
  - intros c Hin. specialize (Hlk c Hin). apply IH; [done|by apply Hpc|]. intros [] ->.
    inversion Hlk; subst; simplify_eq/=. unfold scsi_of in *. inv_ok. done.
  - intros c Hin. destruct flag; [by apply Hc|]. apply IH; [done|by apply Hpc|]. intros [] ->.
    specialize (Hlk _ Hin). inversion Hlk; subst; simplify_eq/=. unfold lv_of in *. inv_ok. done.
Qed.

End Convert.

(** ** Shared volume groups *)

Section SharedVgs.
Context {L : LibZfs}.
Implicit Types (xs : list (string * LinuxPluginData)) (pm : gmap string (list (DevicePath * string))).

Definition vg_keys (x : LinuxPluginData) : list key := key_of <$> (ld_vgs x).*1.

Lemma shared_vgs_elem xs pm :
  (forall h x, (h, x) ∈ xs -> is_Some (pm !! h)) ->
  exists l, shared_vgs xs pm = Some l /\
    forall f t v, (f, t, v) ∈ l <-> exists x y fp tp, (f, x) ∈ xs /\ (t, y) ∈ xs /\ t <> f /\
      pm !! f = Some fp /\ pm !! t = Some tp /\ v ∈ shareable_vgs fp tp.*1 x.
Proof.
  intros Hpm. unfold shared_vgs.
  set (g2 := fun (f : string) (fp : list (DevicePath * string)) (x : LinuxPluginData)
    (e : string * LinuxPluginData) => if String.eqb e.1 f then Some [] else
      to_map ← pm !! e.1; Some ((fun v => (f, e.1, v)) <$> shareable_vgs fp to_map.*1 x)).
  assert (forall f fp x, exists ys,
    (forall acc, for_each (fun others '(to_host, _) =>
      if String.eqb to_host f then Some others
      else to_map ← pm !! to_host;
        Some (others ++ ((fun vg_name => (f, to_host, vg_name)) <$> shareable_vgs fp to_map.*1 x)))
      acc xs = Some (acc ++ ys)) /\
    forall c, c ∈ ys <-> exists e y, e ∈ xs /\ g2 f fp x e = Some y /\ c ∈ y) as Hin.
  { intros f fp x. destruct (for_each_append (g2 f fp x) xs) as (ys & Hys & Hc).
    { intros [h y] Hh. unfold g2. simpl. destruct (String.eqb h f); [eauto|].
      destruct (Hpm h y Hh) as [tp ->]. simpl. eauto. }
    exists ys. split; [|done]. intros acc. rewrite <-Hys. apply for_each_ext.
    intros a [h y] _. unfold g2. simpl. destruct (String.eqb h f); simpl; [by rewrite app_nil_r|].
    by destruct (pm !! h). }
  set (g1 := fun e : string * LinuxPluginData => fp ← pm !! e.1;
    for_each (fun others '(to_host, _) =>
      if String.eqb to_host e.1 then Some others
      else to_map ← pm !! to_host;
        Some (others ++ ((fun vg_name => (e.1, to_host, vg_name)) <$> shareable_vgs fp to_map.*1 e.2)))
      [] xs).
  destruct (for_each_append g1 xs) as (ys & Hys & Hc).
  { intros [f x] Hf. unfold g1. simpl. destruct (Hpm f x Hf) as [fp ->]. simpl.
    destruct (Hin f fp x) as (ys & -> & _). eauto. }
  exists ys. split.
  { rewrite <-(app_nil_l ys), <-Hys. apply for_each_ext. intros a [f x] _. unfold g1. simpl.
    by destruct (pm !! f). }
  intros f t v. rewrite Hc. unfold g1. split.
  - intros ([f' x] & y & Hf & Hy & Hv). simpl in Hy.
    destruct (pm !! f') as [fp|] eqn:Ef; simplify_eq/=.
    destruct (Hin f' fp x) as (ys' & Hys' & Hc'). rewrite Hys' in Hy. simplify_eq/=.
    apply Hc' in Hv as ([t' y'] & z & Ht & Hz & Hv). unfold g2 in Hz. simpl in Hz.
    destruct (String.eqb_spec t' f'); simplify_eq/=; [inversion Hv|].
    destruct (pm !! t') as [tp|] eqn:Et; simplify_eq/=.
    apply list_elem_of_fmap in Hv as (v' & [= -> -> ->] & Hv). eauto 15.
  - intros (x & y & fp & tp & Hf & Ht & Hne & Ef & Et & Hv).
    destruct (Hin f fp x) as (ys' & Hys' & Hc'). exists (f, x), ys'. simpl. rewrite Ef. simpl.
    rewrite Hys'. split_and!; [done|done|]. apply Hc'. exists (t, y).
    exists ((fun v => (f, t, v)) <$> shareable_vgs fp tp.*1 x). split_and!; [done| |].
    + unfold g2. simpl. destruct (String.eqb_spec t f); [done|]. rewrite Et. reflexivity.
    + by apply (list_elem_of_fmap_2 (fun v => (f, t, v))).
Qed.

Lemma major_minors_paths mms (fp : list (DevicePath * string)) k :
  k ∈ (key_of <$> major_minors_to_dev_paths mms fp) <->
  exists p mm, (p, mm) ∈ fp /\ mm ∈ mms /\ k = key_of p.
Proof.
  unfold major_minors_to_dev_paths.
  assert (forall acc, k ∈ (key_of <$> foldl (fun acc mm =>
      foldl (fun acc p => set_insert false p acc) acc
        (List.filter (fun '(_, pmm) => String.eqb mm pmm) fp).*1) acc mms) <->
    k ∈ (key_of <$> acc) \/ exists p mm, (p, mm) ∈ fp /\ mm ∈ mms /\ k = key_of p) as Hacc.
  { induction mms as [|m mms IH]; intros acc; csimpl.
    - setoid_rewrite elem_of_nil. naive_solver.
    - rewrite IH, foldl_insert_keys. setoid_rewrite elem_of_cons. rewrite !list_elem_of_fmap.
      setoid_rewrite list_elem_of_fmap. setoid_rewrite elem_of_filter_fn. split.
      + intros [[?|(p & -> & [p' m'] & -> & Hin & Hm)]|?]; [naive_solver| |naive_solver].
        right. exists p', m'. apply String.eqb_eq in Hm as ->. auto.
      + intros [?|(p & m' & Hin & [->|Hm] & ->)]; [naive_solver| |naive_solver].
        left. right. exists p. split; [done|]. exists (p, m). by rewrite String.eqb_refl. }
  rewrite Hacc. csimpl. rewrite elem_of_nil. naive_solver.
Qed.

(** The groups of [x] whose physical volumes' paths, as [fp] has them, are all
    known to the host of [tp]. *)
Lemma shareable_vgs_spec (fp tp : list (DevicePath * string)) x v :
  v ∈ shareable_vgs fp tp.*1 x <->
  exists vg, (v, vg) ∈ ld_vgs x /\
    forall p mm, (p, mm) ∈ fp -> mm ∈ lpv_pvs_major_minor vg -> is_Some (btree_get p tp).
Proof.
  unfold shareable_vgs. rewrite list_elem_of_fmap. setoid_rewrite elem_of_filter_fn.
  setoid_rewrite btree_get_is_Some. split.
  - intros ([v' vg] & -> & Hin & Hs). rewrite set_superset_spec in Hs. exists vg. split; [done|].
    intros p mm Hp Hmm. apply Hs, major_minors_paths. eauto.
  - intros (vg & Hin & Hall). exists (v, vg). split_and!; [done|done|]. apply set_superset_spec.
    intros k (p & mm & Hp & Hmm & ->)%major_minors_paths. eauto.
Qed.

Lemma lv_devices_total from lvs :
  (forall n l, (n, l) ∈ lvs -> KS (lpl_block_device l) ∈ dev_keys from) ->
  exists ds, lv_devices from lvs = Some ds /\
    forall n l, (n, l) ∈ lvs -> lpl_block_device l ∈ ds.*1.
Proof.
  unfold lv_devices. induction lvs as [|[n l] lvs IH]; intros H; simpl.
  - exists []. split; [done|]. intros ? ? Hx; inversion Hx.
  - destruct (proj2 (btree_get_is_Some (lpl_block_device l) (ld_devs from))) as [i Hi].
    { eapply H. left. }
    destruct IH as (ds & -> & Hd); [intros; eapply H; by right|]. rewrite Hi. simpl.
    eexists. split; [done|]. intros n' l' [[= -> ->]|Hn]%elem_of_cons; csimpl; [left|right; eauto].
Qed.

Lemma foldl_insert_devs (ds : list (string * LinuxPluginItem)) m k :
  k ∈ (key_of <$> (foldl (fun m '(mm, d) => btree_insert mm d m) m ds).*1) <->
  k ∈ (key_of <$> ds.*1) \/ k ∈ (key_of <$> m.*1).
Proof.
  revert m. induction ds as [|[mm d] ds IH]; intros m; csimpl; [rewrite elem_of_nil; tauto|].
  rewrite IH, btree_insert_keys, elem_of_cons. tauto.
Qed.

(** The hosts stay, and no host loses a volume group. *)
Definition grow xs xs' : Prop :=
  forall h x, btree_get h xs = Some x ->
    exists x', btree_get h xs' = Some x' /\ vg_keys x ⊆ vg_keys x'.

#[export] Instance grow_preorder : PreOrder grow.
Proof.
  split.
  - intros xs h x Hx. eauto.
  - intros a b c Hab Hbc h x Hx. destruct (Hab h x Hx) as (x' & Hx' & ?).
    destruct (Hbc h x' Hx') as (x'' & ? & ?). exists x''. split; [done|]. by etrans.
Qed.

Record hosts_wf xs : Prop := {
  hw_sorted : btree_wf xs;
  hw_lv h x : (h, x) ∈ xs -> lv_ok x;
}.

(** A pending copy: its source has the group, its destination exists. *)
Definition vg_known xs (s : string * string * string) : Prop :=
  (exists from, btree_get s.1.1 xs = Some from /\ KS s.2 ∈ vg_keys from) /\
  is_Some (btree_get s.1.2 xs).

Lemma vg_known_grow xs xs' s : grow xs xs' -> vg_known xs s -> vg_known xs' s.
Proof.
  intros Hg [(from & Hf & Hv) [to Ht]]. destruct (Hg _ _ Hf) as (from' & ? & Hs).
  destruct (Hg _ _ Ht) as (to' & ? & _). split; [|eauto]. exists from'. split; [done|]. by apply Hs.
Qed.

(** The destination after a copy. *)
Lemma copied_lv_ok to (lvs : option (list (string * LinuxPluginLvDevice))) v vg ds :
  lv_ok to ->
  (forall l, lvs = Some l -> exists d, ds = Some d /\
     forall n x, (n, x) ∈ l -> lpl_block_device x ∈ d.*1) ->
  let to1 := set_vgs to (btree_insert v vg (ld_vgs to)) in
  let to2 := match lvs with Some l => set_lvs to1 (btree_insert v l (ld_lvs to1)) | None => to1 end in
  lv_ok (match ds with
         | Some ds => set_devs to2 (foldl (fun m '(mm, d) => btree_insert mm d m) (ld_devs to2) ds)
         | None => to2
         end).
Proof.
  intros Hto Hl to1 to2 g ls n l Hg Hn.
  assert (ls ∈ (option_list lvs) \/ (g, ls) ∈ ld_lvs to) as Hcase.
  { destruct ds, lvs as [?|]; simpl in Hg; try (by right);
      (apply elem_of_btree_insert in Hg as [Hg|Hg]; [simpl in Hg; subst; left; left|by right]). }
  assert (dev_keys to ⊆ dev_keys (match ds with
         | Some ds => set_devs to2 (foldl (fun m '(mm, d) => btree_insert mm d m) (ld_devs to2) ds)
         | None => to2 end)) as Hs.
  { assert (ld_devs to2 = ld_devs to) as E by (by destruct lvs).
    destruct ds; unfold dev_keys; simpl; rewrite E; [|done].
    intros k Hk. apply foldl_insert_devs. by right. }
  destruct Hcase as [Hc|Hc]; [|eapply Hs, Hto; eauto].
  destruct lvs as [l0|]; simpl in Hc; [|inversion Hc]. apply list_elem_of_singleton in Hc as ->.
  destruct (Hl l0 eq_refl) as (d & -> & Hd). unfold dev_keys. simpl. apply foldl_insert_devs. left.
  apply (list_elem_of_fmap_2 key_of). by eapply Hd.
Qed.

Lemma copy_vg_total xs s :
  hosts_wf xs -> vg_known xs s ->
  exists xs', copy_vg xs s = Some xs' /\ hosts_wf xs' /\ grow xs xs' /\
    (exists y, btree_get s.1.2 xs' = Some y /\ KS s.2 ∈ vg_keys y) /\
    forall h x x' k, btree_get h xs = Some x -> btree_get h xs' = Some x' -> k ∈ vg_keys x' ->
      k ∈ vg_keys x \/ (h = s.1.2 /\ k = KS s.2).
Proof.
  intros [Hs Hlv] [(from & Hf & Hv) [to Ht]]. destruct s as [[f t] v]. simpl in *.
  rewrite Hf. simpl. destruct (proj2 (btree_get_is_Some v (ld_vgs from)) Hv) as [vg Hvg].
  rewrite Hvg. simpl. rewrite Ht.
  destruct (btree_get_elem _ _ _ Hf) as (f' & Hf' & _). pose proof (Hlv _ _ Hf') as Hfl.
  destruct (btree_get_elem _ _ _ Ht) as (t' & Ht' & _). pose proof (Hlv _ _ Ht') as Htl.
  set (lvs := btree_get v (ld_lvs from)).
  assert (exists ds, match lvs with None => Some None | Some l => Some <$> lv_devices from l end = Some ds /\
    forall l, lvs = Some l -> exists d, ds = Some d /\
      forall n x, (n, x) ∈ l -> lpl_block_device x ∈ d.*1) as (ds & Hds & Hdl).
  { destruct lvs as [l|] eqn:El; [|exists None; by split].
    destruct (lv_devices_total from l) as (d & -> & Hd).
    { intros n x Hn. apply btree_get_elem in El as (v' & Hv' & _). by eapply Hfl. }
    exists (Some d). split; [done|]. intros ? [= <-]. eauto. }
  rewrite Hds. simpl. eexists. split; [done|].
  match goal with |- hosts_wf (btree_insert _ ?to' _) /\ _ => set (to1 := to') end.
  assert (lv_ok to1) as Hto by (by apply copied_lv_ok).
  assert (vg_keys to1 = key_of <$> (btree_insert v vg (ld_vgs to)).*1) as Hvk.
  { unfold to1. by destruct ds, lvs. }
  split_and!.
  - split; [by apply btree_insert_wf|]. intros h x [<-|Hx]%elem_of_btree_insert; simpl; eauto.
  - intros h x Hx. rewrite btree_get_insert by done. destruct (eqvb h t) eqn:E; [|eauto].
    exists to1. split; [done|]. apply eqvb_spec in E. unfold eqv in E. injection E as ->.
    simplify_eq. rewrite Hvk. intros k Hk. apply btree_insert_keys. by right.
  - exists to1. rewrite btree_get_insert by done. rewrite (proj2 (eqvb_spec t t) eq_refl).
    split; [done|]. rewrite Hvk. apply btree_insert_keys. by left.
  - intros h x x' k Hx. rewrite btree_get_insert by done. destruct (eqvb h t) eqn:E; [|naive_solver].
    apply eqvb_spec in E. injection E as ->. simplify_eq. intros [= <-]. rewrite Hvk.
    intros [->|Hk]%btree_insert_keys; auto.
Qed.

(** The whole second loop. *)
Lemma copy_vgs_total xs l :
  hosts_wf xs -> Forall (vg_known xs) l ->
  exists ys, for_each copy_vg xs l = Some ys /\ hosts_wf ys /\ grow xs ys /\
    Forall (fun s => exists y, btree_get s.1.2 ys = Some y /\ KS s.2 ∈ vg_keys y) l /\
    forall h x x' k, btree_get h xs = Some x -> btree_get h ys = Some x' -> k ∈ vg_keys x' ->
      k ∈ vg_keys x \/ exists s, s ∈ l /\ h = s.1.2 /\ k = KS s.2.
Proof.
  revert xs. induction l as [|s l IH]; intros xs Hw Hk; simpl.
  { exists xs. split_and!; try done. intros h x x' k Hx Hx' ?. simplify_eq. auto. }
  apply Forall_cons in Hk as [Hs Hk].
  destruct (copy_vg_total xs s Hw Hs) as (xs' & -> & Hw' & Hg & (y & Hy & Hv) & He). simpl.
  destruct (IH xs' Hw') as (ys & Hys & Hwy & Hg' & Hf & He').
  { eapply Forall_impl; [exact Hk|]. intros z. by apply vg_known_grow. }
  exists ys. split_and!; [done|done|by etrans| |].
  - constructor; [|done]. destruct (Hg' _ _ Hy) as (y' & ? & Hsub). exists y'. split; [done|]. by apply Hsub.
  - intros h x x' k Hx Hx' Hkx. destruct (Hg _ _ Hx) as (x1 & Hx1 & _).
    setoid_rewrite elem_of_cons. destruct (He' h x1 x' k Hx1 Hx' Hkx) as [Hk1|(z & Hz & ?)]; [|eauto].
    destruct (He h x x1 k Hx Hx1 Hk1) as [?|?]; [by left|eauto].
Qed.

Lemma shared_vg_known xs f t v x y fp tp :
  hosts_wf xs -> (f, x) ∈ xs -> (t, y) ∈ xs -> v ∈ shareable_vgs fp tp x -> vg_known xs (f, t, v).
Proof.
  intros Hw Hf Ht Hv. split; simpl.
  - exists x. split; [by apply btree_elem_get; [apply Hw|]|]. unfold shareable_vgs in Hv.
    apply list_elem_of_fmap in Hv as ([v' vg] & -> & Hv). apply elem_of_filter_fn in Hv as [Hv _].
    unfold vg_keys. apply (list_elem_of_fmap_2 key_of). by apply (list_elem_of_fmap_2 fst _ (v', vg)).
  - exists y. by apply btree_elem_get; [apply Hw|].
Qed.

(** Host [f] has volume group [v], and host [t] knows every path that [f] has for
    a physical volume of the group. *)
Definition reaches_vg xs pm (f t v : string) : Prop :=
  exists x fp tp vg, (f, x) ∈ xs /\ t <> f /\ pm !! f = Some fp /\ pm !! t = Some tp /\
    (v, vg) ∈ ld_vgs x /\
    forall p mm, (p, mm) ∈ fp -> mm ∈ lpv_pvs_major_minor vg -> is_Some (btree_get p tp).

Lemma update_vgs_total xs pm :
  hosts_wf xs -> (forall h x, (h, x) ∈ xs -> is_Some (pm !! h)) ->
  exists ys, update_vgs xs pm = Some ys /\ hosts_wf ys /\
    forall t y v, (t, y) ∈ xs -> exists y', btree_get t ys = Some y' /\
      (is_Some (btree_get v (ld_vgs y')) <->
       is_Some (btree_get v (ld_vgs y)) \/ exists f, reaches_vg xs pm f t v).
Proof.
  intros Hw Hpm. unfold update_vgs. destruct (shared_vgs_elem xs pm Hpm) as (l & -> & Hl). simpl.
  destruct (copy_vgs_total xs l Hw) as (ys & -> & Hwy & Hg & Hf & He).
  { apply Forall_forall. intros [[f t] v] (x & y & fp & tp & Hf & Ht & _ & _ & _ & Hv)%Hl.
    by eapply shared_vg_known. }
  exists ys. split_and!; [done..|]. intros t y v Ht.
  assert (btree_get t xs = Some y) as Hy by (by apply btree_elem_get; [apply Hw|]).
  destruct (Hg t y Hy) as (y' & Hy' & Hsub). exists y'. split; [done|].
  rewrite !btree_get_is_Some. split.
  - intros Hk. destruct (He t y y' _ Hy Hy' Hk) as [?|([[f t'] v'] & Hs & Heq & Hv)]; [by left|right].
    simpl in *. subst t'. injection Hv as <-.
    apply Hl in Hs as (x & ? & fp & tp & ? & ? & ? & ? & ? & (vg & ? & ?)%shareable_vgs_spec).
    exists f, x, fp, tp, vg. auto 10.
  - intros [Hk|(f & x & fp & tp & vg & Hfx & ? & ? & ? & Hvg & Hall)]; [by apply Hsub|].
    rewrite Forall_forall in Hf. destruct (Hf (f, t, v)) as (y1 & Hy1 & Hk); [|simpl in *; by simplify_eq].
    apply Hl. exists x, y, fp, tp. split_and!; try done. apply shareable_vgs_spec. eauto.
Qed.

(** C26: [update_vgs] never panics on converted trees; afterwards a host lists a
    volume group exactly when it listed the group before or knows every path that
    some other host has for the group's physical volumes; and every logical volume
    that is listed, the copied ones too, has its block device listed. *)
Theorem update_vgs_shares xs pm :
  hosts_wf xs -> (forall h x, (h, x) ∈ xs -> is_Some (pm !! h)) ->
  exists ys, update_vgs xs pm = Some ys /\
    (forall t y v, (t, y) ∈ xs -> exists y', btree_get t ys = Some y' /\
      (is_Some (btree_get v (ld_vgs y')) <->
       is_Some (btree_get v (ld_vgs y)) \/ exists f, reaches_vg xs pm f t v)) /\
    forall h x, (h, x) ∈ ys -> lv_ok x.
Proof.
  intros Hw Hpm. destruct (update_vgs_total xs pm Hw Hpm) as (ys & ? & [_ ?] & ?). eauto.
Qed.

End SharedVgs.

(** ** Every device of a tree is listed *)

Section Listed.
Context {L : LibZfs}.

(** The name a device is listed under. *)
Definition dev_name (d : Device) : option string :=
  match d with
  | DScsiDevice x => Some (major_minor (sd_major x) (sd_minor x))
  | DPartition x => Some (major_minor (pa_major x) (pa_minor x))
  | DMpath x => Some (major_minor (mp_major x) (mp_minor x))
  | DLogicalVolume x => Some (major_minor "lv" (lv_uuid x))
  | _ => None
  end.

(** [shown t n]: a device named [n] is reached from [t] without passing an MD
    array; of the children of a volume group only volumes count. *)
Inductive shown : Device -> string -> Prop :=
| shown_self d n : dev_name d = Some n -> (forall x, d <> DLogicalVolume x) -> shown d n
| shown_kid d c n : match d with DRoot _ | DScsiDevice _ | DPartition _ | DMpath _ => True | _ => False end ->
    c ∈ kids d -> shown c n -> shown d n
| shown_lv x lv n : DLogicalVolume lv ∈ vg_children x -> dev_name (DLogicalVolume lv) = Some n ->
    shown (DVolumeGroup x) n
| shown_lv_kid x lv c n : DLogicalVolume lv ∈ vg_children x -> c ∈ lv_children lv -> shown c n ->
    shown (DVolumeGroup x) n.

(** A loop whose steps only add keys, and add those of its elements. *)
Lemma for_each_keys {A} (f : LinuxPluginData -> A -> option LinuxPluginData) (Q : A -> string -> Prop)
    xs data out :
  for_each f data xs = Some out ->
  (forall data x data', x ∈ xs -> f data x = Some data' ->
     dev_keys data ⊆ dev_keys data' /\ forall n, Q x n -> KS n ∈ dev_keys data') ->
  dev_keys data ⊆ dev_keys out /\ forall x n, x ∈ xs -> Q x n -> KS n ∈ dev_keys out.
Proof.
  revert data. induction xs as [|x xs IH]; intros data H Hf; simpl in H.
  - simplify_eq. split; [done|]. intros ? ? Hx; inversion Hx.
  - destruct (f data x) as [d1|] eqn:E; [|done]. simpl in H.
    destruct (Hf data x d1) as [H1 H2]; [left|done|].
    destruct (IH d1 H) as [H3 H4]; [intros a y a' Hy; apply Hf; by right|].
    split; [by etrans|]. intros y n [->|Hy]%elem_of_cons Hq; [by apply H3, H2|by eapply H4].
Qed.

Lemma insert_dev_keys d data :
  dev_keys data ⊆ dev_keys (insert_dev d data) /\ KS (lpd_major_minor d) ∈ dev_keys (insert_dev d data).
Proof.
  unfold dev_keys, insert_dev. simpl. split; [intros k Hk|]; apply btree_insert_keys; [by right|by left].
Qed.

Lemma add_mount_keys m d data : dev_keys (add_mount_opt m d data) = dev_keys data.
Proof. unfold add_mount_opt, add_mount. destruct m; [|done]. by case_match. Qed.

Lemma add_zfs_item_keys k z mm put data :
  (forall p data, dev_keys (put p data) = dev_keys data) ->
  dev_keys data ⊆ dev_keys (add_zfs_item k z mm put data).
Proof.
  intros Hp. unfold add_zfs_item. case_match; [done|]. rewrite Hp. apply dev_keys_insert.
Qed.

Lemma populate_zpool_keys x mm data : dev_keys data ⊆ dev_keys (populate_zpool x mm data).
Proof.
  unfold populate_zpool. destruct (zo_children x) as [|c cs]; [by apply add_zfs_item_keys|].
  revert data. generalize (c :: cs). induction l as [|e l IH]; intros data; simpl; [done|].
  etrans; [|apply IH]. destruct e; try done. by apply add_zfs_item_keys.
Qed.

(** The conversion of [d] lists what [d] shows. *)
Definition lists (d : Device) : Prop :=
  forall parent data out, devtree2linuxoutput d parent data = Some out ->
  dev_keys data ⊆ dev_keys out /\ forall n, shown d n -> KS n ∈ dev_keys out.

(** The common shape of a disk, a partition and a multipath. *)
Lemma lists_block (p : LinuxPluginDevice) m cs data out1 out :
  (forall c, c ∈ cs -> lists c) ->
  for_each (fun data c => devtree2linuxoutput c (Some p) data) (add_mount_opt m p data) cs = Some out1 ->
  dev_keys out = dev_keys (insert_dev p out1) ->
  dev_keys data ⊆ dev_keys out /\ KS (lpd_major_minor p) ∈ dev_keys out /\
  forall c n, c ∈ cs -> shown c n -> KS n ∈ dev_keys out.
Proof.
  intros Hc H Ho. rewrite Ho. destruct (insert_dev_keys p out1) as [Hi Hk].
  destruct (for_each_keys _ shown _ _ _ H) as [H1 H2].
  { intros d c d' Hin Hd. by eapply Hc. }
  rewrite add_mount_keys in H1. split_and!; [by etrans|done|]. intros c n Hin Hn. eapply Hi, H2; eauto.
Qed.

Lemma devtree_lists d : lists d /\ forall c, c ∈ kids d -> lists c.
Proof.
  induction d as [d IH] using Device_ind'. rewrite Forall_forall in IH.
  assert (forall c, c ∈ kids d -> lists c) as Hc by (intros; by apply IH). split; [|done].
  intros parent data out H. destruct d as [x|x|x|x|x|x|x|x|x]; cbn [devtree2linuxoutput] in H.
  - destruct (for_each_keys _ shown _ _ _ H) as [H1 H2].
    { intros a c a' Hin Ha. by eapply Hc. }
    split; [done|]. intros n Hn. inversion Hn; subst; simplify_eq/=. eauto.
  - apply bind_Some in H as (p & Hp & H). apply bind_Some in H as (o & Ho & [= <-]).
    destruct (lists_block _ _ _ _ _ _ Hc Ho eq_refl) as (H1 & H2 & H3). split; [done|].
    unfold lpd_of_scsi in Hp. apply bind_Some in Hp as (? & _ & [= <-]).
    intros n Hn. inversion Hn; subst; simplify_eq/=; eauto.
  - apply bind_Some in H as (p & Hp & H). apply bind_Some in H as (o & Ho & [= <-]).
    destruct (lists_block _ _ _ _ _ _ Hc Ho eq_refl) as (H1 & H2 & H3). split; [done|].
    unfold lpd_of_partition in Hp. apply bind_Some in Hp as (? & _ & [= <-]).
    intros n Hn. inversion Hn; subst; simplify_eq/=; eauto.
  - simplify_eq. split; [done|]. intros n Hn. inversion Hn; subst; done.
  - apply bind_Some in H as (p & Hp & H). apply bind_Some in H as (o & Ho & [= <-]).
    destruct (lists_block _ _ _ _ _ (add_mpath x (lpd_major_minor p) parent (insert_dev p o)) Hc Ho eq_refl)
      as (H1 & H2 & H3). split; [done|].
    unfold lpd_of_mpath in Hp. apply bind_Some in Hp as (? & _ & [= <-]).
    intros n Hn. inversion Hn; subst; simplify_eq/=; eauto.
  - destruct (for_each_keys _ (fun c n => match c with
      | DLogicalVolume lv => dev_name c = Some n \/ exists e, e ∈ lv_children lv /\ shown e n
      | _ => False end) _ _ _ H) as [H1 H2].
    { intros a c a' Hin Ha. destruct c as [y|y|y|y|y|y|y|y|y]; simplify_eq/=; try (split; [done|by intros ? []]).
      apply bind_Some in Ha as (p & Hp & Ha). apply bind_Some in Ha as (o & Ho & [= <-]).
      destruct (IH _ Hin) as [_ Hlv].
      destruct (lists_block _ _ _ _ _ (add_lv (vg_name x) y (lpd_major_minor p) (insert_dev p o)) Hlv Ho eq_refl)
        as (K1 & K2 & K3). split; [done|].
      unfold lpd_of_lv in Hp. apply bind_Some in Hp as (? & _ & [= <-]). naive_solver. }
    split; [done|]. intros n Hn. inversion Hn; subst; simplify_eq/=; try done;
      match goal with Hlv : DLogicalVolume _ ∈ _ |- _ => apply (H2 _ _ Hlv); simpl; eauto end.
  - simplify_eq. split; [done|]. intros n Hn. inversion Hn; subst; naive_solver.
  - apply bind_Some in H as (p & -> & [= <-]). split; [apply populate_zpool_keys|].
    intros n Hn. inversion Hn; subst; done.
  - simplify_eq. split; [done|]. intros n Hn. inversion Hn; subst; done.
Qed.

(** The conversion of a host's tree lists every disk, partition, multipath and
    logical volume of it that is not below an MD array, under its numbers (a
    volume under its uuid). *)
Theorem devtree_lists_all t parent data out n :
  devtree2linuxoutput t parent data = Some out -> shown t n ->
  is_Some (btree_get n (ld_devs out)).
Proof.
  intros H Hn. apply btree_get_is_Some.
  destruct (proj1 (devtree_lists t) parent data out H) as [_ Hs]. exact (Hs n Hn).
Qed.

End Listed.

(** ** The whole view *)

Section View.
Context {L : LibZfs}.

(** A tree the scanner built from events that each name a path. *)
Definition scanned (t : Device) : Prop :=
  exists n values pools mounts, device_graph n values pools mounts = Some (Ok t) /\
    Forall (fun u => ue_paths u <> []) values.

Lemma scanned_plugin_ok t : scanned t -> plugin_ok false t.
Proof.
  intros (n & values & pools & mounts & Hg & Hp). unfold device_graph in Hg.
  pose proof (build_device_graph_strip _ _ _ _ _ Hg) as Hs.
  apply build_linked in Hg; [|done].
  assert (exists r, t = DRoot r) as [r ->].
  { destruct t as [r|[]|[]|[]|[]|[]|[]|[]|[]]; try done. by exists r. }
  eapply linked_plugin_ok; [|done|done|done].
  intros u Hu. rewrite bucket_devices_eq in Hu. cbn [b_dms b_mds b_mpaths b_partitions b_rest] in Hu.
  rewrite <-of_class_permutation in Hu. apply elem_of_filter_fn in Hu as [Hu _].
  rewrite Forall_forall in Hp. by apply Hp.
Qed.

Lemma foldl_btree_insert {V} (l : list (string * V)) m :
  btree_wf m ->
  btree_wf (foldl (fun m '(k, v) => btree_insert k v m) m l) /\
  (forall k v, (k, v) ∈ foldl (fun m '(k, v) => btree_insert k v m) m l ->
     (k, v) ∈ m \/ v ∈ l.*2) /\
  (forall k, k ∈ (key_of <$> (foldl (fun m '(k, v) => btree_insert k v m) m l).*1) ->
     k ∈ (key_of <$> m.*1) \/ k ∈ (key_of <$> l.*1)).
Proof.
  revert m. induction l as [|[k v] l IH]; intros m Hm; csimpl; [split_and!; auto|].
  destruct (IH (btree_insert k v m)) as (H1 & H2 & H3); [by apply btree_insert_wf|].
  split_and!; [done| |].
  - intros k' v' [Hk|Hk]%H2; [|right; by right].
    apply elem_of_btree_insert in Hk as [<-|Hk]; [right; left|by left].
  - intros k' [Hk|Hk]%H3; [|right; by right]. apply btree_insert_keys in Hk as [->|Hk]; [right; left|by left].
Qed.

Lemma foldl_populate_lv_ok (zs : list (Zpool vdev_info Device * string)) x :
  lv_ok x -> lv_ok (foldl (fun x '(a, b) => populate_zpool a b x) x zs).
Proof.
  revert x. induction zs as [|[a b] zs IH]; intros x H; simpl; [done|].
  by apply IH, populate_zpool_lv_ok.
Qed.

Lemma path_index_Some {P} (g : Device -> P) (cache : list (string * Device)) h :
  h ∈ cache.*1 -> is_Some ((list_to_map ((fun '(k, v) => (k, g v)) <$> cache) : gmap string P) !! h).
Proof.
  induction cache as [|[k v] cache IH]; csimpl; [intros H; inversion H|].
  intros [->|H]%elem_of_cons; [rewrite lookup_insert_eq; eauto|].
  destruct (decide (k = h)) as [->|]; [rewrite lookup_insert_eq; eauto|].
  rewrite lookup_insert_ne by done. auto.
Qed.

Lemma mapM_option_total {A B} (f : A -> option B) l :
  (forall x, x ∈ l -> is_Some (f x)) -> exists k, mapM f l = Some k /\ Forall2 (fun x y => f x = Some y) l k.
Proof.
  intros H. destruct (mapM f l) as [k|] eqn:E; [exists k; split; [done|by apply mapM_Some]|].
  assert (is_Some (mapM f l)) as [? ?]; [|congruence]. apply mapM_is_Some_2, Forall_forall. exact H.
Qed.

(** The hosts' data after the conversion and the shared pools. *)
Lemma view_hosts_wf (xs ys : list (string * LinuxPluginData)) (g : string -> LinuxPluginData -> option LinuxPluginData) :
  hosts_wf xs -> (forall h x y, lv_ok x -> g h x = Some y -> lv_ok y) ->
  Forall2 (fun e f => (let '(h, x) := e in y ← g h x; Some (h, y)) = Some f) xs ys ->
  ys.*1 = xs.*1 /\ hosts_wf ys.
Proof.
  intros [Hs Hl] Hg Hf.
  assert (ys.*1 = xs.*1) as E.
  { clear -Hf. induction Hf as [|[h x] e xs ys He _ IH]; csimpl; [done|].
    destruct (g h x); simplify_eq/=. by rewrite IH. }
  split; [done|]. split; [unfold btree_wf; by rewrite E|]. intros h y Hy.
  destruct (elem_of_Forall2_r _ _ _ _ Hf Hy) as ([h' x] & Hx & He). simpl in He.
  destruct (g h' x) as [z|] eqn:Eg; simplify_eq/=. eauto.
Qed.

Lemma devices_view_converts cache :
  (forall k t, (k, t) ∈ cache -> plugin_ok false t) -> is_Some (devices_view cache).
Proof.
  intros Hok. unfold devices_view.
  destruct (mapM_option_total (fun '(k, v) => out ← devtree2linuxoutput v None LinuxPluginData_default;
    Some (k, out)) cache) as (outs & -> & Houts).
  { intros [k t] Hk. destruct (proj1 (plugin_ok_converts _ _ (Hok k t Hk)) None LinuxPluginData_default)
      as (out & -> & _); [done| |simpl; eauto]. intros ? ? ? ? Hx. inversion Hx. }
  cbn [mbind option_bind].
  set (xs := foldl _ _ outs).
  destruct (foldl_btree_insert outs []) as (Hw & Hv & Hk); [constructor|].
  assert (hosts_wf xs) as Hwf.
  { split; [done|]. intros h x [Hx|Hx]%Hv; [inversion Hx|].
    apply list_elem_of_fmap in Hx as ([k x'] & -> & Hx).
    destruct (elem_of_Forall2_r _ _ _ _ Houts Hx) as ([k0 t] & Ht & He).
    destruct (proj1 (plugin_ok_converts _ _ (Hok k0 t Ht)) None LinuxPluginData_default)
      as (out & Ho & Hl); [done|intros ? ? ? ? Hy; inversion Hy|].
    rewrite Ho in He. simplify_eq/=. done. }
  assert (forall h x, (h, x) ∈ xs -> h ∈ cache.*1) as Hin.
  { intros h x Hx. assert (KS h ∈ (key_of <$> xs.*1)) as Hkx.
    { apply (list_elem_of_fmap_2 key_of). by apply (list_elem_of_fmap_2 fst _ (h, x)). }
    apply Hk in Hkx as [Hkx|Hkx]; [inversion Hkx|].
    apply list_elem_of_fmap in Hkx as (h' & [= <-] & Hh).
    apply list_elem_of_fmap in Hh as ([h2 o] & -> & Ho).
    destruct (elem_of_Forall2_r _ _ _ _ Houts Ho) as ([k t] & Ht & He).
    destruct (devtree2linuxoutput t None _); simplify_eq/=. by apply (list_elem_of_fmap_2 fst _ (_, t)). }
  set (pidx := list_to_map _ : gmap string _).
  assert (forall h, h ∈ cache.*1 -> is_Some (pidx !! h)) as Hp.
  { intros h Hh. unfold pidx. rewrite <-list_fmap_compose.
    rewrite (list_fmap_ext _ (fun '(k, v) => (k, (build_device_lookup v ([], [])).1)) cache).
    - by apply (path_index_Some (fun v => (build_device_lookup v ([], [])).1)).
    - intros i [k v] _. simpl. by destruct (build_device_lookup v ([], [])). }
  set (cp := _ <$> _).
  set (g := fun h x => path_to_mm ← pidx !! h; zs ← get_shared_pools h path_to_mm cp;
    Some (foldl (fun x '(a, b) => populate_zpool a b x) x zs)).
  destruct (mapM_option_total (fun '(h, x) => y ← g h x; Some (h, y)) xs) as (ys & Hys & Hf).
  { intros [h x] Hx. unfold g. destruct (Hp h (Hin h x Hx)) as [pm ->]. simpl.
    destruct (get_shared_pools_elem h pm cp) as (zs & -> & _). simpl. eauto. }
  assert (forall h x y, lv_ok x -> g h x = Some y -> lv_ok y) as Hg.
  { intros h x y Hx. unfold g. destruct (pidx !! h) as [pm|]; simpl; [|done].
    destruct (get_shared_pools h pm cp); simpl; [|done]. intros [= <-]. by apply foldl_populate_lv_ok. }
  destruct (view_hosts_wf xs ys g Hwf Hg Hf) as [Ek Hwy].
  erewrite mapM_ext; [rewrite Hys|].
  2: { intros [h x]. unfold g. destruct (pidx !! h) as [pm|]; simpl; [|done].
    by destruct (get_shared_pools h pm cp). }
  cbn [mbind option_bind]. destruct (update_vgs_total ys pidx Hwy) as (zs & -> & _); [|eauto].
  intros h y Hy. apply Hp.
  assert (h ∈ xs.*1) as Hh by (rewrite <-Ek; by apply (list_elem_of_fmap_2 fst _ (h, y))).
  apply list_elem_of_fmap in Hh as ([h' x] & -> & Hx). by eapply Hin.
Qed.

(** The view of all hosts' devices is always produced: on trees that came from
    scanner graphs, with any mix of shared pools and volume groups, none of the
    unwraps and index operations of the route can fail. *)
Theorem devices_view_total cache :
  (forall k t, (k, t) ∈ cache -> scanned t) -> is_Some (devices_view cache).
Proof.
  intros H. apply devices_view_converts. intros k t Hk. eapply scanned_plugin_ok, H, Hk.
Qed.

End View.

(** ** Examples *)

Section PluginWitnesses.
#[local] Existing Instance sample_libzfs.

Lemma devices_view_total_witness :
  is_Some (devices_view [("oss1", sample_tree); ("oss2", sample_tree)]).
Proof.
  apply devices_view_total. intros k t Ht.
  assert (t = sample_tree) as ->.
  { by repeat (apply elem_of_cons in Ht as [[= -> ->]|Ht]); [..|inversion Ht]. }
  exists 6%nat, sample_values, [sample_pool], []. split; [apply sample_tree_built|].
  repeat constructor; by vm_compute.
Defined.

(** A volume group on one disk, seen by two hosts. *)
Definition sample_vg_host : LinuxPluginData :=
  set_vgs LinuxPluginData_default [("vg", MkLinuxPluginVgDevice "vg" "u" 0 ["8:0"])].

Definition sample_hosts : list (string * LinuxPluginData) :=
  [("oss1", sample_vg_host); ("oss2", LinuxPluginData_default)].

Definition sample_path_map : gmap string (list (DevicePath * string)) :=
  {[ "oss1" := [(MkDevicePath "/dev/disk/by-id/scsi-1", "8:0")];
     "oss2" := [(MkDevicePath "/dev/disk/by-id/scsi-1", "8:16")] ]}.

Lemma update_vgs_shares_witness :
  exists ys, update_vgs sample_hosts sample_path_map = Some ys /\
    (forall t y v, (t, y) ∈ sample_hosts -> exists y', btree_get t ys = Some y' /\
      (is_Some (btree_get v (ld_vgs y')) <->
       is_Some (btree_get v (ld_vgs y)) \/ exists f, reaches_vg sample_hosts sample_path_map f t v)) /\
    forall h x, (h, x) ∈ ys -> lv_ok x.
Proof.
  apply update_vgs_shares.
  - split.
    + repeat constructor.
    + intros h x Hx. repeat (apply elem_of_cons in Hx as [[= -> ->]|Hx]); [..|inversion Hx];
        intros ? ? ? ? Hl; inversion Hl.
  - intros h x Hx. repeat (apply elem_of_cons in Hx as [[= -> ->]|Hx]); [..|inversion Hx];
      vm_compute; eauto.
Defined.

Definition sample_out : LinuxPluginData :=
  default LinuxPluginData_default (devtree2linuxoutput sample_tree None LinuxPluginData_default).

Lemma devtree_lists_all_witness : is_Some (btree_get "8:1" (ld_devs sample_out)).
Proof.
  apply (devtree_lists_all sample_tree None LinuxPluginData_default); [by vm_compute|].
  eapply shown_kid; [exact I|vm_compute; apply list_elem_of_here|].
  eapply shown_kid; [exact I|vm_compute; apply list_elem_of_here|].
  by apply shown_self.
Defined.

End PluginWitnesses.
