(* ===== verification/Change.v ===== *)
(** [iml-change/src/lib.rs]: what to write and what to delete so that a stored
    collection becomes a new one. [T]'s derived order is its key, [id] its
    identity. *)
From S2P Require Import Prelude RustStd Ordering.
From stdpp Require Import base gmap sets list strings.
From Stdlib Require Import ZArith Ascii.

Open Scope Z_scope.

(** [Changeable + Identifiable]: an order that tells values apart, and an id. *)
Class Changeable (T : Type) `{Keyed T} : Type := {
  change_id : T -> key;
  changeable_eq (x y : T) : key_of x = key_of y -> x = y;
}.

Section Change.
Context {T : Type} `{Changeable T}.
Implicit Types (new old : list T).

(** [Some(v)] unless [v] is empty. *)
Definition non_empty (l : list T) : option (list T) :=
  match l with [] => None | _ => Some l end.

(** [GetChanges::get_changes]: upserts and deletions. *)
Definition get_changes new old : option (list T) * option (list T) :=
  let new := set_from false new in
  let old := set_from false old in
  let to_upsert := non_empty (set_difference new old) in
  let new_ids := change_id <$> new in
  let old_ids := change_id <$> old in
  let changed := List.filter (fun i => bool_decide (i ∈ old_ids)) new_ids in
  let to_remove := non_empty
    (List.filter (fun x => negb (bool_decide (change_id x ∈ changed))) (set_difference old new)) in
  (to_upsert, to_remove).

(** * Properties *)

#[local] Instance changeable_eq_dec : EqDecision T.
Proof.
  intros x y. destruct (decide (key_of x = key_of y)) as [E|E].
  - left. by apply changeable_eq.
  - right. by intros ->.
Defined.

Lemma non_empty_elem l x : x ∈ default [] (non_empty l) <-> x ∈ l.
Proof. by destruct l. Qed.

Lemma elem_of_set_from_eq l x : x ∈ set_from false l <-> x ∈ l.
Proof.
  split; [apply elem_of_set_from|]. intros Hx.
  assert (key_of x ∈ (key_of <$> set_from false l)) as (y & Hy & Hin)%list_elem_of_fmap.
  { apply set_from_keys. by apply list_elem_of_fmap_2. }
  by rewrite (changeable_eq _ _ Hy).
Qed.

Lemma elem_of_set_difference_eq l1 l2 x : x ∈ set_difference l1 l2 <-> x ∈ l1 /\ x ∉ l2.
Proof.
  unfold set_difference. rewrite elem_of_filter_fn, negb_true_iff.
  rewrite <-not_true_iff_false, set_contains_spec, list_elem_of_fmap. split.
  - intros [Hx Hn]. split; [done|]. intros Hx2. apply Hn. eauto.
  - intros [Hx Hn]. split; [done|]. intros (y & Hk & Hy). apply changeable_eq in Hk as ->. done.
Qed.

(** No value is listed twice. *)
Lemma get_changes_nodup new old :
  NoDup (default [] (get_changes new old).1) /\ NoDup (default [] (get_changes new old).2).
Proof.
  assert (forall l : list T, NoDup (set_from false l)) as Hs.
  { intros l. eapply NoDup_fmap_1, (klt_sorted_nodup (key_of <$> _)), set_from_wf. }
  assert (forall (p : T -> bool) l, NoDup l -> NoDup (List.filter p l)) as Hf.
  { intros p l. rewrite !NoDup_ListNoDup. apply List.NoDup_filter. }
  assert (forall l, NoDup l -> NoDup (default [] (non_empty l))) as Hn by (by intros []).
  unfold get_changes, set_difference. cbn [fst snd]. auto.
Qed.

Lemma get_changes_elem new old x :
  (x ∈ default [] (get_changes new old).1 <-> x ∈ new /\ x ∉ old) /\
  (x ∈ default [] (get_changes new old).2 <->
     x ∈ old /\ forall y, y ∈ new -> change_id y <> change_id x).
Proof.
  unfold get_changes. cbn [fst snd]. rewrite !non_empty_elem, elem_of_set_difference_eq.
  rewrite !elem_of_set_from_eq. split; [done|].
  rewrite elem_of_filter_fn, elem_of_set_difference_eq, negb_true_iff, bool_decide_eq_false.
  rewrite elem_of_filter_fn, bool_decide_eq_true, !list_elem_of_fmap, !elem_of_set_from_eq.
  setoid_rewrite elem_of_set_from_eq. split.
  - intros [[Ho _] Hn]. split; [done|]. intros y Hy He. apply Hn. split; [exists y|exists x]; auto.
  - intros [Ho Hn]. split; [|intros [(y & He & Hy) _]; by eapply Hn].
    split; [done|]. intros Hx. by eapply Hn.
Qed.

(** A table under unique ids, and what the changes make of it. *)
Definition table (l : list T) : gmap key T := list_to_map ((fun x => (change_id x, x)) <$> l).

Definition apply_changes (m : gmap key T) (c : option (list T) * option (list T)) : gmap key T :=
  foldl (fun m x => <[change_id x := x]> m)
    (foldl (fun m x => delete (change_id x) m) m (default [] c.2)) (default [] c.1).

Definition unique_ids (l : list T) : Prop :=
  forall x y, x ∈ l -> y ∈ l -> change_id x = change_id y -> x = y.

Lemma table_lookup l i x : unique_ids l -> table l !! i = Some x <-> x ∈ l /\ change_id x = i.
Proof.
  unfold table. induction l as [|y l IH]; intros Hu; csimpl.
  - split; [done|]. intros [Hx _]; inversion Hx.
  - assert (unique_ids l) as Hul by (intros ? ? ? ?; apply Hu; by right).
    destruct (decide (change_id y = i)) as [<-|Hn].
    + rewrite lookup_insert_eq, elem_of_cons. split; [intros [= <-]; auto|].
      intros [[->|Hx] He]; [done|]. f_equal. apply Hu; [left|by right|done].
    + rewrite lookup_insert_ne by done. rewrite IH by done. rewrite elem_of_cons. naive_solver.
Qed.

Lemma foldl_delete_lookup (l : list T) (m : gmap key T) i :
  foldl (fun m x => delete (change_id x) m) m l !! i =
  if decide (i ∈ change_id <$> l) then None else m !! i.
Proof.
  revert m. induction l as [|x l IH]; intros m; [done|]. cbn [foldl]. rewrite IH, fmap_cons.
  destruct (decide (i ∈ change_id <$> l)) as [Hi|Hi].
  - rewrite decide_True; [done|by right].
  - destruct (decide (change_id x = i)) as [<-|].
    + rewrite lookup_delete_eq, decide_True; [done|left].
    + rewrite lookup_delete_ne by done. rewrite decide_False; [done|]. rewrite elem_of_cons. naive_solver.
Qed.

Lemma foldl_upsert_lookup (l : list T) (m : gmap key T) i :
  unique_ids l ->
  foldl (fun m x => <[change_id x := x]> m) m l !! i =
  match table l !! i with Some x => Some x | None => m !! i end.
Proof.
  revert m. induction l as [|x l IH]; intros m Hu; [done|].
  assert (unique_ids l) as Hul by (intros ? ? ? ?; apply Hu; by right).
  cbn [foldl]. rewrite IH by done. unfold table. csimpl. fold (table l).
  destruct (decide (change_id x = i)) as [<-|].
  - rewrite !lookup_insert_eq. destruct (table l !! change_id x) as [y|] eqn:E; [|done].
    apply table_lookup in E as [Hy He]; [|done]. f_equal. apply Hu; [by right|left|done].
  - by rewrite !lookup_insert_ne.
Qed.

(** [get_changes] synchronizes: writing the upserts to a table that holds the
    old items and deleting the deletions gives a table that holds exactly the
    new items, when ids are unique on both sides. Nothing that is already stored
    as it should be is written again, and nothing is deleted whose id remains. *)
Theorem get_changes_sync new old :
  unique_ids new -> unique_ids old ->
  apply_changes (table old) (get_changes new old) = table new /\
  (forall x, x ∈ default [] (get_changes new old).1 <-> x ∈ new /\ x ∉ old) /\
  (forall x, x ∈ default [] (get_changes new old).2 <->
     x ∈ old /\ forall y, y ∈ new -> change_id y <> change_id x).
Proof.
  intros Hn Ho. split; [|split; intros x; apply get_changes_elem].
  assert (unique_ids (default [] (get_changes new old).1)) as Hu.
  { intros x y [Hx _]%get_changes_elem [Hy _]%get_changes_elem. by apply Hn. }
  apply map_eq. intros i. unfold apply_changes. rewrite foldl_upsert_lookup by done.
  rewrite foldl_delete_lookup. apply option_eq. intros x.
  destruct (table (default [] (get_changes new old).1) !! i) as [y|] eqn:E.
  - apply table_lookup in E as [[Hy _]%get_changes_elem <-]; [|done].
    rewrite table_lookup by done. split; [intros [= <-]; done|]. intros [Hx He]. f_equal.
    by apply Hn.
  - assert (forall z, z ∈ new -> change_id z = i -> z ∈ old) as Hkeep.
    { intros z Hz Hi. apply dec_stable. intros Hzo.
      assert (table (default [] (get_changes new old).1) !! i = Some z); [|congruence].
      apply table_lookup; [done|]. split; [|done]. by apply get_changes_elem. }
    destruct (decide (i ∈ change_id <$> default [] (get_changes new old).2)) as [Hd|Hd].
    + apply list_elem_of_fmap in Hd as (z & -> & [Hz Hzn]%get_changes_elem).
      split; [done|]. rewrite table_lookup by done. intros [Hx He]. by destruct (Hzn x Hx).
    + rewrite !table_lookup by done. split.
      * intros [Hx He]. split; [|done]. apply dec_stable. intros Hxn. apply Hd.
        apply list_elem_of_fmap. exists x. split; [done|]. apply get_changes_elem. split; [done|].
        intros y Hy Hyx. assert (y ∈ old) by (apply Hkeep; congruence).
        assert (y = x) by (by apply Ho). by subst.
      * intros [Hx He]. split; [by apply Hkeep|done].
Qed.

End Change.
