(* ===== verification/DeviceIndex.v ===== *)
(** [iml-services/iml-device/src/lib.rs]: which hosts can reach a device, which
    Lustre targets are mounted where, and what of that is written to the
    database. A [HashMap] the code iterates over is the list of its bindings in
    iteration order; one it only looks into is a [gmap]. Paths come from JSON, so
    [to_string_lossy] is the identity. *)
From S2P Require Import Prelude RustStd Ordering DeviceTypes Samples Devices DeviceGraph GraphSpec Change.
From stdpp Require Import base gmap sets list strings.
From Stdlib Require Import ZArith Ascii.

Open Scope Z_scope.

Abbreviation Fqdn := string (only parsing).

(** * Client mounts *)

(** The file systems a host has mounted as a client, with their mount points:
    what [update_client_mounts] stores. *)
Definition client_fs (m : Mount) : option (string * string) :=
  fs ← splitn2 ":/" (dp_path (mt_source m)) !! 1%nat;
  Some (fs, mp_path (mt_target m)).

Definition client_mount_map (mounts : list Mount) : gmap string (list string) :=
  let mounts := List.filter (fun m => String.eqb (ft_name (mt_fs_type m)) "lustre") mounts in
  let mounts := List.filter
    (fun m => negb (existsb (String.eqb "ro") (str_split "," (mo_opts (mt_opts m))))) mounts in
  foldl (fun acc '(fs_name, mountpoint) =>
    <[fs_name := set_insert false mountpoint (default [] (acc !! fs_name))]> acc)
    ∅ (omap client_fs mounts).

Section DeviceIndex.
Context {L : LibZfs}.

(** * The device index *)

(** [DeviceMap]: for each id, the chains of ancestors it is found under. *)
Abbreviation DeviceMap := (list (DeviceId * list (list DeviceId))) (only parsing).

Definition id_starts (p : string) (i : DeviceId) : bool := starts_with p (did_str i).

(** The first chain that ends in an id with the prefix gives the parent. *)
Definition last_with_prefix (p : string) (item : list (list DeviceId)) : option DeviceId :=
  find_map (fun xs => x ← last xs; if id_starts p x then Some x else None) item.

Definition get_shared_parent (map : DeviceMap) (id : DeviceId) :
    option (DeviceId * list (list DeviceId)) :=
  item ← btree_get id map;
  if id_starts "lv_" id then
    vg ← last_with_prefix "vg_" item; ps ← btree_get vg map; Some (vg, ps)
  else if id_starts "dataset_" id then
    zpool ← last_with_prefix "zpool_" item; ps ← btree_get zpool map; Some (zpool, ps)
  else None.

Fixpoint build_device_map (device : Device) (map : DeviceMap) (path : list DeviceId) : DeviceMap :=
  match get_id device with
  | None => map
  | Some id =>
      let map := btree_insert id (set_insert false path (default [] (btree_get id map))) map in
      let parent_path := path ++ [id] in
      match device with
      | DRoot x => foldl (fun map d => build_device_map d map parent_path) map (ro_children x)
      | DScsiDevice x => foldl (fun map d => build_device_map d map parent_path) map (sd_children x)
      | DPartition x => foldl (fun map d => build_device_map d map parent_path) map (pa_children x)
      | DMdRaid x => foldl (fun map d => build_device_map d map parent_path) map (md_children x)
      | DMpath x => foldl (fun map d => build_device_map d map parent_path) map (mp_children x)
      | DVolumeGroup x => foldl (fun map d => build_device_map d map parent_path) map (vg_children x)
      | DLogicalVolume x => foldl (fun map d => build_device_map d map parent_path) map (lv_children x)
      | DZpool x => foldl (fun map d => build_device_map d map parent_path) map (zo_children x)
      | DDataset _ => map
      end
  end.

(** The hosts of [other] that have every one of the parents. *)
Definition hosts_with (other : list (Fqdn * DeviceMap)) (parents : list (list DeviceId)) :
    list Fqdn :=
  let parent_ids := omap last parents in
  (List.filter (fun '(_, map) =>
     forallb (fun p => bool_decide (is_Some (btree_get p map))) parent_ids) other).*1.

(** The matches one device adds, in front of the earlier ones. *)
Definition share_device (map : DeviceMap) (other : list (Fqdn * DeviceMap))
    (matches : list (Fqdn * DeviceId * list (list DeviceId)))
    (e : DeviceId * list (list DeviceId)) : list (Fqdn * DeviceId * list (list DeviceId)) :=
  let '(existing_id, parents) := e in
  if id_starts "lv_" existing_id || id_starts "dataset_" existing_id then
    match get_shared_parent map existing_id with
    | Some (shared_id, shared_parents) =>
        (hosts_with other shared_parents ≫= (fun fqdn =>
           [(fqdn, shared_id, shared_parents); (fqdn, existing_id, parents)])) ++ matches
    | None => matches
    end
  else
    ((fun fqdn => (fqdn, existing_id, parents)) <$> hosts_with other parents) ++ matches.

Definition add_shared_storage (map : DeviceMap) (other : list (Fqdn * DeviceMap)) :
    list (Fqdn * DeviceId * list (list DeviceId)) :=
  let xs := List.filter (fun '(device_id, _) =>
    id_starts "lv_" device_id || id_starts "dataset_" device_id || id_starts "mdraid_" device_id) map in
  foldl (share_device map other) [] xs.

(** [HashMap::get_mut] and the insertion, on the list of bindings. *)
Definition insert_shared (index : list (Fqdn * DeviceMap))
    (s : Fqdn * DeviceId * list (list DeviceId)) : list (Fqdn * DeviceMap) :=
  let '(fqdn, device_id, paths) := s in
  (fun '(k, map) => if String.eqb k fqdn then (k, btree_insert device_id paths map) else (k, map))
    <$> index.

Definition build_device_index (x : list (Fqdn * Device)) : list (Fqdn * DeviceMap) :=
  let device_index := (fun '(fqdn, device) => (fqdn, build_device_map device [] [])) <$> x in
  let xs := device_index ≫= (fun '(fqdn, map) =>
    add_shared_storage map
      (List.filter (fun '(k, _) => negb (String.eqb fqdn k)) device_index)) in
  foldl insert_shared device_index xs.

(** * Targets *)

Inductive TargetFsType : Type := Zfs | Ldiskfs.

Record Target : Type := MkTarget {
  tg_state : string;
  tg_name : string;
  tg_dev_path : option string;
  tg_active_host_id : option Z;
  tg_host_ids : list Z;
  tg_filesystems : list string;
  tg_uuid : string;
  tg_mount_path : option string;
  tg_fs_type : option TargetFsType;
}.

(** The targets a mount is for: fqdn, mount point, device, name, osd. *)
Definition mount_targets (e : Fqdn * Mount) :
    option (list (Fqdn * MountPoint * DevicePath * string * string)) :=
  let '(fqdn, x) := e in
  let opts := str_split "," (mo_opts (mt_opts x)) in
  let is_mgs := existsb (String.eqb "mgs") opts in
  svname ← List.find (starts_with "svname=") opts;
  svname ← str_split "=" svname !! 1%nat;
  osd ← List.find (starts_with "osd=") opts;
  osd ← str_split "=" osd !! 1%nat;
  let xs := [(fqdn, mt_target x, mt_source x, svname, osd)] in
  Some (if is_mgs then xs ++ [(fqdn, mt_target x, mt_source x, "MGS", osd)] else xs).

Definition target_filesystems (mgs_fs_cache : gmap Fqdn (list string)) (fqdn : Fqdn)
    (target : string) : list string :=
  if String.eqb target "MGS" then default [] (mgs_fs_cache !! fqdn)
  else match rsplitn2 "-" target !! 1%nat with Some x => [x] | None => [] end.

Definition osd_fs_type (osd : string) : option TargetFsType :=
  if contains "zfs" osd then Some Zfs
  else if contains "ldiskfs" osd then Some Ldiskfs
  else None.

Section FindTargets.
Context (x : gmap Fqdn Device) (host_map : gmap Fqdn Z)
  (device_index : list (Fqdn * DeviceMap)) (mgs_fs_cache : gmap Fqdn (list string)).

(** The hosts other than [fqdn] whose index has the device. *)
Definition other_hosts (fqdn : Fqdn) (dev_id : DeviceId) : list Z :=
  omap (fun '(k, map) => _ ← btree_get dev_id map; host_map !! k)
    (List.filter (fun '(k, _) => negb (String.eqb k fqdn)) device_index).

(** The device lookup, the hosts and the record of one entry. *)
Definition resolve_target (e : Fqdn * MountPoint * DevicePath * string * string) : option Target :=
  let '(fqdn, mntpnt, dev, target, osd) := e in
  dev_tree ← x !! fqdn;
  device ← find_device_by_devpath dev dev_tree;
  dev_id ← get_id device;
  fs_uuid ← get_fs_uuid device;
  let ys := other_hosts fqdn dev_id in
  host_id ← host_map !! fqdn;
  Some {| tg_state := "mounted"; tg_active_host_id := Some host_id; tg_host_ids := host_id :: ys;
          tg_dev_path := Some (dp_path dev);
          tg_filesystems := target_filesystems mgs_fs_cache fqdn target;
          tg_name := target; tg_uuid := fs_uuid; tg_mount_path := Some (mp_path mntpnt);
          tg_fs_type := osd_fs_type osd |}.

Definition target_key (t : Target) : string := tg_name t +:+ ":" +:+ tg_uuid t.

(** Of several mounts of one target the first with file systems is kept. *)
Definition keep_target (acc : gmap string Target) (t : Target) : gmap string Target :=
  match acc !! target_key t with
  | Some y => match tg_filesystems y with [] => <[target_key t := t]> acc | _ => acc end
  | None => <[target_key t := t]> acc
  end.

(** The lustre mounts of devices, not of remote file systems. *)
Definition target_mounts (mounts : list (Fqdn * list Mount)) : list (Fqdn * Mount) :=
  List.filter (fun '(_, m) => negb (contains_char "@" (dp_path (mt_source m))))
    (List.filter (fun '(_, m) => String.eqb (ft_name (mt_fs_type m)) "lustre")
       (mounts ≫= (fun '(k, ms) => (fun m => (k, m)) <$> ms))).

Definition resolved_targets (mounts : list (Fqdn * list Mount)) : list Target :=
  omap resolve_target (concat (omap mount_targets (target_mounts mounts))).

Definition find_targets (mounts : list (Fqdn * list Mount)) : list Target :=
  (map_to_list (foldl keep_target ∅ (resolved_targets mounts))).*2.

End FindTargets.

(** * Updates *)

Definition set_unmounted (t : Target) : Target :=
  {| tg_state := "unmounted"; tg_name := tg_name t; tg_dev_path := tg_dev_path t;
     tg_active_host_id := None; tg_host_ids := tg_host_ids t; tg_filesystems := tg_filesystems t;
     tg_uuid := tg_uuid t; tg_mount_path := tg_mount_path t; tg_fs_type := tg_fs_type t |}.

Definition build_updates (x : option (list Target) * option (list Target)) : list Target :=
  match x with
  | (Some up, Some del) => (set_unmounted <$> del) ++ up
  | (Some xs, None) => xs
  | (None, Some xs) => set_unmounted <$> xs
  | (None, None) => []
  end.

(** The derived [Ord] of [Target]. *)
#[export] Instance TargetFsType_keyed : Keyed TargetFsType :=
  fun t => KZ (match t with Zfs => 0 | Ldiskfs => 1 end).

#[export] Instance Target_keyed : Keyed Target := fun t =>
  KL [KS (tg_state t); KS (tg_name t); key_of (tg_dev_path t); key_of (tg_active_host_id t);
      key_of (tg_host_ids t); key_of (tg_filesystems t); KS (tg_uuid t); key_of (tg_mount_path t);
      key_of (tg_fs_type t)].

End DeviceIndex.
