(* ===== verification/IndexSpec.v ===== *)
(** What the device index and the target list promise: the index has a device for
    exactly the hosts that see it or could import it; every target comes from a
    mount and a device of its host and appears once; and the rows written bring
    the stored targets up to date. *)
From S2P Require Import Prelude RustStd Ordering DeviceTypes Samples Devices DeviceGraph GraphSpec.
From S2P Require Import Change DeviceIndex.
From stdpp Require Import base gmap sets list strings.
From Stdlib Require Import ZArith Ascii.

Open Scope Z_scope.

#[export] Instance DeviceId_key_inj : Inj (=) (=) (key_of (A := DeviceId)).
Proof. intros [x] [y] [= ->]. done. Qed.

Lemma list_key_inj {A} `{Keyed A} : Inj (=) (=) (key_of (A := A)) ->
  Inj (=) (=) (key_of (A := list A)).
Proof.
  intros Hi l1 l2. unfold key_of, list_keyed. intros [= E].
  by apply (inj (fmap key_of)) in E.
Qed.

Section IndexSpec.
Context {L : LibZfs}.
Implicit Types (d c e : Device) (path q : list DeviceId) (map : list (DeviceId * list (list DeviceId))).

(** ** One host *)

(** [chain d q e]: [e] is [d] or below it, [q] are the ids of the devices from [d]
    down to the parent of [e]; they all have one. *)
Inductive chain : Device -> list DeviceId -> Device -> Prop :=
| chain_self d : chain d [] d
| chain_kid d i c q e : get_id d = Some i -> c ∈ kids d -> chain c q e -> chain d (i :: q) e.

Definition chains_of map (id : DeviceId) : list (list DeviceId) := default [] (btree_get id map).

Lemma build_device_map_step d map path :
  build_device_map d map path =
  match get_id d with
  | None => map
  | Some id =>
      foldl (fun map c => build_device_map c map (path ++ [id]))
        (btree_insert id (set_insert false path (chains_of map id)) map) (kids d)
  end.
Proof. by destruct d. Qed.

Lemma chains_of_insert map id path id' p :
  btree_wf map ->
  p ∈ chains_of (btree_insert id (set_insert false path (chains_of map id)) map) id' <->
  p ∈ chains_of map id' \/ (id' = id /\ p = path).
Proof.
  intros Hw. unfold chains_of at 1. rewrite btree_get_insert by done.
  destruct (eqvb id' id) eqn:E; simpl.
  - apply eqvb_spec in E. apply (inj key_of) in E as ->. split.
    + intros [->|?]%elem_of_set_insert; auto.
    + intros Hp. assert (key_of p ∈ (key_of <$> set_insert false path (chains_of map id)))
        as (p' & Hk & Hp')%list_elem_of_fmap.
      { apply set_insert_keys. destruct Hp as [Hp|[_ ->]]; [right; by apply list_elem_of_fmap_2|by left]. }
      apply (list_key_inj _) in Hk. by subst.
  - fold (chains_of map id'). split; [auto|]. intros [?|[-> _]]; [done|].
    assert (eqvb id id = true) by (by apply eqvb_spec). congruence.
Qed.

Lemma build_device_map_chains d : forall map path, btree_wf map ->
  btree_wf (build_device_map d map path) /\
  forall id p, p ∈ chains_of (build_device_map d map path) id <->
    p ∈ chains_of map id \/ exists q e, chain d q e /\ get_id e = Some id /\ p = path ++ q.
Proof.
  induction d as [d IH] using Device_ind'. intros map path Hw. rewrite build_device_map_step.
  destruct (get_id d) as [i|] eqn:Ei.
  2: { split; [done|]. intros id p. split; [auto|]. intros [?|(q & e & Hc & He & _)]; [done|].
    destruct Hc; congruence. }
  assert (btree_wf (btree_insert i (set_insert false path (chains_of map i)) map)) as Hw1
    by (by apply btree_insert_wf).
  assert (forall ks m, Forall (fun c => forall map path, btree_wf map ->
      btree_wf (build_device_map c map path) /\
      forall id p, p ∈ chains_of (build_device_map c map path) id <->
        p ∈ chains_of map id \/ exists q e, chain c q e /\ get_id e = Some id /\ p = path ++ q) ks ->
    btree_wf m ->
    btree_wf (foldl (fun m c => build_device_map c m (path ++ [i])) m ks) /\
    forall id p, p ∈ chains_of (foldl (fun m c => build_device_map c m (path ++ [i])) m ks) id <->
      p ∈ chains_of m id \/ exists c q e, c ∈ ks /\ chain c q e /\ get_id e = Some id /\ p = path ++ i :: q)
    as Hks.
  { clear. induction ks as [|c ks IHk]; intros m Hf Hm; simpl.
    - split; [done|]. intros id p. split; [auto|]. intros [?|(c & ? & ? & Hc & _)]; [done|inversion Hc].
    - apply Forall_cons in Hf as [Hc Hf]. destruct (Hc m (path ++ [i]) Hm) as [Hm1 Hs1].
      destruct (IHk _ Hf Hm1) as [Hm2 Hs2]. split; [done|]. intros id p. rewrite Hs2, Hs1.
      setoid_rewrite elem_of_cons. split.
      + intros [[?|(q & e & ? & ? & ->)]|(c' & q & e & ? & ? & ? & ->)]; [auto| |]; right.
        * exists c, q, e. rewrite <-app_assoc. auto.
        * exists c', q, e. auto.
      + intros [?|(c' & q & e & [->|?] & ? & ? & ->)]; [auto| |].
        * left. right. exists q, e. by rewrite <-app_assoc.
        * right. exists c', q, e. auto. }
  destruct (Hks (kids d) _ IH Hw1) as [Hw2 Hs]. split; [done|]. intros id p.
  rewrite Hs, chains_of_insert by done. split.
  - intros [[?|[-> ->]]|(c & q & e & ? & ? & ? & ->)]; [auto| |]; right.
    + exists [], d. rewrite app_nil_r. split_and!; [constructor|done|done].
    + exists (i :: q), e. split_and!; [by econstructor|done|done].
  - intros [?|(q & e & Hc & He & ->)]; [auto|]. destruct Hc as [|d i' c q e Hi Hin Hc].
    + left. right. simplify_eq. by rewrite app_nil_r.
    + right. simplify_eq. eauto 10.
Qed.

(** The map of a host has, for every device id, exactly the chains of ancestor
    ids under which a device with that id hangs in the host's tree; devices
    without an id are left out with all that is below them. *)
Theorem build_device_map_spec d id p :
  p ∈ chains_of (build_device_map d [] []) id <-> exists e, chain d p e /\ get_id e = Some id.
Proof.
  destruct (build_device_map_chains d [] []) as [_ Hs]; [constructor|]. rewrite Hs. split.
  - intros [Hp|(q & e & ? & ? & ->)]; [inversion Hp|eauto].
  - intros (e & ? & ?). right. eauto.
Qed.

(** ** Several hosts *)

Definition has_id map (id : DeviceId) : Prop := is_Some (btree_get id map).

(** All direct parents of a device are known. *)
Definition has_parents map (parents : list (list DeviceId)) : Prop :=
  forall q i, q ∈ parents -> last q = Some i -> has_id map i.

(** [shareable map tmap id]: what the two device maps say about it: an MD array
    all of whose members [tmap] has, or a volume (a dataset) with its group
    (pool), all of whose devices it has. *)
Inductive shareable map tmap : DeviceId -> Prop :=
| shareable_md id parents :
    (id, parents) ∈ map -> id_starts "mdraid_" id = true ->
    id_starts "lv_" id = false -> id_starts "dataset_" id = false ->
    has_parents tmap parents -> shareable map tmap id
| shareable_part id parents sid sparents :
    (id, parents) ∈ map -> id_starts "lv_" id = true \/ id_starts "dataset_" id = true ->
    get_shared_parent map id = Some (sid, sparents) -> has_parents tmap sparents ->
    shareable map tmap id
| shareable_whole id parents sid sparents :
    (id, parents) ∈ map -> id_starts "lv_" id = true \/ id_starts "dataset_" id = true ->
    get_shared_parent map id = Some (sid, sparents) -> has_parents tmap sparents ->
    shareable map tmap sid.

Lemma hosts_with_elem other parents t :
  t ∈ hosts_with other parents <-> exists tmap, (t, tmap) ∈ other /\ has_parents tmap parents.
Proof.
  unfold hosts_with. rewrite list_elem_of_fmap.
  assert (forall tmap, forallb (fun p => bool_decide (is_Some (btree_get p tmap))) (omap last parents) = true
    <-> has_parents tmap parents) as Hp.
  { intros tmap. rewrite forallb_forall. setoid_rewrite <-list_elem_of_In.
    setoid_rewrite bool_decide_eq_true. setoid_rewrite list_elem_of_omap. unfold has_parents, has_id.
    naive_solver. }
  split.
  - intros ([t' tmap] & -> & [Hin Hq]%elem_of_filter_fn). exists tmap. by rewrite <-Hp.
  - intros (tmap & Hin & Hq). exists (t, tmap). split; [done|]. apply elem_of_filter_fn.
    split; [done|]. by apply Hp.
Qed.

(** The ids one device of [map] adds to the host [t]. *)
Definition adds map other (t : string) (id : DeviceId) (x : DeviceId * list (list DeviceId)) : Prop :=
  if id_starts "lv_" x.1 || id_starts "dataset_" x.1 then
    exists sid sps, get_shared_parent map x.1 = Some (sid, sps) /\ t ∈ hosts_with other sps /\
      (id = sid \/ id = x.1)
  else t ∈ hosts_with other x.2 /\ id = x.1.

Lemma share_device_elem map other acc t id x :
  (exists ps, (t, id, ps) ∈ share_device map other acc x) <->
  (exists ps, (t, id, ps) ∈ acc) \/ adds map other t id x.
Proof.
  destruct x as [k ps]. unfold share_device, adds. cbn [fst snd].
  destruct (id_starts "lv_" k || id_starts "dataset_" k).
  - destruct (get_shared_parent map k) as [[sid sps]|].
    + setoid_rewrite elem_of_app. setoid_rewrite list_elem_of_bind.
      setoid_rewrite elem_of_cons. setoid_rewrite list_elem_of_singleton. split.
      * intros (ps' & [(h & [[= -> -> ->]|[= -> -> ->]] & Hh)|?]); [right|right|eauto];
          exists sid, sps; auto.
      * intros [(ps' & ?)|(? & ? & [= <- <-] & Hh & [->| ->])]; [eauto| |].
        -- exists sps. left. exists t. auto.
        -- exists ps. left. exists t. auto.
    + split; [by left|]. intros [?|(? & ? & ? & _)]; [done|congruence].
  - setoid_rewrite elem_of_app. split.
    + intros (ps' & [(h & [= -> -> ->] & Hh)%list_elem_of_fmap|?]); [by right|eauto].
    + intros [(ps' & ?)|[Hh ->]]; [eauto|]. exists ps. left. apply list_elem_of_fmap. eauto.
Qed.

Lemma foldl_share_device map other l acc t id :
  (exists ps, (t, id, ps) ∈ foldl (share_device map other) acc l) <->
  (exists ps, (t, id, ps) ∈ acc) \/ exists x, x ∈ l /\ adds map other t id x.
Proof.
  revert acc. induction l as [|x l IH]; intros acc; simpl.
  - split; [auto|]. intros [?|(? & Hx & _)]; [done|inversion Hx].
  - rewrite IH, share_device_elem. setoid_rewrite elem_of_cons. naive_solver.
Qed.

(** The ids that [add_shared_storage] adds to a host. *)
Lemma add_shared_storage_elem map other t id :
  (exists ps, (t, id, ps) ∈ add_shared_storage map other) <->
  exists tmap, (t, tmap) ∈ other /\ shareable map tmap id.
Proof.
  unfold add_shared_storage. rewrite foldl_share_device. unfold adds. split.
  - intros [[ps Hx]|([k ps] & [Hin Hf]%elem_of_filter_fn & Hc)]; [inversion Hx|]. cbn [fst snd] in Hc.
    destruct (id_starts "lv_" k || id_starts "dataset_" k) eqn:E.
    + apply orb_true_iff in E.
      destruct Hc as (sid & sps & Hg & (tmap & Ht & Hp)%hosts_with_elem & [->| ->]);
        exists tmap; (split; [done|]); [eapply shareable_whole|eapply shareable_part]; eauto.
    + apply orb_false_iff in E as [El Ed].
      destruct Hc as [(tmap & Ht & Hp)%hosts_with_elem ->]. exists tmap. split; [done|].
      by eapply shareable_md.
  - intros (tmap & Ht & Hi). right. destruct Hi as [id ps Hin H1 H2 H3 Hp|id ps sid sps Hin Hs Hg Hp
      |id ps sid sps Hin Hs Hg Hp]; exists (id, ps); cbn [fst snd].
    + split; [apply elem_of_filter_fn; by rewrite H1, H2, H3|]. rewrite H2, H3. simpl.
      split; [|done]. apply hosts_with_elem. eauto.
    + apply orb_true_iff in Hs. split; [apply elem_of_filter_fn; by rewrite Hs|]. rewrite Hs.
      exists sid, sps. split_and!; [done|apply hosts_with_elem; eauto|auto].
    + apply orb_true_iff in Hs. split; [apply elem_of_filter_fn; by rewrite Hs|]. rewrite Hs.
      exists sid, sps. split_and!; [done|apply hosts_with_elem; eauto|auto].
Qed.

(** A host of the index has the id. *)
Definition index_has (index : list (string * list (DeviceId * list (list DeviceId)))) (t : string)
    (id : DeviceId) : Prop :=
  exists map, (t, map) ∈ index /\ has_id map id.

Lemma insert_shared_has index s t id :
  index_has (insert_shared index s) t id <->
  index_has index t id \/ ((exists map, (t, map) ∈ index) /\ s.1 = (t, id)).
Proof.
  destruct s as [[h i] ps]. unfold index_has, insert_shared, has_id.
  setoid_rewrite list_elem_of_fmap. setoid_rewrite btree_get_is_Some. split.
  - intros (map & ([k m] & Hk & Hin) & Hi). destruct (String.eqb_spec k h) as [->|]; simplify_eq.
    + apply btree_insert_keys in Hi as [Hi|Hi]; [|eauto]. right. split; [eauto|].
      apply (inj key_of) in Hi. by subst.
    + eauto.
  - intros [(m & Hin & Hi)|[(m & Hin) [= -> ->]]].
    + destruct (String.eqb_spec t h) as [->|Hn].
      * exists (btree_insert i ps m). split; [exists (h, m); by rewrite String.eqb_refl|].
        apply btree_insert_keys. by right.
      * exists m. split; [|done]. exists (t, m). by destruct (String.eqb_spec t h).
    + exists (btree_insert id ps m). split; [exists (t, m); by rewrite String.eqb_refl|].
      apply btree_insert_keys. by left.
Qed.

Lemma insert_shared_hosts index s t :
  (exists map, (t, map) ∈ insert_shared index s) <-> exists map, (t, map) ∈ index.
Proof.
  destruct s as [[h i] ps]. unfold insert_shared. setoid_rewrite list_elem_of_fmap. split.
  - intros (m & [k m'] & Hk & Hin). destruct (String.eqb k h); simplify_eq; eauto.
  - intros (m & Hin). destruct (String.eqb t h) eqn:E; eexists _, (t, m); rewrite E; eauto.
Qed.

Lemma foldl_insert_shared xs index t id :
  index_has (foldl insert_shared index xs) t id <->
  index_has index t id \/ ((exists map, (t, map) ∈ index) /\ exists ps, (t, id, ps) ∈ xs).
Proof.
  revert index. induction xs as [|s xs IH]; intros index; simpl.
  - split; [auto|]. intros [?|[_ (ps & Hx)]]; [done|inversion Hx].
  - rewrite IH, insert_shared_has, insert_shared_hosts. setoid_rewrite elem_of_cons.
    destruct s as [[h i] ps0]. naive_solver.
Qed.

Lemma build_device_index_maps x t id :
  index_has (build_device_index x) t id <->
  exists d, (t, d) ∈ x /\
    (has_id (build_device_map d [] []) id \/
     exists f e d', (f, e) ∈ x /\ f <> t /\ (t, d') ∈ x /\
       shareable (build_device_map e [] []) (build_device_map d' [] []) id).
Proof.
  unfold build_device_index. set (idx := _ <$> x). rewrite foldl_insert_shared.
  assert (forall h m, (h, m) ∈ idx <-> exists d, (h, d) ∈ x /\ m = build_device_map d [] []) as Hidx.
  { intros h m. unfold idx. rewrite list_elem_of_fmap. split.
    - intros ([h' d] & [= -> ->] & Hin). eauto.
    - intros (d & Hin & ->). by exists (h, d). }
  assert ((exists ps, (t, id, ps) ∈ idx ≫= (fun '(fqdn, map) => add_shared_storage map
      (List.filter (fun '(k, _) => negb (String.eqb fqdn k)) idx))) <->
    exists f fm tm, (f, fm) ∈ idx /\ f <> t /\ (t, tm) ∈ idx /\ shareable fm tm id) as Hsh.
  { setoid_rewrite list_elem_of_bind. split.
    - intros (ps & [f fm] & Hps & Hf).
      assert (exists ps, (t, id, ps) ∈ add_shared_storage fm
        (List.filter (fun '(k, _) => negb (String.eqb f k)) idx)) as Hex by eauto.
      apply add_shared_storage_elem in Hex as (tm & [Ht Hn]%elem_of_filter_fn & Hi).
      exists f, fm, tm. split_and!; [done| |done|done]. by destruct (String.eqb_spec f t).
    - intros (f & fm & tm & Hf & Hn & Ht & Hi).
      destruct (proj2 (add_shared_storage_elem fm (List.filter (fun '(k, _) => negb (String.eqb f k)) idx) t id))
        as [ps Hps].
      { exists tm. split; [|done]. apply elem_of_filter_fn. split; [done|].
        by destruct (String.eqb_spec f t). }
      exists ps, (f, fm). done. }
  rewrite Hsh. unfold index_has. setoid_rewrite Hidx. split.
  - intros [(m & (d & Hd & ->) & Hi)|[(m & d & Hd & ->) (f & fm & tm & (e & He & ->) & Hn & (d' & Hd' & ->) & Hi)]].
    + exists d. auto.
    + exists d. split; [done|]. right. exists f, e, d'. auto.
  - intros (d & Hd & [Hi|(f & e & d' & He & Hn & Hd' & Hi)]).
    + left. exists (build_device_map d [] []). eauto.
    + right. split; [eauto|]. exists f, (build_device_map e [] []), (build_device_map d' [] []).
      split_and!; eauto.
Qed.

(** ** What a host sees, and could see *)

(** The tree of a host shows the id: a device has it, and every device above that
    one has an id as well. *)
Definition sees d (id : DeviceId) : Prop := exists q e, chain d q e /\ get_id e = Some id.

(** [i] is the id of a device that a device with the id [id] hangs under. *)
Definition parent_id d (id i : DeviceId) : Prop :=
  exists q e, chain d (q ++ [i]) e /\ get_id e = Some id.

(** The volume group of a logical volume, the pool of a dataset. *)
Definition owner d (id s : DeviceId) : Prop :=
  parent_id d id s /\
  ((id_starts "lv_" id = true /\ id_starts "vg_" s = true) \/
   (id_starts "dataset_" id = true /\ id_starts "zpool_" s = true)).

(** A host with the tree [d] has every device that [id] is made of in [e]. *)
Definition sees_parents e d (id : DeviceId) : Prop := forall i, parent_id e id i -> sees d i.

(** [importable e d id]: a host with the tree [d] could import the device [id] of a
    host with the tree [e]: an MD array all of whose members it has; a logical
    volume or a dataset, and the volume group or pool itself, when it has all
    devices the group or pool lies on. *)
Inductive importable e d : DeviceId -> Prop :=
| importable_md id :
    sees e id -> id_starts "mdraid_" id = true -> sees_parents e d id -> importable e d id
| importable_part id s : owner e id s -> sees_parents e d s -> importable e d id
| importable_whole id s : owner e id s -> sees_parents e d s -> importable e d s.

(** A volume belongs to one group, a dataset to one pool. *)
Definition one_owner d : Prop := forall id s s', owner d id s -> owner d id s' -> s = s'.

Lemma build_device_map_wf d : btree_wf (build_device_map d [] []).
Proof. apply build_device_map_chains. constructor. Qed.

(** No device of a map is without chains. *)
Definition full map : Prop := forall id ps, btree_get id map = Some ps -> ps <> [].

Lemma build_device_map_full d : forall map path, btree_wf map -> full map ->
  full (build_device_map d map path).
Proof.
  induction d as [d IH] using Device_ind'. intros map path Hw Hf. rewrite build_device_map_step.
  destruct (get_id d) as [i|]; [|done].
  assert (btree_wf (btree_insert i (set_insert false path (chains_of map i)) map)) as Hw1
    by (by apply btree_insert_wf).
  assert (full (btree_insert i (set_insert false path (chains_of map i)) map)) as Hf1.
  { intros id ps. rewrite btree_get_insert by done. destruct (eqvb id i); [|apply Hf].
    intros [= <-]. apply set_insert_ne. }
  revert IH Hw1 Hf1. generalize (btree_insert i (set_insert false path (chains_of map i)) map).
  generalize (kids d) as ks. clear. induction ks as [|c ks IHk]; intros m Hks Hw Hf; simpl; [done|].
  apply Forall_cons in Hks as [Hc Hks]. apply IHk; [done| |by apply Hc].
  by apply build_device_map_chains.
Qed.

Lemma map_get d id ps :
  btree_get id (build_device_map d [] []) = Some ps ->
  forall p, p ∈ ps <-> exists e, chain d p e /\ get_id e = Some id.
Proof. intros Hg p. rewrite <-build_device_map_spec. unfold chains_of. by rewrite Hg. Qed.

Lemma map_has_id d id : has_id (build_device_map d [] []) id <-> sees d id.
Proof.
  split.
  - intros [ps Hg]. assert (ps <> []) as Hne.
    { apply (build_device_map_full d [] []) in Hg; [done|constructor|by intros ? ?]. }
    destruct ps as [|p ps]; [done|]. exists p. apply (map_get d id _ Hg). left.
  - intros (p & e & Hc & He). unfold has_id.
    destruct (btree_get id (build_device_map d [] [])) eqn:Hg; [by eexists|].
    assert (p ∈ chains_of (build_device_map d [] []) id) as Hp by (apply build_device_map_spec; eauto).
    unfold chains_of in Hp. rewrite Hg in Hp. inversion Hp.
Qed.

Lemma map_has_parents e d id ps :
  btree_get id (build_device_map e [] []) = Some ps ->
  has_parents (build_device_map d [] []) ps <-> sees_parents e d id.
Proof.
  intros Hg. unfold has_parents, sees_parents. setoid_rewrite map_has_id. split.
  - intros Hp i (q & k & Hc & Hk). apply (Hp (q ++ [i])); [|by rewrite last_snoc].
    apply (map_get e id ps Hg). eauto.
  - intros Hp p i Hin [q ->]%last_Some. apply Hp. apply (map_get e id ps Hg) in Hin as (k & ? & ?).
    by exists q, k.
Qed.

Lemma map_entry d id ps :
  (id, ps) ∈ build_device_map d [] [] <-> btree_get id (build_device_map d [] []) = Some ps.
Proof.
  split.
  - intros Hin. by apply btree_elem_get; [apply build_device_map_wf|].
  - intros (k & Hin & Hk)%btree_get_elem. apply (inj key_of) in Hk. by subst.
Qed.

(** A parent is itself shown. *)
Lemma chain_parent d q i e : chain d (q ++ [i]) e -> exists c, chain d q c /\ get_id c = Some i.
Proof.
  revert d. induction q as [|j q IH]; intros d Hc; inversion Hc; subst.
  - exists d. split; [constructor|done].
  - destruct (IH c) as (k & Hk & Hi); [done|]. exists k. split; [by econstructor|done].
Qed.

Lemma parent_seen d id i : parent_id d id i -> sees d i.
Proof. intros (q & e & (c & ? & ?)%chain_parent & _). by exists q, c. Qed.

Lemma last_with_prefix_parent d id ps p s :
  btree_get id (build_device_map d [] []) = Some ps ->
  last_with_prefix p ps = Some s -> parent_id d id s /\ id_starts p s = true.
Proof.
  intros Hg (xs & Hxs & Hs)%find_map_Some. apply bind_Some in Hs as (y & Hy & Hs).
  destruct (id_starts p y) eqn:E; [|done]. injection Hs as ->. split; [|done].
  apply last_Some in Hy as [q ->]. apply (map_get d id ps Hg) in Hxs as (e & ? & ?). by exists q, e.
Qed.

Lemma last_with_prefix_total d id ps p s :
  btree_get id (build_device_map d [] []) = Some ps ->
  parent_id d id s -> id_starts p s = true -> is_Some (last_with_prefix p ps).
Proof.
  intros Hg (q & e & Hc & He) Hp. unfold last_with_prefix. destruct (find_map _ ps) eqn:E; [by eexists|].
  apply find_map_None with (x := q ++ [s]) in E; [|apply (map_get d id ps Hg); eauto].
  rewrite last_snoc in E. simpl in E. by rewrite Hp in E.
Qed.

Lemma starts_exclusive id : id_starts "lv_" id = true -> id_starts "dataset_" id = false.
Proof. destruct id as [[|a s]]; [done|]. unfold id_starts, starts_with. cbn. repeat case_match; subst; try done; congruence. Qed.

Lemma starts_md id : id_starts "mdraid_" id = true ->
  id_starts "lv_" id = false /\ id_starts "dataset_" id = false.
Proof. destruct id as [[|a s]]; [done|]. unfold id_starts, starts_with. cbn. repeat case_match; subst; try done; congruence. Qed.

(** [get_shared_parent] finds the owner of a device that has one only. *)
Lemma get_shared_parent_owner d id s ps : one_owner d ->
  get_shared_parent (build_device_map d [] []) id = Some (s, ps) <->
  owner d id s /\ btree_get s (build_device_map d [] []) = Some ps.
Proof.
  intros Ho. unfold get_shared_parent. split.
  - intros (item & Hi & H)%bind_Some.
    destruct (id_starts "lv_" id) eqn:El; [|destruct (id_starts "dataset_" id) eqn:Ed; [|done]];
      apply bind_Some in H as (v & Hv & H); apply bind_Some in H as (ps' & Hp & [= -> ->]);
      destruct (last_with_prefix_parent d id item _ s Hi Hv); (split; [|done]);
      (split; [done|]); auto.
  - intros [Ho1 Hs]. pose proof Ho1 as [Hp Hk].
    assert (sees d id) as [item Hi]%map_has_id.
    { destruct Hp as (q & e & ? & ?). by exists (q ++ [s]), e. }
    rewrite Hi. simpl. destruct Hk as [[Hl Hv]|[Hd Hv]].
    + rewrite Hl. destruct (last_with_prefix_total d id item _ s Hi Hp Hv) as [s' Hs'].
      destruct (last_with_prefix_parent d id item _ s' Hi Hs').
      assert (s' = s) as -> by (apply (Ho id); [split; auto|done]). rewrite Hs'. simpl. by rewrite Hs.
    + destruct (id_starts "lv_" id) eqn:El; [by rewrite (starts_exclusive _ El) in Hd|]. rewrite Hd.
      destruct (last_with_prefix_total d id item _ s Hi Hp Hv) as [s' Hs'].
      destruct (last_with_prefix_parent d id item _ s' Hi Hs').
      assert (s' = s) as -> by (apply (Ho id); [split; auto|done]). rewrite Hs'. simpl. by rewrite Hs.
Qed.

Lemma owner_entry d id s : owner d id s ->
  (exists ps, (id, ps) ∈ build_device_map d [] []) /\ (exists ps, btree_get s (build_device_map d [] []) = Some ps) /\
  (id_starts "lv_" id = true \/ id_starts "dataset_" id = true).
Proof.
  intros [Hp Hk]. split_and!; [|apply (map_has_id d s); by eapply parent_seen|naive_solver].
  setoid_rewrite map_entry. apply (map_has_id d id). destruct Hp as (q & e & ? & ?). by exists (q ++ [s]), e.
Qed.

Lemma shareable_importable e d id : one_owner e ->
  shareable (build_device_map e [] []) (build_device_map d [] []) id <-> importable e d id.
Proof.
  intros Ho. split.
  - intros [i ps Hin Hm _ _ Hp|i ps s sps _ _ (Hs & Hg)%get_shared_parent_owner Hp
           |i ps s sps _ _ (Hs & Hg)%get_shared_parent_owner Hp]; [| |done| |done].
    + apply map_entry in Hin. apply (map_has_parents e d i ps Hin) in Hp.
      apply importable_md; [|done..]. apply map_has_id. by exists ps.
    + eapply importable_part; [done|]. by apply (map_has_parents e d s sps Hg).
    + eapply importable_whole; [done|]. by apply (map_has_parents e d s sps Hg).
  - intros [i [ps Hg]%map_has_id Hm Hp|i s Hs Hp|i s Hs Hp].
    + destruct (starts_md i Hm). apply (shareable_md _ _ i ps); [by apply map_entry|done..|].
      by apply (map_has_parents e d i ps Hg).
    + destruct (owner_entry e i s Hs) as ((ps & Hin) & (sps & Hg) & Hk).
      apply (shareable_part _ _ i ps s sps); [done..| |by apply (map_has_parents e d s sps Hg)].
      by apply get_shared_parent_owner.
    + destruct (owner_entry e i s Hs) as ((ps & Hin) & (sps & Hg) & Hk).
      apply (shareable_whole _ _ i ps s sps); [done..| |by apply (map_has_parents e d s sps Hg)].
      by apply get_shared_parent_owner.
Qed.

(** C25: where every logical volume has one volume group and every dataset one
    pool, the index has a device id for a host exactly when the host's own tree
    shows it, or the tree of another host does and the first host could import it,
    because its tree shows all devices that the MD array, the volume group or the
    pool lies on. A tree shows a device when it and every device above it have an
    id: what hangs under a device without one (a disk without a serial) is left
    out, on both sides. *)
Theorem build_device_index_spec x t id : (forall f e, (f, e) ∈ x -> one_owner e) ->
  index_has (build_device_index x) t id <->
  exists d, (t, d) ∈ x /\
    (sees d id \/
     exists f e d', (f, e) ∈ x /\ f <> t /\ (t, d') ∈ x /\ importable e d' id).
Proof.
  intros Ho. rewrite build_device_index_maps. setoid_rewrite map_has_id. split.
  - intros (d & Hd & [?|(f & e & d' & He & Hf & Hd' & Hs)]); exists d; (split; [done|]); [auto|].
    right. exists f, e, d'. split_and!; [done..|]. apply shareable_importable in Hs; eauto.
  - intros (d & Hd & [?|(f & e & d' & He & Hf & Hd' & Hs)]); exists d; (split; [done|]); [auto|].
    right. exists f, e, d'. split_and!; [done..|]. apply shareable_importable; eauto.
Qed.

End IndexSpec.

(** ** Targets *)

Section TargetSpec.
Context {L : LibZfs}.
Context (x : gmap string Device) (host_map : gmap string Z)
  (index : list (string * list (DeviceId * list (list DeviceId))))
  (mgs_fs_cache : gmap string (list string)).
Implicit Types (t r : Target) (mounts : list (string * list Mount)).

(** The options of a mount. *)
Definition opts_of (m : Mount) : list string := str_split "," (mo_opts (mt_opts m)).

(** [first_value k os v]: the first of the options [os] that starts with [k] has
    the value [v] after its [=]. *)
Definition first_value (k : string) (os : list string) (v : string) : Prop :=
  exists pre o post, os = pre ++ o :: post /\ (forall o', o' ∈ pre -> starts_with k o' = false) /\
    starts_with k o = true /\ str_split "=" o !! 1%nat = Some v.

(** [serves m n]: the mount is one of the target [n]: a Lustre mount of a local
    device with an [osd=] option, for the target its [svname=] names and, with the
    option [mgs], for the MGS on the same device. *)
Definition serves (m : Mount) (n : string) : Prop :=
  ft_name (mt_fs_type m) = "lustre" /\ contains_char "@" (dp_path (mt_source m)) = false /\
  (exists osd, first_value "osd=" (opts_of m) osd) /\
  exists svname, first_value "svname=" (opts_of m) svname /\
    (n = svname \/ (n = "MGS" /\ "mgs" ∈ opts_of m)).

(** The host [h] has the device of the mount: its tree has devices with that path,
    and those have the id [id] and the file system [uuid]. *)
Definition backed (h : string) (m : Mount) (id : DeviceId) (uuid : string) : Prop :=
  exists tree d, x !! h = Some tree /\ below tree d /\ has_devpath (mt_source m) d = true /\
    forall e, below tree e -> has_devpath (mt_source m) e = true ->
      get_id e = Some id /\ get_fs_uuid e = Some uuid.

(** What a target says of a mount [m] of the host [h]. *)
Record target_of (h : string) (m : Mount) t : Prop := {
  to_serves : serves m (tg_name t);
  to_state : tg_state t = "mounted";
  to_paths : tg_dev_path t = Some (dp_path (mt_source m)) /\
    tg_mount_path t = Some (mp_path (mt_target m));
  to_mgs : tg_name t = "MGS" -> tg_filesystems t = default [] (mgs_fs_cache !! h);
  to_fs : forall fs rest, tg_name t = fs +:+ "-" +:+ rest -> contains_char "-" rest = false ->
    tg_filesystems t = [fs];
  to_type : exists osd, first_value "osd=" (opts_of m) osd /\
    (tg_fs_type t = Some Zfs <-> contains "zfs" osd = true) /\
    (tg_fs_type t = Some Ldiskfs <-> contains "zfs" osd = false /\ contains "ldiskfs" osd = true);
  to_device : exists tree d id, x !! h = Some tree /\ below tree d /\
    has_devpath (mt_source m) d = true /\ get_id d = Some id /\ get_fs_uuid d = Some (tg_uuid t) /\
    exists i, host_map !! h = Some i /\ tg_active_host_id t = Some i /\
      forall j, j ∈ tg_host_ids t <->
        j = i \/ exists k, k <> h /\ index_has index k id /\ host_map !! k = Some j;
}.

Lemma find_first_value k os o v :
  List.find (starts_with k) os = Some o -> str_split "=" o !! 1%nat = Some v -> first_value k os v.
Proof.
  intros Hf Hv. induction os as [|o' os IH]; simpl in *; [done|].
  destruct (starts_with k o') eqn:E.
  - injection Hf as ->. exists [], o, os. split_and!; [done| |done..]. intros ? Hi. inversion Hi.
  - destruct (IH Hf) as (pre & o2 & post & -> & Hp & ?). exists (o' :: pre), o2, post.
    split_and!; [done| |naive_solver..]. intros o3 [->|?]%elem_of_cons; auto.
Qed.

Lemma first_value_find k os v : first_value k os v ->
  exists o, List.find (starts_with k) os = Some o /\ str_split "=" o !! 1%nat = Some v.
Proof.
  intros (pre & o & post & -> & Hp & Ho & Hv). exists o. split; [|done].
  induction pre as [|o' pre IH]; simpl; [by rewrite Ho|].
  rewrite Hp by left. apply IH. intros o2 ?. apply Hp. by right.
Qed.

Lemma existsb_eqb_elem n os : existsb (String.eqb n) os = true <-> n ∈ os.
Proof.
  rewrite existsb_exists, list_elem_of_In. split; [|intros ?; exists n; by rewrite String.eqb_refl].
  intros (o & ? & ->%String.eqb_eq). done.
Qed.

(** The entries of a mount are the targets it serves. *)
Lemma mount_targets_serves h m e :
  ft_name (mt_fs_type m) = "lustre" -> contains_char "@" (dp_path (mt_source m)) = false ->
  (exists es, mount_targets (h, m) = Some es /\ e ∈ es) <->
  exists n osd, serves m n /\ first_value "osd=" (opts_of m) osd /\
    e = (h, mt_target m, mt_source m, n, osd).
Proof.
  intros Hl Ha. unfold mount_targets. fold (opts_of m). split.
  - intros (es & Hes & He).
    apply bind_Some in Hes as (o & Ho & Hes). apply bind_Some in Hes as (n & Hn & Hes).
    apply bind_Some in Hes as (o2 & Ho2 & Hes). apply bind_Some in Hes as (osd & Hosd & [= <-]).
    pose proof (find_first_value _ _ _ _ Ho Hn). pose proof (find_first_value _ _ _ _ Ho2 Hosd).
    assert (exists k, e = (h, mt_target m, mt_source m, k, osd) /\
      (k = n \/ (k = "MGS" /\ "mgs" ∈ opts_of m))) as (k & -> & Hk).
    { pose proof (existsb_eqb_elem "mgs" (opts_of m)). destruct (existsb _ _); set_solver. }
    exists k, osd. split_and!; [|done..]. split_and!; [done..|by eexists|]. exists n. auto.
  - intros (n & osd & (_ & _ & _ & sv & Hsv & Hn) & Hosd & ->).
    apply first_value_find in Hsv as (o & -> & Ho). apply first_value_find in Hosd as (o2 & -> & Ho2).
    cbn [mbind option_bind]. rewrite Ho. cbn [mbind option_bind]. rewrite Ho2.
    cbn [mbind option_bind]. eexists. split; [done|].
    destruct Hn as [->|[-> ->%existsb_eqb_elem]]; [|set_solver]. destruct (existsb _ _); set_solver.
Qed.

Lemma split_last_app c p q : contains_char c q = false ->
  split_last c (p +:+ String c q) = Some (p, q).
Proof.
  intros Hq. assert (split_last c q = None) as Hn.
  { induction q as [|a q IH]; [done|]. simpl in *. apply orb_false_iff in Hq as [Ha Hq].
    by rewrite IH, Ha. }
  induction p as [|a p IH]; simpl; [by rewrite Hn, Ascii.eqb_refl|]. by rewrite IH.
Qed.

Lemma other_hosts_elem h id j :
  j ∈ other_hosts host_map index h id <->
  exists k, k <> h /\ index_has index k id /\ host_map !! k = Some j.
Proof.
  unfold other_hosts. rewrite list_elem_of_omap. split.
  - intros ([k m] & [Hin Hk]%elem_of_filter_fn & Hj). apply bind_Some in Hj as (ps & Hps & Hj).
    exists k. split_and!; [by destruct (String.eqb_spec k h)| |done]. exists m. split; [done|]. by exists ps.
  - intros (k & Hk & (m & Hin & [ps Hps]) & Hj). exists (k, m). split.
    + apply elem_of_filter_fn. split; [done|]. by destruct (String.eqb_spec k h).
    + unfold has_id in *. by rewrite Hps.
Qed.

Lemma target_mounts_elem mounts h m :
  (h, m) ∈ target_mounts mounts <->
  (exists ms, (h, ms) ∈ mounts /\ m ∈ ms) /\ ft_name (mt_fs_type m) = "lustre" /\
  contains_char "@" (dp_path (mt_source m)) = false.
Proof.
  unfold target_mounts. rewrite !elem_of_filter_fn, negb_true_iff, String.eqb_eq, list_elem_of_bind.
  split.
  - intros [[([h' ms] & (m' & [= -> ->] & Hm)%list_elem_of_fmap & Hin) ?] ?]. eauto.
  - intros ((ms & Hin & Hm) & ? & ?). split_and!; [|done..]. exists (h, ms). split; [|done].
    apply list_elem_of_fmap. eauto.
Qed.

(** The entries of a host's mounts that are looked up. *)
Lemma entries_elem mounts e :
  e ∈ concat (omap mount_targets (target_mounts mounts)) <->
  exists h ms m n osd, (h, ms) ∈ mounts /\ m ∈ ms /\ serves m n /\
    first_value "osd=" (opts_of m) osd /\ e = (h, mt_target m, mt_source m, n, osd).
Proof.
  rewrite list_elem_of_In, in_concat. setoid_rewrite <-list_elem_of_In. split.
  - intros (es & ([h m] & ((ms & Hin & Hm) & Hl & Ha)%target_mounts_elem & Hes)%list_elem_of_omap & He).
    destruct (proj1 (mount_targets_serves h m e Hl Ha)) as (n & osd & ? & ? & ->); eauto 10.
  - intros (h & ms & m & n & osd & Hin & Hm & Hs & Ho & ->). pose proof Hs as (Hl & Ha & _).
    destruct (proj2 (mount_targets_serves h m (h, mt_target m, mt_source m, n, osd) Hl Ha)) as (es & Hes & He);
      [eauto 6|]. exists es. split; [|done]. apply list_elem_of_omap. exists (h, m).
    split; [|done]. apply target_mounts_elem. eauto.
Qed.

Lemma osd_fs_type_spec osd :
  (osd_fs_type osd = Some Zfs <-> contains "zfs" osd = true) /\
  (osd_fs_type osd = Some Ldiskfs <-> contains "zfs" osd = false /\ contains "ldiskfs" osd = true).
Proof. unfold osd_fs_type. repeat case_match; naive_solver. Qed.

Lemma target_filesystems_fs h fs rest : contains_char "-" rest = false ->
  target_filesystems mgs_fs_cache h (fs +:+ "-" +:+ rest) = [fs].
Proof.
  intros Hr. unfold target_filesystems, rsplitn2.
  change (fs +:+ "-" +:+ rest) with (fs +:+ String "-" rest). rewrite split_last_app by done.
  destruct (String.eqb_spec (fs +:+ String "-" rest) "MGS") as [E|]; [|done].
  assert (split_last "-" "MGS" = Some (fs, rest)) by (rewrite <-E; by apply split_last_app). done.
Qed.

Lemma resolved_target_of mounts r :
  r ∈ resolved_targets x host_map index mgs_fs_cache mounts ->
  exists h ms m, (h, ms) ∈ mounts /\ m ∈ ms /\ target_of h m r.
Proof.
  unfold resolved_targets. intros (e & He & Hr)%list_elem_of_omap.
  apply entries_elem in He as (h & ms & m & n & osd & Hin & Hm & Hs & Ho & ->).
  exists h, ms, m. split_and!; [done..|]. unfold resolve_target in Hr.
  apply bind_Some in Hr as (tree & Ht & Hr). apply bind_Some in Hr as (d & Hd & Hr).
  apply bind_Some in Hr as (id & Hid & Hr). apply bind_Some in Hr as (uu & Huu & Hr).
  apply bind_Some in Hr as (i & Hi & [= <-]). split; simpl; try done.
  - intros ->. done.
  - intros fs rest -> Hr. by apply target_filesystems_fs.
  - exists osd. split; [done|]. apply osd_fs_type_spec.
  - apply find_device_by_devpath_spec in Hd as [Hb Hp]. exists tree, d, id. split_and!; [done..|].
    exists i. split_and!; [done..|]. intros j. rewrite elem_of_cons, other_hosts_elem. done.
Qed.

(** Every target a mount serves is resolved where the host has its device. *)
Lemma resolved_target_served mounts h ms m n id uuid i :
  (h, ms) ∈ mounts -> m ∈ ms -> serves m n -> backed h m id uuid -> host_map !! h = Some i ->
  exists r, r ∈ resolved_targets x host_map index mgs_fs_cache mounts /\
    target_key r = n +:+ ":" +:+ uuid /\ tg_filesystems r = target_filesystems mgs_fs_cache h n.
Proof.
  intros Hin Hm Hs (tree & d & Ht & Hb & Hd & Hall) Hi. pose proof Hs as (_ & _ & (osd & Ho) & _).
  destruct (proj2 (find_device_by_devpath_spec _ _) _ Hb Hd) as [d' Hd'].
  destruct (proj1 (find_device_by_devpath_spec _ _) _ Hd') as [Hb' Hp']. destruct (Hall d' Hb' Hp') as [Hid Huu].
  unfold resolved_targets. setoid_rewrite list_elem_of_omap. setoid_rewrite entries_elem.
  eexists. split_and!.
  - exists (h, mt_target m, mt_source m, n, osd). split; [eauto 12|]. unfold resolve_target.
    rewrite Ht. simpl. rewrite Hd'. simpl. rewrite Hid. simpl. rewrite Huu. simpl. by rewrite Hi.
  - done.
  - done.
Qed.

(** The table while the targets are collected. *)
Definition kept (m : gmap string Target) (seen : list Target) : Prop :=
  (forall k t, m !! k = Some t -> target_key t = k /\ t ∈ seen) /\
  (forall r, r ∈ seen -> exists t, m !! target_key r = Some t /\
     (tg_filesystems r <> [] -> tg_filesystems t <> [])).

Lemma keep_target_kept m seen r : kept m seen -> kept (keep_target m r) (seen ++ [r]).
Proof.
  intros [Hm Hs]. unfold keep_target.
  assert ((forall k t, <[target_key r := r]> m !! k = Some t ->
    target_key t = k /\ t ∈ seen ++ [r])) as Hnew.
  { intros k t. destruct (decide (target_key r = k)) as [<-|].
    - rewrite lookup_insert_eq. intros [= <-]. set_solver.
    - rewrite lookup_insert_ne by done. intros [? ?]%Hm. set_solver. }
  assert ((forall t, m !! target_key r = Some t -> tg_filesystems t = []) ->
    kept (<[target_key r := r]> m) (seen ++ [r])) as Hins.
  { intros He. split; [done|]. intros r' [Hr|Hr]%elem_of_app.
    - destruct (Hs r' Hr) as (t & Ht & Hf). destruct (decide (target_key r = target_key r')) as [E|].
      + exists r. rewrite <-E, lookup_insert_eq. split; [done|]. rewrite <-E in Ht.
        intros Hfr. by destruct (Hf Hfr); apply He.
      + exists t. by rewrite lookup_insert_ne.
    - apply list_elem_of_singleton in Hr as ->. exists r. by rewrite lookup_insert_eq. }
  destruct (m !! target_key r) as [y|] eqn:Ey; [|by apply Hins].
  destruct (tg_filesystems y) eqn:Ef; [apply Hins; congruence|]. split.
  - intros k t [? ?]%Hm. set_solver.
  - intros r' [Hr|Hr]%elem_of_app; [eauto|]. apply list_elem_of_singleton in Hr as ->.
    exists y. split; [done|]. by rewrite Ef.
Qed.

Lemma foldl_kept rs m seen : kept m seen -> kept (foldl keep_target m rs) (seen ++ rs).
Proof.
  revert m seen. induction rs as [|r rs IH]; intros m seen Hk; simpl; [by rewrite app_nil_r|].
  rewrite (cons_middle r seen rs), app_assoc. by apply IH, keep_target_kept.
Qed.

Lemma find_targets_keys mounts : NoDup (target_key <$> find_targets x host_map index mgs_fs_cache mounts).
Proof.
  unfold find_targets. set (rs := resolved_targets _ _ _ _ mounts). destruct (foldl_kept rs ∅ []) as [Hm _].
  { split; [intros k t Ht; by rewrite lookup_empty in Ht|intros r Hr; inversion Hr]. }
  rewrite <-list_fmap_compose.
  rewrite (list_fmap_ext (target_key ∘ snd) fst (map_to_list (foldl keep_target ∅ rs)));
    [apply NoDup_fst_map_to_list|].
  intros i [k t] Hi. apply Hm, elem_of_map_to_list. by eapply list_elem_of_lookup_2.
Qed.

(** C17: the target list has one entry per name and uuid. Every entry describes a
    Lustre mount of a block device that the host's tree has: the target its
    [svname=] option names, or the MGS where the option [mgs] is set; with the
    mount's paths, the file system of the name (for the MGS those read from that
    host), the backend of [osd=], active on that host and available on exactly the
    hosts whose index has the device. And no mounted target is missing: when a known
    host has a mount that serves a name, from a device that its tree has with an id
    and a file system uuid, the list has an entry for the name and uuid, and not one
    without file systems if a mount of the target has some. *)
Theorem find_targets_spec mounts :
  let ts := find_targets x host_map index mgs_fs_cache mounts in
  NoDup (target_key <$> ts) /\
  (forall t, t ∈ ts -> exists h ms m, (h, ms) ∈ mounts /\ m ∈ ms /\ target_of h m t) /\
  (forall h ms m n id uuid i,
     (h, ms) ∈ mounts -> m ∈ ms -> serves m n -> backed h m id uuid -> host_map !! h = Some i ->
     exists t, t ∈ ts /\ target_key t = n +:+ ":" +:+ uuid /\
       ((n = "MGS" /\ default [] (mgs_fs_cache !! h) <> [] \/
         exists fs rest, n = fs +:+ "-" +:+ rest /\ contains_char "-" rest = false) ->
        tg_filesystems t <> [])).
Proof.
  intros ts. unfold ts, find_targets. set (rs := resolved_targets _ _ _ _ mounts).
  destruct (foldl_kept rs ∅ []) as [Hm Hs].
  { split; [intros k t Ht; by rewrite lookup_empty in Ht|intros r Hr; inversion Hr]. }
  set (m := foldl keep_target ∅ rs) in *.
  assert (forall t, t ∈ (map_to_list m).*2 <-> exists k, m !! k = Some t) as Helem.
  { intros t. rewrite list_elem_of_fmap. split.
    - intros ([k t'] & -> & Hk%elem_of_map_to_list). eauto.
    - intros (k & Hk). exists (k, t). by rewrite elem_of_map_to_list. }
  split_and!.
  - apply find_targets_keys.
  - intros t (k & Hk)%Helem. apply Hm in Hk as [_ Hk]. by apply resolved_target_of.
  - intros h ms mt n id uuid i Hin Hmt Hsv Hb Hi.
    destruct (resolved_target_served mounts h ms mt n id uuid i) as (r & Hr & Hk & Hfs); [done..|].
    destruct (Hs r Hr) as (t & Ht & Hf). exists t. rewrite Helem, <-Hk.
    split_and!; [eauto|by apply Hm in Ht as [-> _]|]. intros Hc. apply Hf. rewrite Hfs.
    destruct Hc as [[-> Hc]|(fs & rest & -> & Hc)]; [done|]. by rewrite target_filesystems_fs.
Qed.

End TargetSpec.

(** ** What is written *)

#[export] Instance string_key_inj : Inj (=) (=) (key_of (A := string)).
Proof. by intros s t [= ->]. Qed.
#[export] Instance Z_key_inj : Inj (=) (=) (key_of (A := Z)).
Proof. by intros s t [= ->]. Qed.
#[export] Instance TargetFsType_key_inj : Inj (=) (=) (key_of (A := TargetFsType)).
Proof. by intros [] []. Qed.

Lemma option_key_inj {A} `{Keyed A} : Inj (=) (=) (key_of (A := A)) ->
  Inj (=) (=) (key_of (A := option A)).
Proof.
  intros Hi [a|] [b|]; unfold key_of, option_keyed; intros [=]; [|done].
  f_equal. by apply (inj key_of).
Qed.

Lemma Target_key_inj (t u : Target) : key_of t = key_of u -> t = u.
Proof.
  intros E.
  assert (forall i, match key_of t, key_of u with KL a, KL b => a !! i = b !! i | _, _ => True end) as Hi
    by (intros i; by rewrite E).
  destruct t as [s n dp ah hi fs uu mp ft], u as [s' n' dp' ah' hi' fs' uu' mp' ft'].
  pose proof (Hi 0%nat) as [= ->]. pose proof (Hi 1%nat) as [= ->]. pose proof (Hi 6%nat) as [= ->].
  pose proof (Hi 2%nat) as H2%(inj Some)%(option_key_inj _).
  pose proof (Hi 3%nat) as H3%(inj Some)%(option_key_inj _).
  pose proof (Hi 4%nat) as H4%(inj Some)%(list_key_inj _).
  pose proof (Hi 5%nat) as H5%(inj Some)%(list_key_inj _).
  pose proof (Hi 7%nat) as H7%(inj Some)%(option_key_inj _).
  pose proof (Hi 8%nat) as H8%(inj Some)%(option_key_inj _).
  simpl in *. by subst.
Qed.

(** [Identifiable for Target]: the file system uuid. *)
#[export] Instance Target_changeable : Changeable Target :=
  {| change_id := fun t => KS (tg_uuid t); changeable_eq := Target_key_inj |}.

Lemma build_updates_elem c u :
  u ∈ build_updates c <->
  u ∈ default [] c.1 \/ exists t, t ∈ default [] c.2 /\ u = set_unmounted t.
Proof.
  destruct c as [[up|] [del|]]; simpl; rewrite ?elem_of_app, ?list_elem_of_fmap;
    rewrite ?elem_of_nil; try setoid_rewrite elem_of_nil; naive_solver.
Qed.

Lemma target_updates_elem new old u :
  u ∈ build_updates (get_changes new old) <->
  (u ∈ new /\ u ∉ old) \/
  exists t, t ∈ old /\ u = set_unmounted t /\ forall n, n ∈ new -> tg_uuid n <> tg_uuid t.
Proof.
  rewrite build_updates_elem. setoid_rewrite (proj1 (get_changes_elem new old _)).
  setoid_rewrite (proj2 (get_changes_elem new old _)).
  assert (forall n t : Target, change_id n <> change_id t <-> tg_uuid n <> tg_uuid t) as Hid.
  { intros n t. simpl. split; congruence. }
  setoid_rewrite Hid. naive_solver.
Qed.

(** Targets are stored under their name and uuid but compared by uuid alone: a
    stored target whose uuid is still mounted under another name only (an MGS
    and an MDT share a device) gets no row, so it stays recorded as it was,
    mounted on its old host. *)
Theorem shared_uuid_stays_mounted new old t n :
  t ∈ old -> n ∈ new -> tg_uuid n = tg_uuid t -> (forall m, m ∈ new -> tg_name m <> tg_name t) ->
  forall u, u ∈ build_updates (get_changes new old) ->
    ~ (tg_name u = tg_name t /\ tg_uuid u = tg_uuid t).
Proof.
  intros Ht Hn Hid Hname u Hu%target_updates_elem [Hun Huu].
  destruct Hu as [[Hu _]|(t' & Ht' & -> & Hno)]; [by eapply Hname|].
  simpl in Huu. apply (Hno n Hn). congruence.
Qed.

(** ** Client mounts *)

Lemma foldl_mount_map (l : list (string * string)) acc fs mp :
  mp ∈ default [] (foldl (fun acc '(f, p) =>
      <[f := set_insert false p (default [] (acc !! f))]> acc) acc l !! fs) <->
  mp ∈ default [] ((acc : gmap string (list string)) !! fs) \/ (fs, mp) ∈ l.
Proof.
  revert acc. induction l as [|[f p] l IH]; intros acc; simpl.
  - split; [auto|]. intros [?|Hx]; [done|inversion Hx].
  - rewrite IH, elem_of_cons. destruct (decide (f = fs)) as [->|Hn].
    + rewrite lookup_insert_eq. simpl.
      assert (mp ∈ set_insert false p (default [] (acc !! fs)) <-> mp = p \/ mp ∈ default [] (acc !! fs)) as ->;
        [|naive_solver].
      split; [apply elem_of_set_insert|]. intros Hp.
      assert (key_of mp ∈ (key_of <$> set_insert false p (default [] (acc !! fs)))) as (q & Hk & Hq)%list_elem_of_fmap.
      { apply set_insert_keys. destruct Hp as [->|Hp]; [by left|right; by apply list_elem_of_fmap_2]. }
      by apply (inj key_of) in Hk as ->.
    + rewrite lookup_insert_ne by done. naive_solver.
Qed.

(** The client mounts stored for a host are exactly its writable Lustre client
    mounts: under each file system name, what follows the first [:/] of a source
    like [mgs@tcp:/fs], the points it is mounted at. *)
Theorem client_mount_map_spec mounts fs mp :
  mp ∈ default [] (client_mount_map mounts !! fs) <->
  exists m nids, m ∈ mounts /\ ft_name (mt_fs_type m) = "lustre" /\
    "ro" ∉ str_split "," (mo_opts (mt_opts m)) /\
    split_first ":/" (dp_path (mt_source m)) = Some (nids, fs) /\ mp_path (mt_target m) = mp.
Proof.
  unfold client_mount_map. rewrite foldl_mount_map, lookup_empty. simpl.
  rewrite elem_of_nil, list_elem_of_omap. setoid_rewrite elem_of_filter_fn.
  assert (forall m, negb (existsb (String.eqb "ro") (str_split "," (mo_opts (mt_opts m)))) = true <->
    "ro" ∉ str_split "," (mo_opts (mt_opts m))) as Hro.
  { intros m. rewrite negb_true_iff, <-not_true_iff_false, existsb_exists.
    setoid_rewrite String.eqb_eq. setoid_rewrite <-list_elem_of_In. naive_solver. }
  setoid_rewrite Hro. setoid_rewrite elem_of_filter_fn. setoid_rewrite String.eqb_eq.
  assert (forall m, client_fs m = Some (fs, mp) <-> exists nids,
    split_first ":/" (dp_path (mt_source m)) = Some (nids, fs) /\ mp_path (mt_target m) = mp) as Hc.
  { intros m. unfold client_fs, splitn2. destruct (split_first _ _) as [[a b]|]; simpl; naive_solver. }
  setoid_rewrite Hc. naive_solver.
Qed.

(** ** Examples *)

Section IndexWitnesses.

Definition sample_target (name uuid : string) : Target :=
  {| tg_state := "mounted"; tg_name := name; tg_dev_path := Some "/dev/sda"; tg_active_host_id := Some 1;
     tg_host_ids := [1; 2]; tg_filesystems := ["fs"]; tg_uuid := uuid;
     tg_mount_path := Some "/mnt/x"; tg_fs_type := Some Ldiskfs |}.

Lemma shared_uuid_stays_mounted_witness :
  ~ (tg_name (sample_target "MGS" "u1") = "fs-MDT0000" /\ tg_uuid (sample_target "MGS" "u1") = "u1").
Proof.
  apply (shared_uuid_stays_mounted [sample_target "MGS" "u1"] [sample_target "fs-MDT0000" "u1"]
    (sample_target "fs-MDT0000" "u1") (sample_target "MGS" "u1")).
  - apply list_elem_of_here.
  - apply list_elem_of_here.
  - done.
  - by intros m ->%list_elem_of_singleton.
  - vm_compute. apply list_elem_of_here.
Defined.

Lemma get_changes_sync_witness :
  apply_changes (table [sample_target "fs-MDT0000" "u1"])
    (get_changes [sample_target "fs-OST0000" "u2"] [sample_target "fs-MDT0000" "u1"]) =
  table [sample_target "fs-OST0000" "u2"].
Proof.
  apply (get_changes_sync [sample_target "fs-OST0000" "u2"] [sample_target "fs-MDT0000" "u1"]);
    by intros x y ->%list_elem_of_singleton ->%list_elem_of_singleton.
Defined.

(** Two hosts share the disk [s1]; on the first a volume group with one logical
    volume is active, the OST of [fs]. *)
#[local] Existing Instance sample_libzfs.

Definition ost_volume : Device :=
  DLogicalVolume {| lv_name := "ost0"; lv_uuid := "l1"; lv_major := "253"; lv_minor := "0"; lv_size := 512;
    lv_children := []; lv_devpath := "/devices/dm-0"; lv_paths := [MkDevicePath "/dev/vg/ost0"];
    lv_filesystem_type := Some "ext4"; lv_fs_uuid := Some "u1"; lv_fs_label := None; lv_mount := None |}.

Definition shared_disk (ch : list Device) : Device :=
  DScsiDevice {| sd_serial := Some "s1"; sd_scsi80 := None; sd_major := "8"; sd_minor := "0";
    sd_devpath := "/devices/sda"; sd_size := 1024; sd_filesystem_type := None; sd_fs_uuid := None;
    sd_fs_label := None; sd_paths := [MkDevicePath "/dev/sda"]; sd_mount := None; sd_children := ch |}.

Definition active_tree : Device :=
  DRoot {| ro_children := [shared_disk [DVolumeGroup {| vg_name := "vg"; vg_uuid := "g1"; vg_size := 1024;
    vg_children := [ost_volume] |}]] |}.

Definition standby_tree : Device := DRoot {| ro_children := [shared_disk []] |}.

(** The devices with their owners, computed. *)
Definition owners_of (d : Device) : list (DeviceId * DeviceId) :=
  build_device_map d [] [] ≫= (fun '(id, ps) =>
    (fun s => (id, s)) <$> List.filter (fun s =>
       (id_starts "lv_" id && id_starts "vg_" s) || (id_starts "dataset_" id && id_starts "zpool_" s))
       (omap last ps)).

Lemma owner_owners_of d id s : owner d id s -> (id, s) ∈ owners_of d.
Proof.
  intros [(q & e & Hc & He) Hk]. apply list_elem_of_bind.
  assert (sees d id) as [ps Hg]%map_has_id by (by exists (q ++ [s]), e).
  exists (id, ps). split; [|by apply map_entry]. apply list_elem_of_fmap. exists s. split; [done|].
  apply elem_of_filter_fn. split.
  - apply list_elem_of_omap. exists (q ++ [s]). rewrite last_snoc. split; [|done].
    apply (map_get d id ps Hg). eauto.
  - apply orb_true_iff. rewrite !andb_true_iff. done.
Qed.

Lemma sample_owners f e : (f, e) ∈ [("a", active_tree); ("b", standby_tree)] -> one_owner e.
Proof.
  intros He id s s' H1%owner_owners_of H2%owner_owners_of.
  rewrite !elem_of_cons, elem_of_nil in He. destruct He as [[= -> ->]|[[= -> ->]|[]]]; vm_compute in H1, H2.
  - apply list_elem_of_singleton in H1 as [= -> ->]. by apply list_elem_of_singleton in H2 as [= ->].
  - inversion H1.
Qed.

(** The standby host could import the logical volume, so the index has it there. *)
Lemma build_device_index_spec_witness :
  index_has (build_device_index [("a", active_tree); ("b", standby_tree)]) "b" (MkDeviceId "lv_l1").
Proof.
  apply (build_device_index_spec [("a", active_tree); ("b", standby_tree)]); [exact sample_owners|].
  exists standby_tree. split; [set_solver|]. right. exists "a", active_tree, standby_tree.
  split_and!; [set_solver|done|set_solver|].
  apply importable_part with (s := MkDeviceId "vg_g1").
  - split; [|by left]. exists [MkDeviceId "root"; MkDeviceId "scsi_s1"], ost_volume. split; [|done].
    repeat (eapply chain_kid; [reflexivity|apply list_elem_of_here|]). apply chain_self.
  - intros i (q & e & Hc & He).
    assert ((q ++ [i]) ∈ chains_of (build_device_map active_tree [] []) (MkDeviceId "vg_g1")) as Hq
      by (apply build_device_map_spec; eauto).
    remember (q ++ [i]) as p eqn:Ep in Hq. vm_compute in Hq. apply list_elem_of_singleton in Hq. subst p.
    assert (i = MkDeviceId "scsi_s1") as ->.
    { symmetry in Hq. apply (f_equal last) in Hq. rewrite last_snoc in Hq. by injection Hq. }
    exists [MkDeviceId "root"], (shared_disk []). split; [|done].
    eapply chain_kid; [reflexivity|apply list_elem_of_here|]. apply chain_self.
Defined.

Definition ost_mount : Mount :=
  {| mt_source := MkDevicePath "/dev/vg/ost0"; mt_target := MkMountPoint "/mnt/ost0";
     mt_fs_type := MkFsType "lustre";
     mt_opts := MkMountOpts "ro,svname=fs-OST0000,mgsnode=10.0.0.1@tcp,osd=osd-ldiskfs" |}.

Lemma below_only (d c e : Device) : kids d = [c] -> below d e -> e = d \/ below c e.
Proof.
  intros Hk Hb. destruct Hb as [|d c' e Hc Hb]; [by left|]. rewrite Hk in Hc.
  apply list_elem_of_singleton in Hc as ->. by right.
Qed.

Lemma ost_backed : backed {["a" := active_tree]} "a" ost_mount (MkDeviceId "lv_l1") "u1".
Proof.
  exists active_tree, ost_volume. split_and!; [by rewrite lookup_singleton_eq| |done|].
  - repeat (eapply below_kid; [apply list_elem_of_here|]). apply below_refl.
  - intros e He Hp.
    apply (below_only active_tree _ e eq_refl) in He as [->|He]; [done|].
    apply (below_only (shared_disk _) _ e eq_refl) in He as [->|He]; [done|].
    apply (below_only _ ost_volume e) in He as [->|He]; [done| |done].
    inversion He as [|? c ? Hc]; subst; [done|]. inversion Hc.
Qed.

(** The mounted OST is in the list, with its file system. *)
Lemma find_targets_spec_witness :
  exists t, t ∈ find_targets {["a" := active_tree]} {["a" := 1]} [] ∅ [("a", [ost_mount])] /\
    target_key t = "fs-OST0000:u1" /\ tg_filesystems t <> [].
Proof.
  destruct (find_targets_spec {["a" := active_tree]} {["a" := 1]} [] ∅ [("a", [ost_mount])])
    as (_ & _ & Hall).
  destruct (Hall "a" [ost_mount] ost_mount "fs-OST0000" (MkDeviceId "lv_l1") "u1" 1) as (t & Ht & Hk & Hf).
  - apply list_elem_of_here.
  - apply list_elem_of_here.
  - split_and!; [reflexivity..| |].
    + exists "osd-ldiskfs". exists ["ro"; "svname=fs-OST0000"; "mgsnode=10.0.0.1@tcp"], "osd=osd-ldiskfs", [].
      split_and!; [reflexivity| |reflexivity..].
      intros o Ho. rewrite !elem_of_cons, elem_of_nil in Ho. by destruct Ho as [->|[->|[->|[]]]].
    + exists "fs-OST0000". split; [|by left].
      exists ["ro"], "svname=fs-OST0000", ["mgsnode=10.0.0.1@tcp"; "osd=osd-ldiskfs"].
      split_and!; [reflexivity| |reflexivity..]. by intros o ->%list_elem_of_singleton.
  - apply ost_backed.
  - by rewrite lookup_singleton_eq.
  - exists t. split_and!; [done..|]. apply Hf. right. exists "fs", "OST0000". done.
Defined.

End IndexWitnesses.
