(* ===== verification/WireTypes.v ===== *)
(** The messages between agents and manager, [iml-wire-types/src/lib.rs]: what an
    agent posts, what it is sent, what the services behind the queues receive, and
    the actions and their results. *)
From S2P Require Import Prelude.
From stdpp Require Import base gmap sets list strings.
From Stdlib Require Import ZArith.

(** [serde_json::Value], with what the code does with one: it compares them and
    uses [Null]. *)
Class Json : Type := {
  value : Type;
  json_null : value;
  value_eq_dec :: EqDecision value;
}.

Abbreviation Fqdn := string (only parsing).
Abbreviation Id := string (only parsing).
Abbreviation PluginName := string (only parsing).
Abbreviation ActionId := string (only parsing).

(** [ManagerMessage]: what an agent is sent. The body of a data message is [B]:
    JSON on the wire, the action itself where the action runner builds it. *)
Inductive ManagerMessage (B : Type) : Type :=
| MmSessionCreateResponse (fqdn : Fqdn) (plugin : PluginName) (session_id : Id)
| MmData (fqdn : Fqdn) (plugin : PluginName) (session_id : Id) (body : B)
| MmSessionTerminate (fqdn : Fqdn) (plugin : PluginName) (session_id : Id)
| MmSessionTerminateAll (fqdn : Fqdn).
Arguments MmSessionCreateResponse {B} _ _ _.
Arguments MmData {B} _ _ _ _.
Arguments MmSessionTerminate {B} _ _ _.
Arguments MmSessionTerminateAll {B} _.

(** The [fqdn] field, which every message has. *)
Definition mm_fqdn {B} (m : ManagerMessage B) : Fqdn :=
  match m with
  | MmSessionCreateResponse f _ _ | MmData f _ _ _ | MmSessionTerminate f _ _
  | MmSessionTerminateAll f => f
  end.

Section Wire.
Context {J : Json}.

(** [Message] and [Envelope]: what an agent posts. [session_seq] is a [u64]. *)
Inductive Message : Type :=
| MsgData (fqdn : Fqdn) (plugin : PluginName) (session_id : Id) (session_seq : Z) (body : value)
| MsgSessionCreateRequest (fqdn : Fqdn) (plugin : PluginName).

Record Envelope : Type := MkEnvelope {
  en_messages : list Message;
  en_server_boot_time : string;
  en_client_start_time : string;
}.

Definition Envelope_new (messages : list Message) (client_start_time server_boot_time : string) :
    Envelope :=
  {| en_messages := messages; en_server_boot_time := server_boot_time;
     en_client_start_time := client_start_time |}.

(** [PluginMessage]: what a service behind a queue receives. *)
Inductive PluginMessage : Type :=
| PmSessionTerminate (fqdn : Fqdn) (plugin : PluginName) (session_id : Id)
| PmSessionCreate (fqdn : Fqdn) (plugin : PluginName) (session_id : Id)
| PmData (fqdn : Fqdn) (plugin : PluginName) (session_id : Id) (session_seq : Z) (body : value).

(** [Action]: what the agent is to do. *)
Inductive Action : Type :=
| ActionStart (action : string) (args : value) (id : ActionId)
| ActionCancel (id : ActionId).

Definition action_get_id (a : Action) : ActionId :=
  match a with ActionStart _ _ id | ActionCancel id => id end.

(** [AgentResult], and [ActionResult]. *)
Definition AgentResult : Type := Result string value.

Record ActionResult : Type := MkActionResult { ar_id : ActionId; ar_result : AgentResult }.

End Wire.
