(* ===== verification/ActionRunner.v ===== *)
(** The action runner service, [iml-services/iml-action-runner/src/]: requests for
    actions on agents, the sessions the agents hold, and the actions in flight.
    Every function is a state change between two points where the code waits
    (a lock, a message); one that can panic says in which state it leaves the
    tables then, and which channels it drops. A oneshot channel is its number: the
    runner records what it sends on it, and whether the receiver is gone. *)
From S2P Require Import Prelude RustStd Ordering WireTypes.
From stdpp Require Import base gmap sets list strings.
From Stdlib Require Import ZArith Ascii.

Open Scope Z_scope.

Abbreviation Tx := nat (only parsing).

Section ActionRunner.
Context {J : Json}.

Definition create_data_message (session_id : Id) (fqdn : Fqdn) (body : Action) :
    ManagerMessage Action :=
  MmData fqdn "action_runner" session_id body.

(** [ActionRunnerError]. *)
Inductive ActionRunnerError : Type :=
| AwaitSession (fqdn : Fqdn)
| TokioTimerError (msg : string)
| ImlRabbitError (msg : string)
| OneShotCanceled
| RequiredError (msg : string)
| SqlxError (msg : string).

(** * State *)

Record ActionInFlight : Type := MkActionInFlight { af_tx : Tx; af_action : Action }.

Abbreviation Rpcs := (gmap ActionId ActionInFlight) (only parsing).
Abbreviation SessionToRpcs := (gmap Id (gmap ActionId ActionInFlight)) (only parsing).

(** The shared tables, what was sent to the agents and on the channels, and the
    channels whose receiver was dropped. *)
Record RunnerState : Type := MkRunnerState {
  rs_sessions : gmap Fqdn Id;
  rs_rpcs : SessionToRpcs;
  rs_sent : list (ManagerMessage Action);
  rs_done : list (Tx * AgentResult);
  rs_gone : gset Tx;
}.

Definition RunnerState_new : RunnerState :=
  {| rs_sessions := ∅; rs_rpcs := ∅; rs_sent := []; rs_done := []; rs_gone := ∅ |}.

Definition with_sessions (st : RunnerState) m : RunnerState :=
  {| rs_sessions := m; rs_rpcs := rs_rpcs st; rs_sent := rs_sent st; rs_done := rs_done st;
     rs_gone := rs_gone st |}.
Definition with_rpcs (st : RunnerState) m : RunnerState :=
  {| rs_sessions := rs_sessions st; rs_rpcs := m; rs_sent := rs_sent st; rs_done := rs_done st;
     rs_gone := rs_gone st |}.
Definition with_sent (st : RunnerState) l : RunnerState :=
  {| rs_sessions := rs_sessions st; rs_rpcs := rs_rpcs st; rs_sent := l; rs_done := rs_done st;
     rs_gone := rs_gone st |}.

(** How a turn ends. The locks are released when a task panics, so the tables stay as they are at
    that point; the actions that the task had taken out and not answered are dropped with it. *)
Inductive Turn : Type :=
| Done (st : RunnerState)
| Panic (st : RunnerState) (lost : list ActionInFlight).

(** [action_in_flight.complete(x).unwrap()]: panics when nobody receives. *)
Definition complete (a : ActionInFlight) (x : AgentResult) (st : RunnerState) : Turn :=
  if decide (af_tx a ∈ rs_gone st) then Panic st []
  else Done {| rs_sessions := rs_sessions st; rs_rpcs := rs_rpcs st; rs_sent := rs_sent st;
               rs_done := rs_done st ++ [(af_tx a, x)]; rs_gone := rs_gone st |}.

(** ** [data.rs] *)

Definition insert_action_in_flight (id : Id) (action_id : ActionId) (action : ActionInFlight)
    (m : SessionToRpcs) : SessionToRpcs :=
  <[id := <[action_id := action]> (default ∅ (m !! id))]> m.

Definition get_action_in_flight (id : Id) (action_id : ActionId) (m : SessionToRpcs) :
    option ActionInFlight :=
  rpcs ← m !! id; rpcs !! action_id.

Definition has_action_in_flight (id : Id) (action_id : ActionId) (m : SessionToRpcs) : bool :=
  match get_action_in_flight id action_id m with Some _ => true | None => false end.

Definition remove_action_in_flight (id : Id) (action_id : ActionId) (m : SessionToRpcs) :
    option ActionInFlight * SessionToRpcs :=
  match m !! id with
  | None => (None, m)
  | Some rpcs => (rpcs !! action_id, <[id := delete action_id rpcs]> m)
  end.

(** [await_session]: each turn of the loop reads the clock and then the table;
    [polls] are those readings. [None]: still waiting after them. *)
Fixpoint await_session (fqdn : Fqdn) (until : Z) (polls : list (Z * gmap Fqdn Id)) :
    option (Result ActionRunnerError Id) :=
  match polls with
  | [] => None
  | (now, sessions) :: polls =>
      if until <=? now then Some (Err (AwaitSession fqdn))
      else match sessions !! fqdn with
           | Some id => Some (Ok id)
           | None => await_session fqdn until polls
           end
  end.

Definition get_session (fqdn : Fqdn) (sessions : gmap Fqdn Id) :
    Result ActionRunnerError (option Id) :=
  Ok (sessions !! fqdn).

(** [await_next_session]: [rounds] are the outcomes of its calls to
    [await_session], one per turn. *)
Fixpoint await_next_session (fqdn : Fqdn) (last_session : Id) (wait_secs : nat)
    (rounds : nat -> Result ActionRunnerError Id) : Result ActionRunnerError Id :=
  match wait_secs with
  | O => Err (AwaitSession fqdn)
  | S n =>
      session ← rounds n;
      if String.eqb last_session session then await_next_session fqdn last_session n rounds
      else Ok session
  end.

(** ** [receiver.rs] *)

Definition terminated (fqdn : Fqdn) : AgentResult :=
  Err ("Communications error, Node: " +:+ fqdn +:+ ", Reason: session terminated").

(** The loop over the drained actions: a panic drops those that are still to come. *)
Fixpoint complete_all (xs : list ActionInFlight) (x : AgentResult) (st : RunnerState) : Turn :=
  match xs with
  | [] => Done st
  | a :: xs => match complete a x st with Done st => complete_all xs x st | Panic st _ => Panic st xs end
  end.

Definition terminate_session (fqdn : Fqdn) (st : RunnerState) : Turn :=
  match rs_sessions st !! fqdn with
  | None => Done st
  | Some old_id =>
      let st := with_sessions st (delete fqdn (rs_sessions st)) in
      match rs_rpcs st !! old_id with
      | None => Done st
      | Some xs =>
          complete_all (map_to_list xs).*2 (terminated fqdn)
            (with_rpcs st (delete old_id (rs_rpcs st)))
      end
  end.

(** [create_session] between its awaits: the session is entered; the actions of
    the old one are taken out; they are sent again and put under the new one. *)
Definition create_enter (fqdn : Fqdn) (session_id : Id) (st : RunnerState) :
    option Id * RunnerState :=
  (rs_sessions st !! fqdn, with_sessions st (<[fqdn := session_id]> (rs_sessions st))).

Definition create_take (old_id : Id) (st : RunnerState) : option Rpcs * RunnerState :=
  (rs_rpcs st !! old_id, with_rpcs st (delete old_id (rs_rpcs st))).

(** The channel for a message could not be created: [n] messages were on their way, and the task
    panics with the actions in its hands. *)
Definition create_resend_panic (n : nat) (fqdn : Fqdn) (session_id : Id) (xs : Rpcs) (st : RunnerState) : Turn :=
  Panic (with_sent st (rs_sent st ++ take n
    ((fun a => create_data_message session_id fqdn (af_action a)) <$> (map_to_list xs).*2))) (map_to_list xs).*2.

Definition create_resend (fqdn : Fqdn) (session_id : Id) (xs : Rpcs) (st : RunnerState) :
    RunnerState :=
  with_sent st (rs_sent st ++
    ((fun a => create_data_message session_id fqdn (af_action a)) <$> (map_to_list xs).*2)).

Definition create_put (session_id : Id) (xs : Rpcs) (st : RunnerState) : RunnerState :=
  with_rpcs st (<[session_id := xs]> (rs_rpcs st)).

(** The whole of it, when nothing runs in between. *)
Definition create_session (fqdn : Fqdn) (session_id : Id) (st : RunnerState) : RunnerState :=
  let '(maybe_old_id, st) := create_enter fqdn session_id st in
  match maybe_old_id with
  | None => st
  | Some old_id =>
      let '(maybe_xs, st) := create_take old_id st in
      match maybe_xs with
      | None => st
      | Some xs => create_put session_id xs (create_resend fqdn session_id xs st)
      end
  end.

(** [handle_data]; [from_value] is [serde_json]'s: its error and the agent's own are
    unwrapped. *)
Definition handle_data (from_value : value -> option (Result string ActionResult)) (fqdn : Fqdn)
    (session_id : Id) (body : value) (st : RunnerState) : Turn :=
  match rs_sessions st !! fqdn with
  | None => Done st
  | Some held_session =>
      if String.eqb held_session session_id then
        match from_value body with
        | Some (Ok result) =>
            let '(a, rpcs) := remove_action_in_flight session_id (ar_id result) (rs_rpcs st) in
            let st := with_rpcs st rpcs in
            match a with
            | Some action_in_flight => complete action_in_flight (ar_result result) st
            | None => Done st
            end
        | Some (Err _) | None => Panic st []
        end
      else terminate_session fqdn st
  end.

Definition handle_session_terminate (fqdn : Fqdn) (session_id : Id) (st : RunnerState) : Turn :=
  match rs_sessions st !! fqdn with
  | Some held_session => if String.eqb held_session session_id then terminate_session fqdn st else Done st
  | None => Done st
  end.

Definition handle_agent_data (from_value : value -> option (Result string ActionResult))
    (m : PluginMessage) (st : RunnerState) : Turn :=
  match m with
  | PmSessionCreate fqdn _ session_id => Done (create_session fqdn session_id st)
  | PmSessionTerminate fqdn _ session_id => handle_session_terminate fqdn session_id st
  | PmData fqdn _ session_id _ body => handle_data from_value fqdn session_id body st
  end.

(** ** [remote_action.rs] *)

(** [cancel_running_action] after its message is out: the action is taken and
    answered, if it is still there. *)
Definition cancel_finish (session_id : Id) (action_id : ActionId) (st : RunnerState) : Turn :=
  let '(a, rpcs) := remove_action_in_flight session_id action_id (rs_rpcs st) in
  match a with
  | Some action_in_flight => complete action_in_flight (Ok json_null) (with_rpcs st rpcs)
  | None => Done (with_rpcs st rpcs)
  end.

(** The whole of it; [sent] is the outcome of sending the message. No result is a panic. *)
Definition cancel_running_action (msg : ManagerMessage Action) (session_id : Id) (action_id : ActionId)
    (sent : Result ActionRunnerError unit) (st : RunnerState) :
    option (Result ActionRunnerError AgentResult) * RunnerState :=
  if has_action_in_flight session_id action_id (rs_rpcs st) then
    match sent with
    | Err e => (Some (Err e), st)
    | Ok _ =>
        match cancel_finish session_id action_id (with_sent st (rs_sent st ++ [msg])) with
        | Done st => (Some (Ok (Ok json_null)), st)
        | Panic st _ => (None, st)
        end
    end
  else (Some (Ok (Ok json_null)), st).

(** [run] for an action to start, between its awaits: once it has the session, the
    action is entered; then the message goes out, or the action is taken back. *)
Definition run_enter (tx : Tx) (action : Action) (session_id : Id) (st : RunnerState) : RunnerState :=
  with_rpcs st (insert_action_in_flight session_id (action_get_id action)
    {| af_tx := tx; af_action := action |} (rs_rpcs st)).

Definition run_sent (fqdn : Fqdn) (action : Action) (session_id : Id) (st : RunnerState) :
    RunnerState :=
  with_sent st (rs_sent st ++ [create_data_message session_id fqdn action]).

Definition run_failed (action : Action) (session_id : Id) (st : RunnerState) : RunnerState :=
  with_rpcs st (remove_action_in_flight session_id (action_get_id action) (rs_rpcs st)).2.

(** ** [local_actions.rs] *)

(** The local actions in flight, and what was sent on their channels. *)
Record LocalState : Type := MkLocalState {
  ls_in_flight : gmap ActionId Tx;
  ls_done : list (Tx * AgentResult);
}.

Definition add_in_flight (id : ActionId) (tx : Tx) (st : LocalState) : LocalState :=
  {| ls_in_flight := <[id := tx]> (ls_in_flight st); ls_done := ls_done st |}.

Definition remove_in_flight (id : ActionId) (st : LocalState) : option Tx * LocalState :=
  (ls_in_flight st !! id,
   {| ls_in_flight := delete id (ls_in_flight st); ls_done := ls_done st |}).

(** [remove_in_flight(..).map(|tx| tx.send(x))]: the end of a plugin, and of a
    cancellation. *)
Definition finish_local (id : ActionId) (x : AgentResult) (st : LocalState) : LocalState :=
  match remove_in_flight id st with
  | (Some tx, st) => {| ls_in_flight := ls_in_flight st; ls_done := ls_done st ++ [(tx, x)] |}
  | (None, st) => st
  end.

Definition local_registry : list string := ["get_session"; "await_next_session"; "get_fqdn_by_id"].

(** [handle_local_action] up to the wait for the result: [Ok None] says that the
    action was started under the channel [tx]. *)
Definition handle_local_action (a : Action) (tx : Tx) (st : LocalState) :
    Result ActionRunnerError (option AgentResult) * LocalState :=
  match a with
  | ActionCancel id => (Ok (Some (Ok json_null)), finish_local id (Ok json_null) st)
  | ActionStart action _ id =>
      if bool_decide (action ∈ local_registry) then (Ok None, add_in_flight id tx st)
      else (Err (RequiredError ("Could not find action " +:+ action +:+ " in local registry")), st)
  end.

End ActionRunner.
