(* ===== verification/ActionSpec.v ===== *)
(** What the action runner keeps: every action handed to it is answered at most
    once, is never dropped while no session of its host is being created, and
    follows its host from one session to the next. *)
From S2P Require Import Prelude RustStd Ordering WireTypes ActionRunner.
From stdpp Require Import base gmap sets list strings.
From Stdlib Require Import ZArith Ascii.

Lemma submseteq_NoDup {A} (l k : list A) : l ⊆+ k -> NoDup k -> NoDup l.
Proof. intros (r & ->)%submseteq_Permutation (Hl & _)%NoDup_app. done. Qed.

Section Flights.
Context {J : Json}.
Implicit Types (m : gmap string (gmap string ActionInFlight)) (xs : gmap string ActionInFlight)
  (a : ActionInFlight) (st : RunnerState).

(** * The channels of the actions in flight *)

Definition txs xs : list nat := af_tx <$> (map_to_list xs).*2.

Definition flights m : list nat := gather txs m.

Lemma elem_of_txs xs t : t ∈ txs xs <-> exists i a, xs !! i = Some a /\ af_tx a = t.
Proof.
  unfold txs. rewrite list_elem_of_fmap. split.
  - intros (a & -> & ((i & b) & -> & Hin)%list_elem_of_fmap). apply elem_of_map_to_list in Hin. eauto.
  - intros (i & a & Hi & <-). exists a. split; [done|]. apply list_elem_of_fmap.
    exists (i, a). split; [done|]. by apply elem_of_map_to_list.
Qed.

Lemma txs_insert xs i a : xs !! i = None -> txs (<[i := a]> xs) ≡ₚ af_tx a :: txs xs.
Proof. intros Hi. unfold txs. rewrite map_to_list_insert by done. done. Qed.

Lemma txs_delete xs i a : xs !! i = Some a -> txs xs ≡ₚ af_tx a :: txs (delete i xs).
Proof.
  intros Hi. rewrite <-(txs_insert (delete i xs) i a) by apply lookup_delete_eq.
  by rewrite insert_delete_id.
Qed.

Lemma flights_insert m s xs : m !! s = None -> flights (<[s := xs]> m) ≡ₚ txs xs ++ flights m.
Proof. apply gather_insert. Qed.

Lemma flights_delete m s xs : m !! s = Some xs -> flights m ≡ₚ txs xs ++ flights (delete s m).
Proof. apply gather_delete. Qed.

Lemma flights_overwrite m s xs : flights (<[s := xs]> m) ⊆+ txs xs ++ flights m.
Proof. apply gather_overwrite. Qed.

Lemma flights_update m s xs ys :
  m !! s = Some xs -> flights (<[s := ys]> m) ≡ₚ txs ys ++ flights (delete s m).
Proof. intros _. apply gather_update. Qed.

(** Entering an action adds its channel, and drops the one of an action with the
    same id in the same session. *)
Lemma flights_enter m s i a :
  flights (insert_action_in_flight s i a m) ⊆+ af_tx a :: flights m.
Proof.
  unfold insert_action_in_flight. destruct (m !! s) as [xs|] eqn:Hs; simpl.
  - rewrite (flights_update m s xs) by done. rewrite (flights_delete m s xs) by done.
    change (af_tx a :: txs xs ++ ?l) with ((af_tx a :: txs xs) ++ l).
    apply submseteq_app; [|done]. destruct (xs !! i) as [b|] eqn:Hi.
    + rewrite <-insert_delete_eq, txs_insert by apply lookup_delete_eq.
      apply submseteq_skip. rewrite (txs_delete xs i b) by done. by apply submseteq_cons.
    + by rewrite txs_insert.
  - by rewrite flights_insert, txs_insert.
Qed.

Lemma flights_enter_new m s i a :
  get_action_in_flight s i m = None ->
  flights (insert_action_in_flight s i a m) ≡ₚ af_tx a :: flights m.
Proof.
  unfold insert_action_in_flight, get_action_in_flight. destruct (m !! s) as [xs|] eqn:Hs; simpl.
  - intros Hi. rewrite (flights_update m s xs), (flights_delete m s xs) by done.
    by rewrite txs_insert.
  - intros _. by rewrite flights_insert, txs_insert.
Qed.

Definition opt_txs (o : option ActionInFlight) : list nat := option_list (af_tx <$> o).

(** Taking one out. *)
Lemma flights_remove m s i o m' :
  remove_action_in_flight s i m = (o, m') -> flights m ≡ₚ opt_txs o ++ flights m'.
Proof.
  unfold remove_action_in_flight. destruct (m !! s) as [xs|] eqn:Hs; intros [= <- <-]; [|done].
  rewrite (flights_delete m s xs), (flights_update m s xs) by done.
  destruct (xs !! i) as [a|] eqn:Hi; simpl.
  - by rewrite (txs_delete xs i a).
  - by rewrite (delete_id xs).
Qed.

Lemma remove_lookup_None m s i s' :
  m !! s' = None -> (remove_action_in_flight s i m).2 !! s' = None.
Proof.
  intros Hs'. unfold remove_action_in_flight. destruct (m !! s) as [xs|] eqn:Hs; simpl; [|done].
  rewrite lookup_insert_ne; [done|]. congruence.
Qed.

(** * Answers *)

Definition with_done st l : RunnerState :=
  {| rs_sessions := rs_sessions st; rs_rpcs := rs_rpcs st; rs_sent := rs_sent st;
     rs_done := rs_done st ++ l; rs_gone := rs_gone st |}.

Lemma complete_turn a x st :
  (af_tx a ∉ rs_gone st /\ complete a x st = Done (with_done st [(af_tx a, x)])) \/
  (af_tx a ∈ rs_gone st /\ complete a x st = Panic st []).
Proof. unfold complete. case_decide; auto. Qed.

(** The actions before the first whose client has gone are answered, those after it dropped. *)
Lemma complete_all_turn l x st :
  ((forall a, a ∈ l -> af_tx a ∉ rs_gone st) /\
   complete_all l x st = Done (with_done st ((fun a => (af_tx a, x)) <$> l))) \/
  (exists l1 a l2, l = l1 ++ a :: l2 /\ af_tx a ∈ rs_gone st /\ (forall b, b ∈ l1 -> af_tx b ∉ rs_gone st) /\
   complete_all l x st = Panic (with_done st ((fun a => (af_tx a, x)) <$> l1)) l2).
Proof.
  revert st. induction l as [|a l IH]; intros st; simpl.
  - left. split; [by intros a ?%elem_of_nil|]. unfold with_done. rewrite app_nil_r. by destruct st.
  - destruct (complete_turn a x st) as [(Ha & ->)|(Ha & ->)].
    + destruct (IH (with_done st [(af_tx a, x)])) as [(Hl & ->)|(l1 & b & l2 & -> & Hb & Hl & ->)]; simpl in *.
      * left. split; [by intros b [->|Hb]%elem_of_cons; auto|]. unfold with_done. simpl. by rewrite <-app_assoc.
      * right. exists (a :: l1), b, l2. split_and!; [done|done|by intros c [->|Hc]%elem_of_cons; auto|].
        unfold with_done. simpl. by rewrite <-app_assoc.
    + right. exists [], a, l. split_and!; [done|done|by intros b ?%elem_of_nil|].
      unfold with_done. rewrite app_nil_r. by destruct st.
Qed.

(** * Sessions *)

Lemma lookup_fmap_snd xs a : a ∈ (map_to_list xs).*2 <-> exists i, xs !! i = Some a.
Proof.
  rewrite list_elem_of_fmap. split.
  - intros ((i & b) & -> & Hin%elem_of_map_to_list). eauto.
  - intros (i & Hi). exists (i, a). split; [done|]. by apply elem_of_map_to_list.
Qed.

(** The state in which the end of a host's session leaves the tables, whether it panics or not. *)
Lemma terminate_session_turn fqdn sid st : rs_sessions st !! fqdn = Some sid ->
  let st0 := with_rpcs (with_sessions st (delete fqdn (rs_sessions st))) (delete sid (rs_rpcs st)) in
  let xs := (map_to_list (default ∅ (rs_rpcs st !! sid))).*2 in
  ((forall a, a ∈ xs -> af_tx a ∉ rs_gone st) /\
   terminate_session fqdn st = Done (with_done st0 ((fun a => (af_tx a, terminated fqdn)) <$> xs))) \/
  (exists l1 a l2, xs = l1 ++ a :: l2 /\ af_tx a ∈ rs_gone st /\ (forall b, b ∈ l1 -> af_tx b ∉ rs_gone st) /\
   terminate_session fqdn st = Panic (with_done st0 ((fun a => (af_tx a, terminated fqdn)) <$> l1)) l2).
Proof.
  intros Hs st0 xs. unfold terminate_session. rewrite Hs. subst xs st0. simpl. destruct (rs_rpcs st !! sid) as [xs|] eqn:Hx; simpl.
  - pose proof (complete_all_turn (map_to_list xs).*2 (terminated fqdn)
      (with_rpcs (with_sessions st (delete fqdn (rs_sessions st))) (delete sid (rs_rpcs st)))) as Ht. exact Ht.
  - left. rewrite map_to_list_empty, (delete_id (rs_rpcs st)) by done. simpl. split; [by intros a ?%elem_of_nil|].
    unfold with_done, with_rpcs. simpl. by rewrite app_nil_r.
Qed.

(** ** An agent that opens a new session keeps its actions *)
(** When a host that holds session [old] opens the fresh session [sid], the host
    is entered under [sid]; every action in flight under [old], and no other, is in
    flight under [sid] with the channel it had; nothing is left under [old]; no other
    session is touched; and exactly the actions that moved are sent to the agent
    again, once each, under the new session. No channel is answered. *)
Theorem create_session_moves fqdn old sid st
  (Hold : rs_sessions st !! fqdn = Some old) (Hne : old ≠ sid)
  (Hfresh : rs_rpcs st !! sid = None) :
  let st' := create_session fqdn sid st in
  rs_sessions st' = <[fqdn := sid]> (rs_sessions st) /\
  (forall id, get_action_in_flight sid id (rs_rpcs st') = get_action_in_flight old id (rs_rpcs st)) /\
  (forall id, get_action_in_flight old id (rs_rpcs st') = None) /\
  (forall s, s ≠ old -> s ≠ sid -> rs_rpcs st' !! s = rs_rpcs st !! s) /\
  flights (rs_rpcs st') ≡ₚ flights (rs_rpcs st) /\
  (exists sent, rs_sent st' = rs_sent st ++ sent /\
     sent ≡ₚ (fun a => MmData fqdn "action_runner" sid (af_action a)) <$>
              (map_to_list (default ∅ (rs_rpcs st !! old))).*2) /\
  rs_done st' = rs_done st /\ rs_gone st' = rs_gone st.
Proof.
  unfold create_session, create_enter, create_take. rewrite Hold. simpl.
  unfold get_action_in_flight. destruct (rs_rpcs st !! old) as [xs|] eqn:Hxs; simpl.
  - split_and!; try done.
    + intros id. by rewrite lookup_insert_eq.
    + intros id. by rewrite lookup_insert_ne, lookup_delete_eq.
    + intros s Ho Hs. by rewrite lookup_insert_ne, lookup_delete_ne.
    + rewrite flights_insert, (flights_delete (rs_rpcs st) old xs) by (done || by rewrite lookup_delete_ne).
      done.
    + eexists. split; done.
  - rewrite delete_id by done. split_and!; try done.
    + intros id. by rewrite Hfresh.
    + intros id. by rewrite Hxs.
    + exists []. by rewrite app_nil_r, map_to_list_empty.
Qed.

End Flights.

(** * The runner and its requests, interleaved *)

(** An action in flight, wherever it is. *)
Section Aloft.
Context {J : Json}.
Implicit Types (m : gmap string (gmap string ActionInFlight)).

Lemma elem_of_flights m t :
  t ∈ flights m <-> exists s i a, get_action_in_flight s i m = Some a /\ af_tx a = t.
Proof.
  unfold flights, get_action_in_flight. rewrite elem_of_gather. setoid_rewrite elem_of_txs. split.
  - intros (s & xs & Hs & i & a & Hi & Ht). exists s, i, a. by rewrite Hs.
  - intros (s & i & a & (xs & Hs & Hi)%bind_Some & Ht). eauto 10.
Qed.

Definition rpcs_sub m' m : Prop :=
  (forall s i a, get_action_in_flight s i m' = Some a -> get_action_in_flight s i m = Some a) /\
  (forall s, m !! s = None -> m' !! s = None).

#[global] Instance rpcs_sub_preorder : PreOrder rpcs_sub.
Proof. split; [by split|]. intros m1 m2 m3 [] []. split; naive_solver. Qed.

Lemma rpcs_sub_remove m s i : rpcs_sub (remove_action_in_flight s i m).2 m.
Proof.
  split; [|intros s'; apply remove_lookup_None].
  unfold remove_action_in_flight, get_action_in_flight. intros s' j a.
  destruct (m !! s) as [xs|] eqn:Hs; simpl; [|done].
  destruct (decide (s' = s)) as [->|Hne]; [|by rewrite lookup_insert_ne].
  rewrite lookup_insert_eq, Hs. simpl. intros Hj. by apply lookup_delete_Some in Hj as [_ Hj].
Qed.

Lemma rpcs_sub_delete m s : rpcs_sub (delete s m) m.
Proof.
  split.
  - unfold get_action_in_flight. intros s' i a (xs & Hs & Hi)%bind_Some.
    apply lookup_delete_Some in Hs as [_ Hs]. by rewrite Hs.
  - intros s' Hs. apply lookup_delete_None. by right.
Qed.

(** What a turn does to the channels: it answers some of those in flight, or drops them in a panic,
    and one of them at least had no client any more. *)
Definition turn_ok (st : RunnerState) (t : Turn) : Prop :=
  match t with
  | Done st' =>
      (rs_done st').*1 ++ flights (rs_rpcs st') ≡ₚ (rs_done st).*1 ++ flights (rs_rpcs st) /\
      rpcs_sub (rs_rpcs st') (rs_rpcs st) /\ rs_gone st' = rs_gone st /\ rs_sent st' = rs_sent st
  | Panic st' lost =>
      (exists dead, (forall t, t ∈ dead -> t ∈ rs_gone st) /\
        ((rs_done st').*1 ++ flights (rs_rpcs st')) ++ dead ++ (af_tx <$> lost) ≡ₚ (rs_done st).*1 ++ flights (rs_rpcs st)) /\
      rpcs_sub (rs_rpcs st') (rs_rpcs st) /\ rs_gone st' = rs_gone st /\ rs_sent st' = rs_sent st
  end.

Lemma turn_ok_refl st : turn_ok st (Done st) /\ turn_ok st (Panic st []).
Proof. split; [done|]. split; [|done]. exists []. split; [by intros t ?%elem_of_nil|]. by rewrite app_nil_r. Qed.

(** Taking an action out and answering it moves its channel. *)
Lemma answer_turn s i x st o m :
  remove_action_in_flight s i (rs_rpcs st) = (o, m) ->
  turn_ok st (match o with Some a => complete a x (with_rpcs st m) | None => Done (with_rpcs st m) end).
Proof.
  intros Hr. pose proof (rpcs_sub_remove (rs_rpcs st) s i) as Hs. rewrite Hr in Hs. apply flights_remove in Hr.
  destruct o as [a|]; simpl in *.
  - destruct (complete_turn a x (with_rpcs st m)) as [(Ha & ->)|(Ha & ->)]; simpl in *.
    + split; [|done]. rewrite Hr, fmap_app, <-app_assoc. done.
    + split; [|done]. exists [af_tx a]. split; [by intros t ->%list_elem_of_singleton|]. simpl. rewrite Hr. simpl. solve_Permutation.
  - split; [by rewrite Hr|done].
Qed.

Lemma terminate_turn fqdn st : turn_ok st (terminate_session fqdn st).
Proof.
  destruct (rs_sessions st !! fqdn) as [sid|] eqn:Hs; [|unfold terminate_session; rewrite Hs; apply turn_ok_refl].
  assert (flights (rs_rpcs st) ≡ₚ (af_tx <$> (map_to_list (default ∅ (rs_rpcs st !! sid))).*2) ++ flights (delete sid (rs_rpcs st))) as Hf.
  { destruct (rs_rpcs st !! sid) as [xs|] eqn:Hx; simpl; [by rewrite (flights_delete (rs_rpcs st) sid xs)|].
    by rewrite map_to_list_empty, delete_id. }
  destruct (terminate_session_turn fqdn sid st Hs) as [(_ & ->)|(l1 & a & l2 & Hl & Ha & _ & ->)]; simpl.
  - split; [|split; [apply rpcs_sub_delete|done]]. rewrite Hf, fmap_app, <-app_assoc, <-list_fmap_compose. done.
  - split; [|split; [apply rpcs_sub_delete|done]]. exists [af_tx a]. split; [by intros t ->%list_elem_of_singleton|].
    rewrite Hf, Hl, !fmap_app, <-list_fmap_compose. csimpl.
    change (fst ∘ (fun a0 => (af_tx a0, terminated fqdn))) with af_tx. solve_Permutation.
Qed.

End Aloft.

Section World.
Context {J : Json} (from_value : value -> option (Result string ActionResult)).

(** Where the receiver task is: between messages, at one of the waits of
    [create_session] (before it takes the actions of the old session, and while it
    holds them and sends them again), or at its end, by a panic or an error, with the
    actions that it had in its hands, whose channels are dropped. *)
Inductive RecvPc : Type :=
| Idle
| Entered (fqdn : string) (session_id old_id : string)
| Stopped (lost : list ActionInFlight)
| Holding (fqdn : string) (session_id : string) (xs : gmap string ActionInFlight).

(** The requests that have their session, those that wait for their message to go
    out, and the actions entered so far: channel [t] is the one of the [t]th. *)
Record World : Type := MkWorld {
  w_st : RunnerState;
  w_pc : RecvPc;
  w_got : list (string * Action * string);
  w_open : gmap nat (string * Action * string);
  w_log : list Action;
}.

Definition World_new : World :=
  {| w_st := RunnerState_new; w_pc := Idle; w_got := []; w_open := ∅; w_log := [] |}.

Definition drop_rx (t : nat) (st : RunnerState) : RunnerState :=
  {| rs_sessions := rs_sessions st; rs_rpcs := rs_rpcs st; rs_sent := rs_sent st;
     rs_done := rs_done st; rs_gone := {[t]} ∪ rs_gone st |}.

(** What a turn does: it enters an action under a session, it takes a message from
    the service's queue, or neither. *)
Inductive Label : Type :=
| LEnter (session_id : string) (action_id : string)
| LMessage (m : PluginMessage)
| LOther.

(** One turn of one task. A panic ends the task whose turn it is: the request that cancels an
    action, or the receiver, which also ends when the queue or the connection fails. *)
Inductive step : Label -> World -> World -> Prop :=
| step_session w fqdn a sid :
    rs_sessions (w_st w) !! fqdn = Some sid ->
    step LOther w (MkWorld (w_st w) (w_pc w) (w_got w ++ [(fqdn, a, sid)]) (w_open w) (w_log w))
| step_enter st pc l1 l2 open log fqdn action args id sid :
    let a := ActionStart action args id in
    step (LEnter sid id) (MkWorld st pc (l1 ++ (fqdn, a, sid) :: l2) open log)
         (MkWorld (run_enter (length log) a sid st) pc (l1 ++ l2)
            (<[length log := (fqdn, a, sid)]> open) (log ++ [a]))
| step_sent w t fqdn a sid :
    w_open w !! t = Some (fqdn, a, sid) ->
    step LOther w (MkWorld (run_sent fqdn a sid (w_st w)) (w_pc w) (w_got w) (delete t (w_open w)) (w_log w))
| step_failed w t fqdn a sid :
    w_open w !! t = Some (fqdn, a, sid) ->
    step LOther w (MkWorld (drop_rx t (run_failed a sid (w_st w))) (w_pc w) (w_got w)
                     (delete t (w_open w)) (w_log w))
| step_client_gone w t :
    (t < length (w_log w))%nat ->
    step LOther w (MkWorld (drop_rx t (w_st w)) (w_pc w) (w_got w) (delete t (w_open w)) (w_log w))
| step_cancel w l1 l2 fqdn id sid st' :
    w_got w = l1 ++ (fqdn, ActionCancel id, sid) :: l2 ->
    cancel_finish sid id (w_st w) = Done st' ->
    step LOther w (MkWorld st' (w_pc w) (l1 ++ l2) (w_open w) (w_log w))
| step_cancel_panic w l1 l2 fqdn id sid st' lost :
    w_got w = l1 ++ (fqdn, ActionCancel id, sid) :: l2 ->
    cancel_finish sid id (w_st w) = Panic st' lost ->
    step LOther w (MkWorld st' (w_pc w) (l1 ++ l2) (w_open w) (w_log w))
| step_message st got open log m st' :
    (forall fqdn plugin sid, m <> PmSessionCreate fqdn plugin sid) ->
    handle_agent_data from_value m st = Done st' ->
    step (LMessage m) (MkWorld st Idle got open log) (MkWorld st' Idle got open log)
| step_message_panic st got open log m st' lost :
    (forall fqdn plugin sid, m <> PmSessionCreate fqdn plugin sid) ->
    handle_agent_data from_value m st = Panic st' lost ->
    step (LMessage m) (MkWorld st Idle got open log) (MkWorld st' (Stopped lost) got open log)
| step_create st got open log fqdn plugin sid old st' :
    create_enter fqdn sid st = (old, st') ->
    step (LMessage (PmSessionCreate fqdn plugin sid)) (MkWorld st Idle got open log)
         (MkWorld st' (match old with Some old => Entered fqdn sid old | None => Idle end) got open log)
| step_take st got open log fqdn sid old xs st' :
    create_take old st = (xs, st') ->
    step LOther (MkWorld st (Entered fqdn sid old) got open log)
         (MkWorld st' (match xs with Some xs => Holding fqdn sid xs | None => Idle end) got open log)
| step_put st got open log fqdn sid xs :
    step LOther (MkWorld st (Holding fqdn sid xs) got open log)
         (MkWorld (create_put sid xs (create_resend fqdn sid xs st)) Idle got open log)
| step_resend_panic st got open log fqdn sid xs n st' lost :
    create_resend_panic n fqdn sid xs st = Panic st' lost ->
    step LOther (MkWorld st (Holding fqdn sid xs) got open log) (MkWorld st' (Stopped lost) got open log)
| step_queue_fails st got open log :
    step LOther (MkWorld st Idle got open log) (MkWorld st (Stopped []) got open log).

Definition any_step (w w' : World) : Prop := exists l, step l w w'.

(** The channels the receiver holds, and all those that can still be answered. *)
Definition held (pc : RecvPc) : list nat := match pc with Holding _ _ xs => txs xs | _ => [] end.

Definition pending (w : World) : list nat := held (w_pc w) ++ flights (rs_rpcs (w_st w)).

Definition answered (w : World) : list nat := (rs_done (w_st w)).*1.

(** * Invariant: no channel is answered twice *)

Record world_inv (w : World) : Prop := {
  wi_nodup : NoDup (answered w ++ pending w);
  wi_next : forall t, t ∈ answered w ++ pending w -> (t < length (w_log w))%nat;
}.

(** What a turn does to the channels: it drops some, moves some, enters one. *)
Definition channels_step (w w' : World) : Prop :=
  (w_log w' = w_log w /\ answered w' ++ pending w' ⊆+ answered w ++ pending w) \/
  (length (w_log w') = S (length (w_log w)) /\
   answered w' ++ pending w' ⊆+ length (w_log w) :: answered w ++ pending w).

Lemma world_inv_step w w' : channels_step w w' -> world_inv w -> world_inv w'.
Proof.
  intros Hs [Hd Hn]. destruct Hs as [[En Hsub]|[En Hsub]].
  - split; [by eapply submseteq_NoDup|]. intros t Ht. rewrite En. apply Hn.
    by eapply elem_of_submseteq.
  - assert (NoDup (length (w_log w) :: answered w ++ pending w)) as Hd'.
    { apply NoDup_cons. split; [|done]. intros Hx%Hn. lia. }
    split; [by eapply submseteq_NoDup|]. intros t Ht. rewrite En.
    eapply elem_of_submseteq in Ht; [|done]. apply elem_of_cons in Ht as [->|Ht%Hn]; lia.
Qed.

Lemma message_turn m st :
  (forall fqdn plugin sid, m <> PmSessionCreate fqdn plugin sid) -> turn_ok st (handle_agent_data from_value m st).
Proof.
  intros Hm. destruct (turn_ok_refl st) as [Hdone Hpanic].
  destruct m as [fqdn plugin sid|fqdn plugin sid|fqdn plugin sid seq body]; cbn [handle_agent_data].
  - unfold handle_session_terminate. destruct (rs_sessions st !! fqdn) as [h|]; [|done].
    destruct (String.eqb h sid); [apply terminate_turn|done].
  - by destruct (Hm fqdn plugin sid).
  - unfold handle_data. destruct (rs_sessions st !! fqdn) as [h|]; [|done].
    destruct (String.eqb h sid); [|apply terminate_turn].
    destruct (from_value body) as [[ar|e]|]; [|done|done].
    destruct (remove_action_in_flight sid (ar_id ar) (rs_rpcs st)) as [o m] eqn:Hr. by eapply answer_turn.
Qed.

Lemma cancel_turn sid id st : turn_ok st (cancel_finish sid id st).
Proof. unfold cancel_finish. destruct (remove_action_in_flight _ _ _) as [o m] eqn:Hr. by eapply answer_turn. Qed.

(** A turn with the channels that the receiver holds beside it. *)
Lemma turn_channels st t h : turn_ok st t ->
  match t with
  | Done st' => (rs_done st').*1 ++ h ++ flights (rs_rpcs st') ≡ₚ (rs_done st).*1 ++ h ++ flights (rs_rpcs st)
  | Panic st' lost => exists dead, (forall t, t ∈ dead -> t ∈ rs_gone st) /\
      ((rs_done st').*1 ++ h ++ flights (rs_rpcs st')) ++ dead ++ (af_tx <$> lost) ≡ₚ (rs_done st).*1 ++ h ++ flights (rs_rpcs st)
  end.
Proof.
  destruct t as [st'|st' lost]; simpl.
  - intros (Hp & _). rewrite !(Permutation_app_swap_app _ h). by rewrite Hp.
  - intros ((dead & Hd & Hp) & _). exists dead. split; [done|]. rewrite !(Permutation_app_swap_app _ h), <-Hp. solve_Permutation.
Qed.

Lemma step_channels l w w' : step l w w' -> channels_step w w'.
Proof.
  unfold channels_step, answered, pending.
  destruct 1 as [| | | | |w l1 l2 f i sid st' Hg Hc|w l1 l2 f i sid st' lost Hg Hc|st ? ? ? m st' Hm Hh|st ? ? ? m st' lost Hm Hh
                |? ? ? ? ? ? ? ? ? Hc|st got open log fqdn sid old xs st' Hc| |? ? ? ? ? ? ? ? ? ? Hc|]; simpl.
  - by left.
  - right. split; [rewrite length_app; simpl; lia|]. rewrite !Permutation_middle.
    do 2 (apply submseteq_app; [done|]). apply flights_enter.
  - by left.
  - left. split; [done|]. unfold run_failed.
    destruct (remove_action_in_flight _ _ _) as [o m] eqn:Hr. apply flights_remove in Hr.
    simpl. rewrite Hr. apply submseteq_app; [done|]. apply submseteq_app; [done|].
    by apply submseteq_inserts_l.
  - by left.
  - left. split; [done|]. pose proof (turn_channels _ _ (held (w_pc w)) (cancel_turn sid i (w_st w))) as Ht.
    rewrite Hc in Ht. by rewrite Ht.
  - left. split; [done|]. pose proof (turn_channels _ _ (held (w_pc w)) (cancel_turn sid i (w_st w))) as Ht.
    rewrite Hc in Ht. destruct Ht as (dead & _ & <-). by apply submseteq_inserts_r.
  - left. split; [done|]. pose proof (turn_channels _ _ [] (message_turn m st Hm)) as Ht. rewrite Hh in Ht. simpl in Ht. by rewrite Ht.
  - left. split; [done|]. pose proof (turn_channels _ _ [] (message_turn m st Hm)) as Ht. rewrite Hh in Ht.
    destruct Ht as (dead & _ & Ht). simpl in Ht. rewrite <-Ht. by apply submseteq_inserts_r.
  - left. injection Hc as <- <-. by destruct (rs_sessions st !! fqdn).
  - left. injection Hc as <- <-. simpl. destruct (rs_rpcs st !! old) as [xs|] eqn:Hx; simpl.
    + by rewrite (flights_delete (rs_rpcs st) old xs).
    + by rewrite delete_id.
  - left. split; [done|]. apply submseteq_app; [done|]. apply flights_overwrite.
  - left. injection Hc as <- <-. split; [done|]. simpl. apply submseteq_app; [done|]. by apply submseteq_inserts_l.
  - by left.
Qed.

(** ** At most one answer *)
(** C14: however requests, cancellations, agent messages and the waits of
    [create_session] interleave from the start of the service, no channel is sent two
    answers, and a channel that has its answer is not in flight any more, so none of
    the [send]s of the runner can fail because the value was already sent. *)
Theorem answered_once w (Hw : rtc any_step World_new w) :
  NoDup (answered w) /\ (forall t, t ∈ answered w -> t ∉ pending w) /\ NoDup (pending w).
Proof.
  assert (world_inv w) as [Hd _].
  { revert Hw. apply (rtc_ind_r (fun w => world_inv w)).
    - split; [|intros t Ht]; unfold answered, pending, flights, gather in *; simpl in *;
        rewrite map_to_list_empty in *; [constructor|by apply elem_of_nil in Ht].
    - intros w1 w2 _ (l & Hs%step_channels) Hi. by eapply world_inv_step. }
  by apply NoDup_app in Hd.
Qed.

(** * Invariant: nothing is lost *)

Definition creating (pc : RecvPc) : option string :=
  match pc with Idle | Stopped _ => None | Entered _ s _ | Holding _ s _ => Some s end.

(** The order the runner needs: no action is entered under a session while that
    session is being created, action ids are fresh, and so are session ids. *)
Definition orderly (l : Label) (w : World) : Prop :=
  match l with
  | LEnter sid id => creating (w_pc w) <> Some sid /\ id ∉ action_get_id <$> w_log w
  | LMessage (PmSessionCreate _ _ sid) => rs_rpcs (w_st w) !! sid = None
  | LMessage _ | LOther => True
  end.

Definition orderly_step (w w' : World) : Prop := exists l, step l w w' /\ orderly l w.

(** An action in flight stands under its own id and has its own channel. *)
Definition placed (log : list Action) (i : string) (a : ActionInFlight) : Prop :=
  log !! af_tx a = Some (af_action a) /\ action_get_id (af_action a) = i.

Record tracked (w : World) : Prop := {
  tk_ids : NoDup (action_get_id <$> w_log w);
  tk_rpcs s i a : get_action_in_flight s i (rs_rpcs (w_st w)) = Some a -> placed (w_log w) i a;
  tk_held f s xs i a : w_pc w = Holding f s xs -> xs !! i = Some a -> placed (w_log w) i a;
  tk_open t f a s : w_open w !! t = Some (f, a, s) -> w_log w !! t = Some a;
  tk_put s : creating (w_pc w) = Some s -> rs_rpcs (w_st w) !! s = None;
}.

(** The channels that the receiver dropped when it ended. *)
Definition dropped (w : World) : list nat := match w_pc w with Stopped lost => af_tx <$> lost | _ => [] end.

Definition accounted (w : World) (t : nat) : Prop :=
  t ∈ answered w ++ pending w \/ t ∈ rs_gone (w_st w) \/ t ∈ dropped w.

(** Turns that only take actions out. *)
Lemma tracked_sub w st' got' open' :
  rpcs_sub (rs_rpcs st') (rs_rpcs (w_st w)) -> open' ⊆ w_open w ->
  tracked w -> tracked (MkWorld st' (w_pc w) got' open' (w_log w)).
Proof.
  intros [Hs Hn] Ho [Hids Hr Hh Hop Hp]. split; simpl; eauto.
  intros t f a s Ht. eapply Hop, lookup_weaken; done.
Qed.

(** The receiver ends. *)
Lemma tracked_stop w st' lost :
  rpcs_sub (rs_rpcs st') (rs_rpcs (w_st w)) -> tracked w -> tracked (MkWorld st' (Stopped lost) (w_got w) (w_open w) (w_log w)).
Proof. intros [Hs Hn] [Hids Hr Hh Hop Hp]. split; simpl; eauto; done. Qed.

Lemma placed_grow log i a b : placed log i a -> placed (log ++ [b]) i a.
Proof. intros [Hl Hi]. split; [|done]. by apply lookup_app_l_Some. Qed.

Lemma tracked_enter st pc got got' open log fqdn a sid :
  creating pc <> Some sid -> action_get_id a ∉ action_get_id <$> log ->
  tracked (MkWorld st pc got open log) ->
  tracked (MkWorld (run_enter (length log) a sid st) pc got'
             (<[length log := (fqdn, a, sid)]> open) (log ++ [a])).
Proof.
  intros Hc Hf [Hids Hr Hh Hop Hp]. simpl in *. split; simpl.
  - rewrite fmap_app. apply NoDup_app. split; [done|]. split; [|apply NoDup_singleton].
    intros i Hi ->%list_elem_of_singleton. done.
  - intros s i b. unfold get_action_in_flight, insert_action_in_flight.
    destruct (decide (s = sid)) as [->|Hs].
    + rewrite lookup_insert_eq. simpl. intros [[<- <-]|[_ Hb]]%lookup_insert_Some.
      * split; [|done]. by rewrite list_lookup_middle.
      * apply placed_grow, (Hr sid). unfold get_action_in_flight.
        revert Hb. destruct (rs_rpcs st !! sid); [done|]. simpl. by rewrite lookup_empty.
    + rewrite lookup_insert_ne by done. intros Hb. eapply placed_grow, Hr, Hb.
  - intros f s xs i b Hpc Hb. eapply placed_grow, Hh; done.
  - intros t f b s [[<- [= <- <- <-]]|[_ Ht]]%lookup_insert_Some.
    + by rewrite list_lookup_middle.
    + eapply lookup_app_l_Some, Hop, Ht.
  - intros s Hs. unfold insert_action_in_flight. rewrite lookup_insert_ne; [by apply Hp|].
    intros ->. by apply Hc.
Qed.

Lemma tracked_step w w' : orderly_step w w' -> tracked w -> tracked w'.
Proof.
  intros (l & Hs & Ho) Ht.
  destruct Hs as [| | | | |w l1 l2 fqdn id sid st' Hg Hc|w l1 l2 fqdn id sid st' lost Hg Hc|st got open log m st' Hm Hh
                |st got open log m st' lost Hm Hh|st got open log fqdn plugin sid old st' Hc
                |st got open log fqdn sid old xs st' Hc|st got open log fqdn sid xs|st got open log fqdn sid xs n st' lost Hc|st got open log]; simpl in Ho.
  - by apply tracked_sub.
  - destruct Ho as [Hc Hf]. eapply tracked_enter; done.
  - apply tracked_sub; [done|apply delete_subseteq|done].
  - apply tracked_sub; [apply rpcs_sub_remove|apply delete_subseteq|done].
  - apply tracked_sub; [done|apply delete_subseteq|done].
  - apply tracked_sub; [|done|done]. pose proof (cancel_turn sid id (w_st w)) as Hk. rewrite Hc in Hk. by destruct Hk as (_ & ? & _).
  - apply tracked_sub; [|done|done]. pose proof (cancel_turn sid id (w_st w)) as Hk. rewrite Hc in Hk. by destruct Hk as (_ & ? & _).
  - eapply (tracked_sub (MkWorld st Idle got open log)); [|done|done]. pose proof (message_turn m st Hm) as Hk. rewrite Hh in Hk.
    by destruct Hk as (_ & ? & _).
  - eapply (tracked_stop (MkWorld st Idle got open log)); [|done]. pose proof (message_turn m st Hm) as Hk. rewrite Hh in Hk.
    by destruct Hk as (_ & ? & _).
  - injection Hc as <- <-. destruct Ht as [Hids Hr Hh Hop Hp]. simpl in *.
    split; simpl; try done; destruct (rs_sessions st !! fqdn); naive_solver.
  - injection Hc as <- <-. destruct Ht as [Hids Hr Hh Hop Hp]. simpl in *.
    pose proof (rpcs_sub_delete (rs_rpcs st) old) as [Hd1 Hd2].
    split; simpl; try done.
    + intros s i a Ha. eapply Hr, Hd1, Ha.
    + intros f s xs i a. destruct (rs_rpcs st !! old) as [ys|] eqn:Hx; [|done].
      intros [= -> -> ->] Hi. apply (Hr old). unfold get_action_in_flight. by rewrite Hx.
    + intros s. destruct (rs_rpcs st !! old); intros [= <-]. by apply Hd2, Hp.
  - destruct Ht as [Hids Hr Hh Hop Hp]. simpl in *. split; simpl; try done.
    intros s i a. unfold get_action_in_flight. destruct (decide (s = sid)) as [->|Hne].
    + rewrite lookup_insert_eq. simpl. by apply (Hh fqdn sid xs).
    + rewrite lookup_insert_ne by done. apply Hr.
  - injection Hc as <- <-. by apply (tracked_stop (MkWorld st (Holding fqdn sid xs) got open log)).
  - by apply (tracked_stop (MkWorld st Idle got open log)).
Qed.

(** Two actions with the same id are the same action. *)
Lemma same_id_same_channel log i a t b :
  NoDup (action_get_id <$> log) -> placed log i a -> log !! t = Some b -> action_get_id b = i ->
  af_tx a = t.
Proof.
  intros Hnd [Ha Hi] Ht Hb. eapply (NoDup_lookup (action_get_id <$> log)); [done| |].
  - rewrite list_lookup_fmap, Ha. done.
  - rewrite list_lookup_fmap, Ht. simpl. congruence.
Qed.

Lemma fresh_not_in_flight w s i :
  tracked w -> i ∉ action_get_id <$> w_log w -> get_action_in_flight s i (rs_rpcs (w_st w)) = None.
Proof.
  intros Ht Hi. destruct (get_action_in_flight _ _ _) as [a|] eqn:Ha; [|done].
  apply (tk_rpcs _ Ht) in Ha as [Hl <-]. destruct Hi.
  by eapply list_elem_of_fmap_2, list_elem_of_lookup_2.
Qed.

Lemma accounted_perm w w' t :
  answered w' ++ pending w' ≡ₚ answered w ++ pending w -> rs_gone (w_st w') = rs_gone (w_st w) -> dropped w' = dropped w ->
  accounted w t -> accounted w' t.
Proof. unfold accounted. intros -> -> ->. done. Qed.

(** What a panic takes out had no client any more, or is dropped with the task. *)
Lemma accounted_panic w w' lost t :
  (exists dead, (forall t, t ∈ dead -> t ∈ rs_gone (w_st w)) /\
    (answered w' ++ pending w') ++ dead ++ (af_tx <$> lost) ≡ₚ answered w ++ pending w) ->
  rs_gone (w_st w') = rs_gone (w_st w) -> (forall x, x ∈ af_tx <$> lost -> x ∈ dropped w') -> (forall x, x ∈ dropped w -> x ∈ dropped w') ->
  accounted w t -> accounted w' t.
Proof.
  unfold accounted. intros (dead & Hdead & Hp) -> Hl Hd. rewrite <-Hp, !(elem_of_app (answered w' ++ pending w')), !elem_of_app. naive_solver.
Qed.

Lemma cancel_lost sid id st st' lost : cancel_finish sid id st = Panic st' lost -> lost = [].
Proof.
  unfold cancel_finish. destruct (remove_action_in_flight _ _ _) as [[a|] m]; [|done].
  destruct (complete_turn a (Ok json_null) (with_rpcs st m)) as [(_ & ->)|(_ & ->)]; congruence.
Qed.

Lemma accounted_enter st pc got got' open open' log a sid t :
  get_action_in_flight sid (action_get_id a) (rs_rpcs st) = None ->
  accounted (MkWorld st pc got open log) t \/ t = length log ->
  accounted (MkWorld (run_enter (length log) a sid st) pc got' open' (log ++ [a])) t.
Proof.
  unfold accounted, answered, pending. simpl. intros Hn.
  rewrite (flights_enter_new _ _ _ {| af_tx := length log; af_action := a |} Hn). simpl.
  rewrite !elem_of_app, elem_of_cons. naive_solver.
Qed.

Lemma accounted_failed w got' t t0 f a sid :
  tracked w -> w_open w !! t0 = Some (f, a, sid) -> accounted w t ->
  accounted (MkWorld (drop_rx t0 (run_failed a sid (w_st w))) (w_pc w) got' (delete t0 (w_open w)) (w_log w)) t.
Proof.
  unfold accounted, answered, pending, run_failed. simpl. intros Ht Ho.
  destruct (remove_action_in_flight _ _ _) as [o m] eqn:Hr. simpl.
  rewrite (flights_remove _ _ _ _ _ Hr), !elem_of_app, elem_of_union, elem_of_singleton.
  assert (forall b, o = Some b -> af_tx b = t0) as Hb.
  { intros b ->. eapply same_id_same_channel; [by apply Ht| |by eapply tk_open|done].
    eapply (tk_rpcs _ Ht sid). revert Hr. unfold remove_action_in_flight, get_action_in_flight.
    destruct (rs_rpcs (w_st w) !! sid); [|done]. by intros [= ? _]. }
  unfold opt_txs. destruct o as [b|]; simpl; [rewrite list_elem_of_singleton, (Hb b eq_refl)|rewrite elem_of_nil]; naive_solver.
Qed.

Lemma accounted_step w w' t :
  orderly_step w w' -> tracked w -> (t < length (w_log w'))%nat ->
  (forall t, (t < length (w_log w))%nat -> accounted w t) -> accounted w' t.
Proof.
  intros (l & Hs & Ho) Ht Hlt Hall.
  destruct Hs as [| | | | |w l1 l2 fqdn id sid st' Hg Hc|w l1 l2 fqdn id sid st' lost Hg Hc|st got open log m st' Hm Hh
                |st got open log m st' lost Hm Hh|st got open log fqdn plugin sid old st' Hc
                |st got open log fqdn sid old xs st' Hc|st got open log fqdn sid xs|st got open log fqdn sid xs n st' lost Hc|st got open log]; simpl in *;
    try specialize (Hall t Hlt).
  - done.
  - rewrite length_app in Hlt. simpl in Hlt.
    destruct Ho as [_ Hf]. eapply accounted_enter; [by apply (fresh_not_in_flight _ _ _ Ht)|].
    destruct (decide (t = length log)); [by right|left]. apply Hall. lia.
  - done.
  - by eapply accounted_failed.
  - destruct Hall as [?|[?|?]]; [by left|right; left; simpl; set_solver|by right; right].
  - revert Hall. pose proof (cancel_turn sid id (w_st w)) as Hk. pose proof (turn_channels _ _ (held (w_pc w)) Hk) as Hp. rewrite Hc in Hk, Hp.
    apply accounted_perm; [exact Hp|by destruct Hk as (_ & _ & ? & _)|done].
  - revert Hall. pose proof (cancel_turn sid id (w_st w)) as Hk. pose proof (turn_channels _ _ (held (w_pc w)) Hk) as Hp. rewrite Hc in Hk, Hp.
    apply (accounted_panic _ _ lost); [exact Hp|by destruct Hk as (_ & _ & ? & _)| |done].
    apply cancel_lost in Hc as ->. by intros x ?%elem_of_nil.
  - revert Hall. pose proof (message_turn m st Hm) as Hk. pose proof (turn_channels _ _ [] Hk) as Hp. rewrite Hh in Hk, Hp.
    apply accounted_perm; [exact Hp|by destruct Hk as (_ & _ & ? & _)|done].
  - revert Hall. pose proof (message_turn m st Hm) as Hk. pose proof (turn_channels _ _ [] Hk) as Hp. rewrite Hh in Hk, Hp.
    apply (accounted_panic _ _ lost); [exact Hp|by destruct Hk as (_ & _ & ? & _)|done|by intros x ?%elem_of_nil].
  - injection Hc as <- <-. by destruct (rs_sessions st !! fqdn).
  - injection Hc as <- <-. revert Hall. apply accounted_perm; [|done|by destruct (rs_rpcs st !! old)]. unfold answered, pending. simpl.
    destruct (rs_rpcs st !! old) as [ys|] eqn:Hx; simpl.
    + by rewrite (flights_delete (rs_rpcs st) old ys).
    + by rewrite delete_id.
  - revert Hall. apply accounted_perm; [|done|done]. unfold answered, pending. simpl.
    rewrite flights_insert; [done|]. by apply (tk_put _ Ht).
  - injection Hc as <- <-. revert Hall. apply (accounted_panic _ _ (map_to_list xs).*2); [|done|done|by intros x ?%elem_of_nil].
    exists []. split; [by intros x ?%elem_of_nil|]. unfold answered, pending. simpl. fold (txs xs). solve_Permutation.
  - destruct Hall as [?|[?|Hd]]; [by left|by right; left|]. by apply elem_of_nil in Hd.
Qed.

Lemma orderly_accounted w t :
  rtc orderly_step World_new w -> (t < length (w_log w))%nat ->
  t ∈ answered w \/ t ∈ pending w \/ t ∈ rs_gone (w_st w) \/ t ∈ dropped w.
Proof.
  intros Hw Hlt.
  assert (tracked w /\ forall t, (t < length (w_log w))%nat -> accounted w t) as [_ Ha].
  { revert Hw. clear t Hlt.
    apply (rtc_ind_r (fun w => tracked w /\ forall t, (t < length (w_log w))%nat -> accounted w t)).
    - split; [split; simpl; try done|simpl; lia]. apply NoDup_nil_2.
    - intros w1 w2 _ Hs [Ht Ha]. split; [by eapply tracked_step|].
      intros t Ht'. by eapply accounted_step. }
  destruct (Ha t Hlt) as [[|]%elem_of_app|[|]]; auto.
Qed.

(** ** Nothing is lost *)
(** C13: as long as no action is entered under a session while the receiver is still
    creating that session, and action ids and session ids are not reused, every
    action handed to the runner is accounted for after any interleaving, panics of
    requests and of the receiver included: it was answered, or it is in flight (or in
    the hands of the receiver, which moves it), or its client has gone, or the
    receiver has ended with it in its hands, in a panic that also dropped its
    channel, so that its client gets an error. *)
Theorem nothing_lost w (Hw : rtc orderly_step World_new w) t (Hlt : (t < length (w_log w))%nat) :
  t ∈ answered w \/ t ∈ pending w \/ t ∈ rs_gone (w_st w) \/
  exists lost, w_pc w = Stopped lost /\ t ∈ af_tx <$> lost.
Proof.
  destruct (orderly_accounted w t Hw Hlt) as [?|[?|[?|Hd]]]; auto. do 3 right. unfold dropped in Hd.
  destruct (w_pc w) as [| |lost|]; try by apply elem_of_nil in Hd. by exists lost.
Qed.

(** ** What a session's end does *)
(** Ending the session of a host panics exactly when the client of one of its
    actions in flight has gone, in the task that receives the messages of every agent.
    The host has no session any more in either case, no action is left under it, and
    all other sessions and their actions stand. Without a panic, every action that was in
    flight under it is answered, once, with the session error; a panic drops those
    that come after the action without a client. *)
Theorem terminate_session_spec fqdn sid st (Hs : rs_sessions st !! fqdn = Some sid) :
  ((exists st' lost, terminate_session fqdn st = Panic st' lost) <->
   exists id a, get_action_in_flight sid id (rs_rpcs st) = Some a /\ af_tx a ∈ rs_gone st) /\
  (forall st', (terminate_session fqdn st = Done st' \/ exists lost, terminate_session fqdn st = Panic st' lost) ->
   rs_sessions st' = delete fqdn (rs_sessions st) /\
   (forall id, get_action_in_flight sid id (rs_rpcs st') = None) /\
   (forall s, s ≠ sid -> rs_rpcs st' !! s = rs_rpcs st !! s) /\
   exists answers, rs_done st' = rs_done st ++ answers /\
     (forall t x, (t, x) ∈ answers ->
       x = Err ("Communications error, Node: " +:+ fqdn +:+ ", Reason: session terminated")) /\
     match terminate_session fqdn st with
     | Done _ => answers.*1 ≡ₚ txs (default ∅ (rs_rpcs st !! sid))
     | Panic _ lost => exists t, t ∈ rs_gone st /\ answers.*1 ++ t :: (af_tx <$> lost) ≡ₚ txs (default ∅ (rs_rpcs st !! sid))
     end).
Proof.
  assert (forall a, a ∈ (map_to_list (default ∅ (rs_rpcs st !! sid))).*2 <-> exists id, get_action_in_flight sid id (rs_rpcs st) = Some a) as Hin.
  { intros a. rewrite lookup_fmap_snd. unfold get_action_in_flight. destruct (rs_rpcs st !! sid); [done|]. simpl. setoid_rewrite lookup_empty. done. }
  assert (forall (l : list ActionInFlight) t x, (t, x) ∈ ((fun a => (af_tx a, terminated fqdn)) <$> l) -> x = terminated fqdn) as Hans.
  { by intros l t x (a & [= -> ->] & _)%list_elem_of_fmap. }
  assert (forall l : list ActionInFlight, ((fun a => (af_tx a, terminated fqdn)) <$> l).*1 = af_tx <$> l) as Htx.
  { intros l. by rewrite <-list_fmap_compose. }
  destruct (terminate_session_turn fqdn sid st Hs) as [(Hl & E)|(l1 & a & l2 & Hl & Ha & _ & E)]; rewrite E; split.
  - split; [by intros (? & ? & ?)|]. intros (id & a & Hid & Ha). destruct (Hl a); [apply Hin; eauto|done].
  - intros st' [[= <-]|(lost & [=])]. simpl. split_and!; [done| | |].
    + intros id. unfold get_action_in_flight. by rewrite lookup_delete_eq.
    + intros s Hne. by rewrite lookup_delete_ne.
    + eexists. split_and!; [done|eauto|]. by rewrite Htx.
  - split; [|eauto]. intros _. destruct (proj1 (Hin a)) as [id Hid]; [rewrite Hl; set_solver|eauto].
  - intros st' [[=]|(lost & [= <- <-])]. simpl. split_and!; [done| | |].
    + intros id. unfold get_action_in_flight. by rewrite lookup_delete_eq.
    + intros s Hne. by rewrite lookup_delete_ne.
    + eexists. split_and!; [done|eauto|]. exists (af_tx a). split; [done|]. rewrite Htx. unfold txs. by rewrite Hl, fmap_app.
Qed.

(** ** A request that meets a new session can be lost *)

Definition race_action (id : string) : Action := ActionStart "mount" json_null id.

Definition race_flight (t : nat) (id : string) : gmap string ActionInFlight :=
  {[ id := {| af_tx := t; af_action := race_action id |} ]}.

(** The host holds session "s1" with action "a1" in flight and opens session "s2";
    while the receiver holds "a1", the request for "a2" finds "s2". *)
Definition race_holding : World :=
  {| w_st := {| rs_sessions := {[ "oss1" := "s2" ]}; rs_rpcs := ∅;
                rs_sent := [create_data_message "s1" "oss1" (race_action "a1")];
                rs_done := []; rs_gone := ∅ |};
     w_pc := Holding "oss1" "s2" (race_flight 0 "a1");
     w_got := []; w_open := ∅; w_log := [race_action "a1"] |}.

Lemma race_holding_reachable : rtc orderly_step World_new race_holding.
Proof.
  eapply rtc_l; [eexists; split; [apply (step_create _ _ _ _ "oss1" "action_runner" "s1"); reflexivity|done]|].
  eapply rtc_l; [eexists; split; [apply (step_session _ "oss1" (race_action "a1") "s1"); reflexivity|done]|].
  eapply rtc_l; [eexists; split;
    [apply (step_enter _ _ [] [] _ _ "oss1" "mount" json_null "a1" "s1")|split; [done|apply not_elem_of_nil]]|].
  eapply rtc_l; [eexists; split; [apply (step_sent _ 0 "oss1" (race_action "a1") "s1"); reflexivity|done]|].
  eapply rtc_l; [eexists; split; [apply (step_create _ _ _ _ "oss1" "action_runner" "s2"); reflexivity|reflexivity]|].
  eapply rtc_l; [eexists; split; [apply (step_take _ _ _ _ "oss1" "s2" "s1"); reflexivity|done]|].
  reflexivity.
Qed.

(** [create_session] enters the new session before it has moved the actions of
    the old one, and then stores them with [insert]. From a state that only orderly
    turns led to, a request that arrives in between is entered under the new session
    and overwritten: its channel is answered by nobody and is in flight nowhere, so
    its client gets an error although the agent was sent the action. *)
Theorem create_session_race :
  rtc orderly_step World_new race_holding /\
  exists w, rtc any_step race_holding w /\
    w_log w = [race_action "a1"; race_action "a2"] /\
    create_data_message "s2" "oss1" (race_action "a2") ∈ rs_sent (w_st w) /\
    1%nat ∉ answered w /\ 1%nat ∉ pending w /\ 1%nat ∉ rs_gone (w_st w).
Proof.
  split; [apply race_holding_reachable|]. eexists. split.
  - eapply rtc_l; [eexists; apply (step_session _ "oss1" (race_action "a2") "s2"); reflexivity|].
    eapply rtc_l; [eexists; apply (step_enter _ _ [] [] _ _ "oss1" "mount" json_null "a2" "s2")|].
    eapply rtc_l; [eexists; apply (step_sent _ 1 "oss1" (race_action "a2") "s2"); reflexivity|].
    eapply rtc_l; [eexists; apply step_put|]. reflexivity.
  - split; [reflexivity|]. split; [right; left|]. split_and!.
    + apply not_elem_of_nil.
    + unfold pending. change (flights _) with [0%nat]. simpl. rewrite list_elem_of_singleton. done.
    + set_solver.
Qed.

End World.

(** * Waiting for a session *)

Section Await.
Context {J : Json}.
Implicit Types (polls : list (Z * gmap string string)).
Open Scope Z_scope.

(** No earlier reading saw the session of the host, or was too late. *)
Definition unseen fqdn until polls (k : nat) : Prop :=
  forall j now m, (j < k)%nat -> polls !! j = Some (now, m) -> now < until /\ m !! fqdn = None.

Lemma unseen_cons fqdn until now m polls k :
  now < until -> m !! fqdn = None -> unseen fqdn until polls k ->
  unseen fqdn until ((now, m) :: polls) (S k).
Proof. intros Hn Hm Hu [|j] now' m' Hj; [by intros [= <- <-]|]. apply Hu. lia. Qed.

Lemma await_session_first fqdn until polls :
  match await_session fqdn until polls with
  | Some (Ok id) => exists k now m, polls !! k = Some (now, m) /\ unseen fqdn until polls k /\
      now < until /\ m !! fqdn = Some id
  | Some (Err e) => e = AwaitSession fqdn /\
      exists k now m, polls !! k = Some (now, m) /\ unseen fqdn until polls k /\ until <= now
  | None => forall now m, (now, m) ∈ polls -> now < until
  end.
Proof.
  induction polls as [|[now m] polls IH]; simpl; [by intros ? ? ?%elem_of_nil|].
  destruct (Z.leb_spec until now) as [Hu|Hu].
  { split; [done|]. exists 0%nat, now, m. split_and!; [done| |done]. intros j ? ? ?. lia. }
  destruct (m !! fqdn) as [id|] eqn:Hm.
  { exists 0%nat, now, m. split_and!; [done| |done|done]. intros j ? ? ?. lia. }
  destruct (await_session fqdn until polls) as [[id|e]|].
  - destruct IH as (k & now' & m' & ? & ? & ?). exists (S k), now', m'. auto using unseen_cons.
  - destruct IH as (-> & k & now' & m' & ? & ? & ?). split; [done|].
    exists (S k), now', m'. auto using unseen_cons.
  - intros now' m' [[= -> ->]|Hin]%elem_of_cons; eauto.
Qed.

(** ** A request does not wait for ever *)
(** [await_session] reads the clock and the sessions at most every 500 ms, so a
    request that started at [start] has its answer within one reading more than
    [timeout] holds half seconds: the session of the first reading that sees one in
    time, or [AwaitSession] at the first reading past the time limit when none did. *)
Theorem await_session_decides fqdn start timeout polls
  (Hpace : forall k now m, polls !! k = Some (now, m) -> start + 500 * Z.of_nat k <= now)
  (Hlong : timeout < 500 * Z.of_nat (length polls)) (Hnow : 0 <= timeout)
  (Hmul : (500 | timeout)) :
  exists k now m, polls !! k = Some (now, m) /\ unseen fqdn (start + timeout) polls k /\
    (500 * Z.of_nat k <= timeout) /\
    ((now < start + timeout /\ exists id, m !! fqdn = Some id /\
        await_session fqdn (start + timeout) polls = Some (Ok id)) \/
     (start + timeout <= now /\
        await_session fqdn (start + timeout) polls = Some (Err (AwaitSession fqdn)))).
Proof.
  assert (forall k, unseen fqdn (start + timeout) polls k -> (exists x, polls !! k = Some x) ->
    500 * Z.of_nat k <= timeout) as Hk.
  { intros [|k] Hu (x & Hx); [lia|].
    destruct (lookup_lt_is_Some_2 polls k) as ((now & m) & Hy).
    { apply lookup_lt_Some in Hx. lia. }
    destruct (Hu k now m) as [Hlt _]; [lia|done|]. apply Hpace in Hy. destruct Hmul. lia. }
  pose proof (await_session_first fqdn (start + timeout) polls) as Hf.
  destruct (await_session _ _ polls) as [[id|e]|].
  - destruct Hf as (k & now & m & ? & ? & ? & ?). exists k, now, m. split_and!; eauto.
  - destruct Hf as (-> & k & now & m & ? & ? & ?). exists k, now, m. split_and!; eauto.
  - exfalso. destruct Hmul as [q ->].
    destruct (lookup_lt_is_Some_2 polls (Z.to_nat q)) as ((now & m) & Hx); [lia|].
    pose proof (Hpace _ _ _ Hx). apply list_elem_of_lookup_2, Hf in Hx. lia.
Qed.

End Await.

(** * Witnesses *)

#[local] Instance unit_json : Json := {| value := unit; json_null := tt; value_eq_dec := _ |}.

(** An agent whose every message is the end of action "a1". *)
Definition one_answer (v : value) : option (Result string ActionResult) :=
  Some (Ok {| ar_id := "a1"; ar_result := Ok tt |}).

Definition answered_world : World :=
  {| w_st := {| rs_sessions := {[ "oss1" := "s1" ]}; rs_rpcs := {[ "s1" := ∅ ]};
                rs_sent := [create_data_message "s1" "oss1" (race_action "a1")];
                rs_done := [(0%nat, Ok tt)]; rs_gone := ∅ |};
     w_pc := Idle; w_got := []; w_open := ∅; w_log := [race_action "a1"] |}.

Definition loaded_state : RunnerState :=
  {| rs_sessions := {[ "oss1" := "s1"; "oss2" := "t1" ]};
     rs_rpcs := {[ "s1" := race_flight 0 "a1"; "t1" := race_flight 1 "a2" ]};
     rs_sent := []; rs_done := []; rs_gone := ∅ |}.

Lemma create_session_moves_witness :
  get_action_in_flight "s2" "a1" (rs_rpcs (create_session "oss1" "s2" loaded_state)) =
    Some {| af_tx := 0; af_action := race_action "a1" |}.
Proof.
  destruct (create_session_moves "oss1" "s1" "s2" loaded_state) as (_ & Hm & _); [done|done|done|].
  rewrite Hm. reflexivity.
Defined.

Lemma terminate_session_spec_witness :
  exists st', terminate_session "oss1" loaded_state = Done st' /\
    rs_sessions st' = delete "oss1" (rs_sessions loaded_state).
Proof.
  destruct (terminate_session_spec "oss1" "s1" loaded_state eq_refl) as (_ & Hs).
  destruct (terminate_session "oss1" loaded_state) as [st'|] eqn:E; [|by vm_compute in E].
  exists st'. split; [done|]. apply (Hs st'). by left.
Defined.

(** Two actions in flight, the client of one has gone: when the session ends, the channel of the
    other is dropped. *)
Definition abandoned_state : RunnerState :=
  {| rs_sessions := {[ "oss1" := "s1" ]}; rs_rpcs := {[ "s1" := race_flight 0 "a1" ∪ race_flight 1 "a2" ]};
     rs_sent := []; rs_done := []; rs_gone := {[ 0%nat ]} |}.

Example panic_drops_others :
  match terminate_session "oss1" abandoned_state with Panic st lost => Some ((rs_done st).*1, af_tx <$> lost) | Done _ => None end = Some ([], [1%nat]).
Proof. by vm_compute. Qed.

Lemma answered_world_reachable : rtc (orderly_step one_answer) World_new answered_world.
Proof.
  eapply rtc_l; [eexists; split; [apply (step_create _ _ _ _ _ "oss1" "action_runner" "s1"); reflexivity|done]|].
  eapply rtc_l; [eexists; split; [apply (step_session _ _ "oss1" (race_action "a1") "s1"); reflexivity|done]|].
  eapply rtc_l; [eexists; split;
    [apply (step_enter _ _ _ [] [] _ _ "oss1" "mount" json_null "a1" "s1")|split; [done|apply not_elem_of_nil]]|].
  eapply rtc_l; [eexists; split; [apply (step_sent _ _ 0 "oss1" (race_action "a1") "s1"); reflexivity|done]|].
  eapply rtc_l; [eexists; split;
    [apply (step_message _ _ _ _ _ (PmData "oss1" "action_runner" "s1" 1 json_null)); [done|reflexivity]|done]|].
  reflexivity.
Qed.

Lemma orderly_any w w' : rtc (orderly_step one_answer) w w' -> rtc (any_step one_answer) w w'.
Proof.
  induction 1 as [|w w1 w' (l & Hs & _) _ IH]; [done|]. eapply rtc_l; [by exists l|done].
Qed.

Lemma answered_once_witness : answered answered_world = [0%nat] /\ NoDup (answered answered_world).
Proof.
  split; [reflexivity|].
  by apply (answered_once one_answer answered_world (orderly_any _ _ answered_world_reachable)).
Defined.

Lemma nothing_lost_witness :
  0%nat ∈ answered answered_world \/ 0%nat ∈ pending answered_world \/
  0%nat ∈ rs_gone (w_st answered_world) \/
  exists lost, w_pc answered_world = Stopped lost /\ 0%nat ∈ af_tx <$> lost.
Proof. apply (nothing_lost one_answer answered_world answered_world_reachable 0). simpl. lia. Defined.

(** A host without a session, asked for with the runner's time limit of 30 s. *)
Definition silent_polls : list (Z * gmap string string) :=
  (fun i => (500 * Z.of_nat i, ∅)%Z) <$> seq 0 61.

Lemma await_session_decides_witness :
  exists r, await_session "oss1" (0 + 30000)%Z silent_polls = Some r.
Proof.
  destruct (await_session_decides "oss1" 0 30000 silent_polls) as (k & now & m & _ & _ & _ & Hr).
  - intros k now m (i & [= -> ->] & (-> & _)%lookup_seq)%list_lookup_fmap_Some. lia.
  - vm_compute. reflexivity.
  - lia.
  - exists 60%Z. reflexivity.
  - destruct Hr as [(_ & id & _ & Hr)|(_ & Hr)]; eauto.
Defined.
