(* ===== verification/AgentComms.v ===== *)
(** The agent communication service, [iml-agent-comms/src/]: agents post their
    messages to it and fetch those meant for them; behind it are the queues of the
    services. A function is what the code does between two points where it waits;
    where several messages are sent in a row, [transmit] cuts the row at the first
    one that fails. *)
From S2P Require Import Prelude RustStd Ordering WireTypes.
From stdpp Require Import base gmap sets list strings.
From Stdlib Require Import ZArith.

Open Scope Z_scope.

(** The bytes of a message and [serde_json]'s reading of them: as a message, and as
    any object with an [fqdn] field. *)
Class Bytes {J : Json} : Type := {
  raw : Type;
  to_vec : ManagerMessage value -> raw;
  from_slice : raw -> option (ManagerMessage value);
  from_slice_fqdn : raw -> option Fqdn;
  from_to (m : ManagerMessage value) : from_slice (to_vec m) = Some m;
  fqdn_to (m : ManagerMessage value) : from_slice_fqdn (to_vec m) = Some (mm_fqdn m);
}.

Section AgentComms.
Context {J : Json} {B : Bytes}.

(** * Sessions: [session.rs] *)

Record Session : Type := MkSession { s_fqdn : Fqdn; s_id : Id; s_plugin : PluginName }.

(** [uuid] is the one [Uuid::new_v4] gives. *)
Definition Session_new (uuid : Id) (plugin : PluginName) (fqdn : Fqdn) : Session :=
  {| s_fqdn := fqdn; s_id := uuid; s_plugin := plugin |}.

Abbreviation Sessions := (gmap PluginName Session) (only parsing).

Definition get_by_session_id (plugin : PluginName) (id : Id) (sessions : Sessions) : option Session :=
  s ← sessions !! plugin; if String.eqb (s_id s) id then Some s else None.

Definition is_session_valid (msg : ManagerMessage value) (sessions : Sessions) : bool :=
  match msg with
  | MmSessionTerminateAll _ => true
  | MmSessionTerminate _ plugin session_id
  | MmSessionCreateResponse _ plugin session_id
  | MmData _ plugin session_id _ => bool_decide (is_Some (get_by_session_id plugin session_id sessions))
  end.

(** * Hosts: [host.rs] *)

(** The queue and the sessions are behind an [Arc], but no host is ever replaced. *)
Record Host : Type := MkHost {
  ho_fqdn : Fqdn;
  ho_client_start_time : string;
  ho_stop_reading : option nat;
  ho_queue : list raw;
  ho_sessions : Sessions;
}.

Definition Host_new (fqdn : Fqdn) (client_start_time : string) : Host :=
  {| ho_fqdn := fqdn; ho_client_start_time := client_start_time; ho_stop_reading := None;
     ho_queue := []; ho_sessions := ∅ |}.

Definition set_start_time (h : Host) (t : string) : Host :=
  {| ho_fqdn := ho_fqdn h; ho_client_start_time := t; ho_stop_reading := ho_stop_reading h;
     ho_queue := ho_queue h; ho_sessions := ho_sessions h |}.
Definition set_stop_reading (h : Host) (c : option nat) : Host :=
  {| ho_fqdn := ho_fqdn h; ho_client_start_time := ho_client_start_time h; ho_stop_reading := c;
     ho_queue := ho_queue h; ho_sessions := ho_sessions h |}.
Definition set_queue (h : Host) (q : list raw) : Host :=
  {| ho_fqdn := ho_fqdn h; ho_client_start_time := ho_client_start_time h;
     ho_stop_reading := ho_stop_reading h; ho_queue := q; ho_sessions := ho_sessions h |}.
Definition set_sessions (h : Host) (s : Sessions) : Host :=
  {| ho_fqdn := ho_fqdn h; ho_client_start_time := ho_client_start_time h;
     ho_stop_reading := ho_stop_reading h; ho_queue := ho_queue h; ho_sessions := s |}.

(** [Host::stop]: the reader it wakes, if there is one. *)
Definition stop (h : Host) : option nat * Host := (ho_stop_reading h, set_stop_reading h None).

Abbreviation Hosts := (gmap Fqdn Host) (only parsing).

Definition get_or_insert (hosts : Hosts) (fqdn : Fqdn) (client_start_time : string) : Host * Hosts :=
  match hosts !! fqdn with
  | Some h => (h, hosts)
  | None => let h := Host_new fqdn client_start_time in (h, <[fqdn := h]> hosts)
  end.

(** * Messages: [messaging.rs] *)

Record AgentData : Type := MkAgentData {
  ad_fqdn : Fqdn;
  ad_plugin : PluginName;
  ad_session_id : Id;
  ad_session_seq : Z;
  ad_body : value;
}.

(** [From<Message> for AgentData]; [None] is its panic. *)
Definition agent_data_of (msg : Message) : option AgentData :=
  match msg with
  | MsgData fqdn plugin session_id session_seq body =>
      Some (MkAgentData fqdn plugin session_id session_seq body)
  | MsgSessionCreateRequest _ _ => None
  end.

(** [From<AgentData> for PluginMessage]. *)
Definition plugin_message_of (d : AgentData) : PluginMessage :=
  PmData (ad_fqdn d) (ad_plugin d) (ad_session_id d) (ad_session_seq d) (ad_body d).

(** * Handlers: [main.rs] *)

(** A message sent to the queue of a service, or to the agents' queue. *)
Inductive Publish : Type :=
| ToPlugin (queue : string) (m : PluginMessage)
| ToAgents (m : ManagerMessage value).

Definition plugin_queue (plugin : PluginName) : string := "rust_agent_" +:+ plugin +:+ "_rx".

(** A row of [send_message(..).await?]: those before number [fails] go out. *)
Definition transmit (fails : option nat) (l : list Publish) : list Publish * bool :=
  match fails with
  | Some n => if (n <? length l)%nat then (take n l, false) else (l, true)
  | None => (l, true)
  end.

Definition data_handler (has_session : bool) (data : AgentData) : list Publish :=
  if has_session then [ToPlugin (plugin_queue (ad_plugin data)) (plugin_message_of data)]
  else [ToAgents (MmSessionTerminate (ad_fqdn data) (ad_plugin data) (ad_session_id data))].

Definition session_create_req_handler (uuid : Id) (sessions : Sessions) (fqdn : Fqdn)
    (plugin : PluginName) : Sessions * list Publish :=
  let session := Session_new uuid plugin fqdn in
  let last_opt := sessions !! plugin in
  (<[plugin := session]> sessions,
   match last_opt with
   | Some last => [ToPlugin (plugin_queue plugin)
                     (PmSessionTerminate (s_fqdn last) (s_plugin last) (s_id last))]
   | None => []
   end ++
   [ToPlugin (plugin_queue plugin) (PmSessionCreate fqdn plugin (s_id session));
    ToAgents (MmSessionCreateResponse fqdn plugin (s_id session))]).

(** One message of a posted envelope. *)
Definition handle_message (uuid : Id) (sessions : Sessions) (msg : Message) :
    Sessions * list Publish :=
  match msg with
  | MsgData fqdn plugin session_id session_seq body =>
      let has_session := bool_decide (is_Some (get_by_session_id plugin session_id sessions)) in
      (sessions, data_handler has_session (MkAgentData fqdn plugin session_id session_seq body))
  | MsgSessionCreateRequest fqdn plugin => session_create_req_handler uuid sessions fqdn plugin
  end.

(** The consumer of the agents' queue; [None] ends the service. *)
Definition deliver_to_host (data : raw) (hosts : Hosts) : option Hosts :=
  fqdn ← from_slice_fqdn data;
  Some match hosts !! fqdn with
       | Some host => <[fqdn := set_queue host (ho_queue host ++ [data])]> hosts
       | None => hosts
       end.

(** A fetch, up to its wait: the reader it stops and, if the agent is not the one
    known, the answer. *)
Definition fetch_enter (fqdn : Fqdn) (client_start_time : string) (hosts : Hosts) :
    option nat * option (list (ManagerMessage value)) * Hosts :=
  let '(host, hosts) := get_or_insert hosts fqdn client_start_time in
  let '(stopped, host) := stop host in
  if String.eqb (ho_client_start_time host) client_start_time then
    (stopped, None, <[fqdn := host]> hosts)
  else
    (stopped, Some [MmSessionTerminateAll fqdn],
     <[fqdn := set_start_time host client_start_time]> hosts).

(** It makes itself the reader; [tx] is its channel. *)
Definition fetch_wait (fqdn : Fqdn) (client_start_time : string) (tx : nat) (hosts : Hosts) : Hosts :=
  let '(host, hosts) := get_or_insert hosts fqdn client_start_time in
  <[fqdn := set_stop_reading host (Some tx)]> hosts.

(** [flush_queue::flush], one turn of its loop: [None] to wait 100 ms more. *)
Definition flush_turn (now timeout : Z) (queue : list raw) : option (list raw) * list raw :=
  if timeout <=? now then (Some [], queue)
  else match queue with
       | [] => (None, [])
       | _ => (Some queue, [])
       end.

(** The end of a fetch: the messages are read, all or none, and those of dead
    sessions dropped. *)
Definition fetch_finish (xs : list raw) (sessions : Sessions) : option (list (ManagerMessage value)) :=
  xs ← mapM from_slice xs;
  Some (List.filter (fun x => is_session_valid x sessions) xs).

End AgentComms.
