(* ===== verification/CommsSpec.v ===== *)
(** What the agent communication service promises to the services behind it and to
    the agents. Each service sees, for every host, one well-formed stream of
    sessions: a session is created before its data arrives and terminated before
    the next one is created. An agent gets each message at most once and only what
    was sent to it. *)
From S2P Require Import Prelude RustStd Ordering WireTypes AgentComms.
From stdpp Require Import base gmap sets list strings.
From Stdlib Require Import ZArith.

(** * The session stream of one host and one plugin *)

Section Stream.
Context {J : Json}.
Implicit Types (l : list PluginMessage).

Definition pm_fqdn (m : PluginMessage) : string :=
  match m with PmSessionTerminate f _ _ | PmSessionCreate f _ _ | PmData f _ _ _ _ => f end.

Definition pm_plugin (m : PluginMessage) : string :=
  match m with PmSessionTerminate _ p _ | PmSessionCreate _ p _ | PmData _ p _ _ _ => p end.

(** What may come next, after which session is open. *)
Definition stream_step (cur : option string) (m : PluginMessage) : option (option string) :=
  match m, cur with
  | PmSessionCreate _ _ s, None => Some (Some s)
  | PmSessionTerminate _ _ s, Some s' => if String.eqb s s' then Some None else None
  | PmData _ _ s _ _, Some s' => if String.eqb s s' then Some cur else None
  | _, _ => None
  end.

Fixpoint stream (cur : option string) l : option (option string) :=
  match l with
  | [] => Some cur
  | m :: l => cur ← stream_step cur m; stream cur l
  end.

Lemma stream_app cur l1 l2 : stream cur (l1 ++ l2) = (c ← stream cur l1; stream c l2).
Proof.
  revert cur. induction l1 as [|m l1 IH]; intros cur; simpl; [done|].
  destruct (stream_step cur m); simpl; [apply IH|done].
Qed.

(** The messages of one host and plugin. *)
Definition of_session (fqdn plugin : string) (m : PluginMessage) : bool :=
  String.eqb (pm_fqdn m) fqdn && String.eqb (pm_plugin m) plugin.

Definition substream (fqdn plugin : string) l : list PluginMessage :=
  List.filter (of_session fqdn plugin) l.

Lemma substream_app fqdn plugin l1 l2 :
  substream fqdn plugin (l1 ++ l2) = substream fqdn plugin l1 ++ substream fqdn plugin l2.
Proof. apply List.filter_app. Qed.

Lemma substream_other fqdn plugin l :
  (forall m, m ∈ l -> of_session fqdn plugin m = false) -> substream fqdn plugin l = [].
Proof.
  induction l as [|m l IH]; intros Hl; simpl; [done|].
  rewrite (Hl m) by left. apply IH. intros x Hx. apply Hl. by right.
Qed.

Lemma substream_same fqdn plugin l :
  (forall m, m ∈ l -> of_session fqdn plugin m = true) -> substream fqdn plugin l = l.
Proof.
  induction l as [|m l IH]; intros Hl; simpl; [done|].
  rewrite (Hl m) by left. f_equal. apply IH. intros x Hx. apply Hl. by right.
Qed.

End Stream.

(** * The service, with everything that runs in it *)

Section Comms.
Context {J : Json} {B : Bytes}.

(** A fetch that has entered, that waits for messages, and that has taken them. *)
Inductive Fetch : Type :=
| FEntered (fqdn start_time : string)
| FWaiting (fqdn : string)
| FDrained (fqdn : string) (xs : list raw).

(** The hosts; what is in the broker's queue for the agents; every message sent to a
    service (with its queue) and to the agents; what the agents were given; the
    fetches and the posted messages under way; the session ids seen so far; whether
    a message could not be sent. *)
Record Comms : Type := MkComms {
  cm_hosts : gmap string Host;
  cm_tx : list raw;
  cm_published : list (string * PluginMessage);
  cm_sent : list (ManagerMessage value);
  cm_delivered : list (string * ManagerMessage value);
  cm_fetches : gmap nat Fetch;
  cm_posts : list (string * list Message);
  cm_used : gset string;
  cm_failed : bool;
}.

Definition Comms_new : Comms :=
  {| cm_hosts := ∅; cm_tx := []; cm_published := []; cm_sent := []; cm_delivered := [];
     cm_fetches := ∅; cm_posts := []; cm_used := ∅; cm_failed := false |}.

Definition msg_fqdn (m : Message) : string :=
  match m with MsgData f _ _ _ _ | MsgSessionCreateRequest f _ => f end.

Definition msg_ids (m : Message) : gset string :=
  match m with MsgData _ _ s _ _ => {[s]} | MsgSessionCreateRequest _ _ => ∅ end.

Definition to_plugins (l : list Publish) : list (string * PluginMessage) :=
  omap (fun p => match p with ToPlugin q m => Some (q, m) | ToAgents _ => None end) l.

Definition to_agents (l : list Publish) : list (ManagerMessage value) :=
  omap (fun p => match p with ToAgents m => Some m | ToPlugin _ _ => None end) l.

(** A fetch that waits and whose channel is used or dropped ends without messages. *)
Definition end_waiting (n : option nat) (fs : gmap nat Fetch) : gmap nat Fetch :=
  match n with
  | Some n => match fs !! n with Some (FWaiting _) => delete n fs | _ => fs end
  | None => fs
  end.

(** One turn of one task. Agents post under their own name; a uuid is not one seen
    before; the services send no termination. *)
Inductive comms_step : Comms -> Comms -> Prop :=
| cs_post c fqdn env :
    Forall (fun m => msg_fqdn m = fqdn) (en_messages env) ->
    comms_step c (MkComms (get_or_insert (cm_hosts c) fqdn (en_client_start_time env)).2 (cm_tx c)
      (cm_published c) (cm_sent c) (cm_delivered c) (cm_fetches c)
      (cm_posts c ++ [(fqdn, en_messages env)]) (⋃ (msg_ids <$> en_messages env) ∪ cm_used c)
      (cm_failed c))
| cs_message c l1 l2 fqdn msg msgs host uuid fails sessions pubs out ok :
    cm_posts c = l1 ++ (fqdn, msg :: msgs) :: l2 ->
    cm_hosts c !! fqdn = Some host -> uuid ∉ cm_used c ->
    handle_message uuid (ho_sessions host) msg = (sessions, pubs) ->
    transmit fails pubs = (out, ok) ->
    comms_step c (MkComms (<[fqdn := set_sessions host sessions]> (cm_hosts c))
      (cm_tx c ++ (to_vec <$> to_agents out)) (cm_published c ++ to_plugins out)
      (cm_sent c ++ to_agents out) (cm_delivered c) (cm_fetches c)
      (l1 ++ (if ok then [(fqdn, msgs)] else []) ++ l2) ({[uuid]} ∪ cm_used c)
      (cm_failed c || negb ok))
| cs_service c m :
    (forall f p s, m <> MmSessionTerminate f p s) ->
    comms_step c (MkComms (cm_hosts c) (cm_tx c ++ [to_vec m]) (cm_published c) (cm_sent c ++ [m])
      (cm_delivered c) (cm_fetches c) (cm_posts c) (cm_used c) (cm_failed c))
| cs_deliver c x tx hosts :
    cm_tx c = x :: tx -> deliver_to_host x (cm_hosts c) = Some hosts ->
    comms_step c (MkComms hosts tx (cm_published c) (cm_sent c) (cm_delivered c) (cm_fetches c)
      (cm_posts c) (cm_used c) (cm_failed c))
| cs_fetch c n fqdn t stopped reply hosts :
    cm_fetches c !! n = None ->
    fetch_enter fqdn t (cm_hosts c) = (stopped, reply, hosts) ->
    comms_step c (MkComms hosts (cm_tx c) (cm_published c) (cm_sent c ++ default [] reply)
      (cm_delivered c ++ ((fun m => (fqdn, m)) <$> default [] reply))
      (let fs := end_waiting stopped (cm_fetches c) in
       match reply with Some _ => fs | None => <[n := FEntered fqdn t]> fs end)
      (cm_posts c) (cm_used c) (cm_failed c))
| cs_wait c n fqdn t :
    cm_fetches c !! n = Some (FEntered fqdn t) ->
    comms_step c (MkComms (fetch_wait fqdn t n (cm_hosts c)) (cm_tx c) (cm_published c) (cm_sent c)
      (cm_delivered c)
      (<[n := FWaiting fqdn]>
         (end_waiting (h ← cm_hosts c !! fqdn; ho_stop_reading h) (cm_fetches c)))
      (cm_posts c) (cm_used c) (cm_failed c))
| cs_flush c n fqdn host now timeout xs q :
    cm_fetches c !! n = Some (FWaiting fqdn) -> cm_hosts c !! fqdn = Some host ->
    flush_turn now timeout (ho_queue host) = (Some xs, q) ->
    comms_step c (MkComms (<[fqdn := set_queue host q]> (cm_hosts c)) (cm_tx c) (cm_published c)
      (cm_sent c) (cm_delivered c) (<[n := FDrained fqdn xs]> (cm_fetches c)) (cm_posts c)
      (cm_used c) (cm_failed c))
| cs_finish c n fqdn xs host :
    cm_fetches c !! n = Some (FDrained fqdn xs) -> cm_hosts c !! fqdn = Some host ->
    comms_step c (MkComms (cm_hosts c) (cm_tx c) (cm_published c) (cm_sent c)
      (cm_delivered c ++ ((fun m => (fqdn, m)) <$> default [] (fetch_finish xs (ho_sessions host))))
      (delete n (cm_fetches c)) (cm_posts c) (cm_used c) (cm_failed c)).

(** The session the service holds for a plugin of a host. *)
Definition session_of (hosts : gmap string Host) (fqdn plugin : string) : option Session :=
  h ← hosts !! fqdn; ho_sessions h !! plugin.

(** * Every turn but the handling of a message leaves the sessions alone *)

Definition same_sessions (hosts hosts' : gmap string Host) : Prop :=
  forall f p, session_of hosts' f p = session_of hosts f p.

Lemma same_sessions_insert hosts f h h' :
  hosts !! f = Some h -> ho_sessions h' = ho_sessions h -> same_sessions hosts (<[f := h']> hosts).
Proof.
  intros Hh Hs f' p. unfold session_of. destruct (decide (f' = f)) as [->|Hne].
  - rewrite lookup_insert_eq, Hh. simpl. by rewrite Hs.
  - by rewrite lookup_insert_ne.
Qed.

Lemma same_sessions_get_or_insert hosts f t :
  let '(h, hosts') := get_or_insert hosts f t in hosts' !! f = Some h /\ same_sessions hosts hosts'.
Proof.
  unfold get_or_insert. destruct (hosts !! f) as [h|] eqn:Hh; [by split|].
  split; [by rewrite lookup_insert_eq|]. intros f' p. unfold session_of.
  destruct (decide (f' = f)) as [->|Hne]; [by rewrite lookup_insert_eq, Hh|by rewrite lookup_insert_ne].
Qed.

Lemma same_sessions_trans hosts1 hosts2 hosts3 :
  same_sessions hosts1 hosts2 -> same_sessions hosts2 hosts3 -> same_sessions hosts1 hosts3.
Proof. intros H12 H23 f p. by rewrite H23, H12. Qed.

Lemma same_sessions_deliver x hosts hosts' :
  deliver_to_host x hosts = Some hosts' -> same_sessions hosts hosts'.
Proof.
  unfold deliver_to_host. intros (f & _ & [= <-])%bind_Some.
  destruct (hosts !! f) as [h|] eqn:Hh; [|done]. by eapply same_sessions_insert.
Qed.

Lemma same_sessions_fetch f t hosts stopped reply hosts' :
  fetch_enter f t hosts = (stopped, reply, hosts') -> same_sessions hosts hosts'.
Proof.
  unfold fetch_enter. pose proof (same_sessions_get_or_insert hosts f t) as Hg.
  destruct (get_or_insert hosts f t) as [h hosts1]. destruct Hg as [Hh Hs]. simpl.
  destruct (String.eqb _ _); intros [= <- <- <-];
    (eapply same_sessions_trans; [done|by eapply same_sessions_insert]).
Qed.

Lemma same_sessions_wait f t n hosts : same_sessions hosts (fetch_wait f t n hosts).
Proof.
  unfold fetch_wait. pose proof (same_sessions_get_or_insert hosts f t) as Hg.
  destruct (get_or_insert hosts f t) as [h hosts1]. destruct Hg as [Hh Hs].
  eapply same_sessions_trans; [done|by eapply same_sessions_insert].
Qed.

(** * The handling of one message *)

(** The sessions of a host are filed under their plugin. *)
Definition sessions_own (f : string) (sessions : gmap string Session) : Prop :=
  forall p s, sessions !! p = Some s -> s_fqdn s = f /\ s_plugin s = p.

Lemma get_by_session_id_Some p i sessions :
  is_Some (get_by_session_id p i sessions) <-> s_id <$> sessions !! p = Some i.
Proof.
  unfold get_by_session_id. destruct (sessions !! p) as [s|]; simpl.
  - destruct (String.eqb_spec (s_id s) i) as [->|Hne]; [done|].
    split; [by intros []|by intros [= ?]].
  - split; [by intros []|done].
Qed.

Lemma of_session_true f p m : of_session f p m = true <-> pm_fqdn m = f /\ pm_plugin m = p.
Proof. unfold of_session. by rewrite andb_true_iff, !String.eqb_eq. Qed.

Lemma of_session_false f p m : of_session f p m = false <-> pm_fqdn m <> f \/ pm_plugin m <> p.
Proof.
  rewrite <-not_true_iff_false, of_session_true.
  destruct (decide (pm_fqdn m = f)), (decide (pm_plugin m = p)); naive_solver.
Qed.

Lemma handle_message_own uuid f sessions msg sessions' pubs :
  handle_message uuid sessions msg = (sessions', pubs) -> msg_fqdn msg = f ->
  sessions_own f sessions -> sessions_own f sessions'.
Proof.
  intros Hm Hf Ho. destruct msg as [f' p s q b|f' p]; simpl in *; [by simplify_eq|].
  injection Hm as <- _. intros p' s [[<- <-]|[_ Hs]]%lookup_insert_Some; simpl; auto.
Qed.

(** What goes to the services when nothing fails. *)
Lemma handle_message_published uuid f sessions msg sessions' pubs q m :
  handle_message uuid sessions msg = (sessions', pubs) -> msg_fqdn msg = f ->
  sessions_own f sessions -> (q, m) ∈ to_plugins pubs -> pm_fqdn m = f /\ q = plugin_queue (pm_plugin m).
Proof.
  intros Hm Hf Ho Hin. destruct msg as [f' p s sq b|f' p]; simpl in *.
  - injection Hm as _ <-. unfold data_handler in Hin. destruct (bool_decide _); simpl in Hin.
    + apply list_elem_of_singleton in Hin as [= -> ->]. done.
    + by apply elem_of_nil in Hin.
  - injection Hm as _ <-. destruct (sessions !! p) as [l|] eqn:Hl; simpl in Hin.
    + apply Ho in Hl as [<- <-]. apply elem_of_cons in Hin as [[= -> ->]|Hin]; [done|].
      apply list_elem_of_singleton in Hin as [= -> ->]. simpl. done.
    + apply list_elem_of_singleton in Hin as [= -> ->]. done.
Qed.

Lemma handle_message_stream uuid f sessions msg sessions' pubs p :
  handle_message uuid sessions msg = (sessions', pubs) -> msg_fqdn msg = f ->
  sessions_own f sessions ->
  stream (s_id <$> sessions !! p) (substream f p (to_plugins pubs).*2) = Some (s_id <$> sessions' !! p).
Proof.
  intros Hm Hf Ho. destruct msg as [f' p' s sq b|f' p']; simpl in *; subst f'.
  - injection Hm as <- <-. unfold data_handler.
    destruct (bool_decide _) eqn:Hs; simpl; [|done].
    apply bool_decide_eq_true, get_by_session_id_Some in Hs.
    destruct (of_session f p _) eqn:Ho'; [|done]. apply of_session_true in Ho' as [_ Hp].
    simpl in Hp. subst p'. rewrite Hs. simpl. by rewrite String.eqb_refl.
  - injection Hm as <- <-. destruct (decide (p' = p)) as [->|Hp].
    + rewrite lookup_insert_eq. destruct (sessions !! p) as [l|] eqn:Hl; simpl.
      * apply Ho in Hl as [<- <-]. rewrite !(proj2 (of_session_true _ _ _)) by done. simpl.
        by rewrite String.eqb_refl.
      * by rewrite (proj2 (of_session_true _ _ _)).
    + rewrite lookup_insert_ne by done. rewrite substream_other; [done|].
      intros m ((q & m') & -> & Hin)%list_elem_of_fmap. apply of_session_false. right. simpl.
      destruct (sessions !! p') as [l|] eqn:Hl; simpl in Hin.
      * apply Ho in Hl as [_ <-]. apply elem_of_cons in Hin as [[= -> ->]|Hin]; [done|].
        apply list_elem_of_singleton in Hin as [= -> ->]. done.
      * apply list_elem_of_singleton in Hin as [= -> ->]. done.
Qed.

(** * The invariant of the streams *)

Record streams_ok (c : Comms) : Prop := {
  so_own f p s : session_of (cm_hosts c) f p = Some s -> s_fqdn s = f /\ s_plugin s = p;
  so_posts f msgs : (f, msgs) ∈ cm_posts c -> Forall (fun m => msg_fqdn m = f) msgs;
  so_queue q m : (q, m) ∈ cm_published c -> q = plugin_queue (pm_plugin m);
  so_stream : cm_failed c = false -> forall f p,
    stream None (substream f p (cm_published c).*2) = Some (s_id <$> session_of (cm_hosts c) f p);
}.

(** A turn that leaves the sessions and the streams alone. *)
Lemma streams_ok_same c hosts tx sent delivered fetches posts used :
  same_sessions (cm_hosts c) hosts ->
  (forall f msgs, (f, msgs) ∈ posts -> Forall (fun m => msg_fqdn m = f) msgs) ->
  streams_ok c ->
  streams_ok (MkComms hosts tx (cm_published c) sent delivered fetches posts used (cm_failed c)).
Proof.
  intros Hs Hp [Ho _ Hq Hst]. split; simpl.
  - intros f p s. rewrite Hs. apply Ho.
  - done.
  - done.
  - intros Hf f p. rewrite Hs. by apply Hst.
Qed.

Lemma transmit_out fails pubs out ok :
  transmit fails pubs = (out, ok) -> (forall x, x ∈ out -> x ∈ pubs) /\ (ok = true -> out = pubs).
Proof.
  unfold transmit. destruct fails as [n|]; [destruct (Nat.ltb_spec n (length pubs))|];
    intros [= <- <-]; split; try done. intros x (i & Hi & _)%elem_of_take. by eapply list_elem_of_lookup_2.
Qed.

Lemma elem_of_to_plugins q m l : (q, m) ∈ to_plugins l <-> ToPlugin q m ∈ l.
Proof.
  unfold to_plugins. rewrite list_elem_of_omap. split.
  - intros ([q' m'|m'] & Hin & [=]). by subst.
  - intros Hin. by exists (ToPlugin q m).
Qed.

Lemma session_of_insert hosts f h sessions f' p :
  hosts !! f = Some h ->
  session_of (<[f := set_sessions h sessions]> hosts) f' p =
    if decide (f' = f) then sessions !! p else session_of hosts f' p.
Proof.
  intros Hh. unfold session_of. destruct (decide (f' = f)) as [->|Hne].
  - by rewrite lookup_insert_eq.
  - by rewrite lookup_insert_ne.
Qed.

Lemma streams_ok_message c l1 l2 fqdn msg msgs host uuid fails sessions pubs out ok :
  cm_posts c = l1 ++ (fqdn, msg :: msgs) :: l2 -> cm_hosts c !! fqdn = Some host ->
  handle_message uuid (ho_sessions host) msg = (sessions, pubs) ->
  transmit fails pubs = (out, ok) -> streams_ok c ->
  forall tx sent delivered fetches used,
  streams_ok (MkComms (<[fqdn := set_sessions host sessions]> (cm_hosts c)) tx
    (cm_published c ++ to_plugins out) sent delivered fetches
    (l1 ++ (if ok then [(fqdn, msgs)] else []) ++ l2) used (cm_failed c || negb ok)).
Proof.
  intros Hp Hh Hm Ht [Ho Hpo Hq Hst] tx sent delivered fetches used.
  assert (msg_fqdn msg = fqdn /\ Forall (fun m => msg_fqdn m = fqdn) msgs) as [Hf Hfs].
  { assert ((fqdn, msg :: msgs) ∈ cm_posts c) as Hin%Hpo by (rewrite Hp; set_solver).
    by apply Forall_cons in Hin. }
  assert (sessions_own fqdn (ho_sessions host)) as Hown.
  { intros p s Hs. apply Ho. unfold session_of. by rewrite Hh. }
  apply transmit_out in Ht as [Hout Hok]. split; simpl.
  - intros f p s. rewrite session_of_insert by done. destruct (decide (f = fqdn)) as [->|_]; [|apply Ho].
    apply (handle_message_own _ _ _ _ _ _ Hm Hf Hown).
  - intros f ms. rewrite Hp in Hpo. rewrite !elem_of_app. intros [Hin|[Hin|Hin]].
    + apply Hpo. set_solver.
    + destruct ok; [|by apply elem_of_nil in Hin]. by apply list_elem_of_singleton in Hin as [= -> ->].
    + apply Hpo. set_solver.
  - intros q m [Hin|Hin]%elem_of_app; [by apply Hq|]. apply elem_of_to_plugins, Hout, elem_of_to_plugins in Hin.
    by eapply handle_message_published in Hin as [_ ?].
  - intros [Hfail Hn]%orb_false_iff f p. apply negb_false_iff in Hn. rewrite (Hok Hn).
    rewrite fmap_app, substream_app, stream_app, Hst by done. simpl.
    rewrite session_of_insert by done. unfold session_of at 1. destruct (decide (f = fqdn)) as [->|Hne].
    + rewrite Hh. simpl. by eapply handle_message_stream.
    + rewrite substream_other; [done|]. intros m ((q & m') & -> & Hin)%list_elem_of_fmap.
      apply of_session_false. left. eapply handle_message_published in Hin as [? _]; [|done..]. simpl. congruence.
Qed.

Lemma streams_ok_step c c' : comms_step c c' -> streams_ok c -> streams_ok c'.
Proof.
  intros Hs Hc. pose proof (so_posts c Hc) as Hp. destruct Hs; try (apply streams_ok_same; try done).
  - pose proof (same_sessions_get_or_insert (cm_hosts c) fqdn (en_client_start_time env)) as Hg.
    by destruct (get_or_insert _ _ _) as [? ?]; destruct Hg.
  - intros f msgs [Hin|[= -> ->]%list_elem_of_singleton]%elem_of_app; auto.
  - by eapply streams_ok_message.
  - by eapply same_sessions_deliver.
  - by eapply same_sessions_fetch.
  - apply same_sessions_wait.
  - by eapply same_sessions_insert.
Qed.

Lemma streams_ok_reachable c : rtc comms_step Comms_new c -> streams_ok c.
Proof.
  apply (rtc_ind_r streams_ok).
  - split; simpl; try done; try (by intros ? ? ?%elem_of_nil).
  - intros c1 c2 _ Hs. by apply streams_ok_step.
Qed.

(** ** The services see well-formed session streams *)
(** C6: however posts, fetches and deliveries interleave from the start of the
    service, and as long as no message to a queue fails, the messages that the
    service sends for a plugin of a host form a well-formed stream: sessions are
    created one at a time, only data of the open session is forwarded, a session is
    terminated before the next one is created, and the session that is open at the
    end is the one the service holds. Every message goes to the queue of its plugin. An
    agent posts under its own name. *)
Theorem comms_streams c (Hc : rtc comms_step Comms_new c) (Hok : cm_failed c = false) :
  (forall fqdn plugin, stream None (substream fqdn plugin (cm_published c).*2) =
     Some (s_id <$> session_of (cm_hosts c) fqdn plugin)) /\
  forall q m, (q, m) ∈ cm_published c -> q = plugin_queue (pm_plugin m).
Proof. destruct (streams_ok_reachable c Hc) as [_ _ Hq Hs]. auto. Qed.

(** * What is under way to the agents *)

Definition drained (x : Fetch) : list raw := match x with FDrained _ xs => xs | _ => [] end.

(** The broker's queue, the queues of the hosts, and what fetches have taken. *)
Definition under_way (c : Comms) : list raw :=
  cm_tx c ++ gather ho_queue (cm_hosts c) ++ gather drained (cm_fetches c).

(** The messages that were delivered or can still be. *)
Definition accounted_messages (c : Comms) : list (ManagerMessage value) :=
  (cm_delivered c).*2 ++ omap from_slice (under_way c).

Lemma gather_end_waiting n fs : gather drained (end_waiting n fs) ≡ₚ gather drained fs.
Proof.
  unfold end_waiting. destruct n as [n|]; [|done].
  destruct (fs !! n) as [[| |]|] eqn:Hn; try done. by rewrite (gather_delete drained fs n _ Hn).
Qed.

Lemma gather_get_or_insert hosts f t :
  gather ho_queue (get_or_insert hosts f t).2 ≡ₚ gather ho_queue hosts.
Proof.
  unfold get_or_insert. destruct (hosts !! f) as [h|] eqn:Hh; [done|]. simpl.
  by rewrite gather_insert.
Qed.

Lemma gather_fetch_enter f t hosts stopped reply hosts' :
  fetch_enter f t hosts = (stopped, reply, hosts') ->
  gather ho_queue hosts' ≡ₚ gather ho_queue hosts.
Proof.
  unfold fetch_enter. pose proof (gather_get_or_insert hosts f t) as Hq.
  pose proof (same_sessions_get_or_insert hosts f t) as Hg.
  destruct (get_or_insert hosts f t) as [h hosts1]. destruct Hg as [Hh _]. simpl in *.
  destruct (String.eqb _ _); intros [= <- <- <-]; by rewrite (gather_same ho_queue _ _ _ _ Hh).
Qed.

Lemma gather_fetch_wait f t n hosts : gather ho_queue (fetch_wait f t n hosts) ≡ₚ gather ho_queue hosts.
Proof.
  unfold fetch_wait. pose proof (gather_get_or_insert hosts f t) as Hq.
  pose proof (same_sessions_get_or_insert hosts f t) as Hg.
  destruct (get_or_insert hosts f t) as [h hosts1]. destruct Hg as [Hh _]. simpl in *.
  by rewrite (gather_same ho_queue _ _ _ _ Hh).
Qed.

Lemma gather_deliver x hosts hosts' :
  deliver_to_host x hosts = Some hosts' -> gather ho_queue hosts' ⊆+ x :: gather ho_queue hosts.
Proof.
  unfold deliver_to_host. intros (f & _ & [= <-])%bind_Some.
  destruct (hosts !! f) as [h|] eqn:Hh; [|by apply submseteq_cons].
  rewrite gather_update, (gather_delete ho_queue hosts f h Hh). simpl.
  by rewrite <-Permutation_cons_append.
Qed.

Lemma omap_submseteq {X Y} (f : X -> option Y) l k : l ⊆+ k -> omap f l ⊆+ omap f k.
Proof.
  intros (r & ->)%submseteq_Permutation. rewrite omap_app. by apply submseteq_inserts_r.
Qed.

Lemma omap_to_vec (ms : list (ManagerMessage value)) : omap from_slice (to_vec <$> ms) = ms.
Proof. induction ms as [|m ms IH]; [done|]. csimpl. by rewrite from_to, IH. Qed.

Lemma mapM_omap {X Y} (f : X -> option Y) l k : mapM f l = Some k -> omap f l = k.
Proof.
  revert k. induction l as [|x l IH]; intros k; simpl; [by intros [= <-]|].
  destruct (f x) as [y|]; simpl; [|done]. destruct (mapM f l) as [k'|]; simpl; [|done].
  intros [= <-]. f_equal. by apply IH.
Qed.

Lemma filter_submseteq {X} (q : X -> bool) l : List.filter q l ⊆+ l.
Proof.
  induction l as [|x l IH]; simpl; [done|]. destruct (q x); [by apply submseteq_skip|by apply submseteq_cons].
Qed.

Lemma fetch_finish_sub xs sessions : default [] (fetch_finish xs sessions) ⊆+ omap from_slice xs.
Proof.
  unfold fetch_finish. destruct (mapM from_slice xs) as [ys|] eqn:Hx; simpl; [|apply submseteq_nil_l].
  rewrite (mapM_omap _ _ _ Hx). apply filter_submseteq.
Qed.

Lemma fmap_pair_snd {X Y} (f : X) (l : list Y) : ((fun m => (f, m)) <$> l).*2 = l.
Proof. rewrite <-list_fmap_compose. apply list_fmap_id. Qed.

(** A flush takes all or nothing. *)
Lemma flush_turn_Some now timeout queue xs q :
  flush_turn now timeout queue = (Some xs, q) -> (xs = [] /\ q = queue) \/ (xs = queue /\ q = []).
Proof.
  unfold flush_turn. destruct (timeout <=? now)%Z; [intros [= <- <-]; auto|].
  destruct queue; [done|]. intros [= <- <-]. auto.
Qed.

(** What a turn does to the messages: those it adds were sent. *)
Lemma comms_accounted_step c c' : comms_step c c' ->
  exists new, cm_sent c' = cm_sent c ++ new /\ accounted_messages c' ⊆+ accounted_messages c ++ new.
Proof.
  unfold accounted_messages, under_way.
  destruct 1 as [c fqdn env|c l1 l2 fqdn msg msgs host uuid fails sessions pubs out ok Hp Hh _ _ _
    |c m _|c x tx hosts Htx Hd|c n fqdn t stopped reply hosts _ Hf|c n fqdn t Hn
    |c n fqdn host now timeout xs q Hn Hh Hf|c n fqdn xs host Hn Hh]; cbn [cm_sent cm_delivered cm_tx cm_hosts cm_fetches].
  - exists []. rewrite !app_nil_r. split; [done|]. by rewrite gather_get_or_insert.
  - exists (to_agents out). split; [done|]. rewrite (gather_same ho_queue _ _ _ _ Hh) by done.
    rewrite !omap_app, omap_to_vec. by rewrite <-!app_assoc, (Permutation_app_comm (to_agents out)), <-!app_assoc.
  - exists [m]. split; [done|]. rewrite !omap_app. cbn [omap list_omap]. rewrite from_to.
    by rewrite <-!app_assoc, (Permutation_app_comm [m]), <-!app_assoc.
  - exists []. rewrite !app_nil_r. split; [done|]. apply submseteq_app; [done|]. apply omap_submseteq.
    rewrite Htx. simpl. rewrite Permutation_middle. apply submseteq_app; [done|].
    apply (submseteq_app _ (x :: gather ho_queue (cm_hosts c))); [by apply gather_deliver|done].
  - exists (default [] reply). split; [done|]. rewrite (gather_fetch_enter _ _ _ _ _ _ Hf).
    rewrite fmap_app, fmap_pair_snd, <-!app_assoc. apply submseteq_app; [done|].
    rewrite (Permutation_app_comm (default [] reply)). apply submseteq_app; [|done].
    apply omap_submseteq. do 2 (apply submseteq_app; [done|]).
    rewrite <-(gather_end_waiting stopped (cm_fetches c)). destruct reply; [done|].
    apply (gather_overwrite drained _ n (FEntered fqdn t)).
  - exists []. rewrite !app_nil_r. split; [done|]. apply submseteq_app; [done|]. apply omap_submseteq.
    rewrite gather_fetch_wait. do 2 (apply submseteq_app; [done|]).
    rewrite <-(gather_end_waiting (h ← cm_hosts c !! fqdn; ho_stop_reading h) (cm_fetches c)).
    apply (gather_overwrite drained _ n (FWaiting fqdn)).
  - exists []. rewrite !app_nil_r. split; [done|]. apply submseteq_app; [done|]. apply omap_submseteq.
    apply submseteq_app; [done|]. rewrite !gather_update. cbn [drained ho_queue set_queue].
    rewrite (gather_delete ho_queue _ _ _ Hh), (gather_delete drained _ _ _ Hn). simpl.
    assert (q ++ xs ≡ₚ ho_queue host) as <-.
    { apply flush_turn_Some in Hf as [[-> ->]|[-> ->]]; [by rewrite app_nil_r|done]. }
    rewrite <-!app_assoc. apply submseteq_app; [done|]. rewrite !app_assoc.
    by rewrite (Permutation_app_comm xs).
  - exists []. rewrite !app_nil_r. split; [done|]. rewrite fmap_app, fmap_pair_snd, <-app_assoc.
    apply submseteq_app; [done|]. rewrite (gather_delete drained _ _ _ Hn). simpl.
    rewrite !omap_app. etrans; [apply submseteq_app; [apply fetch_finish_sub|reflexivity]|].
    rewrite (Permutation_app_comm (omap from_slice xs)), <-!app_assoc.
    do 2 (apply submseteq_app; [done|]). by rewrite Permutation_app_comm.
Qed.

(** * Who gets what *)

Definition queue_of (hosts : gmap string Host) (f : string) : list raw :=
  default [] (ho_queue <$> hosts !! f).

(** The termination of a session that its host does not hold, and never will. *)
Definition dead (hosts : gmap string Host) (used : gset string) (f : string)
    (m : ManagerMessage value) : Prop :=
  match m with
  | MmSessionTerminate _ p i => i ∈ used /\ s_id <$> session_of hosts f p <> Some i
  | _ => True
  end.

Definition addressed (hosts : gmap string Host) (used : gset string) (f : string) (x : raw) : Prop :=
  exists m, x = to_vec m /\ mm_fqdn m = f /\ dead hosts used f m.

Definition is_terminate (m : ManagerMessage value) : Prop :=
  match m with MmSessionTerminate _ _ _ => True | _ => False end.

Record delivery_ok (c : Comms) : Prop := {
  do_used f p s : session_of (cm_hosts c) f p = Some s -> s_id s ∈ cm_used c;
  do_posts f msgs m : (f, msgs) ∈ cm_posts c -> m ∈ msgs -> msg_fqdn m = f /\ msg_ids m ⊆ cm_used c;
  do_tx x : x ∈ cm_tx c -> exists f, addressed (cm_hosts c) (cm_used c) f x;
  do_queue f x : x ∈ queue_of (cm_hosts c) f -> addressed (cm_hosts c) (cm_used c) f x;
  do_drained n f xs x : cm_fetches c !! n = Some (FDrained f xs) -> x ∈ xs ->
    addressed (cm_hosts c) (cm_used c) f x;
  do_delivered f m : (f, m) ∈ cm_delivered c -> mm_fqdn m = f /\ ~ is_terminate m;
}.

(** The sessions stay, or a new one has an id that was not seen before. *)
Definition sessions_evolve (hosts : gmap string Host) (used : gset string) (hosts' : gmap string Host)
    (used' : gset string) : Prop :=
  used ⊆ used' /\
  forall f p, session_of hosts' f p = session_of hosts f p \/
    exists uuid, uuid ∉ used /\ uuid ∈ used' /\ s_id <$> session_of hosts' f p = Some uuid.

Lemma addressed_evolve hosts used hosts' used' f x :
  sessions_evolve hosts used hosts' used' -> addressed hosts used f x -> addressed hosts' used' f x.
Proof.
  intros [Hu Hs] (m & -> & Hf & Hd). exists m. split_and!; [done|done|].
  destruct m as [| |f' p i|]; simpl in *; try done. destruct Hd as [Hi Hn]. split; [set_solver|].
  destruct (Hs f p) as [->|(uuid & Hfr & _ & ->)]; [done|]. intros [= ->]. done.
Qed.

Lemma sessions_evolve_same hosts used hosts' used' :
  same_sessions hosts hosts' -> used ⊆ used' -> sessions_evolve hosts used hosts' used'.
Proof. intros Hs Hu. split; [done|]. auto. Qed.

Lemma used_evolve hosts used hosts' used' :
  sessions_evolve hosts used hosts' used' ->
  (forall f p s, session_of hosts f p = Some s -> s_id s ∈ used) ->
  forall f p s, session_of hosts' f p = Some s -> s_id s ∈ used'.
Proof.
  intros [Hu Hs] Hused f p s Hf. destruct (Hs f p) as [Hsame|(uuid & _ & Hin & Hid)].
  - rewrite Hsame in Hf. apply Hused in Hf. set_solver.
  - rewrite Hf in Hid. by injection Hid as ->.
Qed.

(** The handling of a message keeps the sessions or opens one under the new id. *)
Lemma handle_message_evolve uuid hosts used f h msg sessions pubs :
  hosts !! f = Some h -> uuid ∉ used -> handle_message uuid (ho_sessions h) msg = (sessions, pubs) ->
  sessions_evolve hosts used (<[f := set_sessions h sessions]> hosts) ({[uuid]} ∪ used).
Proof.
  intros Hh Hu Hm. split; [set_solver|]. intros f' p. rewrite session_of_insert by done.
  destruct (decide (f' = f)) as [->|]; [|by left]. unfold session_of. rewrite Hh. simpl.
  destruct msg as [? ? ? ? ?|f' p']; simpl in Hm; injection Hm as <- _; [by left|].
  destruct (decide (p = p')) as [->|Hne]; [right|left; by rewrite lookup_insert_ne].
  exists uuid. rewrite lookup_insert_eq. set_solver.
Qed.

Lemma elem_of_to_agents m l : m ∈ to_agents l <-> ToAgents m ∈ l.
Proof.
  unfold to_agents. rewrite list_elem_of_omap. split.
  - intros ([q' m'|m'] & Hin & [=]). by subst.
  - intros Hin. by exists (ToAgents m).
Qed.

(** What it sends to the agents is for its own host, and a termination is for a
    session the host does not hold. *)
Lemma handle_message_addressed uuid hosts used f h msg sessions pubs m :
  hosts !! f = Some h -> msg_fqdn msg = f -> msg_ids msg ⊆ used ->
  handle_message uuid (ho_sessions h) msg = (sessions, pubs) -> ToAgents m ∈ pubs ->
  addressed hosts used f (to_vec m).
Proof.
  intros Hh Hf Hi Hm Hin. exists m. split; [done|].
  destruct msg as [f' p s q b|f' p]; simpl in *; injection Hm as _ <-.
  - unfold data_handler in Hin. destruct (bool_decide _) eqn:Hs; apply list_elem_of_singleton in Hin; simplify_eq/=.
    split; [done|]. split; [set_solver|]. unfold session_of. rewrite Hh. simpl.
    apply bool_decide_eq_false in Hs. by rewrite <-get_by_session_id_Some.
  - rewrite elem_of_app, elem_of_cons, list_elem_of_singleton in Hin.
    destruct Hin as [Hin|[?|?]]; simplify_eq/=; [|done].
    destruct (_ !! p); [apply list_elem_of_singleton in Hin|apply elem_of_nil in Hin]; done.
Qed.

Lemma delivery_ok_frame c c' :
  sessions_evolve (cm_hosts c) (cm_used c) (cm_hosts c') (cm_used c') ->
  (forall f msgs m, (f, msgs) ∈ cm_posts c' -> m ∈ msgs -> msg_fqdn m = f /\ msg_ids m ⊆ cm_used c') ->
  (forall x, x ∈ cm_tx c' -> exists f, addressed (cm_hosts c) (cm_used c) f x) ->
  (forall f x, x ∈ queue_of (cm_hosts c') f -> addressed (cm_hosts c) (cm_used c) f x) ->
  (forall n f xs x, cm_fetches c' !! n = Some (FDrained f xs) -> x ∈ xs ->
     addressed (cm_hosts c) (cm_used c) f x) ->
  (forall f m, (f, m) ∈ cm_delivered c' -> mm_fqdn m = f /\ ~ is_terminate m) ->
  delivery_ok c -> delivery_ok c'.
Proof.
  intros He Hp Ht Hq Hd Hdl [Hu _ _ _ _ _]. split; try done.
  - by eapply used_evolve.
  - intros x Hx. destruct (Ht x Hx) as (f & Hf). exists f. by eapply addressed_evolve.
  - intros f x Hx. eapply addressed_evolve; [done|]. by apply Hq.
  - intros n f xs x Hn Hx. eapply addressed_evolve; [done|]. by eapply Hd.
Qed.

Lemma queue_of_insert hosts f h f' :
  queue_of (<[f := h]> hosts) f' = if decide (f' = f) then ho_queue h else queue_of hosts f'.
Proof.
  unfold queue_of. destruct (decide (f' = f)) as [->|Hne].
  - by rewrite lookup_insert_eq.
  - by rewrite lookup_insert_ne.
Qed.

Lemma queue_of_same hosts f h h' f' :
  hosts !! f = Some h -> ho_queue h' = ho_queue h -> queue_of (<[f := h']> hosts) f' = queue_of hosts f'.
Proof.
  intros Hh Hq. rewrite queue_of_insert. destruct (decide (f' = f)) as [->|]; [|done].
  unfold queue_of. by rewrite Hh.
Qed.

Lemma queue_of_get_or_insert hosts f t f' :
  queue_of (get_or_insert hosts f t).2 f' = queue_of hosts f'.
Proof.
  unfold get_or_insert. destruct (hosts !! f) as [h|] eqn:Hh; [done|]. simpl.
  rewrite queue_of_insert. destruct (decide (f' = f)) as [->|]; [|done].
  unfold queue_of. by rewrite Hh.
Qed.

Lemma queue_of_fetch_enter f t hosts stopped reply hosts' f' :
  fetch_enter f t hosts = (stopped, reply, hosts') -> queue_of hosts' f' = queue_of hosts f'.
Proof.
  unfold fetch_enter. pose proof (queue_of_get_or_insert hosts f t f') as Hq.
  pose proof (same_sessions_get_or_insert hosts f t) as Hg.
  destruct (get_or_insert hosts f t) as [h hosts1]. destruct Hg as [Hh _]. simpl in *.
  destruct (String.eqb _ _); intros [= <- <- <-]; by rewrite (queue_of_same _ _ _ _ _ Hh).
Qed.

Lemma queue_of_fetch_wait f t n hosts f' : queue_of (fetch_wait f t n hosts) f' = queue_of hosts f'.
Proof.
  unfold fetch_wait. pose proof (queue_of_get_or_insert hosts f t f') as Hq.
  pose proof (same_sessions_get_or_insert hosts f t) as Hg.
  destruct (get_or_insert hosts f t) as [h hosts1]. destruct Hg as [Hh _]. simpl in *.
  by rewrite (queue_of_same _ _ _ _ _ Hh).
Qed.

Lemma end_waiting_drained n fs k f xs :
  end_waiting n fs !! k = Some (FDrained f xs) -> fs !! k = Some (FDrained f xs).
Proof.
  unfold end_waiting. destruct n as [n|]; [|done]. destruct (fs !! n) as [[]|]; try done.
  intros [_ ?]%lookup_delete_Some. done.
Qed.

Lemma queue_of_deliver x hosts hosts' f y :
  deliver_to_host x hosts = Some hosts' -> y ∈ queue_of hosts' f ->
  y ∈ queue_of hosts f \/ (y = x /\ from_slice_fqdn x = Some f).
Proof.
  unfold deliver_to_host. intros (f' & Hf' & [= <-])%bind_Some.
  destruct (hosts !! f') as [h|] eqn:Hh; [|auto]. rewrite queue_of_insert.
  destruct (decide (f = f')) as [->|]; [|auto]. simpl. rewrite elem_of_app, list_elem_of_singleton.
  unfold queue_of. rewrite Hh. simpl. naive_solver.
Qed.

Lemma fetch_finish_delivered hosts used f h xs m :
  hosts !! f = Some h -> (forall x, x ∈ xs -> addressed hosts used f x) ->
  m ∈ default [] (fetch_finish xs (ho_sessions h)) -> mm_fqdn m = f /\ ~ is_terminate m.
Proof.
  intros Hh Hx. unfold fetch_finish. destruct (mapM from_slice xs) as [ys|] eqn:Hm; simpl; [|by intros ?%elem_of_nil].
  intros [Hin Hv]%elem_of_filter_fn. rewrite <-(mapM_omap _ _ _ Hm) in Hin.
  apply list_elem_of_omap in Hin as (x & Hxin & Hfrom). destruct (Hx x Hxin) as (m' & -> & Hf & Hd).
  rewrite from_to in Hfrom. injection Hfrom as ->. split; [done|].
  destruct m as [| |f' p i|]; simpl in *; try tauto. intros _. destruct Hd as [_ Hd].
  apply Hd. apply bool_decide_eq_true, get_by_session_id_Some in Hv. unfold session_of. by rewrite Hh.
Qed.

Lemma fetch_enter_reply f t hosts stopped reply hosts' m :
  fetch_enter f t hosts = (stopped, reply, hosts') -> m ∈ default [] reply -> m = MmSessionTerminateAll f.
Proof.
  unfold fetch_enter. destruct (get_or_insert hosts f t) as [h hosts1]. simpl.
  destruct (String.eqb _ _); intros [= <- <- <-]; simpl; [by intros ?%elem_of_nil|].
  by intros ?%list_elem_of_singleton.
Qed.

Lemma delivery_ok_message c l1 l2 fqdn msg msgs host uuid fails sessions pubs out ok :
  cm_posts c = l1 ++ (fqdn, msg :: msgs) :: l2 -> cm_hosts c !! fqdn = Some host ->
  uuid ∉ cm_used c -> handle_message uuid (ho_sessions host) msg = (sessions, pubs) ->
  transmit fails pubs = (out, ok) -> delivery_ok c ->
  forall published sent failed,
  delivery_ok (MkComms (<[fqdn := set_sessions host sessions]> (cm_hosts c))
    (cm_tx c ++ (to_vec <$> to_agents out)) published sent (cm_delivered c) (cm_fetches c)
    (l1 ++ (if ok then [(fqdn, msgs)] else []) ++ l2) ({[uuid]} ∪ cm_used c) failed).
Proof.
  intros Hp Hh Hu Hm Ht Hc published sent failed. pose proof Hc as [Hused Hpo Htx Hq Hdr Hdl].
  rewrite Hp in Hpo. apply transmit_out in Ht as [Hout _].
  apply (delivery_ok_frame c); simpl; try done.
  - by eapply handle_message_evolve.
  - intros f ms m Hin Hmm. assert (msg_fqdn m = f /\ msg_ids m ⊆ cm_used c); [|set_solver].
    rewrite !elem_of_app in Hin. destruct Hin as [Hin|[Hin|Hin]].
    + eapply Hpo; [|done]. set_solver.
    + destruct ok; [|by apply elem_of_nil in Hin]. apply list_elem_of_singleton in Hin as [= -> ->].
      eapply (Hpo fqdn (msg :: msgs)); [set_solver|by right].
    + eapply Hpo; [|done]. set_solver.
  - intros x [Hin|(m & -> & Hin)%list_elem_of_fmap]%elem_of_app; [by apply Htx|].
    apply elem_of_to_agents, Hout in Hin. destruct (Hpo fqdn (msg :: msgs) msg) as [Hf Hi]; [set_solver|left|].
    exists fqdn. by eapply handle_message_addressed.
  - intros f x. rewrite (queue_of_same _ _ _ _ _ Hh) by done. apply Hq.
Qed.

Lemma delivery_ok_step c c' : comms_step c c' -> delivery_ok c -> delivery_ok c'.
Proof.
  intros Hs Hc. pose proof Hc as [Hused Hpo Htx Hq Hdr Hdl].
  destruct Hs as [c fqdn env He|c l1 l2 fqdn msg msgs host uuid fails sessions pubs out ok Hp Hh Hu Hm Ht
    |c m Hm|c x tx hosts Htx' Hd|c n fqdn t stopped reply hosts _ Hf|c n fqdn t Hn
    |c n fqdn host now timeout xs q Hn Hh Hf|c n fqdn xs host Hn Hh];
    [|by eapply delivery_ok_message|..]; apply (delivery_ok_frame c); simpl; try done;
    try (apply sessions_evolve_same; [try (intros ? ?; reflexivity)|done]).
  - apply sessions_evolve_same; [|set_solver].
    pose proof (same_sessions_get_or_insert (cm_hosts c) fqdn (en_client_start_time env)) as Hg.
    by destruct (get_or_insert _ _ _) as [? ?]; destruct Hg.
  - intros f msgs m [Hin|[= -> ->]%list_elem_of_singleton]%elem_of_app Hm.
    + destruct (Hpo _ _ _ Hin Hm). set_solver.
    + rewrite Forall_forall in He. split; [by apply He|].
      etrans; [|apply union_subseteq_l]. intros i Hi. apply elem_of_union_list.
      exists (msg_ids m). split; [by apply list_elem_of_fmap_2|done].
  - intros f x. rewrite queue_of_get_or_insert. apply Hq.
  - intros x [Hin| ->%list_elem_of_singleton]%elem_of_app; [by apply Htx|].
    exists (mm_fqdn m), m. split_and!; [done|done|]. destruct m; try done. by destruct (Hm fqdn plugin session_id).
  - by eapply same_sessions_deliver.
  - intros y Hy. apply Htx. rewrite Htx'. by right.
  - intros f y [Hy|[-> Hf]]%(queue_of_deliver _ _ _ _ _ Hd); [by apply Hq|].
    destruct (Htx x) as (f' & m & -> & Hf' & Hdead); [rewrite Htx'; by left|].
    rewrite fqdn_to in Hf. injection Hf as <-. exists m. subst f'. done.
  - by eapply same_sessions_fetch.
  - intros f x. rewrite (queue_of_fetch_enter _ _ _ _ _ _ _ Hf). apply Hq.
  - intros k f xs x Hk. eapply (Hdr k). destruct reply.
    + by eapply end_waiting_drained.
    + apply lookup_insert_Some in Hk as [[_ [=]]|[_ Hk]]. by eapply end_waiting_drained.
  - intros f m [Hin|(m' & [= -> ->] & Hin)%list_elem_of_fmap]%elem_of_app; [by apply Hdl|].
    rewrite (fetch_enter_reply _ _ _ _ _ _ _ Hf Hin). simpl. tauto.
  - apply same_sessions_wait.
  - intros f x. rewrite queue_of_fetch_wait. apply Hq.
  - intros k f xs x Hk. eapply (Hdr k). apply lookup_insert_Some in Hk as [[_ [=]]|[_ Hk]].
    by eapply end_waiting_drained.
  - by eapply same_sessions_insert.
  - intros f x. rewrite queue_of_insert. destruct (decide (f = fqdn)) as [->|]; [|apply Hq].
    simpl. intros Hx. apply Hq. unfold queue_of. rewrite Hh. simpl.
    apply flush_turn_Some in Hf as [[_ ->]|[_ ->]]; [done|by apply elem_of_nil in Hx].
  - intros k f ys x [[<- [= -> ->]]|[_ Hk]]%lookup_insert_Some Hx; [|by eapply Hdr].
    apply Hq. unfold queue_of. rewrite Hh. simpl.
    apply flush_turn_Some in Hf as [[-> _]|[-> _]]; [by apply elem_of_nil in Hx|done].
  - intros k f ys x [_ Hk]%lookup_delete_Some. by eapply Hdr.
  - intros f m [Hin|(m' & [= -> ->] & Hin)%list_elem_of_fmap]%elem_of_app; [by apply Hdl|].
    eapply fetch_finish_delivered; [done| |done]. intros x. by eapply Hdr.
Qed.

Lemma delivery_ok_reachable c : rtc comms_step Comms_new c -> delivery_ok c.
Proof.
  apply (rtc_ind_r delivery_ok).
  - split; simpl; try done; try (by intros ? ? ?%elem_of_nil); try (by intros ? ? ? ?%elem_of_nil);
      try (by intros ? ?%elem_of_nil).
  - intros c1 c2 _ Hs. by apply delivery_ok_step.
Qed.

(** ** An agent gets what was sent to it, once *)
(** C15: whatever interleaves, the messages that agents have been given are among
    those sent to the agents, each at most as often as it was sent, and an agent is
    only given messages with its own name. What is still in the broker's queue, in
    the queue of a host or in the hands of a fetch has not been given to anyone. An
    agent posts under its own name. *)
Theorem delivered_once c (Hc : rtc comms_step Comms_new c) :
  (cm_delivered c).*2 ++ omap from_slice (under_way c) ⊆+ cm_sent c /\
  forall fqdn m, (fqdn, m) ∈ cm_delivered c -> mm_fqdn m = fqdn.
Proof.
  split; [|intros f m Hin; by apply (do_delivered c (delivery_ok_reachable c Hc))].
  revert c Hc. apply (rtc_ind_r (fun c => accounted_messages c ⊆+ cm_sent c)).
  - done.
  - intros c1 c2 _ (new & -> & Hs)%comms_accounted_step IH. etrans; [exact Hs|]. by apply submseteq_app.
Qed.

(** ** The termination of an unknown session is not delivered *)
(** When data arrives for a session that the service does not hold, it sends the
    agent a [SessionTerminate] for it; but the same service drops, at delivery, every
    message whose session it does not hold. In every run, no [SessionTerminate]
    reaches an agent: an agent with a stale session is never told. *)
Theorem terminate_never_delivered c (Hc : rtc comms_step Comms_new c) fqdn f plugin session_id :
  (fqdn, MmSessionTerminate f plugin session_id) ∉ cm_delivered c.
Proof. intros Hin. by apply (do_delivered c (delivery_ok_reachable c Hc)) in Hin as [_ []]. Qed.

End Comms.

(** * Witnesses *)

Section CommsWitnesses.

#[local] Instance tiny_json : Json := {| value := unit; json_null := tt; value_eq_dec := _ |}.

(** Messages that are their own bytes. *)
#[local] Instance plain_bytes : Bytes :=
  {| raw := ManagerMessage value; to_vec := fun m => m; from_slice := Some;
     from_slice_fqdn := fun m => Some (mm_fqdn m); from_to := fun m => eq_refl;
     fqdn_to := fun m => eq_refl |}.

(** An agent opens a session and posts data of an older one; then it fetches. *)
Definition sample_envelope : Envelope :=
  Envelope_new [MsgSessionCreateRequest "oss1" "action_runner"; MsgData "oss1" "action_runner" "s0" 7 tt]
    "2020-01-01" "2019-12-31".

Lemma comms_step_to (c c1 c2 : Comms) : comms_step c c1 -> c1 = c2 -> comms_step c c2.
Proof. by intros ? <-. Qed.

(** Step to the given state by the given rule, whose conditions are computed. *)
Ltac comms_turn c r :=
  apply (rtc_l _ _ c);
  [ eapply comms_step_to;
    [ eapply r; first [ by vm_compute | by repeat constructor
                      | apply (bool_decide_unpack _); by vm_compute ]
    | by vm_compute ]
  | ].

Definition oss1_session : gmap string Session := {[ "action_runner" := MkSession "oss1" "s1" "action_runner" ]}.
Definition oss1_host (stop : option nat) (q : list raw) (s : gmap string Session) : gmap string Host :=
  {[ "oss1" := MkHost "oss1" "2020-01-01" stop q s ]}.
Definition msg_created : ManagerMessage value := MmSessionCreateResponse "oss1" "action_runner" "s1".
Definition msg_stale : ManagerMessage value := MmSessionTerminate "oss1" "action_runner" "s0".
Definition pub_created : list (string * PluginMessage) :=
  [("rust_agent_action_runner_rx", PmSessionCreate "oss1" "action_runner" "s1")].

(** The states of the run, in which only the listed parts vary. *)
Definition sample_state (hosts : gmap string Host) (tx : list raw) (posts : list Message)
    (used : gset string) (fs : gmap nat Fetch) : Comms :=
  MkComms hosts tx pub_created [msg_created; msg_stale] [] fs [("oss1", posts)] used false.

Definition sample_used : gset string := {[ "s0"; "s1"; "s2" ]}.
Definition sample_end : Comms :=
  MkComms (oss1_host (Some 0%nat) [] oss1_session) [] pub_created [msg_created; msg_stale]
    [("oss1", msg_created)] ∅ [("oss1", [])] sample_used false.

Lemma sample_comms_run : rtc comms_step Comms_new sample_end.
Proof.
  comms_turn (MkComms (oss1_host None [] ∅) [] [] [] [] ∅ [("oss1", en_messages sample_envelope)] {["s0"]} false)
    (cs_post Comms_new "oss1" sample_envelope).
  comms_turn (MkComms (oss1_host None [] oss1_session) [msg_created] pub_created [msg_created] [] ∅
      [("oss1", tail (en_messages sample_envelope))] {["s0"; "s1"]} false)
    (fun c h => cs_message c [] [] "oss1" (MsgSessionCreateRequest "oss1" "action_runner") (tail (en_messages sample_envelope)) h "s1" None).
  comms_turn (sample_state (oss1_host None [] oss1_session) [msg_created; msg_stale] [] sample_used ∅)
    (fun c h => cs_message c [] [] "oss1" (MsgData "oss1" "action_runner" "s0" 7 tt) [] h "s2" None).
  comms_turn (sample_state (oss1_host None [msg_created] oss1_session) [msg_stale] [] sample_used ∅)
    (fun c => cs_deliver c msg_created [msg_stale]).
  comms_turn (sample_state (oss1_host None [msg_created; msg_stale] oss1_session) [] [] sample_used ∅)
    (fun c => cs_deliver c msg_stale []).
  comms_turn (sample_state (oss1_host None [msg_created; msg_stale] oss1_session) [] [] sample_used
      {[ 0%nat := FEntered "oss1" "2020-01-01" ]})
    (fun c => cs_fetch c 0 "oss1" "2020-01-01").
  comms_turn (sample_state (oss1_host (Some 0%nat) [msg_created; msg_stale] oss1_session) [] [] sample_used
      {[ 0%nat := FWaiting "oss1" ]})
    (fun c => cs_wait c 0 "oss1" "2020-01-01").
  comms_turn (sample_state (oss1_host (Some 0%nat) [] oss1_session) [] [] sample_used
      {[ 0%nat := FDrained "oss1" [msg_created; msg_stale] ]})
    (fun c h => cs_flush c 0 "oss1" h 0 30000).
  comms_turn sample_end (fun c => cs_finish c 0 "oss1" [msg_created; msg_stale]).
  apply rtc_refl.
Qed.

Lemma comms_streams_witness :
  stream None (substream "oss1" "action_runner" (cm_published sample_end).*2) = Some (Some "s1").
Proof.
  destruct (comms_streams sample_end sample_comms_run eq_refl) as [Hs _]. by rewrite Hs.
Defined.

Lemma delivered_once_witness :
  [msg_created] ⊆+ [msg_created; msg_stale] /\ mm_fqdn msg_created = "oss1".
Proof.
  destruct (delivered_once sample_end sample_comms_run) as [Hs Hd]. split; [by vm_compute in Hs|].
  apply Hd. left.
Defined.

Lemma terminate_never_delivered_witness :
  msg_stale ∈ cm_sent sample_end /\ ("oss1", msg_stale) ∉ cm_delivered sample_end.
Proof.
  split; [right; left|]. apply (terminate_never_delivered sample_end sample_comms_run).
Defined.

End CommsWitnesses.
