(* ===== verification/ProtocolSpec.v ===== *)
(** The agent communication service and the action runner together: the runner
    takes the messages of its queue in the order the service sent them, and what it
    sends goes to the agents' queue. Each one's promise is what the other needs. *)
From S2P Require Import Prelude RustStd Ordering WireTypes ActionRunner ActionSpec AgentComms CommsSpec.
From stdpp Require Import base gmap sets list strings.
From Stdlib Require Import ZArith.

(** * The runner on a well-formed stream *)

Section Runner.
Context {J : Json} (from_value : value -> option (Result string ActionResult)).
Implicit Types (w : World).

(** The session the runner holds for a host. *)
Definition held_session w (fqdn : string) : option string := rs_sessions (w_st w) !! fqdn.

(** The state in which a turn leaves the tables. *)
Definition turn_state (t : Turn) : RunnerState := match t with Done st | Panic st _ => st end.

Lemma complete_sessions a x st : rs_sessions (turn_state (complete a x st)) = rs_sessions st.
Proof. by destruct (complete_turn a x st) as [(_ & ->)|(_ & ->)]. Qed.

Lemma terminate_sessions fqdn st : rs_sessions (turn_state (terminate_session fqdn st)) = delete fqdn (rs_sessions st).
Proof.
  destruct (rs_sessions st !! fqdn) as [sid|] eqn:Hs.
  - by destruct (terminate_session_turn fqdn sid st Hs) as [(_ & ->)|(? & ? & ? & _ & _ & _ & ->)].
  - unfold terminate_session. rewrite Hs. by rewrite delete_id.
Qed.

Lemma cancel_sessions sid id st : rs_sessions (turn_state (cancel_finish sid id st)) = rs_sessions st.
Proof. unfold cancel_finish. destruct (remove_action_in_flight _ _ _) as [[a|] m]; [by rewrite complete_sessions|done]. Qed.

(** A message that may come next moves the runner as it moves the stream, and leaves
    the other hosts alone, whether its turn panics or not. *)
Lemma message_sessions m st cur :
  (forall fqdn plugin sid, m <> PmSessionCreate fqdn plugin sid) ->
  let st' := turn_state (handle_agent_data from_value m st) in
  stream_step (rs_sessions st !! pm_fqdn m) m = Some cur ->
  rs_sessions st' !! pm_fqdn m = cur /\
  forall f, f <> pm_fqdn m -> rs_sessions st' !! f = rs_sessions st !! f.
Proof.
  intros Hm. destruct m as [f p s|f p s|f p s q b]; simpl; [| by destruct (Hm f p s)|].
  - unfold handle_session_terminate. destruct (rs_sessions st !! f) as [h|] eqn:Hh; [|done].
    rewrite (String.eqb_sym s h). destruct (String.eqb h s); [|done].
    intros [= <-]. rewrite terminate_sessions. split; [apply lookup_delete_eq|].
    intros f' Hf. by rewrite lookup_delete_ne.
  - unfold handle_data. destruct (rs_sessions st !! f) as [h|] eqn:Hh; [|done].
    rewrite (String.eqb_sym s h). destruct (String.eqb h s) eqn:Hs; [|done].
    intros [= <-]. destruct (from_value b) as [[ar|e]|]; [|done|done].
    destruct (remove_action_in_flight s (ar_id ar) (rs_rpcs st)) as [[a|] m']; [|done].
    rewrite complete_sessions. done.
Qed.

(** The receiver is between messages, or has ended: it is not in the middle of [create_session]. *)
Definition at_rest (pc : RecvPc) : Prop := match pc with Idle | Stopped _ => True | _ => False end.

Lemma step_message_sessions m w w' cur :
  step from_value (LMessage m) w w' -> stream_step (held_session w (pm_fqdn m)) m = Some cur ->
  at_rest (w_pc w') /\ held_session w' (pm_fqdn m) = cur /\
  forall f, f <> pm_fqdn m -> held_session w' f = held_session w f.
Proof.
  unfold held_session. intros Hs Hc.
  inversion Hs as [| | | | | | |? ? ? ? ? ? Hm Hh|? ? ? ? ? ? ? Hm Hh|? ? ? ? ? ? ? ? ? Ho| | | |]; subst; simpl in *.
  - pose proof (message_sessions m st cur Hm) as Hmes. rewrite Hh in Hmes. destruct (Hmes Hc). auto.
  - pose proof (message_sessions m st cur Hm) as Hmes. rewrite Hh in Hmes. destruct (Hmes Hc). auto.
  - injection Ho as <- <-. destruct (rs_sessions st !! fqdn); [done|]. injection Hc as <-.
    split; [done|]. split; [apply lookup_insert_eq|]. intros f Hf. simpl. by rewrite lookup_insert_ne.
Qed.

(** No other turn touches the sessions, and none starts to create one. *)
Lemma step_other_sessions l w w' :
  step from_value l w w' -> (forall m, l <> LMessage m) -> at_rest (w_pc w) ->
  at_rest (w_pc w') /\ rs_sessions (w_st w') = rs_sessions (w_st w).
Proof.
  intros Hs Hl Hpc. destruct Hs as [| | | | |w l1 l2 f i sid st' _ Hc|w l1 l2 f i sid st' lost _ Hc|? ? ? ? m ? _ _|? ? ? ? m ? ? _ _
    |? ? ? ? f p s ? ? _| | | |]; simpl in *; try done.
  - split; [done|]. pose proof (cancel_sessions sid i (w_st w)) as E. by rewrite Hc in E.
  - split; [done|]. pose proof (cancel_sessions sid i (w_st w)) as E. by rewrite Hc in E.
  - by destruct (Hl m).
  - by destruct (Hl m).
  - by destruct (Hl (PmSessionCreate f p s)).
Qed.

Ltac nothing_sent := exists []; rewrite app_nil_r; split; [|by intros ? ?%elem_of_nil].

(** What a turn sends to the agents: data of the action runner. *)
Lemma step_sent l w w' : step from_value l w w' ->
  exists new, rs_sent (w_st w') = rs_sent (w_st w) ++ new /\
    forall m, m ∈ new -> exists s f a, m = create_data_message s f a.
Proof.
  assert (forall st t, turn_ok st t -> rs_sent (turn_state t) = rs_sent st) as Hts.
  { intros st [st'|st' lost]; simpl; naive_solver. }
  assert (forall f s (xs : list ActionInFlight) m, m ∈ ((fun a => create_data_message s f (af_action a)) <$> xs) ->
    exists s f a, m = create_data_message s f a) as Hxs.
  { intros f s xs m (a & -> & _)%list_elem_of_fmap. eauto. }
  intros Hs. destruct Hs as [| |w t f a s _| | |w l1 l2 f i sid st' _ Hc|w l1 l2 f i sid st' lost _ Hc|st got open log m st' Hm Hh
    |st got open log m st' lost Hm Hh|? ? ? ? ? ? ? ? ? Ho|? ? ? ? ? ? ? ? ? Ho|st got open log f s xs|st got open log f s xs n st' lost Ho|];
    simpl; try (nothing_sent; done).
  - exists [create_data_message s f a]. split; [done|]. intros m ->%list_elem_of_singleton. eauto.
  - nothing_sent. pose proof (Hts _ _ (cancel_turn sid i (w_st w))) as E. by rewrite Hc in E.
  - nothing_sent. pose proof (Hts _ _ (cancel_turn sid i (w_st w))) as E. by rewrite Hc in E.
  - nothing_sent. pose proof (Hts _ _ (message_turn from_value m st Hm)) as E. by rewrite Hh in E.
  - nothing_sent. pose proof (Hts _ _ (message_turn from_value m st Hm)) as E. by rewrite Hh in E.
  - nothing_sent. by injection Ho as <- <-.
  - nothing_sent. by injection Ho as <- <-.
  - eexists. split; [done|]. apply Hxs.
  - injection Ho as <- <-. eexists. split; [done|]. intros m Hm%elem_of_take. destruct Hm as (i & Hi & _).
    by eapply Hxs, list_elem_of_lookup_2.
Qed.

End Runner.

(** * The two services joined *)

Section Joint.
Context {J : Json} {B : Bytes} (from_value : value -> option (Result string ActionResult))
  (to_value : Action -> value).
Implicit Types (c : Comms) (w : World).

(** The message as it is on the wire. *)
Definition serialize (m : ManagerMessage Action) : ManagerMessage value :=
  match m with
  | MmSessionCreateResponse f p s => MmSessionCreateResponse f p s
  | MmData f p s b => MmData f p s (to_value b)
  | MmSessionTerminate f p s => MmSessionTerminate f p s
  | MmSessionTerminateAll f => MmSessionTerminateAll f
  end.

Definition publish c (m : ManagerMessage value) : Comms :=
  MkComms (cm_hosts c) (cm_tx c ++ [to_vec m]) (cm_published c) (cm_sent c ++ [m])
    (cm_delivered c) (cm_fetches c) (cm_posts c) (cm_used c) (cm_failed c).

(** What the runner sent in a turn goes to the agents' queue. *)
Definition publish_sent c w w' : Comms :=
  foldl publish c (serialize <$> drop (length (rs_sent (w_st w))) (rs_sent (w_st w'))).

(** The queue of the action runner, all that was ever sent to it. *)
Definition runner_queue c : list PluginMessage :=
  omap (fun '(q, m) => if String.eqb q (plugin_queue "action_runner") then Some m else None)
    (cm_published c).

(** Both services, and how many messages the runner has taken. *)
Record Joint : Type := MkJoint { j_comms : Comms; j_world : World; j_read : nat }.

Definition Joint_new : Joint := {| j_comms := Comms_new; j_world := World_new; j_read := 0 |}.

(** Clients give every action an id of its own. *)
Definition fresh_action (l : Label) w : Prop :=
  match l with LEnter _ id => id ∉ action_get_id <$> w_log w | _ => True end.

Inductive joint_step : Joint -> Joint -> Prop :=
| js_comms c c' w n : comms_step c c' -> joint_step (MkJoint c w n) (MkJoint c' w n)
| js_message c w w' n m :
    runner_queue c !! n = Some m -> step from_value (LMessage m) w w' ->
    joint_step (MkJoint c w n) (MkJoint (publish_sent c w w') w' (S n))
| js_runner c w w' n l :
    (forall m, l <> LMessage m) -> fresh_action l w -> step from_value l w w' ->
    joint_step (MkJoint c w n) (MkJoint (publish_sent c w w') w' n).

(** ** Queue names *)

Lemma plugin_queue_inj p p' : plugin_queue p = plugin_queue p' -> p = p'.
Proof.
  unfold plugin_queue. intros Hq%(inj (String.append "rust_agent_")).
  assert (slen p = slen p') as Hl.
  { apply (f_equal slen) in Hq. rewrite !slen_app in Hq. lia. }
  rewrite <-(stake_app p "_rx"), <-(stake_app p' "_rx"). by rewrite Hq, Hl.
Qed.

(** What a turn of the communication service does to what was sent. *)
Lemma comms_step_grows c c' : comms_step c c' ->
  (exists l, cm_published c' = cm_published c ++ l) /\ (cm_failed c' = false -> cm_failed c = false).
Proof.
  destruct 1; simpl; try (split; [exists []; by rewrite app_nil_r|done]).
  split; [eauto|]. by intros [? _]%orb_false_iff.
Qed.

Lemma foldl_publish c ms :
  let c' := foldl publish c ms in
  cm_published c' = cm_published c /\ cm_hosts c' = cm_hosts c /\ cm_failed c' = cm_failed c.
Proof.
  revert c. induction ms as [|m ms IH]; intros c; simpl; [done|].
  destruct (IH (publish c m)) as (-> & -> & ->). done.
Qed.

Lemma publish_steps c ms :
  (forall m f p s, m ∈ ms -> m <> MmSessionTerminate f p s) -> rtc comms_step c (foldl publish c ms).
Proof.
  revert c. induction ms as [|m ms IH]; intros c Hm; simpl; [done|].
  eapply rtc_l; [|apply IH; intros; apply Hm; by right].
  apply cs_service. intros f p s. apply Hm. left.
Qed.

Lemma publish_sent_steps l c w w' : step from_value l w w' -> rtc comms_step c (publish_sent c w w').
Proof.
  intros (new & Hn & Hd)%step_sent. apply publish_steps.
  intros m f p s (m' & -> & Hin)%list_elem_of_fmap. rewrite Hn, drop_app_length in Hin.
  by apply Hd in Hin as (s' & f' & a & ->).
Qed.

(** The projection of a joint run on the communication service. *)
Lemma joint_comms_reachable j : rtc joint_step Joint_new j -> rtc comms_step Comms_new (j_comms j).
Proof.
  apply (rtc_ind_r (fun j => rtc comms_step Comms_new (j_comms j))); [done|].
  intros j1 j2 _ Hs IH. destruct Hs as [c c' w n Hs|c w w' n m _ Hs|c w w' n l _ _ Hs]; simpl in *.
  - by eapply rtc_r.
  - etrans; [exact IH|]. by eapply publish_sent_steps.
  - etrans; [exact IH|]. by eapply publish_sent_steps.
Qed.

(** ** Session ids *)

Definition creates (l : list PluginMessage) : list string :=
  omap (fun m => match m with PmSessionCreate _ _ s => Some s | _ => None end) l.

Lemma creates_app l1 l2 : creates (l1 ++ l2) = creates l1 ++ creates l2.
Proof. apply omap_app. Qed.

Lemma handle_message_creates uuid sessions msg sessions' pubs :
  handle_message uuid sessions msg = (sessions', pubs) ->
  creates (to_plugins pubs).*2 = [] \/ creates (to_plugins pubs).*2 = [uuid].
Proof.
  destruct msg as [f p s q b|f p]; simpl; intros [= _ <-].
  - left. unfold data_handler. by destruct (bool_decide _).
  - right. by destruct (sessions !! p).
Qed.

Lemma transmit_creates fails pubs out ok uuid :
  transmit fails pubs = (out, ok) ->
  (creates (to_plugins pubs).*2 = [] \/ creates (to_plugins pubs).*2 = [uuid]) ->
  creates (to_plugins out).*2 = [] \/ creates (to_plugins out).*2 = [uuid].
Proof.
  intros Ht Hp. assert (exists r, pubs = out ++ r) as (r & ->).
  { unfold transmit in Ht. destruct fails as [n|]; [destruct (_ <? _)%nat|]; injection Ht as <- _;
      [exists (drop n pubs); by rewrite take_drop|exists []; by rewrite app_nil_r..]. }
  unfold to_plugins in Hp. rewrite omap_app, fmap_app, creates_app in Hp.
  destruct Hp as [[? _]%app_nil|Hp]; [by left|].
  destruct (creates (to_plugins out).*2) as [|x l] eqn:Hc; [by left|right].
  unfold to_plugins in Hc. rewrite Hc in Hp. injection Hp as -> Hl. by apply app_nil in Hl as [-> _].
Qed.

Lemma creates_fresh c : rtc comms_step Comms_new c ->
  NoDup (creates (cm_published c).*2) /\ forall s, s ∈ creates (cm_published c).*2 -> s ∈ cm_used c.
Proof.
  apply (rtc_ind_r (fun c => NoDup (creates (cm_published c).*2) /\
    forall s, s ∈ creates (cm_published c).*2 -> s ∈ cm_used c)).
  { split; [constructor|by intros ? ?%elem_of_nil]. }
  intros c1 c2 _ Hs [Hn Hu]. destruct Hs as [|? ? ? ? ? ? ? ? ? ? ? ? ? _ _ Hf Hm Ht| | | | | |]; simpl; try done.
  - split; [done|]. intros s Hs%Hu. set_solver.
  - apply handle_message_creates, (transmit_creates _ _ _ _ _ Ht) in Hm.
    rewrite fmap_app, creates_app. destruct Hm as [->| ->].
    + rewrite app_nil_r. split; [done|]. intros s Hs%Hu. set_solver.
    + split.
      * apply NoDup_app. split; [done|]. split; [|apply NoDup_singleton].
        intros s Hs%Hu ->%list_elem_of_singleton. done.
      * intros s [Hs%Hu| ->%list_elem_of_singleton]%elem_of_app; set_solver.
Qed.

(** ** The runner's queue *)

Lemma runner_queue_cut (pub : list (string * PluginMessage)) f :
  (forall q m, (q, m) ∈ pub -> q = plugin_queue (pm_plugin m)) ->
  let rq := omap (fun '(q, m) => if String.eqb q (plugin_queue "action_runner") then Some m else None) pub in
  substream f "action_runner" rq = substream f "action_runner" pub.*2 /\
  (forall m, m ∈ rq -> pm_plugin m = "action_runner") /\ creates rq ⊆+ creates pub.*2.
Proof.
  induction pub as [|[q m] pub IH]; intros Hq.
  { split; [done|]. split; [by intros ? ?%elem_of_nil|done]. }
  destruct IH as (IH1 & IH2 & IH3); [intros; apply Hq; by right|]. csimpl.
  pose proof (Hq q m ltac:(left)) as Hqm. destruct (String.eqb_spec q (plugin_queue "action_runner")) as [E|E].
  - rewrite Hqm in E. apply plugin_queue_inj in E. csimpl. rewrite IH1. split; [done|]. split.
    + intros m' [->|?]%elem_of_cons; auto.
    + unfold creates in *. csimpl. destruct m; try done. by apply submseteq_skip.
  - assert (of_session f "action_runner" m = false) as Hm.
    { apply of_session_false. right. intros Hp. apply E. by rewrite Hqm, Hp. }
    rewrite Hm. split; [done|]. split; [done|]. unfold creates in *. csimpl.
    destruct m; try done. by apply submseteq_cons.
Qed.

Lemma runner_queue_stream c : rtc comms_step Comms_new c -> cm_failed c = false ->
  (forall f, stream None (substream f "action_runner" (runner_queue c)) =
     Some (s_id <$> session_of (cm_hosts c) f "action_runner")) /\
  (forall m, m ∈ runner_queue c -> pm_plugin m = "action_runner") /\ NoDup (creates (runner_queue c)).
Proof.
  intros Hc Hf. pose proof (streams_ok_reachable c Hc) as [_ _ Hq Hs].
  pose proof (fun f => runner_queue_cut (cm_published c) f Hq) as Hcut.
  unfold runner_queue. split_and!.
  - intros f. destruct (Hcut f) as (-> & _). by apply Hs.
  - by destruct (Hcut "") as (_ & ? & _).
  - destruct (Hcut "") as (_ & _ & Hsub). eapply submseteq_NoDup; [exact Hsub|]. by apply creates_fresh.
Qed.

Lemma runner_queue_grows c c' : comms_step c c' -> exists l, runner_queue c' = runner_queue c ++ l.
Proof.
  intros [(l & Hl) _]%comms_step_grows. unfold runner_queue. rewrite Hl, omap_app. eauto.
Qed.

(** ** The invariant of the joint system *)

(** The sessions the runner knows of came in messages it has taken. *)
Record known (ids : list string) w : Prop := {
  kn_held f s : held_session w f = Some s -> s ∈ ids;
  kn_got f a s : (f, a, s) ∈ w_got w -> s ∈ ids;
  kn_rpcs s : is_Some (rs_rpcs (w_st w) !! s) -> s ∈ ids;
}.

Record joint_ok (j : Joint) : Prop := {
  jo_read : (j_read j <= length (runner_queue (j_comms j)))%nat;
  jo_pc : at_rest (w_pc (j_world j));
  jo_held f : stream None (substream f "action_runner" (take (j_read j) (runner_queue (j_comms j)))) =
    Some (held_session (j_world j) f);
  jo_known : known (creates (take (j_read j) (runner_queue (j_comms j)))) (j_world j);
  jo_orderly : rtc (orderly_step from_value) World_new (j_world j);
}.

Lemma rpcs_keys_sub (m m' : gmap string (gmap string ActionInFlight)) (ids : list string) :
  rpcs_sub m' m -> (forall s, is_Some (m !! s) -> s ∈ ids) -> forall s, is_Some (m' !! s) -> s ∈ ids.
Proof.
  intros [_ Hn] Hm s [xs Hs]. apply Hm. destruct (m !! s) as [ys|] eqn:E; [done|].
  by rewrite (Hn s E) in Hs.
Qed.

Lemma known_runner ids l w w' :
  (forall m, l <> LMessage m) -> at_rest (w_pc w) -> step from_value l w w' -> known ids w -> known ids w'.
Proof.
  intros Hl Hpc Hs [Hh Hg Hr]. pose proof (step_other_sessions from_value l w w' Hs Hl Hpc) as [_ Hse].
  assert (forall f s, held_session w' f = Some s -> s ∈ ids) as Hh'.
  { intros f s. unfold held_session. rewrite Hse. apply Hh. }
  destruct Hs as [w f a sid Hf|st pc l1 l2 open log f action args i sid| | | |w l1 l2 f i sid st' Hgot Hc|w l1 l2 f i sid st' lost Hgot Hc
    |? ? ? ? m ? _ _|? ? ? ? m ? ? _ _|? ? ? ? f p s ? ? _| | | |]; split; simpl in *; try done.
  - intros f' a' s' [Hin|[= -> -> ->]%list_elem_of_singleton]%elem_of_app; [by eapply Hg|by eapply Hh].
  - intros f' a' s' Hin. apply (Hg f' a'). apply elem_of_app in Hin as [Hin|Hin]; set_solver.
  - intros s Hs. unfold insert_action_in_flight in Hs. destruct (decide (s = sid)) as [->|Hne].
    + eapply Hg. apply elem_of_app. right. left.
    + rewrite lookup_insert_ne in Hs by done. by apply Hr.
  - by apply (rpcs_keys_sub (rs_rpcs (w_st w))); [apply rpcs_sub_remove|].
  - intros f' a' s' Hin. apply (Hg f' a'). rewrite Hgot. apply elem_of_app in Hin as [Hin|Hin]; set_solver.
  - apply (rpcs_keys_sub (rs_rpcs (w_st w))); [|done]. pose proof (cancel_turn sid i (w_st w)) as Hk. rewrite Hc in Hk. by destruct Hk as (_ & ? & _).
  - intros f' a' s' Hin. apply (Hg f' a'). rewrite Hgot. apply elem_of_app in Hin as [Hin|Hin]; set_solver.
  - apply (rpcs_keys_sub (rs_rpcs (w_st w))); [|done]. pose proof (cancel_turn sid i (w_st w)) as Hk. rewrite Hc in Hk. by destruct Hk as (_ & ? & _).
  - by destruct (Hl m).
  - by destruct (Hl m).
  - by destruct (Hl (PmSessionCreate f p s)).
Qed.

Lemma stream_step_open cur m s :
  stream_step cur m = Some (Some s) -> cur = Some s \/ s ∈ creates [m].
Proof.
  destruct m as [f p i|f p i|f p i q b], cur as [x|]; simpl; try done.
  - by destruct (String.eqb i x).
  - intros [= <-]. right. left.
  - destruct (String.eqb i x); [|done]. intros [= ->]. by left.
Qed.

Lemma known_message ids m w w' cur :
  step from_value (LMessage m) w w' -> stream_step (held_session w (pm_fqdn m)) m = Some cur ->
  known ids w -> known (ids ++ creates [m]) w'.
Proof.
  intros Hs Hc [Hh Hg Hr]. destruct (step_message_sessions from_value m w w' cur Hs Hc) as (_ & Hm & Ho).
  split.
  - intros f s Hf. apply elem_of_app. destruct (decide (f = pm_fqdn m)) as [->|Hne].
    + rewrite Hm in Hf. rewrite Hf in Hc. apply stream_step_open in Hc as [Hc|Hc]; [left; by eapply Hh|by right].
    + rewrite Ho in Hf by done. left. by eapply Hh.
  - intros f a s Hin. apply elem_of_app. left.
    inversion Hs; subst; simpl in *; by eapply Hg.
  - intros s Hx. apply elem_of_app. left. revert s Hx.
    inversion Hs as [| | | | | | |st got open log m' st' Hnc Hh'|st got open log m' st' lost Hnc Hh'|? ? ? ? ? ? ? ? ? Hce| | | |]; subst; simpl in *.
    + apply (rpcs_keys_sub (rs_rpcs st)); [|done]. pose proof (message_turn from_value m st Hnc) as Hk. rewrite Hh' in Hk. by destruct Hk as (_ & ? & _).
    + apply (rpcs_keys_sub (rs_rpcs st)); [|done]. pose proof (message_turn from_value m st Hnc) as Hk. rewrite Hh' in Hk. by destruct Hk as (_ & ? & _).
    + injection Hce as <- <-. done.
Qed.

(** The next message is one that may come. *)
Lemma next_message c w n m :
  rtc comms_step Comms_new c -> cm_failed c = false -> joint_ok (MkJoint c w n) ->
  runner_queue c !! n = Some m ->
  (exists cur, stream_step (held_session w (pm_fqdn m)) m = Some cur) /\
  pm_plugin m = "action_runner" /\
  (forall s, s ∈ creates [m] -> rs_rpcs (w_st w) !! s = None).
Proof.
  intros Hc Hf [_ _ Hh [_ _ Hk] _] Hn. simpl in *.
  destruct (runner_queue_stream c Hc Hf) as (Hst & Hp & Hnd).
  pose proof (take_drop_middle _ _ _ Hn) as Hsplit. split_and!.
  - pose proof (Hst (pm_fqdn m)) as Hs. rewrite <-Hsplit, substream_app, stream_app, Hh in Hs.
    cbn [mbind option_bind substream List.filter] in Hs.
    rewrite (proj2 (of_session_true _ _ _)) in Hs by (split; [done|by eapply Hp, list_elem_of_lookup_2]).
    cbn [stream] in Hs. apply bind_Some in Hs as (cur & ? & _). eauto.
  - by eapply Hp, list_elem_of_lookup_2.
  - intros s Hs. destruct (rs_rpcs (w_st w) !! s) as [xs|] eqn:Hx; [exfalso|done].
    rewrite <-Hsplit, cons_middle, !creates_app in Hnd. apply NoDup_app in Hnd as (_ & Hdis & _).
    apply (Hdis s); [by apply Hk; eauto|]. apply elem_of_app. by left.
Qed.

Lemma joint_ok_message c w w' n m :
  rtc comms_step Comms_new c -> cm_failed c = false -> joint_ok (MkJoint c w n) ->
  runner_queue c !! n = Some m -> step from_value (LMessage m) w w' ->
  joint_ok (MkJoint (publish_sent c w w') w' (S n)).
Proof.
  intros Hc Hf Hj Hn Hs. destruct (next_message c w n m Hc Hf Hj Hn) as ((cur & Hcur) & Hp & Hfr).
  pose proof (step_message_sessions from_value m w w' cur Hs Hcur) as (Hpc & Hm & Ho).
  destruct Hj as [Hr Hpc0 Hh Hk Hor]. simpl in *.
  destruct (foldl_publish c (serialize <$> drop (length (rs_sent (w_st w))) (rs_sent (w_st w')))) as (Hpub & _ & _).
  assert (runner_queue (publish_sent c w w') = runner_queue c) as Hrq by (unfold runner_queue, publish_sent; by rewrite Hpub).
  split; simpl; rewrite ?Hrq; rewrite ?(take_S_r _ _ _ Hn).
  - by apply lookup_lt_Some in Hn.
  - done.
  - intros f. rewrite substream_app, stream_app, Hh. cbn [mbind option_bind substream List.filter].
    destruct (of_session f "action_runner" m) eqn:Hof.
    + apply of_session_true in Hof as [<- _]. cbn [stream]. rewrite Hcur. by rewrite Hm.
    + apply of_session_false in Hof as [Hne|?]; [|done]. cbn [stream]. by rewrite Ho.
  - rewrite creates_app. by eapply known_message.
  - eapply rtc_r; [exact Hor|]. exists (LMessage m). split; [done|]. simpl.
    destruct m as [| f p s|]; try done. apply Hfr. left.
Qed.

Lemma joint_ok_runner c w w' n l :
  (forall m, l <> LMessage m) -> fresh_action l w -> step from_value l w w' ->
  joint_ok (MkJoint c w n) -> joint_ok (MkJoint (publish_sent c w w') w' n).
Proof.
  intros Hl Hfr Hs [Hr Hpc Hh Hk Hor]. simpl in *.
  destruct (foldl_publish c (serialize <$> drop (length (rs_sent (w_st w))) (rs_sent (w_st w')))) as (Hpub & _ & _).
  assert (runner_queue (publish_sent c w w') = runner_queue c) as Hrq by (unfold runner_queue, publish_sent; by rewrite Hpub).
  pose proof (step_other_sessions from_value l w w' Hs Hl Hpc) as [Hpc' Hse].
  split; simpl; rewrite ?Hrq; try done.
  - intros f. rewrite Hh. unfold held_session. by rewrite Hse.
  - exact (known_runner _ l w w' Hl Hpc Hs Hk).
  - eapply rtc_r; [exact Hor|]. exists l. split; [done|]. destruct l as [s i|m|]; simpl in *; try done.
    + split; [by destruct (w_pc w)|done].
    + by destruct (Hl m).
Qed.

Lemma joint_ok_reachable j :
  rtc joint_step Joint_new j -> cm_failed (j_comms j) = false -> joint_ok j.
Proof.
  revert j. apply (rtc_ind_r (fun j => cm_failed (j_comms j) = false -> joint_ok j)).
  { intros _. split; simpl; try done. split; simpl; try done.
    - by intros ? ? ? ?%elem_of_nil.
    - intros s [xs Hs]. by rewrite lookup_empty in Hs. }
  intros j1 j2 Hj%joint_comms_reachable Hs IH Hf.
  destruct Hs as [c c' w n Hs|c w w' n m Hn Hs|c w w' n l Hl Hfr Hs]; simpl in *.
  - destruct (comms_step_grows _ _ Hs) as [_ Hff]. destruct (runner_queue_grows _ _ Hs) as (l & Hl).
    destruct (IH (Hff Hf)) as [Hr Hpc Hh Hk Hor]. simpl in *.
    split; simpl; rewrite ?Hl; rewrite ?(take_app_le (runner_queue c) l n Hr); try done.
    rewrite length_app. lia.
  - unfold publish_sent in Hf. rewrite (proj2 (proj2 (foldl_publish _ _))) in Hf.
    eapply joint_ok_message; eauto.
  - unfold publish_sent in Hf. rewrite (proj2 (proj2 (foldl_publish _ _))) in Hf.
    eapply joint_ok_runner; eauto.
Qed.

(** ** The services agree on the sessions *)
(** C16: in every run of the communication service and the action runner together in
    which no message to a queue failed, the runner has, for every host, the session
    its messages so far opened; once it has taken all its messages, that is the
    session the communication service holds. The runner never finds a session of the
    host when it creates one, so it is never between the steps of [create_session]: it is
    between messages, or its receiver has ended. An agent posts under its own name. *)
Theorem sessions_agree j (Hj : rtc joint_step Joint_new j) (Hok : cm_failed (j_comms j) = false) :
  (w_pc (j_world j) = Idle \/ exists lost, w_pc (j_world j) = Stopped lost) /\
  (forall fqdn, stream None (substream fqdn "action_runner" (take (j_read j) (runner_queue (j_comms j)))) =
     Some (rs_sessions (w_st (j_world j)) !! fqdn)) /\
  (j_read j = length (runner_queue (j_comms j)) -> forall fqdn,
     rs_sessions (w_st (j_world j)) !! fqdn =
     s_id <$> session_of (cm_hosts (j_comms j)) fqdn "action_runner").
Proof.
  pose proof (joint_ok_reachable j Hj Hok) as [_ Hpc Hh _ _]. split_and!; [destruct (w_pc (j_world j)); eauto; done|done|].
  intros Hn fqdn. pose proof (Hh fqdn) as Hf. rewrite Hn, firstn_all in Hf.
  destruct (runner_queue_stream _ (joint_comms_reachable j Hj) Hok) as (Hs & _).
  rewrite Hs in Hf. injection Hf as Hf. by rewrite Hf.
Qed.

(** ** The runner loses no action *)
(** C5: in such a run every action that was handed to the runner, under an id of its
    own, was answered, is in flight, or has lost its client, or its channel was dropped
    in the panic that ended the receiver, whatever the timing of requests, new
    sessions and results and whichever of them panic: the order that the runner needs
    for this is the one the communication service keeps. *)
Theorem joint_nothing_lost j (Hj : rtc joint_step Joint_new j)
  (Hok : cm_failed (j_comms j) = false) t (Ht : (t < length (w_log (j_world j)))%nat) :
  t ∈ answered (j_world j) \/ t ∈ pending (j_world j) \/ t ∈ rs_gone (w_st (j_world j)) \/
  exists lost, w_pc (j_world j) = Stopped lost /\ t ∈ af_tx <$> lost.
Proof.
  destruct (orderly_accounted from_value (j_world j) t) as [?|[?|[?|Hd]]]; auto; [by apply joint_ok_reachable|].
  do 3 right. unfold dropped in Hd. destruct (w_pc (j_world j)) as [| |lost|]; try by apply elem_of_nil in Hd. by exists lost.
Qed.

End Joint.

(** * Witnesses *)

Section JointWitnesses.

#[local] Existing Instance tiny_json.
#[local] Existing Instance plain_bytes.

Definition joint_answer (v : value) : option (Result string ActionResult) :=
  Some (Ok {| ar_id := "a1"; ar_result := Ok tt |}).
Definition joint_value (a : Action) : value := tt.

Lemma joint_comms_steps w n c c' :
  rtc comms_step c c' -> rtc (joint_step joint_answer joint_value) (MkJoint c w n) (MkJoint c' w n).
Proof. induction 1 as [|c c1 c' Hs _ IH]; [done|]. eapply rtc_l; [by apply js_comms|done]. Qed.

(** The session of [sample_end] has reached the runner, which got an action. *)
Definition joint_world : World :=
  {| w_st := {| rs_sessions := {[ "oss1" := "s1" ]};
                rs_rpcs := {[ "s1" := {[ "a1" := {| af_tx := 0; af_action := race_action "a1" |} ]} ]};
                rs_sent := []; rs_done := []; rs_gone := ∅ |};
     w_pc := Idle; w_got := []; w_open := {[ 0%nat := ("oss1", race_action "a1", "s1") ]};
     w_log := [race_action "a1"] |}.
Definition joint_end : Joint := MkJoint sample_end joint_world 1.

Lemma joint_end_reachable : rtc (joint_step joint_answer joint_value) Joint_new joint_end.
Proof.
  etrans; [exact (joint_comms_steps World_new 0 _ _ sample_comms_run)|].
  eapply rtc_l.
  { eapply (js_message _ _ sample_end World_new _ 0 (PmSessionCreate "oss1" "action_runner" "s1")); [done|].
    by apply (step_create _ RunnerState_new [] ∅ [] "oss1" "action_runner" "s1" None). }
  eapply rtc_l.
  { eapply (js_runner _ _ _ _ _ _ LOther); [done|done|].
    by apply (step_session _ _ "oss1" (race_action "a1") "s1"). }
  eapply rtc_l.
  { eapply (js_runner _ _ _ _ _ _ (LEnter "s1" "a1")); [done|apply not_elem_of_nil|].
    apply (step_enter _ _ _ [] [] _ _ "oss1" "mount" json_null "a1" "s1"). }
  vm_compute. apply rtc_refl.
Qed.

Lemma sessions_agree_witness :
  rs_sessions (w_st joint_world) !! "oss1" = s_id <$> session_of (cm_hosts sample_end) "oss1" "action_runner".
Proof.
  destruct (sessions_agree joint_answer joint_value joint_end joint_end_reachable eq_refl) as (_ & _ & Hs).
  by apply Hs.
Defined.

Lemma joint_nothing_lost_witness :
  0%nat ∈ answered joint_world \/ 0%nat ∈ pending joint_world \/ 0%nat ∈ rs_gone (w_st joint_world) \/
  exists lost, w_pc joint_world = Stopped lost /\ 0%nat ∈ af_tx <$> lost.
Proof.
  apply (joint_nothing_lost joint_answer joint_value joint_end joint_end_reachable eq_refl). simpl. lia.
Defined.

End JointWitnesses.
