(* ===== verification/AgentSession.v ===== *)
(** The agent's side of the sessions, [iml-agent/src/]: the state of every plugin
    ([http_comms/session.rs]), the poller ([poller.rs]), the reader ([reader.rs]) and
    the requests to the manager ([http_comms/agent_client.rs]). The code is a set of
    tasks on shared state; [agent_turn] runs one of them from one point where it may
    wait to the next, and its label says which one and what the plugin, the network
    or the clock gave it. *)
From S2P Require Import Prelude RustStd WireTypes.
From stdpp Require Import base gmap sets list strings.
From Stdlib Require Import ZArith.

Open Scope Z_scope.

(** Times are in nanoseconds. *)
Definition SEC : Z := 1000000000.
Definition WAIT_TIME : Z := 5 * SEC.

(** [r * 2] is on [u64], where release builds wrap around. *)
Definition backoff_schedule (d : Z) : Z :=
  let r := d / SEC in
  if r <=? 1 then WAIT_TIME else SEC * Z.min (u64_mul r 2) 60.

(** * Plugins: [daemon_plugins/] *)

Definition plugin_registry : list PluginName :=
  ["action_runner"; "ntp"; "ostpool"; "postoffice"; "stats"; "device"; "journal"; "corosync";
   "snapshot"; "network"].

(** How long a plugin may take in a poll: all but one keep the trait's default. *)
Definition deadline (name : PluginName) : Z :=
  if String.eqb name "corosync" then 10 * SEC else SEC.

Definition get_plugin (name : PluginName) : option PluginName :=
  if bool_decide (name ∈ plugin_registry) then Some name else None.

(** * Sessions: [http_comms/session.rs] *)

(** The counter, the last update and the plugin are behind an [Arc] or a [Box] of
    their own: [se_cell] says which. *)
Record Session : Type := MkSession { se_name : PluginName; se_id : Id; se_cell : nat }.

(** [a_in_flight] is the task that holds the other end of the channel. *)
Record Active : Type := MkActive {
  a_session : Session;
  a_in_flight : option nat;
  a_instant : Z;
}.

Inductive State : Type :=
| SActive (a : Active)
| SPending
| SEmpty (wait : Z).

Definition in_flight (st : State) : option nat :=
  match st with SActive a => a_in_flight a | _ => None end.

Definition is_active (id : Id) (st : State) : bool :=
  match st with SActive a => String.eqb (se_id (a_session a)) id | _ => false end.

(** Every plugin's own [teardown] succeeds. *)
Definition teardown (now : Z) (st : State) : State := SEmpty now.

Definition reset_active (now : Z) (st : State) : State :=
  match st with
  | SActive a => SActive {| a_session := a_session a; a_in_flight := None; a_instant := now + WAIT_TIME |}
  | _ => st
  end.

Definition create_active (now : Z) (s : Session) (t : nat) (st : State) : State :=
  SActive {| a_session := s; a_in_flight := Some t; a_instant := now + WAIT_TIME |}.

Definition reset_empty (now : Z) (st : State) : State := SEmpty (now + WAIT_TIME).

Definition convert_to_pending (st : State) : State :=
  match st with SEmpty _ => SPending | _ => st end.

Abbreviation Sessions := (gmap PluginName State) (only parsing).

Definition Sessions_new (now : Z) (plugins : list PluginName) : Sessions :=
  list_to_map ((fun x => (x, SEmpty now)) <$> plugins).

(** The methods of [Sessions] that look a plugin up and change its state: one that
    is not there is left alone. *)
Definition at_plugin (f : State -> State) (name : PluginName) (ss : Sessions) : Sessions :=
  match ss !! name with Some st => <[name := f st]> ss | None => ss end.

Definition insert_session (now : Z) (name : PluginName) (s : Session) (t : nat) (ss : Sessions) :
    option Sessions :=
  match ss !! name with
  | Some st => Some (<[name := create_active now s t st]> ss)
  | None => None
  end.

(** Whether [terminate_session] goes on to tear the session down. *)
Definition terminate_check (name : PluginName) (id : Id) (ss : Sessions) : bool :=
  match ss !! name with Some st => is_active id st | None => false end.

Section AgentSession.
Context {J : Json}.

(** What a session shares with the tasks that work for it. *)
Record Shared : Type := MkShared {
  sh_info : Z;
  sh_last : option value;
  sh_locked : bool;
}.

Definition Shared_new : Shared := {| sh_info := 0; sh_last := None; sh_locked := false |}.

Definition fetch_add (sh : Shared) : Shared :=
  {| sh_info := (sh_info sh + 1) mod 2 ^ 64; sh_last := sh_last sh; sh_locked := sh_locked sh |}.

Definition unlock (sh : Shared) : Shared :=
  {| sh_info := sh_info sh; sh_last := sh_last sh; sh_locked := false |}.

(** The outcome of a poll, under the lock of the last update: nothing if it is that
    update again. *)
Definition poll_output (x : value) (sh : Shared) : option Shared :=
  if bool_decide (sh_last sh = Some x) then None
  else Some (fetch_add {| sh_info := sh_info sh; sh_last := Some x; sh_locked := true |}).

(** * Requests: [http_comms/agent_client.rs] *)

Record AgentClient : Type := MkAgentClient {
  ac_start_time : string;
  ac_fqdn : Fqdn;
  ac_boot_time : string;
}.

Definition post (ac : AgentClient) (m : Message) : Envelope :=
  Envelope_new [m] (ac_start_time ac) (ac_boot_time ac).

Definition create_session (ac : AgentClient) (plugin : PluginName) : Envelope :=
  post ac (MsgSessionCreateRequest (ac_fqdn ac) plugin).

Definition send_data (ac : AgentClient) (id : Id) (name : PluginName) (seq : Z) (body : value) :
    Envelope :=
  post ac (MsgData (ac_fqdn ac) name id seq body).

(** * Tasks *)

(** A session start (with the time of its creation), a poll (with its tick), and a
    message from the manager. *)
Inductive Kind : Type :=
| KStart (born : Z)
| KPoll (tick : Z)
| KMessage.

(** Where such a task stands: the plugin works; the counter is raised but not read;
    the data is to be sent; it has ended, well or not; the session is to be torn
    down. *)
Inductive Pc : Type :=
| Running
| Counted (x : value)
| Numbered (seq : Z) (x : value)
| Ended (ok : bool)
| Checked.

Inductive Task : Type :=
| TSession (k : Kind) (s : Session) (pc : Pc)
| TMessage (name : PluginName) (body : value)
| TRequest (name : PluginName)
| TReset (name : PluginName).

Definition is_poll (k : Kind) : bool := match k with KPoll _ => true | _ => false end.
Definition is_message (k : Kind) : bool := match k with KMessage => true | _ => false end.

(** The poller in a tick: its first loop, then its second. *)
Inductive PollerPc : Type :=
| PIdle
| PEmpty (now : Z) (todo : gset PluginName)
| PHandle (now : Z) (todo : gset PluginName).

(** The reader: with messages to go through, tearing down one session or all (on a
    message, or after an error), in the delay after an error, or ended. *)
Inductive ReaderPc : Type :=
| RIdle
| RDelivery (msgs : list (ManagerMessage value))
| RTear (name : PluginName) (msgs : list (ManagerMessage value))
| RTearAll (todo : gset PluginName) (msgs : option (list (ManagerMessage value)))
| RDelay (until : Z)
| RDead.

Record World : Type := MkWorld {
  w_sessions : Sessions;
  w_cells : gmap nat Shared;
  w_tasks : gmap nat Task;
  w_next : nat;
  w_now : Z;
  w_tick : Z;
  w_poller : PollerPc;
  w_reader : ReaderPc;
  w_posted : list Envelope;
  w_granted : list (PluginName * Id);
}.

Definition World_new (now : Z) : World :=
  {| w_sessions := Sessions_new now plugin_registry; w_cells := ∅; w_tasks := ∅; w_next := 0;
     w_now := now; w_tick := now; w_poller := PIdle; w_reader := RIdle; w_posted := [];
     w_granted := [] |}.

Definition set_sessions (f : Sessions -> Sessions) (w : World) : World :=
  MkWorld (f (w_sessions w)) (w_cells w) (w_tasks w) (w_next w) (w_now w) (w_tick w) (w_poller w)
    (w_reader w) (w_posted w) (w_granted w).
Definition set_cell (c : nat) (f : Shared -> Shared) (w : World) : World :=
  MkWorld (w_sessions w) (alter f c (w_cells w)) (w_tasks w) (w_next w) (w_now w) (w_tick w)
    (w_poller w) (w_reader w) (w_posted w) (w_granted w).
Definition set_task (t : nat) (x : option Task) (w : World) : World :=
  MkWorld (w_sessions w) (w_cells w) (partial_alter (fun _ => x) t (w_tasks w)) (w_next w) (w_now w)
    (w_tick w) (w_poller w) (w_reader w) (w_posted w) (w_granted w).
(** [tokio::spawn]. *)
Definition spawn (x : option Task) (w : World) : World :=
  match x with
  | Some x => MkWorld (w_sessions w) (w_cells w) (<[w_next w := x]> (w_tasks w)) (S (w_next w)) (w_now w)
      (w_tick w) (w_poller w) (w_reader w) (w_posted w) (w_granted w)
  | None => w
  end.
Definition set_poller (p : PollerPc) (w : World) : World :=
  MkWorld (w_sessions w) (w_cells w) (w_tasks w) (w_next w) (w_now w) (w_tick w) p (w_reader w)
    (w_posted w) (w_granted w).
Definition set_reader (r : ReaderPc) (w : World) : World :=
  MkWorld (w_sessions w) (w_cells w) (w_tasks w) (w_next w) (w_now w) (w_tick w) (w_poller w) r
    (w_posted w) (w_granted w).
(** A request that reached the manager, or did not. *)
Definition request (arrived : bool) (e : Envelope) (w : World) : World :=
  MkWorld (w_sessions w) (w_cells w) (w_tasks w) (w_next w) (w_now w) (w_tick w) (w_poller w)
    (w_reader w) (if arrived then w_posted w ++ [e] else w_posted w) (w_granted w).

(** * The poller: [poller.rs] *)

Definition create_request (now : Z) (name : PluginName) (st : State) : State * option Task :=
  match st with
  | SEmpty wait => if wait <=? now then (convert_to_pending st, Some (TRequest name)) else (st, None)
  | _ => (st, None)
  end.

(** [t] is the task that it spawns, if it does. *)
Definition handle_state (now : Z) (name : PluginName) (t : nat) (st : State) : State * option Task :=
  match st with
  | SActive a =>
      if (a_instant a <=? now) && bool_decide (a_in_flight a = None) then
        (SActive {| a_session := a_session a; a_in_flight := Some t; a_instant := a_instant a |},
         Some (TSession (KPoll now) (a_session a) Running))
      else if (a_instant a + deadline (se_name (a_session a)) <=? now)
              && negb (bool_decide (a_in_flight a = None)) then
        (st, Some (TReset name))
      else (st, None)
  | _ => (st, None)
  end.

(** One turn of a loop of the poller, on plugin [name]. *)
Definition poller_visit (f : State -> State * option Task) (name : PluginName) (w : World) : option World :=
  st ← w_sessions w !! name;
  let '(st', x) := f st in
  Some (spawn x (set_sessions (insert name st') w)).

Definition tick (w : World) : option World :=
  match w_poller w with
  | PIdle =>
      if w_tick w <=? w_now w then
        Some (MkWorld (w_sessions w) (w_cells w) (w_tasks w) (w_next w) (w_now w) (w_tick w + SEC)
          (PEmpty (w_tick w) (dom (w_sessions w))) (w_reader w) (w_posted w) (w_granted w))
      else None
  | _ => None
  end.

Definition poller_turn (name : PluginName) (w : World) : option World :=
  match w_poller w with
  | PIdle => None
  | PEmpty now todo =>
      if bool_decide (name ∈ todo) then
        w' ← poller_visit (create_request now name) name w;
        let todo := todo ∖ {[name]} in
        Some (set_poller (if bool_decide (todo = ∅) then PHandle now (dom (w_sessions w))
                          else PEmpty now todo) w')
      else None
  | PHandle now todo =>
      if bool_decide (name ∈ todo) then
        w' ← poller_visit (handle_state now name (w_next w)) name w;
        let todo := todo ∖ {[name]} in
        Some (set_poller (if bool_decide (todo = ∅) then PIdle else PHandle now todo) w')
      else None
  end.

(** * The reader: [reader.rs] *)

(** What a fetch gives: messages, a [reqwest] error, or another one. *)
Inductive FetchResult : Type :=
| Delivered (msgs : list (ManagerMessage value))
| Unreachable
| Garbled.

Definition fetch (r : FetchResult) (w : World) : option World :=
  match w_reader w with
  | RIdle =>
      Some (set_reader
        match r with
        | Delivered msgs => RDelivery msgs
        | Unreachable => RTearAll (dom (w_sessions w)) None
        | Garbled => RDead
        end w)
  | _ => None
  end.

(** A [SessionCreateResponse]: [None] when [get_plugin] or [insert_session] fails. *)
Definition session_created (plugin : PluginName) (session_id : Id) (w : World) : option World :=
  _ ← get_plugin plugin;
  let s := {| se_name := plugin; se_id := session_id; se_cell := w_next w |} in
  ss ← insert_session (w_now w) plugin s (w_next w) (w_sessions w);
  Some (MkWorld ss (<[w_next w := Shared_new]> (w_cells w))
    (<[w_next w := TSession (KStart (w_now w)) s Running]> (w_tasks w)) (S (w_next w)) (w_now w)
    (w_tick w) (w_poller w) (w_reader w) (w_posted w) (w_granted w ++ [(plugin, session_id)])).

Definition get_delivery (x : ManagerMessage value) (xs : list (ManagerMessage value)) (w : World) : World :=
  match x with
  | MmSessionCreateResponse _ plugin session_id =>
      match session_created plugin session_id w with
      | Some w' => set_reader (RDelivery xs) w'
      | None => set_reader RDead w
      end
  | MmData _ plugin _ body => set_reader (RDelivery xs) (spawn (Some (TMessage plugin body)) w)
  | MmSessionTerminate _ plugin session_id =>
      set_reader (if terminate_check plugin session_id (w_sessions w) then RTear plugin xs
                  else RDelivery xs) w
  | MmSessionTerminateAll _ => set_reader (RTearAll (dom (w_sessions w)) (Some xs)) w
  end.

Definition reader_turn (w : World) : option World :=
  match w_reader w with
  | RDelivery [] => Some (set_reader RIdle w)
  | RDelivery (x :: xs) => Some (get_delivery x xs w)
  | RTear name xs => Some (set_reader (RDelivery xs) (set_sessions (at_plugin (teardown (w_now w)) name) w))
  | RTearAll todo msgs =>
      if bool_decide (todo = ∅) then
        Some (set_reader match msgs with Some xs => RDelivery xs | None => RDelay (w_now w + 5 * SEC) end w)
      else None
  | RDelay until => if until <=? w_now w then Some (set_reader RIdle w) else None
  | RIdle | RDead => None
  end.

(** One of the teardowns of [terminate_all_sessions]. *)
Definition reader_tear (name : PluginName) (w : World) : option World :=
  match w_reader w with
  | RTearAll todo msgs =>
      if bool_decide (name ∈ todo) then
        Some (set_reader (RTearAll (todo ∖ {[name]}) msgs)
               (set_sessions (at_plugin (teardown (w_now w)) name) w))
      else None
  | _ => None
  end.

(** * The tasks *)

(** What a task is given: nothing, the end of its channel, what the plugin returns,
    and whether a request arrived and was answered. *)
Inductive Outcome : Type :=
| ONone
| OCancelled
| OPlugin (r : Result unit (option value))
| OHttp (arrived ok : bool).

(** The receiver of a task's channel is dropped when no state holds it. *)
Definition cancelled (t : nat) (ss : Sessions) : Prop := map_Forall (fun _ st => in_flight st <> Some t) ss.
#[global] Instance cancelled_dec t ss : Decision (cancelled t ss) := map_Forall_dec _ ss.

(** The plugin of a session returned: in [start], in [poll], in [message]. *)
Definition plugin_returned (t : nat) (k : Kind) (s : Session) (r : Result unit (option value)) (w : World) :
    option World :=
  sh ← w_cells w !! se_cell s;
  match k, r with
  | KMessage, Ok (Some x) =>
      Some (set_task t (Some (TSession k s (Counted x))) (set_cell (se_cell s) fetch_add w))
  | KMessage, Err _ => Some (set_task t None (set_cell (se_cell s) fetch_add w))
  | KMessage, Ok None => None
  | _, Err _ => Some (set_task t (Some (TSession k s (Ended false))) w)
  | _, Ok None => Some (set_task t (Some (TSession k s (Ended true))) w)
  | KStart _, Ok (Some x) =>
      Some (set_task t (Some (TSession k s (Counted x))) (set_cell (se_cell s) fetch_add w))
  | KPoll _, Ok (Some x) =>
      if sh_locked sh then None
      else match poll_output x sh with
           | None => Some (set_task t (Some (TSession k s (Ended true))) w)
           | Some sh' => Some (set_task t (Some (TSession k s (Counted x))) (set_cell (se_cell s) (fun _ => sh') w))
           end
  end.

(** The counter is read; a poll lets go of the lock. *)
Definition read_counter (t : nat) (k : Kind) (s : Session) (x : value) (w : World) : option World :=
  sh ← w_cells w !! se_cell s;
  Some (set_task t (Some (TSession k s (Numbered (sh_info sh) x)))
         (if is_poll k then set_cell (se_cell s) unlock w else w)).

(** What follows a start or a poll. *)
Definition task_end (t : nat) (k : Kind) (s : Session) (ok : bool) (w : World) : World :=
  if ok then
    set_task t None
      (if is_poll k then set_sessions (at_plugin (reset_active (w_now w)) (se_name s)) w else w)
  else
    set_task t (if terminate_check (se_name s) (se_id s) (w_sessions w) then Some (TSession k s Checked)
                else None) w.

Definition session_turn (ac : AgentClient) (t : nat) (k : Kind) (s : Session) (pc : Pc) (o : Outcome)
    (w : World) : option World :=
  match pc, o with
  | Running, OCancelled =>
      if negb (is_message k) && bool_decide (cancelled t (w_sessions w)) then
        Some (set_task t (Some (TSession k s (Ended true))) w)
      else None
  | Running, OPlugin r => plugin_returned t k s r w
  | Counted x, ONone => read_counter t k s x w
  | Numbered seq x, OHttp arrived ok =>
      if implb ok arrived then
        Some (set_task t (if is_message k then None else Some (TSession k s (Ended ok)))
               (request arrived (send_data ac (se_id s) (se_name s) seq x) w))
      else None
  | Ended ok, ONone => Some (task_end t k s ok w)
  | Checked, ONone => Some (set_task t None (set_sessions (at_plugin (teardown (w_now w)) (se_name s)) w))
  | _, _ => None
  end.

(** [Sessions::message], up to the plugin. *)
Definition message_enter (t : nat) (name : PluginName) (w : World) : World :=
  set_task t
    match w_sessions w !! name with
    | Some (SActive a) => Some (TSession KMessage (a_session a) Running)
    | _ => None
    end w.

Definition task_turn (ac : AgentClient) (t : nat) (o : Outcome) (w : World) : option World :=
  x ← w_tasks w !! t;
  match x, o with
  | TSession k s pc, o => session_turn ac t k s pc o w
  | TMessage name _, ONone => Some (message_enter t name w)
  | TRequest name, OHttp arrived ok =>
      if implb ok arrived then
        let w := set_task t None (request arrived (create_session ac name) w) in
        Some (if ok then w else set_sessions (at_plugin (reset_empty (w_now w)) name) w)
      else None
  | TReset name, ONone =>
      Some (set_task t None (set_sessions (at_plugin (reset_active (w_now w)) name) w))
  | _, _ => None
  end.

(** * All of it *)

Inductive Label : Type :=
| LTime (d : Z)
| LTick
| LPoller (name : PluginName)
| LFetch (r : FetchResult)
| LReader
| LTear (name : PluginName)
| LTask (t : nat) (o : Outcome).

Definition pass_time (d : Z) (w : World) : option World :=
  if 0 <=? d then
    Some (MkWorld (w_sessions w) (w_cells w) (w_tasks w) (w_next w) (w_now w + d) (w_tick w) (w_poller w)
      (w_reader w) (w_posted w) (w_granted w))
  else None.

Definition agent_turn (ac : AgentClient) (l : Label) (w : World) : option World :=
  match l with
  | LTime d => pass_time d w
  | LTick => tick w
  | LPoller name => poller_turn name w
  | LFetch r => fetch r w
  | LReader => reader_turn w
  | LTear name => reader_tear name w
  | LTask t o => task_turn ac t o w
  end.

Fixpoint agent_run (ac : AgentClient) (ls : list Label) (w : World) : option World :=
  match ls with
  | [] => Some w
  | l :: ls => w' ← agent_turn ac l w; agent_run ac ls w'
  end.

End AgentSession.
