(* ===== verification/AgentSpec.v ===== *)
(** What the agent's session handling promises, in every interleaving of its tasks:
    what it posts, which futures of a plugin are live, when a poll is given up, and
    where a session start is lost. *)
From S2P Require Import Prelude RustStd WireTypes AgentSession.
From stdpp Require Import base gmap sets list strings.
From Stdlib Require Import ZArith.

Open Scope Z_scope.

(** * Backoff *)

(** ** The backoff is bounded *)
(** The backoff of any [u64] number of seconds below 2^63 is at least four
    seconds and at most a minute, it is a minute from half a minute on, and below
    that it doubles whole seconds (the least is five seconds). *)
Theorem backoff_schedule_bounds d (Hd : 0 <= d < 2 ^ 63 * SEC) :
  4 * SEC <= backoff_schedule d <= 60 * SEC /\
  (30 * SEC <= d -> backoff_schedule d = 60 * SEC) /\
  (2 * SEC <= d < 30 * SEC -> backoff_schedule d = 2 * (d / SEC) * SEC).
Proof.
  assert (0 <= d / SEC < 2 ^ 63) as Hr.
  { split; [apply Z.div_pos|apply Z.div_lt_upper_bound]; unfold SEC in *; lia. }
  assert (forall k, k * SEC <= d -> k <= d / SEC) as Hge.
  { intros k Hk. apply Z.div_le_lower_bound; unfold SEC in *; lia. }
  assert (d < 30 * SEC -> d / SEC < 30) as Hlt.
  { intros Hk. apply Z.div_lt_upper_bound; unfold SEC in *; lia. }
  unfold backoff_schedule, u64_mul, WAIT_TIME. generalize dependent (d / SEC). intros r Hr Hge Hlt.
  rewrite Z.mod_small by lia.
  destruct (Z.leb_spec r 1) as [H|H].
  - split; [unfold SEC; lia|]. split; intros Hx.
    + specialize (Hge 30 Hx). lia.
    + specialize (Hge 2 (proj1 Hx)). lia.
  - split; [unfold SEC; lia|]. split; intros Hx.
    + specialize (Hge 30 Hx). rewrite Z.min_r; lia.
    + specialize (Hlt (proj2 Hx)). rewrite Z.min_l; lia.
Qed.

Section AgentSpec.
Context {J : Json} (ac : AgentClient).
Implicit Types (w : World) (st : State) (ss : gmap string State).

Definition agent_step w w' : Prop := exists l, agent_turn ac l w = Some w'.

Lemma agent_run_steps ls w w' : agent_run ac ls w = Some w' -> rtc agent_step w w'.
Proof.
  revert w. induction ls as [|l ls IH]; simpl; intros w.
  - by intros [= ->].
  - intros (w1 & H1 & H2)%bind_Some. eapply rtc_l; [by exists l|auto].
Qed.

(** * Sessions and tasks *)

(** A task's instants: a poll began in the second that follows the instant, a start
    that long before it. *)
Definition on_time (k : Kind) (instant : Z) : Prop :=
  match k with
  | KStart born => instant = born + WAIT_TIME
  | KPoll tick => instant <= tick < instant + SEC
  | KMessage => False
  end.

Definition granted w (s : Session) : Prop :=
  (se_name s, se_id s) ∈ w_granted w /\ (se_cell s < w_next w)%nat.

Definition posted_ok w (e : Envelope) : Prop :=
  (exists plugin, e = create_session ac plugin) \/
  (exists s seq x, e = send_data ac (se_id s) (se_name s) seq x /\ granted w s).

Record links w : Prop := {
  li_state n a : w_sessions w !! n = Some (SActive a) ->
    se_name (a_session a) = n /\ granted w (a_session a);
  li_task t k s pc : w_tasks w !! t = Some (TSession k s pc) -> granted w s;
  li_posted e : e ∈ w_posted w -> posted_ok w e;
  li_fresh t : is_Some (w_tasks w !! t) -> (t < w_next w)%nat;
  li_flight n st t : w_sessions w !! n = Some st -> in_flight st = Some t -> (t < w_next w)%nat;
  li_link n a t x : w_sessions w !! n = Some (SActive a) -> a_in_flight a = Some t ->
    w_tasks w !! t = Some x ->
    exists k pc, x = TSession k (a_session a) pc /\ on_time k (a_instant a);
}.

(** What [links] depends on. *)
Definition same_base w w' : Prop :=
  w_sessions w' = w_sessions w /\ w_tasks w' = w_tasks w /\ w_next w' = w_next w /\
  w_posted w' = w_posted w /\ w_granted w' = w_granted w.

Lemma links_base w w' : same_base w w' -> links w -> links w'.
Proof.
  intros (H1 & H2 & H3 & H4 & H5) [Hs Ht Hp Hf Hl Hk].
  assert (forall s, granted w s -> granted w' s) as Hg by (intros s; unfold granted; by rewrite H3, H5).
  split; rewrite ?H1, ?H2, ?H3, ?H4.
  - intros n a Hn. destruct (Hs n a Hn). auto.
  - eauto.
  - intros e He. destruct (Hp e He) as [?|(s & q & x & ? & ?)]; [by left|right; naive_solver].
  - done.
  - done.
  - done.
Qed.

(** Changes of state that open no session and put nothing in flight. *)
Definition calms (f : State -> State) : Prop :=
  forall st a', f st = SActive a' ->
    a_in_flight a' = None /\ exists a, st = SActive a /\ a_session a = a_session a'.

Lemma links_calm f n w : calms f -> links w -> links (set_sessions (at_plugin f n) w).
Proof.
  intros Hf Hw. unfold at_plugin. destruct (w_sessions w !! n) as [st0|] eqn:Hn0.
  2:{ apply (links_base w); [|done]. unfold same_base. simpl. by rewrite Hn0. }
  destruct Hw as [Hs Ht Hp Hfr Hl Hk]. split; simpl; try done.
  - intros m a. destruct (decide (m = n)) as [->|Hne].
    + rewrite Hn0, lookup_insert_eq. intros [= (_ & b & -> & Hb)%Hf]. rewrite <-Hb. by apply Hs.
    + rewrite Hn0, lookup_insert_ne by done. apply Hs.
  - intros m st t. destruct (decide (m = n)) as [->|Hne].
    + rewrite Hn0, lookup_insert_eq. intros [= <-]. destruct (f st0) as [a| |] eqn:E; try done.
      apply Hf in E as [E _]. simpl. by rewrite E.
    + rewrite Hn0, lookup_insert_ne by done. apply Hl.
  - intros m a t x. destruct (decide (m = n)) as [->|Hne].
    + rewrite Hn0, lookup_insert_eq. intros [= (E & _)%Hf]. by rewrite E.
    + rewrite Hn0, lookup_insert_ne by done. apply Hk.
Qed.

Lemma calms_reset_active now : calms (reset_active now).
Proof. intros [a| |] a'; simpl; try done. intros [= <-]. eauto. Qed.
Lemma calms_teardown now : calms (teardown now).
Proof. by intros st a'. Qed.
Lemma calms_reset_empty now : calms (reset_empty now).
Proof. by intros st a'. Qed.

(** A task that goes on or ends. *)
Definition goes_on w (t : nat) (x : option Task) : Prop :=
  match x with
  | None => True
  | Some x => exists k s pc pc', w_tasks w !! t = Some (TSession k s pc) /\ x = TSession k s pc'
  end.

Lemma links_task t x w : goes_on w t x -> links w -> links (set_task t x w).
Proof.
  intros Hx [Hs Ht Hp Hf Hl Hk]. split; simpl; try done.
  - intros t' k s pc. destruct (decide (t' = t)) as [->|Hne].
    + rewrite lookup_partial_alter_eq. intros ->. destruct Hx as (k' & s' & pc0 & pc' & Hin & [= -> -> ->]). eauto.
    + rewrite lookup_partial_alter_ne by done. eauto.
  - intros t' Hi. destruct (decide (t' = t)) as [->|Hne].
    + rewrite lookup_partial_alter_eq in Hi. destruct Hi as [y ->].
      destruct Hx as (k' & s' & pc & pc' & Hin & _). eauto.
    + rewrite lookup_partial_alter_ne in Hi by done. eauto.
  - intros n a t' y Hn Ha. destruct (decide (t' = t)) as [->|Hne].
    + rewrite lookup_partial_alter_eq. intros ->. destruct Hx as (k' & s' & pc & pc' & Hin & ->).
      destruct (Hk n a t _ Hn Ha Hin) as (k & pc1 & [= -> -> ->] & Ho). eauto.
    + rewrite lookup_partial_alter_ne by done. eauto.
Qed.

Lemma links_spawn x w : (forall k s pc, x <> TSession k s pc) -> links w -> links (spawn (Some x) w).
Proof.
  intros Hx [Hs Ht Hp Hf Hl Hk].
  assert (forall s, granted w s -> granted (spawn (Some x) w) s) as Hg by (intros s []; split; simpl; [done|lia]).
  split; simpl.
  - intros n a Hn. destruct (Hs n a Hn). auto.
  - intros t k s pc. destruct (decide (t = w_next w)) as [->|Hne].
    + rewrite lookup_insert_eq. intros [= ->]. by destruct (Hx k s pc).
    + rewrite lookup_insert_ne by done. eauto.
  - intros e He. destruct (Hp e He) as [?|(s & q & y & ? & ?)]; [by left|right; naive_solver].
  - intros t. destruct (decide (t = w_next w)) as [->|Hne]; [lia|].
    rewrite lookup_insert_ne by done. intros ?%Hf. lia.
  - intros n st t Hn Hi%(Hl n); [lia|done].
  - intros n a t y Hn Ha. assert (t < w_next w)%nat by (by eapply (Hl n (SActive a))).
    rewrite lookup_insert_ne by lia. eauto.
Qed.

Lemma links_request arrived e w : posted_ok w e -> links w -> links (request arrived e w).
Proof.
  intros He [Hs Ht Hp Hf Hl Hk]. split; simpl; try done.
  intros e'. destruct arrived; [|apply Hp]. by intros [?%Hp| ->%list_elem_of_singleton]%elem_of_app.
Qed.

Lemma links_cell c f w : links w -> links (set_cell c f w).
Proof. by apply links_base. Qed.

(** ** Turns *)

(** The first loop of the poller: it only opens what is empty. *)
Lemma links_create_request now n w w' :
  poller_visit (create_request now n) n w = Some w' -> links w -> links w'.
Proof.
  unfold poller_visit. intros (st & Hn & Hv)%bind_Some Hw.
  assert (links (set_sessions (insert n st) w)) as Hsame.
  { apply (links_base w); [|done]. unfold same_base. simpl. by rewrite insert_id. }
  destruct st as [a| |wait]; simpl in Hv; try (by injection Hv as <-).
  destruct (wait <=? now); injection Hv as <-; [|done].
  change (links (spawn (Some (TRequest n)) (set_sessions (insert n SPending) w))).
  apply links_spawn; [done|].
  apply (links_base (set_sessions (at_plugin (fun _ => SPending) n) w)).
  - unfold same_base, at_plugin. simpl. by rewrite Hn.
  - by apply links_calm.
Qed.

(** The second loop: a poll starts in its second, or the state is left alone. *)
Lemma links_handle_state now n w w' :
  (forall a, w_sessions w !! n = Some (SActive a) -> a_in_flight a = None -> now < a_instant a + SEC) ->
  poller_visit (handle_state now n (w_next w)) n w = Some w' -> links w -> links w'.
Proof.
  unfold poller_visit. intros Htime (st & Hn & Hv)%bind_Some Hw.
  assert (links (set_sessions (insert n st) w)) as Hsame.
  { apply (links_base w); [|done]. unfold same_base. simpl. by rewrite insert_id. }
  destruct st as [a| |wait]; simpl in Hv; try (by injection Hv as <-).
  destruct (_ && _) eqn:E1 in Hv.
  2:{ destruct (_ && _) in Hv; injection Hv as <-; [|done].
      change (links (spawn (Some (TReset n)) (set_sessions (insert n (SActive a)) w))). by apply links_spawn. }
  injection Hv as <-.
  reflect. destruct Hw as [Hs Ht Hp Hf Hl Hk].
  destruct (Hs n a Hn) as [Hna [Hga Hca]].
  assert (forall s, granted w s -> (se_name s, se_id s) ∈ w_granted w /\ (se_cell s < S (w_next w))%nat) as Hg.
  { intros s []. split; [done|lia]. }
  split; simpl.
  - intros m b. destruct (decide (m = n)) as [->|Hne].
    + rewrite lookup_insert_eq. intros [= <-]. split; [done|]. by apply Hg.
    + rewrite lookup_insert_ne by done. intros [? ?]%Hs. split; [done|]. by apply Hg.
  - intros t k s pc. destruct (decide (t = w_next w)) as [->|Hne].
    + rewrite lookup_insert_eq. intros [= <- <- <-]. by apply Hg.
    + rewrite lookup_insert_ne by done. intros ?%Ht. by apply Hg.
  - intros e He. destruct (Hp e He) as [?|(s & q & y & ? & ?%Hg)]; [by left|right]. by exists s, q, y.
  - intros t. destruct (decide (t = w_next w)) as [->|Hne]; [lia|].
    rewrite lookup_insert_ne by done. intros ?%Hf. lia.
  - intros m st t. destruct (decide (m = n)) as [->|Hne].
    + rewrite lookup_insert_eq. intros [= <-] [= <-]. lia.
    + rewrite lookup_insert_ne by done. intros Hm Hi%(Hl m); [lia|done].
  - intros m b t x. destruct (decide (m = n)) as [->|Hne].
    + rewrite lookup_insert_eq. intros [= <-] [= <-]. rewrite lookup_insert_eq. intros [= <-].
      eexists _, _. split; [done|]. simpl. split; [done|]. by apply Htime.
    + rewrite lookup_insert_ne by done. intros Hm Hb.
      assert (t < w_next w)%nat by (by eapply (Hl m (SActive b))).
      rewrite lookup_insert_ne by lia. eauto.
Qed.

Lemma links_session_created plugin id w w' :
  session_created plugin id w = Some w' -> links w -> links w'.
Proof.
  unfold session_created, insert_session. intros (n & _ & Hc)%bind_Some [Hs Ht Hp Hf Hl Hk].
  destruct (w_sessions w !! plugin) as [st0|] eqn:Hn; [|done]. injection Hc as <-.
  set (s0 := MkSession plugin id (w_next w)).
  assert (forall s, granted w s -> (se_name s, se_id s) ∈ w_granted w ++ [(plugin, id)] /\
                                  (se_cell s < S (w_next w))%nat) as Hg.
  { intros s [? ?]. split; [apply elem_of_app; by left|lia]. }
  assert ((se_name s0, se_id s0) ∈ w_granted w ++ [(plugin, id)] /\ (se_cell s0 < S (w_next w))%nat) as Hg0.
  { split; [apply elem_of_app; right; left|simpl; lia]. }
  split; simpl.
  - intros m b. destruct (decide (m = plugin)) as [->|Hne].
    + rewrite lookup_insert_eq. intros [= <-]. by split.
    + rewrite lookup_insert_ne by done. intros [? ?]%Hs. split; [done|]. by apply Hg.
  - intros t k s pc. destruct (decide (t = w_next w)) as [->|Hne].
    + rewrite lookup_insert_eq. intros [= <- <- <-]. done.
    + rewrite lookup_insert_ne by done. intros ?%Ht. by apply Hg.
  - intros e He. destruct (Hp e He) as [?|(s & q & y & ? & ?%Hg)]; [by left|right]. by exists s, q, y.
  - intros t. destruct (decide (t = w_next w)) as [->|Hne]; [lia|].
    rewrite lookup_insert_ne by done. intros ?%Hf. lia.
  - intros m st t. destruct (decide (m = plugin)) as [->|Hne].
    + rewrite lookup_insert_eq. intros [= <-] [= <-]. lia.
    + rewrite lookup_insert_ne by done. intros Hm Hi%(Hl m); [lia|done].
  - intros m b t x. destruct (decide (m = plugin)) as [->|Hne].
    + rewrite lookup_insert_eq. intros [= <-] [= <-]. rewrite lookup_insert_eq. intros [= <-]. by eexists _, _.
    + rewrite lookup_insert_ne by done. intros Hm Hb.
      assert (t < w_next w)%nat by (by eapply (Hl m (SActive b))).
      rewrite lookup_insert_ne by lia. eauto.
Qed.

(** A message finds its session: its task was in nobody's flight. *)
Lemma links_message_enter t name body w :
  w_tasks w !! t = Some (TMessage name body) -> links w -> links (message_enter t name w).
Proof.
  intros Ht0 Hw. unfold message_enter. destruct (w_sessions w !! name) as [[a| |]|] eqn:Hn;
    try (by apply links_task).
  destruct Hw as [Hs Ht Hp Hf Hl Hk]. split; simpl; try done.
  - intros t' k s pc. destruct (decide (t' = t)) as [->|Hne].
    + rewrite lookup_partial_alter_eq. intros [= <- <- <-]. by apply (Hs name).
    + rewrite lookup_partial_alter_ne by done. eauto.
  - intros t' Hi. destruct (decide (t' = t)) as [->|Hne]; [by apply Hf; eauto|].
    rewrite lookup_partial_alter_ne in Hi by done. eauto.
  - intros n b t' x Hb Hfl. destruct (decide (t' = t)) as [->|Hne].
    + destruct (Hk n b t _ Hb Hfl Ht0) as (k & pc & ? & _). done.
    + rewrite lookup_partial_alter_ne by done. eauto.
Qed.

(** * Time *)

(** The last tick in which the poller has handled the state of a plugin. *)
Definition handled w (n : string) : Z :=
  match w_poller w with
  | PIdle => w_tick w - SEC
  | PEmpty now _ => now - SEC
  | PHandle now todo => if bool_decide (n ∈ todo) then now - SEC else now
  end.

(** A session with nothing in flight is not due before the next tick. *)
Record ticks w : Prop := {
  tk_now : w_tick w - SEC <= w_now w;
  tk_poller : match w_poller w with
              | PIdle => True
              | PEmpty now _ | PHandle now _ => now = w_tick w - SEC
              end;
  tk_calm n a : w_sessions w !! n = Some (SActive a) -> a_in_flight a = None ->
    handled w n < a_instant a;
}.

Lemma handled_le w n : ticks w -> handled w n <= w_now w.
Proof.
  intros [Hn Hp _]. unfold handled. assert (0 < SEC) by done.
  destruct (w_poller w) as [|now todo|now todo]; [lia..|]. case_bool_decide; lia.
Qed.

Definition same_clock w w' : Prop :=
  w_sessions w' = w_sessions w /\ w_now w' = w_now w /\ w_tick w' = w_tick w /\ w_poller w' = w_poller w.

Lemma ticks_clock w w' : same_clock w w' -> ticks w -> ticks w'.
Proof.
  intros (H1 & H2 & H3 & H4) [Hn Hp Hc]. split; unfold handled; rewrite ?H1, ?H3, ?H4; try done. lia.
Qed.

(** Changes of state after which nothing in flight means a wait from now on. *)
Definition rests (now : Z) (f : State -> State) : Prop :=
  forall st a', f st = SActive a' -> a_in_flight a' = None -> now < a_instant a'.

Lemma ticks_rest f n w : rests (w_now w) f -> ticks w -> ticks (set_sessions (at_plugin f n) w).
Proof.
  intros Hf Hw. pose proof (handled_le w n Hw) as Hle. destruct Hw as [Hn Hp Hc]. split; simpl; try done.
  intros m a. unfold at_plugin. destruct (w_sessions w !! n) as [st|] eqn:Hst; [|apply Hc].
  destruct (decide (m = n)) as [->|Hne].
  - rewrite lookup_insert_eq. intros [= H] Ha. change (handled w n < a_instant a). specialize (Hf st a H Ha). lia.
  - rewrite lookup_insert_ne by done. apply Hc.
Qed.

Lemma rests_reset_active now : rests now (reset_active now).
Proof. intros [a| |] a'; simpl; try done. intros [= <-] _. simpl. unfold WAIT_TIME, SEC. lia. Qed.
Lemma rests_teardown now now' : rests now (teardown now').
Proof. by intros st a'. Qed.
Lemma rests_reset_empty now now' : rests now (reset_empty now').
Proof. by intros st a'. Qed.

(** * Both, in every turn *)

Record agent_ok w : Prop := { ok_links : links w; ok_ticks : ticks w }.

Lemma agent_ok_same w w' : same_base w w' -> same_clock w w' -> agent_ok w -> agent_ok w'.
Proof. intros ? ? [? ?]. split; [by eapply links_base|by apply (ticks_clock w)]. Qed.

Lemma agent_ok_change f n w : calms f -> rests (w_now w) f -> agent_ok w ->
  agent_ok (set_sessions (at_plugin f n) w).
Proof. intros ? ? [? ?]. split; [by apply links_calm|by apply ticks_rest]. Qed.

Lemma agent_ok_task t x w : goes_on w t x -> agent_ok w -> agent_ok (set_task t x w).
Proof. intros ? [? ?]. split; [by apply links_task|by apply (ticks_clock w)]. Qed.

Lemma agent_ok_cell c f w : agent_ok w -> agent_ok (set_cell c f w).
Proof. by apply agent_ok_same. Qed.

Lemma agent_ok_request arrived e w : posted_ok w e -> agent_ok w -> agent_ok (request arrived e w).
Proof. intros ? [? ?]. split; [by apply links_request|by apply (ticks_clock w)]. Qed.

Lemma agent_ok_reader r w : agent_ok w -> agent_ok (set_reader r w).
Proof. by apply agent_ok_same. Qed.

Lemma goes_on_end w t : goes_on w t None.
Proof. done. Qed.

Hint Resolve goes_on_end calms_reset_active calms_teardown calms_reset_empty rests_reset_active rests_teardown
  rests_reset_empty agent_ok_change agent_ok_task agent_ok_cell agent_ok_request agent_ok_reader : iml.

Lemma agent_ok_session t k s pc o w w' :
  w_tasks w !! t = Some (TSession k s pc) -> session_turn ac t k s pc o w = Some w' ->
  agent_ok w -> agent_ok w'.
Proof.
  intros Ht Hs Hw.
  assert (forall x v, w_tasks v = w_tasks w -> match x with Some (TSession k' s' _) => k' = k /\ s' = s | None => True | _ => False end ->
    goes_on v t x) as Hgo.
  { intros [[k' s' pc'| | |]|] v Hv; simpl; try done. intros [-> ->]. rewrite Hv. eauto 6. }
  assert (granted w s) as Hg by (by eapply li_task, Ht; apply Hw).
  destruct pc as [|x|seq x|r|], o as [| |r'|arrived okk]; simpl in Hs; try done.
  - destruct (_ && _) in Hs; [|done]. injection Hs as <-. apply agent_ok_task; [by apply Hgo|done].
  - unfold plugin_returned in Hs. apply bind_Some in Hs as (sh & _ & Hs).
    destruct k, r' as [[x|]|]; simpl in Hs; try done; try (destruct (sh_locked sh); [done|]; destruct (poll_output x sh));
      injection Hs as <-; apply agent_ok_task; auto with iml; by apply Hgo.
  - unfold read_counter in Hs. apply bind_Some in Hs as (sh & _ & [= <-]).
    apply agent_ok_task; [by destruct (is_poll k); apply Hgo|]. destruct (is_poll k); auto with iml.
  - destruct (implb okk arrived); [|done]. injection Hs as <-.
    apply agent_ok_task; [by destruct (is_message k); apply Hgo|].
    apply agent_ok_request; [|done]. right. by exists s, seq, x.
  - injection Hs as <-. unfold task_end. destruct r.
    + destruct (is_poll k); auto with iml.
    + destruct (terminate_check _ _ _); auto with iml.
  - injection Hs as <-. auto with iml.
Qed.

Lemma agent_ok_task_turn t o w w' : task_turn ac t o w = Some w' -> agent_ok w -> agent_ok w'.
Proof.
  unfold task_turn. intros (x & Hx & Ht)%bind_Some Hw. destruct x as [k s pc|name body|name|name].
  - by eapply agent_ok_session.
  - destruct o; try done. injection Ht as <-. split; [by eapply links_message_enter, Hw|].
    by apply (ticks_clock w), Hw.
  - destruct o as [| | |arrived okk]; try done. destruct (implb okk arrived); [|done]. injection Ht as <-.
    assert (posted_ok w (create_session ac name)) as Hp by (left; eauto). destruct okk; auto with iml.
  - destruct o; try done. injection Ht as <-. auto with iml.
Qed.

Lemma poller_visit_Some f n w w' : poller_visit f n w = Some w' ->
  exists st, w_sessions w !! n = Some st /\ w_sessions w' = <[n := (f st).1]> (w_sessions w) /\
    w_now w' = w_now w /\ w_tick w' = w_tick w.
Proof.
  unfold poller_visit. intros (st & Hn & Hv)%bind_Some. exists st. split; [done|].
  destruct (f st) as [st' [x|]]; injection Hv as <-; done.
Qed.

Lemma create_request_active now n st a : (create_request now n st).1 = SActive a -> st = SActive a.
Proof. destruct st as [b| |wait]; simpl; try done. by destruct (wait <=? now). Qed.

Lemma handle_state_active now n t st a : (handle_state now n t st).1 = SActive a -> a_in_flight a = None ->
  st = SActive a /\ now < a_instant a.
Proof.
  destruct st as [b| |wait]; simpl; try done. destruct (a_instant b <=? now) eqn:E; simpl.
  - destruct (bool_decide (a_in_flight b = None)) eqn:Hb; simpl; [by intros [= <-]|].
    destruct (_ && _); intros [= ->] Ha; by reflect.
  - intros Hs Ha. assert (SActive b = SActive a) as [= ->] by (by destruct (_ && _) in Hs). reflect. auto.
Qed.

Lemma agent_ok_poller n w w' : poller_turn n w = Some w' -> agent_ok w -> agent_ok w'.
Proof.
  unfold poller_turn. intros Hp [Hl Ht]. destruct (w_poller w) as [|now todo|now todo] eqn:Hpc; [done| |].
  - destruct (bool_decide (n ∈ todo)); [|done]. apply bind_Some in Hp as (w1 & Hv & [= <-]). split.
    { eapply links_base; [|by eapply links_create_request]. done. }
    destruct (poller_visit_Some _ _ _ _ Hv) as (st & Hst & Hs & Hnow & Htk).
    destruct Ht as [H1 H2 H3]. rewrite Hpc in H2. split; simpl; rewrite ?Htk, ?Hnow; [done|by case_bool_decide|].
    intros m a Hm Ha. assert (w_sessions w !! m = Some (SActive a)) as Hw.
    { rewrite Hs in Hm. destruct (decide (m = n)) as [->|]; [|by rewrite lookup_insert_ne in Hm].
      rewrite lookup_insert_eq in Hm. injection Hm as Hm%create_request_active. by rewrite Hst, Hm. }
    specialize (H3 m a Hw Ha). unfold handled in *. rewrite Hpc in H3. simpl. case_bool_decide; [|done].
    rewrite bool_decide_eq_true_2; [done|]. by eapply elem_of_dom_2.
  - destruct (bool_decide (n ∈ todo)) eqn:Hn; [|done]. apply bind_Some in Hp as (w1 & Hv & [= <-]).
    destruct (poller_visit_Some _ _ _ _ Hv) as (st & Hst & Hs & Hnow & Htk).
    destruct Ht as [H1 H2 H3]. rewrite Hpc in H2. split.
    { eapply (links_base w1); [done|]. eapply links_handle_state; [|done|done].
      intros a Hx Ha. specialize (H3 n a Hx Ha). unfold handled in H3. rewrite Hpc, Hn in H3. lia. }
    split; simpl; rewrite ?Htk, ?Hnow; [done|by destruct (bool_decide (todo ∖ {[n]} = ∅))|].
    intros m a Hm Ha. unfold handled in *. rewrite Hpc in H3. simpl. rewrite ?Htk.
    assert (w_sessions w !! m = Some (SActive a) /\ (m = n -> now < a_instant a)) as [Hw Hlt].
    { rewrite Hs in Hm. destruct (decide (m = n)) as [->|]; [|by rewrite lookup_insert_ne in Hm].
      rewrite lookup_insert_eq in Hm. injection Hm as Hm. apply handle_state_active in Hm as [-> ?]; [|done].
      by rewrite Hst. }
    specialize (H3 m a Hw Ha). destruct (decide (m = n)) as [->|Hne].
    + specialize (Hlt eq_refl). destruct (bool_decide (todo ∖ {[n]} = ∅)); [lia|].
      rewrite bool_decide_eq_false_2; [lia|set_solver].
    + destruct (bool_decide (todo ∖ {[n]} = ∅)) eqn:Hemp; reflect.
      * rewrite bool_decide_eq_false_2 in H3; [lia|set_solver].
      * erewrite bool_decide_ext; [exact H3|]. set_solver.
Qed.

Lemma agent_ok_reader_turn w w' : reader_turn w = Some w' -> agent_ok w -> agent_ok w'.
Proof.
  unfold reader_turn. intros Hr Hw. destruct (w_reader w) as [|[|x xs]|name xs|todo msgs|until|]; try done.
  - injection Hr as <-. auto with iml.
  - injection Hr as <-. destruct x as [f p i|f p i b|f p i|f]; simpl; auto with iml.
    + destruct (session_created p i w) as [w'|] eqn:Hc; auto with iml.
      apply agent_ok_reader. pose proof (links_session_created p i w w' Hc (ok_links w Hw)) as Hl.
      split; [done|]. unfold session_created, insert_session in Hc. apply bind_Some in Hc as (n & _ & Hc).
      destruct (w_sessions w !! p) as [st|] eqn:Hp; [|done]. injection Hc as <-.
      destruct Hw as [_ [H1 H2 H3]]. split; simpl; try done. intros m a.
      destruct (decide (m = p)) as [->|Hne]; [rewrite lookup_insert_eq; by intros [= <-]|].
      rewrite lookup_insert_ne by done. apply H3.
    + apply agent_ok_reader. split; [apply (links_spawn (TMessage p b)); [done|apply Hw]|].
      by apply (ticks_clock w), Hw.
  - injection Hr as <-. auto with iml.
  - destruct (bool_decide (todo = ∅)); [|done]. injection Hr as <-. auto with iml.
  - destruct (until <=? w_now w); [|done]. injection Hr as <-. auto with iml.
Qed.

Lemma agent_ok_step w w' : agent_step w w' -> agent_ok w -> agent_ok w'.
Proof.
  intros [l Hl] Hw. destruct l as [d| |n|r| |n|t o]; simpl in Hl.
  - unfold pass_time in Hl. destruct (0 <=? d) eqn:Hd; [|done]. reflect. injection Hl as <-.
    split; [by apply (links_base w), Hw|]. destruct Hw as [_ [H1 H2 H3]]. split; simpl; try done. lia.
  - unfold tick in Hl. destruct (w_poller w) eqn:Hp; try done. destruct (w_tick w <=? w_now w) eqn:Ht; [|done].
    reflect. injection Hl as <-. split; [by apply (links_base w), Hw|].
    destruct Hw as [_ [H1 H2 H3]]. split; simpl; [lia|lia|]. intros m a Hm Ha. specialize (H3 m a Hm Ha).
    unfold handled in *. rewrite Hp in H3. done.
  - by eapply agent_ok_poller.
  - unfold fetch in Hl. destruct (w_reader w); try done. injection Hl as <-. auto with iml.
  - by eapply agent_ok_reader_turn.
  - unfold reader_tear in Hl. destruct (w_reader w); try done. destruct (bool_decide _); [|done].
    injection Hl as <-. auto with iml.
  - by eapply agent_ok_task_turn.
Qed.

Lemma agent_ok_reachable now0 w : rtc agent_step (World_new now0) w -> agent_ok w.
Proof.
  revert w. apply (rtc_ind_r agent_ok).
  - assert (forall n st, w_sessions (World_new now0) !! n = Some st -> st = SEmpty now0) as Hs.
    { intros n st Hn%elem_of_list_to_map_2. simpl in Hn. set_solver. }
    split; split; try done;
      first [ by intros n a Hn%Hs | by intros e He%elem_of_nil | by intros t [x Hx]
            | by intros n st t ->%Hs | by intros n a t x Hn%Hs | simpl; unfold SEC; lia ].
  - intros w1 w2 _ Hs. by apply agent_ok_step.
Qed.

(** * What the agent promises *)

(** ** What the agent posts *)
(** C32: whatever the interleaving of poller, reader and plugins, every envelope that
    the agent posts has one message, which carries the agent's own name and the
    start time that tells its incarnations apart, and it is either a request for a
    session or data of a session that the manager has granted to that plugin. *)
Theorem agent_posts now0 w (Hw : rtc agent_step (World_new now0) w) e (He : e ∈ w_posted w) :
  en_client_start_time e = ac_start_time ac /\
  exists m, en_messages e = [m] /\
    match m with
    | MsgSessionCreateRequest fqdn _ => fqdn = ac_fqdn ac
    | MsgData fqdn plugin session_id _ _ => fqdn = ac_fqdn ac /\ (plugin, session_id) ∈ w_granted w
    end.
Proof.
  destruct (li_posted _ (ok_links _ (agent_ok_reachable _ _ Hw)) e He)
    as [[p ->]|(s & q & x & -> & Hg & _)]; (split; [done|]); eexists; (split; [done|]); simpl; auto.
Qed.

(** ** Where tasks come from *)

(** What is so when a task of a session is made: a start comes with its session, a
    poll from the poller, for a session that is active and due, with nothing in
    flight. *)
Definition made_in w w' (k : Kind) (s : Session) : Prop :=
  match k with
  | KStart _ => se_cell s = w_next w
  | KPoll tick => exists n todo a, w_poller w = PHandle tick todo /\ poller_turn n w = Some w' /\
      w_sessions w !! n = Some (SActive a) /\ a_session a = s /\ a_in_flight a = None /\ a_instant a <= tick
  | KMessage => True
  end.

(** The tasks of a session after a step are those before it, or one is new. *)
Definition descends w w' : Prop :=
  (w_next w <= w_next w')%nat /\
  forall t k s pc, w_tasks w' !! t = Some (TSession k s pc) ->
    (exists pc0, w_tasks w !! t = Some (TSession k s pc0)) \/ k = KMessage \/ (t = w_next w /\ made_in w w' k s).

Lemma descends_same w w' : w_tasks w' = w_tasks w -> w_next w' = w_next w -> descends w w'.
Proof. intros Ht Hn. split; [lia|]. rewrite Ht. eauto. Qed.

Lemma descends_task t x w w' :
  w_tasks w' = partial_alter (fun _ => x) t (w_tasks w) -> w_next w' = w_next w ->
  (forall k s pc', x = Some (TSession k s pc') -> k = KMessage \/
    exists pc, w_tasks w !! t = Some (TSession k s pc)) ->
  descends w w'.
Proof.
  intros Ht Hn Hx. split; [lia|]. rewrite Ht. intros t' k s pc. destruct (decide (t' = t)) as [->|Hne].
  - rewrite lookup_partial_alter_eq. intros Hq. destruct (Hx _ _ _ Hq); auto.
  - rewrite lookup_partial_alter_ne by done. eauto.
Qed.

Lemma descends_task_turn t o w w' : task_turn ac t o w = Some w' -> descends w w'.
Proof.
  unfold task_turn. intros (x & Hx & Ht)%bind_Some.
  assert (forall y v, w_tasks v = partial_alter (fun _ => y) t (w_tasks w) -> w_next v = w_next w ->
    match y with Some (TSession k s _) => k = KMessage \/ exists pc, x = TSession k s pc | _ => True end ->
    descends w v) as Hgo.
  { intros y v Hv Hn Hy. apply (descends_task t y); [done|done|]. intros k s pc ->. rewrite Hx. naive_solver. }
  destruct x as [k s pc|name body|name|name].
  - destruct pc as [|y|seq y|r|], o as [| |r'|arrived okk]; simpl in Ht; try done.
    + destruct (_ && _) in Ht; [|done]. injection Ht as <-. eapply Hgo; [done..|]. simpl; eauto.
    + unfold plugin_returned in Ht. apply bind_Some in Ht as (sh & _ & Ht).
      destruct k, r' as [[y|]|]; simpl in Ht; try done;
        try (destruct (sh_locked sh); [done|]; destruct (poll_output y sh));
        injection Ht as <-; (eapply Hgo; [done..|]; simpl; eauto).
    + unfold read_counter in Ht. apply bind_Some in Ht as (sh & _ & [= <-]).
      destruct k; simpl; (eapply Hgo; [done..|]; simpl; eauto).
    + destruct (implb okk arrived); [|done]. injection Ht as <-.
      destruct k; simpl; (eapply Hgo; [done..|]; simpl; eauto).
    + injection Ht as <-. unfold task_end. destruct r.
      * destruct k; simpl; (eapply Hgo; [done..|]; simpl; eauto).
      * destruct (terminate_check _ _ _); (eapply Hgo; [done..|]); simpl; eauto.
    + injection Ht as <-. by eapply Hgo.
  - destruct o; try done. injection Ht as <-. unfold message_enter. eapply Hgo; [done..|].
    destruct (w_sessions w !! name) as [[]|]; simpl; auto.
  - destruct o as [| | |arrived okk]; try done. destruct (implb okk arrived); [|done]. injection Ht as <-.
    by destruct okk; eapply Hgo.
  - destruct o; try done. injection Ht as <-. by eapply Hgo.
Qed.

Lemma visit_tasks f n w w1 : poller_visit f n w = Some w1 ->
  (w_next w <= w_next w1)%nat /\
  forall t k s pc, w_tasks w1 !! t = Some (TSession k s pc) ->
    w_tasks w !! t = Some (TSession k s pc) \/
    (t = w_next w /\ exists st, w_sessions w !! n = Some st /\ (f st).2 = Some (TSession k s pc)).
Proof.
  unfold poller_visit. intros (st & Hn & Hv)%bind_Some.
  destruct (f st) as [st' [x|]] eqn:E; injection Hv as <-; simpl; (split; [lia|]); intros t k s pc; [|eauto].
  destruct (decide (t = w_next w)) as [->|Hne]; [|rewrite lookup_insert_ne by done; eauto].
  rewrite lookup_insert_eq. intros [= ->]. right. split; [done|]. exists st. by rewrite E.
Qed.

Lemma descends_poller n w w' : poller_turn n w = Some w' -> descends w w'.
Proof.
  intros Hw'. pose proof Hw' as Hv. unfold poller_turn in Hv.
  destruct (w_poller w) as [|now todo|now todo] eqn:Ep; [done|..];
    (destruct (bool_decide (n ∈ todo)); [|done]); apply bind_Some in Hv as (w1 & Hv & [= E]);
    destruct (visit_tasks _ _ _ _ Hv) as [Hle Ht]; (split; [by subst w'|]);
    intros t k s pc Hk; (destruct (Ht t k s pc) as [?|(-> & st & Hn & Hst)]; [by subst w'|by eauto|]).
  - destruct st as [a| |wait]; simpl in Hst; try done. by destruct (wait <=? now).
  - destruct st as [a| |wait]; simpl in Hst; try done. destruct (_ && _) eqn:E1 in Hst; [|by destruct (_ && _) in Hst].
    injection Hst as <- <- <-. reflect. right; right. split; [done|]. by exists n, todo, a.
Qed.

Lemma descends_step w w' : agent_step w w' -> descends w w'.
Proof.
  intros [l Hl]. destruct l as [d| |n|r| |n|t o]; simpl in Hl.
  - unfold pass_time in Hl. destruct (0 <=? d); [|done]. injection Hl as <-. by apply descends_same.
  - unfold tick in Hl. destruct (w_poller w); try done. destruct (_ <=? _); [|done]. injection Hl as <-.
    by apply descends_same.
  - by eapply descends_poller.
  - unfold fetch in Hl. destruct (w_reader w); try done. injection Hl as <-. by apply descends_same.
  - unfold reader_turn in Hl. destruct (w_reader w) as [|[|x xs]|name xs|todo msgs|until|]; try done.
    + injection Hl as <-. by apply descends_same.
    + injection Hl as <-. destruct x as [f p i|f p i b|f p i|f]; simpl;
        try (by apply descends_same).
      * destruct (session_created p i w) as [w'|] eqn:Hc; [|by apply descends_same].
        unfold session_created in Hc. apply bind_Some in Hc as (_ & _ & Hc).
        apply bind_Some in Hc as (ss & _ & [= <-]). split; simpl; [lia|]. intros t k s pc.
        destruct (decide (t = w_next w)) as [->|Hne]; [|rewrite lookup_insert_ne by done; eauto].
        rewrite lookup_insert_eq. intros [= <- <- <-]. right; right. split; [done|]. done.
      * split; simpl; [lia|]. intros t k s pc. destruct (decide (t = w_next w)) as [->|Hne];
          [by rewrite lookup_insert_eq|rewrite lookup_insert_ne by done; eauto].
    + injection Hl as <-. by apply descends_same.
    + destruct (bool_decide _); [|done]. injection Hl as <-. by apply descends_same.
    + destruct (_ <=? _); [|done]. injection Hl as <-. by apply descends_same.
  - unfold reader_tear in Hl. destruct (w_reader w); try done. destruct (bool_decide _); [|done].
    injection Hl as <-. by apply descends_same.
  - by eapply descends_task_turn.
Qed.

(** A task whose channel is held works for the active session of its plugin. *)
Lemma live_task now0 w t k s pc : rtc agent_step (World_new now0) w ->
  w_tasks w !! t = Some (TSession k s pc) -> ~ cancelled t (w_sessions w) ->
  exists a, w_sessions w !! se_name s = Some (SActive a) /\ a_session a = s /\ a_in_flight a = Some t.
Proof.
  intros Hw Ht Hc. pose proof (ok_links _ (agent_ok_reachable _ _ Hw)) as Hli.
  apply (map_not_Forall _) in Hc as (n & st & Hn & Hc). apply dec_stable in Hc. destruct st as [a| |]; try done. simpl in Hc.
  destruct (li_link _ Hli n a t _ Hn Hc Ht) as (k' & pc' & [= -> -> ->] & _).
  destruct (li_state _ Hli n a Hn) as [<- _]. eauto.
Qed.

(** ** One live future per plugin *)
(** C33: an update is asked of a plugin only when nothing of it is under way: in a step
    that makes a poll, the session is the active one, it is due, and every start and
    every earlier poll of the plugin that is still there had been given up before the
    step, so that after it the new poll is the only one whose outcome is waited for. *)
Theorem one_live_future now0 w w' (Hw : rtc agent_step (World_new now0) w) (Hs : agent_step w w') t tick s pc
  (H1 : w_tasks w' !! t = Some (TSession (KPoll tick) s pc)) (H0 : w_tasks w !! t = None) :
  (exists a, w_sessions w !! se_name s = Some (SActive a) /\ a_session a = s /\ a_instant a <= tick /\ tick <= w_now w) /\
  (forall t0 k0 s0 pc0, w_tasks w !! t0 = Some (TSession k0 s0 pc0) -> se_name s0 = se_name s ->
     cancelled t0 (w_sessions w)) /\
  (forall t0 k0 s0 pc0, w_tasks w' !! t0 = Some (TSession k0 s0 pc0) -> se_name s0 = se_name s ->
     cancelled t0 (w_sessions w') \/ t0 = t).
Proof.
  pose proof (agent_ok_reachable _ _ Hw) as [Hli Htk].
  assert (rtc agent_step (World_new now0) w') as Hw' by (by eapply rtc_r).
  destruct (proj2 (descends_step _ _ Hs) _ _ _ _ H1) as [[pc0 ?]|[?|[-> (n & todo & a & Hp & Hv & Hn & Ha & Hf & Hi)]]];
    [congruence|done|].
  destruct (li_state _ Hli n a Hn) as [Hna _]. rewrite Ha in Hna. subst n.
  assert (tick <= w_now w) as Hnow by (destruct Htk as [H2 H3 _]; rewrite Hp in H3; lia).
  assert (forall t0 k0 s0 pc0, w_tasks w !! t0 = Some (TSession k0 s0 pc0) -> se_name s0 = se_name s ->
     cancelled t0 (w_sessions w)) as Hold.
  { intros t0 k0 s0 pc0 Ht0 Hs0. destruct (decide (cancelled t0 (w_sessions w))) as [|Hc]; [done|].
    destruct (live_task _ _ _ _ _ _ Hw Ht0 Hc) as (b & Hb & _ & Hfb). rewrite Hs0 in Hb. congruence. }
  split; [by exists a|]. split; [done|]. intros t0 k0 s0 pc0 Ht0 Hs0.
  destruct (decide (cancelled t0 (w_sessions w'))) as [|Hc]; [by left|right].
  destruct (live_task _ _ _ _ _ _ Hw' Ht0 Hc) as (b & Hb & _ & Hfb).
  assert (exists b', w_sessions w' !! se_name s = Some (SActive b') /\ a_in_flight b' = Some (w_next w)) as (b' & Hb' & Hfb').
  { unfold poller_turn, poller_visit in Hv. rewrite Hp in Hv. destruct (bool_decide _); [|done]. rewrite Hn in Hv. simpl in Hv.
    rewrite Hf, (proj2 (Z.leb_le _ _) Hi) in Hv. simpl in Hv. injection Hv as <-.
    eexists. simpl. rewrite lookup_insert_eq. split; [done|]. done. }
  rewrite Hs0 in Hb. congruence.
Qed.

(** ** When a poll is given up *)
(** C34: a poll that is begun at one time of the clock and is in flight at a later one is
    given up there when, and only when, the time between them has reached the deadline of
    its plugin, up to a second (the period of the poller). The time is counted with how
    late the poller was when the poll began, and without how late it is now: the poller
    reckons with the times its ticks were due, not with the clock, so only a poller that
    keeps up with its ticks gives a poll that much time. *)
Theorem poll_window now0 w1 w1' w2 (Hw : rtc agent_step (World_new now0) w1) (Hs : agent_step w1 w1')
  (Hr : rtc agent_step w1' w2) t tick s pc1 pc2 n a now todo
  (H0 : w_tasks w1 !! t = None) (H1 : w_tasks w1' !! t = Some (TSession (KPoll tick) s pc1))
  (Hn : w_sessions w2 !! n = Some (SActive a)) (Ha : a_in_flight a = Some t)
  (H2 : w_tasks w2 !! t = Some (TSession (KPoll tick) s pc2)) (Hp : w_poller w2 = PHandle now todo) (Hin : n ∈ todo) :
  let had := (w_now w2 - w_now w1) + (w_now w1 - tick) - (w_now w2 - now) in
  let gives_up := exists w3, poller_turn n w2 = Some w3 /\ w_tasks w3 !! w_next w2 = Some (TReset n) in
  0 <= w_now w1 - tick /\ 0 <= w_now w2 - now /\
  (gives_up -> deadline n - SEC < had) /\ (deadline n <= had -> gives_up).
Proof.
  intros had gives_up. assert (rtc agent_step (World_new now0) w2) as Hw2.
  { transitivity w1; [exact Hw|]. eapply rtc_l; [exact Hs|done]. }
  pose proof (agent_ok_reachable _ _ Hw) as [_ Htk1]. pose proof (agent_ok_reachable _ _ Hw2) as [Hli Htk2].
  assert (tick <= w_now w1) as Hl1.
  { destruct (proj2 (descends_step _ _ Hs) _ _ _ _ H1) as [[pc0 ?]|[?|[_ (m & td & b & Hpb & _ & _)]]]; [congruence|done|].
    destruct Htk1 as [H3 H4 _]. rewrite Hpb in H4. lia. }
  assert (now <= w_now w2) as Hl2 by (destruct Htk2 as [H3 H4 _]; rewrite Hp in H4; lia).
  destruct (li_link _ Hli n a t _ Hn Ha H2) as (k' & pc' & [= <- -> <-] & Ho).
  destruct (li_state _ Hli n a Hn) as [Hname _].
  assert (gives_up <-> a_instant a + deadline n <= now) as Hg.
  { unfold gives_up, poller_turn, poller_visit. rewrite Hp, bool_decide_true by done. rewrite Hn. simpl.
    rewrite Ha, andb_false_r, andb_true_r, Hname. destruct (Z.leb_spec (a_instant a + deadline n) now).
    - split; [done|]. intros _. eexists. split; [done|]. simpl. by rewrite lookup_insert_eq.
    - split; [|lia]. intros (w3 & [= <-] & Ht). simpl in Ht.
      destruct (decide (is_Some (w_tasks w2 !! w_next w2))) as [Hf%(li_fresh _ Hli)|Hf]; [lia|].
      destruct (w_tasks w2 !! w_next w2) eqn:E; [by destruct Hf|]. done. }
  simpl in Ho. split_and!; [lia..|rewrite Hg; unfold had; lia|rewrite Hg; unfold had; lia].
Qed.

(** ** A session start that is lost is not made again *)
(** Once no task starts a session that has been created (its start was cancelled,
    say), none ever will: the only start of a session is the one made when the
    manager grants it. *)
Theorem start_not_retried w w' cell (Hw : rtc agent_step w w') (Hc : (cell < w_next w)%nat)
  (Hn : forall t born s pc, w_tasks w !! t = Some (TSession (KStart born) s pc) -> se_cell s <> cell) :
  forall t born s pc, w_tasks w' !! t = Some (TSession (KStart born) s pc) -> se_cell s <> cell.
Proof.
  revert Hc Hn. induction Hw as [|w w1 w' Hs _ IH]; [done|]. intros Hc Hn.
  destruct (descends_step _ _ Hs) as [Hle Hd]. apply IH; [lia|]. intros t born s pc Ht.
  destruct (Hd _ _ _ _ Ht) as [[pc0 Ht0]|[?|[_ Hm]]]; [by eapply Hn|done|]. simpl in Hm. lia.
Qed.

End AgentSpec.

(** * Runs *)

Section AgentRuns.
Context {J : Json}.

Definition sample_agent : AgentClient :=
  {| ac_start_time := "2020-01-01"; ac_fqdn := "oss1"; ac_boot_time := "2019-12-31" |}.

(** A tick that visits every plugin in both loops, after [d] ns. *)
Definition full_tick (d : Z) : list Label :=
  [LTime d; LTick] ++ (LPoller <$> plugin_registry) ++ (LPoller <$> plugin_registry).

(** The manager answers with one message. *)
Definition delivery (m : ManagerMessage value) : list Label := [LFetch (Delivered [m]); LReader; LReader].

Definition granted_device (id : string) : ManagerMessage value := MmSessionCreateResponse "oss1" "device" id.

(** The first tick asks for all sessions (the device plugin's request is task 5);
    the device session "s1" is granted and started (task 10). *)
Definition first_session : list Label :=
  full_tick 0 ++ [LTask 5 (OHttp true true)] ++ delivery (granted_device "s1").

(** Its start has nothing to say; the poller gives up on it in the seventh tick and
    polls in the twelfth (task 12). The poll has data to send. *)
Definition first_poll : list Label :=
  first_session ++ [LTask 10 (OPlugin (Ok None)); LTask 10 ONone] ++
  concat (repeat (full_tick SEC) 6) ++ [LTask 11 ONone] ++
  concat (repeat (full_tick SEC) 5) ++ [LTask 12 (OPlugin (Ok (Some json_null))); LTask 12 ONone].

(** The manager cannot be reached: all sessions are torn down and asked for again;
    the device session "s2" is granted and its start (task 23) under way. Then the
    poll of "s1" ends. *)
Definition stale_poll : list Label :=
  first_poll ++ [LFetch Unreachable] ++ (LTear <$> plugin_registry) ++ [LReader] ++
  full_tick (5 * SEC) ++ [LTask 18 (OHttp true true); LReader] ++ delivery (granted_device "s2") ++
  [LTask 12 (OHttp true true); LTask 12 ONone; LTask 23 OCancelled; LTask 23 ONone].

Definition starts (cell : nat) (x : Task) : bool :=
  match x with TSession (KStart _) s _ => Nat.eqb (se_cell s) cell | _ => false end.

Lemma no_start_spec cell (m : gmap nat Task) :
  forallb (fun p => negb (starts cell p.2)) (map_to_list m) = true ->
  forall t born s pc, m !! t = Some (TSession (KStart born) s pc) -> se_cell s <> cell.
Proof.
  intros Hf t born s pc Ht%elem_of_map_to_list Hc. rewrite forallb_forall in Hf.
  apply list_elem_of_In, Hf in Ht. simpl in Ht. by rewrite Hc, Nat.eqb_refl in Ht.
Qed.

(** ** The end of an old poll cancels the start of a new session *)
(** There is a run in which the poll of a session that was torn down ends after
    the next session of the plugin was granted, and cancels its start: the new
    session is active, no start of it is left, no data of it was ever posted, and
    by [start_not_retried] no start of it will be made. *)
Theorem stale_poll_cancels_start : exists w a,
  rtc (agent_step sample_agent) (World_new 0) w /\
  w_sessions w !! "device" = Some (SActive a) /\ se_id (a_session a) = "s2" /\
  (forall t born s pc, w_tasks w !! t = Some (TSession (KStart born) s pc) -> se_cell s <> se_cell (a_session a)) /\
  (forall e fqdn seq x, e ∈ w_posted w -> en_messages e <> [MsgData fqdn "device" "s2" seq x]).
Proof.
  destruct (agent_run sample_agent stale_poll (World_new 0)) as [w|] eqn:Hr; [|by vm_compute in Hr].
  exists w. pose proof (agent_run_steps _ _ _ _ Hr) as Hw. vm_compute in Hr. injection Hr as <-.
  eexists. split; [exact Hw|]. split; [by vm_compute|]. split; [done|]. split.
  - apply no_start_spec. by vm_compute.
  - intros e fqdn seq x He. simpl in He. set_solver.
Qed.

(** ** A late failure of the request drops the session *)
(** There is a run in which the request for a session fails only after the
    session was granted: the state is then reset to empty, without the teardown of
    the plugin of the active session, whose start goes on working for nobody. *)
Theorem late_failure_drops_session : exists w w',
  rtc (agent_step sample_agent) (World_new 0) w /\ agent_step sample_agent w w' /\
  (exists a, w_sessions w !! "device" = Some (SActive a) /\ se_id (a_session a) = "s1") /\
  w_sessions w' !! "device" = Some (SEmpty WAIT_TIME) /\ w_reader w' = RIdle /\
  (exists t born s, w_tasks w' !! t = Some (TSession (KStart born) s Running) /\ se_id s = "s1").
Proof.
  set (ls := full_tick 0 ++ delivery (granted_device "s1")).
  destruct (agent_run sample_agent ls (World_new 0)) as [w|] eqn:Hr; [|by vm_compute in Hr].
  pose proof (agent_run_steps _ _ _ _ Hr) as Hw. vm_compute in Hr. injection Hr as <-.
  eexists _, _. split; [exact Hw|]. split; [by exists (LTask 5 (OHttp true false))|].
  split; [eexists; split; [by vm_compute|done]|]. split; [by vm_compute|]. split; [done|].
  exists 10%nat, 0. eexists. split; [by vm_compute|done].
Qed.

(** The corosync session is granted and its start given up in the 15th second; then the
    poller is held up until the 39th. *)
Definition held_up : list Label :=
  full_tick 0 ++ delivery (MmSessionCreateResponse "oss1" "corosync" "c1") ++
  [LTask 10 (OPlugin (Ok None)); LTask 10 ONone] ++ concat (repeat (full_tick SEC) 15) ++
  [LTask 11 ONone; LTime (24 * SEC)].

(** It catches up: 15 ticks at once. *)
Definition burst : list Label :=
  concat (repeat ([LTick] ++ (LPoller <$> plugin_registry) ++ (LPoller <$> plugin_registry)) 15).

(** ** A late poller gives up on a poll at once *)
(** There is a run in which the poller begins a poll of corosync, which may take ten
    seconds, and gives up on it while no time has passed. *)
Theorem burst_gives_up : exists w w',
  rtc (agent_step sample_agent) (World_new 0) w /\ rtc (agent_step sample_agent) w w' /\
  w_now w = 39 * SEC /\ w_now w' = 39 * SEC /\
  w_tasks w !! 12%nat = None /\
  w_tasks w' !! 12%nat = Some (TSession (KPoll (20 * SEC)) (MkSession "corosync" "c1" 10) Running) /\
  w_tasks w' !! 13%nat = Some (TReset "corosync").
Proof.
  destruct (agent_run sample_agent held_up (World_new 0)) as [w|] eqn:Hr; [|by vm_compute in Hr].
  destruct (agent_run sample_agent burst w) as [w'|] eqn:Hb; [|vm_compute in Hr; injection Hr as <-; by vm_compute in Hb].
  exists w, w'. split; [by eapply agent_run_steps|]. split; [by eapply agent_run_steps|].
  vm_compute in Hr. injection Hr as <-. vm_compute in Hb. injection Hb as <-. by vm_compute.
Qed.

(** A start and a message raise the counter before either reads it. *)
Definition same_numbers : list Label :=
  first_session ++ [LTask 10 (OPlugin (Ok (Some json_null)))] ++
  delivery (MmData "oss1" "device" "s1" json_null) ++
  [LTask 11 ONone; LTask 11 (OPlugin (Ok (Some json_null))); LTask 10 ONone; LTask 11 ONone;
   LTask 10 (OHttp true true); LTask 11 (OHttp true true)].

(** ** Sequence numbers can repeat *)
(** The counter of a session is raised and read in two operations: there is a
    run in which two different tasks of a session post data with the same sequence
    number, and no data has the number before. *)
Theorem sequence_numbers_repeat : exists w,
  rtc (agent_step sample_agent) (World_new 0) w /\
  omap (fun e => match en_messages e with [MsgData _ "device" "s1" seq _] => Some seq | _ => None end)
    (w_posted w) = [2; 2].
Proof.
  destruct (agent_run sample_agent same_numbers (World_new 0)) as [w|] eqn:Hr; [|by vm_compute in Hr].
  exists w. split; [by eapply agent_run_steps|]. vm_compute in Hr. injection Hr as <-. by vm_compute.
Qed.

End AgentRuns.

(** * Witnesses *)

Section AgentWitnesses.

#[local] Instance agent_json : Json := {| value := unit; json_null := tt; value_eq_dec := _ |}.

Lemma backoff_schedule_bounds_witness : backoff_schedule (20 * SEC) = 40 * SEC.
Proof.
  destruct (backoff_schedule_bounds (20 * SEC)) as (_ & _ & H); [unfold SEC; lia|].
  rewrite H; [reflexivity|unfold SEC; lia].
Defined.

Definition polled : World := default (World_new 0) (agent_run sample_agent first_poll (World_new 0)).
Definition polled_active : Active :=
  {| a_session := MkSession "device" "s1" 10; a_in_flight := Some 12%nat; a_instant := 11 * SEC |}.
Definition polled_task : Task :=
  TSession (KPoll (11 * SEC)) (MkSession "device" "s1" 10) (Numbered 1 tt).

Lemma polled_reachable : rtc (agent_step sample_agent) (World_new 0) polled.
Proof.
  apply (agent_run_steps _ first_poll). unfold polled.
  destruct (agent_run sample_agent first_poll (World_new 0)) as [w|] eqn:E; [done|by vm_compute in E].
Qed.
Lemma polled_state : w_sessions polled !! "device" = Some (SActive polled_active).
Proof. by vm_compute. Qed.
Lemma polled_flight : w_tasks polled !! 12%nat = Some polled_task.
Proof. by vm_compute. Qed.

Lemma agent_posts_witness : Forall (fun e => en_client_start_time e = "2020-01-01") (w_posted polled) /\
  w_posted polled <> [].
Proof.
  split; [|by vm_compute]. apply Forall_forall. intros e He.
  by apply (agent_posts sample_agent 0 polled polled_reachable e He).
Defined.

(** Just before the poll, and the turn that makes it. *)
Definition before_poll : World := default (World_new 0) (agent_run sample_agent
  (first_session ++ [LTask 10 (OPlugin (Ok None)); LTask 10 ONone] ++
   concat (repeat (full_tick SEC) 6) ++ [LTask 11 ONone] ++ concat (repeat (full_tick SEC) 4) ++
   [LTime SEC; LTick] ++ (LPoller <$> plugin_registry) ++ (LPoller <$> take 5 plugin_registry)) (World_new 0)).
Definition at_poll : World := default before_poll (agent_turn sample_agent (LPoller "device") before_poll).

Lemma run_reaches ls w d : bool_decide (is_Some (agent_run sample_agent ls w)) = true ->
  rtc (agent_step sample_agent) w (default d (agent_run sample_agent ls w)).
Proof. intros H%bool_decide_eq_true. destruct H as [w' E]. rewrite E. by eapply agent_run_steps. Qed.

Lemma before_poll_reachable : rtc (agent_step sample_agent) (World_new 0) before_poll.
Proof. apply run_reaches. by vm_compute. Qed.
Lemma at_poll_step : agent_step sample_agent before_poll at_poll.
Proof. exists (LPoller "device"). by vm_compute. Qed.

Lemma one_live_future_witness : exists a, w_sessions before_poll !! "device" = Some (SActive a) /\
  se_id (a_session a) = "s1" /\ a_instant a <= 11 * SEC.
Proof.
  destruct (one_live_future sample_agent 0 before_poll at_poll before_poll_reachable at_poll_step 12 (11 * SEC)
    (MkSession "device" "s1" 10) Running) as [(a & Ha & Hs & Hi & _) _]; [by vm_compute..|].
  exists a. split; [exact Ha|]. split; [by rewrite Hs|exact Hi].
Defined.

(** The poll is still in flight when the poller comes by in the next tick. *)
Definition next_tick : World := default at_poll (agent_run sample_agent
  ((LPoller <$> drop 6 plugin_registry) ++ [LTime SEC; LTick] ++ (LPoller <$> plugin_registry)) at_poll).

Lemma next_tick_reachable : rtc (agent_step sample_agent) at_poll next_tick.
Proof. apply run_reaches. by vm_compute. Qed.

Lemma poll_window_witness : exists w, poller_turn "device" next_tick = Some w /\
  w_tasks w !! w_next next_tick = Some (TReset "device").
Proof.
  apply (poll_window sample_agent 0 before_poll at_poll next_tick before_poll_reachable at_poll_step next_tick_reachable
    12 (11 * SEC) (MkSession "device" "s1" 10) Running Running "device" polled_active (12 * SEC) (list_to_set plugin_registry));
    [by vm_compute..|set_solver|by vm_compute].
Defined.

Lemma start_not_retried_witness : forall t born s pc,
  w_tasks polled !! t = Some (TSession (KStart born) s pc) -> se_cell s <> 10%nat.
Proof.
  apply (start_not_retried sample_agent polled polled 10 (rtc_refl _ _)).
  - apply Nat.ltb_lt. by vm_compute.
  - apply no_start_spec. by vm_compute.
Defined.

End AgentWitnesses.
