(* ===== verification/AgentPlugins.v ===== *)
(** Plugins of the agent, [iml-agent/src/daemon_plugins/]: the action runner, which
    runs the manager's actions and can cancel them, and the plugin that reports the
    OST pools. *)
From S2P Require Import Prelude RustStd WireTypes AgentSession.
From stdpp Require Import base gmap sets list strings.
From Stdlib Require Import ZArith.

Open Scope Z_scope.

(** * The action runner: [action_runner.rs] *)

Module ActionPlugin.
Section ActionPlugin.
Context {J : Json}.

(** [registry] is the names of [action_plugins::create_registry]; [not_found] the
    text of its error for a name. *)
Context (registry : gset string) (not_found : string -> string).

(** A call of [on_message] for an action: it selects between the action and its
    channel; the action is done and the call waits for the lock. *)
Inductive Call : Type :=
| Selecting (id : ActionId)
| Leaving (id : ActionId) (result : AgentResult).

Definition call_id (c : Call) : ActionId := match c with Selecting id | Leaving id _ => id end.

(** [ids]: the sender of which call is kept for an id. Calls are numbered as they
    come; [asked] are their messages, [None] one that is no action, and [answers]
    what they returned. *)
Record Runner : Type := MkRunner {
  ids : gmap ActionId nat;
  calls : gmap nat Call;
  asked : list (option Action);
  answers : list (nat * Result unit ActionResult);
}.

Definition Runner_new : Runner := {| ids := ∅; calls := ∅; asked := []; answers := [] |}.

Inductive Turn : Type :=
| Garbled
| Start (action : string) (args : value) (id : ActionId)
| Cancel (id : ActionId)
| Finish (t : nat) (result : AgentResult)
| Leave (t : nat)
| Stopped (t : nat)
| Teardown.

(** The call returns at once. *)
Definition answer_now (m : option Action) (r : Result unit ActionResult) (ids' : gmap ActionId nat) (w : Runner) : Runner :=
  MkRunner ids' (calls w) (asked w ++ [m]) (answers w ++ [(length (asked w), r)]).

(** [on_message] up to its [select], or to its end where it has none. A message that
    is no action is an error, and the manager gets no answer. *)
Definition on_message (m : option Action) (w : Runner) : Runner :=
  match m with
  | None => answer_now m (Err tt) (ids w) w
  | Some (ActionStart action args id) =>
      if bool_decide (action ∈ registry) then
        MkRunner (<[id := length (asked w)]> (ids w)) (<[length (asked w) := Selecting id]> (calls w))
          (asked w ++ [m]) (answers w)
      else answer_now m (Ok (MkActionResult id (Err (not_found action)))) (ids w) w
  | Some (ActionCancel id) => answer_now m (Ok (MkActionResult id (Ok json_null))) (delete id (ids w)) w
  end.

(** The channel of a call gives something once its sender was used or dropped. *)
Definition stopped (t : nat) (w : Runner) : Prop := map_Forall (fun _ t' => t' <> t) (ids w).
#[global] Instance stopped_dec t w : Decision (stopped t w) := map_Forall_dec _ (ids w).

(** The rest of it. *)
Definition runner_turn (l : Turn) (w : Runner) : option Runner :=
  match l with
  | Garbled => Some (on_message None w)
  | Start action args id => Some (on_message (Some (ActionStart action args id)) w)
  | Cancel id => Some (on_message (Some (ActionCancel id)) w)
  | Finish t result =>
      match calls w !! t with
      | Some (Selecting id) => Some (MkRunner (ids w) (<[t := Leaving id result]> (calls w)) (asked w) (answers w))
      | _ => None
      end
  | Leave t =>
      match calls w !! t with
      | Some (Leaving id result) =>
          Some (MkRunner (delete id (ids w)) (delete t (calls w)) (asked w)
                 (answers w ++ [(t, Ok (MkActionResult id result))]))
      | _ => None
      end
  | Stopped t =>
      match calls w !! t with
      | Some (Selecting id) =>
          if bool_decide (stopped t w) then
            Some (MkRunner (ids w) (delete t (calls w)) (asked w)
                   (answers w ++ [(t, Ok (MkActionResult id (Ok json_null)))]))
          else None
      | _ => None
      end
  | Teardown => Some (MkRunner ∅ (calls w) (asked w) (answers w))
  end.

Fixpoint runner_run (ls : list Turn) (w : Runner) : option Runner :=
  match ls with
  | [] => Some w
  | l :: ls => w' ← runner_turn l w; runner_run ls w'
  end.

Lemma runner_run_app ls1 ls2 w : runner_run (ls1 ++ ls2) w = (w' ← runner_run ls1 w; runner_run ls2 w').
Proof. revert w. induction ls1 as [|l ls1 IH]; simpl; intros w; [done|]. destruct (runner_turn l w); simpl; auto. Qed.

(** Induction on runs, last turn first. *)
Lemma runner_run_ind (P : list Turn -> Runner -> Prop) w0 :
  P [] w0 ->
  (forall ls l w w', runner_run ls w0 = Some w -> P ls w -> runner_turn l w = Some w' -> P (ls ++ [l]) w') ->
  forall ls w, runner_run ls w0 = Some w -> P ls w.
Proof.
  intros H0 Hs ls. induction ls as [|l ls IH] using rev_ind; intros w; [by intros [= <-]|].
  rewrite runner_run_app. intros (w1 & H1 & H2)%bind_Some. simpl in H2.
  apply bind_Some in H2 as (w2 & H2 & [= ->]). eauto.
Qed.

(** ** What becomes of a call *)

Definition started (ls : list Turn) : list ActionId :=
  omap (fun l => match l with Start _ _ id => Some id | _ => None end) ls.

(** The action was cancelled, or the session torn down, after it was started. *)
Definition asked_to_stop (ls : list Turn) (id : ActionId) : Prop :=
  exists ls1 action args ls2, ls = ls1 ++ Start action args id :: ls2 /\ (Cancel id ∈ ls2 \/ Teardown ∈ ls2).

(** What a message may be answered with. *)
Definition fate (ls : list Turn) (t : nat) (m : option Action) (r : Result unit ActionResult) : Prop :=
  match m with
  | None => r = Err tt
  | Some (ActionCancel id) => r = Ok (MkActionResult id (Ok json_null))
  | Some (ActionStart action _ id) =>
      if bool_decide (action ∈ registry)
      then exists res, r = Ok (MkActionResult id res) /\ (Finish t res ∈ ls \/ (res = Ok json_null /\ asked_to_stop ls id))
      else r = Ok (MkActionResult id (Err (not_found action)))
  end.

(** A call under work is one of an action that the registry has; its result is that of
    the action; its sender is kept or it was asked to stop. *)
Record call_ok (ls : list Turn) (w : Runner) (t : nat) (c : Call) : Prop := {
  ck_asked : exists action args, asked w !! t = Some (Some (ActionStart action args (call_id c))) /\
    action ∈ registry /\ Start action args (call_id c) ∈ ls;
  ck_result : match c with Selecting _ => True | Leaving _ r => Finish t r ∈ ls end;
  ck_sender : ids w !! call_id c = Some t \/ asked_to_stop ls (call_id c);
}.

Record runner_ok (ls : list Turn) (w : Runner) : Prop := {
  rk_call t c : calls w !! t = Some c -> call_ok ls w t c;
  rk_inj t1 t2 c1 c2 : calls w !! t1 = Some c1 -> calls w !! t2 = Some c2 -> call_id c1 = call_id c2 -> t1 = t2;
  rk_ids id t : ids w !! id = Some t -> exists c, calls w !! t = Some c /\ call_id c = id;
  rk_answer t r : (t, r) ∈ answers w -> calls w !! t = None /\ exists m, asked w !! t = Some m /\ fate ls t m r;
  rk_once : NoDup (answers w).*1;
  rk_all t : (t < length (asked w))%nat -> is_Some (calls w !! t) \/ t ∈ (answers w).*1;
}.

Lemma started_app ls l : started (ls ++ [l]) = started ls ++ started [l].
Proof. apply omap_app. Qed.

Lemma started_in ls action args id : Start action args id ∈ ls -> id ∈ started ls.
Proof. intros H. apply list_elem_of_omap. by eexists. Qed.

Lemma asked_to_stop_app ls l id : asked_to_stop ls id -> asked_to_stop (ls ++ [l]) id.
Proof.
  intros (ls1 & a & v & ls2 & -> & H). exists ls1, a, v, (ls2 ++ [l]). rewrite <-app_assoc. split; [done|].
  rewrite !elem_of_app. tauto.
Qed.

(** A cancellation or a teardown that comes now. *)
Lemma asked_to_stop_now ls l action args id : Start action args id ∈ ls -> l = Cancel id \/ l = Teardown ->
  asked_to_stop (ls ++ [l]) id.
Proof.
  intros (ls1 & ls2 & ->)%list_elem_of_split Hl. exists ls1, action, args, (ls2 ++ [l]). rewrite <-app_assoc. split; [done|].
  rewrite !elem_of_app, !list_elem_of_singleton. destruct Hl as [->| ->]; auto.
Qed.

Lemma fate_app ls l t m r : fate ls t m r -> fate (ls ++ [l]) t m r.
Proof.
  destruct m as [[action args id|id]|]; simpl; [|done..]. case_bool_decide; [|done].
  intros (res & -> & Hres). exists res. split; [done|]. rewrite elem_of_app.
  destruct Hres as [Hres|[? ?]]; [tauto|]. right. split; [done|]. by apply asked_to_stop_app.
Qed.

Lemma runner_ok_fresh ls w : runner_ok ls w -> calls w !! length (asked w) = None /\ length (asked w) ∉ (answers w).*1.
Proof.
  intros Hw. split.
  - destruct (calls w !! length (asked w)) as [c|] eqn:E; [|done]. destruct (rk_call _ _ Hw _ _ E) as [(a & v & Ha & _) _ _].
    rewrite lookup_ge_None_2 in Ha; [done|lia].
  - intros ([t r] & Heq & Hin)%list_elem_of_fmap. destruct (rk_answer _ _ Hw _ _ Hin) as (_ & m & Hm & _).
    simpl in Heq. rewrite <-Heq, lookup_ge_None_2 in Hm; [done|lia].
Qed.

(** A call that a turn leaves alone. *)
Lemma call_ok_keep ls l w w' t c : call_ok ls w t c ->
  (forall m, asked w !! t = Some m -> asked w' !! t = Some m) ->
  ids w' !! call_id c = ids w !! call_id c \/ asked_to_stop (ls ++ [l]) (call_id c) ->
  call_ok (ls ++ [l]) w' t c.
Proof.
  intros [(a & v & Hv & Hr & Hst) Hres Hsn] Ha Hk. split.
  - exists a, v. rewrite elem_of_app. auto.
  - destruct c; [done|]. rewrite elem_of_app. auto.
  - destruct Hk as [->|]; [|by right]. destruct Hsn; [by left|right; by apply asked_to_stop_app].
Qed.

(** A message that is answered at once. *)
Lemma runner_ok_now ls l m r ids' w :
  (forall t c, calls w !! t = Some c -> ids' !! call_id c = ids w !! call_id c \/ asked_to_stop (ls ++ [l]) (call_id c)) ->
  (forall id t, ids' !! id = Some t -> ids w !! id = Some t) ->
  fate (ls ++ [l]) (length (asked w)) m r ->
  runner_ok ls w -> runner_ok (ls ++ [l]) (answer_now m r ids' w).
Proof.
  intros Hk Hs Hf Hw. destruct (runner_ok_fresh ls w Hw) as [Hfc Hfa]. destruct Hw as [Hc Hj Hi Ha Ho Hl]. split; simpl.
  - intros t c Ht. apply (call_ok_keep ls l w); [by apply Hc|intros m'; by apply lookup_app_l_Some|by eapply Hk].
  - done.
  - intros id t Ht%Hs. eauto.
  - intros t r' [Hin|[= -> ->]%list_elem_of_singleton]%elem_of_app.
    + destruct (Ha t r' Hin) as (? & m' & Hm' & Hf'). split; [done|]. exists m'. split; [by apply lookup_app_l_Some|by apply fate_app].
    + split; [done|]. exists m. by rewrite list_lookup_middle.
  - rewrite fmap_app. apply NoDup_app. split; [done|]. split; [|apply NoDup_singleton].
    intros x Hx ->%list_elem_of_singleton. done.
  - intros t. rewrite length_app, fmap_app, elem_of_app. simpl. intros Hlt.
    destruct (decide (t = length (asked w))) as [->|]; [right; right; left|]. destruct (Hl t ltac:(lia)); auto.
Qed.

(** A new call that begins to select. *)
Lemma runner_ok_start ls action args id w :
  id ∉ started ls -> action ∈ registry -> runner_ok ls w ->
  runner_ok (ls ++ [Start action args id])
    (MkRunner (<[id := length (asked w)]> (ids w)) (<[length (asked w) := Selecting id]> (calls w))
       (asked w ++ [Some (ActionStart action args id)]) (answers w)).
Proof.
  intros Hid Hreg Hw. destruct (runner_ok_fresh ls w Hw) as [Hfc Hfa]. destruct Hw as [Hc Hj Hi Ha Ho Hl].
  assert (forall t c, calls w !! t = Some c -> call_id c <> id) as Hne.
  { intros t c Ht <-. destruct (Hc t c Ht) as [(a & v & _ & _ & Hst) _ _]. by apply started_in in Hst. }
  split; simpl.
  - intros t c [[<- <-]|[Ht Hx]]%lookup_insert_Some.
    + split; simpl; [|done|left; apply lookup_insert_eq]. exists action, args. rewrite list_lookup_middle by done.
      split; [done|]. split; [done|]. apply elem_of_app. right. left.
    + apply (call_ok_keep ls _ w); [by apply Hc|intros m'; by apply lookup_app_l_Some|].
      left. apply lookup_insert_ne, not_eq_sym. by eapply Hne.
  - intros t1 t2 c1 c2 [[<- <-]|[? Hx1]]%lookup_insert_Some [[<- <-]|[? Hx2]]%lookup_insert_Some; simpl; [done|..].
    + intros E. by destruct (Hne t2 c2 Hx2).
    + intros E. by destruct (Hne t1 c1 Hx1).
    + by apply Hj.
  - intros id' t [[<- <-]|[Hn Hx]]%lookup_insert_Some; [exists (Selecting id); by rewrite lookup_insert_eq|].
    destruct (Hi id' t Hx) as (c & Hcc & Hci). exists c. rewrite lookup_insert_ne; [done|]. congruence.
  - intros t r Hin. destruct (Ha t r Hin) as (Hn & m & Hm & Hf). split.
    + rewrite lookup_insert_ne; [done|]. intros <-. apply Hfa. by apply (list_elem_of_fmap_2 fst) in Hin.
    + exists m. split; [by apply lookup_app_l_Some|by apply fate_app].
  - done.
  - intros t. rewrite length_app. simpl. intros Hlt. destruct (decide (t = length (asked w))) as [->|].
    + left. by rewrite lookup_insert_eq.
    + rewrite lookup_insert_ne by done. apply Hl. lia.
Qed.

(** A call returns what may be returned, and its sender is no longer kept. *)
Lemma runner_ok_return ls l t c r ids' w :
  calls w !! t = Some c -> (forall m, asked w !! t = Some m -> fate (ls ++ [l]) t m r) ->
  (forall id t', ids' !! id = Some t' -> ids w !! id = Some t' /\ t' <> t) ->
  (forall t' c', t' <> t -> calls w !! t' = Some c' -> ids' !! call_id c' = ids w !! call_id c') ->
  runner_ok ls w -> runner_ok (ls ++ [l]) (MkRunner ids' (delete t (calls w)) (asked w) (answers w ++ [(t, r)])).
Proof.
  intros Ht Hf Hs Hk [Hc Hj Hi Ha Ho Hl]. split; simpl.
  - intros t' c' [Hne Hx]%lookup_delete_Some. apply (call_ok_keep ls l w); [by apply Hc|done|left; by eapply Hk].
  - intros t1 t2 c1 c2 [_ H1]%lookup_delete_Some [_ H2]%lookup_delete_Some. by apply Hj.
  - intros id t' [Hx Hne]%Hs. destruct (Hi id t' Hx) as (c' & ? & ?). exists c'. by rewrite lookup_delete_ne.
  - intros t' r' [Hin|[= -> ->]%list_elem_of_singleton]%elem_of_app.
    + destruct (Ha t' r' Hin) as (Hn & m & Hm & Hf'). split; [apply lookup_delete_None; by right|].
      exists m. split; [done|by apply fate_app].
    + split; [apply lookup_delete_eq|]. destruct (Hc t c Ht) as [(a & v & Hv & _) _ _]. eauto.
  - rewrite fmap_app. apply NoDup_app. split; [done|]. split; [|apply NoDup_singleton].
    intros x Hx ->%list_elem_of_singleton. apply list_elem_of_fmap in Hx as ([t' r'] & Heq & [Hn _]%Ha).
    simpl in Heq. congruence.
  - intros t' Hlt. rewrite fmap_app, elem_of_app. destruct (decide (t' = t)) as [->|Hne]; [right; right; left|].
    rewrite lookup_delete_ne by done. destruct (Hl t' Hlt); auto.
Qed.

Lemma runner_ok_finish ls t id r w : calls w !! t = Some (Selecting id) -> runner_ok ls w ->
  runner_ok (ls ++ [Finish t r]) (MkRunner (ids w) (<[t := Leaving id r]> (calls w)) (asked w) (answers w)).
Proof.
  intros Ht [Hc Hj Hi Ha Ho Hl]. split; simpl; try done.
  - intros t' c [[<- <-]|[Hne Hx]]%lookup_insert_Some; [|apply (call_ok_keep ls _ w); [by apply Hc|done|by left]].
    destruct (call_ok_keep ls (Finish t r) w w t _ (Hc t _ Ht)) as [? _ ?]; [done|by left|].
    split; simpl in *; [done| |done]. apply elem_of_app. right. left.
  - intros t1 t2 c1 c2 [[<- <-]|[? H1]]%lookup_insert_Some [[<- <-]|[? H2]]%lookup_insert_Some; simpl; [done|..]; eauto.
  - intros id' t' Hx. destruct (Hi id' t' Hx) as (c & Hcc & Hci). destruct (decide (t = t')) as [<-|].
    + exists (Leaving id r). rewrite lookup_insert_eq. split; [done|]. rewrite Ht in Hcc. by injection Hcc as <-.
    + exists c. by rewrite lookup_insert_ne.
  - intros t' r' Hin. destruct (Ha t' r' Hin) as (Hn & m & Hm & Hf). split; [rewrite lookup_insert_ne; [done|congruence]|].
    exists m. split; [done|by apply fate_app].
  - intros t' [?|?]%Hl; [|by right]. left. destruct (decide (t = t')) as [<-|]; [by rewrite lookup_insert_eq|by rewrite lookup_insert_ne].
Qed.

Lemma runner_ok_teardown ls w : runner_ok ls w -> runner_ok (ls ++ [Teardown]) (MkRunner ∅ (calls w) (asked w) (answers w)).
Proof.
  intros [Hc Hj Hi Ha Ho Hl]. split; simpl; try done.
  - intros t c Ht. pose proof (Hc t c Ht) as Hk. destruct Hk as [(a & v & _ & _ & Hst) _ _].
    apply (call_ok_keep ls _ w); [by apply Hc|done|]. right. eapply asked_to_stop_now; [done|by right].
  - intros t r Hin. destruct (Ha t r Hin) as (Hn & m & Hm & Hf). split; [done|]. exists m. split; [done|by apply fate_app].
Qed.

Lemma runner_ok_turn ls l w w' : NoDup (started (ls ++ [l])) -> runner_turn l w = Some w' -> runner_ok ls w -> runner_ok (ls ++ [l]) w'.
Proof.
  intros Hnd Hs Hw. destruct l as [|action args id|id|t r|t|t|]; simpl in Hs.
  - injection Hs as <-. apply runner_ok_now; [intros t c _; by left|done|done|done].
  - injection Hs as <-. case_bool_decide as Hreg.
    + apply runner_ok_start; [|done..]. rewrite started_app in Hnd. apply NoDup_app in Hnd as (_ & Hnd & _).
      intros Hx. apply (Hnd _ Hx). left.
    + apply runner_ok_now; auto. simpl. by rewrite bool_decide_false.
  - injection Hs as <-. apply runner_ok_now; [| |done|done].
    + intros t c Ht. destruct (decide (call_id c = id)) as [<-|]; [right|left; by rewrite lookup_delete_ne].
      destruct (rk_call _ _ Hw t c Ht) as [(a & v & _ & _ & Hst) _ _]. eapply asked_to_stop_now; [done|by left].
    + intros id' t [_ ?]%lookup_delete_Some. done.
  - destruct (calls w !! t) as [[id|]|] eqn:Ht; try done. injection Hs as <-.
    by apply runner_ok_finish.
  - destruct (calls w !! t) as [[|id r]|] eqn:Ht; try done. injection Hs as <-.
    destruct (rk_call _ _ Hw t _ Ht) as [(a & v & Hv & Hreg & _) Hres _]. simpl in Hv, Hres.
    eapply runner_ok_return; [exact Ht|..|exact Hw].
    + intros m Hm. rewrite Hv in Hm. injection Hm as <-. simpl. rewrite bool_decide_true by done. exists r.
      split; [done|]. rewrite elem_of_app. auto.
    + intros id' t' [Hne Hx]%lookup_delete_Some. split; [done|]. intros ->.
      destruct (rk_ids _ _ Hw _ _ Hx) as (c & Hc & <-). rewrite Ht in Hc. by injection Hc as <-.
    + intros t' c' Hne Hx. rewrite lookup_delete_ne; [done|]. intros E. apply Hne. by apply (rk_inj _ _ Hw t' t _ _ Hx Ht).
  - destruct (calls w !! t) as [[id|]|] eqn:Ht; try done. case_bool_decide as Hst; [|done]. injection Hs as <-.
    destruct (rk_call _ _ Hw t _ Ht) as [(a & v & Hv & Hreg & _) _ Hsn]. simpl in Hv, Hsn.
    eapply runner_ok_return; [exact Ht|..|exact Hw].
    + intros m Hm. rewrite Hv in Hm. injection Hm as <-. simpl. rewrite bool_decide_true by done. exists (Ok json_null).
      split; [done|]. right. split; [done|]. apply asked_to_stop_app. destruct Hsn as [Hx|]; [|done]. by destruct (Hst _ _ Hx).
    + intros id' t' Hx. split; [done|]. by eapply Hst.
    + done.
  - injection Hs as <-. by apply runner_ok_teardown.
Qed.

Lemma runner_ok_run ls w : runner_run ls Runner_new = Some w -> NoDup (started ls) -> runner_ok ls w.
Proof.
  apply (runner_run_ind (fun ls w => NoDup (started ls) -> runner_ok ls w)).
  - intros _. split; simpl; try done; [by intros ? ? ?%elem_of_nil|constructor|lia].
  - intros ls' l w1 w2 Hr IH Hs Hn. eapply runner_ok_turn; [done|done|].
    apply IH. rewrite started_app in Hn. by apply NoDup_app in Hn as (? & _).
Qed.

(** A call whose sender is dropped can end at once. *)
Lemma stop_now ls w t id l : runner_ok ls w -> calls w !! t = Some (Selecting id) -> l = Cancel id \/ l = Teardown ->
  exists w', runner_run [l; Stopped t] w = Some w' /\ (t, Ok (MkActionResult id (Ok json_null))) ∈ answers w'.
Proof.
  intros Hw Ht Hl. assert (forall id' t', ids w !! id' = Some t' -> id' <> id -> t' <> t) as Hids.
  { intros id' t' Hx Hne ->. destruct (rk_ids _ _ Hw _ _ Hx) as (c & Hc & <-). rewrite Ht in Hc. by injection Hc as <-. }
  destruct Hl as [->| ->]; simpl; rewrite Ht, bool_decide_eq_true_2.
  - eexists. split; [done|]. simpl. rewrite !elem_of_app. right. left.
  - intros id' t' Hx. simpl in Hx. apply lookup_delete_Some in Hx as [Hne Hx]. by eapply Hids.
  - eexists. split; [done|]. simpl. rewrite !elem_of_app. right. left.
  - by intros id' t'.
Qed.

(** ** The agent answers every action *)
(** C37: whatever the timing of starts, cancellations and teardowns, when no two actions
    have the same id: every message to the agent's action runner is under work or has
    returned, once. A message that is no action returns an error and is not answered; an
    unknown action and a cancellation are answered at once; the answer to a known action
    is what the action gave, or the empty result, and that only if the action was
    cancelled by its id, or the session torn down, after it was started. No action that
    was not asked to stop can be stopped, one that is cancelled or whose session is torn
    down can end at once, and the runner keeps nothing of an action that has ended. *)
Theorem action_answers ls w (Hr : runner_run ls Runner_new = Some w) (Hn : NoDup (started ls)) :
  NoDup (answers w).*1 /\
  (forall t, (t < length (asked w))%nat -> is_Some (calls w !! t) \/ t ∈ (answers w).*1) /\
  (forall t r, (t, r) ∈ answers w -> calls w !! t = None /\ exists m, asked w !! t = Some m /\ fate ls t m r) /\
  (forall id t, ids w !! id = Some t -> exists c, calls w !! t = Some c /\ call_id c = id) /\
  (forall t id, calls w !! t = Some (Selecting id) ->
     (is_Some (runner_turn (Stopped t) w) -> asked_to_stop ls id) /\
     forall l, l = Cancel id \/ l = Teardown ->
       exists w', runner_run [l; Stopped t] w = Some w' /\ (t, Ok (MkActionResult id (Ok json_null))) ∈ answers w').
Proof.
  pose proof (runner_ok_run ls w Hr Hn) as Hw. pose proof Hw as [Hc _ Hi Ha Ho Hl]. split_and!; [done..|].
  intros t id Ht. split; [|intros l; by eapply stop_now]. simpl. rewrite Ht. case_bool_decide as Hs; [|by intros []].
  intros _. destruct (Hc t _ Ht) as [_ _ [Hx|?]]; [by destruct (Hs _ _ Hx)|done].
Qed.

End ActionPlugin.
End ActionPlugin.

(** * OST pools: [ostpool.rs] *)

Module OstPool.
Section OstPool.
Context {J : Json}.

Definition DEFAULT_RESEND : Z := 300 * SEC.

Record PoolStateSub : Type := MkPoolStateSub { last : Z; output : option value }.

(** [tree] is the JSON of the pools that [build_tree] found. *)
Definition start_session (now : Z) (tree : value) (st : PoolStateSub) : PoolStateSub * option value :=
  let st := {| last := now; output := Some tree |} in (st, output st).

Definition update_session (now : Z) (tree : value) (st : PoolStateSub) : PoolStateSub * option value :=
  let newout := Some tree in
  if negb (bool_decide (output st = newout)) || (now <? last st + DEFAULT_RESEND) then
    let st := {| last := now; output := newout |} in (st, output st)
  else (st, None).

(** ** Pools are not sent again *)
(** An update within five minutes of the last one always reports, changed or
    not, and starts the five minutes again; an unchanged report after five minutes is
    withheld. So the interval at which the pools should be sent again works the wrong
    way round; and as a session drops an update that equals the one before, pools
    that do not change are never sent again. *)
Theorem ostpool_never_resent now tree st (Hst : output st = Some tree) :
  (now < last st + DEFAULT_RESEND ->
   update_session now tree st = ({| last := now; output := Some tree |}, Some tree)) /\
  (last st + DEFAULT_RESEND <= now -> update_session now tree st = (st, None)) /\
  forall sh x, sh_last sh = Some tree -> (update_session now tree st).2 = Some x -> poll_output x sh = None.
Proof.
  unfold update_session. rewrite Hst, bool_decide_eq_true_2 by done. simpl. split_and!.
  - intros H. by rewrite (proj2 (Z.ltb_lt _ _)).
  - intros H. by rewrite (proj2 (Z.ltb_ge _ _)).
  - intros sh x Hsh. destruct (_ <? _); simpl; [|done]. intros [= <-]. unfold poll_output.
    by rewrite bool_decide_eq_true_2.
Qed.

End OstPool.
End OstPool.

(** * Witnesses *)

Section PluginWitnesses.

#[local] Instance plugin_json : Json := {| value := unit; json_null := tt; value_eq_dec := _ |}.

Definition mount_only : gset string := {["mount"]}.

(** Action "a" is done, "b" is cancelled while it runs, "c" is unknown, "d" runs; one
    message is no action. *)
Definition sample_turns : list ActionPlugin.Turn :=
  [ActionPlugin.Start "mount" json_null "a"; ActionPlugin.Start "mount" json_null "b"; ActionPlugin.Finish 0 (Ok json_null);
   ActionPlugin.Cancel "b"; ActionPlugin.Leave 0; ActionPlugin.Stopped 1;
   ActionPlugin.Start "frob" json_null "c"; ActionPlugin.Start "mount" json_null "d"; ActionPlugin.Garbled].

Definition sample_runner : ActionPlugin.Runner :=
  default ActionPlugin.Runner_new (ActionPlugin.runner_run mount_only id sample_turns ActionPlugin.Runner_new).

Example sample_answers : ActionPlugin.answers sample_runner =
  [(2%nat, Ok (MkActionResult "b" (Ok json_null))); (0%nat, Ok (MkActionResult "a" (Ok json_null)));
   (1%nat, Ok (MkActionResult "b" (Ok json_null))); (3%nat, Ok (MkActionResult "c" (Err "frob"))); (5%nat, Err tt)].
Proof. by vm_compute. Qed.

Lemma action_answers_witness : exists w',
  ActionPlugin.runner_run mount_only id [ActionPlugin.Cancel "d"; ActionPlugin.Stopped 4] sample_runner = Some w' /\
  (4%nat, Ok (MkActionResult "d" (Ok json_null))) ∈ ActionPlugin.answers w'.
Proof.
  destruct (ActionPlugin.action_answers mount_only id sample_turns sample_runner) as (_ & _ & _ & _ & H).
  - by vm_compute.
  - apply (bool_decide_unpack _). by vm_compute.
  - apply (H 4%nat "d"); [by vm_compute|by left].
Defined.

Lemma ostpool_never_resent_witness :
  OstPool.update_session (400 * SEC) json_null {| OstPool.last := 0; OstPool.output := Some json_null |} =
    ({| OstPool.last := 0; OstPool.output := Some json_null |}, None).
Proof.
  apply (OstPool.ostpool_never_resent (400 * SEC) json_null {| OstPool.last := 0; OstPool.output := Some json_null |} eq_refl).
  unfold OstPool.DEFAULT_RESEND, SEC. simpl. lia.
Defined.

End PluginWitnesses.
