(* ===== verification/DeviceService.v ===== *)
(** The device service as a whole: the messages that agents send about their
    devices ([iml-service-queue], [iml-device/src/main.rs]), the caches they are kept
    in, and the tables they end in ([iml-device/src/lib.rs]). A table is modelled as
    the statements use it: a map from the columns of its unique index to its row,
    or a list of rows where no index is used. *)
From S2P Require Import Prelude RustStd Ordering DeviceTypes Samples Devices DeviceGraph GraphSpec Change DeviceIndex IndexSpec WireTypes.
From stdpp Require Import base gmap sets list strings.
From Stdlib Require Import ZArith Ascii.

Open Scope Z_scope.

#[export] Instance TargetFsType_eq_dec : EqDecision TargetFsType.
Proof. solve_decision. Defined.
#[export] Instance Target_eq_dec : EqDecision Target.
Proof. solve_decision. Defined.

(** * The queue: [iml-service-queue] *)

Section Queue.
Context {J : Json}.

Definition data_only (m : PluginMessage) : option (string * value) :=
  match m with PmData fqdn _ _ _ body => Some (fqdn, body) | _ => None end.

(** [consume_data]: the data messages, up to the first that cannot be read (the
    error ends the service). [from_value] is [serde_json]'s. *)
Fixpoint consume_data {T} (from_value : value -> option T) (ms : list PluginMessage) :
    list (string * T) * bool :=
  match ms with
  | [] => ([], true)
  | m :: ms =>
      match data_only m with
      | None => consume_data from_value ms
      | Some (fqdn, body) =>
          match from_value body with
          | Some x => let '(xs, ok) := consume_data from_value ms in ((fqdn, x) :: xs, ok)
          | None => ([], false)
          end
      end
  end.

End Queue.

Section DeviceService.
Context {L : LibZfs}.

(** * The database *)

Record ClientMount : Type := MkClientMount { cl_mountpoints : list string; cl_state : string }.
Record ManagedTarget : Type := MkManagedTarget { mg_uuid : string; mg_state : string; mg_live : bool }.
Record ManagedFs : Type := MkManagedFs { mf_name : string; mf_state : string; mf_live : bool }.

Record Db : Type := MkDb {
  db_devices : gmap string Device;
  db_hosts : gmap string Z;
  db_client_mounts : gmap (Z * string) ClientMount;
  db_targets : gmap (string * string) Target;
  db_managed : list ManagedTarget;
  db_filesystems : list ManagedFs;
}.

Definition update_devices (host : string) (devices : Device) (db : Db) : Db :=
  MkDb (<[host := devices]> (db_devices db)) (db_hosts db) (db_client_mounts db) (db_targets db)
    (db_managed db) (db_filesystems db).

(** The file systems the host has mounted are stored; its other rows are emptied. *)
Definition update_client_mounts (host : string) (mounts : list Mount) (db : Db) : Db :=
  match db_hosts db !! host with
  | None => db
  | Some host_id =>
      let mount_map := client_mount_map mounts in
      let rows := foldl (fun rows '(fs_name, mountpoints) =>
        <[(host_id, fs_name) := MkClientMount mountpoints "mounted"]> rows)
        (db_client_mounts db) (map_to_list mount_map) in
      let rows := map_imap (fun '(h, fs_name) row =>
        Some (if Z.eqb h host_id && bool_decide (mount_map !! fs_name = None)
              then MkClientMount [] "unmounted" else row)) rows in
      MkDb (db_devices db) (db_hosts db) rows (db_targets db) (db_managed db) (db_filesystems db)
  end.

Definition create_target_cache (db : Db) : list Target := (map_to_list (db_targets db)).*2.

(** [string_to_array(s, ',')]. *)
Definition string_to_array (s : string) : list string :=
  if String.eqb s "" then [] else str_split "," s.

(** A target as its row has it: the host ids go through a [BTreeSet], the lists
    through strings. *)
Definition store_target (t : Target) : Target :=
  {| tg_state := tg_state t; tg_name := tg_name t; tg_dev_path := tg_dev_path t;
     tg_active_host_id := tg_active_host_id t; tg_host_ids := set_from false (tg_host_ids t);
     tg_filesystems := string_to_array (str_join "," (tg_filesystems t)); tg_uuid := tg_uuid t;
     tg_mount_path := tg_mount_path t; tg_fs_type := tg_fs_type t |}.

Definition row_key (t : Target) : string * string := (tg_name t, tg_uuid t).

(** [INSERT .. ON CONFLICT (name, uuid) DO UPDATE]: an error if two of the rows have
    the same key. *)
Definition upsert_targets (xs : list Target) (rows : gmap (string * string) Target) :
    option (gmap (string * string) Target) :=
  if bool_decide (NoDup (row_key <$> xs)) then
    Some (foldl (fun rows t => <[row_key t := store_target t]> rows) rows xs)
  else None.

(** Which of several updates of one uuid is taken, PostgreSQL leaves open: here the
    first. *)
Definition update_managed_targets (xs : list Target) (ms : list ManagedTarget) : list ManagedTarget :=
  (fun m => match List.find (fun t => String.eqb (tg_uuid t) (mg_uuid m)) xs with
            | Some t => if mg_live m then MkManagedTarget (mg_uuid m) (tg_state t) true else m
            | None => m
            end) <$> ms.

(** The join of the managed targets with the targets all of whose file systems are
    among [fses]. *)
Definition managed_rows (fses : list string) (db : Db) : list (string * string * list string) :=
  m ← List.filter mg_live (db_managed db);
  t ← List.filter (fun t => String.eqb (tg_uuid t) (mg_uuid m)
                            && forallb (fun f => existsb (String.eqb f) fses) (tg_filesystems t))
        (create_target_cache db);
  [(mg_state m, tg_name t, tg_filesystems t)].

Definition fs_targets (rows : list (string * string * list string)) : gmap string (gmap string string) :=
  foldl (fun acc '(state, name, filesystems) =>
    foldl (fun acc fs => <[fs := <[name := state]> (default ∅ (acc !! fs))]> acc) acc filesystems) ∅ rows.

Definition fs_state (fsname : string) (x : gmap string string) : string :=
  let is_stopped := forallb (String.eqb "unmounted") (map_to_list x).*2 in
  let is_unavailable :=
    match x !! (fsname +:+ "-MDT0000") with Some s => String.eqb s "unmounted" | None => false end in
  if is_stopped then "stopped" else if is_unavailable then "unavailable" else "available".

Definition update_managed_filesystems (fses : list string) (db : Db) : Db :=
  let states := fs_targets (managed_rows fses db) in
  MkDb (db_devices db) (db_hosts db) (db_client_mounts db) (db_targets db) (db_managed db)
    ((fun f => match states !! mf_name f with
               | Some x => if mf_live f then MkManagedFs (mf_name f) (fs_state (mf_name f) x) true else f
               | None => f
               end) <$> db_filesystems db).

(** * The service *)

Record Service : Type := MkService {
  sv_db : Db;
  sv_devices : gmap string Device;
  sv_mounts : gmap string (list Mount);
  sv_mgs : gmap string (list string);
}.

(** [create_cache]: the devices come from the database, the rest starts empty. *)
Definition service_start (db : Db) : Service :=
  {| sv_db := db; sv_devices := db_devices db; sv_mounts := ∅; sv_mgs := ∅ |}.

(** What an agent sends. *)
Record DeviceMessage : Type := MkDeviceMessage {
  dm_devices : Device;
  dm_mounts : list Mount;
  dm_mgs_fses : list string;
}.

(** The caches with a message in them, and the targets that they show. *)
Definition cache_message (host : string) (m : DeviceMessage) (sv : Service) : Service :=
  {| sv_db := update_client_mounts host (dm_mounts m) (update_devices host (dm_devices m) (sv_db sv));
     sv_devices := <[host := dm_devices m]> (sv_devices sv);
     sv_mounts := <[host := dm_mounts m]> (sv_mounts sv);
     sv_mgs := <[host := dm_mgs_fses m]> (sv_mgs sv) |}.

Definition service_targets (sv : Service) : list Target :=
  find_targets (sv_devices sv) (db_hosts (sv_db sv)) (build_device_index (map_to_list (sv_devices sv)))
    (sv_mgs sv) (map_to_list (sv_mounts sv)).

(** One turn of the loop; [None] is the error that ends it. *)
Definition service_turn (host : string) (m : DeviceMessage) (sv : Service) : option Service :=
  let sv := cache_message host m sv in
  let db := sv_db sv in
  let xs := build_updates (get_changes (service_targets sv) (create_target_cache db)) in
  let fses := elements (list_to_set (C := gset string) (xs ≫= tg_filesystems)) in
  rows ← upsert_targets xs (db_targets db);
  let db := MkDb (db_devices db) (db_hosts db) (db_client_mounts db) rows
              (update_managed_targets xs (db_managed db)) (db_filesystems db) in
  Some {| sv_db := update_managed_filesystems fses db; sv_devices := sv_devices sv;
          sv_mounts := sv_mounts sv; sv_mgs := sv_mgs sv |}.

Fixpoint service_run (ms : list (string * DeviceMessage)) (sv : Service) : option Service :=
  match ms with
  | [] => Some sv
  | (host, m) :: ms => sv' ← service_turn host m sv; service_run ms sv'
  end.

(** * Properties *)

(** ** Rows *)

Lemma foldl_insert_rows (xs : list Target) (rows : gmap (string * string) Target) k :
  NoDup (row_key <$> xs) ->
  foldl (fun rows t => <[row_key t := store_target t]> rows) rows xs !! k =
  match List.find (fun t => bool_decide (row_key t = k)) xs with
  | Some t => Some (store_target t)
  | None => rows !! k
  end.
Proof.
  revert rows. induction xs as [|x xs IH]; intros rows Hn; [done|].
  inversion_clear Hn as [|? ? Hx Hn']. simpl. rewrite IH by done. case_bool_decide as E.
  - rewrite E in Hx. destruct (List.find _ xs) as [t|] eqn:Ef; [|by rewrite <-E, lookup_insert_eq].
    apply find_some in Ef as [Ht Hk]. apply bool_decide_eq_true in Hk. destruct Hx.
    apply list_elem_of_fmap. exists t. split; [done|by apply list_elem_of_In].
  - destruct (List.find _ xs); [done|]. by rewrite lookup_insert_ne.
Qed.

Lemma upsert_targets_spec xs rows rows' : upsert_targets xs rows = Some rows' ->
  (forall t, t ∈ xs -> rows' !! row_key t = Some (store_target t)) /\
  (forall k, k ∉ row_key <$> xs -> rows' !! k = rows !! k).
Proof.
  unfold upsert_targets. case_bool_decide as Hn; [|done]. intros [= <-]. split.
  - intros t Ht. rewrite foldl_insert_rows by done.
    destruct (List.find _ xs) as [u|] eqn:Ef.
    + apply find_some in Ef as [Hu Hk]. apply bool_decide_eq_true in Hk. apply list_elem_of_In in Hu.
      apply list_elem_of_lookup in Hu as [i Hi], Ht as [j Hj]. f_equal.
      assert (i = j) as ->.
      { eapply (NoDup_lookup (row_key <$> xs)); [done|by rewrite list_lookup_fmap, Hi|].
        rewrite list_lookup_fmap, Hj. simpl. by rewrite Hk. }
      congruence.
    + apply list_elem_of_In in Ht. apply (find_none _ _ Ef) in Ht. by rewrite bool_decide_eq_false in Ht.
  - intros k Hk. rewrite foldl_insert_rows by done.
    destruct (List.find _ xs) as [u|] eqn:Ef; [|done]. apply find_some in Ef as [Hu Hx].
    apply bool_decide_eq_true in Hx as <-. destruct Hk. by apply list_elem_of_fmap_2, list_elem_of_In.
Qed.

(** What a row holds is what is stored again. *)
Lemma store_target_idem t : store_target (store_target t) = store_target t.
Proof.
  unfold store_target. simpl. f_equal.
  - apply (inj (fmap (M := list) key_of)). apply oset_wf_ext; [apply set_from_wf..|]. intros k. by rewrite !set_from_keys.
  - unfold string_to_array at 2 3. destruct (String.eqb (str_join "," (tg_filesystems t)) "") eqn:E; [done|].
    rewrite str_join_split. unfold string_to_array. by rewrite E.
Qed.

Lemma store_set_unmounted t : store_target (set_unmounted t) = set_unmounted (store_target t).
Proof. done. Qed.

(** Every row is under its key and as it would be stored. *)
Definition rows_ok (rows : gmap (string * string) Target) : Prop :=
  forall k r, rows !! k = Some r -> k = row_key r /\ store_target r = r.

Lemma cache_lookup rows t : rows_ok rows -> t ∈ (map_to_list rows).*2 <-> rows !! row_key t = Some t.
Proof.
  intros Hr. rewrite list_elem_of_fmap. split.
  - intros ([k t'] & -> & Hk%elem_of_map_to_list). simpl. by destruct (Hr k t' Hk) as [<- _].
  - intros Ht. exists (row_key t, t). by rewrite elem_of_map_to_list.
Qed.

(** ** A turn *)

Lemma build_updates_eq c : build_updates c = (set_unmounted <$> default [] c.2) ++ default [] c.1.
Proof. destruct c as [[up|] [del|]]; simpl; by rewrite ?app_nil_r. Qed.

Lemma nodup_key_inj targets x y :
  NoDup (target_key <$> targets) -> x ∈ targets -> y ∈ targets -> row_key x = row_key y -> x = y.
Proof.
  intros Ht [i Hi]%list_elem_of_lookup [j Hj]%list_elem_of_lookup Hk.
  assert (i = j) as ->; [|congruence]. apply (NoDup_lookup (target_key <$> targets) i j (target_key x)); [done|..].
  - by rewrite list_lookup_fmap, Hi.
  - rewrite list_lookup_fmap, Hj. unfold target_key. injection Hk as -> ->. done.
Qed.

(** No two of the rows that are written have the same key. *)
Lemma updates_keys targets rows :
  NoDup (target_key <$> targets) -> rows_ok rows ->
  NoDup (row_key <$> build_updates (get_changes targets (map_to_list rows).*2)).
Proof.
  intros Ht Hr. destruct (get_changes_nodup targets (map_to_list rows).*2) as [Hu Hd].
  pose proof (get_changes_elem targets (map_to_list rows).*2) as He.
  rewrite build_updates_eq, fmap_app, <-list_fmap_compose. apply NoDup_app. split_and!.
  - apply NoDup_fmap_2_strong; [|done]. intros x y Hx%He Hy%He Hk.
    destruct Hx as [Hx%(cache_lookup rows x Hr) _], Hy as [Hy%(cache_lookup rows y Hr) _].
    change (row_key x = row_key y) in Hk. congruence.
  - intros k (x & -> & [_ Hx]%He)%list_elem_of_fmap (y & Hk & [Hy _]%He)%list_elem_of_fmap.
    apply (Hx y Hy). simpl. unfold row_key in Hk. simpl in Hk. congruence.
  - apply NoDup_fmap_2_strong; [|done]. intros x y [Hx _]%He [Hy _]%He. by apply (nodup_key_inj targets).
Qed.

Lemma service_turn_sync host m sv (Hr : rows_ok (db_targets (sv_db sv))) :
  exists sv', service_turn host m sv = Some sv' /\ rows_ok (db_targets (sv_db sv')) /\
  let targets := service_targets (cache_message host m sv) in
  (forall t, t ∈ targets -> db_targets (sv_db sv') !! row_key t = Some (store_target t)) /\
  (forall k r, db_targets (sv_db sv) !! k = Some r -> (forall t, t ∈ targets -> tg_uuid t <> tg_uuid r) ->
     db_targets (sv_db sv') !! k = Some (set_unmounted r)) /\
  (forall k r, db_targets (sv_db sv) !! k = Some r -> (exists t, t ∈ targets /\ tg_uuid t = tg_uuid r) ->
     (forall t, t ∈ targets -> row_key t <> k) -> db_targets (sv_db sv') !! k = Some r).
Proof.
  set (targets := service_targets (cache_message host m sv)).
  set (rows := db_targets (sv_db sv)) in *.
  assert (db_targets (sv_db (cache_message host m sv)) = rows) as Hdb.
  { simpl. unfold update_client_mounts. by destruct (db_hosts _ !! host). }
  pose proof (updates_keys targets rows) as Hk.
  pose proof (target_updates_elem targets (map_to_list rows).*2) as He.
  set (xs := build_updates (get_changes targets (map_to_list rows).*2)) in *.
  destruct (upsert_targets xs rows) as [rows'|] eqn:Hu.
  2:{ unfold upsert_targets in Hu. rewrite bool_decide_eq_true_2 in Hu; [done|].
      exact (Hk (find_targets_keys _ _ _ _ _) Hr). }
  destruct (upsert_targets_spec xs rows rows' Hu) as [H1 H2].
  eexists. split.
  { unfold service_turn, create_target_cache. rewrite Hdb. fold targets xs. rewrite Hu. done. }
  simpl. split_and!.
  - intros k r Hkr. destruct (decide (k ∈ row_key <$> xs)) as [(t & -> & Ht)%list_elem_of_fmap|Hn].
    + rewrite (H1 t Ht) in Hkr. injection Hkr as <-. split; [done|]. apply store_target_idem.
    + rewrite (H2 k Hn) in Hkr. by apply Hr.
  - intros t Ht. destruct (decide (t ∈ xs)) as [Hx|Hx]; [by apply H1|].
    assert (t ∈ (map_to_list rows).*2) as Hold.
    { destruct (decide (t ∈ (map_to_list rows).*2)) as [|Ho]; [done|]. destruct Hx. apply He. by left. }
    apply (cache_lookup rows t Hr) in Hold. destruct (Hr _ _ Hold) as [_ Hs]. rewrite Hs.
    rewrite <-Hold. apply H2. intros (u & Hku & Hin)%list_elem_of_fmap. apply He in Hin as [[Hut Huo]|Hin].
    + assert (u = t) as ->; [|by apply Huo, (cache_lookup rows t Hr)].
      exact (nodup_key_inj targets u t (find_targets_keys _ _ _ _ _) Hut Ht (eq_sym Hku)).
    + destruct Hin as (v & Hv & -> & Hno). apply (Hno t Ht). unfold row_key in Hku. simpl in Hku. congruence.
  - intros k r Hkr Hno. destruct (Hr k r Hkr) as [-> Hs].
    change (row_key r) with (row_key (set_unmounted r)). rewrite (H1 (set_unmounted r)).
    + by rewrite store_set_unmounted, Hs.
    + apply He. right. exists r. split; [by apply (cache_lookup rows r Hr)|]. done.
  - intros k r Hkr (t & Ht & Hid) Hne. rewrite <-Hkr. apply H2.
    destruct (Hr k r Hkr) as [Hkey _].
    intros (u & Hku & Hin)%list_elem_of_fmap. apply He in Hin as [[Hut _]|Hin].
    + by apply (Hne u Hut).
    + destruct Hin as (v & Hv & -> & Hno). apply (Hno t Ht). rewrite Hkey in Hku. unfold row_key in Hku. simpl in Hku. congruence.
Qed.

(** ** The tables follow the agents *)
(** C7: when a message of a host is handled (no statement of it can fail on a
    duplicate key), every target that the hosts' messages show is stored as it is
    now, mounted on its host; every other stored target is marked unmounted, unless a
    target with the same uuid is mounted, and then its row stays as it was. Rows stay
    under their keys. *)
Theorem device_service_sync host m sv (Hr : rows_ok (db_targets (sv_db sv))) :
  exists sv', service_turn host m sv = Some sv' /\ rows_ok (db_targets (sv_db sv')) /\
  let targets := service_targets (cache_message host m sv) in
  (forall t, t ∈ targets -> db_targets (sv_db sv') !! row_key t = Some (store_target t)) /\
  (forall k r, db_targets (sv_db sv) !! k = Some r -> (forall t, t ∈ targets -> tg_uuid t <> tg_uuid r) ->
     db_targets (sv_db sv') !! k = Some (set_unmounted r)) /\
  (forall k r, db_targets (sv_db sv) !! k = Some r -> (exists t, t ∈ targets /\ tg_uuid t = tg_uuid r) ->
     (forall t, t ∈ targets -> row_key t <> k) -> db_targets (sv_db sv') !! k = Some r).
Proof. exact (service_turn_sync host m sv Hr). Qed.

(** ** A restart unmounts the other hosts' targets *)
(** The service keeps what hosts have mounted in memory only. After it has been
    restarted, the first message of any host marks every stored target unmounted whose
    uuid that host does not have mounted itself: also those that are mounted, and
    stored as mounted, on other hosts. *)
Theorem restart_unmounts db host m (Hr : rows_ok (db_targets db)) k r (Hk : db_targets db !! k = Some r)
  (Hno : forall t, t ∈ find_targets (<[host := dm_devices m]> (db_devices db)) (db_hosts db)
           (build_device_index (map_to_list (<[host := dm_devices m]> (db_devices db))))
           {[host := dm_mgs_fses m]} [(host, dm_mounts m)] -> tg_uuid t <> tg_uuid r) :
  exists sv', service_turn host m (service_start db) = Some sv' /\
    db_targets (sv_db sv') !! k = Some (set_unmounted r).
Proof.
  destruct (service_turn_sync host m (service_start db) Hr) as (sv' & Ht & _ & _ & Hun & _).
  exists sv'. split; [done|]. apply (Hun k r Hk). intros t Hin. apply Hno. revert Hin.
  unfold service_targets. cbn [sv_devices sv_mounts sv_mgs sv_db cache_message service_start].
  rewrite !insert_empty, map_to_list_singleton.
  unfold update_client_mounts, update_devices. cbn [db_hosts]. by destruct (db_hosts db !! host).
Qed.

(** ** File systems *)

Lemma foldl_fs_lookup state name fss acc fs n s :
  (exists x, foldl (fun acc fs => <[fs := <[name := state]> (default ∅ (acc !! fs))]> acc) acc fss !! fs = Some x /\
     x !! n = Some s) <->
  (fs ∈ fss /\ n = name /\ s = state) \/
  (~ (fs ∈ fss /\ n = name) /\ exists x, (acc : gmap string (gmap string string)) !! fs = Some x /\ x !! n = Some s).
Proof.
  revert acc. induction fss as [|f fss IH]; intros acc; simpl; [set_solver|]. rewrite IH. clear IH.
  destruct (decide (fs ∈ fss /\ n = name)) as [[Hin ->]|Hno]; [set_solver|].
  assert ((exists x, <[f := <[name := state]> (default ∅ (acc !! f))]> acc !! fs = Some x /\ x !! n = Some s) <->
    (fs = f /\ n = name /\ s = state) \/
    (~ (fs = f /\ n = name) /\ exists x, acc !! fs = Some x /\ x !! n = Some s)) as ->; [|set_solver].
  destruct (decide (fs = f)) as [->|Hf].
  - rewrite lookup_insert_eq. destruct (decide (n = name)) as [->|Hn].
    + split; [|naive_solver (by rewrite ?lookup_insert_eq)]. intros (x & [= <-] & Hx).
      rewrite lookup_insert_eq in Hx. naive_solver.
    + split.
      * intros (x & [= <-] & Hx). rewrite lookup_insert_ne in Hx by done. right. split; [naive_solver|].
        destruct (acc !! f) as [y|]; [eauto|done].
      * intros [[_ [? _]]|[_ (x & Hx & Hs)]]; [done|]. rewrite Hx. simpl. eexists. split; [done|].
        by rewrite lookup_insert_ne.
  - rewrite lookup_insert_ne by done. naive_solver.
Qed.

Lemma fs_targets_app rows r : fs_targets (rows ++ [r]) =
  let '(state, name, fss) := r in
  foldl (fun acc fs => <[fs := <[name := state]> (default ∅ (acc !! fs))]> acc) (fs_targets rows) fss.
Proof. unfold fs_targets. rewrite foldl_app. simpl. by destruct r as [[state name] fss]. Qed.

Lemma fs_targets_from rows fs n s :
  (exists x, fs_targets rows !! fs = Some x /\ x !! n = Some s) ->
  exists fss, (s, n, fss) ∈ rows /\ fs ∈ fss.
Proof.
  induction rows as [|[[state name] fss] rows IH] using rev_ind.
  - intros (x & Hx & _). done.
  - rewrite fs_targets_app, foldl_fs_lookup. setoid_rewrite elem_of_app.
    intros [(Hin & -> & ->)|(_ & (fss' & ? & ?)%IH)]; [|eauto].
    exists fss. split; [right; left|done].
Qed.

Lemma fs_targets_has rows fs n s fss :
  (s, n, fss) ∈ rows -> fs ∈ fss -> exists s' x, fs_targets rows !! fs = Some x /\ x !! n = Some s'.
Proof.
  intros Hin Hfs. induction rows as [|[[state name] fss'] rows IH] using rev_ind; [by apply elem_of_nil in Hin|].
  destruct (decide (fs ∈ fss' /\ n = name)) as [Hy|Hno].
  - exists state. rewrite fs_targets_app. apply foldl_fs_lookup. left. naive_solver.
  - apply elem_of_app in Hin as [Hin|[= -> -> ->]%list_elem_of_singleton]; [|naive_solver].
    destruct (IH Hin) as (s' & Hx). exists s'. rewrite fs_targets_app. apply foldl_fs_lookup. by right.
Qed.

Lemma fs_targets_nonempty rows fs x : fs_targets rows !! fs = Some x -> exists n s, x !! n = Some s.
Proof.
  revert x. induction rows as [|[[state name] fss] rows IH] using rev_ind; intros x; [done|].
  rewrite fs_targets_app. generalize (fs_targets rows) IH. clear. intros acc.
  revert acc. induction fss as [|f fss IHf]; intros acc Hacc; simpl; [apply Hacc|].
  apply IHf. intros y. destruct (decide (f = fs)) as [->|Hne].
  - rewrite lookup_insert_eq. intros [= <-]. exists name, state. by rewrite lookup_insert_eq.
  - rewrite lookup_insert_ne by done. apply Hacc.
Qed.

Lemma fs_state_stopped fs x :
  (forall n s, x !! n = Some s -> s = "unmounted") -> fs_state fs x = "stopped".
Proof.
  intros H. unfold fs_state. rewrite (proj2 (forallb_forall _ _)); [done|].
  intros s Hs%list_elem_of_In. apply list_elem_of_fmap in Hs as ([n s'] & -> & Hn%elem_of_map_to_list).
  by rewrite (H n s' Hn).
Qed.

Lemma fs_state_running fs x n s : x !! n = Some s -> s <> "unmounted" ->
  fs_state fs x = if bool_decide (x !! (fs +:+ "-MDT0000") = Some "unmounted") then "unavailable" else "available".
Proof.
  intros Hn Hs. unfold fs_state. destruct (forallb _ _) eqn:E.
  - rewrite forallb_forall in E. destruct Hs. symmetry. apply String.eqb_eq, E, list_elem_of_In.
    apply list_elem_of_fmap. exists (n, s). by rewrite elem_of_map_to_list.
  - destruct (x !! (fs +:+ "-MDT0000")) as [t|]; [|done]. destruct (String.eqb_spec t "unmounted") as [->|Ht].
    + by rewrite bool_decide_eq_true_2.
    + rewrite bool_decide_eq_false_2 by congruence. done.
Qed.

(** ** A file system's state is that of its targets *)
(** Of the file systems that a message concerns, one that none of the joined
    target rows lists keeps its state; one whose listed targets are all unmounted is
    stopped; any other is unavailable if its first MDT is unmounted, else available.
    (No two targets of a file system have the same name.) *)
Theorem filesystem_states fses db f (Hf : f ∈ db_filesystems db) (Hlive : mf_live f = true)
  (Hone : forall n s s' fss fss', (s, n, fss) ∈ managed_rows fses db -> (s', n, fss') ∈ managed_rows fses db -> s = s') :
  let listed n s := exists fss, (s, n, fss) ∈ managed_rows fses db /\ mf_name f ∈ fss in
  exists f', f' ∈ db_filesystems (update_managed_filesystems fses db) /\ mf_name f' = mf_name f /\
  ((forall n s, ~ listed n s) -> f' = f) /\
  ((exists n s, listed n s) -> (forall n s, listed n s -> s = "unmounted") -> mf_state f' = "stopped") /\
  (forall n s, listed n s -> s <> "unmounted" ->
     (listed (mf_name f +:+ "-MDT0000") "unmounted" -> mf_state f' = "unavailable") /\
     (~ listed (mf_name f +:+ "-MDT0000") "unmounted" -> mf_state f' = "available")).
Proof.
  intros listed. set (rows := managed_rows fses db) in *.
  eexists. split; [by apply list_elem_of_fmap_2, Hf|]. fold rows. rewrite Hlive.
  assert (forall n s x, fs_targets rows !! mf_name f = Some x -> x !! n = Some s <-> listed n s) as Hx.
  { intros n s x Hfx. split.
    - intros Hn. destruct (fs_targets_from rows (mf_name f) n s) as (fss & ? & ?); [eauto|]. by exists fss.
    - intros (fss & Hin & Hm). destruct (fs_targets_has rows _ _ _ _ Hin Hm) as (s' & x' & Hx' & Hn).
      rewrite Hfx in Hx'. injection Hx' as <-.
      destruct (fs_targets_from rows (mf_name f) n s') as (fss' & Hin' & _); [eauto|].
      by rewrite (Hone n s s' _ _ Hin Hin'). }
  destruct (fs_targets rows !! mf_name f) as [x|] eqn:Hfx.
  - split; [done|]. split_and!.
    + intros Hno. destruct (fs_targets_nonempty rows _ _ Hfx) as (n & s & Hn). by destruct (Hno n s); apply (Hx n s x).
    + intros _ Hall. apply fs_state_stopped. intros n s Hn%(Hx n s x); [by eapply Hall|done].
    + intros n s Hn%(Hx n s x) Hs; [|done]. simpl. rewrite (fs_state_running _ _ _ _ Hn Hs). split; intros Hm.
      * by rewrite bool_decide_eq_true_2 by (by apply (Hx _ _ x)).
      * rewrite bool_decide_eq_false_2; [done|]. by intros Hm'%(Hx _ _ x).
  - split; [done|].
    assert (forall n s, ~ listed n s) as Hno.
    { intros n s (fss & Hin & Hm). destruct (fs_targets_has rows _ _ _ _ Hin Hm) as (s' & x' & Hx' & _). congruence. }
    split_and!; [done|naive_solver|naive_solver].
Qed.

End DeviceService.

(** * Witnesses *)

Section ServiceWitnesses.

#[local] Existing Instance sample_libzfs.

Definition bare_root : Device := DRoot {| ro_children := [] |}.
Definition bare_message : DeviceMessage :=
  {| dm_devices := bare_root; dm_mounts := []; dm_mgs_fses := [] |}.

(** One OST, mounted on host 2, and its file system. *)
Definition ost_row : Target := sample_target "fs-OST0000" "u1".
Definition sample_db : Db :=
  {| db_devices := ∅; db_hosts := {["oss1" := 1; "oss2" := 2]}; db_client_mounts := ∅;
     db_targets := {[("fs-OST0000", "u1") := ost_row]};
     db_managed := [MkManagedTarget "u1" "mounted" true];
     db_filesystems := [MkManagedFs "fs" "unavailable" true] |}.

Lemma sample_rows : rows_ok (db_targets sample_db).
Proof. intros k r Hk. simpl in Hk. by apply lookup_singleton_Some in Hk as [<- <-]. Qed.

Lemma no_targets : service_targets (cache_message "oss1" bare_message (service_start sample_db)) = [].
Proof. by vm_compute. Qed.

Lemma device_service_sync_witness : exists sv',
  service_turn "oss1" bare_message (service_start sample_db) = Some sv' /\
  db_targets (sv_db sv') !! ("fs-OST0000", "u1") = Some (set_unmounted ost_row).
Proof.
  destruct (device_service_sync "oss1" bare_message (service_start sample_db) sample_rows)
    as (sv' & Ht & _ & _ & Hun & _).
  exists sv'. split; [exact Ht|]. apply (Hun ("fs-OST0000", "u1") ost_row eq_refl). intros t Hin.
  rewrite no_targets in Hin. inversion Hin.
Defined.

Lemma restart_unmounts_witness : exists sv',
  service_turn "oss1" bare_message (service_start sample_db) = Some sv' /\
  db_targets (sv_db sv') !! ("fs-OST0000", "u1") = Some (set_unmounted ost_row).
Proof.
  apply (restart_unmounts sample_db "oss1" bare_message sample_rows ("fs-OST0000", "u1") ost_row eq_refl).
  intros t Hin. change (t ∈ service_targets (cache_message "oss1" bare_message (service_start sample_db))) in Hin.
  rewrite no_targets in Hin. inversion Hin.
Defined.

Lemma sample_joined : managed_rows ["fs"] sample_db = [("mounted", "fs-OST0000", ["fs"])].
Proof. by vm_compute. Qed.

Lemma filesystem_states_witness : exists f',
  f' ∈ db_filesystems (update_managed_filesystems ["fs"] sample_db) /\ mf_state f' = "available".
Proof.
  destruct (filesystem_states ["fs"] sample_db (MkManagedFs "fs" "unavailable" true)) as (f' & Hin & _ & _ & _ & Hs).
  - left.
  - done.
  - rewrite sample_joined. intros n s s' fss fss' H1%list_elem_of_singleton H2%list_elem_of_singleton. congruence.
  - exists f'. split; [exact Hin|]. apply (Hs "fs-OST0000" "mounted").
    + exists ["fs"]. rewrite sample_joined. split; left.
    + done.
    + intros (fss & H1 & _). rewrite sample_joined in H1. by apply list_elem_of_singleton in H1.
Defined.

End ServiceWitnesses.
