(* ===== verification/OstPools.v ===== *)
(** The OST pool service, [iml-services/iml-ostpool/src/]: it brings the pools in the
    database in line with those that an agent reports. The futures that [try_join_all]
    runs together work on different pools, so they are run one after the other. *)
From S2P Require Import Prelude RustStd Ordering.
From stdpp Require Import base gmap sets list strings.
From Stdlib Require Import ZArith.

Open Scope Z_scope.

(** [OstPool], of [iml-wire-types]: ordered, and equal, by file system and name. *)
Record OstPool : Type := MkOstPool { op_name : string; op_filesystem : string; op_osts : list string }.

#[export] Instance OstPool_keyed : Keyed OstPool := fun p => KL [KS (op_filesystem p); KS (op_name p)].

(** * The database: [db.rs] *)

(** The tables that are only read, by their rows that are not deleted: the file
    systems (id and name), those of a name that have a target on the agent's host,
    and the OSTs (file system, name, id). *)
Record Tables : Type := MkTables {
  tb_filesystems : list (Z * string);
  tb_on_host : string -> list Z;
  tb_osts : list (Z * string * Z);
}.

Section OstPools.
Context (tables : Tables).

(** [None] is [Error::NotFound]. *)
Definition fsid (fsname : string) : option Z :=
  match List.filter (fun '(_, n) => String.eqb n fsname) (tb_filesystems tables) with
  | [] => None
  | [(id, _)] => Some id
  | _ => match tb_on_host tables fsname with [id] => Some id | _ => None end
  end.

Definition ostid (fs : Z) (ost : string) : option Z :=
  match List.filter (fun '(f, n, _) => Z.eqb f fs && String.eqb n ost) (tb_osts tables) with
  | [(_, _, id)] => Some id
  | _ => None
  end.

Record PoolRow : Type := MkPoolRow { pr_name : string; pr_fs : Z; pr_live : bool }.

(** The pools, the OSTs of each pool, row by row, and the next id. *)
Record Db : Type := MkDb {
  pools : gmap Z PoolRow;
  members : gmap Z (list Z);
  next_id : Z;
}.

Definition is_pool (fs : Z) (pn : string) (r : PoolRow) : bool :=
  pr_live r && Z.eqb (pr_fs r) fs && String.eqb (pr_name r) pn.

(** [query_one] gives nothing unless there is exactly one row. *)
Definition poolid (fs : Z) (pn : string) (db : Db) : option Z :=
  match List.filter (fun '(_, r) => is_pool fs pn r) (map_to_list (pools db)) with
  | [(i, _)] => Some i
  | _ => None
  end.

(** The pools of a file system, without their OSTs. *)
Definition poolset (fsname : string) (fs : Z) (db : Db) : list OstPool :=
  set_from false
    ((fun '(_, r) => MkOstPool (pr_name r) fsname []) <$>
       List.filter (fun '(_, r) => pr_live r && Z.eqb (pr_fs r) fs) (map_to_list (pools db))).

Definition create (fs : Z) (pn : string) (db : Db) : Z * Db :=
  (next_id db, MkDb (<[next_id db := MkPoolRow pn fs true]> (pools db)) (members db) (next_id db + 1)).

Definition delete_pool (fs : Z) (pn : string) (db : Db) : Db :=
  MkDb ((fun r => if Z.eqb (pr_fs r) fs && String.eqb (pr_name r) pn
                  then MkPoolRow (pr_name r) (pr_fs r) false else r) <$> pools db)
    (members db) (next_id db).

Definition pool_rows (id : Z) (db : Db) : list Z := default [] (members db !! id).

Definition set_rows (id : Z) (rows : list Z) (db : Db) : Db :=
  MkDb (pools db) (<[id := rows]> (members db)) (next_id db).

(** The row is only inserted when [query_one] does not find it. *)
Definition grow_rows (o : Z) (rows : list Z) : list Z :=
  match List.filter (Z.eqb o) rows with [_] => rows | _ => rows ++ [o] end.

Definition grow (fs id : Z) (osts : list string) (db : Db) : Db :=
  set_rows id (foldl (fun rows o => match ostid fs o with Some o => grow_rows o rows | None => rows end)
                 (pool_rows id db) osts) db.

Definition shrink (fs id : Z) (osts : list string) (db : Db) : Db :=
  set_rows id (foldl (fun rows o => match ostid fs o with
                                    | Some o => List.filter (fun x => negb (Z.eqb o x)) rows
                                    | None => rows
                                    end) (pool_rows id db) osts) db.

(** [diff]: OSTs that are not there are inserted, those that are not named deleted.
    The set [current] loses what it is asked for. *)
Definition diff_step (fs : Z) (acc : gset Z * list Z) (o : string) : gset Z * list Z :=
  let '(current, rows) := acc in
  match ostid fs o with
  | Some o => if bool_decide (o ∈ current) then (current ∖ {[o]}, rows) else (current, rows ++ [o])
  | None => acc
  end.

Definition diff_rows (fs : Z) (osts : list string) (rows : list Z) : list Z :=
  let '(current, rows) := foldl (diff_step fs) (list_to_set rows, rows) osts in
  List.filter (fun x => negb (bool_decide (x ∈ current))) rows.

Definition diff (fs id : Z) (osts : list string) (db : Db) : Db :=
  set_rows id (diff_rows fs osts (pool_rows id db)) db.

(** * The service: [main.rs] *)

Definition add_pool (fs : Z) (db : Db) (p : OstPool) : Db :=
  let '(id, db) := create fs (op_name p) db in grow fs id (op_osts p) db.

Definition remove_pool (fs : Z) (db : Db) (p : OstPool) : Db :=
  match poolid fs (op_name p) db with
  | Some id => delete_pool fs (op_name p) (shrink fs id (op_osts p) db)
  | None => db
  end.

Definition update_pool (fs : Z) (db : Db) (p : OstPool) : Db :=
  match poolid fs (op_name p) db with
  | Some id => diff fs id (op_osts p) db
  | None => db
  end.

(** [oldpoolset.get(&pool)]. *)
Definition get_pool (p : OstPool) (l : list OstPool) : option OstPool := List.find (eqvb p) l.

Definition changed_pools (old new : list OstPool) : list OstPool :=
  List.filter (fun p => match get_pool p old with
                        | Some o => negb (bool_decide (op_osts o = op_osts p))
                        | None => false
                        end) new.

Definition process_fs (fsname : string) (newpoolset : list OstPool) (db : Db) : Db :=
  match fsid fsname with
  | None => db
  | Some fs =>
      let oldpoolset := poolset fsname fs db in
      let addset := set_difference newpoolset oldpoolset in
      let db := foldl (add_pool fs) db addset in
      let db := foldl (remove_pool fs) db (set_difference oldpoolset newpoolset) in
      foldl (update_pool fs) db (changed_pools oldpoolset (set_difference newpoolset addset))
  end.

Definition process_message (fspools : list (string * list OstPool)) (db : Db) : Db :=
  foldl (fun db '(fsname, ps) => process_fs fsname ps db) db fspools.

(** * The pools as a map *)

(** A pool's rows, by file system and name. *)
Definition view (fs : Z) (pn : string) (db : Db) : option (list Z) :=
  (fun id => pool_rows id db) <$> poolid fs pn db.

(** Ids are below the next one, and a live pool is the only one of its name. *)
Record db_ok (db : Db) : Prop := {
  ok_next i : is_Some (pools db !! i) -> i < next_id db;
  ok_members i : is_Some (members db !! i) -> i < next_id db;
  ok_unique i j r s fs pn : pools db !! i = Some r -> pools db !! j = Some s ->
    is_pool fs pn r = true -> is_pool fs pn s = true -> i = j;
}.

Definition refines (db : Db) (m : gmap (Z * string) (list Z)) : Prop :=
  db_ok db /\ forall fs pn, m !! (fs, pn) = view fs pn db.

Lemma singleton_list {A} (l : list A) x : NoDup l -> x ∈ l -> (forall y, y ∈ l -> y = x) -> l = [x].
Proof.
  intros Hn Hx Hall. destruct l as [|y l]; [by apply elem_of_nil in Hx|].
  rewrite (Hall y) in * by left. destruct l as [|z l]; [done|].
  rewrite (Hall z) in * by (right; left). inversion_clear Hn as [|? ? Hy]. destruct Hy. left.
Qed.

Lemma poolid_Some fs pn db i : db_ok db ->
  poolid fs pn db = Some i <-> exists r, pools db !! i = Some r /\ is_pool fs pn r = true.
Proof.
  intros Hok. unfold poolid. set (l := List.filter _ _).
  assert (forall j s, (j, s) ∈ l <-> pools db !! j = Some s /\ is_pool fs pn s = true) as Hl.
  { intros j s. unfold l. by rewrite elem_of_filter_fn, elem_of_map_to_list. }
  split.
  - destruct l as [|[j s] [|]]; try done. intros [= ->]. exists s. apply Hl. left.
  - intros (r & Hr & Hp). rewrite (singleton_list l (i, r)); [done|..].
    + unfold l. rewrite NoDup_ListNoDup. apply List.NoDup_filter. rewrite <-NoDup_ListNoDup. apply NoDup_map_to_list.
    + by apply Hl.
    + intros [j s] [Hs Hq]%Hl. assert (j = i) as -> by (by eapply ok_unique). congruence.
Qed.

Lemma poolid_None fs pn db : db_ok db ->
  poolid fs pn db = None <-> forall i r, pools db !! i = Some r -> is_pool fs pn r = false.
Proof.
  intros Hok. split.
  - intros Hn i r Hr. destruct (is_pool fs pn r) eqn:E; [|done].
    rewrite (proj2 (poolid_Some fs pn db i Hok)) in Hn by eauto. done.
  - intros Hn. destruct (poolid fs pn db) as [i|] eqn:E; [|done].
    apply poolid_Some in E as (r & Hr & Hp); [|done]. by rewrite (Hn i r Hr) in Hp.
Qed.

Lemma is_pool_iff fs pn r : is_pool fs pn r = true <-> pr_live r = true /\ pr_fs r = fs /\ pr_name r = pn.
Proof. unfold is_pool. rewrite !andb_true_iff, Z.eqb_eq, String.eqb_eq. tauto. Qed.

(** Databases with the same ids for the same pools. *)
Lemma view_ext fs pn db db' : db_ok db -> db_ok db' ->
  (forall i, (exists r, pools db !! i = Some r /\ is_pool fs pn r = true) <->
             (exists r, pools db' !! i = Some r /\ is_pool fs pn r = true)) ->
  (forall i, poolid fs pn db = Some i -> members db' !! i = members db !! i) ->
  view fs pn db' = view fs pn db.
Proof.
  intros H1 H2 He Hm. unfold view, pool_rows. destruct (poolid fs pn db) as [i|] eqn:E.
  - rewrite (proj2 (poolid_Some fs pn db' i H2)) by (by apply He, poolid_Some). simpl. by rewrite Hm.
  - destruct (poolid fs pn db') as [i|] eqn:E'; [|done].
    apply poolid_Some in E'; [|done]. apply He, poolid_Some in E'; [|done]. congruence.
Qed.

(** ** Each operation on the map *)

Lemma add_pool_refines fs p db m : refines db m -> m !! (fs, op_name p) = None ->
  refines (add_pool fs db p)
    (<[(fs, op_name p) := foldl (fun rows o => match ostid fs o with Some o => grow_rows o rows | None => rows end)
         [] (op_osts p)]> m).
Proof.
  intros [Hok Hv] Hnone. rewrite Hv in Hnone. unfold view in Hnone.
  apply fmap_None in Hnone. rewrite poolid_None in Hnone by done.
  assert (members db !! next_id db = None) as Hmem.
  { destruct (members db !! next_id db) eqn:E; [|done].
    pose proof (ok_members db Hok (next_id db) (ex_intro _ _ E)). lia. }
  assert (pools db !! next_id db = None) as Hpool.
  { destruct (pools db !! next_id db) eqn:E; [|done].
    pose proof (ok_next db Hok (next_id db) (ex_intro _ _ E)). lia. }
  assert (db_ok (add_pool fs db p)) as Hok'.
  { destruct Hok as [H1 H2 H3]. split; simpl.
    - intros i. destruct (decide (i = next_id db)) as [->|Hi]; [lia|]. rewrite lookup_insert_ne by done.
      intros ?%H1. lia.
    - intros i. destruct (decide (i = next_id db)) as [->|Hi]; [lia|]. rewrite lookup_insert_ne by done.
      intros ?%H2. lia.
    - intros i j r s fs' pn'. destruct (decide (i = next_id db)) as [->|Hi], (decide (j = next_id db)) as [->|Hj]; [done|..];
        rewrite ?lookup_insert_eq; repeat rewrite lookup_insert_ne by done.
      + intros [= <-] Hs (_ & <- & <-)%is_pool_iff Hq. simpl in Hq. by rewrite (Hnone j s Hs) in Hq.
      + intros Hr [= <-] Hq (_ & <- & <-)%is_pool_iff. simpl in Hq. by rewrite (Hnone i r Hr) in Hq.
      + by apply H3. }
  split; [done|]. intros fs' pn'. destruct (decide ((fs', pn') = (fs, op_name p))) as [[= -> ->]|Hne].
  - rewrite lookup_insert_eq. unfold view.
    rewrite (proj2 (poolid_Some fs (op_name p) _ (next_id db) Hok')).
    + unfold pool_rows, add_pool, create, grow, set_rows, pool_rows. simpl. rewrite lookup_insert_eq. by rewrite Hmem.
    + simpl. exists (MkPoolRow (op_name p) fs true). rewrite lookup_insert_eq. split; [done|]. by apply is_pool_iff.
  - rewrite lookup_insert_ne, Hv by done. symmetry. apply view_ext; [done|done|..]; simpl.
    + intros i. destruct (decide (i = next_id db)) as [->|Hi]; [|by rewrite lookup_insert_ne].
      rewrite lookup_insert_eq, Hpool. split; [naive_solver|]. intros (r & [= <-] & (_ & ? & ?)%is_pool_iff).
      simpl in *. congruence.
    + intros i (r & Hr & _)%poolid_Some; [|done]. apply lookup_insert_ne. intros <-. congruence.
Qed.

Lemma set_rows_ok id rows db : db_ok db -> is_Some (pools db !! id) -> db_ok (set_rows id rows db).
Proof.
  intros [H1 H2 H3] Hid. split; simpl; [done| |done]. intros i.
  destruct (decide (i = id)) as [->|Hi]; [by auto|]. rewrite lookup_insert_ne by done. auto.
Qed.

Lemma set_rows_view id rows db fs pn : db_ok db -> is_Some (pools db !! id) ->
  view fs pn (set_rows id rows db) = if bool_decide (poolid fs pn db = Some id) then Some rows else view fs pn db.
Proof.
  intros Hok Hid. case_bool_decide as E.
  - unfold view. change (poolid fs pn (set_rows id rows db)) with (poolid fs pn db). rewrite E. simpl.
    unfold pool_rows. simpl. by rewrite lookup_insert_eq.
  - apply view_ext; [done|by apply set_rows_ok|done|]. simpl. intros i Hi. apply lookup_insert_ne. congruence.
Qed.

Lemma update_pool_refines fs p db m : refines db m ->
  refines (update_pool fs db p) (alter (diff_rows fs (op_osts p)) (fs, op_name p) m).
Proof.
  intros [Hok Hv]. unfold update_pool. destruct (poolid fs (op_name p) db) as [id|] eqn:E.
  - apply poolid_Some in E as Hid; [|done]. destruct Hid as (r & Hr & Hp).
    split; [apply set_rows_ok; [done|eauto]|]. intros fs' pn'. unfold diff. rewrite set_rows_view by (done || eauto).
    case_bool_decide as E'.
    + assert ((fs', pn') = (fs, op_name p)) as [= -> ->].
      { apply poolid_Some in E' as (r' & Hr' & Hp'); [|done]. rewrite Hr in Hr'. injection Hr' as <-.
        apply is_pool_iff in Hp as (_ & <- & <-), Hp' as (_ & <- & <-). done. }
      rewrite lookup_alter_eq, Hv. unfold view. by rewrite E.
    + rewrite lookup_alter_ne; [apply Hv|]. intros [= <- <-]. done.
  - split; [done|]. intros fs' pn'. destruct (decide ((fs, op_name p) = (fs', pn'))) as [[= <- <-]|Hne].
    + rewrite lookup_alter_eq, Hv. unfold view. by rewrite E.
    + rewrite lookup_alter_ne by done. apply Hv.
Qed.

Lemma delete_pool_refines fs pn db m : refines db m -> refines (delete_pool fs pn db) (delete (fs, pn) m).
Proof.
  intros [Hok Hv].
  assert (forall i r fs' pn', pools (delete_pool fs pn db) !! i = Some r -> is_pool fs' pn' r = true ->
    pools db !! i = Some r /\ (fs', pn') <> (fs, pn)) as Hold.
  { intros i r fs' pn'. simpl. rewrite lookup_fmap. intros (r0 & Hr0 & Hr)%fmap_Some Hp.
    destruct (_ && _) eqn:E in Hr; subst; [by apply is_pool_iff in Hp as [? _]|]. split; [done|].
    apply is_pool_iff in Hp as (_ & <- & <-). intros [= <- <-]. by rewrite Z.eqb_refl, String.eqb_refl in E. }
  assert (db_ok (delete_pool fs pn db)) as Hok'.
  { destruct Hok as [H1 H2 H3]. split.
    - intros i Hi. simpl in Hi. rewrite lookup_fmap, fmap_is_Some in Hi. by apply H1.
    - apply H2.
    - intros i j r s fs' pn' Hi Hj Hr Hs. destruct (Hold i r fs' pn' Hi Hr) as [? _], (Hold j s fs' pn' Hj Hs) as [? _].
      by eapply H3. }
  split; [done|]. intros fs' pn'. destruct (decide ((fs, pn) = (fs', pn'))) as [[= <- <-]|Hne].
  - rewrite lookup_delete_eq. symmetry. unfold view. apply fmap_None, poolid_None; [done|].
    intros i r Hr. destruct (is_pool fs pn r) eqn:E; [|done]. by destruct (Hold i r fs pn Hr E).
  - rewrite lookup_delete_ne, Hv by done. symmetry. apply view_ext; [done|done| |done].
    intros i. split; [|intros (r & Hr & Hp); destruct (Hold i r fs' pn' Hr Hp); eauto].
    intros (r & Hr & Hp). exists r. split; [|done]. simpl. rewrite lookup_fmap, Hr. simpl.
    destruct (_ && _) eqn:E; [|done]. apply andb_true_iff in E as [Hf%Z.eqb_eq Hn%String.eqb_eq].
    apply is_pool_iff in Hp as (_ & <- & <-). by rewrite Hf, Hn in Hne.
Qed.

Lemma remove_pool_refines fs p db m : refines db m ->
  refines (remove_pool fs db p) (delete (fs, op_name p) m).
Proof.
  intros [Hok Hv]. unfold remove_pool. destruct (poolid fs (op_name p) db) as [id|] eqn:E.
  - apply poolid_Some in E as Hid; [|done]. destruct Hid as (r & Hr & Hp). unfold shrink.
    set (rows := foldl _ _ _).
    assert (refines (set_rows id rows db) (<[(fs, op_name p) := rows]> m)) as Hs.
    { split; [apply set_rows_ok; [done|eauto]|]. intros fs' pn'. rewrite set_rows_view by (done || eauto).
      case_bool_decide as E'.
      - assert ((fs', pn') = (fs, op_name p)) as [= -> ->]; [|by rewrite lookup_insert_eq].
        apply poolid_Some in E' as (r' & Hr' & Hp'); [|done]. rewrite Hr in Hr'. injection Hr' as <-.
        apply is_pool_iff in Hp as (_ & <- & <-), Hp' as (_ & <- & <-). done.
      - rewrite lookup_insert_ne; [apply Hv|]. intros [= <- <-]. done. }
    apply delete_pool_refines with (fs := fs) (pn := op_name p) in Hs. by rewrite delete_insert_eq in Hs.
  - split; [done|]. intros fs' pn'. destruct (decide ((fs, op_name p) = (fs', pn'))) as [[= <- <-]|Hne].
    + rewrite lookup_delete_eq. unfold view. by rewrite E.
    + rewrite lookup_delete_ne by done. apply Hv.
Qed.

(** * What a report should do *)

Definition new_rows (fs : Z) (osts : list string) : list Z :=
  foldl (fun rows o => match ostid fs o with Some o => grow_rows o rows | None => rows end) [] osts.

(** The pools of the file system become the reported ones: new ones get their OSTs,
    known ones theirs in place of what they had, unless the report has none. *)
Definition reconcile (fs : Z) (new : list OstPool) (m : gmap (Z * string) (list Z)) (n : string) : option (list Z) :=
  p ← List.find (fun p => String.eqb (op_name p) n) new;
  Some match m !! (fs, n) with
       | None => new_rows fs (op_osts p)
       | Some rows => if bool_decide (op_osts p = []) then rows else diff_rows fs (op_osts p) rows
       end.

(** A fold of changes of a map, each at the pool's name. *)
Lemma foldl_pools (f : OstPool -> option (list Z) -> option (list Z)) fs l m k :
  NoDup (op_name <$> l) ->
  foldl (fun m p => partial_alter (f p) (fs, op_name p) m) m l !! k =
  match List.find (fun p => bool_decide ((fs, op_name p) = k)) l with
  | Some p => f p (m !! k)
  | None => (m : gmap (Z * string) (list Z)) !! k
  end.
Proof.
  revert m. induction l as [|p l IH]; intros m Hn; [done|]. inversion_clear Hn as [|? ? Hp Hn']. simpl.
  rewrite IH by done. case_bool_decide as E.
  - subst k. rewrite lookup_partial_alter_eq. destruct (List.find _ l) as [q|] eqn:Ef; [|done].
    apply find_some in Ef as [Hq Hk]. apply bool_decide_eq_true in Hk. injection Hk as Hk. destruct Hp.
    apply list_elem_of_fmap. exists q. split; [by symmetry|by apply list_elem_of_In].
  - destruct (List.find _ l); by rewrite lookup_partial_alter_ne.
Qed.

Lemma foldl_refines (g : Db -> OstPool -> Db) (f : OstPool -> option (list Z) -> option (list Z)) fs l db m :
  NoDup (op_name <$> l) ->
  (forall db m' p, p ∈ l -> m' !! (fs, op_name p) = m !! (fs, op_name p) -> refines db m' ->
     refines (g db p) (partial_alter (f p) (fs, op_name p) m')) ->
  refines db m ->
  refines (foldl g db l) (foldl (fun m p => partial_alter (f p) (fs, op_name p) m) m l).
Proof.
  revert db m. induction l as [|p l IH]; intros db m Hn Hg Hr; [done|]. inversion_clear Hn as [|? ? Hp Hn'].
  simpl. apply IH; [done| |apply Hg; [left|done|done]].
  intros db' m' q Hq Hm. apply Hg; [by right|]. rewrite Hm, lookup_partial_alter_ne; [done|].
  intros [= E]. apply Hp. rewrite E. by apply list_elem_of_fmap_2.
Qed.

(** ** Pool sets *)

(** What a report looks like: a set of pools of one file system. *)
Record report (fsname : string) (l : list OstPool) : Prop := {
  rp_wf : oset_wf l;
  rp_fs p : p ∈ l -> op_filesystem p = fsname;
}.

Lemma report_keys fsname l p : report fsname l -> op_filesystem p = fsname ->
  key_of p ∈ (key_of <$> l) <-> op_name p ∈ op_name <$> l.
Proof.
  intros [_ Hf] Hp. rewrite !list_elem_of_fmap. split.
  - intros (q & Hk & Hq). exists q. split; [by injection Hk|done].
  - intros (q & Hk & Hq). exists q. split; [|done]. unfold key_of, OstPool_keyed. by rewrite (Hf q Hq), Hp, Hk.
Qed.

Lemma report_nodup fsname l : report fsname l -> NoDup (op_name <$> l).
Proof.
  intros [Hw Hf]. apply klt_sorted_nodup in Hw. apply NoDup_fmap_2_strong; [|by eapply NoDup_fmap_1].
  intros p q [i Hi]%list_elem_of_lookup [j Hj]%list_elem_of_lookup Hn.
  assert (i = j) as ->; [|congruence]. apply (NoDup_lookup (key_of <$> l) i j (key_of p)); [done|..].
  - by rewrite list_lookup_fmap, Hi.
  - rewrite list_lookup_fmap, Hj. simpl. f_equal. unfold key_of, OstPool_keyed.
    rewrite (Hf p), (Hf q), Hn; [done|by eapply list_elem_of_lookup_2..].
Qed.

Lemma report_filter fsname l (P : OstPool -> bool) : report fsname l -> NoDup (op_name <$> List.filter P l).
Proof.
  intros Hr%report_nodup. induction l as [|p l IH]; [done|]. inversion_clear Hr as [|? ? Hp Hr']. simpl.
  destruct (P p); [|auto]. constructor; [|auto]. intros (q & Hq & Hin)%list_elem_of_fmap. apply Hp.
  apply elem_of_filter_fn in Hin as [Hin _]. rewrite Hq. by apply list_elem_of_fmap_2.
Qed.

Lemma poolset_report fsname fs db : report fsname (poolset fsname fs db).
Proof.
  split; [apply set_from_wf|]. intros p Hp%elem_of_set_from.
  by apply list_elem_of_fmap in Hp as ([i r] & -> & _).
Qed.

Lemma poolset_names fsname fs db m n : refines db m ->
  n ∈ op_name <$> poolset fsname fs db <-> is_Some (m !! (fs, n)).
Proof.
  intros [Hok Hv]. rewrite Hv. unfold view. rewrite fmap_is_Some.
  rewrite <-(report_keys fsname _ (MkOstPool n fsname [])) by (done || apply poolset_report).
  unfold poolset. rewrite set_from_keys, list_elem_of_fmap. split.
  - intros (p & Hk & ([i r] & -> & Hin)%list_elem_of_fmap). injection Hk as Hk.
    apply elem_of_filter_fn in Hin as [Hin Hl]. apply andb_true_iff in Hl as [Hl Hf%Z.eqb_eq].
    exists i. apply poolid_Some; [done|]. exists r. split; [by apply elem_of_map_to_list|]. by apply is_pool_iff.
  - intros [i (r & Hr & Hp)%poolid_Some]; [|done]. exists (MkOstPool n fsname []). split; [done|].
    apply list_elem_of_fmap. exists (i, r). apply is_pool_iff in Hp as (Hl & <- & <-). split; [done|].
    apply elem_of_filter_fn. split; [by apply elem_of_map_to_list|]. by rewrite Hl, Z.eqb_refl.
Qed.

Lemma poolset_no_osts fsname fs db p : p ∈ poolset fsname fs db -> op_osts p = [].
Proof. intros Hp%elem_of_set_from. by apply list_elem_of_fmap in Hp as ([i r] & -> & _). Qed.

(** ** Looking a pool up by name *)

Definition by_name (n : string) (l : list OstPool) : option OstPool :=
  List.find (fun p => String.eqb (op_name p) n) l.

Lemma by_name_Some n l p : by_name n l = Some p -> p ∈ l /\ op_name p = n.
Proof. intros [Hp Hn%String.eqb_eq]%find_some. by rewrite list_elem_of_In. Qed.

Lemma by_name_None n l : by_name n l = None <-> n ∉ op_name <$> l.
Proof.
  split.
  - intros Hn (p & -> & Hp)%list_elem_of_fmap. apply list_elem_of_In, (find_none _ _ Hn) in Hp.
    by rewrite String.eqb_refl in Hp.
  - intros Hn. destruct (by_name n l) as [p|] eqn:E; [|done]. apply by_name_Some in E as [Hp <-].
    destruct Hn. by apply list_elem_of_fmap_2.
Qed.

Lemma by_name_filter n l (P : OstPool -> bool) : NoDup (op_name <$> l) ->
  by_name n (List.filter P l) = p ← by_name n l; if P p then Some p else None.
Proof.
  unfold by_name. induction l as [|p l IH]; intros Hn; [done|]. inversion_clear Hn as [|? ? Hp Hn']. simpl.
  destruct (P p) eqn:Hpp; simpl; destruct (String.eqb_spec (op_name p) n) as [<-|Hne]; simpl; rewrite ?Hpp; auto.
  rewrite IH by done. fold (by_name (op_name p) l). by rewrite (proj2 (by_name_None (op_name p) l) Hp).
Qed.

Lemma by_name_elem fsname l p : report fsname l -> p ∈ l -> by_name (op_name p) l = Some p.
Proof.
  intros Hl Hp. destruct (by_name (op_name p) l) as [q|] eqn:Hq.
  - apply by_name_Some in Hq as [Hq Hn]. f_equal. pose proof (report_nodup fsname l Hl) as Hnd.
    apply list_elem_of_lookup in Hp as [i Hi], Hq as [j Hj].
    assert (i = j) as ->; [|congruence]. apply (NoDup_lookup (op_name <$> l) i j (op_name p)); [done|..].
    + by rewrite list_lookup_fmap, Hi.
    + by rewrite list_lookup_fmap, Hj, <-Hn.
  - apply by_name_None in Hq. destruct Hq. by apply list_elem_of_fmap_2.
Qed.

(** [foldl_pools] at a name of the file system, and at another file system. *)
Lemma foldl_pools_name (f : OstPool -> option (list Z) -> option (list Z)) (fs : Z) (l : list OstPool) (m : gmap (Z * string) (list Z)) n : NoDup (op_name <$> l) ->
  foldl (fun m p => partial_alter (f p) (fs, op_name p) m) m l !! (fs, n) =
  match by_name n l with Some p => f p (m !! (fs, n)) | None => m !! (fs, n) end.
Proof.
  intros Hn. rewrite foldl_pools by done. unfold by_name.
  assert (List.find (fun p => bool_decide ((fs, op_name p) = (fs, n))) l =
          List.find (fun p => String.eqb (op_name p) n) l) as ->; [|done].
  clear. induction l as [|p l IH]; [done|]. simpl. rewrite IH.
  destruct (String.eqb_spec (op_name p) n) as [->|Hne]; case_bool_decide; congruence.
Qed.

Lemma foldl_pools_other (f : OstPool -> option (list Z) -> option (list Z)) (fs : Z) (l : list OstPool) (m : gmap (Z * string) (list Z)) fs' n : NoDup (op_name <$> l) -> fs' <> fs ->
  foldl (fun m p => partial_alter (f p) (fs, op_name p) m) m l !! (fs', n) = m !! (fs', n).
Proof.
  intros Hn Hne. rewrite foldl_pools by done. destruct (List.find _ l) as [p|] eqn:E; [|done].
  apply find_some in E as [_ E%bool_decide_eq_true]. congruence.
Qed.

Lemma process_fs_refines fsname fs new db m :
  fsid fsname = Some fs -> report fsname new -> refines db m ->
  exists m', refines (process_fs fsname new db) m' /\
    (forall n, m' !! (fs, n) = reconcile fs new m n) /\
    (forall fs' n, fs' <> fs -> m' !! (fs', n) = m !! (fs', n)).
Proof.
  intros Hfs Hnew Hr. unfold process_fs. rewrite Hfs. cbv zeta.
  set (old := poolset fsname fs db). set (addset := set_difference new old).
  pose proof (poolset_report fsname fs db) as Hold. fold old in Hold.
  assert (forall p, p ∈ new -> set_contains p old = bool_decide (is_Some (m !! (fs, op_name p)))) as Hin_old.
  { intros p Hp. apply eq_true_iff_eq. rewrite set_contains_spec, bool_decide_eq_true.
    rewrite (report_keys fsname old p Hold) by (by apply (rp_fs _ _ Hnew)). by apply poolset_names. }
  assert (forall p, p ∈ old -> set_contains p new = true <-> op_name p ∈ op_name <$> new) as Hin_new.
  { intros p Hp. rewrite set_contains_spec. apply (report_keys fsname); [done|]. by apply (rp_fs _ _ Hold). }
  assert (forall p, p ∈ new -> set_contains p addset = negb (set_contains p old)) as Hin_add.
  { intros p Hp. apply eq_true_iff_eq. rewrite negb_true_iff, set_contains_spec, list_elem_of_fmap. unfold addset, set_difference.
    setoid_rewrite elem_of_filter_fn. split.
    - intros (q & Hk & Hq & Hc%negb_true_iff). rewrite <-Hc. apply eq_true_iff_eq. by rewrite !set_contains_spec, Hk.
    - intros Hc. exists p. by rewrite Hc. }
  set (upd := changed_pools old (set_difference new addset)).
  assert (NoDup (op_name <$> addset)) as Hna by (by eapply report_filter).
  assert (NoDup (op_name <$> set_difference old new)) as Hnr by (by eapply report_filter).
  assert (NoDup (op_name <$> set_difference new addset)) as Hnd by (by eapply report_filter).
  assert (NoDup (op_name <$> upd)) as Hnu.
  { unfold upd, changed_pools. clear -Hnd. induction (set_difference new addset) as [|p l IH]; [done|].
    inversion_clear Hnd as [|? ? Hp Hn]. cbn [List.filter]. destruct (match get_pool p old with Some _ => _ | _ => _ end); [|auto].
    constructor; [|auto]. intros (q & Hq & [Hin _]%elem_of_filter_fn)%list_elem_of_fmap. apply Hp. rewrite Hq.
    by apply list_elem_of_fmap_2. }
  pose proof (foldl_refines (add_pool fs) (fun p _ => Some (new_rows fs (op_osts p))) fs addset db m Hna) as H1.
  destruct H1 as [Hok1 Hv1].
  { intros db' m' p [Hp Hc]%elem_of_filter_fn Hm Hr'. apply add_pool_refines; [done|].
    rewrite Hm. rewrite (Hin_old p Hp), negb_true_iff, bool_decide_eq_false in Hc.
    by apply eq_None_not_Some. }
  { done. }
  pose proof (foldl_refines (remove_pool fs) (fun p _ => None) fs (set_difference old new) _ _ Hnr
    (fun db' m' p _ _ H => remove_pool_refines fs p db' m' H) (conj Hok1 Hv1)) as H2.
  pose proof (foldl_refines (update_pool fs) (fun p => fmap (diff_rows fs (op_osts p))) fs upd _ _ Hnu
    (fun db' m' p _ _ H => update_pool_refines fs p db' m' H) H2) as H3.
  eexists. split; [exact H3|]. split.
  2:{ intros fs' n Hne. by rewrite !foldl_pools_other. }
  intros n. rewrite !foldl_pools_name by done. unfold reconcile. fold (by_name n new).
  assert (by_name n addset = p ← by_name n new; if negb (set_contains p old) then Some p else None) as ->
    by (by apply by_name_filter, (report_nodup fsname)).
  assert (by_name n (set_difference old new) = p ← by_name n old; if negb (set_contains p new) then Some p else None) as ->
    by (by apply by_name_filter, (report_nodup fsname)).
  assert (by_name n upd = p ← by_name n new; if negb (set_contains p addset)
            then (if bool_decide (op_osts p = []) then None else Some p) else None) as ->.
  { unfold upd, changed_pools. rewrite by_name_filter by done. unfold set_difference.
    rewrite by_name_filter by (by apply (report_nodup fsname)).
    destruct (by_name n new) as [p|] eqn:Hp; [|done]. simpl. apply by_name_Some in Hp as [Hp _].
    rewrite (Hin_add p Hp), negb_involutive. destruct (set_contains p old) eqn:Hc; [|done]. simpl.
    unfold get_pool. destruct (List.find (eqvb p) old) as [o|] eqn:Ho.
    - apply find_some in Ho as [Ho _]. rewrite (poolset_no_osts fsname fs db o) by (by apply list_elem_of_In).
      destruct (op_osts p); by repeat case_bool_decide.
    - unfold set_contains in Hc. apply existsb_exists in Hc as (o & Ho' & Hc). by rewrite (find_none _ _ Ho o Ho') in Hc. }
  destruct (by_name n new) as [p|] eqn:Hp; cbn [mbind option_bind].
  - apply by_name_Some in Hp as [Hp Hpn]. subst n. rewrite (Hin_add p Hp), negb_involutive, (Hin_old p Hp).
    assert ((q ← by_name (op_name p) old; if negb (set_contains q new) then Some q else None) = None) as ->.
    { destruct (by_name (op_name p) old) as [q|] eqn:Hq; [|done]. simpl. apply by_name_Some in Hq as [Hq Hqn].
      rewrite (proj2 (Hin_new q Hq)); [done|]. rewrite Hqn. by apply list_elem_of_fmap_2. }
    destruct (m !! (fs, op_name p)) as [rows|] eqn:Hm.
    + rewrite bool_decide_eq_true_2 by eauto. simpl. by case_bool_decide.
    + rewrite bool_decide_eq_false_2 by (by intros []). done.
  - apply by_name_None in Hp. destruct (by_name n old) as [q|] eqn:Hq; simpl.
    + apply by_name_Some in Hq as [Hq Hqn]. destruct (set_contains q new) eqn:Hc; [|done].
      apply Hin_new in Hc; [|done]. by rewrite Hqn in Hc.
    + apply by_name_None in Hq. destruct (m !! (fs, n)) eqn:Hm; [|done]. destruct Hq.
      apply (poolset_names fsname fs db m); [done|]. by rewrite Hm.
Qed.

(** ** The contents of a pool *)

(** The OSTs of a report that the database knows. *)
Definition known_osts (fs : Z) (osts : list string) : list Z := omap (ostid fs) osts.

Lemma grow_rows_new o rows : o ∉ rows -> grow_rows o rows = rows ++ [o].
Proof.
  intros Ho. unfold grow_rows. assert (List.filter (Z.eqb o) rows = []) as ->; [|done].
  destruct (List.filter (Z.eqb o) rows) as [|x l] eqn:E; [done|].
  assert (x ∈ List.filter (Z.eqb o) rows) as [Hx <-%Z.eqb_eq]%elem_of_filter_fn by (rewrite E; left). done.
Qed.

Lemma new_rows_eq fs osts : NoDup (known_osts fs osts) -> new_rows fs osts = known_osts fs osts.
Proof.
  unfold new_rows. intros Hn. change (known_osts fs osts) with ([] ++ known_osts fs osts) in Hn |- *.
  revert Hn. generalize (@nil Z). induction osts as [|o osts IH]; intros acc; simpl; [by rewrite app_nil_r|].
  unfold known_osts in *. csimpl. destruct (ostid fs o) as [i|]; [|apply IH]. rewrite cons_middle, app_assoc.
  intros Hn. rewrite grow_rows_new; [by apply IH|]. rewrite <-app_assoc in Hn. apply NoDup_app in Hn as (_ & Hn & _).
  intros Hi. apply (Hn i Hi). left.
Qed.

(** [diff] on the way: what is still to be deleted, and the rows so far. *)
Lemma diff_fold fs osts current rows :
  NoDup (known_osts fs osts) -> (forall x, x ∈ known_osts fs osts -> x ∈ rows -> x ∈ current) ->
  foldl (diff_step fs) (current, rows) osts =
  (current ∖ list_to_set (known_osts fs osts), rows ++ List.filter (fun x => negb (bool_decide (x ∈ current))) (known_osts fs osts)).
Proof.
  revert current rows. unfold known_osts.
  induction osts as [|o osts IH]; intros current rows; csimpl.
  { intros _ _. rewrite app_nil_r, difference_empty_L. done. }
  destruct (ostid fs o) as [i|]; [|apply IH]. intros Hn Hr. inversion_clear Hn as [|? ? Hi Hn'].
  assert (forall x, x ∈ omap (ostid fs) osts -> x <> i) as Hne by (by intros x Hx ->).
  case_bool_decide as Hc.
  - rewrite IH; [|done|].
    + f_equal; [set_solver|]. simpl. f_equal. rewrite (bool_decide_eq_true_2 _ Hc). apply List.filter_ext_in. intros x Hx%list_elem_of_In. f_equal. apply bool_decide_ext.
      specialize (Hne x Hx). set_solver.
    + intros x Hx Hxr. specialize (Hne x Hx). set_solver.
  - rewrite IH; [|done|].
    + f_equal; [set_solver|]. simpl. by rewrite (bool_decide_eq_false_2 _ Hc), <-app_assoc.
    + intros x Hx [Hxr|Hxi]%elem_of_app; [apply Hr; set_solver|]. apply list_elem_of_singleton in Hxi. by destruct (Hne x Hx).
Qed.

Lemma diff_rows_elem fs osts rows x : NoDup (known_osts fs osts) ->
  x ∈ diff_rows fs osts rows <-> x ∈ known_osts fs osts.
Proof.
  intros Hn. unfold diff_rows. rewrite diff_fold by set_solver.
  rewrite elem_of_filter_fn, elem_of_app, elem_of_filter_fn, !negb_true_iff, !bool_decide_eq_false.
  rewrite elem_of_difference, !elem_of_list_to_set.
  destruct (decide (x ∈ known_osts fs osts)), (decide (x ∈ rows)); tauto.
Qed.

Lemma diff_rows_nodup fs osts rows : NoDup (known_osts fs osts) -> NoDup rows -> NoDup (diff_rows fs osts rows).
Proof.
  intros Hn Hr. unfold diff_rows. rewrite diff_fold by set_solver.
  rewrite NoDup_ListNoDup. apply List.NoDup_filter. rewrite <-NoDup_ListNoDup. apply NoDup_app. split_and!; [done| |].
  - intros x Hx [_ Hc%negb_true_iff]%elem_of_filter_fn. rewrite bool_decide_eq_false in Hc. by rewrite elem_of_list_to_set in Hc.
  - rewrite NoDup_ListNoDup. apply List.NoDup_filter. by rewrite <-NoDup_ListNoDup.
Qed.

(** Every database in order is such a map. *)
Lemma refines_exists db : db_ok db -> exists m, refines db m.
Proof.
  intros Hok.
  exists (list_to_map ((fun '(i, r) => ((pr_fs r, pr_name r), pool_rows i db)) <$>
            List.filter (fun '(_, r) => pr_live r) (map_to_list (pools db)))).
  split; [done|]. intros fs pn. set (l := List.filter _ _).
  assert (forall i r, (i, r) ∈ l <-> pools db !! i = Some r /\ pr_live r = true) as Hl.
  { intros i r. unfold l. by rewrite elem_of_filter_fn, elem_of_map_to_list. }
  unfold view. destruct (poolid fs pn db) as [i|] eqn:E; simpl.
  - apply poolid_Some in E as (r & Hr & (Hlive & <- & <-)%is_pool_iff); [|done].
    apply elem_of_list_to_map_1'.
    + intros rows ([j s] & Heq & [Hs Hsl]%Hl)%list_elem_of_fmap. injection Heq as Hf Hn ->.
      assert (i = j) as ->; [|done].
      apply (ok_unique db Hok i j r s (pr_fs r) (pr_name r)); try done; by apply is_pool_iff.
    + apply list_elem_of_fmap. exists (i, r). split; [done|]. by apply Hl.
  - apply not_elem_of_list_to_map_1. intros (p & Hp & Hin)%list_elem_of_fmap.
    apply list_elem_of_fmap in Hin as ([j s] & -> & [Hs Hsl]%Hl). simpl in Hp. injection Hp as -> ->.
    rewrite poolid_None in E by done. specialize (E j s Hs).
    by rewrite (proj2 (is_pool_iff (pr_fs s) (pr_name s) s)) in E.
Qed.

(** ** The pools follow the report *)
(** C8: after the report of a file system's pools was processed, the file system has
    exactly the reported pools; each of them that is new, or that was reported with
    OSTs, has exactly the reported OSTs that are known, each once if it had each once;
    the pools of other file systems are as they were. *)
Theorem pools_reconciled fsname fs new db (Hfs : fsid fsname = Some fs) (Hdb : db_ok db)
  (Hnew : report fsname new) (Hosts : forall p, p ∈ new -> NoDup (known_osts fs (op_osts p))) :
  let db' := process_fs fsname new db in
  db_ok db' /\
  (forall n, is_Some (view fs n db') <-> n ∈ op_name <$> new) /\
  (forall p, p ∈ new -> view fs (op_name p) db = None \/ op_osts p <> [] ->
     exists rows, view fs (op_name p) db' = Some rows /\
       (forall x, x ∈ rows <-> x ∈ known_osts fs (op_osts p)) /\
       (NoDup (default [] (view fs (op_name p) db)) -> NoDup rows)) /\
  (forall fs' n, fs' <> fs -> view fs' n db' = view fs' n db).
Proof.
  destruct (refines_exists db Hdb) as (m & Hm).
  destruct (process_fs_refines fsname fs new db m Hfs Hnew Hm) as (m' & [Hok' Hv'] & Hrec & Hoth).
  destruct Hm as [_ Hv]. intros db'. split; [done|]. split_and!.
  - intros n. rewrite <-Hv', Hrec. unfold reconcile. fold (by_name n new).
    destruct (by_name n new) as [p|] eqn:Hp; simpl.
    + apply by_name_Some in Hp as [Hp <-]. split; [|by eauto]. intros _. by apply list_elem_of_fmap_2.
    + apply by_name_None in Hp. split; [by intros []|done].
  - intros p Hp Hcase. rewrite <-Hv, <-Hv', Hrec in *. unfold reconcile. fold (by_name (op_name p) new).
    rewrite (by_name_elem fsname new p Hnew Hp). simpl. specialize (Hosts p Hp). eexists. split; [done|].
    destruct (m !! (fs, op_name p)) as [rows|] eqn:Hr.
    + destruct Hcase as [?|Hne]; [done|]. rewrite bool_decide_eq_false_2 by done. simpl. split.
      * intros x. by apply diff_rows_elem.
      * by apply diff_rows_nodup.
    + rewrite new_rows_eq by done. done.
  - intros fs' n Hne. rewrite <-Hv, <-Hv'. by apply Hoth.
Qed.

(** ** A pool that becomes empty keeps its OSTs *)
(** The OSTs of the stored pools are not read before the comparison with the
    report, they count as none: a known pool that is reported with no OST is taken to
    be unchanged, and the OSTs it had stay in it. *)
Theorem emptied_pool_keeps_osts fsname fs new db p rows (Hfs : fsid fsname = Some fs) (Hdb : db_ok db)
  (Hnew : report fsname new) (Hp : p ∈ new) (He : op_osts p = []) (Hold : view fs (op_name p) db = Some rows) :
  view fs (op_name p) (process_fs fsname new db) = Some rows.
Proof.
  destruct (refines_exists db Hdb) as (m & Hm).
  destruct (process_fs_refines fsname fs new db m Hfs Hnew Hm) as (m' & [Hok' Hv'] & Hrec & _).
  destruct Hm as [_ Hv]. rewrite <-Hv', Hrec. unfold reconcile. fold (by_name (op_name p) new).
  rewrite (by_name_elem fsname new p Hnew Hp). simpl. by rewrite Hv, Hold, He.
Qed.

End OstPools.

(** * Witnesses *)

Section PoolWitnesses.

Definition two_osts : Tables :=
  {| tb_filesystems := [(1, "fs")]; tb_on_host := fun _ => [];
     tb_osts := [(1, "fs-OST0000", 10); (1, "fs-OST0001", 11)] |}.

(** Pool "a" has the first OST. *)
Definition pool_db : Db :=
  {| pools := {[5 := MkPoolRow "a" 1 true]}; members := {[5 := [10]]}; next_id := 6 |}.

Lemma pool_db_ok : db_ok pool_db.
Proof.
  split; simpl.
  - intros i [r [<- _]%lookup_singleton_Some]. lia.
  - intros i [r [<- _]%lookup_singleton_Some]. lia.
  - by intros i j r s fs pn [<- _]%lookup_singleton_Some [<- _]%lookup_singleton_Some.
Qed.

(** It is to have the second; then none. *)
Definition moved : list OstPool := [MkOstPool "a" "fs" ["fs-OST0001"]].
Definition emptied : list OstPool := [MkOstPool "a" "fs" []].

Lemma one_report p : op_filesystem p = "fs" -> report "fs" [p].
Proof. intros Hp. split; [repeat constructor|]. by intros q ->%list_elem_of_singleton. Qed.

Lemma pools_reconciled_witness : exists rows,
  view 1 "a" (process_fs two_osts "fs" moved pool_db) = Some rows /\ forall x, x ∈ rows <-> x ∈ [11].
Proof.
  destruct (pools_reconciled two_osts "fs" 1 moved pool_db eq_refl pool_db_ok
    (one_report (MkOstPool "a" "fs" ["fs-OST0001"]) eq_refl))
    as (_ & _ & H & _).
  - intros p ->%list_elem_of_singleton. apply NoDup_singleton.
  - destruct (H (MkOstPool "a" "fs" ["fs-OST0001"])) as (rows & Hr & Hx & _); [left|by right|].
    exists rows. split; [exact Hr|exact Hx].
Defined.

Lemma emptied_pool_keeps_osts_witness : view 1 "a" (process_fs two_osts "fs" emptied pool_db) = Some [10].
Proof.
  apply (emptied_pool_keeps_osts two_osts "fs" 1 emptied pool_db (MkOstPool "a" "fs" []) [10]
    eq_refl pool_db_ok (one_report (MkOstPool "a" "fs" []) eq_refl)); [left|reflexivity|reflexivity].
Defined.

End PoolWitnesses.
