(* ===== verification/F64.v ===== *)
(** * Double precision ([f64])

    The operations of Rust's [f64] that the code uses, by the Standard Library's model of IEEE
    754, and where they are exact: an integer below 2^53 is converted without loss, dividing it by
    a power of two is exact, and so such quotients are compared as numbers are. *)
From S2P Require Import Prelude.
From stdpp Require Import base tactics.
From Stdlib Require Import ZArith SpecFloat Lia.

Open Scope Z_scope.

(** [as f64] of an integer, and the operations. *)
Definition f64 (z : Z) : spec_float := binary_normalize 53 1024 z 0 false.
Definition f64_div := SFdiv 53 1024.
Definition f64_add := SFadd 53 1024.
Definition f64_mul := SFmul 53 1024.
Definition f64_sub := SFsub 53 1024.
Definition f64_lt := SFltb.

(** ** Normal numbers *)

Definition normal (m : Z) : Prop := 2 ^ 52 <= m < 2 ^ 53.

Lemma digits_bounds p : 2 ^ (Z.pos (digits2_pos p) - 1) <= Z.pos p < 2 ^ Z.pos (digits2_pos p).
Proof.
  induction p as [p IH|p IH|]; cbn [digits2_pos]; [..|done];
    rewrite Pos2Z.inj_succ; replace (Z.succ (Z.pos (digits2_pos p)) - 1) with (Z.succ (Z.pos (digits2_pos p) - 1)) by lia;
    rewrite !Z.pow_succ_r by lia; lia.
Qed.

Lemma digits_unique m d : 0 < d -> 2 ^ (d - 1) <= m < 2 ^ d -> Zdigits2 m = d.
Proof.
  intros Hd Hm. assert (0 < m) as Hp by (pose proof (Z.pow_pos_nonneg 2 (d - 1)); lia). destruct m as [|p|p]; try lia.
  cbn [Zdigits2]. pose proof (digits_bounds p) as Hb. destruct (Z.lt_trichotomy (Z.pos (digits2_pos p)) d) as [H|[H|H]]; [|done|].
  - pose proof (Z.pow_le_mono_r 2 (Z.pos (digits2_pos p)) (d - 1)). lia.
  - pose proof (Z.pow_le_mono_r 2 d (Z.pos (digits2_pos p) - 1)). lia.
Qed.

Lemma fexp_64 e : -1021 <= e -> fexp 53 1024 e = e - 53.
Proof. intros He. unfold fexp, emin. lia. Qed.

(** Rounding leaves a normal number as it is, and one with a zero bit more too. *)
Lemma round_normal s p e : normal (Z.pos p) -> -1074 <= e <= 971 ->
  binary_round_aux 53 1024 s (Z.pos p) e loc_Exact = S754_finite s p e.
Proof.
  intros Hn He. unfold binary_round_aux, shr_fexp.
  rewrite (digits_unique (Z.pos p) 53), (fexp_64 (53 + e)) by (try done; lia).
  replace (53 + e - 53 - e) with 0 by lia. cbn [shr shr_record_of_loc shr_m loc_of_shr_record round_nearest_even].
  rewrite (digits_unique (Z.pos p) 53), (fexp_64 (53 + e)) by (try done; lia).
  replace (53 + e - 53 - e) with 0 by lia. cbn [shr shr_record_of_loc shr_m]. by rewrite (proj2 (Z.leb_le e _)) by lia.
Qed.

Lemma round_double s p e : normal (Z.pos p) -> -1074 <= e <= 970 ->
  binary_round_aux 53 1024 s (Z.pos p~0) e loc_Exact = S754_finite s p (e + 1).
Proof.
  intros Hn He. unfold binary_round_aux, shr_fexp. unfold normal in Hn.
  rewrite (digits_unique (Z.pos p~0) 54), (fexp_64 (54 + e)) by lia.
  replace (54 + e - 53 - e) with 1 by lia. cbn [shr shr_record_of_loc iter_pos shr_1 orb shr_m loc_of_shr_record round_nearest_even].
  rewrite (digits_unique (Z.pos p) 53), (fexp_64 (53 + (e + 1))) by lia.
  replace (53 + (e + 1) - 53 - (e + 1)) with 0 by lia. cbn [shr shr_record_of_loc shr_m]. by rewrite (proj2 (Z.leb_le (e + 1) _)) by lia.
Qed.

Lemma iter_xO p d : Z.pos (Pos.iter xO p d) = Z.pos p * 2 ^ Z.pos d.
Proof.
  induction d as [|d IH] using Pos.peano_ind; [cbn; lia|]. rewrite Pos.iter_succ, Pos2Z.inj_succ, Z.pow_succ_r by lia.
  change (Z.pos (Pos.iter xO p d)~0) with (2 * Z.pos (Pos.iter xO p d)). lia.
Qed.

(** ** Conversion *)

(** A positive integer below 2^53 is a normal mantissa and an exponent. *)
Lemma f64_exact z : 0 < z < 2 ^ 53 -> exists p e,
  f64 z = S754_finite false p e /\ normal (Z.pos p) /\ -52 <= e <= 0 /\ Z.pos p = z * 2 ^ (- e).
Proof.
  intros Hz. destruct z as [|q|q]; try lia. unfold f64, binary_normalize, binary_round.
  pose proof (digits_bounds q) as Hb. set (d := Z.pos (digits2_pos q)) in *.
  assert (1 <= d <= 53) as Hd.
  { split; [lia|]. destruct (Z.le_gt_cases d 53) as [|H]; [done|]. pose proof (Z.pow_le_mono_r 2 53 (d - 1)). lia. }
  rewrite fexp_64 by lia. unfold shl_align.
  assert (2 ^ (d - 1) * 2 ^ (53 - d) = 2 ^ 52) as E1 by (rewrite <-Z.pow_add_r by lia; f_equal; lia).
  assert (2 ^ d * 2 ^ (53 - d) = 2 ^ 53) as E2 by (rewrite <-Z.pow_add_r by lia; f_equal; lia).
  assert (0 < 2 ^ (53 - d)) as Hpos by (apply Z.pow_pos_nonneg; lia).
  destruct (d + 0 - 53 - 0) as [|k|k] eqn:Ek; [|lia|].
  - assert (d = 53) as Hd53 by lia. rewrite Hd53 in Hb. rewrite round_normal by (unfold normal in *; lia).
    exists q, 0. split; [done|]. unfold normal. split; [lia|]. split; [lia|]. cbn. lia.
  - assert (Z.pos k = 53 - d) as Hk by lia.
    assert (normal (Z.pos (Pos.iter xO q k))) as Hn by (unfold normal; rewrite iter_xO, Hk; nia).
    rewrite round_normal by (done || lia). eexists _, _. split; [done|]. split; [done|]. split; [lia|].
    rewrite iter_xO, Hk. do 2 f_equal. lia.
Qed.

(** A power of two. *)
Lemma f64_pow2 k : 0 <= k <= 52 -> f64 (2 ^ k) = S754_finite false (Z.to_pos (2 ^ 52)) (k - 52).
Proof.
  intros Hk. assert (0 < 2 ^ k < 2 ^ 53) as Hb.
  { split; [apply Z.pow_pos_nonneg; lia|]. apply Z.pow_lt_mono_r; lia. }
  destruct (f64_exact (2 ^ k) Hb) as (p & e & -> & Hn & He & Hp). rewrite <-Z.pow_add_r in Hp by lia.
  assert (k - e = 52) as Hke.
  { unfold normal in Hn. destruct (Z.lt_trichotomy (k - e) 52) as [H|[H|H]]; [|done|].
    - pose proof (Z.pow_lt_mono_r 2 (k + - e) 52). lia.
    - pose proof (Z.pow_le_mono_r 2 53 (k + - e)). lia. }
  replace (k + - e) with 52 in Hp by lia. assert (e = k - 52) as -> by lia. f_equal. lia.
Qed.

(** ** Division by a power of two *)

Lemma f64_div_pow2 z k : 0 < z < 2 ^ 53 -> 0 <= k <= 52 -> exists p e,
  f64_div (f64 z) (f64 (2 ^ k)) = S754_finite false p (e - k) /\ normal (Z.pos p) /\ -52 <= e <= 0 /\ Z.pos p = z * 2 ^ (- e).
Proof.
  intros Hz Hk. destruct (f64_exact z Hz) as (p & e & -> & Hn & He & Hp). rewrite f64_pow2 by done.
  exists p, e. split; [|done]. unfold f64_div, SFdiv, SFdiv_core_binary.
  rewrite (digits_unique (Z.pos p) 53), (digits_unique (Z.pos (Z.to_pos (2 ^ 52))) 53) by done.
  rewrite fexp_64 by lia. rewrite Z.min_l by lia.
  replace (e - (k - 52) - (53 + e - (53 + (k - 52)) - 53)) with 53 by lia. cbn beta iota. rewrite Z.shiftl_mul_pow2 by lia.
  assert (Z.div_eucl (Z.pos p * 2 ^ 53) (Z.pos (Z.to_pos (2 ^ 52))) = (Z.pos p~0, 0)) as ->.
  { change (Z.pos (Z.to_pos (2 ^ 52))) with (2 ^ 52). assert (Z.pos p * 2 ^ 53 = 2 ^ 52 * Z.pos p~0 + 0) as E by lia.
    assert (0 <= 0 < 2 ^ 52) as H0 by lia.
    pose proof (Z.div_unique_pos _ _ (Z.pos p~0) 0 H0 E) as H1. pose proof (Z.mod_unique_pos _ _ (Z.pos p~0) 0 H0 E) as H2.
    unfold Z.div, Z.modulo in *. destruct (Z.div_eucl _ _). congruence. }
  cbn [new_location]. change (new_location (Z.pos (Z.to_pos (2 ^ 52))) 0) with loc_Exact. cbn [xorb].
  rewrite round_double by (done || lia). f_equal. lia.
Qed.

(** ** Comparison *)

(** Normal numbers are compared by their exponents and then by their mantissas. *)
Lemma lt_normal p e q f : normal (Z.pos p) -> normal (Z.pos q) ->
  f64_lt (S754_finite false p e) (S754_finite false q f) = true <-> e < f \/ (e = f /\ Z.pos p < Z.pos q).
Proof.
  intros Hp Hq. unfold f64_lt, SFltb, SFcompare. destruct (Z.compare_spec e f) as [->|H|H].
  - change (Pos.compare_cont Eq p q) with (Pos.compare p q). destruct (Pos.compare_spec p q); split; try done; try lia; intros; right; lia.
  - split; [intros _; by left|done].
  - split; [done|lia].
Qed.

(** The quotient of [z] by [2^k] is below [v] exactly when [z] is below [v * 2^k]. *)
Theorem f64_quotient_lt z k v : 0 <= z < 2 ^ 53 -> 0 <= k <= 52 -> 0 <= v < 2 ^ 53 ->
  f64_lt (f64_div (f64 z) (f64 (2 ^ k))) (f64 v) = true <-> z < v * 2 ^ k.
Proof.
  intros Hz Hk Hv. assert (0 < 2 ^ k) as Hpos by (apply Z.pow_pos_nonneg; lia).
  destruct (Z.eq_dec z 0) as [->|Hz0].
  { rewrite f64_pow2 by done. change (f64_div (f64 0) (S754_finite false (Z.to_pos (2 ^ 52)) (k - 52))) with (S754_zero false).
    destruct (Z.eq_dec v 0) as [->|Hv0]; [split; [done|lia]|].
    destruct (f64_exact v) as (q & f & -> & _); [lia|]. split; [intros _; nia|done]. }
  destruct (f64_div_pow2 z k) as (p & e & -> & Hn & He & Hp); [lia|done|].
  destruct (Z.eq_dec v 0) as [->|Hv0]; [split; [done|lia]|].
  destruct (f64_exact v) as (q & f & -> & Hn' & Hf & Hq); [lia|]. rewrite lt_normal by done. unfold normal in *.
  set (a := 2 ^ (- e)) in *. set (b := 2 ^ (- f)) in *.
  assert (0 < a) by (apply Z.pow_pos_nonneg; lia). assert (0 < b) by (apply Z.pow_pos_nonneg; lia).
  destruct (Z.lt_trichotomy (e - k) f) as [Hc|[Hc|Hc]].
  - assert (2 * b * 1 <= a * 2 ^ k) as Hab.
    { unfold a, b. rewrite Z.mul_1_r, <-Z.pow_succ_r, <-Z.pow_add_r by lia. apply Z.pow_le_mono_r; lia. }
    split; [intros _|by left]. rewrite Hp in Hn. rewrite Hq in Hn'.
    assert (z * (2 * b) < v * 2 ^ k * (2 * b)); [|nia].
    assert (z * a < 2 * (v * b)) by lia. assert (z * a * 2 ^ k < 2 * (v * b) * 2 ^ k) by nia. nia.
  - assert (a * 2 ^ k = b) as Hab by (unfold a, b; rewrite <-Z.pow_add_r by lia; f_equal; lia).
    split.
    + intros [?|[_ Hlt]]; [lia|]. rewrite Hp, Hq, <-Hab in Hlt. nia.
    + intros Hlt. right. split; [done|]. rewrite Hp, Hq, <-Hab. nia.
  - assert (2 * (a * 2 ^ k) <= b) as Hab.
    { unfold a, b. rewrite <-Z.pow_add_r, <-Z.pow_succ_r by lia. apply Z.pow_le_mono_r; lia. }
    split; [lia|]. intros Hlt. rewrite Hp in Hn. rewrite Hq in Hn'. exfalso.
    assert (v * 2 ^ k * a * 2 <= v * b) by nia. assert (2 * (z * a) < v * b) by nia. lia.
Qed.
