(* ===== verification/Snapshots.v ===== *)
(** The snapshot service, [iml-services/iml-snapshot/src/]: snapshots that nobody uses
    any more are unmounted ([client_monitor.rs]), and the oldest ones are destroyed
    when space runs out ([retention.rs]). *)
From S2P Require Import Prelude RustStd F64.
From stdpp Require Import base gmap sets list strings sorting.
From Stdlib Require Import ZArith SpecFloat.

Open Scope Z_scope.

(** * The client monitor: [client_monitor.rs] *)

(** Times are in seconds. *)
Inductive MonitorState : Type :=
| Monitoring (clients : Z)
| CountingDown (until : Z).

Definition GRACE : Z := 5 * 60.

(** One snapshot in one tick: its next state, and whether it is to be unmounted. *)
Definition monitor_turn (now clients : Z) (st : option MonitorState) : MonitorState * bool :=
  match st with
  | Some (Monitoring prev_clients) =>
      if (0 <? prev_clients) && (clients =? 0) then (CountingDown (now + GRACE), false)
      else (Monitoring clients, false)
  | Some (CountingDown until) =>
      if 0 <? clients then (Monitoring clients, false)
      else if until <=? now then (Monitoring 0, true)
      else (CountingDown until, false)
  | None => (Monitoring clients, false)
  end.

Record Snapshot : Type := MkSnapshot { sn_id : Z; sn_fsname : string }.

(** What a tick sees: the snapshots, the clients of a mounted file system ([None] if
    the statistics have none), the clock when it comes to a snapshot, and whether
    unmounting it succeeds. *)
Record Tick : Type := MkTick {
  ti_snapshots : list Snapshot;
  ti_stats : gmap string (option Z);
  ti_now : Z -> Z;
  ti_unmount : Z -> bool;
}.

(** The states, the snapshots that were looked at (with time and clients), those for
    which an unmount was sent, and whether the tick got to its end. *)
Record TickResult : Type := MkTickResult {
  tr_counts : gmap Z MonitorState;
  tr_seen : list (Z * (Z * Z));
  tr_unmounts : list Z;
  tr_ok : bool;
}.

Fixpoint tick_loop (t : Tick) (snapshots : list Snapshot) (r : TickResult) : TickResult :=
  match snapshots with
  | [] => r
  | s :: snapshots =>
      match ti_stats t !! sn_fsname s with
      | None => tick_loop t snapshots r
      | Some clients =>
          let clients := default 0 clients in
          let now := ti_now t (sn_id s) in
          let '(st, unmount) := monitor_turn now clients (tr_counts r !! sn_id s) in
          let r := MkTickResult (<[sn_id s := st]> (tr_counts r)) (tr_seen r ++ [(sn_id s, (now, clients))])
                     (tr_unmounts r ++ if unmount then [sn_id s] else []) true in
          if unmount && negb (ti_unmount t (sn_id s)) then
            MkTickResult (tr_counts r) (tr_seen r) (tr_unmounts r) false
          else tick_loop t snapshots r
      end
  end.

Definition tick (t : Tick) (counts : gmap Z MonitorState) : TickResult :=
  tick_loop t (ti_snapshots t) (MkTickResult counts [] [] true).

(** ** One snapshot *)

(** The state after what was seen of a snapshot, oldest first. *)
Definition monitor (h : list (Z * Z)) : option MonitorState :=
  foldl (fun st '(now, clients) => Some (monitor_turn now clients st).1) None h.

(** What the state says of the history. *)
Definition state_means (h : list (Z * Z)) (st : option MonitorState) : Prop :=
  match st with
  | None => h = []
  | Some (Monitoring c) => exists h' now, h = h' ++ [(now, c)]
  | Some (CountingDown until) => exists h1 before clients t h2,
      h = h1 ++ (before, clients) :: (t, 0) :: h2 /\ 0 < clients /\ until = t + GRACE /\
      Forall (fun x => x.2 = 0) h2
  end.

Lemma monitor_snoc h now clients : monitor (h ++ [(now, clients)]) = Some (monitor_turn now clients (monitor h)).1.
Proof. unfold monitor. by rewrite foldl_app. Qed.

Lemma monitor_means h : Forall (fun x => 0 <= x.2) h -> state_means h (monitor h).
Proof.
  induction h as [|[now c] h IH] using rev_ind; [done|]. intros [Hh Hc]%Forall_app.
  inversion_clear Hc as [|? ? Hc0 _]. simpl in Hc0. specialize (IH Hh). rewrite monitor_snoc.
  destruct (monitor h) as [[prev|until]|] eqn:E; cbn [monitor_turn state_means] in *.
  - destruct ((0 <? prev) && (c =? 0)) eqn:Hb; simpl.
    + apply andb_true_iff in Hb as [Hp%Z.ltb_lt ->%Z.eqb_eq]. destruct IH as (h' & t' & ->).
      exists h', t', prev, now, []. by rewrite <-app_assoc.
    + eauto.
  - destruct (0 <? c) eqn:Hp; simpl; [eauto|]. apply Z.ltb_ge in Hp. assert (c = 0) as -> by lia.
    destruct IH as (h1 & b & cl & t & h2 & -> & Hcl & -> & Hall).
    destruct (_ <=? _); simpl; [eauto|].
    exists h1, b, cl, t, (h2 ++ [(now, 0)]). rewrite <-app_assoc. split_and!; [done..|].
    apply Forall_app. split; [done|]. by constructor.
  - simpl. exists [], now. by rewrite IH.
Qed.

(** ** The monitor of all snapshots *)

Definition seen_of (id : Z) (l : list (Z * (Z * Z))) : list (Z * Z) :=
  omap (fun x => if Z.eqb x.1 id then Some x.2 else None) l.

Lemma seen_of_app id l1 l2 : seen_of id (l1 ++ l2) = seen_of id l1 ++ seen_of id l2.
Proof. apply omap_app. Qed.

Lemma seen_of_one id id' x : seen_of id [(id', x)] = if Z.eqb id' id then [x] else [].
Proof. unfold seen_of. simpl. by destruct (Z.eqb id' id). Qed.

(** Each state is the monitor's, and an unmount follows from what was seen before. *)
Lemma tick_loop_inv t l r past :
  (forall id, tr_counts r !! id = monitor (seen_of id (past ++ tr_seen r))) ->
  (forall id, id ∈ tr_unmounts r -> exists seen x seen', tr_seen r = seen ++ (id, x) :: seen' /\
     (monitor_turn x.1 x.2 (monitor (seen_of id (past ++ seen)))).2 = true) ->
  let r' := tick_loop t l r in
  (forall id, tr_counts r' !! id = monitor (seen_of id (past ++ tr_seen r'))) /\
  (forall id, id ∈ tr_unmounts r' -> exists seen x seen', tr_seen r' = seen ++ (id, x) :: seen' /\
     (monitor_turn x.1 x.2 (monitor (seen_of id (past ++ seen)))).2 = true).
Proof.
  revert r. induction l as [|s l IH]; intros r Hc Hu; [done|]. simpl.
  destruct (ti_stats t !! sn_fsname s) as [cl|]; [|by apply IH].
  set (clients := default 0 cl). set (now := ti_now t (sn_id s)).
  destruct (monitor_turn now clients (tr_counts r !! sn_id s)) as [st um] eqn:Em.
  set (r1 := MkTickResult _ _ _ true).
  assert (forall id, tr_counts r1 !! id = monitor (seen_of id (past ++ tr_seen r1))) as Hc1.
  { intros id. simpl. rewrite app_assoc, seen_of_app, seen_of_one. destruct (Z.eqb_spec (sn_id s) id) as [<-|Hne].
    - by rewrite lookup_insert_eq, monitor_snoc, <-Hc, Em.
    - by rewrite lookup_insert_ne, app_nil_r. }
  assert (forall id, id ∈ tr_unmounts r1 -> exists seen x seen', tr_seen r1 = seen ++ (id, x) :: seen' /\
     (monitor_turn x.1 x.2 (monitor (seen_of id (past ++ seen)))).2 = true) as Hu1.
  { simpl. intros id [Hi|Hi]%elem_of_app.
    - destruct (Hu id Hi) as (seen & x & seen' & -> & Hx). exists seen, x, (seen' ++ [(sn_id s, (now, clients))]).
      by rewrite <-app_assoc.
    - destruct um; [|by apply elem_of_nil in Hi]. apply list_elem_of_singleton in Hi as ->.
      exists (tr_seen r), (now, clients), []. split; [done|]. simpl. by rewrite <-Hc, Em. }
  destruct (um && negb (ti_unmount t (sn_id s))); [done|]. by apply IH.
Qed.

(** The service runs tick after tick; a tick that fails keeps its states. *)
Fixpoint ticks (ts : list Tick) (counts : gmap Z MonitorState) : list TickResult :=
  match ts with
  | [] => []
  | t :: ts => let r := tick t counts in r :: ticks ts (tr_counts r)
  end.

Definition all_seen (rs : list TickResult) : list (Z * (Z * Z)) := rs ≫= tr_seen.

Lemma ticks_inv ts counts past rs1 r rs2 :
  (forall id, counts !! id = monitor (seen_of id past)) ->
  ticks ts counts = rs1 ++ r :: rs2 ->
  forall id, id ∈ tr_unmounts r -> exists seen x seen', tr_seen r = seen ++ (id, x) :: seen' /\
    (monitor_turn x.1 x.2 (monitor (seen_of id (past ++ all_seen rs1 ++ seen)))).2 = true.
Proof.
  revert counts past rs1. induction ts as [|t ts IH]; intros counts past rs1 Hc Hs.
  { by destruct rs1. }
  simpl in Hs. destruct (tick_loop_inv t (ti_snapshots t) (MkTickResult counts [] [] true) past) as [H1 H2].
  { simpl. by rewrite app_nil_r. }
  { intros id Hi. by apply elem_of_nil in Hi. }
  change (tick_loop t _ _) with (tick t counts) in H1, H2.
  destruct rs1 as [|r0 rs1]; injection Hs as <- Hs; [exact H2|].
  intros id Hi. destruct (IH _ _ _ H1 Hs id Hi) as (seen & x & seen' & Hr & Hx).
  exists seen, x, seen'. split; [done|]. unfold all_seen in *. csimpl. by rewrite <-!app_assoc in Hx |- *.
Qed.


(** ** A snapshot is unmounted after five idle minutes *)
(** In every run of the service, when an unmount of a snapshot is sent, the
    snapshot had clients in some tick, has had none in every tick since in which it
    was seen, and the first of these was at least five minutes ago. *)
Theorem unmount_after_idle ts rs1 r rs2 (Hrun : ticks ts ∅ = rs1 ++ r :: rs2) id (Hu : id ∈ tr_unmounts r)
  (Hpos : Forall (fun x => 0 <= x.2.2) (all_seen rs1 ++ tr_seen r)) :
  exists h1 before clients t h2 now h3,
    seen_of id (all_seen rs1 ++ tr_seen r) = h1 ++ (before, clients) :: (t, 0) :: h2 ++ (now, 0) :: h3 /\
    0 < clients /\ Forall (fun x => x.2 = 0) h2 /\ t + GRACE <= now.
Proof.
  destruct (ticks_inv ts ∅ [] rs1 r rs2) with (id := id) as (seen & [now c] & seen' & Hr & Hx); [done|done|done|].
  simpl in Hx. set (h := seen_of id (all_seen rs1 ++ seen)) in *.
  assert (Forall (fun x => 0 <= x.2) h) as Hh.
  { apply Forall_forall. intros x ([i y] & Hin & Hy)%list_elem_of_omap. simpl in Hy.
    destruct (Z.eqb i id); [|done]. injection Hy as ->. rewrite Forall_forall in Hpos. apply (Hpos (i, x)).
    rewrite Hr. set_solver. }
  pose proof (monitor_means h Hh) as Hm. destruct (monitor h) as [[prev|until]|]; simpl in Hx.
  - by destruct (_ && _) in Hx.
  - destruct (0 <? c) eqn:Hc; [done|]. apply Z.ltb_ge in Hc. destruct (until <=? now) eqn:Hn; [|done].
    apply Z.leb_le in Hn. destruct Hm as (h1 & b & cl & t & h2 & Hheq & Hcl & -> & Hall).
    assert (0 <= c) as Hc0.
    { rewrite Forall_forall in Hpos. apply (Hpos (id, (now, c))). rewrite Hr. set_solver. }
    assert (c = 0) as -> by lia.
    exists h1, b, cl, t, h2, now, (seen_of id seen'). split_and!; [|done..].
    rewrite Hr, app_assoc, seen_of_app. fold h.
    change ((id, (now, 0)) :: seen') with ([(id, (now, 0))] ++ seen').
    rewrite seen_of_app, seen_of_one, Z.eqb_refl, Hheq. by rewrite <-app_assoc.
  - done.
Qed.

(** ** An unmount that fails is not tried again *)
(** Once the countdown of a snapshot has ended its state is that of an unused
    snapshot, whether the unmount succeeds or not: as long as it has no clients, no
    further unmount of it is sent. *)
Theorem unmount_not_retried until now idle (Hu : until <= now) (Hidle : Forall (fun x => x.2 = 0) idle) :
  monitor_turn now 0 (Some (CountingDown until)) = (Monitoring 0, true) /\
  forall t, (monitor_turn t 0 (foldl (fun st '(now, clients) => Some (monitor_turn now clients st).1)
                                 (Some (Monitoring 0)) idle)).2 = false.
Proof.
  split; [simpl; by rewrite (proj2 (Z.leb_le _ _) Hu)|]. intros t.
  assert (foldl (fun st '(now, clients) => Some (monitor_turn now clients st).1) (Some (Monitoring 0)) idle =
    Some (Monitoring 0)) as ->; [|done].
  induction idle as [|[n c] idle IH]; [done|]. inversion_clear Hidle as [|? ? Hc Hi]. simpl in Hc. subst c.
  simpl. by apply IH.
Qed.

(** * Retention: [retention.rs] *)

Inductive ReserveUnit : Type := Percent | Gibibytes | Tebibytes.

Record SnapshotRetention : Type := MkSnapshotRetention {
  re_filesystem_name : string;
  re_reserve_value : Z;
  re_reserve_unit : ReserveUnit;
  re_keep_num : Z;
}.

(** What InfluxDB says of the OSTs of a file system: total, free, available bytes. *)
Record FsStats : Type := MkFsStats { bytes_total : Z; bytes_free : Z; bytes_avail : Z }.

(** [bytes_total - bytes_free] is on [u64]. *)
Definition bytes_used (s : FsStats) : Z := (bytes_total s - bytes_free s) mod 2 ^ 64.

Definition percent_free (s : FsStats) : spec_float :=
  let used := f64 (bytes_used s) in
  let percent_used := f64_mul (f64_div used (f64_add used (f64 (bytes_avail s)))) (f64 100) in
  f64_sub (f64 100) percent_used.

Definition should_delete_snapshot (r : SnapshotRetention) (s : FsStats) : bool :=
  match re_reserve_unit r with
  | Percent => f64_lt (percent_free s) (f64 (re_reserve_value r))
  | Gibibytes => f64_lt (f64_div (f64 (bytes_free s)) (f64 1073741824)) (f64 (re_reserve_value r))
  | Tebibytes => f64_lt (f64_div (f64 (bytes_free s)) (f64 1099511627776)) (f64 (re_reserve_value r))
  end.

(** [keep_num as usize]: a negative number becomes a huge one. *)
Definition keep (r : SnapshotRetention) : Z := re_keep_num r mod 2 ^ 64.

(** A row of [snapshot], as far as the pass looks at it. *)
Record SnapshotRow : Type := MkSnapshotRow { sr_filesystem_name : string; sr_snapshot_name : string; sr_create_time : Z }.

Definition older (x y : SnapshotRow) : Prop := sr_create_time x <= sr_create_time y.
#[export] Instance older_dec : RelDecision older.
Proof. intros x y. unfold older. apply _. Defined.
#[export] Instance older_trans : Transitive older.
Proof. intros x y z. unfold older. lia. Qed.
#[export] Instance older_total : Total older.
Proof. intros x y. unfold older. lia. Qed.

(** [SELECT .. WHERE filesystem_name = $1 ORDER BY create_time ASC]. *)
Definition get_snapshots (rows : list SnapshotRow) (fs_name : string) : list SnapshotRow :=
  merge_sort older (List.filter (fun x => String.eqb (sr_filesystem_name x) fs_name) rows).

Definition get_retention_policy (retentions : list SnapshotRetention) (fs_name : string) : option SnapshotRetention :=
  List.find (fun x => String.eqb (re_filesystem_name x) fs_name) retentions.

(** What is read when the pass is at a file system, or the error of the query, and
    whether destroying a snapshot then succeeds. *)
Record Reads : Type := MkReads {
  rd_stats : Result unit (option FsStats);
  rd_retentions : Result unit (list SnapshotRetention);
  rd_snapshots : Result unit (list SnapshotRow);
  rd_destroy : bool;
}.

(** One file system: the snapshot to destroy, if any, and the space in use. *)
Definition retention_turn (rd : Reads) (record : gmap string Z) (fs_name : string) : Result unit (option (string * Z)) :=
  stats ← rd_stats rd;
  match stats with
  | None => Ok None
  | Some s =>
      retentions ← rd_retentions rd;
      match get_retention_policy retentions fs_name with
      | None => Ok None
      | Some r =>
          rows ← rd_snapshots rd;
          let snapshots := get_snapshots rows fs_name in
          Ok (if should_delete_snapshot r s && (keep r <? Z.of_nat (length snapshots))
                 && negb (bool_decide (record !! fs_name = Some (bytes_used s)))
              then (fun x => (sr_snapshot_name x, bytes_used s)) <$> head snapshots else None)
      end
  end.

(** [process_retention]: what was destroyed, or tried, and the record if all went
    well; an error ends the pass. *)
Fixpoint retention_loop (reads : string -> Reads) (fses : list string) (record : gmap string Z)
    (log : list (string * string)) : list (string * string) * option (gmap string Z) :=
  match fses with
  | [] => (log, Some record)
  | fs_name :: fses =>
      match retention_turn (reads fs_name) record fs_name with
      | Err _ => (log, None)
      | Ok None => retention_loop reads fses record log
      | Ok (Some (snapshot, used)) =>
          let log := log ++ [(fs_name, snapshot)] in
          if rd_destroy (reads fs_name) then retention_loop reads fses (<[fs_name := used]> record) log
          else (log, None)
      end
  end.

(** [retentions] is the first read, of the file systems. *)
Definition process_retention (retentions : Result unit (list SnapshotRetention)) (reads : string -> Reads)
    (record : gmap string Z) : list (string * string) * option (gmap string Z) :=
  match retentions with
  | Err _ => ([], None)
  | Ok xs => retention_loop reads (re_filesystem_name <$> xs) record []
  end.

(** [handle_retention_rules]: a pass that fails leaves the record as it was. *)
Definition retention_pass (retentions : Result unit (list SnapshotRetention)) (reads : string -> Reads)
    (prev_stats : gmap string Z) : gmap string Z := default prev_stats (process_retention retentions reads prev_stats).2.

(** ** What a pass may destroy *)

(** Statistics as they are of file systems below 8 PiB. *)
Record stats_ok (s : FsStats) : Prop := {
  st_free : 0 <= bytes_free s <= bytes_total s;
  st_total : bytes_total s < 2 ^ 53;
}.

(** The reserve is not free: by bytes for the units of size, and by the percentage in
    double precision. *)
Definition reserve_missing (r : SnapshotRetention) (s : FsStats) : Prop :=
  match re_reserve_unit r with
  | Percent =>
      let used := f64 (bytes_total s - bytes_free s) in
      f64_lt (f64_sub (f64 100) (f64_mul (f64_div used (f64_add used (f64 (bytes_avail s)))) (f64 100)))
        (f64 (re_reserve_value r)) = true
  | Gibibytes => bytes_free s < re_reserve_value r * 2 ^ 30
  | Tebibytes => bytes_free s < re_reserve_value r * 2 ^ 40
  end.

(** The snapshots of a file system. *)
Definition of_fs (fs : string) (rows : list SnapshotRow) : list SnapshotRow :=
  List.filter (fun x => String.eqb (sr_filesystem_name x) fs) rows.

(** The snapshot [n] of [fs] is due: the retention [r] of [fs] has its reserve missing,
    the space in use is not the one recorded, and of more snapshots of [fs] than are
    kept none is older. *)
Inductive due (rd : Reads) (record : gmap string Z) (fs n : string) : Prop :=
| Due s policies r rows x :
    rd_stats rd = Ok (Some s) /\ rd_retentions rd = Ok policies /\ rd_snapshots rd = Ok rows ->
    r ∈ policies /\ re_filesystem_name r = fs ->
    reserve_missing r s ->
    record !! fs <> Some (bytes_total s - bytes_free s) ->
    re_keep_num r < Z.of_nat (length (of_fs fs rows)) ->
    x ∈ of_fs fs rows /\ sr_snapshot_name x = n /\
      (forall y, y ∈ of_fs fs rows -> sr_create_time x <= sr_create_time y) ->
    due rd record fs n.

(** What the tables hold: one retention for a file system, and numbers that are not
    negative. *)
Record reads_ok (rd : Reads) : Prop := {
  ro_stats s : rd_stats rd = Ok (Some s) -> stats_ok s;
  ro_policies rs : rd_retentions rd = Ok rs -> NoDup (re_filesystem_name <$> rs) /\
    Forall (fun r => 0 <= re_reserve_value r < 2 ^ 31 /\ 0 <= re_keep_num r < 2 ^ 31) rs;
}.

Lemma bytes_used_ok s : stats_ok s -> bytes_used s = bytes_total s - bytes_free s.
Proof. intros [H1 H2]. unfold bytes_used. apply Z.mod_small. lia. Qed.

Lemma should_delete_missing r s : stats_ok s -> 0 <= re_reserve_value r < 2 ^ 31 ->
  should_delete_snapshot r s = true <-> reserve_missing r s.
Proof.
  intros Hs Hr. pose proof Hs as [H1 H2]. unfold should_delete_snapshot, reserve_missing, percent_free.
  rewrite bytes_used_ok by done. destruct (re_reserve_unit r); [done|..].
  - change 1073741824 with (2 ^ 30). apply f64_quotient_lt; lia.
  - change 1099511627776 with (2 ^ 40). apply f64_quotient_lt; lia.
Qed.

Lemma get_retention_policy_spec rs fs r : NoDup (re_filesystem_name <$> rs) ->
  get_retention_policy rs fs = Some r <-> r ∈ rs /\ re_filesystem_name r = fs.
Proof.
  unfold get_retention_policy. induction rs as [|x rs IH]; csimpl; intros Hn; [split; [done|intros [H%elem_of_nil _]; done]|].
  apply NoDup_cons in Hn as [Hx Hn]. rewrite elem_of_cons. destruct (String.eqb_spec (re_filesystem_name x) fs) as [E|E].
  - split; [intros [= <-]; auto|]. intros [[->|Hin] Hr]; [done|]. destruct Hx. rewrite E, <-Hr. by apply list_elem_of_fmap_2.
  - rewrite IH by done. split; [tauto|]. intros [[->|Hin] Hr]; [done|auto].
Qed.

Lemma get_snapshots_perm rows fs : get_snapshots rows fs ≡ₚ of_fs fs rows.
Proof. apply merge_sort_Permutation. Qed.

Lemma get_snapshots_head rows fs x rest : get_snapshots rows fs = x :: rest ->
  x ∈ of_fs fs rows /\ forall y, y ∈ of_fs fs rows -> sr_create_time x <= sr_create_time y.
Proof.
  intros E. pose proof (get_snapshots_perm rows fs) as Hp.
  pose proof (StronglySorted_merge_sort older (of_fs fs rows)) as Hs.
  change (merge_sort older (of_fs fs rows)) with (get_snapshots rows fs) in Hs. rewrite E in Hp, Hs. setoid_rewrite <-Hp. split; [left|]. inversion_clear Hs as [|? ? _ Hall]. rewrite Forall_forall in Hall.
  intros y [->|Hy]%elem_of_cons; [lia|]. by apply Hall.
Qed.

(** ** A turn *)

Lemma retention_turn_due rd record fs n used : reads_ok rd ->
  retention_turn rd record fs = Ok (Some (n, used)) -> due rd record fs n /\
  exists s, rd_stats rd = Ok (Some s) /\ used = bytes_total s - bytes_free s.
Proof.
  intros [Hst Hpo]. unfold retention_turn. destruct (rd_stats rd) as [[s|]|] eqn:Es; simpl; try done.
  specialize (Hst s eq_refl). destruct (rd_retentions rd) as [rs|] eqn:Er; simpl; try done. destruct (Hpo rs eq_refl) as [Hn Hf].
  destruct (get_retention_policy rs fs) as [r|] eqn:Ep; simpl; try done. apply get_retention_policy_spec in Ep as [Hin Hr]; [|done].
  rewrite Forall_forall in Hf. destruct (Hf r Hin) as [Hv Hk].
  destruct (rd_snapshots rd) as [rows|] eqn:Ew; simpl; try done. rewrite bytes_used_ok by done.
  destruct (_ && _) eqn:E; [|done]. apply andb_true_iff in E as [E Hrec%negb_true_iff%bool_decide_eq_false].
  apply andb_true_iff in E as [Hd Hl%Z.ltb_lt]. destruct (get_snapshots rows fs) as [|x rest] eqn:Hsn; [done|].
  intros [= <- <-]. split; [|eauto]. destruct (get_snapshots_head rows fs x rest Hsn) as [H1 H2].
  apply (Due _ _ _ _ s rs r rows x); try done.
  - by apply should_delete_missing.
  - rewrite <-Hsn, get_snapshots_perm in Hl. unfold keep in Hl. rewrite Z.mod_small in Hl by lia. done.
Qed.

Lemma retention_turn_none rd record fs n : reads_ok rd -> due rd record fs n -> retention_turn rd record fs <> Ok None.
Proof.
  intros [Hst Hpo] [s rs r rows x (Es & Er & Ew) [Hin Hr] Hm Hrec Hk (Hx & _ & _)]. unfold retention_turn.
  rewrite Es. simpl. rewrite Er. simpl. destruct (Hpo rs Er) as [Hn Hf]. rewrite Forall_forall in Hf. destruct (Hf r Hin) as [Hv Hk'].
  rewrite (proj2 (get_retention_policy_spec rs fs r Hn)) by done. rewrite Ew. simpl. specialize (Hst s Es).
  rewrite bytes_used_ok by done. rewrite (proj2 (should_delete_missing r s Hst Hv)) by done.
  rewrite (bool_decide_eq_false_2 _ Hrec), andb_true_r, andb_true_l.
  rewrite (proj2 (Z.ltb_lt _ _)) by (rewrite get_snapshots_perm; unfold keep; rewrite Z.mod_small; lia).
  pose proof (get_snapshots_perm rows fs) as Hp. destruct (get_snapshots rows fs); [|done].
  rewrite <-Hp in Hx. by apply elem_of_nil in Hx.
Qed.

(** ** A pass *)

Section Retention.
Context (reads : string -> Reads) (Hok : forall fs, reads_ok (reads fs)).

Lemma due_record record record' fs n : record !! fs = record' !! fs -> due (reads fs) record fs n -> due (reads fs) record' fs n.
Proof. intros E [s rs r rows x H1 H2 H3 H4 H5 H6]. rewrite E in H4. econstructor; eauto. Qed.

(** The rest of a pass adds to the log, of the file systems that are left. *)
Lemma retention_loop_spec fses record log log' out : NoDup fses ->
  retention_loop reads fses record log = (log', out) -> exists new, log' = log ++ new /\ NoDup new.*1 /\
    (forall fs n, (fs, n) ∈ new -> fs ∈ fses /\ due (reads fs) record fs n) /\
    forall record', out = Some record' ->
      (forall fs n, fs ∈ fses -> due (reads fs) record fs n -> fs ∈ new.*1) /\
      (forall fs s, fs ∈ new.*1 -> rd_stats (reads fs) = Ok (Some s) -> record' !! fs = Some (bytes_total s - bytes_free s)) /\
      (forall fs, fs ∉ new.*1 -> record' !! fs = record !! fs).
Proof.
  revert record log. induction fses as [|f fses IH]; intros record log Hn; simpl.
  { intros [= <- <-]. exists []. rewrite app_nil_r. split_and!; [done|constructor|by intros ? ? ?%elem_of_nil|].
    intros record' [= <-]. split_and!; [by intros ? ? ?%elem_of_nil|by intros ? ? ?%elem_of_nil|done]. }
  apply NoDup_cons in Hn as [Hf Hn]. destruct (retention_turn (reads f) record f) as [[[n used]|]|] eqn:Ht.
  - apply retention_turn_due in Ht as [Hd (s0 & Hs0 & Hu)]; [|done]. destruct (rd_destroy (reads f)).
    + intros (new & -> & H1 & H2 & H3)%IH; [|done].
      assert (forall fs m, (fs, m) ∈ new -> fs <> f) as Hne by (intros fs m [Hx _]%H2 ->; done).
      assert (f ∉ new.*1) as Hfn by (intros ([fs m] & -> & Hx)%list_elem_of_fmap; by apply Hne in Hx).
      exists ((f, n) :: new). rewrite <-app_assoc. split_and!; [done|by apply NoDup_cons|..].
      * intros fs m [[= -> ->]|Hx]%elem_of_cons; [split; [left|done]|]. destruct (H2 fs m Hx) as [? Hdue]. split; [by right|].
        apply (due_record (<[f := used]> record)); [|done]. apply lookup_insert_ne. apply not_eq_sym. by eapply Hne.
      * intros record' Ho. destruct (H3 record' Ho) as (H4 & H5 & H6). split_and!.
        -- intros fs m [->|Hx]%elem_of_cons Hdue; [left|]. right. apply (H4 fs m); [done|].
           apply (due_record record); [|done]. symmetry. apply lookup_insert_ne. congruence.
        -- intros fs s [->|Hx]%elem_of_cons Hs; [|by apply H5]. rewrite H6, lookup_insert_eq, Hu by done. simpl in Hs. rewrite Hs0 in Hs. by injection Hs as <-.
        -- intros fs Hx. apply not_elem_of_cons in Hx as [Hx1 Hx2]. rewrite H6 by done. by apply lookup_insert_ne.
    + intros [= <- <-]. exists [(f, n)]. split_and!; [done|apply NoDup_singleton| |done].
      intros fs m [= -> ->]%list_elem_of_singleton. split; [left|done].
  - intros (new & -> & H1 & H2 & H3)%IH; [|done]. exists new. split_and!; [done..| |].
    + intros fs m [? ?]%H2. split; [by right|done].
    + intros record' Ho. destruct (H3 record' Ho) as (H4 & H5 & H6). split_and!; [|done..].
      intros fs m [->|Hx]%elem_of_cons Hdue; [|by eapply H4]. by destruct (retention_turn_none (reads f) record f m).
  - intros [= <- <-]. exists []. rewrite app_nil_r. split_and!; [done|constructor|by intros ? ? ?%elem_of_nil|done].
Qed.

(** ** Retention destroys what it should, and no more *)
(** C38: a pass over the retentions (one for a file system, with numbers that are not
    negative, of file systems below 8 PiB) destroys at most one snapshot of a file
    system: one than which none of the file system's is older, and only when the
    reserve of that file system's retention is not free, it has more snapshots than the
    retention keeps, and the space in use is not the one recorded. A pass that meets no
    error destroys one of every file system for which that is so, and records the space
    in use for those and for no other, so that the next pass waits until it has changed. *)
Theorem retention_safe xs record log out (Hx : NoDup (re_filesystem_name <$> xs))
  (Hp : process_retention (Ok xs) reads record = (log, out)) :
  NoDup log.*1 /\ (forall fs n, (fs, n) ∈ log -> fs ∈ re_filesystem_name <$> xs /\ due (reads fs) record fs n) /\
  forall record', out = Some record' ->
    (forall fs n, fs ∈ re_filesystem_name <$> xs -> due (reads fs) record fs n -> fs ∈ log.*1) /\
    (forall fs s, fs ∈ log.*1 -> rd_stats (reads fs) = Ok (Some s) -> record' !! fs = Some (bytes_total s - bytes_free s)) /\
    (forall fs, fs ∉ log.*1 -> record' !! fs = record !! fs).
Proof. destruct (retention_loop_spec _ record [] log out Hx Hp) as (new & -> & H). exact H. Qed.

End Retention.

(** ** Statistics of nothing *)
(** When the statistics of a file system are all zero (no OST has reported), the
    share that is free is not a number, and a retention by percentage destroys
    nothing, whatever its reserve. *)
Theorem retention_no_stats r (Hr : re_reserve_unit r = Percent) :
  percent_free (MkFsStats 0 0 0) = S754_nan /\ should_delete_snapshot r (MkFsStats 0 0 0) = false.
Proof.
  assert (percent_free (MkFsStats 0 0 0) = S754_nan) as Hp by (by vm_compute).
  split; [done|]. unfold should_delete_snapshot. by rewrite Hr, Hp.
Qed.

(** * Witnesses *)

Section SnapshotWitnesses.

Definition snap_tick (now clients : Z) : Tick :=
  {| ti_snapshots := [MkSnapshot 1 "snap"]; ti_stats := {["snap" := Some clients]};
     ti_now := fun _ => now; ti_unmount := fun _ => true |}.

(** Clients at 0, none at 60 and 400 seconds. *)
Definition snap_ticks : list Tick := [snap_tick 0 2; snap_tick 60 0; snap_tick 400 0].

Definition snap_before : list TickResult :=
  [MkTickResult {[1 := Monitoring 2]} [(1, (0, 2))] [] true;
   MkTickResult {[1 := CountingDown 360]} [(1, (60, 0))] [] true].
Definition snap_last : TickResult := MkTickResult {[1 := Monitoring 0]} [(1, (400, 0))] [1] true.

Lemma unmount_after_idle_witness : exists h1 before clients t h2 now h3,
  seen_of 1 (all_seen snap_before ++ tr_seen snap_last) =
    h1 ++ (before, clients) :: (t, 0) :: h2 ++ (now, 0) :: h3 /\
  0 < clients /\ Forall (fun x => x.2 = 0) h2 /\ t + GRACE <= now.
Proof.
  apply (unmount_after_idle snap_ticks snap_before snap_last []).
  - by vm_compute.
  - left.
  - repeat constructor; simpl; lia.
Defined.

Lemma unmount_not_retried_witness : forall t,
  (monitor_turn t 0 (foldl (fun st '(now, clients) => Some (monitor_turn now clients st).1)
                       (Some (Monitoring 0)) [(460, 0)])).2 = false.
Proof. apply (unmount_not_retried 360 400 [(460, 0)]); [lia|by repeat constructor]. Defined.

Definition ten_percent : SnapshotRetention := MkSnapshotRetention "fs" 10 Percent 1.

(** Two file systems: one has 5 % free and two snapshots, the other 3 GiB of the 2 that
    it keeps free. *)
Definition two_retentions : list SnapshotRetention := [ten_percent; MkSnapshotRetention "big" 2 Gibibytes 0].
Definition two_snapshots : list SnapshotRow :=
  [MkSnapshotRow "fs" "new" 200; MkSnapshotRow "big" "other" 50; MkSnapshotRow "fs" "old" 100].
Definition sample_reads (fs : string) : Reads :=
  MkReads (Ok (Some (if String.eqb fs "fs" then MkFsStats 1000 50 50 else MkFsStats (2 ^ 40) (3 * 2 ^ 30) (3 * 2 ^ 30))))
    (Ok two_retentions) (Ok two_snapshots) true.

Lemma sample_reads_ok fs : reads_ok (sample_reads fs).
Proof.
  split.
  - intros s. simpl. destruct (String.eqb fs "fs"); intros [= <-]; split; simpl; lia.
  - intros rs [= <-]. split; [apply (bool_decide_unpack _); by vm_compute|]. repeat constructor; simpl; lia.
Qed.

Lemma retention_safe_witness : exists record',
  process_retention (Ok two_retentions) sample_reads ∅ = ([("fs", "old")], Some record') /\
  record' !! "fs" = Some 950 /\ due (sample_reads "fs") ∅ "fs" "old".
Proof.
  exists {["fs" := 950]}.
  assert (process_retention (Ok two_retentions) sample_reads ∅ = ([("fs", "old")], Some {["fs" := 950]})) as Hp by (by vm_compute).
  split; [exact Hp|].
  destruct (retention_safe sample_reads sample_reads_ok two_retentions ∅ [("fs", "old")] (Some {["fs" := 950]})) as (_ & H1 & H2);
    [|exact Hp|].
  - apply (bool_decide_unpack _). by vm_compute.
  - destruct (H2 _ eq_refl) as (_ & H3 & _). split.
    + apply (H3 "fs" (MkFsStats 1000 50 50)); [left|reflexivity].
    + apply (H1 "fs" "old"). left.
Defined.

(** An error of a query ends the pass without a record. *)
Example retention_error_ends :
  process_retention (Ok two_retentions) (fun fs => MkReads (Err tt) (Ok []) (Ok []) true) {["fs" := 1]} = ([], None).
Proof. by vm_compute. Qed.

Lemma retention_no_stats_witness : should_delete_snapshot ten_percent (MkFsStats 0 0 0) = false.
Proof. apply (retention_no_stats ten_percent eq_refl). Defined.

End SnapshotWitnesses.
