(* ===== verification/RequestRetry.v ===== *)
(** Retrying requests, [iml-request-retry/src/]: the loop that builds a future, awaits
    it and asks a policy what to do about an error ([lib.rs]), against the interface
    of the policies; and the policy with exponential backoff ([policy.rs]), with its
    [f32] arithmetic. *)
From S2P Require Import Prelude RustStd.
From stdpp Require Import base gmap sets list strings.
From Stdlib Require Import ZArith SpecFloat.

Open Scope Z_scope.

(** * Policies and the loop: [lib.rs] *)

(** Durations are in nanoseconds. *)
Inductive RetryAction (E : Type) : Type :=
| RetryNow
| WaitFor (duration : Z)
| ReturnError (e : E).
Arguments RetryNow {E}.
Arguments WaitFor {E} _.
Arguments ReturnError {E} _.

(** [None] is a panic. *)
Class RetryPolicy (E P : Type) : Type := {
  on_ok : Z -> P -> P;
  on_err : Z -> E -> P -> option (RetryAction E * P);
}.

(** A policy that gives up from some request on. *)
Class BoundedPolicy (E P : Type) `{RetryPolicy E P} : Type := {
  bound : P -> nat;
  bound_kept k e p a p' : on_err k e p = Some (a, p') -> bound p' = bound p;
  bound_stops k e p a p' : Z.of_nat (bound p) <= k -> on_err k e p = Some (a, p') -> exists e', a = ReturnError e';
}.

(** A closure is a policy without a state. *)
#[export] Instance closure_policy {E} (f : Z -> E -> RetryAction E) : RetryPolicy E unit :=
  {| on_ok := fun _ p => p; on_err := fun k e p => Some (f k e, p) |}.

(** How a call ends: with a result, or in a panic. *)
Inductive Ending (E T : Type) : Type :=
| Returns (r : Result E T)
| Panics.
Arguments Returns {E T} _.
Arguments Panics {E T}.

Section Retry.
Context {E P T : Type} `{RetryPolicy E P} (request : nat -> Result E T).

(** The loop from request number [request_no] on: [None] when [fuel] requests do not
    end it; with the durations it waited for and the requests it made. *)
Fixpoint retry_loop (fuel request_no : nat) (policy : P) (waits : list Z) :
    option (Ending E T * list Z * nat) :=
  match fuel with
  | O => None
  | S fuel =>
      match request request_no with
      | Ok x => let _ := on_ok (Z.of_nat request_no) policy in Some (Returns (Ok x), waits, S request_no)
      | Err e =>
          match on_err (Z.of_nat request_no) e policy with
          | None => Some (Panics, waits, S request_no)
          | Some (RetryNow, policy) => retry_loop fuel (S request_no) policy waits
          | Some (WaitFor d, policy) => retry_loop fuel (S request_no) policy (waits ++ [d])
          | Some (ReturnError err, _) => Some (Returns (Err err), waits, S request_no)
          end
      end
  end.

Definition retry_future (fuel : nat) (policy : P) : option (Ending E T * list Z * nat) :=
  retry_loop fuel 0 policy [].

(** The loop ends in time if each further request is within the policy's bound. *)
Lemma retry_loop_bounded `{!BoundedPolicy E P} fuel k policy waits :
  (bound policy < k + fuel)%nat -> (k <= bound policy)%nat -> (forall j, (j < k)%nat -> exists e, request j = Err e) ->
  exists out waits' n, retry_loop fuel k policy waits = Some (out, waits', n) /\
    (n <= S (bound policy))%nat /\
    forall x, out = Returns (Ok x) ->
      request (n - 1)%nat = Ok x /\ forall j, (j < n - 1)%nat -> exists e, request j = Err e.
Proof.
  revert k policy waits. induction fuel as [|fuel IH]; intros k policy waits Hf Hk Hpast; [lia|]. simpl.
  destruct (request k) as [x|e] eqn:Hr.
  { eexists _, _, _. split; [done|]. split; [lia|]. intros y [= <-]. simpl. by rewrite Nat.sub_0_r. }
  assert (forall j, (j < S k)%nat -> exists e, request j = Err e) as Hpast'.
  { intros j Hj. destruct (decide (j = k)) as [->|Hne]; [eauto|]. apply Hpast. lia. }
  assert (forall a p, on_err (Z.of_nat k) e policy = Some (a, p) ->
    bound p = bound policy /\ ((exists e', a = ReturnError e') \/ (S k <= bound policy)%nat)) as Hon.
  { intros a p Ha. split; [by eapply bound_kept|]. destruct (decide (S k <= bound policy)%nat); [by right|].
    left. eapply bound_stops; [|done]. lia. }
  destruct (on_err (Z.of_nat k) e policy) as [[[|d|err] p]|].
  - destruct (Hon _ _ eq_refl) as [Hb [[? ?]|Hlt]]; [done|]. rewrite <-Hb. apply IH; [lia|lia|done].
  - destruct (Hon _ _ eq_refl) as [Hb [[? ?]|Hlt]]; [done|]. rewrite <-Hb. apply IH; [lia|lia|done].
  - eexists _, _, _. split; [done|]. split; [lia|]. done.
  - eexists _, _, _. split; [done|]. split; [lia|]. done.
Qed.

(** ** Retrying ends *)
(** With a policy that gives up from request [n] on, the loop ends after at most
    [n + 1] requests, whatever they return; and if it returns a value, that is what
    the last request gave, and all requests before it failed. *)
Theorem retry_ends `{!BoundedPolicy E P} policy :
  exists out waits n, retry_future (S (bound policy)) policy = Some (out, waits, n) /\
    (n <= S (bound policy))%nat /\
    forall x, out = Returns (Ok x) ->
      request (n - 1)%nat = Ok x /\ forall j, (j < n - 1)%nat -> exists e, request j = Err e.
Proof. apply retry_loop_bounded; [lia|lia|]. intros j Hj. lia. Qed.

End Retry.

(** * Exponential backoff: [policy.rs] *)

(** [f32]. *)
Definition f32 (z : Z) : spec_float := binary_normalize 24 128 z 0 false.
Definition f32_add := SFadd 24 128.
Definition f32_sub := SFsub 24 128.
Definition f32_mul := SFmul 24 128.
Definition f32_div := SFdiv 24 128.

(** [f32::min]: a NaN gives way. *)
Definition f32_min (x y : spec_float) : spec_float :=
  match x, y with
  | S754_nan, _ => y
  | _, S754_nan => x
  | _, _ => if SFltb y x then y else x
  end.

Definition NANOS_PER_SEC : Z := 1000000000.

(** [Duration::as_secs_f32]. *)
Definition as_secs_f32 (d : Z) : spec_float :=
  f32_add (f32 (d / NANOS_PER_SEC)) (f32_div (f32 (d mod NANOS_PER_SEC)) (f32 NANOS_PER_SEC)).

(** [as u128] of a float that is not negative. *)
Definition f32_trunc (x : spec_float) : Z :=
  match x with
  | S754_finite false m e => if 0 <=? e then Z.pos m * 2 ^ e else Z.pos m / 2 ^ (- e)
  | _ => 0
  end.

(** [Duration::from_secs_f32]: a panic if negative, not finite or too big. *)
Definition from_secs_f32 (secs : spec_float) : option Z :=
  let nanos := f32_mul secs (f32 NANOS_PER_SEC) in
  match nanos with
  | S754_nan | S754_infinity _ => None
  | _ => if SFltb nanos (f32 0) then None
         else if SFltb nanos (f32 (2 ^ 64 * NANOS_PER_SEC)) then Some (f32_trunc nanos) else None
  end.

Record ExponentialBackoffPolicy : Type := MkPolicy {
  is_first_call : bool;
  current_delay : Z;
  randomized_delay : Z;
  max_count : Z;
  max_allowed_delay : Z;
  random_factor : spec_float;
  multiplier : spec_float;
}.

Definition half : spec_float := f32_div (f32 1) (f32 2).
Definition one_half_more : spec_float := f32_div (f32 3) (f32 2).

(** [with_f_rng]. *)
Definition policy_default : ExponentialBackoffPolicy :=
  {| is_first_call := true; current_delay := 500000000; randomized_delay := 500000000; max_count := 16;
     max_allowed_delay := 900 * NANOS_PER_SEC; random_factor := half; multiplier := one_half_more |}.

(** The builder, and its [build]. *)
Record Builder : Type := MkBuilder {
  b_initial_delay : option Z;
  b_max_count : option Z;
  b_random_factor : option spec_float;
  b_multiplier : option spec_float;
}.

Definition build (b : Builder) : ExponentialBackoffPolicy :=
  let p := policy_default in
  {| is_first_call := is_first_call p; current_delay := default (current_delay p) (b_initial_delay b);
     randomized_delay := default (randomized_delay p) (b_initial_delay b);
     max_count := default (max_count p) (b_max_count b); max_allowed_delay := max_allowed_delay p;
     random_factor := default (random_factor p) (b_random_factor b);
     multiplier := default (multiplier p) (b_multiplier b) |}.

Section Backoff.
Context {E : Type} (is_fatal_f : E -> bool).

(** [Uniform::new(low, high).sample(rng)]. *)
Context (sample : spec_float -> spec_float -> spec_float).

Definition randomize (p : ExponentialBackoffPolicy) (current_seconds : spec_float) : spec_float :=
  let delta := f32_mul (random_factor p) current_seconds in
  if SFltb (f32 0) delta then sample (f32_sub current_seconds delta) (f32_add current_seconds delta)
  else current_seconds.

Definition backoff_on_err (request_no : Z) (err : E) (p : ExponentialBackoffPolicy) :
    option (RetryAction E * ExponentialBackoffPolicy) :=
  if request_no <? max_count p then
    let current_seconds := f32_min (as_secs_f32 (current_delay p)) (as_secs_f32 (max_allowed_delay p)) in
    let current_seconds :=
      if is_first_call p then current_seconds else f32_mul current_seconds (multiplier p) in
    let randomized_seconds := randomize p current_seconds in
    current ← from_secs_f32 current_seconds;
    randomized ← from_secs_f32 randomized_seconds;
    Some (if is_fatal_f err then ReturnError err else WaitFor randomized,
          {| is_first_call := false; current_delay := current; randomized_delay := randomized;
             max_count := max_count p; max_allowed_delay := max_allowed_delay p;
             random_factor := random_factor p; multiplier := multiplier p |})
  else Some (ReturnError err, p).

#[export] Instance backoff_policy : RetryPolicy E ExponentialBackoffPolicy :=
  {| on_ok := fun _ p => p; on_err := backoff_on_err |}.

Lemma backoff_kept k e p a p' : backoff_on_err k e p = Some (a, p') -> max_count p' = max_count p.
Proof.
  unfold backoff_on_err. destruct (_ <? _); [|by intros [= _ <-]].
  intros (c & _ & Hc)%bind_Some. by apply bind_Some in Hc as (r & _ & [= _ <-]).
Qed.

#[export] Program Instance backoff_bounded : BoundedPolicy E ExponentialBackoffPolicy :=
  {| bound := fun p => Z.to_nat (max_count p) |}.
Next Obligation. intros k e p a p' Hp%backoff_kept. simpl. by rewrite Hp. Qed.
Next Obligation.
  intros k e p a p' Hk Hp. simpl in Hk, Hp. unfold backoff_on_err in Hp. destruct (k <? max_count p) eqn:Hm.
  - apply Z.ltb_lt in Hm. lia.
  - injection Hp as <- _. eauto.
Qed.

End Backoff.

(** What the loop returns, and what it went past. *)
Lemma backoff_loop {E T} (is_fatal_f : E -> bool) sample (request : nat -> Result E T) fuel k p waits out waits' n :
  (forall e j, (j < k)%nat -> request j = Err e -> is_fatal_f e = false) ->
  retry_loop (H := backoff_policy is_fatal_f sample) request fuel k p waits = Some (out, waits', n) ->
  (forall e, out = Returns (Err e) -> request (n - 1)%nat = Err e) /\
  (forall e j, (j < n - 1)%nat -> request j = Err e -> is_fatal_f e = false).
Proof.
  revert k p waits. induction fuel as [|fuel IH]; intros k p waits Hpast; [done|]. simpl.
  destruct (request k) as [x|e] eqn:Hr.
  { intros [= <- <- <-]. simpl. by rewrite Nat.sub_0_r. }
  destruct (backoff_on_err is_fatal_f sample (Z.of_nat k) e p) as [[a p']|] eqn:Ho.
  2:{ intros [= <- <- <-]. simpl. by rewrite Nat.sub_0_r. }
  assert (a = ReturnError e \/ exists d, a = WaitFor d /\ is_fatal_f e = false) as Ha.
  { unfold backoff_on_err in Ho. destruct (_ <? _); [|injection Ho as <- _; by left].
    apply bind_Some in Ho as (c & _ & Ho). apply bind_Some in Ho as (r & _ & [= <- _]).
    destruct (is_fatal_f e); [by left|right; eauto]. }
  destruct Ha as [->|(d & -> & Hf)].
  - intros [= <- <- <-]. simpl. rewrite Nat.sub_0_r. split; [by intros e' [= <-]|done].
  - apply IH. intros e' j Hj He'. destruct (decide (j = k)) as [->|Hne]; [congruence|].
    apply (Hpast e' j); [lia|done].
Qed.

(** ** The backoff policy *)
(** With the exponential backoff every request is made at most [max_count + 1]
    times; the error that is returned is one that a request gave; and a fatal error is
    returned at once, without another request or wait. *)
Theorem backoff_retries {E T} (is_fatal_f : E -> bool) sample (request : nat -> Result E T) p
  (Hm : 0 <= max_count p) :
  exists out waits n,
    retry_future (H := backoff_policy is_fatal_f sample) request (S (Z.to_nat (max_count p))) p = Some (out, waits, n) /\
    Z.of_nat n <= max_count p + 1 /\
    (forall e, out = Returns (Err e) -> request (n - 1)%nat = Err e) /\
    (forall e k, (k < n - 1)%nat -> request k = Err e -> is_fatal_f e = false).
Proof.
  destruct (retry_loop_bounded (H := backoff_policy is_fatal_f sample) request (S (Z.to_nat (max_count p))) 0 p [])
    as (out & waits & n & Hr & Hn & _); simpl; [lia|lia|intros; lia|].
  exists out, waits, n. split; [done|]. simpl in Hn. split; [lia|]. apply (backoff_loop _ _ _ _ _ _ _ _ _ _) in Hr; [done|].
  intros; lia.
Qed.

(** The delays before the requests that follow, when every request fails and nothing
    is random. *)
Definition steady (b : Builder) : ExponentialBackoffPolicy :=
  build {| b_initial_delay := b_initial_delay b; b_max_count := b_max_count b;
           b_random_factor := Some (f32 0); b_multiplier := b_multiplier b |}.

Definition delays (p : ExponentialBackoffPolicy) : list Z :=
  match retry_future (E := unit) (T := unit) (H := backoff_policy (fun _ => false) (fun low _ => low))
          (fun _ => Err tt) (S (Z.to_nat (max_count p))) p with
  | Some (_, waits, _) => waits
  | None => []
  end.

(** The table in the documentation of the policy, in milliseconds. *)
Definition documented : list Z := [500; 750; 1125; 1687; 2530; 3795; 5692; 8538; 12807; 19210].

(** ** The delays of the default policy *)
(** Without randomization the default policy waits sixteen times; the first ten
    delays are those of the documented table, within a thousandth, and none reaches
    four minutes. *)
Theorem default_delays :
  let ds := delays (steady (MkBuilder None None None None)) in
  Forall2 (fun d ms => 1000 * Z.abs (d - ms * 1000000) <= ms * 1000000) (take 10 ds) documented /\
  length ds = 16%nat /\ Forall (fun d => d < 240 * NANOS_PER_SEC) ds.
Proof.
  assert (delays (steady (MkBuilder None None None None)) =
    [500000000; 750000000; 1124999936; 1687499776; 2531249408; 3796874240; 5695311360; 8542966784;
     12814450688; 19221676032; 28832514048; 43248771072; 64873152512; 97309728768; 145964597248;
     218946895872]) as E by (by vm_compute).
  cbv zeta. rewrite E. split; [|split; [done|]]; unfold NANOS_PER_SEC; repeat constructor; simpl; lia.
Qed.

(** ** The greatest delay is exceeded *)
(** The allowed delay bounds the delay before it is multiplied, not after: a
    policy built for more requests waits one and a half times the allowed delay, even
    without randomization. *)
Theorem max_delay_exceeded :
  let p := steady (MkBuilder None (Some 24) None None) in
  max_allowed_delay p = 900 * NANOS_PER_SEC /\
  exists d, d ∈ delays p /\ 1350 * NANOS_PER_SEC <= d.
Proof.
  split; [done|]. exists 1350000050176. split; [|unfold NANOS_PER_SEC; lia].
  apply (list_elem_of_lookup_2 _ 20). by vm_compute.
Qed.

(** * Witnesses *)

(** Two errors and then a success. *)
Definition third_time (k : nat) : Result unit nat := if (k <? 2)%nat then Err tt else Ok k.

Lemma backoff_retries_witness : exists out waits n,
  retry_future (H := backoff_policy (fun _ => false) (fun low _ => low)) third_time 17 policy_default =
    Some (out, waits, n) /\ Z.of_nat n <= 17.
Proof.
  destruct (backoff_retries (fun _ => false) (fun low _ => low) third_time policy_default) as (out & waits & n & Hr & Hn & _).
  - done.
  - exists out, waits, n. split; [exact Hr|exact Hn].
Defined.
