(* ===== verification/WarpTypes.v ===== *)
(** The records that the manager shows its users, [iml-wire-types/src/] ([lib.rs],
    [db.rs], [sfa.rs], [snapshot.rs]): what the database tables and the API hold, with
    the enumerations in them. Machine integers are [Z], times and durations [Z],
    [f64] the floats of [SpecFloat]. *)
From S2P Require Import Prelude RustStd.
From stdpp Require Import base gmap sets list strings.
From Stdlib Require Import ZArith SpecFloat.

Open Scope Z_scope.

#[export] Instance spec_float_eq_dec : EqDecision spec_float.
Proof. solve_decision. Defined.

Inductive FsType : Type :=
| FsType_Zfs | FsType_Ldiskfs.
#[export] Instance FsType_eq_dec : EqDecision FsType.
Proof. solve_decision. Defined.

Inductive AlertRecordType : Type :=
| AlertRecordType_AlertState | AlertRecordType_LearnEvent | AlertRecordType_AlertEvent | AlertRecordType_SyslogEvent
| AlertRecordType_ClientConnectEvent | AlertRecordType_CommandRunningAlert | AlertRecordType_CommandSuccessfulAlert
| AlertRecordType_CommandCancelledAlert | AlertRecordType_CommandErroredAlert | AlertRecordType_CorosyncUnknownPeersAlert
| AlertRecordType_CorosyncToManyPeersAlert | AlertRecordType_CorosyncNoPeersAlert | AlertRecordType_CorosyncStoppedAlert
| AlertRecordType_StonithNotEnabledAlert | AlertRecordType_PacemakerStoppedAlert | AlertRecordType_HostContactAlert
| AlertRecordType_HostOfflineAlert | AlertRecordType_HostRebootEvent | AlertRecordType_UpdatesAvailableAlert
| AlertRecordType_TargetOfflineAlert | AlertRecordType_TargetRecoveryAlert | AlertRecordType_StorageResourceOffline
| AlertRecordType_StorageResourceAlert | AlertRecordType_StorageResourceLearnEvent | AlertRecordType_PowerControlDeviceUnavailableAlert
| AlertRecordType_IpmiBmcUnavailableAlert | AlertRecordType_LNetOfflineAlert | AlertRecordType_LNetNidsChangedAlert
| AlertRecordType_StratagemUnconfiguredAlert | AlertRecordType_TimeOutOfSyncAlert | AlertRecordType_NoTimeSyncAlert
| AlertRecordType_MultipleTimeSyncAlert | AlertRecordType_UnknownTimeSyncAlert.
#[export] Instance AlertRecordType_eq_dec : EqDecision AlertRecordType.
Proof. solve_decision. Defined.

Inductive AlertSeverity : Type :=
| AlertSeverity_DEBUG | AlertSeverity_INFO | AlertSeverity_WARNING | AlertSeverity_ERROR | AlertSeverity_CRITICAL.
#[export] Instance AlertSeverity_eq_dec : EqDecision AlertSeverity.
Proof. solve_decision. Defined.

Inductive HealthState : Type :=
| HealthState_None | HealthState_Ok | HealthState_NonCritical | HealthState_Critical | HealthState_Unknown.
#[export] Instance HealthState_eq_dec : EqDecision HealthState.
Proof. solve_decision. Defined.

Inductive JobState : Type :=
| JobState_Queued | JobState_Running | JobState_Paused | JobState_Suspended | JobState_Completed
| JobState_NoSpares | JobState_Unknown.
#[export] Instance JobState_eq_dec : EqDecision JobState.
Proof. solve_decision. Defined.

Inductive JobType : Type :=
| JobType_Initialize | JobType_Rebuild | JobType_RebuildFract | JobType_RebuildDist | JobType_Erase
| JobType_Delete | JobType_Failover | JobType_Move | JobType_Migrate | JobType_Verify | JobType_VerifyForce
| JobType_VerifyOnce | JobType_VerifyNoCorrect | JobType_NonDestructiveInitialize | JobType_Copyback
| JobType_RebuildFast | JobType_Failback | JobType_RebuildMixed | JobType_Unknown.
#[export] Instance JobType_eq_dec : EqDecision JobType.
Proof. solve_decision. Defined.

Inductive MemberState : Type :=
| MemberState_Normal | MemberState_Missing | MemberState_AlreadyMissing | MemberState_Rebuilding
| MemberState_WaitingToRebuild | MemberState_Failed | MemberState_MissingNoRebuild | MemberState_ErrorRec
| MemberState_Unassigned | MemberState_Copyback | MemberState_WaitingCopyback | MemberState_Locked
| MemberState_LockedNoRebuild | MemberState_AlreadyLocked | MemberState_MissingPreventsRebuild
| MemberState_LockedPreventsRebuild | MemberState_Unknown.
#[export] Instance MemberState_eq_dec : EqDecision MemberState.
Proof. solve_decision. Defined.

Inductive SubTargetType : Type :=
| SubTargetType_Pool | SubTargetType_Vd | SubTargetType_Pd | SubTargetType_Unknown.
#[export] Instance SubTargetType_eq_dec : EqDecision SubTargetType.
Proof. solve_decision. Defined.

Inductive EnclosureType : Type :=
| EnclosureType_None | EnclosureType_Disk | EnclosureType_Controller | EnclosureType_Ups | EnclosureType_Unknown.
#[export] Instance EnclosureType_eq_dec : EqDecision EnclosureType.
Proof. solve_decision. Defined.

Inductive ReserveUnit : Type :=
| ReserveUnit_Percent | ReserveUnit_Gibibytes | ReserveUnit_Tebibytes.
#[export] Instance ReserveUnit_eq_dec : EqDecision ReserveUnit.
Proof. solve_decision. Defined.

Inductive LockType : Type :=
| LockType_Read | LockType_Write.
#[export] Instance LockType_eq_dec : EqDecision LockType.
Proof. solve_decision. Defined.

Inductive LockAction : Type :=
| LockAction_Add | LockAction_Remove.
#[export] Instance LockAction_eq_dec : EqDecision LockAction.
Proof. solve_decision. Defined.

(** [CompositeId]. *)
Record CompositeId : Type := MkCompositeId { ci_type : Z; ci_item : Z }.
#[export] Instance CompositeId_eq_dec : EqDecision CompositeId.
Proof. solve_decision. Defined.

Record LockChange : Type := MkLockChange {
  LockChange_uuid : string; LockChange_job_id : Z; LockChange_content_type_id : Z;
  LockChange_item_id : Z; LockChange_description : string; LockChange_lock_type : LockType;
  LockChange_action : LockAction;
}.
#[export] Instance LockChange_eq_dec : EqDecision LockChange.
Proof. solve_decision. Defined.

Record ServerProfile : Type := MkServerProfile {
  ServerProfile_corosync : bool; ServerProfile_corosync2 : bool; ServerProfile_default : bool;
  ServerProfile_initial_state : string; ServerProfile_managed : bool;
  ServerProfile_name : string; ServerProfile_ntp : bool; ServerProfile_pacemaker : bool;
  ServerProfile_repolist : list string; ServerProfile_resource_uri : string;
  ServerProfile_ui_description : string; ServerProfile_ui_name : string;
  ServerProfile_user_selectable : bool; ServerProfile_worker : bool;
}.
#[export] Instance ServerProfile_eq_dec : EqDecision ServerProfile.
Proof. solve_decision. Defined.

Record FilesystemConfParams : Type := MkFilesystemConfParams {
  FilesystemConfParams_llite_max_cached_mb : option string;
  FilesystemConfParams_llite_max_read_ahead_mb : option string;
  FilesystemConfParams_llite_max_read_ahead_whole_mb : option string;
  FilesystemConfParams_llite_statahead_max : option string;
  FilesystemConfParams_sys_at_early_margin : option string;
  FilesystemConfParams_sys_at_extra : option string;
  FilesystemConfParams_sys_at_history : option string;
  FilesystemConfParams_sys_at_max : option string;
  FilesystemConfParams_sys_at_min : option string;
  FilesystemConfParams_sys_ldlm_timeout : option string;
  FilesystemConfParams_sys_timeout : option string;
}.
#[export] Instance FilesystemConfParams_eq_dec : EqDecision FilesystemConfParams.
Proof. solve_decision. Defined.

Record MdtConfParams : Type := MkMdtConfParams {
  MdtConfParams_lov_qos_prio_free : option string;
  MdtConfParams_lov_qos_threshold_rr : option string;
  MdtConfParams_lov_stripecount : option string; MdtConfParams_lov_stripesize : option string;
  MdtConfParams_mdt_mds_mds_threads_max : option string;
  MdtConfParams_mdt_mds_mds_threads_min : option string;
  MdtConfParams_mdt_mds_mds_readpage_threads_max : option string;
  MdtConfParams_mdt_mds_mds_readpage_threads_min : option string;
  MdtConfParams_mdt_mds_mds_setattr_threads_max : option string;
  MdtConfParams_mdt_mds_mds_setattr_threads_min : option string;
  MdtConfParams_mdt_hsm_control : option string;
}.
#[export] Instance MdtConfParams_eq_dec : EqDecision MdtConfParams.
Proof. solve_decision. Defined.

Record HsmControlParamMdt : Type := MkHsmControlParamMdt {
  HsmControlParamMdt_id : string; HsmControlParamMdt_kind : string;
  HsmControlParamMdt_resource : string; HsmControlParamMdt_conf_params : MdtConfParams;
}.
#[export] Instance HsmControlParamMdt_eq_dec : EqDecision HsmControlParamMdt.
Proof. solve_decision. Defined.

Record HsmControlParam : Type := MkHsmControlParam {
  HsmControlParam_long_description : string; HsmControlParam_param_key : string;
  HsmControlParam_param_value : string; HsmControlParam_verb : string;
  HsmControlParam_mdt : HsmControlParamMdt;
}.
#[export] Instance HsmControlParam_eq_dec : EqDecision HsmControlParam.
Proof. solve_decision. Defined.

Record Alert : Type := MkAlert {
  Alert_raw_message : option string; Alert_active : option bool;
  Alert_affected : option (list string);
  Alert_affected_composite_ids : option (list CompositeId); Alert_alert_item : string;
  Alert_alert_item_id : option Z; Alert_alert_item_str : string; Alert_alert_type : string;
  Alert_begin : string; Alert_dismissed : bool; Alert_end : option string; Alert_id : Z;
  Alert_lustre_pid : option Z; Alert_message : string; Alert_record_type : AlertRecordType;
  Alert_resource_uri : string; Alert_severity : AlertSeverity; Alert_variant : string;
}.
#[export] Instance Alert_eq_dec : EqDecision Alert.
Proof. solve_decision. Defined.

Record ContentTypeRecord : Type := MkContentTypeRecord {
  ContentTypeRecord_id : Z; ContentTypeRecord_app_label : string;
  ContentTypeRecord_model : string;
}.
#[export] Instance ContentTypeRecord_eq_dec : EqDecision ContentTypeRecord.
Proof. solve_decision. Defined.

Record CorosyncConfigurationRecord : Type := MkCorosyncConfigurationRecord {
  CorosyncConfigurationRecord_id : Z; CorosyncConfigurationRecord_state : string;
  CorosyncConfigurationRecord_state_modified_at : Z;
  CorosyncConfigurationRecord_immutable_state : bool;
  CorosyncConfigurationRecord_not_deleted : option bool;
  CorosyncConfigurationRecord_mcast_port : option Z;
  CorosyncConfigurationRecord_corosync_reported_up : bool;
  CorosyncConfigurationRecord_content_type_id : option Z;
  CorosyncConfigurationRecord_host_id : Z; CorosyncConfigurationRecord_record_type : string;
}.
#[export] Instance CorosyncConfigurationRecord_eq_dec : EqDecision CorosyncConfigurationRecord.
Proof. solve_decision. Defined.

Record CorosyncResourceRecord : Type := MkCorosyncResourceRecord {
  CorosyncResourceRecord_id : Z; CorosyncResourceRecord_name : string;
  CorosyncResourceRecord_cluster_id : Z; CorosyncResourceRecord_resource_agent : string;
  CorosyncResourceRecord_role : string; CorosyncResourceRecord_active : bool;
  CorosyncResourceRecord_orphaned : bool; CorosyncResourceRecord_managed : bool;
  CorosyncResourceRecord_failed : bool; CorosyncResourceRecord_failure_ignored : bool;
  CorosyncResourceRecord_nodes_running_on : Z;
  CorosyncResourceRecord_active_node_id : option string;
  CorosyncResourceRecord_active_node_name : option string;
  CorosyncResourceRecord_mount_point : option string;
}.
#[export] Instance CorosyncResourceRecord_eq_dec : EqDecision CorosyncResourceRecord.
Proof. solve_decision. Defined.

Record CorosyncResourceBanRecord : Type := MkCorosyncResourceBanRecord {
  CorosyncResourceBanRecord_id : Z; CorosyncResourceBanRecord_name : string;
  CorosyncResourceBanRecord_cluster_id : Z; CorosyncResourceBanRecord_resource : string;
  CorosyncResourceBanRecord_node : string; CorosyncResourceBanRecord_weight : Z;
  CorosyncResourceBanRecord_master_only : bool;
}.
#[export] Instance CorosyncResourceBanRecord_eq_dec : EqDecision CorosyncResourceBanRecord.
Proof. solve_decision. Defined.

Record Filesystem : Type := MkFilesystem {
  Filesystem_bytes_free : option spec_float; Filesystem_bytes_total : option spec_float;
  Filesystem_cdt_mdt : option string; Filesystem_cdt_status : option string;
  Filesystem_client_count : option Z; Filesystem_conf_params : FilesystemConfParams;
  Filesystem_content_type_id : Z; Filesystem_files_free : option Z;
  Filesystem_files_total : option Z;
  Filesystem_hsm_control_params : option (list HsmControlParam); Filesystem_id : Z;
  Filesystem_immutable_state : bool; Filesystem_label : string; Filesystem_mdts : list string;
  Filesystem_mgt : string; Filesystem_name : string; Filesystem_osts : list string;
  Filesystem_resource_uri : string; Filesystem_state : string;
  Filesystem_state_modified_at : string;
}.
#[export] Instance Filesystem_eq_dec : EqDecision Filesystem.
Proof. solve_decision. Defined.

Record AuthGroupRecord : Type := MkAuthGroupRecord {
  AuthGroupRecord_id : Z; AuthGroupRecord_name : string;
}.
#[export] Instance AuthGroupRecord_eq_dec : EqDecision AuthGroupRecord.
Proof. solve_decision. Defined.

Record Host : Type := MkHost {
  Host_address : string; Host_boot_time : option string; Host_content_type_id : Z;
  Host_corosync_configuration : option string; Host_corosync_ring0 : string; Host_fqdn : string;
  Host_id : Z; Host_immutable_state : bool; Host_install_method : string; Host_label : string;
  Host_lnet_configuration : string; Host_needs_update : bool; Host_nids : option (list string);
  Host_nodename : string; Host_pacemaker_configuration : option string;
  Host_private_key : option string; Host_private_key_passphrase : option string;
  Host_resource_uri : string; Host_root_pw : option string; Host_server_profile : ServerProfile;
  Host_state : string; Host_state_modified_at : string;
}.
#[export] Instance Host_eq_dec : EqDecision Host.
Proof. solve_decision. Defined.

Record LnetConfigurationRecord : Type := MkLnetConfigurationRecord {
  LnetConfigurationRecord_id : Z; LnetConfigurationRecord_state : string;
  LnetConfigurationRecord_host_id : Z; LnetConfigurationRecord_immutable_state : bool;
  LnetConfigurationRecord_not_deleted : option bool;
  LnetConfigurationRecord_content_type_id : option Z;
  LnetConfigurationRecord_state_modified_at : Z;
}.
#[export] Instance LnetConfigurationRecord_eq_dec : EqDecision LnetConfigurationRecord.
Proof. solve_decision. Defined.

Record OstPoolRecord : Type := MkOstPoolRecord {
  OstPoolRecord_id : Z; OstPoolRecord_name : string; OstPoolRecord_filesystem_id : Z;
  OstPoolRecord_not_deleted : option bool; OstPoolRecord_content_type_id : option Z;
}.
#[export] Instance OstPoolRecord_eq_dec : EqDecision OstPoolRecord.
Proof. solve_decision. Defined.

Record OstPoolOstsRecord : Type := MkOstPoolOstsRecord {
  OstPoolOstsRecord_id : Z; OstPoolOstsRecord_ostpool_id : Z;
  OstPoolOstsRecord_managedost_id : Z;
}.
#[export] Instance OstPoolOstsRecord_eq_dec : EqDecision OstPoolOstsRecord.
Proof. solve_decision. Defined.

Record PacemakerConfigurationRecord : Type := MkPacemakerConfigurationRecord {
  PacemakerConfigurationRecord_id : Z; PacemakerConfigurationRecord_state : string;
  PacemakerConfigurationRecord_state_modified_at : Z;
  PacemakerConfigurationRecord_immutable_state : bool;
  PacemakerConfigurationRecord_not_deleted : option bool;
  PacemakerConfigurationRecord_content_type_id : option Z;
  PacemakerConfigurationRecord_host_id : Z;
}.
#[export] Instance PacemakerConfigurationRecord_eq_dec : EqDecision PacemakerConfigurationRecord.
Proof. solve_decision. Defined.

Record SfaDiskDrive : Type := MkSfaDiskDrive {
  SfaDiskDrive_id : Z; SfaDiskDrive_index : Z; SfaDiskDrive_enclosure_index : Z;
  SfaDiskDrive_failed : bool; SfaDiskDrive_slot_number : Z;
  SfaDiskDrive_health_state : HealthState; SfaDiskDrive_health_state_reason : string;
  SfaDiskDrive_member_index : option Z; SfaDiskDrive_member_state : MemberState;
  SfaDiskDrive_storage_system : string;
}.
#[export] Instance SfaDiskDrive_eq_dec : EqDecision SfaDiskDrive.
Proof. solve_decision. Defined.

Record SfaEnclosure : Type := MkSfaEnclosure {
  SfaEnclosure_id : Z; SfaEnclosure_index : Z; SfaEnclosure_element_name : string;
  SfaEnclosure_health_state : HealthState; SfaEnclosure_health_state_reason : string;
  SfaEnclosure_child_health_state : HealthState; SfaEnclosure_model : string;
  SfaEnclosure_position : Z; SfaEnclosure_enclosure_type : EnclosureType;
  SfaEnclosure_canister_location : string; SfaEnclosure_storage_system : string;
}.
#[export] Instance SfaEnclosure_eq_dec : EqDecision SfaEnclosure.
Proof. solve_decision. Defined.

Record SfaStorageSystem : Type := MkSfaStorageSystem {
  SfaStorageSystem_id : Z; SfaStorageSystem_child_health_state : HealthState;
  SfaStorageSystem_health_state_reason : string; SfaStorageSystem_health_state : HealthState;
  SfaStorageSystem_uuid : string; SfaStorageSystem_platform : string;
}.
#[export] Instance SfaStorageSystem_eq_dec : EqDecision SfaStorageSystem.
Proof. solve_decision. Defined.

Record SfaJob : Type := MkSfaJob {
  SfaJob_id : Z; SfaJob_index : Z; SfaJob_sub_target_index : option Z;
  SfaJob_sub_target_type : option SubTargetType; SfaJob_job_type : JobType;
  SfaJob_state : JobState; SfaJob_storage_system : string;
}.
#[export] Instance SfaJob_eq_dec : EqDecision SfaJob.
Proof. solve_decision. Defined.

Record SfaPowerSupply : Type := MkSfaPowerSupply {
  SfaPowerSupply_id : Z; SfaPowerSupply_index : Z; SfaPowerSupply_enclosure_index : Z;
  SfaPowerSupply_health_state : HealthState; SfaPowerSupply_health_state_reason : string;
  SfaPowerSupply_position : Z; SfaPowerSupply_storage_system : string;
}.
#[export] Instance SfaPowerSupply_eq_dec : EqDecision SfaPowerSupply.
Proof. solve_decision. Defined.

Record SfaController : Type := MkSfaController {
  SfaController_id : Z; SfaController_index : Z; SfaController_enclosure_index : Z;
  SfaController_health_state : HealthState; SfaController_health_state_reason : string;
  SfaController_child_health_state : HealthState; SfaController_storage_system : string;
}.
#[export] Instance SfaController_eq_dec : EqDecision SfaController.
Proof. solve_decision. Defined.

Record SnapshotRecord : Type := MkSnapshotRecord {
  SnapshotRecord_id : Z; SnapshotRecord_filesystem_name : string;
  SnapshotRecord_snapshot_name : string; SnapshotRecord_modify_time : Z;
  SnapshotRecord_create_time : Z; SnapshotRecord_snapshot_fsname : string;
  SnapshotRecord_mounted : bool; SnapshotRecord_comment : option string;
}.
#[export] Instance SnapshotRecord_eq_dec : EqDecision SnapshotRecord.
Proof. solve_decision. Defined.

Record SnapshotInterval : Type := MkSnapshotInterval {
  SnapshotInterval_id : Z; SnapshotInterval_filesystem_name : string;
  SnapshotInterval_use_barrier : bool; SnapshotInterval_interval : Z;
  SnapshotInterval_last_run : option Z;
}.
#[export] Instance SnapshotInterval_eq_dec : EqDecision SnapshotInterval.
Proof. solve_decision. Defined.

Record SnapshotRetention : Type := MkSnapshotRetention {
  SnapshotRetention_id : Z; SnapshotRetention_filesystem_name : string;
  SnapshotRetention_reserve_value : Z; SnapshotRetention_reserve_unit : ReserveUnit;
  SnapshotRetention_keep_num : Z; SnapshotRetention_last_run : option Z;
}.
#[export] Instance SnapshotRetention_eq_dec : EqDecision SnapshotRetention.
Proof. solve_decision. Defined.

Record StratagemConfiguration : Type := MkStratagemConfiguration {
  StratagemConfiguration_id : Z; StratagemConfiguration_filesystem_id : Z;
  StratagemConfiguration_interval : Z; StratagemConfiguration_report_duration : option Z;
  StratagemConfiguration_purge_duration : option Z;
  StratagemConfiguration_immutable_state : bool;
  StratagemConfiguration_not_deleted : option bool; StratagemConfiguration_state : string;
  StratagemConfiguration_state_modified_at : Z;
}.
#[export] Instance StratagemConfiguration_eq_dec : EqDecision StratagemConfiguration.
Proof. solve_decision. Defined.

Record ManagedTargetRecord : Type := MkManagedTargetRecord {
  ManagedTargetRecord_id : Z; ManagedTargetRecord_state_modified_at : Z;
  ManagedTargetRecord_state : string; ManagedTargetRecord_immutable_state : bool;
  ManagedTargetRecord_name : option string; ManagedTargetRecord_uuid : option string;
  ManagedTargetRecord_ha_label : option string; ManagedTargetRecord_inode_size : option Z;
  ManagedTargetRecord_bytes_per_inode : option Z; ManagedTargetRecord_inode_count : option Z;
  ManagedTargetRecord_reformat : bool; ManagedTargetRecord_not_deleted : option bool;
  ManagedTargetRecord_content_type_id : option Z;
}.
#[export] Instance ManagedTargetRecord_eq_dec : EqDecision ManagedTargetRecord.
Proof. solve_decision. Defined.

Record TargetRecord : Type := MkTargetRecord {
  TargetRecord_id : Z; TargetRecord_state : string; TargetRecord_name : string;
  TargetRecord_dev_path : option string; TargetRecord_active_host_id : option Z;
  TargetRecord_host_ids : list Z; TargetRecord_filesystems : list string;
  TargetRecord_uuid : string; TargetRecord_mount_path : option string;
  TargetRecord_fs_type : option FsType;
}.
#[export] Instance TargetRecord_eq_dec : EqDecision TargetRecord.
Proof. solve_decision. Defined.

Record AuthUserRecord : Type := MkAuthUserRecord {
  AuthUserRecord_id : Z; AuthUserRecord_is_superuser : bool; AuthUserRecord_username : string;
  AuthUserRecord_first_name : string; AuthUserRecord_last_name : string;
  AuthUserRecord_email : string; AuthUserRecord_is_staff : bool; AuthUserRecord_is_active : bool;
}.
#[export] Instance AuthUserRecord_eq_dec : EqDecision AuthUserRecord.
Proof. solve_decision. Defined.

Record AuthUserGroupRecord : Type := MkAuthUserGroupRecord {
  AuthUserGroupRecord_id : Z; AuthUserGroupRecord_user_id : Z; AuthUserGroupRecord_group_id : Z;
}.
#[export] Instance AuthUserGroupRecord_eq_dec : EqDecision AuthUserGroupRecord.
Proof. solve_decision. Defined.

Record VolumeRecord : Type := MkVolumeRecord {
  VolumeRecord_id : Z; VolumeRecord_storage_resource_id : option Z; VolumeRecord_size : option Z;
  VolumeRecord_label : string; VolumeRecord_filesystem_type : option string;
  VolumeRecord_not_deleted : option bool; VolumeRecord_usable_for_lustre : bool;
}.
#[export] Instance VolumeRecord_eq_dec : EqDecision VolumeRecord.
Proof. solve_decision. Defined.

Record VolumeNodeRecord : Type := MkVolumeNodeRecord {
  VolumeNodeRecord_id : Z; VolumeNodeRecord_volume_id : Z; VolumeNodeRecord_host_id : Z;
  VolumeNodeRecord_path : string; VolumeNodeRecord_storage_resource_id : option Z;
  VolumeNodeRecord_primary : bool; VolumeNodeRecord_use : bool;
  VolumeNodeRecord_not_deleted : option bool;
}.
#[export] Instance VolumeNodeRecord_eq_dec : EqDecision VolumeNodeRecord.
Proof. solve_decision. Defined.

Record AlertStateRecord : Type := MkAlertStateRecord {
  AlertStateRecord_id : Z; AlertStateRecord_alert_item_type_id : option Z;
  AlertStateRecord_alert_item_id : option Z; AlertStateRecord_alert_type : string;
  AlertStateRecord_begin : string; AlertStateRecord_end : option string;
  AlertStateRecord_active : option bool; AlertStateRecord_dismissed : bool;
  AlertStateRecord_severity : Z; AlertStateRecord_record_type : string;
  AlertStateRecord_variant : option string; AlertStateRecord_lustre_pid : option Z;
  AlertStateRecord_message : option string;
}.
#[export] Instance AlertStateRecord_eq_dec : EqDecision AlertStateRecord.
Proof. solve_decision. Defined.

Record ManagedHostRecord : Type := MkManagedHostRecord {
  ManagedHostRecord_id : Z; ManagedHostRecord_state_modified_at : Z;
  ManagedHostRecord_state : string; ManagedHostRecord_immutable_state : bool;
  ManagedHostRecord_not_deleted : option bool; ManagedHostRecord_content_type_id : option Z;
  ManagedHostRecord_address : string; ManagedHostRecord_fqdn : string;
  ManagedHostRecord_nodename : string; ManagedHostRecord_boot_time : option Z;
  ManagedHostRecord_server_profile_id : option string; ManagedHostRecord_needs_update : bool;
  ManagedHostRecord_install_method : string; ManagedHostRecord_corosync_ring0 : string;
}.
#[export] Instance ManagedHostRecord_eq_dec : EqDecision ManagedHostRecord.
Proof. solve_decision. Defined.

Record FsRecord : Type := MkFsRecord {
  FsRecord_id : Z; FsRecord_state_modified_at : string; FsRecord_state : string;
  FsRecord_immutable_state : bool; FsRecord_name : string; FsRecord_mgs_id : Z;
  FsRecord_mdt_next_index : Z; FsRecord_ost_next_index : Z; FsRecord_not_deleted : option bool;
  FsRecord_content_type_id : option Z;
}.
#[export] Instance FsRecord_eq_dec : EqDecision FsRecord.
Proof. solve_decision. Defined.

