(* ===== verification/WarpCache.v ===== *)
(** The records warp drive keeps for the users of the manager: the cache
    ([iml-wire-types/src/warp_drive.rs]), the rows the database notifies it of
    ([iml-warp-drive/src/db_record.rs]), and how the cache is filled and a row becomes
    a change of it ([cache.rs]). *)
From S2P Require Import Prelude RustStd WarpTypes.
From stdpp Require Import base gmap sets list strings.
From Stdlib Require Import ZArith SpecFloat.

Open Scope Z_scope.

(** * Records: [warp_drive.rs] *)

Inductive Record_ : Type :=
| Record_ActiveAlert (x : Alert)
| Record_ContentType (x : ContentTypeRecord)
| Record_CorosyncConfiguration (x : CorosyncConfigurationRecord)
| Record_CorosyncResource (x : CorosyncResourceRecord)
| Record_CorosyncResourceBan (x : CorosyncResourceBanRecord)
| Record_Filesystem (x : Filesystem)
| Record_Group (x : AuthGroupRecord)
| Record_Host (x : Host)
| Record_LnetConfiguration (x : LnetConfigurationRecord)
| Record_OstPool (x : OstPoolRecord)
| Record_OstPoolOsts (x : OstPoolOstsRecord)
| Record_PacemakerConfiguration (x : PacemakerConfigurationRecord)
| Record_SfaDiskDrive (x : SfaDiskDrive)
| Record_SfaEnclosure (x : SfaEnclosure)
| Record_SfaStorageSystem (x : SfaStorageSystem)
| Record_SfaJob (x : SfaJob)
| Record_SfaPowerSupply (x : SfaPowerSupply)
| Record_SfaController (x : SfaController)
| Record_Snapshot (x : SnapshotRecord)
| Record_SnapshotInterval (x : SnapshotInterval)
| Record_SnapshotRetention (x : SnapshotRetention)
| Record_StratagemConfig (x : StratagemConfiguration)
| Record_Target (x : ManagedTargetRecord)
| Record_TargetRecord (x : TargetRecord)
| Record_User (x : AuthUserRecord)
| Record_UserGroup (x : AuthUserGroupRecord)
| Record_Volume (x : VolumeRecord)
| Record_VolumeNode (x : VolumeNodeRecord).

Inductive RecordId : Type :=
| RecordId_ActiveAlert (id : Z)
| RecordId_ContentType (id : Z)
| RecordId_CorosyncConfiguration (id : Z)
| RecordId_CorosyncResource (id : Z)
| RecordId_CorosyncResourceBan (id : Z)
| RecordId_Filesystem (id : Z)
| RecordId_Group (id : Z)
| RecordId_Host (id : Z)
| RecordId_LnetConfiguration (id : Z)
| RecordId_OstPool (id : Z)
| RecordId_OstPoolOsts (id : Z)
| RecordId_PacemakerConfiguration (id : Z)
| RecordId_SfaDiskDrive (id : Z)
| RecordId_SfaEnclosure (id : Z)
| RecordId_SfaStorageSystem (id : Z)
| RecordId_SfaJob (id : Z)
| RecordId_SfaPowerSupply (id : Z)
| RecordId_SfaController (id : Z)
| RecordId_StratagemConfig (id : Z)
| RecordId_Snapshot (id : Z)
| RecordId_SnapshotInterval (id : Z)
| RecordId_SnapshotRetention (id : Z)
| RecordId_Target (id : Z)
| RecordId_TargetRecord (id : Z)
| RecordId_User (id : Z)
| RecordId_UserGroup (id : Z)
| RecordId_Volume (id : Z)
| RecordId_VolumeNode (id : Z).
#[export] Instance RecordId_eq_dec : EqDecision RecordId.
Proof. solve_decision. Defined.

(** [From<&Record> for RecordId]. *)
Definition record_id (record : Record_) : RecordId :=
  match record with
  | Record_ActiveAlert x => RecordId_ActiveAlert (Alert_id x)
  | Record_ContentType x => RecordId_ContentType (ContentTypeRecord_id x)
  | Record_CorosyncConfiguration x => RecordId_CorosyncConfiguration (CorosyncConfigurationRecord_id x)
  | Record_CorosyncResource x => RecordId_CorosyncResource (CorosyncResourceRecord_id x)
  | Record_CorosyncResourceBan x => RecordId_CorosyncResourceBan (CorosyncResourceBanRecord_id x)
  | Record_Filesystem x => RecordId_Filesystem (Filesystem_id x)
  | Record_Group x => RecordId_Group (AuthGroupRecord_id x)
  | Record_Host x => RecordId_Host (Host_id x)
  | Record_LnetConfiguration x => RecordId_LnetConfiguration (LnetConfigurationRecord_id x)
  | Record_OstPool x => RecordId_OstPool (OstPoolRecord_id x)
  | Record_OstPoolOsts x => RecordId_OstPoolOsts (OstPoolOstsRecord_id x)
  | Record_PacemakerConfiguration x => RecordId_PacemakerConfiguration (PacemakerConfigurationRecord_id x)
  | Record_SfaDiskDrive x => RecordId_SfaDiskDrive (SfaDiskDrive_id x)
  | Record_SfaEnclosure x => RecordId_SfaEnclosure (SfaEnclosure_id x)
  | Record_SfaStorageSystem x => RecordId_SfaStorageSystem (SfaStorageSystem_id x)
  | Record_SfaJob x => RecordId_SfaJob (SfaJob_id x)
  | Record_SfaPowerSupply x => RecordId_SfaPowerSupply (SfaPowerSupply_id x)
  | Record_SfaController x => RecordId_SfaController (SfaController_id x)
  | Record_Snapshot x => RecordId_Snapshot (SnapshotRecord_id x)
  | Record_SnapshotInterval x => RecordId_SnapshotInterval (SnapshotInterval_id x)
  | Record_SnapshotRetention x => RecordId_SnapshotRetention (SnapshotRetention_id x)
  | Record_StratagemConfig x => RecordId_StratagemConfig (StratagemConfiguration_id x)
  | Record_Target x => RecordId_Target (ManagedTargetRecord_id x)
  | Record_TargetRecord x => RecordId_TargetRecord (TargetRecord_id x)
  | Record_User x => RecordId_User (AuthUserRecord_id x)
  | Record_UserGroup x => RecordId_UserGroup (AuthUserGroupRecord_id x)
  | Record_Volume x => RecordId_Volume (VolumeRecord_id x)
  | Record_VolumeNode x => RecordId_VolumeNode (VolumeNodeRecord_id x)
  end.

Record Cache : Type := MkCache {
  content_type : gmap Z ContentTypeRecord;
  corosync_configuration : gmap Z CorosyncConfigurationRecord;
  corosync_resource : gmap Z CorosyncResourceRecord;
  corosync_resource_ban : gmap Z CorosyncResourceBanRecord;
  active_alert : gmap Z Alert;
  filesystem : gmap Z Filesystem;
  group : gmap Z AuthGroupRecord;
  host : gmap Z Host;
  lnet_configuration : gmap Z LnetConfigurationRecord;
  ost_pool : gmap Z OstPoolRecord;
  ost_pool_osts : gmap Z OstPoolOstsRecord;
  sfa_disk_drive : gmap Z SfaDiskDrive;
  sfa_enclosure : gmap Z SfaEnclosure;
  sfa_job : gmap Z SfaJob;
  sfa_power_supply : gmap Z SfaPowerSupply;
  sfa_storage_system : gmap Z SfaStorageSystem;
  sfa_controller : gmap Z SfaController;
  snapshot : gmap Z SnapshotRecord;
  snapshot_interval : gmap Z SnapshotInterval;
  snapshot_retention : gmap Z SnapshotRetention;
  stratagem_config : gmap Z StratagemConfiguration;
  target : gmap Z ManagedTargetRecord;
  target_record : gmap Z TargetRecord;
  user : gmap Z AuthUserRecord;
  user_group : gmap Z AuthUserGroupRecord;
  pacemaker_configuration : gmap Z PacemakerConfigurationRecord;
  volume : gmap Z VolumeRecord;
  volume_node : gmap Z VolumeNodeRecord;
}.

(** A change of one table of the cache. *)
Definition on_content_type (f : gmap Z ContentTypeRecord -> gmap Z ContentTypeRecord) (c : Cache) : Cache :=
  let (x0, x1, x2, x3, x4, x5, x6, x7, x8, x9, x10, x11, x12, x13, x14, x15, x16, x17, x18, x19, x20, x21, x22, x23, x24, x25, x26, x27) := c in
  MkCache (f x0) x1 x2 x3 x4 x5 x6 x7 x8 x9 x10 x11 x12 x13 x14 x15 x16 x17 x18 x19 x20 x21 x22 x23 x24 x25 x26 x27.
Definition on_corosync_configuration (f : gmap Z CorosyncConfigurationRecord -> gmap Z CorosyncConfigurationRecord) (c : Cache) : Cache :=
  let (x0, x1, x2, x3, x4, x5, x6, x7, x8, x9, x10, x11, x12, x13, x14, x15, x16, x17, x18, x19, x20, x21, x22, x23, x24, x25, x26, x27) := c in
  MkCache x0 (f x1) x2 x3 x4 x5 x6 x7 x8 x9 x10 x11 x12 x13 x14 x15 x16 x17 x18 x19 x20 x21 x22 x23 x24 x25 x26 x27.
Definition on_corosync_resource (f : gmap Z CorosyncResourceRecord -> gmap Z CorosyncResourceRecord) (c : Cache) : Cache :=
  let (x0, x1, x2, x3, x4, x5, x6, x7, x8, x9, x10, x11, x12, x13, x14, x15, x16, x17, x18, x19, x20, x21, x22, x23, x24, x25, x26, x27) := c in
  MkCache x0 x1 (f x2) x3 x4 x5 x6 x7 x8 x9 x10 x11 x12 x13 x14 x15 x16 x17 x18 x19 x20 x21 x22 x23 x24 x25 x26 x27.
Definition on_corosync_resource_ban (f : gmap Z CorosyncResourceBanRecord -> gmap Z CorosyncResourceBanRecord) (c : Cache) : Cache :=
  let (x0, x1, x2, x3, x4, x5, x6, x7, x8, x9, x10, x11, x12, x13, x14, x15, x16, x17, x18, x19, x20, x21, x22, x23, x24, x25, x26, x27) := c in
  MkCache x0 x1 x2 (f x3) x4 x5 x6 x7 x8 x9 x10 x11 x12 x13 x14 x15 x16 x17 x18 x19 x20 x21 x22 x23 x24 x25 x26 x27.
Definition on_active_alert (f : gmap Z Alert -> gmap Z Alert) (c : Cache) : Cache :=
  let (x0, x1, x2, x3, x4, x5, x6, x7, x8, x9, x10, x11, x12, x13, x14, x15, x16, x17, x18, x19, x20, x21, x22, x23, x24, x25, x26, x27) := c in
  MkCache x0 x1 x2 x3 (f x4) x5 x6 x7 x8 x9 x10 x11 x12 x13 x14 x15 x16 x17 x18 x19 x20 x21 x22 x23 x24 x25 x26 x27.
Definition on_filesystem (f : gmap Z Filesystem -> gmap Z Filesystem) (c : Cache) : Cache :=
  let (x0, x1, x2, x3, x4, x5, x6, x7, x8, x9, x10, x11, x12, x13, x14, x15, x16, x17, x18, x19, x20, x21, x22, x23, x24, x25, x26, x27) := c in
  MkCache x0 x1 x2 x3 x4 (f x5) x6 x7 x8 x9 x10 x11 x12 x13 x14 x15 x16 x17 x18 x19 x20 x21 x22 x23 x24 x25 x26 x27.
Definition on_group (f : gmap Z AuthGroupRecord -> gmap Z AuthGroupRecord) (c : Cache) : Cache :=
  let (x0, x1, x2, x3, x4, x5, x6, x7, x8, x9, x10, x11, x12, x13, x14, x15, x16, x17, x18, x19, x20, x21, x22, x23, x24, x25, x26, x27) := c in
  MkCache x0 x1 x2 x3 x4 x5 (f x6) x7 x8 x9 x10 x11 x12 x13 x14 x15 x16 x17 x18 x19 x20 x21 x22 x23 x24 x25 x26 x27.
Definition on_host (f : gmap Z Host -> gmap Z Host) (c : Cache) : Cache :=
  let (x0, x1, x2, x3, x4, x5, x6, x7, x8, x9, x10, x11, x12, x13, x14, x15, x16, x17, x18, x19, x20, x21, x22, x23, x24, x25, x26, x27) := c in
  MkCache x0 x1 x2 x3 x4 x5 x6 (f x7) x8 x9 x10 x11 x12 x13 x14 x15 x16 x17 x18 x19 x20 x21 x22 x23 x24 x25 x26 x27.
Definition on_lnet_configuration (f : gmap Z LnetConfigurationRecord -> gmap Z LnetConfigurationRecord) (c : Cache) : Cache :=
  let (x0, x1, x2, x3, x4, x5, x6, x7, x8, x9, x10, x11, x12, x13, x14, x15, x16, x17, x18, x19, x20, x21, x22, x23, x24, x25, x26, x27) := c in
  MkCache x0 x1 x2 x3 x4 x5 x6 x7 (f x8) x9 x10 x11 x12 x13 x14 x15 x16 x17 x18 x19 x20 x21 x22 x23 x24 x25 x26 x27.
Definition on_ost_pool (f : gmap Z OstPoolRecord -> gmap Z OstPoolRecord) (c : Cache) : Cache :=
  let (x0, x1, x2, x3, x4, x5, x6, x7, x8, x9, x10, x11, x12, x13, x14, x15, x16, x17, x18, x19, x20, x21, x22, x23, x24, x25, x26, x27) := c in
  MkCache x0 x1 x2 x3 x4 x5 x6 x7 x8 (f x9) x10 x11 x12 x13 x14 x15 x16 x17 x18 x19 x20 x21 x22 x23 x24 x25 x26 x27.
Definition on_ost_pool_osts (f : gmap Z OstPoolOstsRecord -> gmap Z OstPoolOstsRecord) (c : Cache) : Cache :=
  let (x0, x1, x2, x3, x4, x5, x6, x7, x8, x9, x10, x11, x12, x13, x14, x15, x16, x17, x18, x19, x20, x21, x22, x23, x24, x25, x26, x27) := c in
  MkCache x0 x1 x2 x3 x4 x5 x6 x7 x8 x9 (f x10) x11 x12 x13 x14 x15 x16 x17 x18 x19 x20 x21 x22 x23 x24 x25 x26 x27.
Definition on_sfa_disk_drive (f : gmap Z SfaDiskDrive -> gmap Z SfaDiskDrive) (c : Cache) : Cache :=
  let (x0, x1, x2, x3, x4, x5, x6, x7, x8, x9, x10, x11, x12, x13, x14, x15, x16, x17, x18, x19, x20, x21, x22, x23, x24, x25, x26, x27) := c in
  MkCache x0 x1 x2 x3 x4 x5 x6 x7 x8 x9 x10 (f x11) x12 x13 x14 x15 x16 x17 x18 x19 x20 x21 x22 x23 x24 x25 x26 x27.
Definition on_sfa_enclosure (f : gmap Z SfaEnclosure -> gmap Z SfaEnclosure) (c : Cache) : Cache :=
  let (x0, x1, x2, x3, x4, x5, x6, x7, x8, x9, x10, x11, x12, x13, x14, x15, x16, x17, x18, x19, x20, x21, x22, x23, x24, x25, x26, x27) := c in
  MkCache x0 x1 x2 x3 x4 x5 x6 x7 x8 x9 x10 x11 (f x12) x13 x14 x15 x16 x17 x18 x19 x20 x21 x22 x23 x24 x25 x26 x27.
Definition on_sfa_job (f : gmap Z SfaJob -> gmap Z SfaJob) (c : Cache) : Cache :=
  let (x0, x1, x2, x3, x4, x5, x6, x7, x8, x9, x10, x11, x12, x13, x14, x15, x16, x17, x18, x19, x20, x21, x22, x23, x24, x25, x26, x27) := c in
  MkCache x0 x1 x2 x3 x4 x5 x6 x7 x8 x9 x10 x11 x12 (f x13) x14 x15 x16 x17 x18 x19 x20 x21 x22 x23 x24 x25 x26 x27.
Definition on_sfa_power_supply (f : gmap Z SfaPowerSupply -> gmap Z SfaPowerSupply) (c : Cache) : Cache :=
  let (x0, x1, x2, x3, x4, x5, x6, x7, x8, x9, x10, x11, x12, x13, x14, x15, x16, x17, x18, x19, x20, x21, x22, x23, x24, x25, x26, x27) := c in
  MkCache x0 x1 x2 x3 x4 x5 x6 x7 x8 x9 x10 x11 x12 x13 (f x14) x15 x16 x17 x18 x19 x20 x21 x22 x23 x24 x25 x26 x27.
Definition on_sfa_storage_system (f : gmap Z SfaStorageSystem -> gmap Z SfaStorageSystem) (c : Cache) : Cache :=
  let (x0, x1, x2, x3, x4, x5, x6, x7, x8, x9, x10, x11, x12, x13, x14, x15, x16, x17, x18, x19, x20, x21, x22, x23, x24, x25, x26, x27) := c in
  MkCache x0 x1 x2 x3 x4 x5 x6 x7 x8 x9 x10 x11 x12 x13 x14 (f x15) x16 x17 x18 x19 x20 x21 x22 x23 x24 x25 x26 x27.
Definition on_sfa_controller (f : gmap Z SfaController -> gmap Z SfaController) (c : Cache) : Cache :=
  let (x0, x1, x2, x3, x4, x5, x6, x7, x8, x9, x10, x11, x12, x13, x14, x15, x16, x17, x18, x19, x20, x21, x22, x23, x24, x25, x26, x27) := c in
  MkCache x0 x1 x2 x3 x4 x5 x6 x7 x8 x9 x10 x11 x12 x13 x14 x15 (f x16) x17 x18 x19 x20 x21 x22 x23 x24 x25 x26 x27.
Definition on_snapshot (f : gmap Z SnapshotRecord -> gmap Z SnapshotRecord) (c : Cache) : Cache :=
  let (x0, x1, x2, x3, x4, x5, x6, x7, x8, x9, x10, x11, x12, x13, x14, x15, x16, x17, x18, x19, x20, x21, x22, x23, x24, x25, x26, x27) := c in
  MkCache x0 x1 x2 x3 x4 x5 x6 x7 x8 x9 x10 x11 x12 x13 x14 x15 x16 (f x17) x18 x19 x20 x21 x22 x23 x24 x25 x26 x27.
Definition on_snapshot_interval (f : gmap Z SnapshotInterval -> gmap Z SnapshotInterval) (c : Cache) : Cache :=
  let (x0, x1, x2, x3, x4, x5, x6, x7, x8, x9, x10, x11, x12, x13, x14, x15, x16, x17, x18, x19, x20, x21, x22, x23, x24, x25, x26, x27) := c in
  MkCache x0 x1 x2 x3 x4 x5 x6 x7 x8 x9 x10 x11 x12 x13 x14 x15 x16 x17 (f x18) x19 x20 x21 x22 x23 x24 x25 x26 x27.
Definition on_snapshot_retention (f : gmap Z SnapshotRetention -> gmap Z SnapshotRetention) (c : Cache) : Cache :=
  let (x0, x1, x2, x3, x4, x5, x6, x7, x8, x9, x10, x11, x12, x13, x14, x15, x16, x17, x18, x19, x20, x21, x22, x23, x24, x25, x26, x27) := c in
  MkCache x0 x1 x2 x3 x4 x5 x6 x7 x8 x9 x10 x11 x12 x13 x14 x15 x16 x17 x18 (f x19) x20 x21 x22 x23 x24 x25 x26 x27.
Definition on_stratagem_config (f : gmap Z StratagemConfiguration -> gmap Z StratagemConfiguration) (c : Cache) : Cache :=
  let (x0, x1, x2, x3, x4, x5, x6, x7, x8, x9, x10, x11, x12, x13, x14, x15, x16, x17, x18, x19, x20, x21, x22, x23, x24, x25, x26, x27) := c in
  MkCache x0 x1 x2 x3 x4 x5 x6 x7 x8 x9 x10 x11 x12 x13 x14 x15 x16 x17 x18 x19 (f x20) x21 x22 x23 x24 x25 x26 x27.
Definition on_target (f : gmap Z ManagedTargetRecord -> gmap Z ManagedTargetRecord) (c : Cache) : Cache :=
  let (x0, x1, x2, x3, x4, x5, x6, x7, x8, x9, x10, x11, x12, x13, x14, x15, x16, x17, x18, x19, x20, x21, x22, x23, x24, x25, x26, x27) := c in
  MkCache x0 x1 x2 x3 x4 x5 x6 x7 x8 x9 x10 x11 x12 x13 x14 x15 x16 x17 x18 x19 x20 (f x21) x22 x23 x24 x25 x26 x27.
Definition on_target_record (f : gmap Z TargetRecord -> gmap Z TargetRecord) (c : Cache) : Cache :=
  let (x0, x1, x2, x3, x4, x5, x6, x7, x8, x9, x10, x11, x12, x13, x14, x15, x16, x17, x18, x19, x20, x21, x22, x23, x24, x25, x26, x27) := c in
  MkCache x0 x1 x2 x3 x4 x5 x6 x7 x8 x9 x10 x11 x12 x13 x14 x15 x16 x17 x18 x19 x20 x21 (f x22) x23 x24 x25 x26 x27.
Definition on_user (f : gmap Z AuthUserRecord -> gmap Z AuthUserRecord) (c : Cache) : Cache :=
  let (x0, x1, x2, x3, x4, x5, x6, x7, x8, x9, x10, x11, x12, x13, x14, x15, x16, x17, x18, x19, x20, x21, x22, x23, x24, x25, x26, x27) := c in
  MkCache x0 x1 x2 x3 x4 x5 x6 x7 x8 x9 x10 x11 x12 x13 x14 x15 x16 x17 x18 x19 x20 x21 x22 (f x23) x24 x25 x26 x27.
Definition on_user_group (f : gmap Z AuthUserGroupRecord -> gmap Z AuthUserGroupRecord) (c : Cache) : Cache :=
  let (x0, x1, x2, x3, x4, x5, x6, x7, x8, x9, x10, x11, x12, x13, x14, x15, x16, x17, x18, x19, x20, x21, x22, x23, x24, x25, x26, x27) := c in
  MkCache x0 x1 x2 x3 x4 x5 x6 x7 x8 x9 x10 x11 x12 x13 x14 x15 x16 x17 x18 x19 x20 x21 x22 x23 (f x24) x25 x26 x27.
Definition on_pacemaker_configuration (f : gmap Z PacemakerConfigurationRecord -> gmap Z PacemakerConfigurationRecord) (c : Cache) : Cache :=
  let (x0, x1, x2, x3, x4, x5, x6, x7, x8, x9, x10, x11, x12, x13, x14, x15, x16, x17, x18, x19, x20, x21, x22, x23, x24, x25, x26, x27) := c in
  MkCache x0 x1 x2 x3 x4 x5 x6 x7 x8 x9 x10 x11 x12 x13 x14 x15 x16 x17 x18 x19 x20 x21 x22 x23 x24 (f x25) x26 x27.
Definition on_volume (f : gmap Z VolumeRecord -> gmap Z VolumeRecord) (c : Cache) : Cache :=
  let (x0, x1, x2, x3, x4, x5, x6, x7, x8, x9, x10, x11, x12, x13, x14, x15, x16, x17, x18, x19, x20, x21, x22, x23, x24, x25, x26, x27) := c in
  MkCache x0 x1 x2 x3 x4 x5 x6 x7 x8 x9 x10 x11 x12 x13 x14 x15 x16 x17 x18 x19 x20 x21 x22 x23 x24 x25 (f x26) x27.
Definition on_volume_node (f : gmap Z VolumeNodeRecord -> gmap Z VolumeNodeRecord) (c : Cache) : Cache :=
  let (x0, x1, x2, x3, x4, x5, x6, x7, x8, x9, x10, x11, x12, x13, x14, x15, x16, x17, x18, x19, x20, x21, x22, x23, x24, x25, x26, x27) := c in
  MkCache x0 x1 x2 x3 x4 x5 x6 x7 x8 x9 x10 x11 x12 x13 x14 x15 x16 x17 x18 x19 x20 x21 x22 x23 x24 x25 x26 (f x27).

(** [Cache::remove_record]. *)
Definition remove_record (c : Cache) (x : RecordId) : option Record_ * Cache :=
  match x with
  | RecordId_ActiveAlert id => (Record_ActiveAlert <$> active_alert c !! id, on_active_alert (delete id) c)
  | RecordId_ContentType id => (Record_ContentType <$> content_type c !! id, on_content_type (delete id) c)
  | RecordId_CorosyncConfiguration id => (Record_CorosyncConfiguration <$> corosync_configuration c !! id, on_corosync_configuration (delete id) c)
  | RecordId_CorosyncResource id => (Record_CorosyncResource <$> corosync_resource c !! id, on_corosync_resource (delete id) c)
  | RecordId_CorosyncResourceBan id => (Record_CorosyncResourceBan <$> corosync_resource_ban c !! id, on_corosync_resource_ban (delete id) c)
  | RecordId_Filesystem id => (Record_Filesystem <$> filesystem c !! id, on_filesystem (delete id) c)
  | RecordId_Group id => (Record_Group <$> group c !! id, on_group (delete id) c)
  | RecordId_Host id => (Record_Host <$> host c !! id, on_host (delete id) c)
  | RecordId_LnetConfiguration id => (Record_LnetConfiguration <$> lnet_configuration c !! id, on_lnet_configuration (delete id) c)
  | RecordId_OstPool id => (Record_OstPool <$> ost_pool c !! id, on_ost_pool (delete id) c)
  | RecordId_OstPoolOsts id => (Record_OstPoolOsts <$> ost_pool_osts c !! id, on_ost_pool_osts (delete id) c)
  | RecordId_PacemakerConfiguration id => (Record_PacemakerConfiguration <$> pacemaker_configuration c !! id, on_pacemaker_configuration (delete id) c)
  | RecordId_SfaDiskDrive id => (Record_SfaDiskDrive <$> sfa_disk_drive c !! id, on_sfa_disk_drive (delete id) c)
  | RecordId_SfaEnclosure id => (Record_SfaEnclosure <$> sfa_enclosure c !! id, on_sfa_enclosure (delete id) c)
  | RecordId_SfaStorageSystem id => (Record_SfaStorageSystem <$> sfa_storage_system c !! id, on_sfa_storage_system (delete id) c)
  | RecordId_SfaJob id => (Record_SfaJob <$> sfa_job c !! id, on_sfa_job (delete id) c)
  | RecordId_SfaPowerSupply id => (Record_SfaPowerSupply <$> sfa_power_supply c !! id, on_sfa_power_supply (delete id) c)
  | RecordId_SfaController id => (Record_SfaController <$> sfa_controller c !! id, on_sfa_controller (delete id) c)
  | RecordId_StratagemConfig id => (Record_StratagemConfig <$> stratagem_config c !! id, on_stratagem_config (delete id) c)
  | RecordId_Snapshot id => (Record_Snapshot <$> snapshot c !! id, on_snapshot (delete id) c)
  | RecordId_SnapshotInterval id => (Record_SnapshotInterval <$> snapshot_interval c !! id, on_snapshot_interval (delete id) c)
  | RecordId_SnapshotRetention id => (Record_SnapshotRetention <$> snapshot_retention c !! id, on_snapshot_retention (delete id) c)
  | RecordId_Target id => (Record_Target <$> target c !! id, on_target (delete id) c)
  | RecordId_TargetRecord id => (Record_TargetRecord <$> target_record c !! id, on_target_record (delete id) c)
  | RecordId_User id => (Record_User <$> user c !! id, on_user (delete id) c)
  | RecordId_UserGroup id => (Record_UserGroup <$> user_group c !! id, on_user_group (delete id) c)
  | RecordId_Volume id => (Record_Volume <$> volume c !! id, on_volume (delete id) c)
  | RecordId_VolumeNode id => (Record_VolumeNode <$> volume_node c !! id, on_volume_node (delete id) c)
  end.

(** [Cache::insert_record]. *)
Definition insert_record (c : Cache) (x : Record_) : Cache :=
  match x with
  | Record_ActiveAlert x => on_active_alert <[Alert_id x := x]> c
  | Record_ContentType x => on_content_type <[ContentTypeRecord_id x := x]> c
  | Record_CorosyncConfiguration x => on_corosync_configuration <[CorosyncConfigurationRecord_id x := x]> c
  | Record_CorosyncResource x => on_corosync_resource <[CorosyncResourceRecord_id x := x]> c
  | Record_CorosyncResourceBan x => on_corosync_resource_ban <[CorosyncResourceBanRecord_id x := x]> c
  | Record_Filesystem x => on_filesystem <[Filesystem_id x := x]> c
  | Record_Group x => on_group <[AuthGroupRecord_id x := x]> c
  | Record_Host x => on_host <[Host_id x := x]> c
  | Record_LnetConfiguration x => on_lnet_configuration <[LnetConfigurationRecord_id x := x]> c
  | Record_OstPool x => on_ost_pool <[OstPoolRecord_id x := x]> c
  | Record_OstPoolOsts x => on_ost_pool_osts <[OstPoolOstsRecord_id x := x]> c
  | Record_PacemakerConfiguration x => on_pacemaker_configuration <[PacemakerConfigurationRecord_id x := x]> c
  | Record_SfaDiskDrive x => on_sfa_disk_drive <[SfaDiskDrive_id x := x]> c
  | Record_SfaEnclosure x => on_sfa_enclosure <[SfaEnclosure_id x := x]> c
  | Record_SfaStorageSystem x => on_sfa_storage_system <[SfaStorageSystem_id x := x]> c
  | Record_SfaJob x => on_sfa_job <[SfaJob_id x := x]> c
  | Record_SfaPowerSupply x => on_sfa_power_supply <[SfaPowerSupply_id x := x]> c
  | Record_SfaController x => on_sfa_controller <[SfaController_id x := x]> c
  | Record_Snapshot x => on_snapshot <[SnapshotRecord_id x := x]> c
  | Record_SnapshotInterval x => on_snapshot_interval <[SnapshotInterval_id x := x]> c
  | Record_SnapshotRetention x => on_snapshot_retention <[SnapshotRetention_id x := x]> c
  | Record_StratagemConfig x => on_stratagem_config <[StratagemConfiguration_id x := x]> c
  | Record_Target x => on_target <[ManagedTargetRecord_id x := x]> c
  | Record_TargetRecord x => on_target_record <[TargetRecord_id x := x]> c
  | Record_User x => on_user <[AuthUserRecord_id x := x]> c
  | Record_UserGroup x => on_user_group <[AuthUserGroupRecord_id x := x]> c
  | Record_Volume x => on_volume <[VolumeRecord_id x := x]> c
  | Record_VolumeNode x => on_volume_node <[VolumeNodeRecord_id x := x]> c
  end.

(** The record under an id. *)
Definition cache_get (c : Cache) (x : RecordId) : option Record_ :=
  match x with
  | RecordId_ActiveAlert id => Record_ActiveAlert <$> active_alert c !! id
  | RecordId_ContentType id => Record_ContentType <$> content_type c !! id
  | RecordId_CorosyncConfiguration id => Record_CorosyncConfiguration <$> corosync_configuration c !! id
  | RecordId_CorosyncResource id => Record_CorosyncResource <$> corosync_resource c !! id
  | RecordId_CorosyncResourceBan id => Record_CorosyncResourceBan <$> corosync_resource_ban c !! id
  | RecordId_Filesystem id => Record_Filesystem <$> filesystem c !! id
  | RecordId_Group id => Record_Group <$> group c !! id
  | RecordId_Host id => Record_Host <$> host c !! id
  | RecordId_LnetConfiguration id => Record_LnetConfiguration <$> lnet_configuration c !! id
  | RecordId_OstPool id => Record_OstPool <$> ost_pool c !! id
  | RecordId_OstPoolOsts id => Record_OstPoolOsts <$> ost_pool_osts c !! id
  | RecordId_PacemakerConfiguration id => Record_PacemakerConfiguration <$> pacemaker_configuration c !! id
  | RecordId_SfaDiskDrive id => Record_SfaDiskDrive <$> sfa_disk_drive c !! id
  | RecordId_SfaEnclosure id => Record_SfaEnclosure <$> sfa_enclosure c !! id
  | RecordId_SfaStorageSystem id => Record_SfaStorageSystem <$> sfa_storage_system c !! id
  | RecordId_SfaJob id => Record_SfaJob <$> sfa_job c !! id
  | RecordId_SfaPowerSupply id => Record_SfaPowerSupply <$> sfa_power_supply c !! id
  | RecordId_SfaController id => Record_SfaController <$> sfa_controller c !! id
  | RecordId_StratagemConfig id => Record_StratagemConfig <$> stratagem_config c !! id
  | RecordId_Snapshot id => Record_Snapshot <$> snapshot c !! id
  | RecordId_SnapshotInterval id => Record_SnapshotInterval <$> snapshot_interval c !! id
  | RecordId_SnapshotRetention id => Record_SnapshotRetention <$> snapshot_retention c !! id
  | RecordId_Target id => Record_Target <$> target c !! id
  | RecordId_TargetRecord id => Record_TargetRecord <$> target_record c !! id
  | RecordId_User id => Record_User <$> user c !! id
  | RecordId_UserGroup id => Record_UserGroup <$> user_group c !! id
  | RecordId_Volume id => Record_Volume <$> volume c !! id
  | RecordId_VolumeNode id => Record_VolumeNode <$> volume_node c !! id
  end.

Definition Cache_default : Cache :=
  MkCache ∅ ∅ ∅ ∅ ∅ ∅ ∅ ∅ ∅ ∅ ∅ ∅ ∅ ∅ ∅ ∅ ∅ ∅ ∅ ∅ ∅ ∅ ∅ ∅ ∅ ∅ ∅ ∅.
(** * Rows: [db.rs] and [db_record.rs] *)

(** [not_deleted], and [NotDeleted::deleted]. *)
Definition not_deleted (x : option bool) : bool := bool_decide (x = Some true).
Definition deleted (x : option bool) : bool := negb (not_deleted x).

Definition AlertStateRecord_is_active (x : AlertStateRecord) : bool :=
  bool_decide (is_Some (AlertStateRecord_active x)).

Inductive DbRecord : Type :=
| DbRecord_AuthGroup (x : AuthGroupRecord)
| DbRecord_AuthUser (x : AuthUserRecord)
| DbRecord_AuthUserGroup (x : AuthUserGroupRecord)
| DbRecord_AlertState (x : AlertStateRecord)
| DbRecord_ContentType (x : ContentTypeRecord)
| DbRecord_CorosyncConfiguration (x : CorosyncConfigurationRecord)
| DbRecord_CorosyncResource (x : CorosyncResourceRecord)
| DbRecord_CorosyncResourceBan (x : CorosyncResourceBanRecord)
| DbRecord_LnetConfiguration (x : LnetConfigurationRecord)
| DbRecord_ManagedFilesystem (x : FsRecord)
| DbRecord_ManagedHost (x : ManagedHostRecord)
| DbRecord_ManagedTarget (x : ManagedTargetRecord)
| DbRecord_OstPool (x : OstPoolRecord)
| DbRecord_OstPoolOsts (x : OstPoolOstsRecord)
| DbRecord_PacemakerConfiguration (x : PacemakerConfigurationRecord)
| DbRecord_SfaDiskDrive (x : SfaDiskDrive)
| DbRecord_SfaEnclosure (x : SfaEnclosure)
| DbRecord_SfaStorageSystem (x : SfaStorageSystem)
| DbRecord_SfaJob (x : SfaJob)
| DbRecord_SfaPowerSupply (x : SfaPowerSupply)
| DbRecord_SfaController (x : SfaController)
| DbRecord_Snapshot (x : SnapshotRecord)
| DbRecord_SnapshotInterval (x : SnapshotInterval)
| DbRecord_SnapshotRetention (x : SnapshotRetention)
| DbRecord_StratagemConfiguration (x : StratagemConfiguration)
| DbRecord_TargetRecord (x : TargetRecord)
| DbRecord_Volume (x : VolumeRecord)
| DbRecord_VolumeNode (x : VolumeNodeRecord).

(** [serde_json::Value] and its reading as a row of each type. *)
Class Rows : Type := {
  value : Type;
  from_value_AuthGroup : value -> option AuthGroupRecord;
  from_value_AuthUser : value -> option AuthUserRecord;
  from_value_AuthUserGroup : value -> option AuthUserGroupRecord;
  from_value_AlertState : value -> option AlertStateRecord;
  from_value_ContentType : value -> option ContentTypeRecord;
  from_value_CorosyncConfiguration : value -> option CorosyncConfigurationRecord;
  from_value_CorosyncResource : value -> option CorosyncResourceRecord;
  from_value_CorosyncResourceBan : value -> option CorosyncResourceBanRecord;
  from_value_LnetConfiguration : value -> option LnetConfigurationRecord;
  from_value_ManagedFilesystem : value -> option FsRecord;
  from_value_ManagedHost : value -> option ManagedHostRecord;
  from_value_ManagedTarget : value -> option ManagedTargetRecord;
  from_value_OstPool : value -> option OstPoolRecord;
  from_value_OstPoolOsts : value -> option OstPoolOstsRecord;
  from_value_PacemakerConfiguration : value -> option PacemakerConfigurationRecord;
  from_value_SfaDiskDrive : value -> option SfaDiskDrive;
  from_value_SfaEnclosure : value -> option SfaEnclosure;
  from_value_SfaStorageSystem : value -> option SfaStorageSystem;
  from_value_SfaJob : value -> option SfaJob;
  from_value_SfaPowerSupply : value -> option SfaPowerSupply;
  from_value_SfaController : value -> option SfaController;
  from_value_Snapshot : value -> option SnapshotRecord;
  from_value_SnapshotInterval : value -> option SnapshotInterval;
  from_value_SnapshotRetention : value -> option SnapshotRetention;
  from_value_StratagemConfiguration : value -> option StratagemConfiguration;
  from_value_TargetRecord : value -> option TargetRecord;
  from_value_Volume : value -> option VolumeRecord;
  from_value_VolumeNode : value -> option VolumeNodeRecord;
}.

(** [DbRecord::try_from]. *)
Definition DbRecord_try_from `{Rows} (table_name : string) (x : value) : option DbRecord :=
  if String.eqb table_name "chroma_core_managedfilesystem" then DbRecord_ManagedFilesystem <$> from_value_ManagedFilesystem x
  else if String.eqb table_name "chroma_core_volume" then DbRecord_Volume <$> from_value_Volume x
  else if String.eqb table_name "chroma_core_volumenode" then DbRecord_VolumeNode <$> from_value_VolumeNode x
  else if String.eqb table_name "chroma_core_managedtarget" then DbRecord_ManagedTarget <$> from_value_ManagedTarget x
  else if String.eqb table_name "chroma_core_managedhost" then DbRecord_ManagedHost <$> from_value_ManagedHost x
  else if String.eqb table_name "chroma_core_alertstate" then DbRecord_AlertState <$> from_value_AlertState x
  else if String.eqb table_name "chroma_core_ostpool" then DbRecord_OstPool <$> from_value_OstPool x
  else if String.eqb table_name "chroma_core_ostpool_osts" then DbRecord_OstPoolOsts <$> from_value_OstPoolOsts x
  else if String.eqb table_name "chroma_core_sfadiskdrive" then DbRecord_SfaDiskDrive <$> from_value_SfaDiskDrive x
  else if String.eqb table_name "chroma_core_sfaenclosure" then DbRecord_SfaEnclosure <$> from_value_SfaEnclosure x
  else if String.eqb table_name "chroma_core_sfastoragesystem" then DbRecord_SfaStorageSystem <$> from_value_SfaStorageSystem x
  else if String.eqb table_name "chroma_core_sfajob" then DbRecord_SfaJob <$> from_value_SfaJob x
  else if String.eqb table_name "chroma_core_sfapowersupply" then DbRecord_SfaPowerSupply <$> from_value_SfaPowerSupply x
  else if String.eqb table_name "chroma_core_sfacontroller" then DbRecord_SfaController <$> from_value_SfaController x
  else if String.eqb table_name "chroma_core_stratagemconfiguration" then DbRecord_StratagemConfiguration <$> from_value_StratagemConfiguration x
  else if String.eqb table_name "snapshot" then DbRecord_Snapshot <$> from_value_Snapshot x
  else if String.eqb table_name "snapshot_interval" then DbRecord_SnapshotInterval <$> from_value_SnapshotInterval x
  else if String.eqb table_name "snapshot_retention" then DbRecord_SnapshotRetention <$> from_value_SnapshotRetention x
  else if String.eqb table_name "target" then DbRecord_TargetRecord <$> from_value_TargetRecord x
  else if String.eqb table_name "chroma_core_lnetconfiguration" then DbRecord_LnetConfiguration <$> from_value_LnetConfiguration x
  else if String.eqb table_name "django_content_type" then DbRecord_ContentType <$> from_value_ContentType x
  else if String.eqb table_name "auth_group" then DbRecord_AuthGroup <$> from_value_AuthGroup x
  else if String.eqb table_name "auth_user_groups" then DbRecord_AuthUserGroup <$> from_value_AuthUserGroup x
  else if String.eqb table_name "auth_user" then DbRecord_AuthUser <$> from_value_AuthUser x
  else if String.eqb table_name "chroma_core_corosyncconfiguration" then DbRecord_CorosyncConfiguration <$> from_value_CorosyncConfiguration x
  else if String.eqb table_name "corosync_resource" then DbRecord_CorosyncResource <$> from_value_CorosyncResource x
  else if String.eqb table_name "corosync_resource_bans" then DbRecord_CorosyncResourceBan <$> from_value_CorosyncResourceBan x
  else if String.eqb table_name "chroma_core_pacemakerconfiguration" then DbRecord_PacemakerConfiguration <$> from_value_PacemakerConfiguration x
  else None.

(** * Changes: [cache.rs] *)

Inductive RecordChange : Type :=
| Change_Update (r : Record_)
| Change_Delete (id : RecordId).

Inductive MessageType : Type := MessageType_Update | MessageType_Insert | MessageType_Delete.
#[export] Instance MessageType_eq_dec : EqDecision MessageType.
Proof. solve_decision. Defined.

(** What the API answers for one record: an error may be that it does not exist. *)
Inductive ClientError : Type := NotFound | OtherError.

Record Api : Type := MkApi {
  api_host : Z -> Result ClientError Host;
  api_filesystem : Z -> Result ClientError Filesystem;
  api_alert : Z -> Result ClientError Alert;
}.

Definition converter {T} (get : Z -> Result ClientError T) (msg_type : MessageType) (id : Z) (del : bool)
    (record_fn : T -> Record_) (record_id_fn : Z -> RecordId) : Result ClientError RecordChange :=
  if bool_decide (msg_type = MessageType_Delete) || del then Ok (Change_Delete (record_id_fn id))
  else match get id with
       | Ok x => Ok (Change_Update (record_fn x))
       | Err NotFound => Ok (Change_Delete (record_id_fn id))
       | Err e => Err e
       end.

(** The arms that take the row as it is. *)
Definition direct (msg_type : MessageType) (del : bool) (r : Record_) : RecordChange :=
  if bool_decide (msg_type = MessageType_Delete) || del then Change_Delete (record_id r) else Change_Update r.

Definition db_record_to_change_record (api : Api) (msg_type : MessageType) (record : DbRecord) :
    Result ClientError RecordChange :=
  match record with
  | DbRecord_AuthGroup x => Ok (direct msg_type false (Record_Group x))
  | DbRecord_AuthUser x => Ok (direct msg_type false (Record_User x))
  | DbRecord_AuthUserGroup x => Ok (direct msg_type false (Record_UserGroup x))
  | DbRecord_AlertState x =>
      if bool_decide (msg_type = MessageType_Delete) || negb (AlertStateRecord_is_active x)
      then Ok (Change_Delete (RecordId_ActiveAlert (AlertStateRecord_id x)))
      else y ← api_alert api (AlertStateRecord_id x); Ok (Change_Update (Record_ActiveAlert y))
  | DbRecord_ContentType x => Ok (direct msg_type false (Record_ContentType x))
  | DbRecord_CorosyncConfiguration x => Ok (direct msg_type (deleted (CorosyncConfigurationRecord_not_deleted x)) (Record_CorosyncConfiguration x))
  | DbRecord_CorosyncResource x => Ok (direct msg_type false (Record_CorosyncResource x))
  | DbRecord_CorosyncResourceBan x => Ok (direct msg_type false (Record_CorosyncResourceBan x))
  | DbRecord_LnetConfiguration x => Ok (direct msg_type (deleted (LnetConfigurationRecord_not_deleted x)) (Record_LnetConfiguration x))
  | DbRecord_ManagedFilesystem x =>
      converter (api_filesystem api) msg_type (FsRecord_id x) (deleted (FsRecord_not_deleted x)) Record_Filesystem RecordId_Filesystem
  | DbRecord_ManagedHost x =>
      converter (api_host api) msg_type (ManagedHostRecord_id x) (deleted (ManagedHostRecord_not_deleted x)) Record_Host RecordId_Host
  | DbRecord_ManagedTarget x => Ok (direct msg_type (deleted (ManagedTargetRecord_not_deleted x)) (Record_Target x))
  | DbRecord_OstPool x => Ok (direct msg_type (deleted (OstPoolRecord_not_deleted x)) (Record_OstPool x))
  | DbRecord_OstPoolOsts x => Ok (direct msg_type false (Record_OstPoolOsts x))
  | DbRecord_PacemakerConfiguration x => Ok (direct msg_type (deleted (PacemakerConfigurationRecord_not_deleted x)) (Record_PacemakerConfiguration x))
  | DbRecord_SfaDiskDrive x => Ok (direct msg_type false (Record_SfaDiskDrive x))
  | DbRecord_SfaEnclosure x => Ok (direct msg_type false (Record_SfaEnclosure x))
  | DbRecord_SfaStorageSystem x => Ok (direct msg_type false (Record_SfaStorageSystem x))
  | DbRecord_SfaJob x => Ok (direct msg_type false (Record_SfaJob x))
  | DbRecord_SfaPowerSupply x => Ok (direct msg_type false (Record_SfaPowerSupply x))
  | DbRecord_SfaController x => Ok (direct msg_type false (Record_SfaController x))
  | DbRecord_Snapshot x => Ok (direct msg_type false (Record_Snapshot x))
  | DbRecord_SnapshotInterval x => Ok (direct msg_type false (Record_SnapshotInterval x))
  | DbRecord_SnapshotRetention x => Ok (direct msg_type false (Record_SnapshotRetention x))
  | DbRecord_StratagemConfiguration x => Ok (direct msg_type (deleted (StratagemConfiguration_not_deleted x)) (Record_StratagemConfig x))
  | DbRecord_TargetRecord x => Ok (direct msg_type false (Record_TargetRecord x))
  | DbRecord_Volume x => Ok (direct msg_type (deleted (VolumeRecord_not_deleted x)) (Record_Volume x))
  | DbRecord_VolumeNode x => Ok (direct msg_type (deleted (VolumeNodeRecord_not_deleted x)) (Record_VolumeNode x))
  end.

(** Collecting pairs into a [HashMap]: a later one replaces an earlier. *)
Definition collect {A} (id : A -> Z) (xs : list A) : gmap Z A := foldl (fun m x => <[id x := x]> m) ∅ xs.

Definition populate_from_api (fs : list Filesystem) (alerts : list Alert) (hosts : list Host) (c : Cache) : Cache :=
  on_host (fun _ => collect Host_id hosts) (on_active_alert (fun _ => collect Alert_id alerts)
    (on_filesystem (fun _ => collect Filesystem_id fs) c)).

(** A [SELECT] of a table, and one [WHERE not_deleted = 't']. *)
Definition select {A} (t : gmap Z A) : list A := (map_to_list t).*2.
Definition select_where {A} (p : A -> bool) (t : gmap Z A) : list A := List.filter p (select t).

(** The tables of the database are those of the cache; [db n] is what the [n]th query
    finds. *)
Definition populate_from_db (db : nat -> Cache) (c : Cache) : Cache :=
  let c := on_content_type (fun _ => collect ContentTypeRecord_id (select (content_type (db 0%nat)))) c in
  let c := on_corosync_configuration (fun _ => collect CorosyncConfigurationRecord_id (select_where (fun x => not_deleted (CorosyncConfigurationRecord_not_deleted x)) (corosync_configuration (db 1%nat)))) c in
  let c := on_corosync_resource (fun _ => collect CorosyncResourceRecord_id (select (corosync_resource (db 2%nat)))) c in
  let c := on_corosync_resource_ban (fun _ => collect CorosyncResourceBanRecord_id (select (corosync_resource_ban (db 3%nat)))) c in
  let c := on_group (fun _ => collect AuthGroupRecord_id (select (group (db 4%nat)))) c in
  let c := on_lnet_configuration (fun _ => collect LnetConfigurationRecord_id (select_where (fun x => not_deleted (LnetConfigurationRecord_not_deleted x)) (lnet_configuration (db 5%nat)))) c in
  let c := on_target (fun _ => collect ManagedTargetRecord_id (select_where (fun x => not_deleted (ManagedTargetRecord_not_deleted x)) (target (db 6%nat)))) c in
  let c := on_target_record (fun _ => collect TargetRecord_id (select (target_record (db 7%nat)))) c in
  let c := on_ost_pool (fun _ => collect OstPoolRecord_id (select_where (fun x => not_deleted (OstPoolRecord_not_deleted x)) (ost_pool (db 8%nat)))) c in
  let c := on_ost_pool_osts (fun _ => collect OstPoolOstsRecord_id (select (ost_pool_osts (db 9%nat)))) c in
  let c := on_sfa_disk_drive (fun _ => collect SfaDiskDrive_id (select (sfa_disk_drive (db 10%nat)))) c in
  let c := on_sfa_enclosure (fun _ => collect SfaEnclosure_id (select (sfa_enclosure (db 11%nat)))) c in
  let c := on_sfa_job (fun _ => collect SfaJob_id (select (sfa_job (db 12%nat)))) c in
  let c := on_sfa_power_supply (fun _ => collect SfaPowerSupply_id (select (sfa_power_supply (db 13%nat)))) c in
  let c := on_sfa_storage_system (fun _ => collect SfaStorageSystem_id (select (sfa_storage_system (db 14%nat)))) c in
  let c := on_sfa_controller (fun _ => collect SfaController_id (select (sfa_controller (db 15%nat)))) c in
  let c := on_snapshot (fun _ => collect SnapshotRecord_id (select (snapshot (db 16%nat)))) c in
  let c := on_snapshot_interval (fun _ => collect SnapshotInterval_id (select (snapshot_interval (db 17%nat)))) c in
  let c := on_snapshot_retention (fun _ => collect SnapshotRetention_id (select (snapshot_retention (db 18%nat)))) c in
  let c := on_stratagem_config (fun _ => collect StratagemConfiguration_id (select_where (fun x => not_deleted (StratagemConfiguration_not_deleted x)) (stratagem_config (db 19%nat)))) c in
  let c := on_user (fun _ => collect AuthUserRecord_id (select (user (db 20%nat)))) c in
  let c := on_user_group (fun _ => collect AuthUserGroupRecord_id (select (user_group (db 21%nat)))) c in
  let c := on_pacemaker_configuration (fun _ => collect PacemakerConfigurationRecord_id (select_where (fun x => not_deleted (PacemakerConfigurationRecord_not_deleted x)) (pacemaker_configuration (db 22%nat)))) c in
  let c := on_volume (fun _ => collect VolumeRecord_id (select_where (fun x => not_deleted (VolumeRecord_not_deleted x)) (volume (db 23%nat)))) c in
  let c := on_volume_node (fun _ => collect VolumeNodeRecord_id (select_where (fun x => not_deleted (VolumeNodeRecord_not_deleted x)) (volume_node (db 24%nat)))) c in
  c.

(** The record a row is shown as, for the tables that are shown as they are. *)
Definition row_record (record : DbRecord) : option Record_ :=
  match record with
  | DbRecord_AuthGroup x => Some (Record_Group x)
  | DbRecord_AuthUser x => Some (Record_User x)
  | DbRecord_AuthUserGroup x => Some (Record_UserGroup x)
  | DbRecord_ContentType x => Some (Record_ContentType x)
  | DbRecord_CorosyncConfiguration x => Some (Record_CorosyncConfiguration x)
  | DbRecord_CorosyncResource x => Some (Record_CorosyncResource x)
  | DbRecord_CorosyncResourceBan x => Some (Record_CorosyncResourceBan x)
  | DbRecord_LnetConfiguration x => Some (Record_LnetConfiguration x)
  | DbRecord_ManagedTarget x => Some (Record_Target x)
  | DbRecord_OstPool x => Some (Record_OstPool x)
  | DbRecord_OstPoolOsts x => Some (Record_OstPoolOsts x)
  | DbRecord_PacemakerConfiguration x => Some (Record_PacemakerConfiguration x)
  | DbRecord_SfaDiskDrive x => Some (Record_SfaDiskDrive x)
  | DbRecord_SfaEnclosure x => Some (Record_SfaEnclosure x)
  | DbRecord_SfaStorageSystem x => Some (Record_SfaStorageSystem x)
  | DbRecord_SfaJob x => Some (Record_SfaJob x)
  | DbRecord_SfaPowerSupply x => Some (Record_SfaPowerSupply x)
  | DbRecord_SfaController x => Some (Record_SfaController x)
  | DbRecord_Snapshot x => Some (Record_Snapshot x)
  | DbRecord_SnapshotInterval x => Some (Record_SnapshotInterval x)
  | DbRecord_SnapshotRetention x => Some (Record_SnapshotRetention x)
  | DbRecord_StratagemConfiguration x => Some (Record_StratagemConfig x)
  | DbRecord_TargetRecord x => Some (Record_TargetRecord x)
  | DbRecord_Volume x => Some (Record_Volume x)
  | DbRecord_VolumeNode x => Some (Record_VolumeNode x)
  | _ => None
  end.

(** Whether its row is marked as deleted. *)
Definition record_deleted (r : Record_) : bool :=
  match r with
  | Record_CorosyncConfiguration x => deleted (CorosyncConfigurationRecord_not_deleted x)
  | Record_LnetConfiguration x => deleted (LnetConfigurationRecord_not_deleted x)
  | Record_Target x => deleted (ManagedTargetRecord_not_deleted x)
  | Record_OstPool x => deleted (OstPoolRecord_not_deleted x)
  | Record_PacemakerConfiguration x => deleted (PacemakerConfigurationRecord_not_deleted x)
  | Record_StratagemConfig x => deleted (StratagemConfiguration_not_deleted x)
  | Record_Volume x => deleted (VolumeRecord_not_deleted x)
  | Record_VolumeNode x => deleted (VolumeNodeRecord_not_deleted x)
  | _ => false
  end.

(** The query of [populate_from_db] that reads the table of a record. *)
Definition query_of (x : RecordId) : option nat :=
  match x with
  | RecordId_ContentType _ => Some 0%nat
  | RecordId_CorosyncConfiguration _ => Some 1%nat
  | RecordId_CorosyncResource _ => Some 2%nat
  | RecordId_CorosyncResourceBan _ => Some 3%nat
  | RecordId_Group _ => Some 4%nat
  | RecordId_LnetConfiguration _ => Some 5%nat
  | RecordId_Target _ => Some 6%nat
  | RecordId_TargetRecord _ => Some 7%nat
  | RecordId_OstPool _ => Some 8%nat
  | RecordId_OstPoolOsts _ => Some 9%nat
  | RecordId_SfaDiskDrive _ => Some 10%nat
  | RecordId_SfaEnclosure _ => Some 11%nat
  | RecordId_SfaJob _ => Some 12%nat
  | RecordId_SfaPowerSupply _ => Some 13%nat
  | RecordId_SfaStorageSystem _ => Some 14%nat
  | RecordId_SfaController _ => Some 15%nat
  | RecordId_Snapshot _ => Some 16%nat
  | RecordId_SnapshotInterval _ => Some 17%nat
  | RecordId_SnapshotRetention _ => Some 18%nat
  | RecordId_StratagemConfig _ => Some 19%nat
  | RecordId_User _ => Some 20%nat
  | RecordId_UserGroup _ => Some 21%nat
  | RecordId_PacemakerConfiguration _ => Some 22%nat
  | RecordId_Volume _ => Some 23%nat
  | RecordId_VolumeNode _ => Some 24%nat
  | _ => None
  end.
(** * Equality: [PartialEq] of [Record]

    It is structural but for the two [f64] of a file system. *)
Definition option_eqb {A} (eqb : A -> A -> bool) (x y : option A) : bool :=
  match x, y with Some x, Some y => eqb x y | None, None => true | _, _ => false end.

Definition with_bytes (free total : option spec_float) (x : Filesystem) : Filesystem :=
  MkFilesystem free total (Filesystem_cdt_mdt x) (Filesystem_cdt_status x) (Filesystem_client_count x)
    (Filesystem_conf_params x) (Filesystem_content_type_id x) (Filesystem_files_free x) (Filesystem_files_total x)
    (Filesystem_hsm_control_params x) (Filesystem_id x) (Filesystem_immutable_state x) (Filesystem_label x)
    (Filesystem_mdts x) (Filesystem_mgt x) (Filesystem_name x) (Filesystem_osts x) (Filesystem_resource_uri x)
    (Filesystem_state x) (Filesystem_state_modified_at x).

Definition Filesystem_eqb (x y : Filesystem) : bool :=
  option_eqb SFeqb (Filesystem_bytes_free x) (Filesystem_bytes_free y) &&
  option_eqb SFeqb (Filesystem_bytes_total x) (Filesystem_bytes_total y) &&
  bool_decide (with_bytes None None x = with_bytes None None y).

#[export] Instance Record_eq_dec : EqDecision Record_.
Proof. solve_decision. Defined.

Definition record_eqb (x y : Record_) : bool :=
  match x, y with
  | Record_Filesystem x, Record_Filesystem y => Filesystem_eqb x y
  | _, _ => bool_decide (x = y)
  end.

(** Records that are equal in this sense have the same canonical form: they differ at
    most in the sign of a zero. *)
Definition canon_float (x : spec_float) : spec_float :=
  match x with S754_zero _ => S754_zero false | _ => x end.

Definition canon (r : Record_) : Record_ :=
  match r with
  | Record_Filesystem x =>
      Record_Filesystem (with_bytes (canon_float <$> Filesystem_bytes_free x) (canon_float <$> Filesystem_bytes_total x) x)
  | _ => r
  end.

Lemma SFeqb_canon x y : SFeqb x y = true -> canon_float x = canon_float y.
Proof.
  unfold SFeqb. destruct x as [a|a| |a m e], y as [b|b| |b n f]; try destruct a; try destruct b; try done; simpl;
    destruct (Z.compare_spec e f) as [->|?|?]; try done;
    destruct (Pos.compare_cont Eq m n) eqn:E; try done; by apply Pos.compare_eq in E as ->.
Qed.

Lemma option_eqb_canon x y : option_eqb SFeqb x y = true -> canon_float <$> x = canon_float <$> y.
Proof. destruct x, y; try done. intros ?%SFeqb_canon. simpl. by f_equal. Qed.

Lemma with_bytes_twice f t f' t' x : with_bytes f t (with_bytes f' t' x) = with_bytes f t x.
Proof. done. Qed.

Lemma record_eqb_canon x y : record_eqb x y = true -> canon x = canon y.
Proof.
  destruct x, y; try (intros ->%bool_decide_eq_true; reflexivity).
  intros [[H1%option_eqb_canon H2%option_eqb_canon]%andb_true_iff H3%bool_decide_eq_true]%andb_true_iff. simpl.
  rewrite H1, H2. f_equal. by rewrite <-(with_bytes_twice _ _ None None x), H3, with_bytes_twice.
Qed.

Lemma record_id_canon r : record_id (canon r) = record_id r.
Proof. by destruct r. Qed.

(** * The cache as one map *)

Lemma cache_get_insert c x id :
  cache_get (insert_record c x) id = if decide (id = record_id x) then Some x else cache_get c id.
Proof.
  destruct c. destruct x, id; case_decide as H; try reflexivity; try discriminate H; simpl in *;
    solve [by simplify_eq; rewrite lookup_insert_eq|rewrite lookup_insert_ne by congruence; reflexivity].
Qed.

Lemma remove_record_fst c id : (remove_record c id).1 = cache_get c id.
Proof. by destruct id. Qed.

Lemma cache_get_remove c x id :
  cache_get (remove_record c x).2 id = if decide (id = x) then None else cache_get c id.
Proof.
  destruct c. destruct x, id; case_decide as H; try reflexivity; try discriminate H; simpl in *;
    solve [by simplify_eq; rewrite lookup_delete_eq|rewrite lookup_delete_ne by congruence; reflexivity].
Qed.

Lemma fmap_option_inj {A B} (f : A -> B) (x y : option A) : Inj (=) (=) f -> f <$> x = f <$> y -> x = y.
Proof. intros ? H. destruct x, y; simplify_eq/=; done. Qed.

(** The records determine the cache. *)
Lemma cache_ext c d : (forall id, cache_get c id = cache_get d id) -> c = d.
Proof.
  intros H. destruct c, d.
  f_equal; apply map_eq; intros i; (eapply fmap_option_inj;
    [|first [ exact (H (RecordId_ContentType i))
            | exact (H (RecordId_CorosyncConfiguration i))
            | exact (H (RecordId_CorosyncResource i))
            | exact (H (RecordId_CorosyncResourceBan i))
            | exact (H (RecordId_ActiveAlert i))
            | exact (H (RecordId_Filesystem i))
            | exact (H (RecordId_Group i))
            | exact (H (RecordId_Host i))
            | exact (H (RecordId_LnetConfiguration i))
            | exact (H (RecordId_OstPool i))
            | exact (H (RecordId_OstPoolOsts i))
            | exact (H (RecordId_SfaDiskDrive i))
            | exact (H (RecordId_SfaEnclosure i))
            | exact (H (RecordId_SfaJob i))
            | exact (H (RecordId_SfaPowerSupply i))
            | exact (H (RecordId_SfaStorageSystem i))
            | exact (H (RecordId_SfaController i))
            | exact (H (RecordId_Snapshot i))
            | exact (H (RecordId_SnapshotInterval i))
            | exact (H (RecordId_SnapshotRetention i))
            | exact (H (RecordId_StratagemConfig i))
            | exact (H (RecordId_Target i))
            | exact (H (RecordId_TargetRecord i))
            | exact (H (RecordId_User i))
            | exact (H (RecordId_UserGroup i))
            | exact (H (RecordId_PacemakerConfiguration i))
            | exact (H (RecordId_Volume i))
            | exact (H (RecordId_VolumeNode i)) ]];
    intros ? ? [=]; done).
Qed.
