(* ===== verification/WarpDrive.v ===== *)
(** Warp drive, [iml-warp-drive/src/]: users connect to it and get the records and the
    locks of the manager, and from then on every change. Three kinds of tasks share the
    cache, the locks and the users: the listener of database notifications
    ([listen.rs]), the consumer of the locks queue ([locks.rs], [main.rs]) and one task
    per connecting user ([users.rs], [main.rs]). A turn runs a task from one point
    where it waits to the next; a mutex that is held over such a point is part of the
    state. The last part is what the user's browser does with the messages
    ([iml-gui/crate/src/lib.rs]). *)
From S2P Require Import Prelude RustStd WarpTypes WarpCache.
From stdpp Require Import base gmap sets list strings countable.
From Stdlib Require Import ZArith Ascii SpecFloat.

Open Scope Z_scope.

(** * Locks: [locks.rs] *)

#[export] Instance LockType_countable : Countable LockType.
Proof.
  refine (inj_countable' (fun x => match x with LockType_Read => true | LockType_Write => false end)
            (fun b : bool => if b then LockType_Read else LockType_Write) _); by intros [].
Defined.
#[export] Instance LockAction_countable : Countable LockAction.
Proof.
  refine (inj_countable' (fun x => match x with LockAction_Add => true | LockAction_Remove => false end)
            (fun b : bool => if b then LockAction_Add else LockAction_Remove) _); by intros [].
Defined.
#[export] Instance LockChange_countable : Countable LockChange.
Proof.
  refine (inj_countable'
    (fun x => (LockChange_uuid x, LockChange_job_id x, LockChange_content_type_id x, LockChange_item_id x,
               LockChange_description x, LockChange_lock_type x, LockChange_action x))
    (fun '(a, b, c, d, e, f, g) => MkLockChange a b c d e f g) _); by intros [].
Defined.

(** [CompositeId]: [Display], and [TryFrom<String>]. *)
Definition CompositeId_to_string (x : CompositeId) : string :=
  fmt_int (ci_type x) +:+ ":" +:+ fmt_int (ci_item x).

Definition parse_i32 (s : string) : Result ParseIntError Z := from_str_radix 10 (- 2 ^ 31) (2 ^ 31 - 1) s.

Definition CompositeId_try_from (s : string) : option CompositeId :=
  match str_split ":"%char s with
  | [x; y] => match parse_i32 x, parse_i32 y with
              | Ok x, Ok y => Some (MkCompositeId x y)
              | _, _ => None
              end
  | _ => None
  end.

Definition composite_id (x : LockChange) : CompositeId :=
  MkCompositeId (LockChange_content_type_id x) (LockChange_item_id x).

Abbreviation Locks := (gmap string (gset LockChange)) (only parsing).

Definition add_lock (locks : Locks) (x : LockChange) : Locks :=
  let k := CompositeId_to_string (composite_id x) in
  <[k := {[x]} ∪ default ∅ (locks !! k)]> locks.

Definition remove_lock (locks : Locks) (x : LockChange) : Locks :=
  let k := CompositeId_to_string (composite_id x) in
  match locks !! k with
  | Some xs => <[k := filter (fun y => LockChange_uuid y <> LockChange_uuid x) xs]> locks
  | None => locks
  end.

Definition update_locks (locks : Locks) (x : LockChange) : Locks :=
  match LockChange_action x with
  | LockAction_Add => add_lock locks x
  | LockAction_Remove => filter (fun kv => kv.2 <> ∅) (remove_lock locks x)
  end.

(** What comes over the locks queue. *)
Inductive Changes : Type :=
| Changes_Locks (l : Locks)
| Changes_LockChange (l : LockChange).

(** * Users: [users.rs] *)

Inductive Message : Type :=
| Message_Locks (l : Locks)
| Message_Records (c : Cache)
| Message_RecordChange (r : RecordChange).

(** A user's channel: what was sent on it, and whether its receiver is still there. *)
Record User : Type := MkUser { us_sent : list Message; us_open : bool }.

(** [send_message]: users that are gone are dropped. *)
Definition send_to (m : Message) (u : User) : option User :=
  if us_open u then Some (MkUser (us_sent u ++ [m]) true) else None.

Definition send_message (m : Message) (users : gmap nat User) : gmap nat User := omap (send_to m) users.

(** * Database notifications: [listen.rs] *)

(** The change of the cache, and whether the users are told of it. *)
Definition change_cache (rc : RecordChange) (c : Cache) : bool * Cache :=
  match rc with
  | Change_Delete r => let '(old, c) := remove_record c r in (bool_decide (is_Some old), c)
  | Change_Update r =>
      let '(old, c) := remove_record c (record_id r) in
      (negb (match old with Some o => record_eqb o r | None => false end), insert_record c r)
  end.

(** What PostgreSQL sends on the connection. *)
Inductive AsyncMessage : Type :=
| Notification (channel payload : string)
| Notice.

Section Service.
Context `{R : Rows} (from_str : string -> option (MessageType * string * value))
  (changes_from_slice : string -> option Changes).

Definition into_db_record (s : string) : option (MessageType * DbRecord) :=
  '(msg_type, table_name, x) ← from_str s;
  r ← DbRecord_try_from table_name x;
  Some (msg_type, r).

(** One turn of [handle_db_notifications] up to the change: [None] is the error that
    ends it, [Some None] a message of another channel. *)
Definition notified (api : Api) (m : AsyncMessage) : option (option RecordChange) :=
  match m with
  | Notification channel payload =>
      if String.eqb channel "table_update" then
        '(msg_type, r) ← into_db_record payload;
        match db_record_to_change_record api msg_type r with
        | Ok rc => Some (Some rc)
        | Err _ => None
        end
      else Some None
  | Notice => None
  end.

(** * The tasks *)

(** The listener waits for a message, has a change to make, has made it and is to tell
    the users (with the cache locked or not), or has ended. *)
Inductive Listener : Type :=
| LWait
| LChange (rc : RecordChange)
| LSend (rc : RecordChange) (locked : bool)
| LEnd.

(** The consumer of the locks queue: the same, and the point between an update of the
    locks and the copy of them that is sent. *)
Inductive Locker : Type :=
| KWait
| KChanged
| KSend (l : Locks) (locked : bool)
| KEnd.

(** A user's request holds the locks, and then the cache, until it is registered. *)
Inductive Conn : Type :=
| CLocks (l : Locks)
| CCache (l : Locks) (c : Cache).

Inductive Holder : Type := HListener | HLocker | HConn (n : nat).
#[local] Instance Holder_eq_dec : EqDecision Holder.
Proof. solve_decision. Defined.

Record World : Type := MkWorld {
  w_cache : Cache;
  w_cache_held : option Holder;
  w_locks : Locks;
  w_locks_held : option Holder;
  w_users : gmap nat User;
  w_conns : gmap nat Conn;
  w_next : nat;
  w_listener : Listener;
  w_locker : Locker;
}.

Definition set_listener (l : Listener) (w : World) : World :=
  MkWorld (w_cache w) (w_cache_held w) (w_locks w) (w_locks_held w) (w_users w) (w_conns w) (w_next w) l (w_locker w).
Definition set_locker (k : Locker) (w : World) : World :=
  MkWorld (w_cache w) (w_cache_held w) (w_locks w) (w_locks_held w) (w_users w) (w_conns w) (w_next w) (w_listener w) k.
Definition set_users (us : gmap nat User) (w : World) : World :=
  MkWorld (w_cache w) (w_cache_held w) (w_locks w) (w_locks_held w) us (w_conns w) (w_next w) (w_listener w) (w_locker w).
Definition set_conns (cs : gmap nat Conn) (w : World) : World :=
  MkWorld (w_cache w) (w_cache_held w) (w_locks w) (w_locks_held w) (w_users w) cs (w_next w) (w_listener w) (w_locker w).
Definition set_cache (c : Cache) (h : option Holder) (w : World) : World :=
  MkWorld c h (w_locks w) (w_locks_held w) (w_users w) (w_conns w) (w_next w) (w_listener w) (w_locker w).
Definition set_locks (l : Locks) (h : option Holder) (w : World) : World :=
  MkWorld (w_cache w) (w_cache_held w) l h (w_users w) (w_conns w) (w_next w) (w_listener w) (w_locker w).
Definition set_next (n : nat) (w : World) : World :=
  MkWorld (w_cache w) (w_cache_held w) (w_locks w) (w_locks_held w) (w_users w) (w_conns w) n (w_listener w) (w_locker w).

(** The listener takes a message; the API's answers come with it. *)
Definition listener_recv (api : Api) (m : AsyncMessage) (w : World) : option World :=
  match w_listener w with
  | LWait => Some (set_listener match notified api m with
                                | Some (Some rc) => LChange rc
                                | Some None => LWait
                                | None => LEnd
                                end w)
  | _ => None
  end.

(** [handle_record_change]: an update keeps the cache locked until it is sent, a
    deletion does not. *)
Definition listener_turn (w : World) : option World :=
  match w_listener w with
  | LChange rc =>
      if bool_decide (w_cache_held w = None) then
        let '(tell, c) := change_cache rc (w_cache w) in
        let locked := match rc with Change_Update _ => true | Change_Delete _ => false end in
        Some (if tell then set_listener (LSend rc locked) (set_cache c (if locked then Some HListener else None) w)
              else set_listener LWait (set_cache c None w))
      else None
  | LSend rc locked =>
      Some (set_listener LWait (set_users (send_message (Message_RecordChange rc) (w_users w))
              (if locked then set_cache (w_cache w) None w else w)))
  | _ => None
  end.

Definition locker_recv (data : string) (w : World) : option World :=
  match w_locker w with
  | KWait =>
      match changes_from_slice data with
      | None => Some (set_locker KEnd w)
      | Some (Changes_Locks l) =>
          if bool_decide (w_locks_held w = None) then Some (set_locker (KSend l true) (set_locks l (Some HLocker) w))
          else None
      | Some (Changes_LockChange l) =>
          if bool_decide (w_locks_held w = None) then
            Some (set_locker KChanged (set_locks (update_locks (w_locks w) l) None w))
          else None
      end
  | _ => None
  end.

Definition locker_turn (w : World) : option World :=
  match w_locker w with
  | KChanged => if bool_decide (w_locks_held w = None) then Some (set_locker (KSend (w_locks w) false) w) else None
  | KSend l locked =>
      Some (set_locker KWait (set_users (send_message (Message_Locks l) (w_users w))
              (if locked then set_locks (w_locks w) None w else w)))
  | _ => None
  end.

(** A user connects: its request copies the locks. The guards of both copies live until
    [user_connected] has returned. *)
Definition connect (n : nat) (w : World) : option World :=
  if bool_decide (w_locks_held w = None /\ w_conns w !! n = None) then
    Some (set_conns (<[n := CLocks (w_locks w)]> (w_conns w)) (set_locks (w_locks w) (Some (HConn n)) w))
  else None.

Definition user_connected (l : Locks) (c : Cache) : User := MkUser [Message_Records c; Message_Locks l] true.

Definition conn_turn (n : nat) (w : World) : option World :=
  match w_conns w !! n with
  | Some (CLocks l) =>
      if bool_decide (w_cache_held w = None) then
        Some (set_conns (<[n := CCache l (w_cache w)]> (w_conns w)) (set_cache (w_cache w) (Some (HConn n)) w))
      else None
  | Some (CCache l c) =>
      Some (set_next (S (w_next w)) (set_users (<[w_next w := user_connected l c]> (w_users w))
             (set_conns (delete n (w_conns w)) (set_cache (w_cache w) None (set_locks (w_locks w) None w)))))
  | None => None
  end.

(** A request that is given up releases what it holds. *)
Definition conn_drop (n : nat) (w : World) : option World :=
  match w_conns w !! n with
  | Some (CLocks _) => Some (set_conns (delete n (w_conns w)) (set_locks (w_locks w) None w))
  | Some (CCache _ _) =>
      Some (set_conns (delete n (w_conns w)) (set_cache (w_cache w) None (set_locks (w_locks w) None w)))
  | None => None
  end.

(** The receiver of a user's channel goes. *)
Definition user_leaves (i : nat) (w : World) : option World :=
  u ← w_users w !! i; Some (set_users (<[i := MkUser (us_sent u) false]> (w_users w)) w).

(** [disconnect_all_users], once a task has failed. *)
Definition shutdown (w : World) : option World :=
  match w_listener w, w_locker w with
  | LEnd, _ | _, KEnd => Some (set_users ∅ w)
  | _, _ => None
  end.

Inductive Label : Type :=
| TListenerRecv (api : Api) (m : AsyncMessage)
| TListener
| TLockerRecv (data : string)
| TLocker
| TConnect (n : nat)
| TConn (n : nat)
| TConnDrop (n : nat)
| TLeave (i : nat)
| TShutdown.

Definition warp_turn (l : Label) (w : World) : option World :=
  match l with
  | TListenerRecv api m => listener_recv api m w
  | TListener => listener_turn w
  | TLockerRecv data => locker_recv data w
  | TLocker => locker_turn w
  | TConnect n => connect n w
  | TConn n => conn_turn n w
  | TConnDrop n => conn_drop n w
  | TLeave i => user_leaves i w
  | TShutdown => shutdown w
  end.

(** Once the cache is filled and the routes are served. *)
Definition warp_start (c : Cache) : World := MkWorld c None ∅ None ∅ ∅ 1 LWait KWait.

Definition warp_run (ls : list Label) (w : World) : option World :=
  foldl (fun o l => w ← o; warp_turn l w) (Some w) ls.

End Service.

(** * The browser: [iml-gui/crate/src/lib.rs] *)

(** The messages for the tree of the page. *)
Inductive TreeMsg : Type :=
| Tree_Reset
| Tree_Add (id : RecordId)
| Tree_Remove (id : RecordId).

(** The records shown in the tree. *)
Definition in_tree (id : RecordId) : bool :=
  match id with
  | RecordId_Filesystem _ | RecordId_VolumeNode _ | RecordId_Host _ | RecordId_OstPoolOsts _
  | RecordId_Target _ => true
  | _ => false
  end.

(** [handle_record_change], with the [RemoveRecord] it ends in. *)
Definition gui_record_change (rc : RecordChange) (records : Cache) : Cache * list TreeMsg :=
  match rc with
  | Change_Update r =>
      (insert_record records r,
       if in_tree (record_id r) && bool_decide (cache_get records (record_id r) = None)
       then [Tree_Add (record_id r)] else [])
  | Change_Delete id => ((remove_record records id).2, if in_tree id then [Tree_Remove id] else [])
  end.

(** What the page keeps. *)
Record Page : Type := MkPage { pg_records : Cache; pg_locks : Locks; pg_tree : list TreeMsg }.

Definition gui_message (p : Page) (m : Message) : Page :=
  match m with
  | Message_Locks l => MkPage (pg_records p) l (pg_tree p)
  | Message_Records c => MkPage c (pg_locks p) (pg_tree p ++ [Tree_Reset])
  | Message_RecordChange rc =>
      let '(c, t) := gui_record_change rc (pg_records p) in MkPage c (pg_locks p) (pg_tree p ++ t)
  end.

Definition page_start : Page := MkPage Cache_default ∅ [].

Definition gui_run (ms : list Message) : Page := foldl gui_message page_start ms.
