(* ===== verification/WarpLocks.v ===== *)
(** The locks that warp drive shows: which item is locked by which job, as the messages
    of the locks queue say. *)
From S2P Require Import Prelude RustStd WarpTypes WarpCache WarpDrive.
From stdpp Require Import base gmap sets list strings pretty.
From Stdlib Require Import ZArith Ascii.

Open Scope Z_scope.

(** * Composite ids *)

Lemma digit_not_colon d : (d < 10)%N -> pretty_N_char d <> ":"%char.
Proof. intros H. do 10 (destruct d as [|d] using N.peano_ind; [done|clear IHd]). lia. Qed.

Lemma composite_split x : str_split ":"%char (CompositeId_to_string x) = [fmt_int (ci_type x); fmt_int (ci_item x)].
Proof.
  unfold CompositeId_to_string.
  assert (Hc : forall z, contains_char ":"%char (fmt_int z) = false) by (intros; by apply fmt_int_contains; [apply digit_not_colon|]).
  rewrite str_app_cons, str_app_nil_l, str_split_app by done. by rewrite str_split_no_sep.
Qed.

(** A composite id is what its string is parsed to. *)
Theorem composite_id_round_trip x (Ht : - 2 ^ 31 <= ci_type x < 2 ^ 31) (Hi : - 2 ^ 31 <= ci_item x < 2 ^ 31) :
  CompositeId_try_from (CompositeId_to_string x) = Some x.
Proof.
  unfold CompositeId_try_from, parse_i32. rewrite composite_split, !parse_fmt_int by lia. by destruct x.
Qed.

#[export] Instance CompositeId_to_string_inj : Inj (=) (=) CompositeId_to_string.
Proof.
  intros [a b] [c d] H. assert (str_split ":"%char (CompositeId_to_string (MkCompositeId a b)) =
    str_split ":"%char (CompositeId_to_string (MkCompositeId c d))) as E by (by rewrite H).
  rewrite !composite_split in E. simpl in E. unfold fmt_int in E. injection E as E1%(inj pretty) E2%(inj pretty). congruence.
Qed.

(** * The state of the locks *)

Definition lock_key (x : LockChange) : string := CompositeId_to_string (composite_id x).

(** The lock is held. *)
Definition held (locks : gmap string (gset LockChange)) (x : LockChange) : Prop :=
  exists xs, locks !! lock_key x = Some xs /\ x ∈ xs.

(** Every lock is filed under its item, and no item is listed without a lock. *)
Definition wf_locks (locks : gmap string (gset LockChange)) : Prop :=
  forall k xs, locks !! k = Some xs -> xs <> ∅ /\ forall x, x ∈ xs -> lock_key x = k.

Lemma add_lock_held locks x y : held (add_lock locks x) y <-> y = x \/ held locks y.
Proof.
  unfold held, add_lock. fold (lock_key x). split.
  - intros (xs & [[E <-]|[Hne H]]%lookup_insert_Some & Hy); [|eauto].
    apply elem_of_union in Hy as [->%elem_of_singleton|Hy]; [by left|].
    right. rewrite <-E. destruct (locks !! lock_key x); [eauto|set_solver].
  - intros [->|(xs & H & Hy)]; [rewrite lookup_insert_eq; eexists; split; [done|]; set_solver|].
    destruct (decide (lock_key x = lock_key y)) as [E|].
    + rewrite <-E, lookup_insert_eq. eexists. split; [done|]. rewrite E, H. set_solver.
    + rewrite lookup_insert_ne by done. eauto.
Qed.

Lemma remove_lock_lookup locks x k xs :
  filter (fun kv : string * gset LockChange => kv.2 <> ∅) (remove_lock locks x) !! k = Some xs ->
  xs <> ∅ /\ exists ys, locks !! k = Some ys /\
    xs = if decide (k = lock_key x) then filter (fun y => LockChange_uuid y <> LockChange_uuid x) ys else ys.
Proof.
  intros [H Hne]%map_lookup_filter_Some. split; [done|]. unfold remove_lock in H. fold (lock_key x) in H.
  destruct (locks !! lock_key x) as [ys|] eqn:E.
  - apply lookup_insert_Some in H as [[<- <-]|[? H]]; [exists ys; by rewrite decide_True|].
    exists xs. by rewrite decide_False.
  - exists xs. split; [done|]. rewrite decide_False; [done|]. intros ->. congruence.
Qed.

Lemma remove_lock_held locks x y :
  held (filter (fun kv => kv.2 <> ∅) (remove_lock locks x)) y <->
  held locks y /\ ~ (LockChange_uuid y = LockChange_uuid x /\ composite_id y = composite_id x).
Proof.
  split.
  - intros (xs & (Hne & ys & Hys & ->)%remove_lock_lookup & Hy). case_decide as Hk.
    + apply elem_of_filter in Hy as [Hu Hy]. split; [by exists ys|]. naive_solver.
    + split; [by exists ys|]. intros [_ E]. apply Hk. unfold lock_key. by rewrite E.
  - intros [(ys & Hys & Hy) Hn]. unfold held.
    destruct (decide (lock_key y = lock_key x)) as [E|E].
    + exists (filter (fun z => LockChange_uuid z <> LockChange_uuid x) ys).
      assert (y ∈ filter (fun z => LockChange_uuid z <> LockChange_uuid x) ys) as Hin.
      { apply elem_of_filter. split; [|done]. intros Hu. apply Hn. split; [done|]. by apply (inj CompositeId_to_string). }
      split; [|done]. apply map_lookup_filter_Some. split; [|set_solver]. unfold remove_lock. fold (lock_key x).
      rewrite <-E, Hys. by rewrite lookup_insert_eq.
    + exists ys. split; [|done]. apply map_lookup_filter_Some. split; [|set_solver]. unfold remove_lock. fold (lock_key x).
      destruct (locks !! lock_key x); [|done]. by rewrite lookup_insert_ne.
Qed.

(** A message about a lock changes the locks by exactly that lock: an addition adds
    it, a removal takes away the locks of its item that have its uuid; locks stay filed
    under their item, and an item without locks is not listed. *)
Theorem update_locks_spec locks x (Hwf : wf_locks locks) :
  wf_locks (update_locks locks x) /\
  forall y, held (update_locks locks x) y <->
    match LockChange_action x with
    | LockAction_Add => y = x \/ held locks y
    | LockAction_Remove =>
        held locks y /\ ~ (LockChange_uuid y = LockChange_uuid x /\ composite_id y = composite_id x)
    end.
Proof.
  unfold update_locks. destruct (LockChange_action x); split; intros; [|apply add_lock_held| |apply remove_lock_held].
  - unfold add_lock. intros k xs [[<- <-]|[Hne H]]%lookup_insert_Some; [|by apply Hwf]. split; [set_solver|].
    intros y [->%elem_of_singleton|Hy]%elem_of_union; [done|].
    destruct (locks !! _) as [ys|] eqn:E; [|set_solver]. by apply (Hwf _ _ E).
  - intros k xs (Hne & ys & Hys & ->)%remove_lock_lookup. split; [done|]. destruct (Hwf k ys Hys) as [_ Hk].
    intros y Hy. apply Hk. case_decide; [by apply elem_of_filter in Hy as [_ ?]|done].
Qed.

(** * Witnesses *)

Lemma composite_id_round_trip_witness :
  CompositeId_try_from (CompositeId_to_string (MkCompositeId 41 (-7))) = Some (MkCompositeId 41 (-7)).
Proof. apply (composite_id_round_trip (MkCompositeId 41 (-7))); simpl; lia. Defined.

Definition sample_lock (a : LockAction) : LockChange := MkLockChange "u" 1 41 7 "" LockType_Write a.

Lemma update_locks_spec_witness :
  held (update_locks ∅ (sample_lock LockAction_Add)) (sample_lock LockAction_Add) /\
  ~ held (update_locks (add_lock ∅ (sample_lock LockAction_Add)) (sample_lock LockAction_Remove)) (sample_lock LockAction_Add).
Proof.
  split.
  - apply (proj2 (proj2 (update_locks_spec ∅ (sample_lock LockAction_Add) ltac:(done)) _)). by left.
  - intros H. apply (proj2 (update_locks_spec _ _ (proj1 (update_locks_spec ∅ (sample_lock LockAction_Add) ltac:(done)))
      )) in H as [_ H]. by apply H.
Defined.
