(* ===== verification/WarpSpec.v ===== *)
(** What warp drive promises its users: whatever the order in which its tasks run,
    once they are idle every connected user has the records and the locks the service
    has; the tasks never block one another for good; and the cache converges to the
    database it is filled from while that changes. *)
From S2P Require Import Prelude RustStd WarpTypes WarpCache WarpDrive.
From stdpp Require Import base gmap sets list strings.
From Stdlib Require Import ZArith Ascii.

Open Scope Z_scope.

(** * Changes of a cache *)

Lemma change_cache_get rc c id :
  cache_get (change_cache rc c).2 id =
  match rc with
  | Change_Delete r => if decide (id = r) then None else cache_get c id
  | Change_Update r => if decide (id = record_id r) then Some r else cache_get c id
  end.
Proof.
  destruct rc as [r|r]; unfold change_cache.
  - pose proof (cache_get_remove c (record_id r) id) as H. destruct (remove_record c (record_id r)) as [o d].
    simpl in *. rewrite cache_get_insert, H. by case_decide.
  - pose proof (cache_get_remove c r id) as H. by destruct (remove_record c r) as [o d].
Qed.

(** The browser makes the change that the service made. *)
Lemma gui_change rc c : (gui_record_change rc c).1 = (change_cache rc c).2.
Proof.
  apply cache_ext. intros id. rewrite change_cache_get.
  destruct rc as [r|r]; simpl; [by rewrite cache_get_insert|by rewrite cache_get_remove].
Qed.

Lemma change_idemp rc c : (change_cache rc (change_cache rc c).2).2 = (change_cache rc c).2.
Proof. apply cache_ext. intros id. rewrite !change_cache_get. destruct rc; by case_decide. Qed.

(** Caches with equal records. *)
Definition agree (c d : Cache) : Prop := forall id, canon <$> cache_get c id = canon <$> cache_get d id.

#[export] Instance agree_equiv : Equivalence agree.
Proof. split; [done|intros c d H id; by rewrite H|intros c d e H1 H2 id; by rewrite H1]. Qed.

#[export] Instance change_agree rc : Proper (agree ==> agree) (fun c => (change_cache rc c).2).
Proof. intros c d H id. rewrite !change_cache_get. destruct rc; case_decide; done. Qed.

(** A change that is not told changes nothing that is told apart. *)
Lemma untold_agree rc c : (change_cache rc c).1 = false -> agree c (change_cache rc c).2.
Proof.
  intros H id. rewrite change_cache_get. destruct rc as [r|r]; unfold change_cache in H.
  - pose proof (remove_record_fst c (record_id r)) as E. destruct (remove_record c (record_id r)) as [o d].
    simpl in *. subst o. case_decide; [subst|done].
    destruct (cache_get c (record_id r)); [|done]. apply negb_false_iff, record_eqb_canon in H. simpl. by f_equal.
  - pose proof (remove_record_fst c r) as E. destruct (remove_record c r) as [o d]. simpl in *. subst o.
    case_decide; [subst|done]. apply bool_decide_eq_false, eq_None_not_Some in H. by rewrite H.
Qed.

(** * Pages *)

Lemma gui_run_app ms m : gui_run (ms ++ [m]) = gui_message (gui_run ms) m.
Proof. unfold gui_run. by rewrite foldl_app. Qed.

Definition page (u : User) : Page := gui_run (us_sent u).

Lemma page_change rc u b :
  pg_records (page (MkUser (us_sent u ++ [Message_RecordChange rc]) b)) = (change_cache rc (pg_records (page u))).2 /\
  pg_locks (page (MkUser (us_sent u ++ [Message_RecordChange rc]) b)) = pg_locks (page u).
Proof.
  unfold page. simpl. rewrite gui_run_app. simpl. rewrite <-gui_change.
  by destruct (gui_record_change rc (pg_records (gui_run (us_sent u)))).
Qed.

Lemma page_locks l u b :
  pg_records (page (MkUser (us_sent u ++ [Message_Locks l]) b)) = pg_records (page u) /\
  pg_locks (page (MkUser (us_sent u ++ [Message_Locks l]) b)) = l.
Proof. unfold page. simpl. by rewrite gui_run_app. Qed.

Lemma send_message_Some m us i u :
  send_message m us !! i = Some u -> exists v, us !! i = Some v /\ u = MkUser (us_sent v ++ [m]) true.
Proof.
  unfold send_message. rewrite lookup_omap. intros (v & Hv & H)%bind_Some. exists v. split; [done|].
  unfold send_to in H. destruct (us_open v); congruence.
Qed.

(** * The invariant *)

(** The change the listener has made and not yet sent. *)
Definition pending (l : Listener) (c : Cache) : Cache :=
  match l with LSend rc _ => (change_cache rc c).2 | _ => c end.

Definition conn_locks (x : Conn) := match x with CLocks l | CCache l _ => l end.

Record Inv (w : World) : Prop := {
  inv_conn n x : w_conns w !! n = Some x -> w_locks_held w = Some (HConn n) /\ conn_locks x = w_locks w;
  inv_conn_cache n l c : w_conns w !! n = Some (CCache l c) -> w_cache_held w = Some (HConn n) /\ c = w_cache w;
  inv_listener rc b : w_listener w = LSend rc b ->
    (change_cache rc (w_cache w)).2 = w_cache w /\ (b = true -> w_cache_held w = Some HListener);
  inv_locker l b : w_locker w = KSend l b -> l = w_locks w /\ (b = true -> w_locks_held w = Some HLocker);
  inv_cache_held h : w_cache_held w = Some h ->
    match h with
    | HListener => exists rc, w_listener w = LSend rc true
    | HLocker => False
    | HConn n => exists l c, w_conns w !! n = Some (CCache l c)
    end;
  inv_locks_held h : w_locks_held w = Some h ->
    match h with
    | HListener => False
    | HLocker => exists l, w_locker w = KSend l true
    | HConn n => is_Some (w_conns w !! n)
    end;
  inv_records i u : w_users w !! i = Some u -> agree (pending (w_listener w) (pg_records (page u))) (w_cache w);
  inv_locks i u : w_users w !! i = Some u -> w_locker w = KWait \/ w_locker w = KEnd -> pg_locks (page u) = w_locks w;
}.

Section Preserved.
Context `{R : Rows} (from_str : string -> option (MessageType * string * value))
  (changes_from_slice : string -> option Changes).
Implicit Types w : World.

Lemma Inv_start c : Inv (warp_start c).
Proof. split; simpl; intros; simplify_map_eq; done. Qed.

Ltac bd := repeat match goal with
  | H : context [bool_decide ?P] |- _ => destruct (bool_decide_reflect P); try done
  end.

Lemma Inv_listener_recv api m w w' : Inv w -> listener_recv from_str api m w = Some w' -> Inv w'.
Proof.
  intros [I1 I2 I3 I4 I5 I6 I7 I8] H. unfold listener_recv in H. destruct (w_listener w) eqn:E; simplify_eq.
  split; simpl; try done.
  - intros rc b Hl. by destruct (notified _ _ _) as [[?|]|].
  - intros h Hh. specialize (I5 h Hh). destruct h; [|done..]. destruct I5 as [rc [=]].
  - intros i u Hu. specialize (I7 i u Hu). by destruct (notified _ _ _) as [[?|]|].
Qed.

Lemma Inv_listener_turn w w' : Inv w -> listener_turn w = Some w' -> Inv w'.
Proof.
  intros I H. unfold listener_turn in H. destruct (w_listener w) as [|rc|rc b|] eqn:E; try done.
  - bd. pose proof (change_idemp rc (w_cache w)) as Hi.
    pose proof (untold_agree rc (w_cache w)) as Hu.
    destruct (change_cache rc (w_cache w)) as [tell c] eqn:Ec. simpl in Hi, Hu. injection H as <-.
    destruct I as [I1 I2 I3 I4 I5 I6 I7 I8]. rewrite E in I7. simpl in I7.
    assert (Hno : forall n l d, w_conns w !! n <> Some (CCache l d)) by (intros n l d Hn; destruct (I2 n l d Hn); congruence).
    destruct tell; split; simpl; try done.
    + intros n l d Hn. destruct (Hno _ _ _ Hn).
    + intros rc' b [= <- <-]. split; [done|]. by intros ->.
    + intros h Hh. destruct rc; simplify_eq; eauto.
    + intros i u Hu'. etransitivity; [apply (change_agree rc _ _ (I7 i u Hu'))|]. by rewrite Ec.
    + intros n l d Hn. destruct (Hno _ _ _ Hn).
    + intros i u Hu'. etransitivity; [apply (I7 i u Hu')|by apply Hu].
  - destruct I as [I1 I2 I3 I4 I5 I6 I7 I8]. injection H as <-. rewrite E in I7. simpl in I7.
    destruct (I3 rc b E) as [Hc Hb].
    assert (I7' : forall i u, send_message (Message_RecordChange rc) (w_users w) !! i = Some u ->
      agree (pg_records (page u)) (w_cache w)).
    { intros i u (v & Hv & ->)%send_message_Some. rewrite (proj1 (page_change _ _ _)). apply (I7 i v Hv). }
    assert (I8' : forall i u, send_message (Message_RecordChange rc) (w_users w) !! i = Some u ->
      w_locker w = KWait \/ w_locker w = KEnd -> pg_locks (page u) = w_locks w).
    { intros i u (v & Hv & ->)%send_message_Some Hk. rewrite (proj2 (page_change _ _ _)). by apply (I8 i v). }
    destruct b; split; simpl; try done.
    + intros n l d Hn. destruct (I2 n l d Hn) as [Hh ->]. rewrite Hb in Hh by done. congruence.
    + intros h Hh. specialize (I5 h Hh). destruct h; [|done..]. destruct I5 as [? I5]. congruence.
Qed.

Lemma Inv_locker_recv data w w' : Inv w -> locker_recv changes_from_slice data w = Some w' -> Inv w'.
Proof.
  intros I H. unfold locker_recv in H. destruct (w_locker w) eqn:E; try done.
  destruct I as [I1 I2 I3 I4 I5 I6 I7 I8].
  destruct (changes_from_slice data) as [[l|x]|]; bd; simplify_eq; split; simpl; try done.
  - intros n x Hn. destruct (I1 n x Hn). congruence.
  - intros l' b [= <- <-]. done.
  - intros h [= <-]. eauto.
  - by intros i u Hu [?|?].
  - intros n x' Hn. destruct (I1 n x' Hn). congruence.
  - by intros i u Hu [?|?].
  - intros h Hh. specialize (I6 h Hh). destruct h; try done. destruct I6 as [? I6]. congruence.
  - intros i u Hu _. apply (I8 i u Hu). by left.
Qed.

Lemma Inv_locker_turn w w' : Inv w -> locker_turn w = Some w' -> Inv w'.
Proof.
  intros I H. unfold locker_turn in H. destruct (w_locker w) as [| |l b|] eqn:E; try done;
    destruct I as [I1 I2 I3 I4 I5 I6 I7 I8].
  - bd. simplify_eq. split; simpl; try done.
    + by intros l b [= <- <-].
    + intros h Hh. congruence.
    + by intros i u Hu [?|?].
  - simplify_eq. destruct (I4 l b E) as [-> Hb].
    assert (I7' : forall i u, send_message (Message_Locks (w_locks w)) (w_users w) !! i = Some u ->
      agree (pending (w_listener w) (pg_records (page u))) (w_cache w)).
    { intros i u (v & Hv & ->)%send_message_Some. rewrite (proj1 (page_locks _ _ _)). apply (I7 i v Hv). }
    assert (I8' : forall i u, send_message (Message_Locks (w_locks w)) (w_users w) !! i = Some u ->
      pg_locks (page u) = w_locks w).
    { intros i u (v & Hv & ->)%send_message_Some. apply (proj2 (page_locks _ _ _)). }
    destruct b; split; simpl; try done; eauto.
    + intros n x Hn. destruct (I1 n x Hn) as [Hh ?]. rewrite Hb in Hh by done. congruence.
    + intros h Hh. specialize (I6 h Hh). destruct h; try done. destruct I6 as [? I6]. congruence.
Qed.

Lemma Inv_connect n w w' : Inv w -> connect n w = Some w' -> Inv w'.
Proof.
  intros [I1 I2 I3 I4 I5 I6 I7 I8] H. unfold connect in H. bd. destruct a as [Hh Hn]. simplify_eq.
  split; simpl; try done.
  - intros m x [[<- <-]|[Hne Hm]]%lookup_insert_Some; [done|]. destruct (I1 m x Hm). congruence.
  - intros m l c [[<- ?]|[Hne Hm]]%lookup_insert_Some; [done|]. by apply (I2 m l c).
  - intros l b Hl. destruct (I4 l b Hl) as [? Hb]. split; [done|]. intros ->. specialize (Hb eq_refl). congruence.
  - intros h Hc. specialize (I5 h Hc). destruct h; [done..|]. destruct I5 as (l & c & Hm). exists l, c.
    rewrite lookup_insert_ne; [done|]. congruence.
  - intros h [= <-]. by rewrite lookup_insert_eq.
Qed.

Lemma Inv_conn_turn n w w' : Inv w -> conn_turn n w = Some w' -> Inv w'.
Proof.
  intros [I1 I2 I3 I4 I5 I6 I7 I8] H. unfold conn_turn in H. destruct (w_conns w !! n) as [[l|l c]|] eqn:E; [bd..|done].
  - simplify_eq. destruct (I1 n _ E) as [Hh Hl]. simpl in Hl. subst l. split; simpl; try done.
    + intros m x [[<- <-]|[Hne Hm]]%lookup_insert_Some; [done|]. by apply I1.
    + intros m l c [[<- [= <- <-]]|[Hne Hm]]%lookup_insert_Some; [done|]. destruct (I2 m l c Hm). congruence.
    + intros rc b Hl. destruct (I3 rc b Hl) as [? Hb]. split; [done|]. intros ->. specialize (Hb eq_refl). congruence.
    + intros h [= <-]. rewrite lookup_insert_eq. eauto.
    + intros h Hk. specialize (I6 h Hk). destruct h as [| |m]; [done..|].
      destruct (decide (n = m)) as [->|]; [by rewrite lookup_insert_eq|by rewrite lookup_insert_ne].
  - simplify_eq. destruct (I1 n _ E) as [Hh Hl], (I2 n _ _ E) as [Hc ->]. simpl in Hl. subst l.
    split; simpl; try done.
    + intros m x [Hne Hm]%lookup_delete_Some. destruct (I1 m x Hm). congruence.
    + intros m l c [Hne Hm]%lookup_delete_Some. destruct (I2 m l c Hm). congruence.
    + intros rc b Hl. destruct (I3 rc b Hl) as [? Hb]. split; [done|]. intros ->. specialize (Hb eq_refl). congruence.
    + intros l b Hl. destruct (I4 l b Hl) as [? Hb]. split; [done|]. intros ->. specialize (Hb eq_refl). congruence.
    + intros i u [[<- <-]|[Hne Hu]]%lookup_insert_Some; [|by apply (I7 i)].
      destruct (w_listener w) eqn:Ew; try done. simpl. by rewrite (proj1 (I3 _ _ eq_refl)).
    + intros i u [[<- <-]|[Hne Hu]]%lookup_insert_Some; [done|by apply (I8 i)].
Qed.

Lemma Inv_conn_drop n w w' : Inv w -> conn_drop n w = Some w' -> Inv w'.
Proof.
  intros [I1 I2 I3 I4 I5 I6 I7 I8] H. unfold conn_drop in H.
  assert (I4' : is_Some (w_conns w !! n) -> forall l b, w_locker w = KSend l b -> l = w_locks w /\ (b = true -> None = Some HLocker)).
  { intros [x Hx] l b Hl. destruct (I4 l b Hl) as [? Hb], (I1 n x Hx). split; [done|]. intros ->.
    specialize (Hb eq_refl). congruence. }
  destruct (w_conns w !! n) as [[l|l c]|] eqn:E; simplify_eq; destruct (I1 n _ E) as [Hh Hl];
    split; simpl; try done; eauto.
  - intros m x [Hne Hm]%lookup_delete_Some. destruct (I1 m x Hm). congruence.
  - intros m l' c [Hne Hm]%lookup_delete_Some. by apply (I2 m l').
  - intros h Hc. specialize (I5 h Hc). destruct h as [| |m]; [done..|]. destruct I5 as (l' & c & Hm). exists l', c.
    rewrite lookup_delete_ne; [done|]. congruence.
  - intros m x [Hne Hm]%lookup_delete_Some. destruct (I1 m x Hm). congruence.
  - intros m l' c' [Hne Hm]%lookup_delete_Some. destruct (I1 m _ Hm). congruence.
  - intros rc b Hl'. destruct (I3 rc b Hl') as [? Hb], (I2 n _ _ E). split; [done|]. intros ->. specialize (Hb eq_refl). congruence.
Qed.

Lemma Inv_turn l w w' : Inv w -> warp_turn from_str changes_from_slice l w = Some w' -> Inv w'.
Proof.
  intros I H. destruct l; simpl in H;
    eauto using Inv_listener_recv, Inv_listener_turn, Inv_locker_recv, Inv_locker_turn, Inv_connect,
      Inv_conn_turn, Inv_conn_drop.
  - apply bind_Some in H as (u & Hu & [= <-]). destruct I as [I1 I2 I3 I4 I5 I6 I7 I8]. split; simpl; try done.
    + intros j v [[<- <-]|[Hne Hv]]%lookup_insert_Some; [exact (I7 i u Hu)|by apply (I7 j)].
    + intros j v [[<- <-]|[Hne Hv]]%lookup_insert_Some; [exact (I8 i u Hu)|by apply (I8 j)].
  - destruct I as [I1 I2 I3 I4 I5 I6 I7 I8].
    assert (w' = set_users ∅ w) as -> by (unfold shutdown in H; destruct (w_listener w), (w_locker w); congruence).
    by split; simpl.
Qed.

Lemma Inv_run ls w w' : Inv w -> warp_run from_str changes_from_slice ls w = Some w' -> Inv w'.
Proof.
  revert w'. induction ls as [|l ls IH] using rev_ind; intros w' I H; [by injection H as <-|].
  unfold warp_run in *. rewrite foldl_app in H. apply bind_Some in H as (v & Hv & H). eauto using Inv_turn.
Qed.

(** ** Progress *)

(** The turns of tasks that have started something, with nothing new coming in. *)
Definition internal (l : Label) : bool :=
  match l with TListener | TLocker | TConn _ => true | _ => false end.

Definition idle (w : World) : Prop :=
  (w_listener w = LWait \/ w_listener w = LEnd) /\ (w_locker w = KWait \/ w_locker w = KEnd) /\ w_conns w = ∅.

(** How many such turns are left. *)
Definition left_listener (w : World) : nat :=
  match w_listener w with LChange _ => 2 | LSend _ _ => 1 | _ => 0 end.
Definition left_locker (w : World) : nat :=
  match w_locker w with KChanged => 2 | KSend _ _ => 1 | _ => 0 end.
Definition left_conn (w : World) : nat :=
  match w_locks_held w with
  | Some (HConn n) => match w_conns w !! n with Some (CLocks _) => 2 | Some (CCache _ _) => 1 | None => 0 end
  | _ => 0
  end.
Definition turns_left (w : World) : nat := left_listener w + left_locker w + left_conn w.

Abbreviation turn := (warp_turn from_str changes_from_slice).

Lemma turns_left_bound w : (turns_left w <= 6)%nat.
Proof.
  unfold turns_left, left_listener, left_locker, left_conn. destruct (w_listener w), (w_locker w); repeat case_match; lia.
Qed.

Lemma listener_sends w rc b : w_listener w = LSend rc b ->
  exists w', turn TListener w = Some w' /\ (turns_left w' < turns_left w)%nat.
Proof.
  intros E. simpl. unfold listener_turn, turns_left, left_listener, left_locker, left_conn. rewrite E.
  eexists. split; [done|]. destruct b; simpl; lia.
Qed.

Lemma locker_sends w l b : Inv w -> w_locker w = KSend l b ->
  exists w', turn TLocker w = Some w' /\ (turns_left w' < turns_left w)%nat.
Proof.
  intros I E. destruct (inv_locker w I l b E) as [_ Hb]. simpl.
  unfold locker_turn, turns_left, left_listener, left_locker, left_conn. rewrite E.
  eexists. split; [done|]. destruct b; simpl; lia.
Qed.

Lemma conn_goes_on w n : Inv w -> (forall rc b, w_listener w <> LSend rc b) -> w_locks_held w = Some (HConn n) ->
  exists w', turn (TConn n) w = Some w' /\ (turns_left w' < turns_left w)%nat.
Proof.
  intros I Hl Hh. destruct (inv_locks_held w I _ Hh) as [x Hx]. simpl.
  unfold conn_turn, turns_left, left_listener, left_locker, left_conn. rewrite Hx, Hh, Hx.
  destruct x as [l|l c]; [|eexists; split; [done|]; simpl; lia].
  assert (w_cache_held w = None) as ->.
  { destruct (w_cache_held w) as [h|] eqn:Hc; [|done]. apply (inv_cache_held w I) in Hc. destruct h as [| |m].
    - destruct Hc as [rc Hc]. by apply Hl in Hc.
    - done.
    - destruct Hc as (l' & c & Hm). destruct (inv_conn w I _ _ Hm). congruence. }
  rewrite bool_decide_true by done. eexists. split; [done|]. simpl. rewrite Hh, lookup_insert_eq. lia.
Qed.

Lemma listener_changes w rc : Inv w -> w_locks_held w = None -> w_listener w = LChange rc ->
  exists w', turn TListener w = Some w' /\ (turns_left w' < turns_left w)%nat.
Proof.
  intros I Hh E. simpl. unfold listener_turn, turns_left, left_listener, left_locker, left_conn. rewrite E.
  assert (w_cache_held w = None) as ->.
  { destruct (w_cache_held w) as [h|] eqn:Hc; [|done]. apply (inv_cache_held w I) in Hc. destruct h as [| |m].
    - destruct Hc as [rc' Hc]. congruence.
    - done.
    - destruct Hc as (l' & c & Hm). destruct (inv_conn w I _ _ Hm). congruence. }
  rewrite bool_decide_true by done. destruct (change_cache rc (w_cache w)) as [[] c];
    eexists; (split; [done|]); simpl; lia.
Qed.

Lemma locker_copies w : w_locks_held w = None -> w_locker w = KChanged ->
  exists w', turn TLocker w = Some w' /\ (turns_left w' < turns_left w)%nat.
Proof.
  intros Hh E. simpl. unfold locker_turn, turns_left, left_listener, left_locker, left_conn.
  rewrite E, Hh, bool_decide_true by done. eexists. split; [done|]. simpl. rewrite Hh. lia.
Qed.

Lemma progress w : Inv w -> idle w \/ exists l w', internal l = true /\ turn l w = Some w' /\ (turns_left w' < turns_left w)%nat.
Proof.
  intros I.
  destruct (w_listener w) as [|rc|rc b|] eqn:El;
    [| |right; destruct (listener_sends w rc b El) as (w' & ? & ?); by exists TListener, w'|];
  (destruct (w_locker w) as [| |l b|] eqn:Ek;
    [| |right; destruct (locker_sends w l b I Ek) as (w' & ? & ?); by exists TLocker, w'|]);
  (destruct (w_locks_held w) as [[| |n]|] eqn:Hh;
    [by apply (inv_locks_held w I) in Hh|apply (inv_locks_held w I) in Hh as [? Hh]; congruence
    |right; destruct (conn_goes_on w n I) as (w' & ? & ?); [congruence|done|by exists (TConn n), w']|]);
  try (right; destruct (listener_changes w rc I Hh El) as (w' & ? & ?); by exists TListener, w');
  try (right; destruct (locker_copies w Hh Ek) as (w' & ? & ?); by exists TLocker, w');
  left; (split_and!; [auto..|]); apply map_eq; intros n; rewrite lookup_empty;
  (destruct (w_conns w !! n) as [x|] eqn:Hn; [|done]); destruct (inv_conn w I n x Hn); congruence.
Qed.

Lemma run_cons l ls w w' : turn l w = Some w' ->
  warp_run from_str changes_from_slice (l :: ls) w = warp_run from_str changes_from_slice ls w'.
Proof. unfold warp_run. simpl. by intros ->. Qed.

(** No internal turn drops a user that is there. *)
Definition connected (w : World) (i : nat) : Prop := exists u, w_users w !! i = Some u /\ us_open u = true.

Lemma send_keeps m us i u : us !! i = Some u -> us_open u = true ->
  exists v, send_message m us !! i = Some v /\ us_open v = true.
Proof.
  intros Hu Ho. exists (MkUser (us_sent u ++ [m]) true). split; [|done].
  unfold send_message, send_to. by rewrite lookup_omap, Hu; simpl; rewrite Ho.
Qed.

Lemma internal_keeps l w w' i : internal l = true -> turn l w = Some w' -> connected w i -> connected w' i.
Proof.
  intros Hl H (u & Hu & Ho). destruct l; try done; simpl in H; unfold connected.
  - unfold listener_turn in H. destruct (w_listener w) as [|rc|rc b|]; try done; bd.
    + destruct (change_cache rc (w_cache w)) as [[] c]; simplify_eq; simpl; eauto.
    + simplify_eq. destruct b; simpl; eauto using send_keeps.
  - unfold locker_turn in H. destruct (w_locker w) as [| |l b|]; try done; bd; simplify_eq; simpl; [eauto|].
    destruct b; simpl; eauto using send_keeps.
  - unfold conn_turn in H. destruct (w_conns w !! n) as [[l|l c]|]; [bd..|done]; simplify_eq; simpl; [eauto|].
    destruct (decide (i = w_next w)) as [->|]; [rewrite lookup_insert_eq; eauto|rewrite lookup_insert_ne by done; eauto].
Qed.

Lemma settles_from w : Inv w -> exists ls w', forallb internal ls = true /\ (length ls <= turns_left w)%nat /\
  warp_run from_str changes_from_slice ls w = Some w' /\ idle w' /\ Inv w' /\
  forall i, connected w i -> connected w' i.
Proof.
  remember (turns_left w) as m eqn:Hm. assert (turns_left w <= m)%nat as Hle by lia. clear Hm. revert w Hle.
  induction m as [|m IH]; intros w Hle I; destruct (progress w I) as [Hi|(l & w1 & Hl & Ht & Hlt)].
  - by exists [], w.
  - lia.
  - exists [], w. split_and!; try done. simpl. lia.
  - destruct (IH w1) as (ls & w' & Hls & Hlen & Hr & Hi & I' & Hc); [lia|eauto using Inv_turn|].
    exists (l :: ls), w'. split_and!; try done; simpl; [by rewrite Hl|lia|by erewrite run_cons|eauto using internal_keeps].
Qed.

(** ** Users *)

(** C9: whatever has happened since the service started, what a connected user's page
    shows is the service's cache, but for the one change that the service is about to
    send it; and the locks it shows are the service's, unless the service is about to
    send these. *)
Theorem users_in_sync c ls w (Hrun : warp_run from_str changes_from_slice ls (warp_start c) = Some w)
    i u (Hu : w_users w !! i = Some u) :
  agree (pending (w_listener w) (pg_records (page u))) (w_cache w) /\
  (w_locker w = KWait \/ w_locker w = KEnd -> pg_locks (page u) = w_locks w).
Proof.
  assert (Inv w) as I by (eapply Inv_run; [apply Inv_start|done]).
  split; [by apply (inv_records w I i)|by apply (inv_locks w I i)].
Qed.

(** C35: the tasks cannot block one another: from every state, at most six turns of the
    tasks that are under way lead to a state in which all of them are done, the users
    are still connected, and every user's page shows the records and the locks of the
    service. *)
Theorem warp_settles c ls w (Hrun : warp_run from_str changes_from_slice ls (warp_start c) = Some w) :
  exists ls' w', forallb internal ls' = true /\ (length ls' <= 6)%nat /\
    warp_run from_str changes_from_slice ls' w = Some w' /\ idle w' /\
    (forall i, connected w i -> connected w' i) /\
    forall i u, w_users w' !! i = Some u ->
      agree (pg_records (page u)) (w_cache w') /\ pg_locks (page u) = w_locks w'.
Proof.
  assert (Inv w) as I by (eapply Inv_run; [apply Inv_start|done]).
  destruct (settles_from w I) as (ls' & w' & Hls & Hlen & Hr & Hi & I' & Hc).
  exists ls', w'. pose proof (turns_left_bound w). split_and!; try done; [lia|].
  intros i u Hu. destruct Hi as (Hl & Hk & _). split; [|by apply (inv_locks w' I' i)].
  pose proof (inv_records w' I' i u Hu) as Ha. by destruct Hl as [Hl|Hl]; rewrite Hl in Ha.
Qed.

End Preserved.

(** * Witnesses *)

Definition sample_pool (id : Z) (name : string) : OstPoolRecord := MkOstPoolRecord id name 1 (Some true) (Some 41).

Definition sample_rows : Rows :=
  {| value := OstPoolRecord;
     from_value_AuthGroup _ := None; from_value_AuthUser _ := None; from_value_AuthUserGroup _ := None;
     from_value_AlertState _ := None; from_value_ContentType _ := None; from_value_CorosyncConfiguration _ := None;
     from_value_CorosyncResource _ := None; from_value_CorosyncResourceBan _ := None;
     from_value_LnetConfiguration _ := None; from_value_ManagedFilesystem _ := None; from_value_ManagedHost _ := None;
     from_value_ManagedTarget _ := None; from_value_OstPool x := Some x; from_value_OstPoolOsts _ := None;
     from_value_PacemakerConfiguration _ := None; from_value_SfaDiskDrive _ := None; from_value_SfaEnclosure _ := None;
     from_value_SfaStorageSystem _ := None; from_value_SfaJob _ := None; from_value_SfaPowerSupply _ := None;
     from_value_SfaController _ := None; from_value_Snapshot _ := None; from_value_SnapshotInterval _ := None;
     from_value_SnapshotRetention _ := None; from_value_StratagemConfiguration _ := None;
     from_value_TargetRecord _ := None; from_value_Volume _ := None; from_value_VolumeNode _ := None |}.

(** A payload is the name of the pool with id 7. *)
Definition sample_from_str (s : string) : option (MessageType * string * OstPoolRecord) :=
  Some (MessageType_Update, "chroma_core_ostpool", sample_pool 7 s).

Definition sample_changes (s : string) : option Changes :=
  Some (Changes_LockChange (MkLockChange s 1 41 7 "" LockType_Write LockAction_Add)).

Definition sample_api : Api := MkApi (fun _ => Err NotFound) (fun _ => Err NotFound) (fun _ => Err NotFound).

(** A user connects, a pool is changed, and before the user is told of it another one
    connects. *)
Definition sample_turns : list Label :=
  [TConnect 0; TConn 0; TConn 0; TListenerRecv sample_api (Notification "table_update" "flash"); TListener;
   TConnect 1].

Lemma users_in_sync_witness : exists w u,
  warp_run (R := sample_rows) sample_from_str sample_changes sample_turns (warp_start Cache_default) = Some w /\
  w_users w !! 1%nat = Some u /\ agree (pending (w_listener w) (pg_records (page u))) (w_cache w) /\
  pending (w_listener w) (pg_records (page u)) <> pg_records (page u).
Proof.
  destruct (warp_run (R := sample_rows) sample_from_str sample_changes sample_turns (warp_start Cache_default))
    as [w|] eqn:E; [|by vm_compute in E].
  destruct (w_users w !! 1%nat) as [u|] eqn:Eu.
  - exists w, u. split_and!; [done|done|by apply (users_in_sync (R := sample_rows) sample_from_str sample_changes _ _ w E 1%nat u Eu)|].
    revert Eu. vm_compute in E. injection E as <-. vm_compute. intros [= <-] H. discriminate H.
  - exfalso. revert Eu. vm_compute in E. injection E as <-. by vm_compute.
Defined.

Lemma warp_settles_witness : exists w ls' w',
  warp_run (R := sample_rows) sample_from_str sample_changes sample_turns (warp_start Cache_default) = Some w /\
  warp_run (R := sample_rows) sample_from_str sample_changes ls' w = Some w' /\ ~ idle w /\ idle w'.
Proof.
  destruct (warp_run (R := sample_rows) sample_from_str sample_changes sample_turns (warp_start Cache_default))
    as [w|] eqn:E; [|by vm_compute in E].
  destruct (warp_settles (R := sample_rows) sample_from_str sample_changes _ _ w E) as (ls' & w' & _ & _ & Hr & Hi & _).
  exists w, ls', w'. split_and!; try done. vm_compute in E. injection E as <-. by intros [[H|H] _].
Defined.
