(* ===== verification/WarpDb.v ===== *)
(** Warp drive's cache and the database: the cache is filled by one query per table
    while the tables change, and then follows the notifications of the changes since
    the service began to listen. *)
From S2P Require Import Prelude RustStd WarpTypes WarpCache WarpDrive WarpSpec.
From stdpp Require Import base gmap sets list strings.
From Stdlib Require Import ZArith.

Open Scope Z_scope.

(** * The database *)

(** A statement on one row, with the notification its trigger sends. *)
Definition db_apply (db : Cache) (n : MessageType * DbRecord) : Cache :=
  match row_record n.2 with
  | Some r => if bool_decide (n.1 = MessageType_Delete) then (remove_record db (record_id r)).2 else insert_record db r
  | None => db
  end.

Definition db_run (ns : list (MessageType * DbRecord)) (db : Cache) : Cache := foldl db_apply db ns.

(** A row has its id as its key. *)
Definition keyed (db : Cache) : Prop := forall id r, cache_get db id = Some r -> record_id r = id.

(** The rows that are not marked as deleted. *)
Definition visible (db : Cache) (id : RecordId) : option Record_ :=
  r ← cache_get db id; if record_deleted r then None else Some r.

(** The cache follows the notifications; [None] is the error that ends the service. *)
Definition follow_step (api : Api) (o : option Cache) (n : MessageType * DbRecord) : option Cache :=
  c ← o; rc ← ok (db_record_to_change_record api n.1 n.2); Some (change_cache rc c).2.

Definition follow (api : Api) (ns : list (MessageType * DbRecord)) (c : Cache) : option Cache :=
  foldl (follow_step api) (Some c) ns.

(** * What one notification does *)

(** The record under [id] after it, if it is about [id]. *)
Definition effect (id : RecordId) (n : MessageType * DbRecord) : option (option Record_) :=
  r ← row_record n.2;
  if decide (id = record_id r)
  then Some (if bool_decide (n.1 = MessageType_Delete) || record_deleted r then None else Some r) else None.

Lemma row_record_change api m d r : row_record d = Some r ->
  db_record_to_change_record api m d = Ok (direct m (record_deleted r) r).
Proof. destruct d; simpl; intros [= <-]; done. Qed.

Lemma converter_id {T} (get : Z -> Result ClientError T) m x del f g rc :
  converter get m x del f g = Ok rc ->
  (exists y, rc = Change_Update (f y)) \/ rc = Change_Delete (g x).
Proof. unfold converter. destruct (_ || _); [|destruct (get x) as [y|[]]]; intros [= <-]; eauto. Qed.

Lemma api_record_change api m d rc id : row_record d = None -> is_Some (query_of id) ->
  db_record_to_change_record api m d = Ok rc -> forall c, cache_get (change_cache rc c).2 id = cache_get c id.
Proof.
  intros Hd Hq H c. rewrite change_cache_get.
  assert (match rc with Change_Update r => query_of (record_id r) | Change_Delete r => query_of r end = None) as Hn.
  { destruct d; try done; simpl in H.
    - destruct (_ || _); [by injection H as <-|]. destruct (api_alert _ _); [by injection H as <-|done].
    - by apply converter_id in H as [[y ->]| ->].
    - by apply converter_id in H as [[y ->]| ->]. }
  destruct Hq as [q Hq]. destruct rc; case_decide; try done; subst; congruence.
Qed.

Lemma follow_step_get api n c d id : is_Some (query_of id) ->
  follow_step api (Some c) n = Some d -> cache_get d id = default (cache_get c id) (effect id n).
Proof.
  intros Hq. destruct n as [m r]. unfold follow_step, effect. simpl.
  destruct (row_record r) as [x|] eqn:Hr; simpl.
  - rewrite (row_record_change api m r x Hr). simpl. intros [= <-]. rewrite change_cache_get. unfold direct.
    destruct (_ || _); by case_decide.
  - destruct (db_record_to_change_record api m r) as [rc|e] eqn:E; simpl; [|done]. intros [= <-].
    by eapply api_record_change.
Qed.

Lemma db_apply_visible n db id : visible (db_apply db n) id = default (visible db id) (effect id n).
Proof.
  destruct n as [m d]. unfold visible, db_apply, effect. simpl. destruct (row_record d) as [r|]; [|done]. simpl.
  destruct (bool_decide (m = MessageType_Delete)); simpl; [rewrite cache_get_remove|rewrite cache_get_insert]; case_decide; simpl; try done.
Qed.

(** * What many do: the last one about a record decides *)

Definition last_effect (id : RecordId) (ns : list (MessageType * DbRecord)) : option (option Record_) :=
  foldl (fun o n => match effect id n with Some e => Some e | None => o end) None ns.

Lemma last_effect_snoc id ns n :
  last_effect id (ns ++ [n]) = match effect id n with Some e => Some e | None => last_effect id ns end.
Proof. unfold last_effect. by rewrite foldl_app. Qed.

Lemma last_effect_prefix id ns ms : last_effect id (ns ++ ms) = None -> last_effect id ns = None.
Proof.
  induction ms as [|m ms IH] using rev_ind; [by rewrite app_nil_r|].
  rewrite app_assoc, last_effect_snoc. destruct (effect id m); [done|]. exact IH.
Qed.

Lemma follow_get api ns c d id : is_Some (query_of id) ->
  follow api ns c = Some d -> cache_get d id = default (cache_get c id) (last_effect id ns).
Proof.
  intros Hq. revert d. induction ns as [|n ns IH] using rev_ind; intros d; [by intros [= <-]|].
  unfold follow in *. rewrite foldl_app. simpl. intros H.
  destruct (foldl (follow_step api) (Some c) ns) as [e|] eqn:E; [|done].
  apply (follow_step_get api n e d id Hq) in H. rewrite H, last_effect_snoc, (IH e eq_refl).
  by destruct (effect id n).
Qed.

Lemma db_run_visible ns db id : visible (db_run ns db) id = default (visible db id) (last_effect id ns).
Proof.
  unfold db_run. induction ns as [|n ns IH] using rev_ind; [done|].
  rewrite foldl_app, last_effect_snoc. simpl. rewrite db_apply_visible, IH. by destruct (effect id n).
Qed.

Lemma keyed_run ns db : keyed db -> keyed (db_run ns db).
Proof.
  intros H. induction ns as [|[m d] ns IH] using rev_ind; [done|]. unfold db_run in *. rewrite foldl_app. simpl.
  unfold db_apply. simpl. destruct (row_record d) as [r|]; [|done]. intros id x.
  destruct (bool_decide _); [rewrite cache_get_remove|rewrite cache_get_insert]; case_decide; try done; try apply IH.
  by intros [= <-].
Qed.

(** * The queries *)

Lemma collect_lookup {A} (key : A -> Z) l i x : NoDup (key <$> l) ->
  collect key l !! i = Some x <-> x ∈ l /\ key x = i.
Proof.
  unfold collect. induction l as [|y l IH] using rev_ind; intros Hnd.
  - simpl. rewrite lookup_empty. split; [done|]. by intros [?%not_elem_of_nil _].
  - rewrite fmap_app in Hnd. apply NoDup_app in Hnd as (Hl & Hy & _). rewrite foldl_app. simpl.
    rewrite lookup_insert_Some, (IH Hl), elem_of_app, list_elem_of_singleton. split.
    + intros [[<- <-]|[? [? ?]]]; auto.
    + intros [[H| ->] <-]; [right|by left]. split; [|done]. intros E. apply (Hy (key x)); [by apply list_elem_of_fmap_2|].
      simpl. rewrite E. apply list_elem_of_here.
Qed.

Lemma collect_select {A} (key : A -> Z) (p : A -> bool) (t : gmap Z A) i :
  (forall i x, t !! i = Some x -> key x = i) ->
  collect key (select_where p t) !! i = (x ← t !! i; if p x then Some x else None).
Proof.
  intros Hk.
  assert (Hin : forall x, x ∈ select_where p t <-> t !! key x = Some x /\ p x = true).
  { intros x. unfold select_where, select. rewrite list_elem_of_In, filter_In, <-list_elem_of_In.
    rewrite list_elem_of_fmap. split.
    - intros [([j y] & -> & Hy%elem_of_map_to_list) ?]. simpl. by rewrite (Hk j y Hy).
    - intros [H ?]. split; [|done]. exists (key x, x). split; [done|]. by apply elem_of_map_to_list. }
  assert (Hnd : NoDup (key <$> select_where p t)).
  { unfold select_where, select. clear Hin.
    assert (forall l : list (Z * A), NoDup l.*1 -> Forall (fun kx => key kx.2 = kx.1) l -> NoDup (key <$> List.filter p l.*2)) as Hl.
    { induction l as [|[j y] l IH]; simpl; [constructor|]. intros [Hj Hl]%NoDup_cons [Hy Hf]%Forall_cons. simpl in Hy.
      destruct (p y); simpl; [|by apply IH]. constructor; [|by apply IH].
      intros (z & E & Hz)%list_elem_of_fmap. apply Hj.
      rewrite list_elem_of_In, filter_In, <-list_elem_of_In in Hz. destruct Hz as [([k z'] & -> & Hz)%list_elem_of_fmap _].
      rewrite Forall_forall in Hf. pose proof (Hf _ Hz) as Hkz. simpl in *. rewrite <-Hy, E, Hkz.
      by apply (list_elem_of_fmap_2 fst) in Hz. }
    apply Hl; [apply NoDup_fst_map_to_list|]. apply Forall_forall. intros [j y] Hy%elem_of_map_to_list. simpl. by apply Hk. }
  apply option_eq. intros x. rewrite (collect_lookup key _ i x Hnd), Hin. destruct (t !! i) as [y|] eqn:E; simpl.
  - split.
    + intros [[Hx Hp] <-]. rewrite Hx in E. injection E as <-. by rewrite Hp.
    + destruct (p y) eqn:Hp; [|done]. intros [= <-]. by rewrite (Hk i y E).
  - split; [|done]. intros [[Hx _] <-]. congruence.
Qed.

Lemma select_all {A} (t : gmap Z A) : select t = select_where (fun _ => true) t.
Proof. unfold select_where. induction (select t); [done|]. simpl. by f_equal. Qed.

(** A table as it was read, as records. *)
Lemma table_visible {A} (key : A -> Z) (f : A -> Record_) (p : A -> bool) (t : gmap Z A) i :
  (forall i x, t !! i = Some x -> key x = i) -> (forall x, record_deleted (f x) = negb (p x)) ->
  f <$> collect key (select_where p t) !! i = (r ← f <$> t !! i; if record_deleted r then None else Some r).
Proof.
  intros Hk Hp. rewrite (collect_select key p t i Hk). destruct (t !! i) as [x|]; [|done]. simpl.
  rewrite Hp. by destruct (p x).
Qed.

(** Every query finds the visible rows of its table. *)
Lemma populate_visible db c id q : query_of id = Some q -> keyed (db q) ->
  cache_get (populate_from_db db c) id = visible (db q) id.
Proof.
  intros Hq Hk. unfold visible. pose (K := id).
  destruct id; try discriminate Hq; injection Hq as <-;
    destruct c; cbv [populate_from_db]; simpl; rewrite ?select_all;
    (apply table_visible; [|done]); intros j x Hj;
    match goal with K := ?C ?i |- _ => pose proof (Hk (C j)) as H end;
    simpl in H; rewrite Hj in H; specialize (H _ eq_refl); by injection H.
Qed.

(** C10: filling the cache and following the database lose nothing. Let [ns] be the
    changes of the tables since the service began to listen, and let each query run
    after some of them: then, once all of [ns] are followed, every record of a table
    that is shown as it is, is in the cache exactly as it is in the database after
    [ns], and a row that is gone or marked as deleted is not. *)
Theorem cache_converges api ns db0 db c d (Hkey : keyed db0)
    (Hdb : forall q, exists seen later, ns = seen ++ later /\ db q = db_run seen db0)
    (Hf : follow api ns (populate_from_db db c) = Some d) :
  forall id, is_Some (query_of id) -> cache_get d id = visible (db_run ns db0) id.
Proof.
  intros id Hq. rewrite (follow_get api ns _ d id Hq Hf), db_run_visible. destruct Hq as [q Hq].
  destruct (Hdb q) as (seen & later & -> & Hs).
  rewrite (populate_visible db c id q Hq), Hs, db_run_visible by (rewrite Hs; by apply keyed_run).
  destruct (last_effect id (seen ++ later)) as [e|] eqn:E; [done|].
  by rewrite (last_effect_prefix id seen later E).
Qed.

(** The hosts, file systems and alerts are read before the service listens. One
    that changes in between stays in the cache as it was read, until a notification
    about it comes. *)
Theorem api_window_missed api ns db fs alerts hosts id (Hq : query_of id = None)
    (Hns : Forall (fun n => forall rc, db_record_to_change_record api n.1 n.2 = Ok rc ->
                     match rc with Change_Update r => record_id r <> id | Change_Delete r => r <> id end) ns) :
  forall d, follow api ns (populate_from_db db (populate_from_api fs alerts hosts Cache_default)) = Some d ->
  cache_get d id = cache_get (populate_from_api fs alerts hosts Cache_default) id.
Proof.
  assert (cache_get (populate_from_db db (populate_from_api fs alerts hosts Cache_default)) id =
    cache_get (populate_from_api fs alerts hosts Cache_default) id) as <- by (destruct id; done).
  generalize (populate_from_db db (populate_from_api fs alerts hosts Cache_default)) as c.
  induction ns as [|n ns IH] using rev_ind; intros c d; [by intros [= <-]|].
  apply Forall_app in Hns as [Hns [Hn _]%Forall_cons]. unfold follow in *. rewrite foldl_app. simpl.
  destruct (foldl (follow_step api) (Some c) ns) as [e|] eqn:E; [|done]. simpl.
  destruct (db_record_to_change_record api n.1 n.2) as [rc|] eqn:Erc; [|done]. simpl. intros [= <-].
  rewrite change_cache_get, <-(IH Hns c e E). specialize (Hn rc eq_refl).
  destruct rc; case_decide; congruence.
Qed.

(** * Witnesses *)

Definition sample_db : Cache := insert_record Cache_default (Record_OstPool (sample_pool 1 "old")).
Definition sample_changes_since : list (MessageType * DbRecord) :=
  [(MessageType_Update, DbRecord_OstPool (sample_pool 1 "new"));
   (MessageType_Insert, DbRecord_OstPool (sample_pool 2 "flash"));
   (MessageType_Update, DbRecord_OstPool (MkOstPoolRecord 1 "new" 1 None (Some 41)))].

Lemma sample_keyed : keyed sample_db.
Proof. intros id r. unfold sample_db. rewrite cache_get_insert. case_decide; [by intros [= <-]|]. by destruct id. Qed.

Lemma cache_converges_witness : exists d,
  follow sample_api sample_changes_since
    (populate_from_db (fun _ => db_run (take 2 sample_changes_since) sample_db) Cache_default) = Some d /\
  cache_get d (RecordId_OstPool 1) = None /\
  cache_get d (RecordId_OstPool 2) = Some (Record_OstPool (sample_pool 2 "flash")).
Proof.
  destruct (follow sample_api sample_changes_since
    (populate_from_db (fun _ => db_run (take 2 sample_changes_since) sample_db) Cache_default)) as [d|] eqn:E;
    [|by vm_compute in E].
  assert (forall q : nat, exists seen later, sample_changes_since = seen ++ later /\
    db_run (take 2 sample_changes_since) sample_db = db_run seen sample_db) as Hdb.
  { intros _. by exists (take 2 sample_changes_since), (drop 2 sample_changes_since). }
  pose proof (cache_converges sample_api sample_changes_since sample_db _ Cache_default d sample_keyed Hdb E) as H.
  exists d. split_and!; [done|rewrite H by (simpl; eauto); by vm_compute..].
Defined.

Definition sample_host (state : string) : Host :=
  MkHost "a" None 1 None "" "a" 3 false "" "a" "" false None "a" None None None "" None
    (MkServerProfile false false false "" false "" false false [] "" "" "" false false) state "".

Lemma api_window_missed_witness : forall d,
  follow sample_api sample_changes_since
    (populate_from_db (fun _ => sample_db) (populate_from_api [] [] [sample_host "up"] Cache_default)) = Some d ->
  cache_get d (RecordId_Host 3) = Some (Record_Host (sample_host "up")).
Proof.
  intros d H. refine (eq_trans (api_window_missed sample_api sample_changes_since (fun _ => sample_db) [] []
    [sample_host "up"] (RecordId_Host 3) eq_refl _ d H) _); [|by vm_compute].
  repeat constructor; intros rc [= <-]; done.
Defined.
