(* ===== verification/VersionUtils.v ===== *)
(** Comparing versions of packages, [version-utils/src/lib.rs], and the agent's choice of
    a kernel, [iml-agent/src/action_plugins/check_kernel.rs]. *)
From S2P Require Import Prelude RustStd Ordering.
From stdpp Require Import base gmap sets list strings.
From Stdlib Require Import ZArith Ascii.

Open Scope Z_scope.

(** A part is a number if it fits in [u32]. *)
Inductive VerPart : Type :=
| VInt (n : Z)
| VStr (s : string).
#[export] Instance VerPart_eq_dec : EqDecision VerPart.
Proof. solve_decision. Defined.

Definition VerPart_cmp (x y : VerPart) : comparison :=
  match x, y with
  | VInt s, VInt o => Z.compare s o
  | VInt _, VStr _ => Gt
  | VStr _, VInt _ => Lt
  | VStr s, VStr o => String.compare s o
  end.

Definition parse_u32 (s : string) : Result ParseIntError Z := from_str_radix 10 0 (2 ^ 32 - 1) s.

Definition VerPart_from (part : string) : VerPart :=
  match parse_u32 part with Ok n => VInt n | Err _ => VStr part end.

Record Version : Type := MkVersion { ve_version : string; ve_v : list VerPart; ve_r : list VerPart }.

Definition Version_from (version : string) : Version :=
  let vr := splitn2 "-" version in
  {| ve_version := version;
     ve_v := match vr with x :: _ => VerPart_from <$> str_split "."%char x | [] => [] end;
     ve_r := match vr with _ :: y :: _ => VerPart_from <$> str_split "."%char y | _ => [] end |}.

(** [Vec]'s order: lexicographic, a prefix is less. *)
Fixpoint parts_cmp (xs ys : list VerPart) : comparison :=
  match xs, ys with
  | [], [] => Eq
  | [], _ :: _ => Lt
  | _ :: _, [] => Gt
  | x :: xs, y :: ys => match VerPart_cmp x y with Eq => parts_cmp xs ys | c => c end
  end.

Definition Version_cmp (x y : Version) : comparison :=
  match parts_cmp (ve_v x) (ve_v y) with Eq => parts_cmp (ve_r x) (ve_r y) | c => c end.

Definition Version_eqb (x y : Version) : bool :=
  bool_decide (ve_v x = ve_v y) && bool_decide (ve_r x = ve_r y).

(** * The order *)

(** The order is the derived one of an enum with the strings first. *)
#[export] Instance VerPart_keyed : Keyed VerPart := fun x =>
  match x with VStr s => kvariant 0 [KS s] | VInt n => kvariant 1 [KZ n] end.
#[export] Instance Version_keyed : Keyed Version := fun x => KL [key_of (ve_v x); key_of (ve_r x)].

Lemma VerPart_cmp_key x y : VerPart_cmp x y = cmp x y.
Proof.
  unfold cmp. destruct x as [n|s], y as [m|t]; try done; unfold key_of, VerPart_keyed, kvariant; rewrite kcmp_KL; simpl.
  - by destruct (n ?= m).
  - by destruct (String.compare s t).
Qed.

Lemma parts_cmp_key xs ys : parts_cmp xs ys = cmp xs ys.
Proof.
  unfold cmp. unfold key_of, list_keyed. rewrite kcmp_KL.
  revert ys. induction xs as [|x xs IH]; intros [|y ys]; try done. simpl. rewrite VerPart_cmp_key, IH. done.
Qed.

Lemma Version_cmp_key x y : Version_cmp x y = cmp x y.
Proof.
  unfold Version_cmp, cmp. rewrite !parts_cmp_key. unfold key_of, Version_keyed. rewrite kcmp_KL.
  cbn [lcmp]. unfold cmp, key_of. destruct (kcmp _ _); try done. by destruct (kcmp _ _).
Qed.

Lemma VerPart_key_inj : Inj (=) (=) (key_of (A := VerPart)).
Proof. intros [n|s] [m|t] H; unfold key_of, VerPart_keyed, kvariant in H; congruence. Qed.

Lemma parts_key_inj : Inj (=) (=) (key_of (A := list VerPart)).
Proof.
  intros xs ys [= H]. revert ys H. induction xs as [|x xs IH]; intros [|y ys] H; try done.
  injection H as Hx Hxs. f_equal; [by apply VerPart_key_inj|by apply IH].
Qed.

Lemma Version_eqb_key x y : Version_eqb x y = true <-> key_of x = key_of y.
Proof.
  unfold Version_eqb. rewrite andb_true_iff, !bool_decide_eq_true.
  change (ve_v x = ve_v y /\ ve_r x = ve_r y <->
    KL [key_of (ve_v x); key_of (ve_r x)] = KL [key_of (ve_v y); key_of (ve_r y)]).
  split; [by intros [-> ->]|]. intros H. injection H as H1 H2.
  split; apply parts_key_inj; unfold key_of, list_keyed; by f_equal.
Qed.

(** Versions are totally ordered, and the order agrees with their equality: exactly one
    of less, equal and greater holds, and less is transitive. *)
Theorem version_order x y z :
  (Version_cmp x y = Eq <-> Version_eqb x y = true) /\
  Version_cmp y x = CompOpp (Version_cmp x y) /\
  (Version_cmp x y = Lt -> Version_cmp y z = Lt -> Version_cmp x z = Lt).
Proof.
  rewrite !Version_cmp_key, Version_eqb_key. unfold cmp.
  split_and!; [apply kcmp_eq|apply kcmp_antisym|apply kcmp_trans].
Qed.

(** Numbers are compared as numbers, whatever the zeros before them; a longer version is
    greater than its beginning; a release is looked at last. *)
Example versions_compared :
  Version_eqb (Version_from "1.0-1.1") (Version_from "1.00-1.01") = true /\
  Version_cmp (Version_from "1.10") (Version_from "1.9") = Gt /\
  Version_cmp (Version_from "1.0") (Version_from "1") = Gt /\
  Version_cmp (Version_from "1.1-1") (Version_from "1.1-2") = Lt /\
  Version_cmp (Version_from "3.10.0-957") (Version_from "3.10.0-1127") = Lt.
Proof. by vm_compute. Qed.

(** * Choosing a kernel: [check_kernel.rs] *)

Section Kernel.
(** Whether [modinfo -n -k kver module] exits with zero. *)
Context (modinfo : string -> string -> bool).

(** [checked_status] makes any other exit an error. *)
Definition check_kver_module (module kver : string) : Result unit bool :=
  if modinfo module kver then Ok true else Err tt.

Fixpoint check_modules (modules : list string) (kver : string) : Result unit bool :=
  match modules with
  | [] => Ok true
  | m :: modules => b ← check_kver_module m kver; if (b : bool) then check_modules modules kver else Ok false
  end.

(** The loop over the lines that [rpm] prints. *)
Fixpoint kernel_loop (modules kvers : list string) (newest : Version) : Result unit Version :=
  match kvers with
  | [] => Ok newest
  | kver :: kvers =>
      let contender := Version_from kver in
      match Version_cmp contender newest with
      | Gt => okay ← check_modules modules kver;
              kernel_loop modules kvers (if (okay : bool) then contender else newest)
      | _ => kernel_loop modules kvers newest
      end
  end.

Definition get_kernel (modules kvers : list string) : Result unit string :=
  ve_version <$> kernel_loop modules kvers (Version_from "").

(** No check says no: it succeeds or fails. *)
Lemma check_modules_Ok modules kver b :
  check_modules modules kver = Ok b -> b = true /\ forall m, m ∈ modules -> modinfo m kver = true.
Proof.
  revert b. induction modules as [|m modules IH]; intros b; simpl.
  - intros [= <-]. split; [done|]. by intros m ?%not_elem_of_nil.
  - unfold check_kver_module. destruct (modinfo m kver) eqn:E; [|done]. simpl. intros [-> H]%IH. split; [done|].
    intros m' [->|?]%elem_of_cons; [done|by apply H].
Qed.

Definition not_above (x y : Version) : Prop := Version_cmp x y <> Gt.

Lemma not_above_trans x y z : not_above x y -> not_above y z -> not_above x z.
Proof.
  unfold not_above. rewrite !Version_cmp_key. unfold cmp. intros Hxy Hyz Hxz.
  rewrite kcmp_antisym in Hxz. destruct (kcmp (key_of z) (key_of x)) eqn:E; try done. simpl in Hxz.
  destruct (kcmp (key_of x) (key_of y)) eqn:E1; [| |done].
  - apply kcmp_eq in E1. rewrite <-E1, kcmp_antisym, E in Hyz. done.
  - pose proof (kcmp_trans _ _ _ E E1) as Hzy. rewrite kcmp_antisym, Hzy in Hyz. done.
Qed.

Lemma kernel_loop_spec modules kvers newest v : kernel_loop modules kvers newest = Ok v ->
  not_above newest v /\ (forall k, k ∈ kvers -> not_above (Version_from k) v) /\
  (v = newest \/ exists k, k ∈ kvers /\ v = Version_from k /\ forall m, m ∈ modules -> modinfo m k = true).
Proof.
  assert (Hrefl : forall x, not_above x x).
  { intros x. unfold not_above. rewrite Version_cmp_key. unfold cmp. by rewrite kcmp_refl. }
  revert newest. induction kvers as [|k kvers IH]; intros newest; simpl.
  - intros [= <-]. split_and!; [apply Hrefl|by intros k ?%not_elem_of_nil|by left].
  - destruct (Version_cmp (Version_from k) newest) eqn:E.
    3: { destruct (check_modules modules k) as [b|] eqn:Ec; [|done]. simpl.
      apply check_modules_Ok in Ec as [-> Hm]. intros (H1 & H2 & H3)%IH. split_and!.
      - apply (not_above_trans _ (Version_from k)); [|done]. unfold not_above. rewrite Version_cmp_key in *. unfold cmp in *.
        by rewrite kcmp_antisym, E.
      - intros k' [->|?]%elem_of_cons; [done|by apply H2].
      - right. destruct H3 as [->|(k' & ? & ? & ?)]; [exists k|exists k']; set_solver. }
    all: intros (H1 & H2 & H3)%IH; (split_and!; [done| |]).
    all: try (intros k' [->|?]%elem_of_cons; [apply (not_above_trans _ newest); [unfold not_above; by rewrite E|done]|by apply H2]).
    all: destruct H3 as [->|(k' & ? & ? & ?)]; [by left|right; exists k'; set_solver].
Qed.

(** A kernel that is returned is installed and has all the modules, and no installed
    kernel is newer. *)
Theorem get_kernel_newest modules kvers v (H : get_kernel modules kvers = Ok v) :
  (forall k, k ∈ kvers -> not_above (Version_from k) (Version_from v)) /\
  (v = "" \/ v ∈ kvers /\ forall m, m ∈ modules -> modinfo m v = true).
Proof.
  unfold get_kernel in H. destruct (kernel_loop modules kvers (Version_from "")) as [w|] eqn:E; [|done].
  injection H as <-. apply kernel_loop_spec in E as (_ & H2 & [->|(k & Hk & -> & Hm)]); simpl in *; auto.
Qed.

Lemma kernel_loop_app modules ks ks' newest :
  kernel_loop modules (ks ++ ks') newest = (v ← kernel_loop modules ks newest; kernel_loop modules ks' v).
Proof.
  revert newest. induction ks as [|k ks IH]; intros newest; [done|]. simpl.
  destruct (Version_cmp _ _); try apply IH. destruct (check_modules modules k); [|done]. apply IH.
Qed.

(** A kernel without one of the modules is not passed over: if it is newer than those
    listed before it, the request fails, whatever the other kernels have. *)
Theorem kernel_not_skipped modules older k newer m (Hm : m ∈ modules) (Hno : modinfo m k = false)
    (Hgt : forall k', k' = "" \/ k' ∈ older -> Version_cmp (Version_from k) (Version_from k') = Gt) :
  get_kernel modules (older ++ k :: newer) = Err tt.
Proof.
  unfold get_kernel. rewrite kernel_loop_app.
  destruct (kernel_loop modules older (Version_from "")) as [w|[]] eqn:E; [|done]. simpl.
  apply kernel_loop_spec in E as (_ & _ & Hw).
  assert (Version_cmp (Version_from k) w = Gt) as ->.
  { destruct Hw as [->|(k' & Hk' & -> & _)]; apply Hgt; auto. }
  destruct (check_modules modules k) as [b|[]] eqn:Ec; [|done].
  apply check_modules_Ok in Ec as [_ Ec]. by rewrite (Ec m Hm) in Hno.
Qed.

End Kernel.

(** * Witnesses *)

Lemma get_kernel_newest_witness :
  get_kernel (fun _ _ => true) ["lustre"] ["3.10.0-957.x86_64"; "3.10.0-1127.x86_64"] = Ok "3.10.0-1127.x86_64" /\
  not_above (Version_from "3.10.0-957.x86_64") (Version_from "3.10.0-1127.x86_64").
Proof.
  assert (get_kernel (fun _ _ => true) ["lustre"] ["3.10.0-957.x86_64"; "3.10.0-1127.x86_64"] = Ok "3.10.0-1127.x86_64")
    as H by (by vm_compute).
  split; [exact H|]. apply (proj1 (get_kernel_newest _ _ _ _ H)). apply list_elem_of_here.
Defined.

Lemma kernel_not_skipped_witness :
  get_kernel (fun _ k => String.eqb k "3.10.0-957") ["lustre"] (["3.10.0-957"] ++ "3.10.0-1127" :: []) = Err tt.
Proof.
  apply (kernel_not_skipped (fun _ k => String.eqb k "3.10.0-957") ["lustre"] ["3.10.0-957"] "3.10.0-1127" [] "lustre");
    [apply list_elem_of_here|done|].
  intros k' [->|Hk%list_elem_of_singleton]; [|subst]; by vm_compute.
Defined.
