(* ===== verification/Fids.v ===== *)
(** Lustre file identifiers, [LustreFid] of [iml-wire-types/src/db.rs]: how they are
    printed and read. *)
From S2P Require Import Prelude RustStd.
From stdpp Require Import base gmap sets list strings.
From Stdlib Require Import ZArith Ascii.

Open Scope Z_scope.

Record LustreFid : Type := MkLustreFid { fid_seq : Z; fid_oid : Z; fid_ver : Z }.
#[export] Instance LustreFid_eq_dec : EqDecision LustreFid.
Proof. solve_decision. Defined.

(** [{:x}] of an unsigned number: its hexadecimal digits without leading zeros. *)
Definition hex_char (d : Z) : ascii := ascii_of_N (Z.to_N (if d <? 10 then d + 48 else d + 87)).

Fixpoint hex_go (n : nat) (x : Z) (s : string) : string :=
  match n with
  | O => s
  | S n =>
      let s := String (hex_char (x mod 16)) s in
      if x <? 16 then s else hex_go n (x / 16) s
  end.

(** Sixteen digits are enough for [u64]. *)
Definition fmt_hex (x : Z) : string := hex_go 16 x EmptyString.

(** [Display]: [as u64] and [as u32] reinterpret a negative number. *)
Definition LustreFid_to_string (f : LustreFid) : string :=
  "[0x" +:+ fmt_hex (fid_seq f mod 2 ^ 64) +:+ ":0x" +:+ fmt_hex (fid_oid f mod 2 ^ 32) +:+
  ":0x" +:+ fmt_hex (fid_ver f mod 2 ^ 32) +:+ "]".

(** [trim_matches(|c| c == '[' || c == ']')]. *)
Definition trim_brackets (s : string) : string :=
  let ps := ["["; "]"] in
  let s := strip_prefixes ps (slen s) s in
  String.rev (strip_prefixes ps (slen s) (String.rev s)).

Definition i64_from_hex (s : string) : Result ParseIntError Z := from_str_radix 16 (- 2 ^ 63) (2 ^ 63 - 1) s.
Definition i32_from_hex (s : string) : Result ParseIntError Z := from_str_radix 16 (- 2 ^ 31) (2 ^ 31 - 1) s.

(** [FromStr]; [None] is the panic of an index that is out of range. *)
Definition LustreFid_from_str (s : string) : option (Result ParseIntError LustreFid) :=
  let arr := trim_start_matches "0x" <$> str_split ":"%char (trim_brackets s) in
  a ← arr !! 0%nat;
  match i64_from_hex a with
  | Err e => Some (Err e)
  | Ok seq =>
      b ← arr !! 1%nat;
      match i32_from_hex b with
      | Err e => Some (Err e)
      | Ok oid =>
          c ← arr !! 2%nat;
          Some (ver ← i32_from_hex c; Ok (MkLustreFid seq oid ver))
      end
  end.

(** * Digits *)

Lemma hex_char_range d : 0 <= d < 16 -> exists k : nat, (k < 16)%nat /\ d = Z.of_nat k.
Proof. intros. exists (Z.to_nat d). lia. Qed.

(** A property of all sixteen digits is checked on each. *)
Ltac each_digit d H :=
  apply hex_char_range in H as (k & Hk & ->); do 16 (destruct k as [|k]; [done|]); lia.

Lemma to_digit_hex_char d : 0 <= d < 16 -> to_digit 16 (hex_char d) = Some d.
Proof. intros H. each_digit d H. Qed.

Definition is_hex (a : ascii) : Prop := exists d, 0 <= d < 16 /\ a = hex_char d.

Lemma is_hex_not a c : is_hex a -> to_digit 16 c = None -> a <> c.
Proof. intros (d & Hd & ->) Hc <-. by rewrite (to_digit_hex_char d Hd) in Hc. Qed.

(** The characters of a printed number. *)
Fixpoint all_hex (s : string) : Prop := match s with EmptyString => True | String a s => is_hex a /\ all_hex s end.

Lemma hex_go_all n x s : 0 <= x -> all_hex s -> all_hex (hex_go n x s).
Proof.
  revert x s. induction n as [|n IH]; intros x s Hx Hs; [done|]. simpl.
  assert (is_hex (hex_char (x mod 16))) as Hd by (exists (x mod 16); split; [by apply Z.mod_pos_bound|done]).
  destruct (x <? 16); [done|]. apply IH; [by apply Z.div_pos|done].
Qed.

Lemma hex_go_nonempty n x s : hex_go (S n) x s <> "".
Proof. revert x s. induction n as [|n IH]; intros x s; simpl; destruct (x <? 16); try done. apply IH. Qed.

Lemma fmt_hex_all x : 0 <= x -> all_hex (fmt_hex x).
Proof. intros. by apply hex_go_all. Qed.

Lemma fmt_hex_nonempty x : fmt_hex x <> "".
Proof. apply hex_go_nonempty. Qed.

Lemma all_hex_contains s c : all_hex s -> to_digit 16 c = None -> contains_char c s = false.
Proof.
  intros Hs Hc. induction s as [|a s IH]; [done|]. destruct Hs as [Ha Hs]. simpl.
  rewrite (proj2 (Ascii.eqb_neq a c)); [by apply IH|by apply is_hex_not].
Qed.

(** * Numbers *)

Lemma parse_hex_go max n x s : 0 <= x < 16 ^ Z.of_nat n -> x <= max ->
  parse_pos 16 max 0 (hex_go n x s) = parse_pos 16 max x s.
Proof.
  revert x s. induction n as [|n IH]; intros x s Hx Hm.
  { change (16 ^ Z.of_nat 0) with 1 in Hx. assert (x = 0) as -> by lia. done. }
  assert (Hd : 0 <= x mod 16 < 16) by (by apply Z.mod_pos_bound). simpl.
  pose proof (Z.div_mod x 16 ltac:(lia)) as Hdm. destruct (Z.ltb_spec x 16) as [Hlt|Hge].
  - cbn [parse_pos]. rewrite (Z.mod_small x 16) by lia. rewrite to_digit_hex_char by lia.
    change (0 * 16 + x) with x. by rewrite (proj2 (Z.leb_le _ _) Hm).
  - rewrite Nat2Z.inj_succ, Z.pow_succ_r in Hx by lia.
    rewrite IH; [|split; [apply Z.div_pos; lia|apply Z.div_lt_upper_bound; lia]|nia].
    cbn [parse_pos]. rewrite to_digit_hex_char by done.
    replace (x / 16 * 16 + x mod 16) with x by lia. by rewrite (proj2 (Z.leb_le _ _) Hm).
Qed.

Lemma parse_hex_overflow max n x s : 0 <= x < 16 ^ Z.of_nat n -> 0 <= max < x ->
  parse_pos 16 max 0 (hex_go n x s) = Err IntPosOverflow.
Proof.
  revert x s. induction n as [|n IH]; intros x s Hx Hm.
  { change (16 ^ Z.of_nat 0) with 1 in Hx. lia. }
  assert (Hd : 0 <= x mod 16 < 16) by (by apply Z.mod_pos_bound). simpl.
  pose proof (Z.div_mod x 16 ltac:(lia)) as Hdm. rewrite Nat2Z.inj_succ, Z.pow_succ_r in Hx by lia.
  destruct (Z.ltb_spec x 16) as [Hlt|Hge].
  - cbn [parse_pos]. rewrite (Z.mod_small x 16) by lia. rewrite to_digit_hex_char by lia.
    change (0 * 16 + x) with x. by rewrite (proj2 (Z.leb_gt x max)) by lia.
  - assert (0 <= x / 16 < 16 ^ Z.of_nat n) as Hq by (split; [apply Z.div_pos; lia|apply Z.div_lt_upper_bound; lia]).
    destruct (Z.le_gt_cases (x / 16) max) as [Hle|Hgt]; [|apply IH; [done|lia]].
    rewrite parse_hex_go by done. cbn [parse_pos]. rewrite to_digit_hex_char by done.
    replace (x / 16 * 16 + x mod 16) with x by lia. by rewrite (proj2 (Z.leb_gt x max)) by lia.
Qed.

(** A printed number has no sign. *)
Lemma from_str_radix_hex min max x : 0 <= x ->
  from_str_radix 16 min max (fmt_hex x) = parse_pos 16 max 0 (fmt_hex x).
Proof.
  intros Hx. pose proof (fmt_hex_all x Hx) as Ha. pose proof (fmt_hex_nonempty x) as Hn.
  destruct (fmt_hex x) as [|a s]; [done|]. destruct Ha as [Ha _]. unfold from_str_radix.
  by rewrite (proj2 (Ascii.eqb_neq a "+")), (proj2 (Ascii.eqb_neq a "-")) by (by apply is_hex_not).
Qed.

Lemma parse_fmt_hex min max x : 0 <= x < 2 ^ 64 -> x <= max -> from_str_radix 16 min max (fmt_hex x) = Ok x.
Proof. intros Hx Hm. rewrite from_str_radix_hex by lia. by apply (parse_hex_go max 16 x ""). Qed.

Lemma overflow_fmt_hex min max x : 0 <= x < 2 ^ 64 -> 0 <= max < x ->
  from_str_radix 16 min max (fmt_hex x) = Err IntPosOverflow.
Proof. intros Hx Hm. rewrite from_str_radix_hex by lia. by apply (parse_hex_overflow max 16 x ""). Qed.

(** * The parts of a printed identifier *)

Lemma strip_brackets_stop n a s : a <> "["%char -> a <> "]"%char -> strip_prefixes ["["; "]"] n (String a s) = String a s.
Proof.
  intros H1 H2. apply strip_prefixes_stop. repeat constructor; rewrite starts_with_char; by apply Ascii.eqb_neq.
Qed.

Lemma strip_brackets_open n s : strip_prefixes ["["; "]"] (S n) (String "[" s) = strip_prefixes ["["; "]"] n s.
Proof. cbn [strip_prefixes list_find]. by rewrite decide_True by (by rewrite starts_with_char). Qed.

Lemma strip_brackets_close n s : strip_prefixes ["["; "]"] (S n) (String "]" s) = strip_prefixes ["["; "]"] n s.
Proof.
  cbn [strip_prefixes list_find]. rewrite decide_False by (by rewrite starts_with_char).
  by rewrite decide_True by (by rewrite starts_with_char).
Qed.

Lemma trim_bracketed s : contains_char "["%char s = false -> contains_char "]"%char s = false -> s <> "" ->
  trim_brackets ("[" +:+ s +:+ "]") = s.
Proof.
  intros Ho Hc Hs. unfold trim_brackets. rewrite str_app_cons, str_app_nil_l.
  change (slen (String "[" ?t)) with (S (slen t)). rewrite strip_brackets_open.
  assert (Hstop : forall n t r, contains_char "["%char t = false -> contains_char "]"%char t = false -> t <> "" ->
    strip_prefixes ["["; "]"] n (t +:+ r) = t +:+ r).
  { intros n [|a t] r H1 H2 H3; [done|]. simpl in H1, H2. apply orb_false_elim in H1 as [H1 _], H2 as [H2 _].
    rewrite str_app_cons. apply strip_brackets_stop; by apply Ascii.eqb_neq. }
  rewrite Hstop by done. rewrite slen_app. change (slen "]") with 1%nat. rewrite Nat.add_1_r, str_rev_app.
  change (String.rev "]") with "]". rewrite str_app_cons, str_app_nil_l, strip_brackets_close.
  rewrite <-(str_app_nil_r (String.rev s)). rewrite Hstop; rewrite ?contains_char_rev; try done.
  - by rewrite str_app_nil_r, str_rev_involutive.
  - intros E%(f_equal slen). rewrite slen_rev in E. by destruct s.
Qed.

Lemma trim_0x s : all_hex s -> s <> "" -> trim_start_matches "0x" ("0x" +:+ s) = s.
Proof.
  intros Hs Hne. unfold trim_start_matches.
  assert (Hn : starts_with "0x" s = false).
  { apply not_true_iff_false. intros [r ->]%starts_with_spec. destruct Hs as [_ [Hb _]].
    by destruct (is_hex_not "x" "x" Hb). }
  change (slen ("0x" +:+ s)) with (S (S (slen s))). cbn [strip_prefixes list_find].
  rewrite decide_True by (destruct s; done). change (sdrop (slen "0x") ("0x" +:+ s)) with s.
  rewrite decide_False by congruence. done.
Qed.

(** Whatever the numbers, the parser gets back the three printed ones. *)
Lemma from_str_to_string f :
  LustreFid_from_str (LustreFid_to_string f) =
  Some (seq ← i64_from_hex (fmt_hex (fid_seq f mod 2 ^ 64));
        oid ← i32_from_hex (fmt_hex (fid_oid f mod 2 ^ 32));
        ver ← i32_from_hex (fmt_hex (fid_ver f mod 2 ^ 32)); Ok (MkLustreFid seq oid ver)).
Proof.
  unfold LustreFid_from_str, LustreFid_to_string.
  set (a := fmt_hex (fid_seq f mod 2 ^ 64)). set (b := fmt_hex (fid_oid f mod 2 ^ 32)).
  set (c := fmt_hex (fid_ver f mod 2 ^ 32)).
  assert (Ha : all_hex a /\ a <> "") by (split; [apply fmt_hex_all; by apply Z.mod_pos_bound|apply fmt_hex_nonempty]).
  assert (Hb : all_hex b /\ b <> "") by (split; [apply fmt_hex_all; by apply Z.mod_pos_bound|apply fmt_hex_nonempty]).
  assert (Hc : all_hex c /\ c <> "") by (split; [apply fmt_hex_all; by apply Z.mod_pos_bound|apply fmt_hex_nonempty]).
  clearbody a b c. destruct Ha as [Ha Ha'], Hb as [Hb Hb'], Hc as [Hc Hc'].
  replace ("[0x" +:+ a +:+ ":0x" +:+ b +:+ ":0x" +:+ c +:+ "]")
    with ("[" +:+ (("0x" +:+ a) +:+ String ":" (("0x" +:+ b) +:+ String ":" ("0x" +:+ c))) +:+ "]")
    by (by rewrite <-!str_app_assoc, !str_app_cons, <-!str_app_assoc, !str_app_cons, <-!str_app_assoc).
  assert (Hx : forall s d, all_hex s -> to_digit 16 d = None -> d <> "x"%char -> contains_char d ("0x" +:+ s) = false).
  { intros s d Hs Hd Hdx. rewrite contains_char_app, (all_hex_contains s d Hs Hd).
    change (contains_char d "0x") with (Ascii.eqb "0" d || (Ascii.eqb "x" d || false)).
    rewrite (proj2 (Ascii.eqb_neq "0" d)), (proj2 (Ascii.eqb_neq "x" d)) by (congruence || by intros <-). done. }
  rewrite trim_bracketed.
  2,3: rewrite contains_char_app, Hx by done; cbn [contains_char]; rewrite contains_char_app, Hx by done;
       cbn [contains_char]; by rewrite Hx.
  2: done.
  rewrite str_split_app, str_split_app, str_split_no_sep by (by apply Hx).
  cbn [fmap list_fmap]. rewrite !trim_0x by done. cbn [lookup list_lookup mbind option_bind].
  destruct (i64_from_hex a); [|done]. by destruct (i32_from_hex b).
Qed.

(** An identifier whose numbers are not negative is what its text is read as. *)
Theorem fid_round_trip f (Hs : 0 <= fid_seq f < 2 ^ 63) (Ho : 0 <= fid_oid f < 2 ^ 31) (Hv : 0 <= fid_ver f < 2 ^ 31) :
  LustreFid_from_str (LustreFid_to_string f) = Some (Ok f).
Proof.
  rewrite from_str_to_string. unfold i64_from_hex, i32_from_hex. rewrite !Z.mod_small by lia.
  rewrite !parse_fmt_hex by lia. by destruct f.
Qed.

(** An identifier with a negative number, one that has the highest bit of its field
    set, is printed but cannot be read back. *)
Theorem fid_high_bit_rejected f (Hs : - 2 ^ 63 <= fid_seq f < 2 ^ 63) (Ho : - 2 ^ 31 <= fid_oid f < 2 ^ 31)
    (Hv : - 2 ^ 31 <= fid_ver f < 2 ^ 31) (Hneg : fid_seq f < 0 \/ fid_oid f < 0 \/ fid_ver f < 0) :
  LustreFid_from_str (LustreFid_to_string f) = Some (Err IntPosOverflow).
Proof.
  rewrite from_str_to_string. unfold i64_from_hex, i32_from_hex.
  assert (Hneg64 : forall x, - 2 ^ 63 <= x < 0 -> x mod 2 ^ 64 = x + 2 ^ 64).
  { intros x Hx. symmetry. apply (Z.mod_unique_pos x (2 ^ 64) (-1)); lia. }
  assert (Hneg32 : forall x, - 2 ^ 31 <= x < 0 -> x mod 2 ^ 32 = x + 2 ^ 32).
  { intros x Hx. symmetry. apply (Z.mod_unique_pos x (2 ^ 32) (-1)); lia. }
  destruct (Z.lt_ge_cases (fid_seq f) 0).
  { rewrite (Hneg64 (fid_seq f)) by lia. by rewrite (overflow_fmt_hex _ _ (fid_seq f + 2 ^ 64)) by lia. }
  rewrite (Z.mod_small (fid_seq f)) by lia. rewrite (parse_fmt_hex _ _ (fid_seq f)) by lia. simpl.
  destruct (Z.lt_ge_cases (fid_oid f) 0).
  { rewrite (Hneg32 (fid_oid f)) by lia. by rewrite (overflow_fmt_hex _ _ (fid_oid f + 2 ^ 32)) by lia. }
  rewrite (Z.mod_small (fid_oid f)) by lia. rewrite (parse_fmt_hex _ _ (fid_oid f)) by lia. simpl.
  rewrite (Hneg32 (fid_ver f)) by lia. by rewrite (overflow_fmt_hex _ _ (fid_ver f + 2 ^ 32)) by lia.
Qed.

(** Text with fewer than three parts makes the reader panic. *)
Example fid_panics : LustreFid_from_str "[0x200000401:0x1]" = None /\ LustreFid_from_str "abc" = None.
Proof. by vm_compute. Qed.

(** * Witnesses *)

Lemma fid_round_trip_witness :
  LustreFid_from_str (LustreFid_to_string (MkLustreFid 8589935617 1 0)) = Some (Ok (MkLustreFid 8589935617 1 0)).
Proof. apply (fid_round_trip (MkLustreFid 8589935617 1 0)); simpl; lia. Defined.

Lemma fid_high_bit_rejected_witness :
  LustreFid_from_str (LustreFid_to_string (MkLustreFid 8589935617 (-1) 0)) = Some (Err IntPosOverflow).
Proof. apply (fid_high_bit_rejected (MkLustreFid 8589935617 (-1) 0)); simpl; lia. Defined.
