(* ===== verification/Tasks.v ===== *)
(** The task queue: [iml-mailbox] and the API put file identifiers of a task into
    [chroma_core_fidtaskqueue], [iml-task-runner] hands them in chunks to the agents of
    the hosts that mount the file system.

    The two services and the API share the database only. A turn of the model is one
    statement or transaction end of one of them, so that every interleaving is a list of
    labels; a label carries what the database, the agents and serde answer. *)
From S2P Require Import Prelude RustStd WireTypes Fids.
From stdpp Require Import base gmap sets list strings.
From Stdlib Require Import ZArith.

Open Scope Z_scope.

(** * Records *)

Section records.
Context `{Json}.

(** Times are numbers; nothing here looks at them. *)
Record Task : Type := MkTask {
  t_id : Z; t_name : string; t_start : Z; t_finish : option Z; t_state : string;
  t_fids_total : Z; t_fids_completed : Z; t_fids_failed : Z; t_data_transfered : Z;
  t_single_runner : bool; t_keep_failed : bool; t_actions : list string; t_args : value;
  t_filesystem_id : Z; t_running_on_id : option Z }.

Record FidTaskQueue : Type := MkFidTaskQueue { ft_id : Z; ft_fid : LustreFid; ft_data : value; ft_task_id : Z }.

Record FidError : Type := MkFidError { fe_fid : string; fe_data : value; fe_errno : Z }.

(** A row of [chroma_core_fidtaskerror]. *)
Record FidTaskError : Type := MkFidTaskError { te_fid : LustreFid; te_task_id : Z; te_data : value; te_errno : Z }.

Record LustreClient : Type := MkLustreClient {
  lc_id : Z; lc_state_modified_at : Z; lc_state : string; lc_immutable_state : bool;
  lc_not_deleted : option bool; lc_content_type_id : option Z; lc_filesystem : string;
  lc_host_id : Z; lc_mountpoints : list string }.

Definition with_total (n : Z) (t : Task) : Task :=
  {| t_id := t_id t; t_name := t_name t; t_start := t_start t; t_finish := t_finish t; t_state := t_state t;
     t_fids_total := t_fids_total t + n; t_fids_completed := t_fids_completed t; t_fids_failed := t_fids_failed t;
     t_data_transfered := t_data_transfered t; t_single_runner := t_single_runner t; t_keep_failed := t_keep_failed t;
     t_actions := t_actions t; t_args := t_args t; t_filesystem_id := t_filesystem_id t; t_running_on_id := t_running_on_id t |}.

Definition with_completed (c f : Z) (t : Task) : Task :=
  {| t_id := t_id t; t_name := t_name t; t_start := t_start t; t_finish := t_finish t; t_state := t_state t;
     t_fids_total := t_fids_total t; t_fids_completed := t_fids_completed t + c; t_fids_failed := t_fids_failed t + f;
     t_data_transfered := t_data_transfered t; t_single_runner := t_single_runner t; t_keep_failed := t_keep_failed t;
     t_actions := t_actions t; t_args := t_args t; t_filesystem_id := t_filesystem_id t; t_running_on_id := t_running_on_id t |}.

Definition with_running_on (h : Z) (t : Task) : Task :=
  {| t_id := t_id t; t_name := t_name t; t_start := t_start t; t_finish := t_finish t; t_state := t_state t;
     t_fids_total := t_fids_total t; t_fids_completed := t_fids_completed t; t_fids_failed := t_fids_failed t;
     t_data_transfered := t_data_transfered t; t_single_runner := t_single_runner t; t_keep_failed := t_keep_failed t;
     t_actions := t_actions t; t_args := t_args t; t_filesystem_id := t_filesystem_id t; t_running_on_id := Some h |}.

(** * The work of one worker on one task *)

(** Where the loop of [run_tasks] is, for one task. [JSend]: in the transaction, with the
    rows it has deleted, the actions not yet sent, the failures so far, the rows for the
    error table, and whether a failed insert has aborted the transaction. *)
Inductive Phase : Type :=
  | JStart
  | JTake
  | JSend (rows : list FidTaskQueue) (actions : list string) (failed : Z) (errs : list FidTaskError) (aborted : bool)
  | JCommit (rows : list FidTaskQueue) (failed : Z) (errs : list FidTaskError) (aborted : bool)
  | JCount (completed failed : Z)
  | JDone.

(** [j_rounds] is how many passes of [for _ in 0..10_u8] are left, this one included. *)
Record Job : Type := MkJob {
  j_run : nat; j_fqdn : string; j_host_id : Z; j_task : Task; j_rounds : nat; j_phase : Phase }.

Definition with_phase (p : Phase) (j : Job) : Job :=
  MkJob (j_run j) (j_fqdn j) (j_host_id j) (j_task j) (j_rounds j) p.

(** Where the future of one worker is; [RDead] when a panic ended it. *)
Inductive RunPhase : Type := RSelect | RFqdn (ts : list Task) | RRun | RRelease | RDone | RDead.

Record Run : Type := MkRun { r_batch : nat; r_client : LustreClient; r_phase : RunPhase }.

Definition with_rphase (p : RunPhase) (r : Run) : Run := MkRun (r_batch r) (r_client r) p.

(** The tables, what the services keep in memory, and a history for the theorems:
    [created], the rows ever inserted; [answered], which action was answered with
    success on which host for which rows; [handled], the rows whose deletion was
    committed; [drift], how much the counts of a task are off. *)
Record World : Type := MkWorld {
  tasks : gmap Z Task; filesystems : gmap string Z; hosts : gmap Z string; mounts : list LustreClient;
  queue : list FidTaskQueue; fid_errors : list FidTaskError; next_row : Z;
  pending : list (option (Z * Z));
  active_clients : gset Z; main_ids : option (list Z); batches : nat;
  runs : list Run; jobs : list Job;
  created : list FidTaskQueue; answered : list (string * string * list FidTaskQueue);
  handled : list (string * list string * list FidTaskQueue); drift : gmap Z Z }.

(** ** Updates of single fields *)

Definition upd_tasks (f : gmap Z Task -> gmap Z Task) (w : World) : World :=
  {| tasks := f (tasks w); filesystems := filesystems w; hosts := hosts w; mounts := mounts w; queue := queue w; fid_errors := fid_errors w;
     next_row := next_row w; pending := pending w; active_clients := active_clients w; main_ids := main_ids w; batches := batches w; runs := runs w;
     jobs := jobs w; created := created w; answered := answered w; handled := handled w; drift := drift w |}.

Definition upd_queue (f : list FidTaskQueue -> list FidTaskQueue) (w : World) : World :=
  {| tasks := tasks w; filesystems := filesystems w; hosts := hosts w; mounts := mounts w; queue := f (queue w); fid_errors := fid_errors w;
     next_row := next_row w; pending := pending w; active_clients := active_clients w; main_ids := main_ids w; batches := batches w; runs := runs w;
     jobs := jobs w; created := created w; answered := answered w; handled := handled w; drift := drift w |}.

Definition upd_fid_errors (f : list FidTaskError -> list FidTaskError) (w : World) : World :=
  {| tasks := tasks w; filesystems := filesystems w; hosts := hosts w; mounts := mounts w; queue := queue w; fid_errors := f (fid_errors w);
     next_row := next_row w; pending := pending w; active_clients := active_clients w; main_ids := main_ids w; batches := batches w; runs := runs w;
     jobs := jobs w; created := created w; answered := answered w; handled := handled w; drift := drift w |}.

Definition upd_next_row (f : Z -> Z) (w : World) : World :=
  {| tasks := tasks w; filesystems := filesystems w; hosts := hosts w; mounts := mounts w; queue := queue w; fid_errors := fid_errors w;
     next_row := f (next_row w); pending := pending w; active_clients := active_clients w; main_ids := main_ids w; batches := batches w; runs := runs w;
     jobs := jobs w; created := created w; answered := answered w; handled := handled w; drift := drift w |}.

Definition upd_pending (f : list (option (Z * Z)) -> list (option (Z * Z))) (w : World) : World :=
  {| tasks := tasks w; filesystems := filesystems w; hosts := hosts w; mounts := mounts w; queue := queue w; fid_errors := fid_errors w;
     next_row := next_row w; pending := f (pending w); active_clients := active_clients w; main_ids := main_ids w; batches := batches w; runs := runs w;
     jobs := jobs w; created := created w; answered := answered w; handled := handled w; drift := drift w |}.

Definition upd_active_clients (f : gset Z -> gset Z) (w : World) : World :=
  {| tasks := tasks w; filesystems := filesystems w; hosts := hosts w; mounts := mounts w; queue := queue w; fid_errors := fid_errors w;
     next_row := next_row w; pending := pending w; active_clients := f (active_clients w); main_ids := main_ids w; batches := batches w; runs := runs w;
     jobs := jobs w; created := created w; answered := answered w; handled := handled w; drift := drift w |}.

Definition upd_main_ids (f : option (list Z) -> option (list Z)) (w : World) : World :=
  {| tasks := tasks w; filesystems := filesystems w; hosts := hosts w; mounts := mounts w; queue := queue w; fid_errors := fid_errors w;
     next_row := next_row w; pending := pending w; active_clients := active_clients w; main_ids := f (main_ids w); batches := batches w; runs := runs w;
     jobs := jobs w; created := created w; answered := answered w; handled := handled w; drift := drift w |}.

Definition upd_batches (f : nat -> nat) (w : World) : World :=
  {| tasks := tasks w; filesystems := filesystems w; hosts := hosts w; mounts := mounts w; queue := queue w; fid_errors := fid_errors w;
     next_row := next_row w; pending := pending w; active_clients := active_clients w; main_ids := main_ids w; batches := f (batches w); runs := runs w;
     jobs := jobs w; created := created w; answered := answered w; handled := handled w; drift := drift w |}.

Definition upd_runs (f : list Run -> list Run) (w : World) : World :=
  {| tasks := tasks w; filesystems := filesystems w; hosts := hosts w; mounts := mounts w; queue := queue w; fid_errors := fid_errors w;
     next_row := next_row w; pending := pending w; active_clients := active_clients w; main_ids := main_ids w; batches := batches w; runs := f (runs w);
     jobs := jobs w; created := created w; answered := answered w; handled := handled w; drift := drift w |}.

Definition upd_jobs (f : list Job -> list Job) (w : World) : World :=
  {| tasks := tasks w; filesystems := filesystems w; hosts := hosts w; mounts := mounts w; queue := queue w; fid_errors := fid_errors w;
     next_row := next_row w; pending := pending w; active_clients := active_clients w; main_ids := main_ids w; batches := batches w; runs := runs w;
     jobs := f (jobs w); created := created w; answered := answered w; handled := handled w; drift := drift w |}.

Definition upd_created (f : list FidTaskQueue -> list FidTaskQueue) (w : World) : World :=
  {| tasks := tasks w; filesystems := filesystems w; hosts := hosts w; mounts := mounts w; queue := queue w; fid_errors := fid_errors w;
     next_row := next_row w; pending := pending w; active_clients := active_clients w; main_ids := main_ids w; batches := batches w; runs := runs w;
     jobs := jobs w; created := f (created w); answered := answered w; handled := handled w; drift := drift w |}.

Definition upd_answered (f : list (string * string * list FidTaskQueue) -> list (string * string * list FidTaskQueue)) (w : World) : World :=
  {| tasks := tasks w; filesystems := filesystems w; hosts := hosts w; mounts := mounts w; queue := queue w; fid_errors := fid_errors w;
     next_row := next_row w; pending := pending w; active_clients := active_clients w; main_ids := main_ids w; batches := batches w; runs := runs w;
     jobs := jobs w; created := created w; answered := f (answered w); handled := handled w; drift := drift w |}.

Definition upd_handled (f : list (string * list string * list FidTaskQueue) -> list (string * list string * list FidTaskQueue)) (w : World) : World :=
  {| tasks := tasks w; filesystems := filesystems w; hosts := hosts w; mounts := mounts w; queue := queue w; fid_errors := fid_errors w;
     next_row := next_row w; pending := pending w; active_clients := active_clients w; main_ids := main_ids w; batches := batches w; runs := runs w;
     jobs := jobs w; created := created w; answered := answered w; handled := f (handled w); drift := drift w |}.

Definition upd_drift (f : gmap Z Z -> gmap Z Z) (w : World) : World :=
  {| tasks := tasks w; filesystems := filesystems w; hosts := hosts w; mounts := mounts w; queue := queue w; fid_errors := fid_errors w;
     next_row := next_row w; pending := pending w; active_clients := active_clients w; main_ids := main_ids w; batches := batches w; runs := runs w;
     jobs := jobs w; created := created w; answered := answered w; handled := handled w; drift := f (drift w) |}.

End records.

(** * The turns *)

Section turns.
Context `{Json}.

(** [*POOL_LIMIT]. *)
Context (POOL_LIMIT : nat).
(** [serde_json::from_value] on the arguments of a task. *)
Context (args_of : value -> option (gmap string string)).
(** [serde_json::from_str::<Incoming>]: the identifier and the first other entry of the
    line in the order of its [HashMap]. *)
Context (incoming : string -> option (string * option value)).
(** [json!({})]. *)
Context (json_object : value).

(** How many rows of a chunk; its type is [i64]. *)
Definition FID_LIMIT : Z := 2000.

Definition bump (t d : Z) (m : gmap Z Z) : gmap Z Z := <[t := default 0 (m !! t) + d]> m.

(** A statement [UPDATE chroma_core_task ... WHERE id = t]. *)
Definition update_task (t : Z) (f : Task -> Task) : World -> World := upd_tasks (alter f t).

(** ** [iml-mailbox] and the API *)

Definition get_task_by_name (x : string) (w : World) : option Task :=
  snd <$> (snd <$> list_find (fun p : Z * Task => t_name p.2 = x) (map_to_list (tasks w))).

(** [None] is a panic. *)
Fixpoint convert_lines (lines : list string) : option (list (LustreFid * value)) :=
  match lines with
  | [] => Some []
  | x :: lines =>
      match incoming x with
      | None => convert_lines lines
      | Some (fid, data) =>
          match LustreFid_from_str fid with
          | None => None
          | Some (Err _) => convert_lines lines
          | Some (Ok fid) => cons (fid, default json_object data) <$> convert_lines lines
          end
      end
  end.

Fixpoint number_rows (id : Z) (t : Z) (lines : list (LustreFid * value)) : list FidTaskQueue :=
  match lines with
  | [] => []
  | (fid, data) :: lines => MkFidTaskQueue id fid data t :: number_rows (id + 1) t lines
  end.

(** The [INSERT INTO chroma_core_fidtaskqueue], after which [count] is to be added. *)
Definition insert_rows (t : Z) (lines : list (LustreFid * value)) (count : Z) (w : World) : World :=
  let rows := number_rows (next_row w) t lines in
  upd_queue (fun q => q ++ rows)
    (upd_created (fun q => q ++ rows)
      (upd_next_row (fun n => n + Z.of_nat (length lines))
        (upd_pending (fun p => p ++ [Some (t, count)])
          (upd_drift (bump t (Z.of_nat (length lines) - count)) w)))).

(** [ingest_data] up to its second statement; [None] also when the task is not found. *)
Definition ingest_data (name : string) (lines : list string) (w : World) : option World :=
  t ← get_task_by_name name w;
  lines ← convert_lines lines;
  Some (insert_rows (t_id t) lines (Z.of_nat (length lines)) w).

(** The second statement of [ingest_data] and [insert_fidlist]. *)
Definition add_total (i : nat) (ok : bool) (w : World) : option World :=
  p ← pending w !! i;
  '(t, n) ← p;
  let w := upd_pending (fun p => <[i := None]> p) w in
  Some (if ok then update_task t (with_total n) w else upd_drift (bump t n) w).

Fixpoint read_fids (fids : list string) : option (list LustreFid) :=
  match fids with
  | [] => Some []
  | x :: fids =>
      match LustreFid_from_str x with
      | None => None
      | Some (Err _) => read_fids fids
      | Some (Ok fid) => cons fid <$> read_fids fids
      end
  end.

Definition insert_fidlist (fids : list string) (t : Z) (w : World) : option World :=
  if decide (is_Some (tasks w !! t)) then
    xs ← read_fids fids;
    Some (insert_rows t ((., json_object) <$> xs) (Z.of_nat (length fids)) w)
  else None.

(** [RETURNING *]: the database gives the identifier and the start time. *)
Definition insert_task (id start : Z) (name state : string) (single_runner keep_failed : bool)
    (actions : list string) (args : value) (fs_id : Z) (w : World) : option World :=
  if decide (tasks w !! id = None) then
    Some (upd_tasks (fun ts => <[id :=
      {| t_id := id; t_name := name; t_start := start; t_finish := None; t_state := state;
         t_fids_total := 0; t_fids_completed := 0; t_fids_failed := 0; t_data_transfered := 0;
         t_single_runner := single_runner; t_keep_failed := keep_failed; t_actions := actions; t_args := args;
         t_filesystem_id := fs_id; t_running_on_id := None |}]> ts) w)
  else None.

(** ** [main] of [iml-task-runner] *)

(** The loop reads the set of active clients. *)
Definition tick (w : World) : option World :=
  match main_ids w with
  | Some _ => None
  | None =>
      let ids := elements (active_clients w) in
      Some (if (POOL_LIMIT <=? length ids)%nat then w else upd_main_ids (fun _ => Some ids) w)
  end.

Definition is_available (ids : list Z) (c : LustreClient) : bool :=
  bool_decide (lc_state c = "mounted" /\ lc_not_deleted c = Some true /\ lc_id c ∉ ids).

(** The query leaves open which clients it returns when there are more than the limit:
    it is [sel] that says so. *)
Definition available_workers (ids sel : list Z) (w : World) : option (list LustreClient) :=
  let cs := List.filter (is_available ids) (mounts w) in
  let xs := List.filter (fun c => bool_decide (lc_id c ∈ sel)) cs in
  if decide (length xs = Nat.min (POOL_LIMIT - length ids) (length cs)) then Some xs else None.

(** The futures of the workers are spawned as one. *)
Definition spawn_workers (sel : list Z) (w : World) : option World :=
  ids ← main_ids w;
  workers ← available_workers ids sel w;
  Some (upd_main_ids (fun _ => None)
    (upd_active_clients (fun x => x ∪ list_to_set (lc_id <$> workers))
      (upd_batches S
        (upd_runs (fun rs => rs ++ ((fun c => MkRun (batches w) c RSelect) <$> workers)) w)))).

Definition is_task_for (fs_id : Z) (c : LustreClient) (t : Task) : bool :=
  bool_decide (t_filesystem_id t = fs_id /\ t_state t <> "closed" /\ t_fids_completed t < t_fids_total t /\
               (t_running_on_id t = None \/ t_running_on_id t = Some (lc_host_id c))).

Definition tasks_per_worker (c : LustreClient) (w : World) : list Task :=
  match filesystems w !! lc_filesystem c with
  | None => []
  | Some fs_id => List.filter (is_task_for fs_id c) (snd <$> map_to_list (tasks w))
  end.

Definition set_run (r : nat) (p : RunPhase) : World -> World := upd_runs (alter (with_rphase p) r).

Definition select_tasks (r : nat) (w : World) : option World :=
  x ← runs w !! r;
  match r_phase x with
  | RSelect => Some (set_run r (RFqdn (tasks_per_worker (r_client x) w)) w)
  | _ => None
  end.

(** [worker_fqdn] and the start of [run_tasks]. *)
Definition start_tasks (r : nat) (w : World) : option World :=
  x ← runs w !! r;
  match r_phase x with
  | RFqdn ts =>
      Some (match hosts w !! lc_host_id (r_client x) with
            | None => set_run r RRelease w
            | Some fqdn =>
                set_run r RRun
                  (upd_jobs (fun js => js ++ ((fun t => MkJob r fqdn (lc_host_id (r_client x)) t 10 JStart) <$> ts)) w)
            end)
  | _ => None
  end.

(** A query of the worker fails. *)
Definition run_error (r : nat) (w : World) : option World :=
  x ← runs w !! r;
  match r_phase x with RSelect | RFqdn _ => Some (set_run r RRelease w) | _ => None end.

Definition job_done (j : Job) : bool := match j_phase j with JDone => true | _ => false end.

(** [c.remove(&worker_id)], when [join_all] of its tasks is through. *)
Definition release (r : nat) (w : World) : option World :=
  x ← runs w !! r;
  let ready :=
    match r_phase x with
    | RRelease => true
    | RRun => forallb (fun j => negb (bool_decide (j_run j = r)) || job_done j) (jobs w)
    | _ => false
    end in
  if ready then Some (upd_active_clients (fun c => c ∖ {[lc_id (r_client x)]}) (set_run r RDone w)) else None.

(** ** [send_work] and the loop around it *)

Definition set_job (i : nat) (p : Phase) : World -> World := upd_jobs (alter (with_phase p) i).

(** The loop goes on when [send_work] has returned [rc]. *)
Definition finish_round (rc : Z) (j : Job) : Job :=
  if rc <? FID_LIMIT then with_phase JDone j
  else match j_rounds j with
       | S (S n) => MkJob (j_run j) (j_fqdn j) (j_host_id j) (j_task j) (S n) JStart
       | _ => with_phase JDone j
       end.

Definition end_round (i : nat) (rc : Z) : World -> World := upd_jobs (alter (finish_round rc) i).

Definition send_work_start (i : nat) (w : World) : option World :=
  j ← jobs w !! i;
  match j_phase j with
  | JStart =>
      let t := j_task j in
      Some (match args_of (t_args t) with
            | None => set_job i JDone w
            | Some _ =>
                if t_single_runner t && bool_decide (t_running_on_id t = None) then
                  match tasks w !! t_id t with
                  | Some t' =>
                      if bool_decide (t_running_on_id t' = None)
                      then set_job i JTake (update_task (t_id t) (with_running_on (j_host_id j)) w)
                      else end_round i 0 w
                  | None => end_round i 0 w
                  end
                else set_job i JTake w
            end)
  | _ => None
  end.

Definition of_task (t : Z) (r : FidTaskQueue) : bool := ft_task_id r =? t.

(** The [DELETE]: the rows that other transactions have deleted are locked and skipped;
    [ids] says which rows of the task the query chooses. *)
Definition take_rows (i : nat) (ids : list Z) (w : World) : option World :=
  j ← jobs w !! i;
  match j_phase j with
  | JTake =>
      let chosen r := of_task (t_id (j_task j)) r && bool_decide (ft_id r ∈ ids) in
      let rows := List.filter chosen (queue w) in
      if decide (length rows = Nat.min (Z.to_nat FID_LIMIT) (length (List.filter (of_task (t_id (j_task j))) (queue w)))) then
        Some (if bool_decide (rows = []) then end_round i 0 w
              else set_job i (JSend rows (t_actions (j_task j)) 0 [] false)
                     (upd_queue (List.filter (fun r => negb (chosen r))) w))
      else None
  | _ => None
  end.

(** What [invoke_rust_agent] gives, and, for a success, whether each insert of an error succeeds. *)
Inductive Answer : Type :=
  | InvokeFailed
  | NotUnderstood
  | AgentFailed (e : string)
  | AgentDone (errors : list FidError) (inserts : list bool).

(** The loop over the errors of an action; [None] is a panic. A failed insert aborts the
    transaction, and every later one then fails. *)
Fixpoint keep_errors (t : Z) (errors : list FidError) (inserts : list bool) (errs : list FidTaskError) (aborted : bool)
    : option (list FidTaskError * bool) :=
  match errors with
  | [] => Some (errs, aborted)
  | e :: errors =>
      match LustreFid_from_str (fe_fid e) with
      | None => None
      | Some (Err _) => keep_errors t errors inserts errs aborted
      | Some (Ok fid) =>
          if negb aborted && default true (head inserts)
          then keep_errors t errors (tail inserts) (errs ++ [MkFidTaskError fid t (fe_data e) (fe_errno e)]) false
          else keep_errors t errors (tail inserts) errs true
      end
  end.

(** The rows a transaction has deleted and the count that is still to be added. *)
Definition held (j : Job) : list FidTaskQueue :=
  match j_phase j with JSend rows _ _ _ _ | JCommit rows _ _ _ => rows | _ => [] end.
Definition counting (j : Job) : Z := match j_phase j with JCount c _ => c | _ => 0 end.

(** The futures whose run satisfies [dies] are dropped, and their transactions with them. *)
Definition dying (dies : Run -> bool) (w : World) (j : Job) : bool :=
  match runs w !! j_run j with Some r => dies r | None => false end.

Definition kill (dies : Run -> bool) (w : World) : World :=
  let lost := List.filter (dying dies w) (jobs w) in
  upd_queue (fun q => q ++ (lost ≫= held))
    (upd_drift (fun m => foldr (fun j => bump (t_id (j_task j)) (- counting j)) m lost)
      (upd_jobs (fmap (fun j => if dying dies w j then with_phase JDone j else j))
        (upd_runs (fmap (fun r => if dies r then match r_phase r with RDone => r | _ => with_rphase RDead r end else r)) w))).

(** A panic in one of the futures that were spawned together ends them all. *)
Definition panic (i : nat) (w : World) : World :=
  match j ← jobs w !! i; runs w !! j_run j with
  | Some r => kill (fun r' => bool_decide (r_batch r' = r_batch r)) w
  | None => w
  end.

Definition rollback (i : nat) (rows : list FidTaskQueue) (w : World) : World :=
  upd_queue (fun q => q ++ rows) (end_round i 0 w).

Definition send_action (i : nat) (a : Answer) (w : World) : option World :=
  j ← jobs w !! i;
  match j_phase j with
  | JSend rows [] failed errs aborted => Some (set_job i (JCommit rows failed errs aborted) w)
  | JSend rows (action :: actions) failed errs aborted =>
      Some (match a with
            | InvokeFailed | AgentFailed _ => rollback i rows w
            | NotUnderstood => upd_queue (fun q => q ++ rows) (set_job i JDone w)
            | AgentDone errors inserts =>
                let w := upd_answered (fun l => l ++ [(j_fqdn j, "action." +:+ action, rows)]) w in
                let failed := failed + Z.of_nat (length errors) in
                if t_keep_failed (j_task j) then
                  match keep_errors (t_id (j_task j)) errors inserts errs aborted with
                  | None => panic i w
                  | Some (errs, aborted) => set_job i (JSend rows actions failed errs aborted) w
                  end
                else set_job i (JSend rows actions failed errs aborted) w
            end)
  | _ => None
  end.

(** [trans.commit()]: [CommitFailed stored] is an error, after which the transaction may
    have been stored or not. An aborted transaction is rolled back by [COMMIT], which
    reports no error. *)
Inductive CommitResult : Type := CommitOk | CommitFailed (stored : bool).

Definition store_rows (j : Job) (rows : list FidTaskQueue) (errs : list FidTaskError) (w : World) : World :=
  upd_fid_errors (fun e => e ++ errs) (upd_handled (fun l => l ++ [(j_fqdn j, t_actions (j_task j), rows)]) w).

Definition commit (i : nat) (c : CommitResult) (w : World) : option World :=
  j ← jobs w !! i;
  match j_phase j with
  | JCommit rows failed errs aborted =>
      let n := Z.of_nat (length rows) in
      Some (match c, aborted with
            | CommitOk, false => set_job i (JCount n failed) (store_rows j rows errs w)
            | CommitOk, true =>
                set_job i (JCount n failed) (upd_queue (fun q => q ++ rows) (upd_drift (bump (t_id (j_task j)) n) w))
            | CommitFailed true, false =>
                set_job i JDone (upd_drift (bump (t_id (j_task j)) (- n)) (store_rows j rows errs w))
            | CommitFailed _, _ => set_job i JDone (upd_queue (fun q => q ++ rows) w)
            end)
  | _ => None
  end.

(** The last statement of [send_work]. *)
Definition add_completed (i : nat) (ok : bool) (w : World) : option World :=
  j ← jobs w !! i;
  match j_phase j with
  | JCount c f =>
      Some (if ok then end_round i c (update_task (t_id (j_task j)) (with_completed c f) w)
            else set_job i JDone (upd_drift (bump (t_id (j_task j)) (- c)) w))
  | _ => None
  end.

(** The first or the second statement of [send_work] fails. *)
Definition job_error (i : nat) (w : World) : option World :=
  j ← jobs w !! i;
  match j_phase j with JStart | JTake => Some (set_job i JDone w) | _ => None end.

(** The runner ends, when its main query fails or it is stopped, and is started again. *)
Definition restart (w : World) : World :=
  upd_active_clients (fun _ => ∅) (upd_main_ids (fun _ => None) (kill (fun _ => true) w)).

(** The other services change the tables that are only read here. *)
Definition change_tables (fs : gmap string Z) (hs : gmap Z string) (ms : list LustreClient) (w : World) : option World :=
  if decide (NoDup (lc_id <$> ms)) then
    Some {| tasks := tasks w; filesystems := fs; hosts := hs; mounts := ms; queue := queue w; fid_errors := fid_errors w;
            next_row := next_row w; pending := pending w; active_clients := active_clients w; main_ids := main_ids w;
            batches := batches w; runs := runs w; jobs := jobs w; created := created w; answered := answered w;
            handled := handled w; drift := drift w |}
  else None.

(** ** One turn *)

Inductive Label : Type :=
  | LCreate (id start : Z) (name state : string) (single_runner keep_failed : bool) (actions : list string) (args : value) (fs_id : Z)
  | LIngest (name : string) (lines : list string)
  | LFidlist (fids : list string) (t : Z)
  | LTotal (i : nat) (ok : bool)
  | LTick
  | LWorkers (sel : list Z)
  | LSelect (r : nat)
  | LTasks (r : nat)
  | LRunError (r : nat)
  | LRelease (r : nat)
  | LStart (i : nat)
  | LTake (i : nat) (ids : list Z)
  | LSend (i : nat) (a : Answer)
  | LCommit (i : nat) (c : CommitResult)
  | LCount (i : nat) (ok : bool)
  | LJobError (i : nat)
  | LRestart
  | LTables (fs : gmap string Z) (hs : gmap Z string) (ms : list LustreClient).

Definition turn (l : Label) (w : World) : option World :=
  match l with
  | LCreate id start name state sr kf actions args fs => insert_task id start name state sr kf actions args fs w
  | LIngest name lines => ingest_data name lines w
  | LFidlist fids t => insert_fidlist fids t w
  | LTotal i ok => add_total i ok w
  | LTick => tick w
  | LWorkers sel => spawn_workers sel w
  | LSelect r => select_tasks r w
  | LTasks r => start_tasks r w
  | LRunError r => run_error r w
  | LRelease r => release r w
  | LStart i => send_work_start i w
  | LTake i ids => take_rows i ids w
  | LSend i a => send_action i a w
  | LCommit i c => commit i c w
  | LCount i ok => add_completed i ok w
  | LJobError i => job_error i w
  | LRestart => Some (restart w)
  | LTables fs hs ms => change_tables fs hs ms w
  end.

Fixpoint run (ls : list Label) (w : World) : option World :=
  match ls with [] => Some w | l :: ls => w ← turn l w; run ls w end.

(** The services start on empty tables. *)
Definition initial : World :=
  {| tasks := ∅; filesystems := ∅; hosts := ∅; mounts := []; queue := []; fid_errors := []; next_row := 1; pending := [];
     active_clients := ∅; main_ids := None; batches := 0; runs := []; jobs := []; created := []; answered := [];
     handled := []; drift := ∅ |}.

End turns.
