(* ===== verification/TasksSpec.v ===== *)
(** What the task queue promises: no row is lost, the counts of a task agree with its
    rows, a task of a single runner runs on one host, and the pool of workers is bounded. *)
From S2P Require Import Prelude RustStd WireTypes Fids Tasks.
From stdpp Require Import base gmap sets list strings.
From Stdlib Require Import ZArith.

Open Scope Z_scope.

(** * Sums over lists *)

Definition sum_with {A} (f : A -> Z) (l : list A) : Z := foldr (fun x s => f x + s) 0 l.

Section sums.
Context {A : Type} (f : A -> Z).

Lemma sum_with_cons x l : sum_with f (x :: l) = f x + sum_with f l.
Proof. done. Qed.

Lemma sum_with_app l k : sum_with f (l ++ k) = sum_with f l + sum_with f k.
Proof. induction l as [|x l IH]; simpl; lia. Qed.

Lemma sum_with_alter g i l x : l !! i = Some x -> sum_with f (alter g i l) = sum_with f l - f x + f (g x).
Proof.
  revert i. induction l as [|y l IH]; intros [|i] Hi; simplify_eq/=; [lia|]. rewrite (IH i Hi). lia.
Qed.

Lemma sum_with_insert i l x y : l !! i = Some x -> sum_with f (<[i := y]> l) = sum_with f l - f x + f y.
Proof.
  revert i. induction l as [|z l IH]; intros [|i] Hi; simplify_eq/=; [lia|]. rewrite (IH i Hi). lia.
Qed.

Lemma sum_with_zero l : (forall x, x ∈ l -> f x = 0) -> sum_with f l = 0.
Proof. induction l as [|x l IH]; intros Hz; [done|]. simpl. rewrite (Hz x), IH; [done| |]; set_solver. Qed.

End sums.

Lemma bind_alter {A B} (h : A -> list B) g i l x : l !! i = Some x ->
  (alter g i l ≫= h) ++ h x ≡ₚ (l ≫= h) ++ h (g x).
Proof.
  revert i. induction l as [|y l IH]; intros [|i] Hi; simplify_eq/=.
  - solve_Permutation.
  - rewrite <-!(assoc_L (++)). by rewrite (IH i Hi).
Qed.

(** How many rows belong to task [t]. *)
Definition rows_of {J : Json} (t : Z) (rs : list FidTaskQueue) : Z := Z.of_nat (length (List.filter (of_task t) rs)).

Section rows.
Context `{Json}.

Lemma rows_of_app t rs rs' : rows_of t (rs ++ rs') = rows_of t rs + rows_of t rs'.
Proof. unfold rows_of. rewrite List.filter_app, length_app. lia. Qed.

#[export] Instance rows_of_proper t : Proper ((≡ₚ) ==> (=)) (rows_of t).
Proof. intros rs rs' E. unfold rows_of. induction E; simpl; repeat (case_match; simpl); lia. Qed.

Lemma rows_of_all t t' rs : Forall (fun r => ft_task_id r = t) rs ->
  rows_of t' rs = if t =? t' then Z.of_nat (length rs) else 0.
Proof.
  unfold rows_of. induction 1 as [|r rs Hr Hrs IH]; [by case_match|]. simpl. unfold of_task at 1. rewrite Hr.
  destruct (t =? t') eqn:E; simpl; [lia|done].
Qed.

Lemma number_rows_task id t lines : Forall (fun r => ft_task_id r = t) (number_rows id t lines).
Proof. revert id. induction lines as [|[f d] lines IH]; intros id; by constructor. Qed.

Lemma number_rows_length id t lines : length (number_rows id t lines) = length lines.
Proof. revert id. induction lines as [|[f d] lines IH]; intros id; [done|]. simpl. by rewrite IH. Qed.

End rows.

(** * The invariant *)

Section invariant.
Context `{Json}.

(** The table of tasks changes in its counters only, and a host that runs a task stays. *)
Definition same_task (t t' : Task) : Prop :=
  t_id t' = t_id t /\ t_single_runner t' = t_single_runner t /\ t_actions t' = t_actions t /\
  forall h, t_running_on_id t = Some h -> t_running_on_id t' = Some h.

Definition stable (m m' : gmap Z Task) : Prop :=
  forall k t, m !! k = Some t -> exists t', m' !! k = Some t' /\ same_task t t'.

#[export] Instance stable_preorder : PreOrder stable.
Proof.
  split.
  - intros m k t Ht. exists t. by repeat split.
  - intros m1 m2 m3 H1 H2 k t Ht. destruct (H1 k t Ht) as (t' & Ht' & E1 & E2 & E3 & E4).
    destruct (H2 k t' Ht') as (t'' & Ht'' & E5 & E6 & E7 & E8). exists t''. repeat split; try congruence. auto.
Qed.

Lemma stable_alter m k f : (forall t, m !! k = Some t -> same_task t (f t)) -> stable m (alter f k m).
Proof.
  intros Hf k' t Ht. destruct (decide (k = k')) as [<-|Hne].
  - exists (f t). rewrite lookup_alter_eq, Ht. auto.
  - exists t. rewrite lookup_alter_ne by done. by repeat split.
Qed.

Lemma stable_insert m k t : m !! k = None -> stable m (<[k := t]> m).
Proof.
  intros Hk k' t' Ht. exists t'. rewrite lookup_insert_ne by congruence. by repeat split.
Qed.

(** A row that was read earlier, against the table. *)
Definition snapshot (m : gmap Z Task) (t : Task) : Prop := exists t', m !! t_id t = Some t' /\ same_task t t'.

Lemma snapshot_stable m m' t : stable m m' -> snapshot m t -> snapshot m' t.
Proof.
  intros Hs (t' & Ht & E1 & E2 & E3 & E4). destruct (Hs _ _ Ht) as (t'' & Ht'' & F1 & F2 & F3 & F4).
  exists t''. repeat split; try congruence; auto.
Qed.

(** The loop is past the first statement of its first pass. *)
Definition claimed (j : Job) : bool :=
  (j_rounds j <? 10)%nat || match j_phase j with JStart | JDone => false | _ => true end.

Definition sent (a : list (string * string * list FidTaskQueue)) (fqdn : string) (rows : list FidTaskQueue) (acts : list string) : Prop :=
  forall x, x ∈ acts -> (fqdn, "action." +:+ x, rows) ∈ a.

Record job_inv (m : gmap Z Task) (a : list (string * string * list FidTaskQueue)) (j : Job) : Prop := MkJobInv {
  ji_task : snapshot m (j_task j);
  ji_host : forall h, t_running_on_id (j_task j) = Some h -> h = j_host_id j;
  ji_rounds : (1 <= j_rounds j <= 10)%nat;
  ji_rows : Forall (fun r => ft_task_id r = t_id (j_task j)) (held j);
  ji_claimed : t_single_runner (j_task j) = true -> claimed j = true ->
    exists t, m !! t_id (j_task j) = Some t /\ t_running_on_id t = Some (j_host_id j);
  ji_sent : match j_phase j with
            | JSend rows acts _ _ _ => exists done, t_actions (j_task j) = done ++ acts /\ sent a (j_fqdn j) rows done
            | JCommit rows _ _ _ => sent a (j_fqdn j) rows (t_actions (j_task j))
            | _ => True
            end }.

Lemma sent_mono a a' fqdn rows acts : a ⊆ a' -> sent a fqdn rows acts -> sent a' fqdn rows acts.
Proof. intros Ha Hs x Hx. auto. Qed.

Lemma job_inv_stable m m' a a' j : stable m m' -> a ⊆ a' -> job_inv m a j -> job_inv m' a' j.
Proof.
  intros Hm Ha [H1 H2 H3 H4 H5 H6]. split; auto.
  - by eapply snapshot_stable.
  - intros Hs Hc. destruct (H5 Hs Hc) as (t & Ht & Hr). destruct (Hm _ _ Ht) as (t' & Ht' & _ & _ & _ & Hh). eauto.
  - destruct (j_phase j); auto; [destruct H6 as (d & E & Hd); exists d; split; [done|]|]; by eapply sent_mono.
Qed.

(** A step of a job to a phase without rows keeps the rest. *)
Lemma job_inv_done m a j : job_inv m a j -> job_inv m a (with_phase JDone j).
Proof.
  intros [H1 H2 H3 H4 H5 H6]. split; simpl; auto. intros Hs Hc. apply H5; [done|].
  unfold claimed in *. simpl in Hc. rewrite orb_false_r in Hc. by rewrite Hc.
Qed.

Lemma job_inv_finish m a rc j : (rc <? FID_LIMIT = false -> claimed j = true) -> job_inv m a j -> job_inv m a (finish_round rc j).
Proof.
  intros Hc Hj. unfold finish_round. destruct (rc <? FID_LIMIT); [by apply job_inv_done|].
  destruct (j_rounds j) as [|[|n]] eqn:Hn; [by apply job_inv_done..|]. specialize (Hc eq_refl).
  destruct Hj as [H1 H2 H3 H4 H5 H6]. split; simpl; auto; lia.
Qed.

Lemma jobs_alter m m' a a' g i js : stable m m' -> a ⊆ a' -> Forall (job_inv m a) js ->
  (forall j, js !! i = Some j -> job_inv m a j -> job_inv m' a' (g j)) -> Forall (job_inv m' a') (alter g i js).
Proof.
  intros Hm Ha Hjs Hg. apply Forall_lookup. intros k j Hk. rewrite Forall_lookup in Hjs.
  destruct (decide (i = k)) as [<-|Hne].
  - rewrite list_lookup_alter_eq in Hk. destruct (js !! i) as [j'|] eqn:Hj'; simplify_eq/=. eauto.
  - rewrite list_lookup_alter_ne in Hk by done. eapply job_inv_stable; eauto.
Qed.

Definition pending_of (t : Z) (p : option (Z * Z)) : Z :=
  match p with Some (t', n) => if t' =? t then n else 0 | None => 0 end.
Definition counting_of (t : Z) (j : Job) : Z := if t_id (j_task j) =? t then counting j else 0.
Definition total (t : Z) (w : World) : Z := from_option t_fids_total 0 (tasks w !! t).
Definition completed (t : Z) (w : World) : Z := from_option t_fids_completed 0 (tasks w !! t).
Definition drift_of (t : Z) (w : World) : Z := default 0 (drift w !! t).
Definition handled_rows (w : World) : list FidTaskQueue := handled w ≫= snd.

(** The rows of the queue, of the open transactions, and the handled ones. *)
Definition ledger (w : World) : Prop := forall t,
  total t w + drift_of t w + sum_with (pending_of t) (pending w) + rows_of t (handled_rows w) =
  completed t w + sum_with (counting_of t) (jobs w) + rows_of t (created w).

Record Inv (w : World) : Prop := MkInv {
  inv_keys : forall k t, tasks w !! k = Some t -> t_id t = k;
  inv_pending : forall t n, Some (t, n) ∈ pending w -> is_Some (tasks w !! t);
  inv_runs : forall r ts t, r ∈ runs w -> r_phase r = RFqdn ts -> t ∈ ts ->
    snapshot (tasks w) t /\ (forall h, t_running_on_id t = Some h -> h = lc_host_id (r_client r));
  inv_jobs : Forall (job_inv (tasks w) (answered w)) (jobs w);
  inv_rows : created w ≡ₚ queue w ++ (jobs w ≫= held) ++ handled_rows w;
  inv_handled : forall fqdn acts rows, (fqdn, acts, rows) ∈ handled w -> sent (answered w) fqdn rows acts;
  inv_ledger : ledger w }.

Lemma inv_runs_stable m m' (rs : list Run) : stable m m' ->
  (forall r ts t, r ∈ rs -> r_phase r = RFqdn ts -> t ∈ ts ->
    snapshot m t /\ (forall h, t_running_on_id t = Some h -> h = lc_host_id (r_client r))) ->
  forall r ts t, r ∈ rs -> r_phase r = RFqdn ts -> t ∈ ts ->
    snapshot m' t /\ (forall h, t_running_on_id t = Some h -> h = lc_host_id (r_client r)).
Proof. intros Hm Hr r ts t H1 H2 H3. destruct (Hr r ts t H1 H2 H3). split; [by eapply snapshot_stable|done]. Qed.

(** One job goes from [j] to [g j]; the books balance when its share does. *)
Lemma inv_job_step w w' i j g : Inv w -> jobs w !! i = Some j ->
  stable (tasks w) (tasks w') -> (forall k t, tasks w' !! k = Some t -> t_id t = k) ->
  answered w ⊆ answered w' -> pending w' = pending w -> runs w' = runs w -> created w' = created w ->
  jobs w' = alter g i (jobs w) -> job_inv (tasks w') (answered w') (g j) ->
  queue w' ++ held (g j) ++ handled_rows w' ≡ₚ queue w ++ held j ++ handled_rows w ->
  (forall x, x ∈ handled w' -> x ∈ handled w \/ sent (answered w') x.1.1 x.2 x.1.2) ->
  (forall t, total t w' + drift_of t w' + rows_of t (handled_rows w') - completed t w' - counting_of t (g j) =
             total t w + drift_of t w + rows_of t (handled_rows w) - completed t w - counting_of t j) ->
  Inv w'.
Proof.
  intros [I1 I2 I3 I4 I5 I6 I7] Hj Hm Hk Ha Hp Hr Hc Hjs Hg Hq Hh Hl.
  split; [done| | | | | |]; rewrite ?Hp, ?Hr, ?Hc, ?Hjs.
  - intros t n Ht. destruct (I2 t n Ht) as [t' Ht']. destruct (Hm _ _ Ht') as (t'' & -> & _). done.
  - by eapply inv_runs_stable.
  - eapply jobs_alter; eauto. intros j' Hj' _. by simplify_eq.
  - pose proof (bind_alter held g i (jobs w) j Hj) as Hb. rewrite I5.
    apply (Permutation_app_inv_l (held j)). revert Hb Hq.
    generalize (alter g i (jobs w) ≫= held) (jobs w ≫= held) (held j) (held (g j)) (handled_rows w) (handled_rows w') (queue w) (queue w').
    intros B' B h h' H1 H1' Q Q' Hb Hq.
    transitivity ((B ++ h') ++ (Q' ++ H1')); [|rewrite <-Hb; solve_Permutation].
    transitivity (B ++ (Q ++ h ++ H1)); [solve_Permutation|rewrite <-Hq; solve_Permutation].
  - intros fqdn acts rows Hx. destruct (Hh _ Hx) as [Hx'|Hs]; [|done]. eapply sent_mono; [done|by eapply I6].
  - intros t. rewrite Hp, Hc, Hjs, (sum_with_alter _ g i _ j Hj). pose proof (I7 t). pose proof (Hl t). lia.
Qed.

End invariant.

(** * Every turn keeps the invariant *)

Section books.
Context `{Json}.

Lemma total_alter t k f (m : gmap Z Task) a : is_Some (m !! k) -> (forall x, t_fids_total (f x) = t_fids_total x + a) ->
  from_option t_fids_total 0 (alter f k m !! t) = from_option t_fids_total 0 (m !! t) + if k =? t then a else 0.
Proof.
  intros [x Hx] Hf. destruct (Z.eqb_spec k t) as [<-|Hne].
  - rewrite lookup_alter_eq, Hx. apply Hf.
  - rewrite lookup_alter_ne by done. lia.
Qed.

Lemma completed_alter t k f (m : gmap Z Task) a : is_Some (m !! k) ->
  (forall x, t_fids_completed (f x) = t_fids_completed x + a) ->
  from_option t_fids_completed 0 (alter f k m !! t) = from_option t_fids_completed 0 (m !! t) + if k =? t then a else 0.
Proof.
  intros [x Hx] Hf. destruct (Z.eqb_spec k t) as [<-|Hne].
  - rewrite lookup_alter_eq, Hx. apply Hf.
  - rewrite lookup_alter_ne by done. lia.
Qed.

Lemma bump_lookup t k d m : default 0 (bump k d m !! t) = default 0 (m !! t) + if k =? t then d else 0.
Proof.
  unfold bump. destruct (Z.eqb_spec k t) as [<-|Hne].
  - by rewrite lookup_insert_eq.
  - rewrite lookup_insert_ne by done. lia.
Qed.

Lemma keys_alter (f : Task -> Task) k (m : gmap Z Task) : (forall x, t_id (f x) = t_id x) ->
  (forall k t, m !! k = Some t -> t_id t = k) -> forall k' t, alter f k m !! k' = Some t -> t_id t = k'.
Proof.
  intros Hf Hm k' t Ht. destruct (decide (k = k')) as [<-|Hne].
  - rewrite lookup_alter_eq in Ht. destruct (m !! k) as [x|] eqn:Hx; simplify_eq/=. rewrite Hf. auto.
  - rewrite lookup_alter_ne in Ht by done. auto.
Qed.

Lemma handled_rows_app l f acts rows : (l ++ [(f, acts, rows)] : list (string * list string * list FidTaskQueue)) ≫= snd
  = (l ≫= snd) ++ rows.
Proof. rewrite bind_app. simpl. by rewrite app_nil_r. Qed.

Lemma job_of w i j : Inv w -> jobs w !! i = Some j -> job_inv (tasks w) (answered w) j.
Proof. intros HI Hj. eapply Forall_lookup_1; [by apply inv_jobs|done]. Qed.

Lemma job_task_known m a j : job_inv m a j -> is_Some (m !! t_id (j_task j)).
Proof. intros [(t & Ht & _) _ _ _ _ _]. eauto. Qed.

(** A turn that only moves a job, without rows or counts. *)
Lemma inv_set_job w i j g : Inv w -> jobs w !! i = Some j -> job_inv (tasks w) (answered w) (g j) ->
  held (g j) = held j -> counting (g j) = counting j -> t_id (j_task (g j)) = t_id (j_task j) ->
  Inv (upd_jobs (alter g i) w).
Proof.
  intros HI Hj Hg Hh Hc Ht. eapply (inv_job_step w _ i j g); simpl; eauto; try apply HI; try done.
  - by rewrite Hh.
  - intros t. unfold counting_of. by rewrite Hc, Ht.
Qed.

(** A job gives its rows back. *)
Lemma inv_give_back w i j g : Inv w -> jobs w !! i = Some j -> job_inv (tasks w) (answered w) (g j) ->
  held (g j) = [] -> counting (g j) = 0 -> counting j = 0 ->
  Inv (upd_queue (fun q => q ++ held j) (upd_jobs (alter g i) w)).
Proof.
  intros HI Hj Hg Hh Hc Hc'. eapply (inv_job_step w _ i j g); simpl; eauto; try apply HI; try done.
  - rewrite Hh. simpl. by rewrite <-app_assoc.
  - intros t. unfold counting_of. rewrite Hc, Hc'. by repeat case_match.
Qed.

Lemma finish_round_rest rc j : held (finish_round rc j) = [] /\ counting (finish_round rc j) = 0 /\ j_task (finish_round rc j) = j_task j.
Proof. unfold finish_round. by repeat case_match. Qed.

End books.

Lemma counting_phase `{Json} p j : counting (with_phase p j) = match p with JCount c _ => c | _ => 0 end.
Proof. done. Qed.

(** Both sides of the ledger, down to the tables. *)
Ltac books := unfold total, completed, drift_of, counting_of, handled_rows; cbn [tasks drift handled jobs upd_tasks upd_queue upd_jobs
  upd_drift upd_fid_errors upd_handled upd_answered update_task set_job end_round store_rows j_task j_phase];
  rewrite ?counting_phase; cbn [with_phase j_task].
(** The conditions under which a turn gives a world. *)
Ltac open_turn E :=
  unfold mbind, option_bind in E;
  repeat match type of E with context [match ?x with _ => _ end] => destruct x eqn:?; try discriminate E end;
  injection E as <-.
Ltac by_cases := repeat case_match; simpl; lia.

Section turns.
Context `{Json}.
Context (POOL_LIMIT : nat) (args_of : value -> option (gmap string string)).
Context (incoming : string -> option (string * option value)) (json_object : value).

Lemma inv_done w i j : Inv w -> jobs w !! i = Some j -> held j = [] -> counting j = 0 -> Inv (set_job i JDone w).
Proof.
  intros HI Hj Hh Hc. eapply inv_set_job; eauto. by apply job_inv_done, (job_of _ i).
Qed.

Lemma inv_end_round w i j rc : Inv w -> jobs w !! i = Some j -> held j = [] -> counting j = 0 ->
  (rc <? FID_LIMIT = false -> claimed j = true) -> Inv (end_round i rc w).
Proof.
  intros HI Hj Hh Hc Hrc. destruct (finish_round_rest rc j) as (E1 & E2 & E3).
  eapply inv_set_job; eauto; [by apply job_inv_finish, (job_of _ i)|congruence..].
Qed.

Lemma job_inv_take m a j : job_inv m a j -> (t_single_runner (j_task j) = true ->
    exists t, m !! t_id (j_task j) = Some t /\ t_running_on_id t = Some (j_host_id j)) ->
  job_inv m a (with_phase JTake j).
Proof. intros [H1 H2 H3 H4 H5 H6] Hc. split; simpl; auto. Qed.

Lemma send_work_start_inv w i w' : send_work_start args_of i w = Some w' -> Inv w -> Inv w'.
Proof.
  unfold send_work_start. intros E HI. destruct (jobs w !! i) as [j|] eqn:Hj; [|done]. simpl in E.
  pose proof (job_of w i j HI Hj) as Hji. pose proof Hji as [Hsnap Hhost _ _ _ _]. destruct Hsnap as (t & Ht & St).
  assert (held j = [] /\ counting j = 0) as [Hh Hc] by (unfold held, counting; by destruct (j_phase j)).
  destruct (j_phase j) eqn:Hph; try done. injection E as <-.
  destruct (args_of _); [|by eapply inv_done]. rewrite Ht. destruct (t_single_runner (j_task j)) eqn:Hsr; simpl.
  - case_bool_decide as Hro; [case_bool_decide as Hro'|].
    + eapply (inv_job_step w _ i j (with_phase JTake)); simpl; eauto; try apply HI; try done.
      * apply stable_alter. intros t' Ht'. simplify_eq. repeat split; simpl. by intros h; rewrite Hro'.
      * apply keys_alter; [done|apply HI].
      * apply job_inv_take.
        { eapply job_inv_stable; [|done|done]. apply stable_alter. intros t' Ht'. simplify_eq.
          repeat split; simpl. by intros h; rewrite Hro'. }
        intros _. rewrite lookup_alter_eq, Ht. by eexists.
      * by rewrite Hh.
      * intros k. books. rewrite Hc.
        rewrite (total_alter _ _ _ _ 0), (completed_alter _ _ _ _ 0) by (eauto || (intros; simpl; lia)).
        by_cases.
    + eapply inv_end_round; eauto. done.
    + eapply inv_set_job; eauto. apply job_inv_take; [done|]. intros _. exists t. split; [done|].
      destruct (t_running_on_id (j_task j)) as [h|] eqn:Hr; [|done]. rewrite <-(Hhost h eq_refl). by apply St.
  - eapply inv_set_job; eauto. apply job_inv_take; [done|]. by rewrite Hsr.
Qed.

Lemma filter_split {A} (q : A -> bool) (l : list A) : List.filter (fun x => negb (q x)) l ++ List.filter q l ≡ₚ l.
Proof.
  induction l as [|x l IH]; [done|]. simpl. destruct (q x); simpl; [|by rewrite IH].
  rewrite <-Permutation_middle. by rewrite IH.
Qed.

Lemma take_rows_inv w i ids w' : take_rows i ids w = Some w' -> Inv w -> Inv w'.
Proof.
  unfold take_rows. intros E HI. destruct (jobs w !! i) as [j|] eqn:Hj; [|done]. simpl in E.
  pose proof (job_of w i j HI Hj) as Hji.
  assert (held j = [] /\ counting j = 0) as [Hh Hc] by (unfold held, counting; by destruct (j_phase j)).
  destruct (j_phase j) eqn:Hph; try done.
  set (chosen := fun r => of_task (t_id (j_task j)) r && bool_decide (ft_id r ∈ ids)) in E.
  case_decide as Hd; [|done]. clear Hd. injection E as <-. case_bool_decide as Hr; [by eapply inv_end_round|]. clear Hr.
  eapply (inv_job_step w _ i j (with_phase _)); simpl; eauto; try apply HI; try done.
  - destruct Hji as [H1 H2 H3 H4 H5 H6]. split; simpl; auto.
    + unfold held. simpl. apply Forall_forall. intros r [_ Hr]%elem_of_filter_fn.
      unfold chosen, of_task in Hr. apply andb_prop in Hr as [Hr _]. by apply Z.eqb_eq.
    + intros Hs _. apply H5; [done|]. unfold claimed. rewrite Hph. by rewrite orb_true_r.
    + exists []. split; [done|]. by intros x Hx%elem_of_nil.
  - rewrite Hh, app_nil_l, (assoc_L (++)). apply Permutation_app_tail, filter_split.
  - intros t. unfold counting_of. rewrite Hc. simpl. by repeat case_match.
Qed.

Lemma job_error_inv w i w' : job_error i w = Some w' -> Inv w -> Inv w'.
Proof.
  unfold job_error. intros E HI. destruct (jobs w !! i) as [j|] eqn:Hj; [|done]. simpl in E.
  destruct (j_phase j) eqn:Hph; simplify_eq; eapply inv_done; eauto; unfold held, counting; by rewrite Hph.
Qed.

Lemma add_completed_inv w i ok w' : add_completed i ok w = Some w' -> Inv w -> Inv w'.
Proof.
  unfold add_completed. intros E HI. destruct (jobs w !! i) as [j|] eqn:Hj; [|done]. simpl in E.
  pose proof (job_of w i j HI Hj) as Hji. pose proof (job_task_known _ _ _ Hji) as Hkn.
  destruct (j_phase j) as [| | | |c f|] eqn:Hph; try done. injection E as <-.
  assert (held j = [] /\ counting j = c /\ claimed j = true) as (Hh & Hc & Hcl)
    by (unfold held, counting, claimed; rewrite Hph; by rewrite orb_true_r).
  destruct ok.
  - destruct (finish_round_rest c j) as (E1 & E2 & E3).
    assert (Hst : stable (tasks w) (alter (with_completed c f) (t_id (j_task j)) (tasks w))) by (by apply stable_alter).
    eapply (inv_job_step w _ i j (finish_round c)); simpl; eauto; try apply HI; try done.
    + apply keys_alter; [done|apply HI].
    + apply job_inv_finish; [done|by eapply job_inv_stable].
    + by rewrite E1, Hh.
    + intros t. books. rewrite E2, E3, Hc.
      rewrite (total_alter _ _ _ _ 0), (completed_alter _ _ _ _ c) by (done || (intros; simpl; lia)).
      by_cases.
  - eapply (inv_job_step w _ i j (with_phase JDone)); simpl; eauto; try apply HI; try done.
    + by apply job_inv_done.
    + by rewrite Hh.
    + intros t. books. rewrite bump_lookup, Hc.
      by_cases.
Qed.

(** A job in its transaction. *)
Lemma held_send j rows acts f e b : j_phase j = JSend rows acts f e b -> held j = rows /\ counting j = 0 /\ claimed j = true.
Proof. intros Hph. unfold held, counting, claimed. rewrite Hph. by rewrite orb_true_r. Qed.

Lemma held_commit j rows f e b : j_phase j = JCommit rows f e b -> held j = rows /\ counting j = 0 /\ claimed j = true.
Proof. intros Hph. unfold held, counting, claimed. rewrite Hph. by rewrite orb_true_r. Qed.

Lemma rollback_inv w i j rows acts f e b : Inv w -> jobs w !! i = Some j -> j_phase j = JSend rows acts f e b ->
  Inv (rollback i rows w).
Proof.
  intros HI Hj Hph. destruct (held_send _ _ _ _ _ _ Hph) as (<- & Hc & Hcl).
  destruct (finish_round_rest 0 j) as (E1 & E2 & E3).
  eapply inv_give_back; eauto. by apply job_inv_finish, (job_of _ i).
Qed.

(** The next action, or the commit, is sent: [x] was answered. *)
Lemma job_inv_next m a j rows x acts f e b f' e' b' : job_inv m a j -> j_phase j = JSend rows (x :: acts) f e b ->
  job_inv m (a ++ [(j_fqdn j, "action." +:+ x, rows)]) (with_phase (JSend rows acts f' e' b') j).
Proof.
  intros [H1 H2 H3 H4 H5 H6] Hph. destruct (held_send _ _ _ _ _ _ Hph) as (Hh & Hc & Hcl).
  rewrite Hph in H6. destruct H6 as (d & Hd & Hs). rewrite Hh in H4. split; simpl; auto.
  - exists (d ++ [x]). split; [by rewrite Hd, <-app_assoc|]. intros y [Hy| ->%list_elem_of_singleton]%elem_of_app.
    + apply elem_of_app. left. by apply Hs.
    + apply elem_of_app. right. by apply list_elem_of_singleton.
Qed.

Lemma job_inv_sent m a j rows f e b f' e' b' : job_inv m a j -> j_phase j = JSend rows [] f e b ->
  job_inv m a (with_phase (JCommit rows f' e' b') j).
Proof.
  intros [H1 H2 H3 H4 H5 H6] Hph. destruct (held_send _ _ _ _ _ _ Hph) as (Hh & Hc & Hcl).
  rewrite Hph in H6. destruct H6 as (d & Hd & Hs). rewrite Hh in H4. split; simpl; auto.
  - rewrite Hd, app_nil_r. done.
Qed.

(** An answer is recorded. *)
Lemma inv_answered w x : Inv w -> Inv (upd_answered (fun l => l ++ [x]) w).
Proof.
  intros [I1 I2 I3 I4 I5 I6 I7]. assert (answered w ⊆ answered w ++ [x]) by set_solver.
  split; simpl; auto.
  - eapply Forall_impl; [done|]. intros j. by apply job_inv_stable.
  - intros fqdn acts rows Hx. eapply sent_mono; eauto.
Qed.

Lemma inv_next w i j rows x acts f e b f' e' b' : Inv w -> jobs w !! i = Some j ->
  j_phase j = JSend rows (x :: acts) f e b ->
  Inv (set_job i (JSend rows acts f' e' b') (upd_answered (fun l => l ++ [(j_fqdn j, "action." +:+ x, rows)]) w)).
Proof.
  intros HI Hj Hph. destruct (held_send _ _ _ _ _ _ Hph) as (Hh & Hc & Hcl).
  eapply inv_set_job; [by apply inv_answered|done| |done..]. simpl. eapply job_inv_next; [by eapply job_of|done].
Qed.

Lemma fold_bump_lookup (js : list Job) m t :
  default 0 (foldr (fun j => bump (t_id (j_task j)) (- counting j)) m js !! t) = default 0 (m !! t) - sum_with (counting_of t) js.
Proof.
  induction js as [|j js IH]; simpl; [lia|]. rewrite bump_lookup, IH.
  change (counting_of t j) with (if t_id (j_task j) =? t then counting j else 0). case_match; lia.
Qed.

Lemma kill_held (dies : Job -> bool) (js : list Job) :
  (js ≫= held) ≡ₚ (List.filter dies js ≫= held) ++ (((fun j => if dies j then with_phase JDone j else j) <$> js) ≫= held).
Proof.
  induction js as [|j js IH]; [done|]. simpl. destruct (dies j); simpl; rewrite IH at 1.
  - unfold held at 4. simpl. by rewrite <-(assoc_L (++)).
  - solve_Permutation.
Qed.

Lemma kill_counting (dies : Job -> bool) (js : list Job) t :
  sum_with (counting_of t) js = sum_with (counting_of t) (List.filter dies js) +
    sum_with (counting_of t) ((fun j => if dies j then with_phase JDone j else j) <$> js).
Proof.
  induction js as [|j js IH]; [done|]. rewrite fmap_cons, !sum_with_cons. cbn [List.filter].
  destruct (dies j); rewrite ?sum_with_cons, IH; [|lia].
  assert (counting_of t (with_phase JDone j) = 0) as -> by (unfold counting_of; by case_match). lia.
Qed.

Lemma kill_inv dies w : Inv w -> Inv (kill dies w).
Proof.
  intros [I1 I2 I3 I4 I5 I6 I7]. split; simpl; auto.
  - intros r ts t (r' & -> & Hr')%list_elem_of_fmap Hp Ht.
    destruct (dies r'); [destruct (r_phase r') eqn:Ep; simplify_eq/=|]; [congruence|by apply (I3 r' ts)].
  - apply Forall_fmap. eapply Forall_impl; [done|]. intros j Hj. simpl. case_match; [by apply job_inv_done|done].
  - rewrite I5, (kill_held (dying dies w) (jobs w)). unfold handled_rows. simpl. solve_Permutation.
  - intros t. specialize (I7 t). unfold total, completed, drift_of, handled_rows in *. simpl.
    rewrite fold_bump_lookup. rewrite (kill_counting (dying dies w) (jobs w) t) in I7. lia.
Qed.

Lemma panic_inv i w : Inv w -> Inv (panic i w).
Proof. intros. unfold panic. case_match; [by apply kill_inv|done]. Qed.

Lemma send_action_inv w i a w' : send_action i a w = Some w' -> Inv w -> Inv w'.
Proof.
  unfold send_action. intros E HI. destruct (jobs w !! i) as [j|] eqn:Hj; [|done]. simpl in E.
  pose proof (job_of w i j HI Hj) as Hji.
  destruct (j_phase j) as [| |rows [|x acts] f e b| | |] eqn:Hph; try done; injection E as <-;
    destruct (held_send _ _ _ _ _ _ Hph) as (Hh & Hc & Hcl).
  - eapply inv_set_job; eauto. by eapply job_inv_sent.
  - destruct a as [| |err|errors inserts].
    + by eapply rollback_inv.
    + rewrite <-Hh. eapply inv_give_back; eauto. by apply job_inv_done.
    + by eapply rollback_inv.
    + destruct (t_keep_failed _); [|by eapply inv_next].
      destruct (keep_errors _ _ _ _ _) as [[e' b']|]; [by eapply inv_next|by apply panic_inv, inv_answered].
Qed.

Definition no_rows (p : Phase) : Prop := match p with JSend _ _ _ _ _ | JCommit _ _ _ _ => False | _ => True end.

Lemma job_inv_plain m a j p : claimed j = true -> job_inv m a j -> held (with_phase p j) = [] ->
  no_rows p -> job_inv m a (with_phase p j).
Proof.
  intros Hcl [H1 H2 H3 H4 H5 H6] Hh Hp. split; simpl; auto.
  - rewrite Hh. constructor.
  - by destruct p.
Qed.

(** The transaction of a job is stored; what is not then counted is off. *)
Lemma inv_store w i j rows f e b p e' d : Inv w -> jobs w !! i = Some j -> j_phase j = JCommit rows f e b -> no_rows p ->
  (forall t, default 0 (d !! t) = drift_of t w + if t_id (j_task j) =? t then counting (with_phase p j) - Z.of_nat (length rows) else 0) ->
  Inv (set_job i p (upd_drift (fun _ => d) (store_rows j rows e' w))).
Proof.
  intros HI Hj Hph Hp Hd. pose proof (job_of w i j HI Hj) as Hji. pose proof (ji_rows _ _ _ Hji) as Hrows.
  pose proof (ji_sent _ _ _ Hji) as Hsent. rewrite Hph in Hsent.
  destruct (held_commit _ _ _ _ _ Hph) as (Hh & Hc & Hcl). rewrite Hh in Hrows.
  assert (Hn : held (with_phase p j) = []) by (by destruct p).
  eapply (inv_job_step w _ i j (with_phase p)); simpl; eauto; try apply HI; try done.
  - by apply job_inv_plain.
  - rewrite Hn, Hh. unfold handled_rows. simpl. rewrite handled_rows_app. solve_Permutation.
  - intros y [Hy| ->%list_elem_of_singleton]%elem_of_app; auto.
  - intros t. specialize (Hd t). rewrite counting_phase in Hd. revert Hd. books.
    rewrite Hc, handled_rows_app, rows_of_app, (rows_of_all _ _ _ Hrows). intros ->. by_cases.
Qed.

Lemma commit_inv w i c w' : commit i c w = Some w' -> Inv w -> Inv w'.
Proof.
  unfold commit. intros E HI. destruct (jobs w !! i) as [j|] eqn:Hj; [|done]. simpl in E.
  pose proof (job_of w i j HI Hj) as Hji.
  destruct (j_phase j) as [| | |rows f e b| |] eqn:Hph; try done. injection E as <-.
  destruct (held_commit _ _ _ _ _ Hph) as (Hh & Hc & Hcl).
  assert (Hback : Inv (set_job i JDone (upd_queue (fun q => q ++ rows) w))).
  { rewrite <-Hh. change (Inv (upd_queue (fun q => q ++ held j) (set_job i JDone w))).
    eapply inv_give_back; eauto. by apply job_inv_plain. }
  destruct c as [|[]], b; try done.
  - eapply (inv_job_step w _ i j (with_phase _)); simpl; eauto; try apply HI; try done.
    + by apply job_inv_plain.
    + rewrite Hh. unfold held, handled_rows. simpl. solve_Permutation.
    + intros t. books. rewrite Hc, bump_lookup. by_cases.
  - apply (inv_store w i j rows f e false (JCount _ f) e (drift w)); try done.
    intros t. rewrite counting_phase. unfold drift_of. by_cases.
  - apply (inv_store w i j rows f e false JDone e (bump _ _ (drift w))); try done.
    intros t. rewrite bump_lookup, counting_phase. unfold drift_of. by_cases.
Qed.

(** Rows are put into the queue. *)
Lemma insert_rows_inv w t lines count : Inv w -> is_Some (tasks w !! t) -> Inv (insert_rows t lines count w).
Proof.
  intros [I1 I2 I3 I4 I5 I6 I7] Ht. split; simpl; auto.
  - intros t' n [Hx|E%list_elem_of_singleton]%elem_of_app; [by eapply I2|]. by simplify_eq.
  - rewrite I5. unfold handled_rows. simpl. solve_Permutation.
  - intros t'. specialize (I7 t'). unfold total, completed, drift_of, handled_rows in *. simpl.
    rewrite bump_lookup, sum_with_app, rows_of_app, (rows_of_all t _ _ (number_rows_task _ _ _)), number_rows_length.
    simpl. by_cases.
Qed.

Lemma get_task_by_name_known w x t : Inv w -> get_task_by_name x w = Some t -> tasks w !! t_id t = Some t /\ t_name t = x.
Proof.
  unfold get_task_by_name. intros HI E. apply fmap_Some in E as ([k t'] & E & ->).
  apply fmap_Some in E as ([i [k' t'']] & E & [= -> ->]). apply list_find_Some in E as (E & Hn & _). simpl in *.
  apply list_elem_of_lookup_2, elem_of_map_to_list in E. by rewrite (inv_keys w HI _ _ E).
Qed.

Lemma add_total_inv w i ok w' : add_total i ok w = Some w' -> Inv w -> Inv w'.
Proof.
  unfold add_total. intros E HI. destruct (pending w !! i) as [[[t n]|]|] eqn:Hp; try done. simpl in E. injection E as <-.
  assert (Hk : is_Some (tasks w !! t)) by (eapply inv_pending; [done|by eapply list_elem_of_lookup_2]).
  destruct HI as [I1 I2 I3 I4 I5 I6 I7].
  assert (Hsub : forall x, Some x ∈ <[i := None]> (pending w) -> Some x ∈ pending w).
  { intros x (k & Hx)%list_elem_of_lookup_1. apply list_lookup_insert_Some in Hx as [(_ & ? & _)|(_ & Hx)]; [done|].
    by eapply list_elem_of_lookup_2. }
  assert (Hst : stable (tasks w) (alter (with_total n) t (tasks w))) by (by apply stable_alter).
  destruct ok; split; simpl; eauto.
  - by apply keys_alter.
  - intros t' n' Hx%Hsub. destruct (I2 _ _ Hx) as [y Hy]. destruct (Hst _ _ Hy) as (y' & -> & _). done.
  - by eapply inv_runs_stable.
  - eapply Forall_impl; [done|]. intros j. by apply job_inv_stable.
  - intros t'. specialize (I7 t'). unfold total, completed, drift_of, handled_rows in *. simpl.
    rewrite (total_alter _ _ _ _ n), (completed_alter _ _ _ _ 0), (sum_with_insert _ i _ _ _ Hp) by (done || (intros; simpl; lia)).
    simpl. by_cases.
  - intros t'. specialize (I7 t'). unfold total, completed, drift_of, handled_rows in *. simpl.
    rewrite bump_lookup, (sum_with_insert _ i _ _ _ Hp). simpl. by_cases.
Qed.

Lemma insert_task_inv w id start name state sr kf acts args fs w' :
  insert_task id start name state sr kf acts args fs w = Some w' -> Inv w -> Inv w'.
Proof.
  unfold insert_task. intros E [I1 I2 I3 I4 I5 I6 I7]. case_decide as Hid; [|done]. injection E as <-.
  assert (Hst : forall t, stable (tasks w) (<[id := t]> (tasks w))) by (intros t; by apply stable_insert).
  split; simpl; auto.
  - intros k t [[<- <-]|[_ Ht]]%lookup_insert_Some; [done|auto].
  - intros t n Hx. destruct (I2 _ _ Hx) as [y Hy]. destruct (Hst (y) _ _ Hy) as (y' & E & _).
    apply lookup_insert_is_Some'. right. eauto.
  - eapply inv_runs_stable; [apply Hst|done].
  - eapply Forall_impl; [done|]. intros j. apply job_inv_stable; [apply Hst|done].
  - intros t'. specialize (I7 t'). unfold total, completed, drift_of, handled_rows in *. simpl.
    destruct (decide (id = t')) as [<-|Hne]; [|by rewrite lookup_insert_ne by done].
    rewrite lookup_insert_eq. rewrite Hid in I7. simpl in *. lia.
Qed.

(** Turns that change the memory of the runner only. *)
Lemma inv_memory w w' : Inv w -> tasks w' = tasks w -> pending w' = pending w -> answered w' = answered w ->
  queue w' = queue w -> handled w' = handled w -> created w' = created w -> drift w' = drift w -> jobs w' = jobs w ->
  (forall r ts t, r ∈ runs w' -> r_phase r = RFqdn ts -> t ∈ ts ->
    snapshot (tasks w) t /\ (forall h, t_running_on_id t = Some h -> h = lc_host_id (r_client r))) -> Inv w'.
Proof.
  intros [I1 I2 I3 I4 I5 I6 I7] E1 E2 E3 E4 E5 E6 E7 E8 Hr.
  split; unfold ledger, total, completed, drift_of, handled_rows; rewrite ?E1, ?E2, ?E3, ?E4, ?E5, ?E6, ?E7, ?E8; auto.
Qed.

Lemma elem_of_alter {A} (g : A -> A) i (l : list A) x : x ∈ alter g i l -> x ∈ l \/ exists y, l !! i = Some y /\ x = g y.
Proof.
  intros (k & Hk)%list_elem_of_lookup_1. destruct (decide (i = k)) as [<-|Hne].
  - rewrite list_lookup_alter_eq in Hk. destruct (l !! i) as [y|]; simplify_eq/=. eauto.
  - rewrite list_lookup_alter_ne in Hk by done. left. by eapply list_elem_of_lookup_2.
Qed.

Lemma inv_set_run w r p : Inv w ->
  (forall x ts t, runs w !! r = Some x -> p = RFqdn ts -> t ∈ ts ->
    snapshot (tasks w) t /\ (forall h, t_running_on_id t = Some h -> h = lc_host_id (r_client x))) -> Inv (set_run r p w).
Proof.
  intros HI Hp. eapply (inv_memory w); try done. intros r' ts t Hr Hph Ht. simpl in Hr.
  apply elem_of_alter in Hr as [Hr|(y & Hy & ->)]; [by eapply inv_runs|by apply (Hp y ts)].
Qed.

Lemma tasks_per_worker_elem c w t : Inv w -> t ∈ tasks_per_worker c w ->
  tasks w !! t_id t = Some t /\ (t_running_on_id t = None \/ t_running_on_id t = Some (lc_host_id c)).
Proof.
  unfold tasks_per_worker. intros HI. destruct (filesystems w !! _) as [fs|]; [|by intros ?%elem_of_nil].
  intros [Hx Ht]%elem_of_filter_fn. apply list_elem_of_fmap in Hx as ([k t'] & -> & Hx%elem_of_map_to_list). simpl.
  rewrite (inv_keys w HI _ _ Hx). split; [done|]. unfold is_task_for in Ht. by apply bool_decide_eq_true in Ht as (_ & _ & _ & ?).
Qed.

Lemma select_tasks_inv w r w' : select_tasks r w = Some w' -> Inv w -> Inv w'.
Proof.
  unfold select_tasks. intros E HI. destruct (runs w !! r) as [x|] eqn:Hr; [|done]. simpl in E.
  destruct (r_phase x); try done. injection E as <-. apply inv_set_run; [done|].
  intros y ts t Hy [= <-] Ht. simplify_eq. apply tasks_per_worker_elem in Ht as [Ht Hh]; [|done].
  split; [by exists t|]. intros h Ho. destruct Hh as [Hh|Hh]; congruence.
Qed.

Lemma start_tasks_inv w r w' : start_tasks r w = Some w' -> Inv w -> Inv w'.
Proof.
  unfold start_tasks. intros E HI. destruct (runs w !! r) as [x|] eqn:Hr; [|done]. simpl in E.
  destruct (r_phase x) as [|ts| | | |] eqn:Hph; try done. injection E as <-.
  destruct (hosts w !! _) as [fqdn|]; [|by apply inv_set_run]. apply inv_set_run; [|done].
  assert (Hts : forall t, t ∈ ts -> snapshot (tasks w) t /\ (forall h, t_running_on_id t = Some h -> h = lc_host_id (r_client x))).
  { intros t Ht. eapply (inv_runs w HI); eauto. by eapply list_elem_of_lookup_2. }
  destruct HI as [I1 I2 I3 I4 I5 I6 I7]. set (job := fun t => MkJob r fqdn (lc_host_id (r_client x)) t 10 JStart).
  assert (Hheld : (job <$> ts) ≫= held = []) by (clear; induction ts; simpl; auto).
  split; simpl; auto.
  - apply Forall_app. split; [done|]. apply Forall_fmap, Forall_forall. intros t Ht. destruct (Hts t Ht) as [H1 H2].
    split; simpl; auto; try lia; try done.
  - rewrite bind_app, Hheld, app_nil_r. done.
  - intros t. specialize (I7 t). unfold total, completed, drift_of, handled_rows in *. simpl.
    rewrite sum_with_app, (sum_with_zero _ (job <$> ts)); [lia|].
    intros j (t' & -> & _)%list_elem_of_fmap. unfold counting_of. by case_match.
Qed.

(** Whatever happens, the books are kept. *)
Lemma turn_inv l w w' : turn POOL_LIMIT args_of incoming json_object l w = Some w' -> Inv w -> Inv w'.
Proof.
  destruct l; simpl; intros E HI.
  - by eapply insert_task_inv.
  - unfold ingest_data in E. destruct (get_task_by_name name w) as [t|] eqn:Ht; [|done]. simpl in E.
    destruct (convert_lines _ _ _); simplify_eq/=. apply insert_rows_inv; [done|].
    destruct (get_task_by_name_known w name t) as [-> _]; eauto.
  - unfold insert_fidlist in E. case_decide; [|done]. destruct (read_fids fids); simplify_eq/=. by apply insert_rows_inv.
  - by eapply add_total_inv.
  - unfold tick in E. destruct (main_ids w); [done|]. injection E as <-. case_match; [done|]. apply (inv_memory w); try done; apply HI.
  - unfold spawn_workers in E. destruct (main_ids w); [|done]. simpl in E. destruct (available_workers _ _ _); simplify_eq/=.
    eapply (inv_memory w); try done. intros r ts t [Hr|(c & -> & _)%list_elem_of_fmap]%elem_of_app Hph Ht; [by eapply inv_runs|done].
  - by eapply select_tasks_inv.
  - by eapply start_tasks_inv.
  - unfold run_error in E. destruct (runs w !! r) as [x|]; [|done]. simpl in E. destruct (r_phase x); simplify_eq; by apply inv_set_run.
  - unfold release in E. destruct (runs w !! r) as [x|]; [|done]. simpl in E. case_match; [|done].
    injection E as <-. assert (HI' : Inv (set_run r RDone w)) by (by apply inv_set_run).
    apply (inv_memory (set_run r RDone w)); try done; apply HI'.
  - by eapply send_work_start_inv.
  - by eapply take_rows_inv.
  - by eapply send_action_inv.
  - by eapply commit_inv.
  - by eapply add_completed_inv.
  - by eapply job_error_inv.
  - injection E as <-. assert (HI' : Inv (kill (fun _ => true) w)) by (by apply kill_inv).
    apply (inv_memory (kill (fun _ => true) w)); try done; apply HI'.
  - unfold change_tables in E. case_decide; simplify_eq. apply (inv_memory w); try done; apply HI.
Qed.

Lemma run_inv ls w w' : run POOL_LIMIT args_of incoming json_object ls w = Some w' -> Inv w -> Inv w'.
Proof.
  revert w. induction ls as [|l ls IH]; simpl; intros w E HI; [by simplify_eq|].
  destruct (turn _ _ _ _ l w) as [w1|] eqn:E1; [|done]. simpl in E. eapply IH; [done|]. by eapply turn_inv.
Qed.

Lemma initial_inv : Inv initial.
Proof. split; simpl; try done; try (intros; set_solver). Qed.

Definition reachable (w : World) : Prop := exists ls, run POOL_LIMIT args_of incoming json_object ls initial = Some w.

Lemma reachable_inv w : reachable w -> Inv w.
Proof. intros [ls E]. eapply run_inv; [done|apply initial_inv]. Qed.

(** ** Rows *)

Lemma turn_created l w w' : turn POOL_LIMIT args_of incoming json_object l w = Some w' ->
  (created w' = created w /\ next_row w' = next_row w) \/
  exists t lines, created w' = created w ++ number_rows (next_row w) t lines /\ next_row w' = next_row w + Z.of_nat (length lines).
Proof.
  assert (Hp : forall i w, created (panic i w) = created w /\ next_row (panic i w) = next_row w)
    by (intros i w0; unfold panic; by case_match).
  destruct l; cbn [turn]; intros E.
  - unfold insert_task in E. open_turn E. by left.
  - unfold ingest_data in E. open_turn E. right. by eexists _, _.
  - unfold insert_fidlist in E. open_turn E. right. by eexists _, _.
  - unfold add_total in E. open_turn E; by left.
  - unfold tick in E. open_turn E; by left.
  - unfold spawn_workers in E. open_turn E; by left.
  - unfold select_tasks in E. open_turn E; by left.
  - unfold start_tasks in E. open_turn E; by left.
  - unfold run_error in E. open_turn E; by left.
  - unfold release in E. open_turn E; by left.
  - unfold send_work_start in E. open_turn E; by left.
  - unfold take_rows in E. open_turn E; by left.
  - unfold send_action in E. open_turn E; left; try done. by rewrite !(proj1 (Hp _ _)), !(proj2 (Hp _ _)).
  - unfold commit in E. open_turn E; by left.
  - unfold add_completed in E. open_turn E; by left.
  - unfold job_error in E. open_turn E; by left.
  - injection E as <-. by left.
  - unfold change_tables in E. open_turn E; by left.
Qed.

Lemma number_rows_ids id t lines :
  NoDup (ft_id <$> number_rows id t lines) /\ Forall (fun r => id <= ft_id r < id + Z.of_nat (length lines)) (number_rows id t lines).
Proof.
  revert id. induction lines as [|[f d] lines IH]; intros id; [by repeat constructor|].
  destruct (IH (id + 1)) as [IH1 IH2]. simpl. split; constructor; simpl; auto; try lia.
  - intros (r & E & Hr)%list_elem_of_fmap. rewrite Forall_forall in IH2. specialize (IH2 r Hr). lia.
  - eapply Forall_impl; [done|]. simpl. lia.
Qed.

Lemma created_ids w : reachable w -> NoDup (ft_id <$> created w) /\ Forall (fun r => ft_id r < next_row w) (created w).
Proof.
  intros [ls E]. assert (G : forall w0, run POOL_LIMIT args_of incoming json_object ls w0 = Some w ->
    NoDup (ft_id <$> created w0) /\ Forall (fun r => ft_id r < next_row w0) (created w0) ->
    NoDup (ft_id <$> created w) /\ Forall (fun r => ft_id r < next_row w) (created w)).
  { clear E. induction ls as [|l ls IH]; simpl; intros w0 E HI; [by simplify_eq|].
    destruct (turn _ _ _ _ l w0) as [w1|] eqn:E1; [|done]. eapply IH; [done|]. destruct HI as [H1 H2].
    apply turn_created in E1 as [[-> ->]|(t & lines & -> & ->)]; [done|].
    destruct (number_rows_ids (next_row w0) t lines) as [N1 N2]. split.
    - rewrite fmap_app. apply NoDup_app. split; [done|]. split; [|done].
      intros x (r & -> & Hr)%list_elem_of_fmap (r' & E' & Hr')%list_elem_of_fmap.
      rewrite Forall_forall in H2, N2. specialize (H2 r Hr). specialize (N2 r' Hr'). lia.
    - apply Forall_app. split; eapply Forall_impl; eauto; simpl; lia. }
  apply (G _ E). simpl. by repeat constructor.
Qed.

(** C11: No row is lost and none is in two places: a row that was inserted is in the queue, in
    the one transaction that has taken it, or its deletion was committed; and then every
    action of its task was answered with success, on one host, for a chunk it was in. *)
Theorem rows_accounted w (Hw : reachable w) :
  created w ≡ₚ queue w ++ (jobs w ≫= held) ++ handled_rows w /\ NoDup (ft_id <$> created w) /\
  forall fqdn acts rows, (fqdn, acts, rows) ∈ handled w -> forall x, x ∈ acts -> (fqdn, "action." +:+ x, rows) ∈ answered w.
Proof.
  pose proof (reachable_inv w Hw) as HI. split; [by apply inv_rows|]. split; [by apply created_ids|by apply inv_handled].
Qed.

(** ** Counts *)

Lemma rows_of_bind t (js : list Job) : rows_of t (js ≫= held) = sum_with (fun j => rows_of t (held j)) js.
Proof. induction js as [|j js IH]; [done|]. by rewrite bind_cons, rows_of_app, IH. Qed.

(** The counts of a task against its rows, at any moment. *)
Lemma counts_ledger w t : reachable w ->
  total t w + drift_of t w + sum_with (pending_of t) (pending w) =
  completed t w + rows_of t (queue w) + sum_with (fun j => rows_of t (held j)) (jobs w) + sum_with (counting_of t) (jobs w).
Proof.
  intros Hw. pose proof (reachable_inv w Hw) as HI. pose proof (inv_ledger w HI t) as Hl.
  rewrite (inv_rows w HI), !rows_of_app, rows_of_bind in Hl. lia.
Qed.

(** Labels that report no failure: every statement succeeds, every identifier can be read,
    and the runner is not stopped. *)
Definition readable (s : string) : bool := match LustreFid_from_str s with Some (Ok _) => true | _ => false end.

Definition label_ok (l : Label) : bool :=
  match l with
  | LFidlist fids _ => forallb readable fids
  | LTotal _ ok | LCount _ ok => ok
  | LSend _ (AgentDone errors inserts) => forallb (fun e => readable (fe_fid e)) errors && forallb id inserts
  | LCommit _ c => match c with CommitOk => true | _ => false end
  | LRestart => false
  | _ => true
  end.

Definition not_aborted (j : Job) : Prop := match j_phase j with JSend _ _ _ _ b | JCommit _ _ _ b => b = false | _ => True end.

Lemma read_fids_length fids : forallb readable fids = true -> exists xs, read_fids fids = Some xs /\ length xs = length fids.
Proof.
  induction fids as [|x fids IH]; [by exists []|]. simpl. intros [Hx Hr]%andb_prop. destruct (IH Hr) as (xs & -> & Hl).
  unfold readable in Hx. destruct (LustreFid_from_str x) as [[fid|e]|]; try done. exists (fid :: xs). simpl. by rewrite Hl.
Qed.

Lemma keep_errors_ok t errors inserts errs :
  forallb (fun e => readable (fe_fid e)) errors = true -> forallb id inserts = true ->
  exists errs', keep_errors t errors inserts errs false = Some (errs', false).
Proof.
  revert inserts errs. induction errors as [|e errors IH]; intros inserts errs; [by eexists|]. simpl.
  intros [He Hr]%andb_prop Hi. unfold readable in He. destruct (LustreFid_from_str _) as [[fid|x]|]; try done.
  destruct inserts as [|[] inserts]; try done; by apply IH.
Qed.

Definition exact (w : World) : Prop := (forall t, drift_of t w = 0) /\ Forall not_aborted (jobs w).

Lemma exact_job w w' i g : exact w -> drift w' = drift w -> jobs w' = alter g i (jobs w) ->
  (forall j, jobs w !! i = Some j -> not_aborted j -> not_aborted (g j)) -> exact w'.
Proof.
  intros [H1 H2] Hd Hj Hg. split; [intros t; unfold drift_of; rewrite Hd; apply H1|]. rewrite Hj. by apply Forall_alter.
Qed.

Lemma not_aborted_finish rc j : not_aborted (finish_round rc j).
Proof. unfold finish_round. by repeat case_match. Qed.

Lemma exact_same w w' : exact w -> drift w' = drift w -> jobs w' = jobs w -> exact w'.
Proof. unfold exact, drift_of. by intros HI -> ->. Qed.

Lemma exact_insert w t lines count : exact w -> Z.of_nat (length lines) = count -> exact (insert_rows t lines count w).
Proof.
  intros [H1 H2] Hc. split; [|done]. intros t'. unfold drift_of. simpl. rewrite bump_lookup. specialize (H1 t'). unfold drift_of in H1.
  by_cases.
Qed.

#[local] Hint Resolve not_aborted_finish : core.

Lemma turn_exact l w w' : turn POOL_LIMIT args_of incoming json_object l w = Some w' -> label_ok l = true -> exact w -> exact w'.
Proof.
  destruct l; cbn [turn label_ok]; intros E Hl HI.
  - unfold insert_task in E. open_turn E. by apply (exact_same w).
  - unfold ingest_data in E. open_turn E. by apply exact_insert.
  - unfold insert_fidlist in E. open_turn E. apply exact_insert; [done|]. rewrite length_fmap.
    destruct (read_fids_length fids Hl) as (xs & Hx & <-). by simplify_eq.
  - unfold add_total in E. open_turn E; [by apply (exact_same w)|done].
  - unfold tick in E. open_turn E; by apply (exact_same w).
  - unfold spawn_workers in E. open_turn E; by apply (exact_same w).
  - unfold select_tasks in E. open_turn E; by apply (exact_same w).
  - unfold start_tasks in E. open_turn E; [|by apply (exact_same w)]. destruct HI as [H1 H2]. split; [done|].
    simpl. apply Forall_app. split; [done|]. by apply Forall_fmap, Forall_true.
  - unfold run_error in E. open_turn E; by apply (exact_same w).
  - unfold release in E. open_turn E; by apply (exact_same w).
  - unfold send_work_start in E. open_turn E; by eapply (exact_job w).
  - unfold take_rows in E. open_turn E; by eapply (exact_job w).
  - unfold send_action in E. destruct (jobs w !! i) as [j|] eqn:Hj; [|done]. simpl in E.
    assert (Hna : not_aborted j) by (eapply Forall_lookup_1; [apply HI|done]).
    destruct (j_phase j) as [| |rows [|x acts] f e b| | |] eqn:Hph; try done; unfold not_aborted in Hna; rewrite Hph in Hna;
      subst b; injection E as <-; [by eapply (exact_job w)|].
    destruct a as [| |err|errors inserts]; [by eapply (exact_job w)..|]. apply andb_prop in Hl as [He Hi].
    destruct (keep_errors_ok (t_id (j_task j)) errors inserts e He Hi) as (e' & ->).
    case_match; by eapply (exact_job w).
  - destruct c as [|]; [|done]. unfold commit in E. destruct (jobs w !! i) as [j|] eqn:Hj; [|done]. simpl in E.
    assert (Hna : not_aborted j) by (eapply Forall_lookup_1; [apply HI|done]).
    destruct (j_phase j) as [| | |rows f e b| |] eqn:Hph; try done. unfold not_aborted in Hna. rewrite Hph in Hna. subst b.
    injection E as <-. by eapply (exact_job w).
  - subst ok. unfold add_completed in E. open_turn E; by eapply (exact_job w).
  - unfold job_error in E. open_turn E; by eapply (exact_job w).
  - done.
  - unfold change_tables in E. open_turn E; by apply (exact_same w).
Qed.

(** C12: The counts of a task are right: while no failure is reported, the rows it is waiting for
    are its total less the completed ones, once nothing is in between; so its rows are
    exactly what a worker on its file system is then told to work on. *)
Theorem counts_exact ls w (Hrun : run POOL_LIMIT args_of incoming json_object ls initial = Some w) (Hok : forallb label_ok ls = true)
    (Hpending : Forall (fun p => p = None) (pending w)) (Hjobs : forallb job_done (jobs w) = true) :
  (forall t, total t w - completed t w = rows_of t (queue w)) /\
  forall c t fs, filesystems w !! lc_filesystem c = Some fs -> tasks w !! t_id t = Some t ->
    (t ∈ tasks_per_worker c w <->
     t_filesystem_id t = fs /\ t_state t <> "closed" /\ 0 < rows_of (t_id t) (queue w) /\
     (t_running_on_id t = None \/ t_running_on_id t = Some (lc_host_id c))).
Proof.
  assert (Hr : reachable w) by (by exists ls).
  assert (Hx : exact w).
  { assert (Hx0 : exact initial) by (by split). clear Hr Hpending Hjobs. revert Hx0 Hrun. generalize (initial (H := H)) as w0.
    induction ls as [|l ls IH]; simpl; intros w0 Hx0 E; [by simplify_eq|]. apply andb_prop in Hok as [Hl Hok].
    destruct (turn _ _ _ _ l w0) as [w1|] eqn:E1; [|done]. eapply IH; [done| |done]. by eapply turn_exact. }
  assert (Hq : forall t, total t w - completed t w = rows_of t (queue w)).
  { intros t. pose proof (counts_ledger w t Hr) as Hl. rewrite (proj1 Hx) in Hl.
    assert (Hd : forall j, j ∈ jobs w -> j_phase j = JDone).
    { intros j Hj. rewrite forallb_forall in Hjobs. specialize (Hjobs j (proj1 (list_elem_of_In _ _) Hj)).
      unfold job_done in Hjobs. by destruct (j_phase j). }
    rewrite (sum_with_zero (pending_of t)), (sum_with_zero (fun j => rows_of t (held j))), (sum_with_zero (counting_of t)) in Hl; [lia|..].
    - intros j Hj%Hd. unfold counting_of, counting. rewrite Hj. by case_match.
    - intros j Hj%Hd. unfold held. by rewrite Hj.
    - intros p Hp. rewrite Forall_forall in Hpending. by rewrite (Hpending p Hp). }
  split; [done|]. intros c t fs Hfs Ht. unfold tasks_per_worker. rewrite Hfs, elem_of_filter_fn. unfold is_task_for.
  rewrite bool_decide_eq_true. specialize (Hq (t_id t)). unfold total, completed in Hq. rewrite Ht in Hq. simpl in Hq.
  assert (t ∈ (map_to_list (tasks w)).*2) by (apply list_elem_of_fmap; exists (t_id t, t); split; [done|by apply elem_of_map_to_list]).
  split; intuition lia.
Qed.

(** ** Hosts *)

(** C19: A task that is to have a single runner runs on one host: whatever is in the middle of
    working on it is on the host that the table names. *)
Theorem single_runner_host w (Hw : reachable w) j1 j2 (H1 : j1 ∈ jobs w) (H2 : j2 ∈ jobs w)
    (Ht : t_id (j_task j1) = t_id (j_task j2)) (Hs : t_single_runner (j_task j1) = true)
    (Hc1 : claimed j1 = true) (Hc2 : claimed j2 = true) :
  j_host_id j1 = j_host_id j2 /\ exists t, tasks w !! t_id (j_task j1) = Some t /\ t_running_on_id t = Some (j_host_id j1).
Proof.
  pose proof (reachable_inv w Hw) as HI. pose proof (inv_jobs w HI) as Hj. rewrite Forall_forall in Hj.
  destruct (Hj j1 H1) as [(t1 & Ht1 & _ & S1 & _) _ _ _ C1 _]. destruct (Hj j2 H2) as [(t2 & Ht2 & _ & S2 & _) _ _ _ C2 _].
  destruct (C1 Hs Hc1) as (t & E1 & Hh1). split; [|by exists t].
  assert (t_single_runner (j_task j2) = true) as Hs2 by congruence. destruct (C2 Hs2 Hc2) as (t' & E2 & Hh2).
  rewrite Ht, E2 in E1. congruence.
Qed.

(** A worker that has set the host of a task itself still has the row it read before, in which
    no host is set: its second pass finds that the host is set and stops. *)
Theorem single_runner_one_chunk w (Hw : reachable w) i j w' (Hj : jobs w !! i = Some j) (Hs : t_single_runner (j_task j) = true)
    (Hn : t_running_on_id (j_task j) = None) (Hr : (j_rounds j < 10)%nat) (E : send_work_start args_of i w = Some w') :
  exists j', jobs w' !! i = Some j' /\ j_phase j' = JDone.
Proof.
  pose proof (job_of w i j (reachable_inv w Hw) Hj) as [_ _ _ _ Hc _].
  destruct Hc as (t & Ht & Hh); [done|unfold claimed; by apply Nat.ltb_lt in Hr as ->|].
  unfold send_work_start in E. rewrite Hj in E. simpl in E. destruct (j_phase j); try done.
  rewrite Hs, Hn, Ht, Hh in E. simpl in E.
  destruct (args_of _); injection E as <-; simpl; rewrite list_lookup_alter_eq, Hj; by eexists.
Qed.

(** ** The loop of a job ends *)

(** How many turns of its own a job has left. *)
Definition measure (j : Job) : nat :=
  let n := length (t_actions (j_task j)) in
  match j_phase j with
  | JDone => 0
  | p => (j_rounds j - 1) * (n + 5) +
         match p with JStart => n + 5 | JTake => n + 4 | JSend _ acts _ _ _ => length acts + 3 | JCommit _ _ _ _ => 2 | _ => 1 end
  end.

Definition own (i : nat) (l : Label) : bool :=
  match l with
  | LStart k | LTake k _ | LSend k _ | LCommit k _ | LCount k _ | LJobError k => (k =? i)%nat
  | _ => false
  end.

Lemma measure_finish rc j : (0 < measure j)%nat -> (1 <= j_rounds j)%nat -> (measure (finish_round rc j) < measure j)%nat.
Proof.
  unfold finish_round. intros Hm Hr. destruct (rc <? FID_LIMIT); [done|]. destruct (j_rounds j) as [|[|n]] eqn:E; [done..|].
  unfold measure in *. simpl. rewrite E in *. destruct (j_phase j); simpl in *; lia.
Qed.

Lemma lookup_jobs_app (js ks : list Job) i j : js !! i = Some j -> (js ++ ks) !! i = Some j.
Proof. intros Hj. rewrite lookup_app_l; [done|]. by eapply lookup_lt_Some. Qed.

(** The turn of one job, for the others and for itself. *)
Lemma measure_alter w i k j g : jobs w !! i = Some j -> (i = k -> measure (g j) < measure j)%nat ->
  exists j', alter g k (jobs w) !! i = Some j' /\ (measure j' + (if k =? i then 1 else 0) <= measure j)%nat.
Proof.
  intros Hj Hg. destruct (Nat.eqb_spec k i) as [<-|Hne].
  - rewrite list_lookup_alter_eq, Hj. eexists. split; [done|]. specialize (Hg eq_refl). simpl. lia.
  - rewrite list_lookup_alter_ne, Hj by done. eexists. split; [done|lia].
Qed.

Lemma kill_measure dies w i j : jobs w !! i = Some j ->
  exists j', jobs (kill dies w) !! i = Some j' /\ (measure j' <= measure j)%nat /\ (dying dies w j = true -> measure j' = 0%nat).
Proof.
  intros Hj. simpl. rewrite list_lookup_fmap, Hj. eexists. split; [done|].
  destruct (dying dies w j); split; try done; unfold measure; simpl; lia.
Qed.

(** ** Workers *)

Definition live (r : Run) : bool := match r_phase r with RDone | RDead => false | _ => true end.

Record Workers (w : World) : Prop := MkWorkers {
  wk_jobs : Forall (fun j => (j_run j < length (runs w))%nat) (jobs w);
  wk_live : forall r, r ∈ runs w -> live r = true -> lc_id (r_client r) ∈ active_clients w;
  wk_distinct : forall i k r s, runs w !! i = Some r -> runs w !! k = Some s -> live r = true -> live s = true ->
    lc_id (r_client r) = lc_id (r_client s) -> i = k;
  wk_bound : (size (active_clients w) <= POOL_LIMIT)%nat;
  wk_main : forall ids, main_ids w = Some ids -> active_clients w ⊆ list_to_set ids /\ (length ids < POOL_LIMIT)%nat;
  wk_mounts : NoDup (lc_id <$> mounts w) }.

(** Runs can only end, and jobs stay with their runs. *)
Lemma workers_step w w' : Workers w -> length (runs w') = length (runs w) ->
  (forall i r', runs w' !! i = Some r' -> exists r, runs w !! i = Some r /\ r_client r' = r_client r /\ (live r' = true -> live r = true)) ->
  Forall (fun j => (j_run j < length (runs w))%nat) (jobs w') ->
  (forall r, r ∈ runs w' -> live r = true -> lc_id (r_client r) ∈ active_clients w') ->
  active_clients w' ⊆ active_clients w -> (main_ids w' = main_ids w \/ main_ids w' = None) ->
  NoDup (lc_id <$> mounts w') -> Workers w'.
Proof.
  intros [H1 H2 H3 H4 H5 H6] Hl Hr Hj Hlive Ha Hm Hmt. split; auto.
  - by rewrite Hl.
  - intros i k r s Hi Hk Lr Ls E. destruct (Hr i r Hi) as (r' & Hr' & Er & Lr'). destruct (Hr k s Hk) as (s' & Hs' & Es & Ls').
    eapply H3; eauto. congruence.
  - etrans; [by apply subseteq_size|done].
  - intros ids E. destruct Hm as [Hm|Hm]; [|congruence]. rewrite Hm in E. destruct (H5 ids E) as [G1 G2]. split; [set_solver|done].
Qed.

(** Turns that leave the runs as they are. *)
Lemma workers_same w w' : Workers w -> runs w' = runs w -> active_clients w' = active_clients w -> main_ids w' = main_ids w ->
  NoDup (lc_id <$> mounts w') -> Forall (fun j => (j_run j < length (runs w))%nat) (jobs w') -> Workers w'.
Proof.
  intros HW Er Ea Em Hn Hj. apply (workers_step w); rewrite ?Er, ?Ea; auto; try apply HW.
  intros i r. by exists r.
Qed.

Lemma workers_job w w' i g : Workers w -> runs w' = runs w -> active_clients w' = active_clients w -> main_ids w' = main_ids w ->
  mounts w' = mounts w -> jobs w' = alter g i (jobs w) -> (forall j, j_run (g j) = j_run j) -> Workers w'.
Proof.
  intros HW Er Ea Em Hn Ej Hg. eapply (workers_same w); eauto; [rewrite Hn; apply HW|]. rewrite Ej.
  apply Forall_alter; [apply HW|]. intros j _. by rewrite Hg.
Qed.

(** A run goes on. *)
Lemma workers_run w r p x : Workers w -> runs w !! r = Some x -> live x = true -> Workers (set_run r p w).
Proof.
  intros HW Hx Lx. eapply (workers_step w); simpl; auto; try apply HW.
  - by rewrite length_alter.
  - intros i r' Hi. destruct (decide (i = r)) as [->|Hne].
    + rewrite list_lookup_alter_eq, Hx in Hi. simplify_eq/=. by exists x.
    + rewrite list_lookup_alter_ne in Hi by done. by exists r'.
  - intros r' [Hr|(y & Hy & ->)]%elem_of_alter; [by apply HW|]. intros _. simplify_eq. simpl. apply HW; [by eapply list_elem_of_lookup_2|done].
Qed.

Definition killed (dies : Run -> bool) (r : Run) : Run :=
  if dies r then match r_phase r with RDone => r | _ => with_rphase RDead r end else r.

Lemma killed_live dies r : r_client (killed dies r) = r_client r /\ (live (killed dies r) = true -> live r = true).
Proof. unfold killed, live. destruct (dies r); [|done]. by destruct (r_phase r) eqn:E; simpl; rewrite ?E. Qed.

Lemma workers_kill dies w : Workers w -> Workers (kill dies w).
Proof.
  intros HW. eapply (workers_step w); auto; try apply HW.
  - simpl. by rewrite length_fmap.
  - intros i r' Hi. change (runs (kill dies w)) with (killed dies <$> runs w) in Hi. rewrite list_lookup_fmap in Hi.
    destruct (runs w !! i) as [r|]; [|done]. injection Hi as <-. exists r. split; [done|apply killed_live].
  - apply Forall_fmap. eapply Forall_impl; [apply HW|]. intros j Hj. simpl. by case_match.
  - intros r' Hr Hl. change (runs (kill dies w)) with (killed dies <$> runs w) in Hr.
    apply list_elem_of_fmap in Hr as (r & -> & Hr). destruct (killed_live dies r) as [-> Hk]. apply HW; auto.
Qed.

Lemma finish_round_run rc j : j_run (finish_round rc j) = j_run j.
Proof. unfold finish_round. by repeat case_match. Qed.
#[local] Hint Resolve finish_round_run workers_kill : core.

Lemma available_workers_spec ids sel w xs : available_workers POOL_LIMIT ids sel w = Some xs ->
  NoDup (lc_id <$> mounts w) ->
  (length xs <= POOL_LIMIT - length ids)%nat /\ NoDup (lc_id <$> xs) /\ forall c, c ∈ xs -> c ∈ mounts w /\ lc_id c ∉ ids.
Proof.
  unfold available_workers. intros E Hn. case_decide as Hl; [|done]. injection E as <-. split; [lia|]. split.
  - assert (Hf : forall (q : LustreClient -> bool) l, NoDup (lc_id <$> l) -> NoDup (lc_id <$> List.filter q l)).
    { intros q l. induction l as [|c l IH]; [done|]. rewrite fmap_cons. intros [Hc Hl']%NoDup_cons. simpl.
      destruct (q c); [|by apply IH]. rewrite fmap_cons. apply NoDup_cons. split; [|by apply IH].
      intros (c' & E & [Hc' _]%elem_of_filter_fn)%list_elem_of_fmap. apply Hc. rewrite E. by apply list_elem_of_fmap_2. }
    by apply Hf, Hf.
  - intros c [[Hc Ha]%elem_of_filter_fn _]%elem_of_filter_fn. split; [done|]. unfold is_available in Ha.
    by apply bool_decide_eq_true in Ha as (_ & _ & ?).
Qed.

Lemma lookup_app_new {A} (l k : list A) i x : (l ++ k) !! i = Some x ->
  (l !! i = Some x /\ (i < length l)%nat) \/ (exists n, k !! n = Some x /\ i = (length l + n)%nat).
Proof.
  intros [Hx|[Hl Hx]]%lookup_app_Some; [left; split; [done|by eapply lookup_lt_Some]|].
  right. exists (i - length l)%nat. split; [done|lia].
Qed.

Lemma size_union_le (X Y : gset Z) : (size (X ∪ Y) <= size X + size Y)%nat.
Proof. rewrite size_union_alt. apply Nat.add_le_mono_l, subseteq_size. set_solver. Qed.

Lemma size_list_to_set_le (l : list Z) : (size (list_to_set l : gset Z) <= length l)%nat.
Proof.
  induction l as [|x l IH]; [done|]. simpl. etrans; [apply size_union_le|]. rewrite size_singleton. lia.
Qed.

Lemma spawn_workers_ok sel w w' : spawn_workers POOL_LIMIT sel w = Some w' -> Workers w -> Workers w'.
Proof.
  unfold spawn_workers. intros E [H1 H2 H3 H4 H5 H6]. destruct (main_ids w) as [ids|] eqn:Hm; [|done]. simpl in E.
  destruct (available_workers _ _ _ _) as [xs|] eqn:Ex; [|done]. injection E as <-. destruct (H5 ids eq_refl) as [G1 G2].
  destruct (available_workers_spec _ _ _ _ Ex H6) as (X1 & X2 & X3). set (new := fun c => MkRun (batches w) c RSelect).
  split; simpl; auto; try done.
  - rewrite length_app. eapply Forall_impl; [done|]. simpl. lia.
  - intros r [Hr|(c & -> & Hc)%list_elem_of_fmap]%elem_of_app Hl; [set_solver|]. apply elem_of_union. right.
    apply elem_of_list_to_set. simpl. by apply list_elem_of_fmap_2.
  - intros i k r s Hi Hk Lr Ls E.
    assert (Hold : forall r, r ∈ runs w -> live r = true -> lc_id (r_client r) ∈ ids).
    { intros r0 Hr0 Hl0. specialize (H2 r0 Hr0 Hl0). apply G1 in H2. by apply elem_of_list_to_set in H2. }
    apply lookup_app_new in Hi as [[Hi _]|(n & Hi & ->)], Hk as [[Hk _]|(m & Hk & ->)]; [by eapply H3| | |].
    + rewrite list_lookup_fmap in Hk. destruct (xs !! m) as [c|] eqn:Hc; [|done]. injection Hk as <-. simpl in E.
      destruct (X3 c) as [_ []]; [by eapply list_elem_of_lookup_2|]. rewrite <-E. apply Hold; [by eapply list_elem_of_lookup_2|done].
    + rewrite list_lookup_fmap in Hi. destruct (xs !! n) as [c|] eqn:Hc; [|done]. injection Hi as <-. simpl in E.
      destruct (X3 c) as [_ []]; [by eapply list_elem_of_lookup_2|]. rewrite E. apply Hold; [by eapply list_elem_of_lookup_2|done].
    + f_equal. rewrite list_lookup_fmap in Hi, Hk. destruct (xs !! n) as [c|] eqn:Hc; [|done].
      destruct (xs !! m) as [d|] eqn:Hd; [|done]. injection Hi as <-. injection Hk as <-. simpl in E.
      eapply (NoDup_lookup (lc_id <$> xs)); [done|by rewrite list_lookup_fmap, Hc|by rewrite list_lookup_fmap, Hd, E].
  - etrans; [apply size_union_le|]. assert (size (active_clients w) <= length ids)%nat
      by (etrans; [by apply subseteq_size|apply size_list_to_set_le]).
    pose proof (size_list_to_set_le (lc_id <$> xs)) as Hs. rewrite length_fmap in Hs. lia.
Qed.

Lemma release_workers r w w' : release r w = Some w' -> Workers w -> Workers w'.
Proof.
  unfold release. intros E HW. destruct (runs w !! r) as [x|] eqn:Hx; [|done]. simpl in E.
  assert (Lx : live x = true) by (unfold live; by destruct (r_phase x)). case_match; [|done]. injection E as <-.
  apply (workers_step w); simpl; auto; try apply HW; try set_solver.
  - by rewrite length_alter.
  - intros i r' Hi. destruct (decide (i = r)) as [->|Hne].
    + rewrite list_lookup_alter_eq, Hx in Hi. simplify_eq/=. by exists x.
    + rewrite list_lookup_alter_ne in Hi by done. by exists r'.
  - intros r' (i & Hi)%list_elem_of_lookup_1 Lr. destruct (decide (i = r)) as [->|Hne].
    + rewrite list_lookup_alter_eq, Hx in Hi. by simplify_eq/=.
    + rewrite list_lookup_alter_ne in Hi by done. apply elem_of_difference. split; [apply HW; [by eapply list_elem_of_lookup_2|done]|].
      intros Hc%elem_of_singleton. apply Hne. by eapply (wk_distinct w HW).
Qed.

Lemma panic_workers i w : Workers w -> Workers (panic i w).
Proof. intros HW. unfold panic. case_match; auto. Qed.

Lemma turn_workers l w w' : turn POOL_LIMIT args_of incoming json_object l w = Some w' -> Workers w -> Workers w'.
Proof.
  assert (Hsame : forall w w', Workers w -> runs w' = runs w -> active_clients w' = active_clients w -> main_ids w' = main_ids w ->
    mounts w' = mounts w -> jobs w' = jobs w -> Workers w').
  { intros w0 w1 HW E1 E2 E3 E4 E5. apply (workers_same w0); auto; [rewrite E4|rewrite E5]; apply HW. }
  destruct l; cbn [turn]; intros E HW.
  - unfold insert_task in E. open_turn E. by apply (Hsame w).
  - unfold ingest_data in E. open_turn E. by apply (Hsame w).
  - unfold insert_fidlist in E. open_turn E. by apply (Hsame w).
  - unfold add_total in E. open_turn E; by apply (Hsame w).
  - unfold tick in E. destruct (main_ids w); [done|]. destruct (Nat.leb_spec POOL_LIMIT (length (elements (active_clients w))));
      injection E as <-; [done|]. destruct HW as [H1 H2 H3 H4 H5 H6]. split; simpl; auto. intros ids [= <-]. split; [|done]. by rewrite list_to_set_elements_L.
  - by eapply spawn_workers_ok.
  - unfold select_tasks in E. destruct (runs w !! r) as [x|] eqn:Hx; [|done]. simpl in E.
    assert (Lx : live x = true) by (unfold live; by destruct (r_phase x)). destruct (r_phase x); simplify_eq. by eapply workers_run.
  - unfold start_tasks in E. destruct (runs w !! r) as [x|] eqn:Hx; [|done]. simpl in E.
    assert (Lx : live x = true) by (unfold live; by destruct (r_phase x)). destruct (r_phase x) eqn:Hp; try done. injection E as <-.
    case_match; [|by eapply workers_run]. eapply workers_run; [|done..]. apply (workers_same w); auto; [apply HW|]. simpl.
    apply Forall_app. split; [apply HW|]. apply Forall_fmap, Forall_true. intros t. simpl. by eapply lookup_lt_Some.
  - unfold run_error in E. destruct (runs w !! r) as [x|] eqn:Hx; [|done]. simpl in E.
    assert (Lx : live x = true) by (unfold live; by destruct (r_phase x)). destruct (r_phase x); simplify_eq; by eapply workers_run.
  - by eapply release_workers.
  - unfold send_work_start in E. open_turn E; by eapply (workers_job w).
  - unfold take_rows in E. open_turn E; by eapply (workers_job w).
  - unfold send_action in E. open_turn E; try (by eapply (workers_job w)). apply panic_workers. by apply (Hsame w).
  - unfold commit in E. open_turn E; by eapply (workers_job w).
  - unfold add_completed in E. open_turn E; by eapply (workers_job w).
  - unfold job_error in E. open_turn E; by eapply (workers_job w).
  - injection E as <-. assert (HK : Workers (kill (fun _ => true) w)) by auto.
    apply (workers_step (kill (fun _ => true) w)); auto; try apply HK; try set_solver.
    intros r' Hr Hl. change (runs (restart w)) with (killed (fun _ => true) <$> runs w) in Hr.
    apply list_elem_of_fmap in Hr as (r & -> & _). unfold live, killed in Hl. by destruct (r_phase r) eqn:Ep; simpl in Hl; rewrite ?Ep in Hl.
  - unfold change_tables in E. open_turn E. by apply (workers_same w); auto; apply HW.
Qed.

Lemma reachable_workers w : reachable w -> Workers w.
Proof.
  intros [ls E]. assert (HW : Workers initial) by (split; simpl; try done; [by intros r ?%elem_of_nil|apply Nat.le_0_l|constructor]).
  revert E HW. generalize (initial (H := H)) as w0. induction ls as [|l ls IH]; simpl; intros w0 E HW; [by simplify_eq|].
  destruct (turn _ _ _ _ l w0) as [w1|] eqn:E1; [|done]. eapply IH; [done|]. by eapply turn_workers.
Qed.

Lemma NoDup_fmap_filter (l : list Run) :
  (forall i k r s, l !! i = Some r -> l !! k = Some s -> live r = true -> live s = true ->
    lc_id (r_client r) = lc_id (r_client s) -> i = k) ->
  NoDup ((fun r => lc_id (r_client r)) <$> List.filter live l).
Proof.
  induction l as [|r l IH]; intros Hd; [constructor|]. simpl.
  assert (Hl : NoDup ((fun r => lc_id (r_client r)) <$> List.filter live l)).
  { apply IH. intros i k r' s Hi Hk L1 L2 E. by apply Nat.succ_inj, (Hd (S i) (S k) r' s). }
  destruct (live r) eqn:Lr; [|done]. rewrite fmap_cons. apply NoDup_cons. split; [|done].
  intros (s & E & [Hs Ls]%elem_of_filter_fn)%list_elem_of_fmap. apply list_elem_of_lookup_1 in Hs as (k & Hk).
  by specialize (Hd 0%nat (S k) r s eq_refl Hk Lr Ls E).
Qed.

(** C29: No more clients are at work than the pool has connections, and none twice at once. *)
Theorem workers_bounded w (Hw : reachable w) :
  (size (active_clients w) <= POOL_LIMIT)%nat /\
  (length (List.filter live (runs w)) <= POOL_LIMIT)%nat /\
  forall i k r s, runs w !! i = Some r -> runs w !! k = Some s -> live r = true -> live s = true ->
    lc_id (r_client r) = lc_id (r_client s) -> i = k.
Proof.
  pose proof (reachable_workers w Hw) as HW. split; [apply HW|]. split; [|apply HW].
  etrans; [|apply (wk_bound w HW)]. set (ids := (fun r => lc_id (r_client r)) <$> List.filter live (runs w)).
  assert (Hn : NoDup ids).
  { apply NoDup_fmap_filter. intros i k r s. apply (wk_distinct w HW). }
  transitivity (size (list_to_set ids : gset Z)).
  - rewrite size_list_to_set by done. unfold ids. by rewrite length_fmap.
  - apply subseteq_size. intros x Hx%elem_of_list_to_set. apply list_elem_of_fmap in Hx as (r & -> & [Hr Hl]%elem_of_filter_fn).
    by apply HW.
Qed.

(** ** Termination *)

Lemma measure_job w i j k g w' : jobs w !! i = Some j -> jobs w' = alter g k (jobs w) ->
  (forall x, jobs w !! k = Some x -> (measure (g x) < measure x)%nat) ->
  exists j', jobs w' !! i = Some j' /\ (measure j' + (if k =? i then 1 else 0) <= measure j)%nat.
Proof. intros Hj -> Hg. apply measure_alter; [done|]. intros ->. auto. Qed.

Lemma measure_pos j : j_phase j <> JDone -> (0 < measure j)%nat.
Proof. unfold measure. destruct (j_phase j); try done; intros _; simpl; apply Nat.add_pos_r; lia. Qed.

Lemma measure_done j : j_phase j <> JDone -> (measure (with_phase JDone j) < measure j)%nat.
Proof. apply measure_pos. Qed.

Lemma panic_measure w i k j x : Workers w -> jobs w !! i = Some j -> jobs w !! k = Some x -> (0 < measure x)%nat ->
  exists j', jobs (panic k w) !! i = Some j' /\ (measure j' + (if k =? i then 1 else 0) <= measure j)%nat.
Proof.
  intros HW Hj Hk Hx. unfold panic. rewrite Hk. simpl.
  assert (is_Some (runs w !! j_run x)) as [r Hr].
  { apply lookup_lt_is_Some. eapply (Forall_lookup_1 _ _ _ _ (wk_jobs w HW) Hk). }
  rewrite Hr. destruct (kill_measure (fun r' => bool_decide (r_batch r' = r_batch r)) w i j Hj) as (j' & Hj' & Hm & Hd).
  exists j'. split; [done|]. destruct (Nat.eqb_spec k i) as [<-|]; [|lia]. simplify_eq.
  rewrite Hd; [lia|]. unfold dying. rewrite Hr. by case_bool_decide.
Qed.

(** A turn of job [x] leaves its measure to be compared. *)
Ltac own_turn x := (eapply measure_job; [done|done|]); intros y Hy; assert (y = x) as -> by congruence.

Lemma turn_measure l w w' i j : reachable w -> turn POOL_LIMIT args_of incoming json_object l w = Some w' -> jobs w !! i = Some j ->
  exists j', jobs w' !! i = Some j' /\ (measure j' + (if own i l then 1 else 0) <= measure j)%nat.
Proof.
  intros Hw E Hj. pose proof (reachable_workers w Hw) as HW. pose proof (inv_jobs w (reachable_inv w Hw)) as HJ.
  rewrite Forall_lookup in HJ.
  assert (Hsame : forall w', jobs w' = jobs w -> exists j', jobs w' !! i = Some j' /\ (measure j' + 0 <= measure j)%nat).
  { intros w1 ->. exists j. split; [done|lia]. }
  assert (Hfin : forall k x rc, jobs w !! k = Some x -> j_phase x <> JDone -> (measure (finish_round rc x) < measure x)%nat).
  { intros k x rc Hk Hp. apply measure_finish; [by apply measure_pos|]. by apply (HJ k x Hk). }
  destruct l; cbn [turn own] in *.
  - unfold insert_task in E. open_turn E. by apply Hsame.
  - unfold ingest_data in E. open_turn E. by apply Hsame.
  - unfold insert_fidlist in E. open_turn E. by apply Hsame.
  - unfold add_total in E. open_turn E; by apply Hsame.
  - unfold tick in E. open_turn E; by apply Hsame.
  - unfold spawn_workers in E. open_turn E; by apply Hsame.
  - unfold select_tasks in E. open_turn E; by apply Hsame.
  - unfold start_tasks in E. open_turn E; [|by apply Hsame]. exists j. split; [by apply lookup_jobs_app|lia].
  - unfold run_error in E. open_turn E; by apply Hsame.
  - unfold release in E. open_turn E; by apply Hsame.
  - unfold send_work_start in E. destruct (jobs w !! i0) as [x|] eqn:Hx; [|done]. simpl in E.
    destruct (j_phase x) eqn:Hp; try done. assert (j_phase x <> JDone) by congruence.
    assert (measure (with_phase JTake x) < measure x)%nat by (unfold measure; rewrite Hp; simpl; lia).
    open_turn E; own_turn x; eauto using measure_done.
  - unfold take_rows in E. destruct (jobs w !! i0) as [x|] eqn:Hx; [|done]. simpl in E.
    destruct (j_phase x) eqn:Hp; try done. assert (j_phase x <> JDone) by congruence.
    open_turn E; own_turn x; eauto.
    unfold measure. rewrite Hp. simpl. lia.
  - unfold send_action in E. destruct (jobs w !! i0) as [x|] eqn:Hx; [|done]. simpl in E.
    destruct (j_phase x) as [| |rows [|act acts] f e b| | |] eqn:Hp; try done; assert (j_phase x <> JDone) by congruence.
    + open_turn E. own_turn x. unfold measure. rewrite Hp. simpl. lia.
    + assert (forall f e b, measure (with_phase (JSend rows acts f e b) x) < measure x)%nat
        by (intros; unfold measure; rewrite Hp; simpl; lia).
      open_turn E; try (own_turn x; by eauto using measure_done).
      eapply panic_measure; [|done|done|by apply measure_pos]. by apply (workers_same w); auto; apply HW.
  - unfold commit in E. destruct (jobs w !! i0) as [x|] eqn:Hx; [|done]. simpl in E.
    destruct (j_phase x) eqn:Hp; try done. assert (j_phase x <> JDone) by congruence.
    assert (forall n f, measure (with_phase (JCount n f) x) < measure x)%nat by (intros; unfold measure; rewrite Hp; simpl; lia).
    open_turn E; own_turn x; eauto using measure_done.
  - unfold add_completed in E. destruct (jobs w !! i0) as [x|] eqn:Hx; [|done]. simpl in E.
    destruct (j_phase x) eqn:Hp; try done. assert (j_phase x <> JDone) by congruence.
    open_turn E; own_turn x; eauto using measure_done.
  - unfold job_error in E. destruct (jobs w !! i0) as [x|] eqn:Hx; [|done]. simpl in E.
    open_turn E; own_turn x; apply measure_done; congruence.
  - injection E as <-. destruct (kill_measure (fun _ => true) w i j Hj) as (j' & Hj' & Hm & _). exists j'. split; [done|lia].
  - unfold change_tables in E. open_turn E. by apply Hsame.
Qed.

Lemma reachable_turn l w w' : reachable w -> turn POOL_LIMIT args_of incoming json_object l w = Some w' -> reachable w'.
Proof.
  intros [ls E] El. exists (ls ++ [l]). revert E. generalize (initial (H := H)) as w0.
  induction ls as [|k ls IH]; simpl; intros w0 E; [simplify_eq; by rewrite El|].
  destruct (turn _ _ _ _ k w0) as [w1|]; [|done]. by apply IH.
Qed.

Lemma filter_none {A} (q : A -> bool) l : (forall x, x ∈ l -> q x = false) -> List.filter q l = [].
Proof. induction l as [|x l IH]; intros Hq; [done|]. simpl. rewrite (Hq x) by set_solver. apply IH. set_solver. Qed.

Lemma filter_take (l : list FidTaskQueue) n : NoDup (ft_id <$> l) ->
  List.filter (fun r => bool_decide (ft_id r ∈ take n (ft_id <$> l))) l = take n l.
Proof.
  intros Hn. rewrite <-(take_drop n l) at 1. rewrite List.filter_app.
  assert (E1 : List.filter (fun r => bool_decide (ft_id r ∈ take n (ft_id <$> l))) (take n l) = take n l).
  { apply forallb_filter_id, forallb_forall. intros r Hr%list_elem_of_In. apply bool_decide_eq_true.
    rewrite <-fmap_take. by apply list_elem_of_fmap_2. }
  rewrite E1. rewrite <-(take_drop n l), fmap_app, NoDup_app in Hn. destruct Hn as (_ & Hn & _).
  assert (E2 : List.filter (fun r => bool_decide (ft_id r ∈ take n (ft_id <$> l))) (drop n l) = []).
  { apply filter_none. intros r Hr. apply bool_decide_eq_false. rewrite <-fmap_take. intros Hx. apply (Hn _ Hx).
    by apply list_elem_of_fmap_2. }
  by rewrite E2, app_nil_r.
Qed.

Lemma NoDup_fmap_sub (q : FidTaskQueue -> bool) l : NoDup (ft_id <$> l) -> NoDup (ft_id <$> List.filter q l).
Proof.
  induction l as [|r l IH]; [done|]. rewrite fmap_cons. intros [Hr Hl]%NoDup_cons. simpl. destruct (q r); [|by apply IH].
  rewrite fmap_cons. apply NoDup_cons. split; [|by apply IH]. intros (x & E & [Hx _]%elem_of_filter_fn)%list_elem_of_fmap.
  apply Hr. rewrite E. by apply list_elem_of_fmap_2.
Qed.

(** The rows of a task can be taken, in chunks of the limit. *)
Lemma take_rows_enabled w i j : reachable w -> jobs w !! i = Some j -> j_phase j = JTake ->
  exists ids, is_Some (take_rows i ids w).
Proof.
  intros Hw Hj Hp. set (mine := List.filter (of_task (t_id (j_task j))) (queue w)).
  assert (Hn : NoDup (ft_id <$> mine)).
  { apply NoDup_fmap_sub. destruct (created_ids w Hw) as [Hn _]. rewrite (inv_rows w (reachable_inv w Hw)), fmap_app in Hn.
    by apply NoDup_app in Hn as [? _]. }
  exists (take (Z.to_nat FID_LIMIT) (ft_id <$> mine)). unfold take_rows. rewrite Hj. simpl. rewrite Hp.
  rewrite (decide_True (P := length _ = _)); [done|]. fold mine.
  assert (E : forall ids : list Z, List.filter (fun r => of_task (t_id (j_task j)) r && bool_decide (ft_id r ∈ ids)) (queue w) =
    List.filter (fun r => bool_decide (ft_id r ∈ ids)) mine).
  { intros ids. unfold mine. clear. induction (queue w) as [|r q IH]; [done|]. simpl. destruct (of_task _ r); simpl; [|done].
    destruct (bool_decide _); by rewrite IH. }
  rewrite E, filter_take by done. by rewrite length_take.
Qed.

(** C20: The work of a worker on a task comes to its end: in whatever way the others go on, it takes
    at most ten rounds of its own turns, and until it is done it can take the next one. *)
Theorem job_ends w (Hw : reachable w) i j (Hj : jobs w !! i = Some j) :
  (forall ls w', run POOL_LIMIT args_of incoming json_object ls w = Some w' ->
     (length (List.filter (own i) ls) <= 10 * (length (t_actions (j_task j)) + 5))%nat) /\
  (j_phase j <> JDone -> exists l w', own i l = true /\ l <> LJobError i /\ turn POOL_LIMIT args_of incoming json_object l w = Some w').
Proof.
  split.
  - assert (Hm : (measure j <= 10 * (length (t_actions (j_task j)) + 5))%nat).
    { pose proof (job_of w i j (reachable_inv w Hw) Hj) as [_ _ Hr _ _ Hs]. unfold measure.
      assert (forall acts, (exists d, t_actions (j_task j) = d ++ acts) -> length acts <= length (t_actions (j_task j)))%nat
        by (intros acts [d ->]; rewrite length_app; lia).
      destruct (j_phase j); try nia. destruct Hs as (d & Hd & _). assert (length actions <= length (t_actions (j_task j)))%nat by eauto. nia. }
    intros ls w' E. etrans; [|done]. clear Hm. revert w Hw j Hj E. induction ls as [|l ls IH]; intros w Hw j Hj E; simpl; [lia|].
    simpl in E. destruct (turn _ _ _ _ l w) as [w1|] eqn:E1; [|done].
    destruct (turn_measure l w w1 i j Hw E1 Hj) as (j1 & Hj1 & Hm1).
    specialize (IH w1 (reachable_turn _ _ _ Hw E1) j1 Hj1 E). destruct (own i l); simpl; lia.
  - intros Hp. destruct (j_phase j) as [| |rows acts f e b|rows f e b|c f|] eqn:Ep; try done.
    + exists (LStart i). simpl. unfold send_work_start. rewrite Hj. simpl. rewrite Ep. eexists. split; [apply Nat.eqb_refl|done].
    + destruct (take_rows_enabled w i j Hw Hj Ep) as (ids & w' & E). exists (LTake i ids), w'. split; [apply Nat.eqb_refl|done].
    + exists (LSend i InvokeFailed). simpl. unfold send_action. rewrite Hj. simpl. rewrite Ep.
      destruct acts; (eexists; split; [apply Nat.eqb_refl|done]).
    + exists (LCommit i CommitOk). simpl. unfold commit. rewrite Hj. simpl. rewrite Ep. eexists. split; [apply Nat.eqb_refl|done].
    + exists (LCount i true). simpl. unfold add_completed. rewrite Hj. simpl. rewrite Ep. eexists. split; [apply Nat.eqb_refl|done].
Qed.

(** ** A panic *)

(** The client is taken to be at work, and nothing works for it. *)
Definition stuck (c : Z) (w : World) : Prop :=
  c ∈ active_clients w /\ (forall r, r ∈ runs w -> live r = true -> lc_id (r_client r) <> c) /\
  (forall ids, main_ids w = Some ids -> c ∈ ids).

Lemma stuck_same c w w' : stuck c w -> active_clients w' = active_clients w -> runs w' = runs w -> main_ids w' = main_ids w -> stuck c w'.
Proof. unfold stuck. by intros Hs -> -> ->. Qed.

Lemma stuck_set_run c w r x p : stuck c w -> runs w !! r = Some x -> live x = true -> stuck c (set_run r p w).
Proof.
  intros (H1 & H2 & H3) Hx Lx. repeat split; auto. intros r' [Hr|(y & Hy & ->)]%elem_of_alter Lr; [by apply H2|].
  simplify_eq. apply (H2 x); [by eapply list_elem_of_lookup_2|done].
Qed.

Lemma stuck_kill c dies w : stuck c w -> stuck c (kill dies w).
Proof.
  intros (H1 & H2 & H3). repeat split; auto. intros r' Hr Lr. change (runs (kill dies w)) with (killed dies <$> runs w) in Hr.
  apply list_elem_of_fmap in Hr as (r & -> & Hr). destruct (killed_live dies r) as [-> Hl]. auto.
Qed.

Lemma stuck_spawn c w sel w' : spawn_workers POOL_LIMIT sel w = Some w' -> stuck c w -> stuck c w'.
Proof.
  unfold spawn_workers. intros E (H1 & H2 & H3). destruct (main_ids w) as [ids|]; [|done]. simpl in E.
  destruct (available_workers _ _ _ _) as [xs|] eqn:Ex; [|done]. injection E as <-. repeat split; simpl; [set_solver| |done].
  intros r [Hr|(d & -> & Hd)%list_elem_of_fmap]%elem_of_app Lr; [by apply H2|]. simpl. intros <-.
  unfold available_workers in Ex. case_decide; [|done]. injection Ex as <-.
  apply elem_of_filter_fn in Hd as [[_ Ha]%elem_of_filter_fn _]. unfold is_available in Ha.
  apply bool_decide_eq_true in Ha as (_ & _ & Hn). by apply Hn, H3.
Qed.

Lemma stuck_release c w r w' : release r w = Some w' -> stuck c w -> stuck c w'.
Proof.
  unfold release. intros E Hs. destruct (runs w !! r) as [x|] eqn:Hx; [|done]. simpl in E.
  assert (Lx : live x = true) by (unfold live; by destruct (r_phase x)). case_match; [|done]. injection E as <-.
  destruct (stuck_set_run c w r x RDone Hs Hx Lx) as (H1 & H2 & H3). repeat split; auto. simpl. apply elem_of_difference.
  split; [done|]. intros ->%elem_of_singleton. destruct Hs as (_ & Hl & _).
  by apply (Hl x); [eapply list_elem_of_lookup_2|..].
Qed.

Lemma turn_stuck l w w' c : turn POOL_LIMIT args_of incoming json_object l w = Some w' -> l <> LRestart -> stuck c w -> stuck c w'.
Proof.
  destruct l; cbn [turn]; intros E Hl Hs.
  - unfold insert_task in E. open_turn E. by apply (stuck_same c w).
  - unfold ingest_data in E. open_turn E. by apply (stuck_same c w).
  - unfold insert_fidlist in E. open_turn E. by apply (stuck_same c w).
  - unfold add_total in E. open_turn E; by apply (stuck_same c w).
  - unfold tick in E. open_turn E; [done|]. destruct Hs as (H1 & H2 & H3). repeat split; auto. intros ids [= <-]. by apply elem_of_elements.
  - by eapply stuck_spawn.
  - unfold select_tasks in E. destruct (runs w !! r) as [x|] eqn:Hx; [|done]. simpl in E.
    assert (Lx : live x = true) by (unfold live; by destruct (r_phase x)). destruct (r_phase x); simplify_eq. by eapply stuck_set_run.
  - unfold start_tasks in E. destruct (runs w !! r) as [x|] eqn:Hx; [|done]. simpl in E.
    assert (Lx : live x = true) by (unfold live; by destruct (r_phase x)). destruct (r_phase x); simplify_eq.
    case_match; by eapply stuck_set_run.
  - unfold run_error in E. destruct (runs w !! r) as [x|] eqn:Hx; [|done]. simpl in E.
    assert (Lx : live x = true) by (unfold live; by destruct (r_phase x)). destruct (r_phase x); simplify_eq; by eapply stuck_set_run.
  - by eapply stuck_release.
  - unfold send_work_start in E. open_turn E; by apply (stuck_same c w).
  - unfold take_rows in E. open_turn E; by apply (stuck_same c w).
  - unfold send_action in E. open_turn E; try (by apply (stuck_same c w)). unfold panic. case_match; [|by apply (stuck_same c w)].
    apply stuck_kill. by apply (stuck_same c w).
  - unfold commit in E. open_turn E; by apply (stuck_same c w).
  - unfold add_completed in E. open_turn E; by apply (stuck_same c w).
  - unfold job_error in E. open_turn E; by apply (stuck_same c w).
  - done.
  - unfold change_tables in E. open_turn E; by apply (stuck_same c w).
Qed.

Lemma panic_stuck w i j r : Workers w -> jobs w !! i = Some j -> runs w !! j_run j = Some r ->
  forall s, s ∈ runs w -> live s = true -> r_batch s = r_batch r -> stuck (lc_id (r_client s)) (panic i w).
Proof.
  intros HW Hj Hr s Hs Ls Hb. unfold panic. rewrite Hj. simpl. rewrite Hr. repeat split; simpl.
  - by apply HW.
  - intros s' Hs' Ls' E. change (s' ∈ killed (fun r' => bool_decide (r_batch r' = r_batch r)) <$> runs w) in Hs'.
    apply list_elem_of_fmap in Hs' as (t & -> & Ht). set (dies := fun r' => bool_decide (r_batch r' = r_batch r)) in *.
    destruct (killed_live dies t) as [Ec Hl]. rewrite Ec in E.
    apply list_elem_of_lookup_1 in Ht as (a & Ha). apply list_elem_of_lookup_1 in Hs as (b & Hb').
    assert (a = b) as -> by (by eapply (wk_distinct w HW); eauto). simplify_eq.
    revert Ls'. unfold killed, dies. rewrite bool_decide_true by done. unfold live in *. by destruct (r_phase s) eqn:Ep; simpl; rewrite ?Ep.
  - intros ids Hids. destruct (wk_main w HW ids Hids) as [Hsub _]. specialize (wk_live w HW s Hs Ls). set_solver.
Qed.

(** An agent that reports a failed identifier which has not three parts makes [from_str] panic;
    the clients of that tick stay marked as active, and get no work until the runner is
    started again. *)
Theorem panic_blocks_clients w (Hw : reachable w) i j r rows act acts f e b errors inserts
    (Hj : jobs w !! i = Some j) (Hph : j_phase j = JSend rows (act :: acts) f e b) (Hr : runs w !! j_run j = Some r)
    (Hkeep : t_keep_failed (j_task j) = true) (Hbad : keep_errors (t_id (j_task j)) errors inserts e b = None)
    s (Hs : s ∈ runs w) (Hlive : live s = true) (Hbatch : r_batch s = r_batch r)
    ls w' (Hrun : run POOL_LIMIT args_of incoming json_object (LSend i (AgentDone errors inserts) :: ls) w = Some w')
    (Hls : LRestart ∉ ls) :
  lc_id (r_client s) ∈ active_clients w' /\ forall r', r' ∈ runs w' -> live r' = true -> r_client r' <> r_client s.
Proof.
  simpl in Hrun. unfold send_action in Hrun. rewrite Hj in Hrun. simpl in Hrun. rewrite Hph in Hrun. simpl in Hrun.
  rewrite Hkeep, Hbad in Hrun. set (w0 := upd_answered _ w) in Hrun.
  pose proof (reachable_workers w Hw) as HW0.
  assert (HW : Workers w0) by (by apply (workers_same w); auto; apply HW0).
  assert (Hst : stuck (lc_id (r_client s)) (panic i w0)) by (by eapply (panic_stuck w0 i j r)).
  assert (G : stuck (lc_id (r_client s)) w').
  { revert Hst Hrun. generalize (panic i w0) as w1. induction ls as [|l ls IH]; simpl; intros w1 Hst E; [by simplify_eq|].
    apply not_elem_of_cons in Hls as [Hl Hls]. destruct (turn _ _ _ _ l w1) as [w2|] eqn:E2; [|done].
    eapply IH; [done| |done]. by eapply turn_stuck. }
  destruct G as (G1 & G2 & _). split; [done|]. intros r' Hr' Ll E. apply (G2 r' Hr' Ll). by rewrite E.
Qed.

End turns.

(** * Examples and witnesses *)

#[local] Instance unit_json : Json := {| value := unit; json_null := tt; value_eq_dec := _ |}.

Definition any_args (v : value) : option (gmap string string) := Some ∅.
(** A line is the identifier itself. *)
Definition plain_line (s : string) : option (string * option value) := Some (s, None).

Definition sample_client : LustreClient := MkLustreClient 3 0 "mounted" false (Some true) None "fs1" 7 ["/mnt/fs1"].

Definition go (ls : list Label) : option World := run 8 any_args plain_line (tt : value) ls initial.
Definition world (o : option World) : World := default initial o.

Definition sample_tables : Label := LTables {["fs1" := 1]} {[7 := "oss1"]} [sample_client].

(** A task with two actions for one runner, and the turns up to its first chunk. *)
Definition sample_up_to_chunk (keep : bool) (fids : list string) : list Label :=
  [sample_tables; LCreate 1 0 "mirror" "created" true keep ["mirror.extend"; "mirror.resync"] tt 1;
   LIngest "mirror" fids; LTotal 0 true; LTick; LWorkers [3]; LSelect 0; LTasks 0; LStart 0; LTake 0 [1; 2]].

Definition sample_fids : list string := ["[0x200000401:0x1:0x0]"; "[0x200000401:0x2:0x0]"].

Definition sample_whole : list Label :=
  sample_up_to_chunk true sample_fids ++
  [LSend 0 (AgentDone [] []); LSend 0 (AgentDone [MkFidError "[0x200000401:0x1:0x0]" tt 5] [true]); LSend 0 (AgentDone [] []);
   LCommit 0 CommitOk; LCount 0 true; LRelease 0].

Definition runs_through (ls : list Label) : bool := match go ls with Some _ => true | None => false end.

Lemma go_run ls : runs_through ls = true -> run 8 any_args plain_line (tt : value) ls initial = Some (world (go ls)).
Proof. unfold runs_through. intros E. destruct (go ls) as [w|] eqn:Ew; [exact Ew|discriminate E]. Qed.

Lemma sample_reachable ls : runs_through ls = true -> reachable 8 any_args plain_line (tt : value) (world (go ls)).
Proof. intros E. exists ls. by apply go_run. Qed.

Lemma sample_runs : runs_through (sample_up_to_chunk true sample_fids) = true /\ runs_through sample_whole = true.
Proof. by vm_compute. Qed.

Definition sample_world : World := world (go (sample_up_to_chunk true sample_fids)).
Definition sample_sound : reachable 8 any_args plain_line (tt : value) sample_world := sample_reachable _ (proj1 sample_runs).

Lemma rows_accounted_witness : length (handled_rows (world (go sample_whole))) = 2%nat /\ NoDup (ft_id <$> created (world (go sample_whole))).
Proof.
  split; [by vm_compute|].
  apply (rows_accounted 8 any_args plain_line tt (world (go sample_whole)) (sample_reachable _ (proj2 sample_runs))).
Defined.

Lemma counts_exact_witness : total 1 (world (go sample_whole)) - completed 1 (world (go sample_whole)) = rows_of 1 (queue (world (go sample_whole))).
Proof.
  apply (counts_exact 8 any_args plain_line tt sample_whole (world (go sample_whole)) (go_run _ (proj2 sample_runs)));
    [by vm_compute| |by vm_compute].
  assert (E : forallb (fun p : option (Z * Z) => match p with None => true | _ => false end) (pending (world (go sample_whole))) = true)
    by (by vm_compute).
  apply Forall_forall. intros p Hp%list_elem_of_In. rewrite forallb_forall in E. specialize (E p Hp). clear Hp. destruct p; [discriminate E|reflexivity].
Defined.

Lemma sample_job : exists j, jobs sample_world !! 0%nat = Some j /\ t_single_runner (j_task j) = true /\ claimed j = true.
Proof.
  destruct (jobs sample_world !! 0%nat) as [j|] eqn:Hj; [|vm_compute in Hj; discriminate Hj]. exists j. split; [reflexivity|].
  assert (E : (fun j => (t_single_runner (j_task j), claimed j)) <$> jobs sample_world !! 0%nat = Some (true, true)) by (by vm_compute).
  rewrite Hj in E. by injection E as -> ->.
Qed.

Lemma single_runner_host_witness : exists j t, jobs sample_world !! 0%nat = Some j /\
  tasks sample_world !! t_id (j_task j) = Some t /\ t_running_on_id t = Some (j_host_id j).
Proof.
  destruct sample_job as (j & Hj & Hs & Hc). pose proof (list_elem_of_lookup_2 _ _ _ Hj) as Hin.
  destruct (single_runner_host 8 any_args plain_line tt sample_world sample_sound j j Hin Hin eq_refl Hs Hc Hc) as (_ & t & Ht & Hh).
  exists j, t. exact (conj Hj (conj Ht Hh)).
Defined.

Lemma workers_bounded_witness : (size (active_clients sample_world) <= 8)%nat.
Proof. apply (workers_bounded 8 any_args plain_line tt sample_world sample_sound). Defined.

Lemma job_ends_witness : exists j, jobs sample_world !! 0%nat = Some j /\
  forall ls w', run 8 any_args plain_line tt ls sample_world = Some w' ->
    (length (List.filter (own 0) ls) <= 10 * (length (t_actions (j_task j)) + 5))%nat.
Proof.
  destruct sample_job as (j & Hj & _). exists j. split; [exact Hj|].
  apply (job_ends 8 any_args plain_line tt sample_world sample_sound 0 j Hj).
Defined.

(** What the table says of task 1, how many rows wait, and how many tasks a worker is given. *)
Definition summary (ls : list Label) : option (Z * Z * nat * nat) :=
  w ← go ls; t ← tasks w !! 1;
  Some (t_fids_total t, t_fids_completed t, length (queue w), length (tasks_per_worker sample_client w)).

(** The API adds the length of the list it was given, not the number of rows it has
    inserted: with an identifier that cannot be read, the task is never completed and is
    given to the workers for ever. *)
Example fidlist_never_completes : summary
  ([sample_tables; LCreate 1 0 "filesync" "created" false false ["stratagem.filesync"] tt 1;
    LFidlist ["[0x200000401:0x1:0x0]"; "[0x200000401:0xfffffffff:0x0]"] 1; LTotal 0 true;
    LTick; LWorkers [3]; LSelect 0; LTasks 0; LStart 0; LTake 0 [1]; LSend 0 (AgentDone [] []); LSend 0 (AgentDone [] []);
    LCommit 0 CommitOk; LCount 0 true; LRelease 0]) = Some (2, 1, 0%nat, 1%nat).
Proof. by vm_compute. Qed.

(** An insert into the error table that fails aborts the transaction; the commit then rolls it
    back without an error, and the rows are counted as completed although they are in the
    queue again: the task looks completed, and they are not given to any worker. *)
Example aborted_rows_counted : summary
  (sample_up_to_chunk true sample_fids ++
   [LSend 0 (AgentDone [MkFidError "[0x200000401:0x1:0x0]" tt 5] [false]); LSend 0 (AgentDone [] []); LSend 0 (AgentDone [] []);
    LCommit 0 CommitOk; LCount 0 true; LRelease 0]) = Some (2, 2, 2%nat, 0%nat).
Proof. by vm_compute. Qed.

(** A failed identifier that does not have three parts: the client stays active. *)
Example panic_keeps_client : (fun w => (elements (active_clients w), length (queue w), List.filter live (runs w))) <$>
  go (sample_up_to_chunk true sample_fids ++ [LSend 0 (AgentDone [MkFidError "0x1" tt 5] [])]) = Some ([3], 2%nat, []).
Proof. by vm_compute. Qed.
