(* ===== verification/Alerts.v ===== *)
(** Alerts, [iml-postgres/src/alert.rs], and the watch over the clocks of the servers: the
    agent plugin [iml-agent/src/daemon_plugins/ntp.rs] and the service [iml-ntp] that turns
    its reports into alerts. *)
From S2P Require Import Prelude RustStd WarpTypes.
From stdpp Require Import base gmap sets list strings.
From Stdlib Require Import ZArith Ascii.

Open Scope Z_scope.

(** * The table of alerts *)

(** The name of the variant, as serde writes it. *)
Definition AlertRecordType_to_string (t : AlertRecordType) : string :=
  match t with
  | AlertRecordType_AlertState => "AlertState"
  | AlertRecordType_LearnEvent => "LearnEvent"
  | AlertRecordType_AlertEvent => "AlertEvent"
  | AlertRecordType_SyslogEvent => "SyslogEvent"
  | AlertRecordType_ClientConnectEvent => "ClientConnectEvent"
  | AlertRecordType_CommandRunningAlert => "CommandRunningAlert"
  | AlertRecordType_CommandSuccessfulAlert => "CommandSuccessfulAlert"
  | AlertRecordType_CommandCancelledAlert => "CommandCancelledAlert"
  | AlertRecordType_CommandErroredAlert => "CommandErroredAlert"
  | AlertRecordType_CorosyncUnknownPeersAlert => "CorosyncUnknownPeersAlert"
  | AlertRecordType_CorosyncToManyPeersAlert => "CorosyncToManyPeersAlert"
  | AlertRecordType_CorosyncNoPeersAlert => "CorosyncNoPeersAlert"
  | AlertRecordType_CorosyncStoppedAlert => "CorosyncStoppedAlert"
  | AlertRecordType_StonithNotEnabledAlert => "StonithNotEnabledAlert"
  | AlertRecordType_PacemakerStoppedAlert => "PacemakerStoppedAlert"
  | AlertRecordType_HostContactAlert => "HostContactAlert"
  | AlertRecordType_HostOfflineAlert => "HostOfflineAlert"
  | AlertRecordType_HostRebootEvent => "HostRebootEvent"
  | AlertRecordType_UpdatesAvailableAlert => "UpdatesAvailableAlert"
  | AlertRecordType_TargetOfflineAlert => "TargetOfflineAlert"
  | AlertRecordType_TargetRecoveryAlert => "TargetRecoveryAlert"
  | AlertRecordType_StorageResourceOffline => "StorageResourceOffline"
  | AlertRecordType_StorageResourceAlert => "StorageResourceAlert"
  | AlertRecordType_StorageResourceLearnEvent => "StorageResourceLearnEvent"
  | AlertRecordType_PowerControlDeviceUnavailableAlert => "PowerControlDeviceUnavailableAlert"
  | AlertRecordType_IpmiBmcUnavailableAlert => "IpmiBmcUnavailableAlert"
  | AlertRecordType_LNetOfflineAlert => "LNetOfflineAlert"
  | AlertRecordType_LNetNidsChangedAlert => "LNetNidsChangedAlert"
  | AlertRecordType_StratagemUnconfiguredAlert => "StratagemUnconfiguredAlert"
  | AlertRecordType_TimeOutOfSyncAlert => "TimeOutOfSyncAlert"
  | AlertRecordType_NoTimeSyncAlert => "NoTimeSyncAlert"
  | AlertRecordType_MultipleTimeSyncAlert => "MultipleTimeSyncAlert"
  | AlertRecordType_UnknownTimeSyncAlert => "UnknownTimeSyncAlert"
  end.

Definition AlertSeverity_into (s : AlertSeverity) : Z :=
  match s with
  | AlertSeverity_DEBUG => 10
  | AlertSeverity_INFO => 20
  | AlertSeverity_WARNING => 30
  | AlertSeverity_ERROR => 40
  | AlertSeverity_CRITICAL => 50
  end.

(** The table and its sequence of identifiers. *)
Record Alerts : Type := MkAlerts { alerts : list AlertStateRecord; next_alert : Z }.

Definition lowered (now : string) (a : AlertStateRecord) : AlertStateRecord :=
  {| AlertStateRecord_id := AlertStateRecord_id a; AlertStateRecord_alert_item_type_id := AlertStateRecord_alert_item_type_id a;
     AlertStateRecord_alert_item_id := AlertStateRecord_alert_item_id a; AlertStateRecord_alert_type := AlertStateRecord_alert_type a;
     AlertStateRecord_begin := AlertStateRecord_begin a; AlertStateRecord_end := Some now; AlertStateRecord_active := None;
     AlertStateRecord_dismissed := AlertStateRecord_dismissed a; AlertStateRecord_severity := AlertStateRecord_severity a;
     AlertStateRecord_record_type := AlertStateRecord_record_type a; AlertStateRecord_variant := AlertStateRecord_variant a;
     AlertStateRecord_lustre_pid := AlertStateRecord_lustre_pid a; AlertStateRecord_message := AlertStateRecord_message a |}.

Definition to_lower (xs : list AlertRecordType) (host_id : Z) (a : AlertStateRecord) : bool :=
  bool_decide (AlertStateRecord_active a = Some true /\ AlertStateRecord_alert_item_id a = Some host_id /\
               AlertStateRecord_record_type a ∈ (AlertRecordType_to_string <$> xs)).

(** [now] is the time of the statement. *)
Definition lower (now : string) (xs : list AlertRecordType) (host_id : Z) (db : Alerts) : Alerts :=
  MkAlerts ((fun a => if to_lower xs host_id a then lowered now a else a) <$> alerts db) (next_alert db).

(** The unique columns of the table; [NULL]s never conflict. *)
Definition conflicts (record_type : string) (item_content_type_id item_id : Z) (a : AlertStateRecord) : bool :=
  bool_decide (AlertStateRecord_alert_item_type_id a = Some item_content_type_id /\ AlertStateRecord_alert_item_id a = Some item_id /\
               AlertStateRecord_alert_type a = record_type /\ AlertStateRecord_active a = Some true).

(** [ON CONFLICT DO NOTHING]. *)
Definition raise (now : string) (record_type : AlertRecordType) (msg : string) (item_content_type_id : Z) (lustre_pid : option Z)
    (severity : AlertSeverity) (item_id : Z) (db : Alerts) : Alerts :=
  let record_type := AlertRecordType_to_string record_type in
  if existsb (conflicts record_type item_content_type_id item_id) (alerts db)
  then MkAlerts (alerts db) (next_alert db + 1)
  else MkAlerts (alerts db ++
    [{| AlertStateRecord_id := next_alert db; AlertStateRecord_alert_item_type_id := Some item_content_type_id;
        AlertStateRecord_alert_item_id := Some item_id; AlertStateRecord_alert_type := record_type; AlertStateRecord_begin := now;
        AlertStateRecord_end := None; AlertStateRecord_active := Some true; AlertStateRecord_dismissed := false;
        AlertStateRecord_severity := AlertSeverity_into severity; AlertStateRecord_record_type := record_type;
        AlertStateRecord_variant := Some "{}"; AlertStateRecord_lustre_pid := lustre_pid; AlertStateRecord_message := Some msg |}])
    (next_alert db + 1).

(** * The service *)

Inductive Synced : Type := Synced_Synced | Synced_Unsynced.

(** [time::State]. *)
Inductive State : Type :=
  | State_None
  | State_Multiple
  | State_Synced
  | State_Unsynced (offset : option string)
  | State_Unknown.

Definition is_setup (h : ManagedHostRecord) : bool :=
  existsb (fun x => bool_decide (x = ManagedHostRecord_state h)) ["monitored"; "managed"; "working"].

Definition find_host (fqdn : string) (hosts : list ManagedHostRecord) : option ManagedHostRecord :=
  snd <$> list_find (fun h => ManagedHostRecord_fqdn h = fqdn /\ ManagedHostRecord_not_deleted h = Some true) hosts.

(** One branch of the [match]; [None] is the panic of [expect]. *)
Definition alert_for (now : string) (lower_ : list AlertRecordType) (t : AlertRecordType) (msg : string)
    (h : ManagedHostRecord) (db : Alerts) : option Alerts :=
  let db := lower now lower_ (ManagedHostRecord_id h) db in
  if is_setup h then
    ct ← ManagedHostRecord_content_type_id h;
    Some (raise now t msg ct None AlertSeverity_ERROR (ManagedHostRecord_id h) db)
  else Some db.

(** The body of the loop. *)
Definition ntp_message (now : string) (hosts : list ManagedHostRecord) (fqdn : string) (state : State) (db : Alerts) : option Alerts :=
  match find_host fqdn hosts with
  | None => Some db
  | Some host =>
      match state with
      | State_Synced =>
          Some (lower now [AlertRecordType_TimeOutOfSyncAlert; AlertRecordType_NoTimeSyncAlert;
            AlertRecordType_MultipleTimeSyncAlert; AlertRecordType_UnknownTimeSyncAlert] (ManagedHostRecord_id host) db)
      | State_None =>
          alert_for now [AlertRecordType_TimeOutOfSyncAlert; AlertRecordType_MultipleTimeSyncAlert; AlertRecordType_UnknownTimeSyncAlert]
            AlertRecordType_NoTimeSyncAlert ("No running time sync clients found on " +:+ fqdn) host db
      | State_Multiple =>
          alert_for now [AlertRecordType_TimeOutOfSyncAlert; AlertRecordType_NoTimeSyncAlert; AlertRecordType_UnknownTimeSyncAlert]
            AlertRecordType_MultipleTimeSyncAlert ("Multiple running time sync clients found on " +:+ fqdn) host db
      | State_Unsynced _ =>
          alert_for now [AlertRecordType_MultipleTimeSyncAlert; AlertRecordType_NoTimeSyncAlert; AlertRecordType_UnknownTimeSyncAlert]
            AlertRecordType_TimeOutOfSyncAlert ("Time is out of sync on server " +:+ fqdn) host db
      | State_Unknown =>
          alert_for now [AlertRecordType_MultipleTimeSyncAlert; AlertRecordType_NoTimeSyncAlert; AlertRecordType_TimeOutOfSyncAlert]
            AlertRecordType_UnknownTimeSyncAlert ("Unable to determine time sync status on " +:+ fqdn) host db
      end
  end.

(** * The agent *)

Inductive RunState : Type := Stopped | Enabled | Activating | Failed | Started | Setup.

(** The derived order is the order of the variants. *)
Definition RunState_index (r : RunState) : Z :=
  match r with Stopped => 0 | Enabled => 1 | Activating => 2 | Failed => 3 | Started => 4 | Setup => 5 end.
Definition RunState_geb (a b : RunState) : bool := RunState_index b <=? RunState_index a.

Definition parse_ntp_synced (output : string) : option Synced :=
  if String.eqb output "b true" then Some Synced_Synced
  else if String.eqb output "b false" then Some Synced_Unsynced
  else None.

(** The rest of a line, when it ends with a newline and is not empty: [(.+)\n]. *)
Definition rest_of_line (s : string) : option string :=
  match split_first (String "010" "") s with
  | Some (EmptyString, _) | None => None
  | Some (l, _) => Some l
  end.

(** The first place where [p] is followed by such a rest. *)
Fixpoint capture (p : string -> option string) (s : string) : option string :=
  match p s ≫= rest_of_line with
  | Some l => Some l
  | None => match s with EmptyString => None | String _ s => capture p s end
  end.

Definition after (p s : string) : option string := if starts_with p s then Some (sdrop (slen p) s) else None.

Definition parse_ntp_time_offset (output : string) : option string := capture (after "time correct to within ") output.

Definition parse_chrony_time_offset (output : string) : option string :=
  capture (fun s =>
    s ← after "Offset          : " s;
    match s with
    | String "+" s | String "-" s => Some s
    | _ => None
    end) output.

Section agent.
Context {E : Type}.

(** [x.or_else(|e| Ok(None))] with the two commands of a clock. *)
Definition clock_synced (parse_offset : string -> option string) (synced offset : Result E string)
    : Result E (option Synced * option string) :=
  o ← offset;
  Ok (match synced with Ok s => parse_ntp_synced s | Err _ => None end, parse_offset o).

Definition ntpd_synced := clock_synced parse_ntp_time_offset.
Definition chronyd_synced := clock_synced parse_chrony_time_offset.

Definition state_of_synced (x : option Synced * option string) : State :=
  match x.1 with
  | Some Synced_Synced => State_Synced
  | Some Synced_Unsynced => State_Unsynced x.2
  | None => State_Unknown
  end.

(** The arguments are what the four functions give when they are called. *)
Definition time_synced (is_ntp_configured_by_iml : Result E bool) (get_time_sync_services : Result E (RunState * RunState))
    (ntpd_synced chronyd_synced : Result E (option Synced * option string)) : Result E State :=
  _ ← is_ntp_configured_by_iml;
  services ← get_time_sync_services;
  let ntp := services.1 in
  let chrony := services.2 in
  if RunState_geb ntp Started && RunState_geb chrony Started then Ok State_Multiple
  else if negb (RunState_geb ntp Started) && negb (RunState_geb chrony Started) then Ok State_None
  else if RunState_geb ntp Started then state_of_synced <$> ntpd_synced
  else state_of_synced <$> chronyd_synced.
End agent.

(** * What holds *)

Lemma AlertRecordType_to_string_inj t u : AlertRecordType_to_string t = AlertRecordType_to_string u -> t = u.
Proof. destruct t, u; intros E; (reflexivity || discriminate E). Qed.

Definition time_types : list AlertRecordType :=
  [AlertRecordType_TimeOutOfSyncAlert; AlertRecordType_NoTimeSyncAlert; AlertRecordType_MultipleTimeSyncAlert; AlertRecordType_UnknownTimeSyncAlert].

(** The alert that a state calls for. *)
Definition alert_of (s : State) : option AlertRecordType :=
  match s with
  | State_Synced => None
  | State_None => Some AlertRecordType_NoTimeSyncAlert
  | State_Multiple => Some AlertRecordType_MultipleTimeSyncAlert
  | State_Unsynced _ => Some AlertRecordType_TimeOutOfSyncAlert
  | State_Unknown => Some AlertRecordType_UnknownTimeSyncAlert
  end.

Definition is_active (t : AlertRecordType) (item : Z) (a : AlertStateRecord) : Prop :=
  AlertStateRecord_active a = Some true /\ AlertStateRecord_alert_item_id a = Some item /\
  AlertStateRecord_record_type a = AlertRecordType_to_string t.

(** The unique constraint of the table, and that an alert is filed under its own type. *)
Record alerts_ok (db : Alerts) : Prop := MkAlertsOk {
  ok_unique : forall i k a b ct item, alerts db !! i = Some a -> alerts db !! k = Some b ->
    AlertStateRecord_alert_item_type_id a = Some ct -> AlertStateRecord_alert_item_type_id b = Some ct ->
    AlertStateRecord_alert_item_id a = Some item -> AlertStateRecord_alert_item_id b = Some item ->
    AlertStateRecord_alert_type a = AlertStateRecord_alert_type b ->
    AlertStateRecord_active a = Some true -> AlertStateRecord_active b = Some true -> i = k;
  ok_type : forall a, a ∈ alerts db -> AlertStateRecord_alert_type a = AlertStateRecord_record_type a }.

Lemma lower_lookup now xs h db i a : alerts (lower now xs h db) !! i = Some a ->
  exists b, alerts db !! i = Some b /\ a = (if to_lower xs h b then lowered now b else b).
Proof. simpl. rewrite list_lookup_fmap. destruct (alerts db !! i) as [b|]; [|done]. intros [= <-]. eauto. Qed.

Lemma lower_keeps now xs h b : let a := if to_lower xs h b then lowered now b else b in
  AlertStateRecord_alert_item_type_id a = AlertStateRecord_alert_item_type_id b /\
  AlertStateRecord_alert_item_id a = AlertStateRecord_alert_item_id b /\
  AlertStateRecord_alert_type a = AlertStateRecord_alert_type b /\
  AlertStateRecord_record_type a = AlertStateRecord_record_type b /\
  (AlertStateRecord_active a = Some true -> AlertStateRecord_active b = Some true /\ to_lower xs h b = false).
Proof. simpl. by destruct (to_lower xs h b). Qed.

Lemma lower_ok now xs h db : alerts_ok db -> alerts_ok (lower now xs h db).
Proof.
  intros [H1 H2]. split.
  - intros i k a b ct item Hi Hk. apply lower_lookup in Hi as (a' & Hi & ->), Hk as (b' & Hk & ->).
    destruct (lower_keeps now xs h a') as (-> & -> & -> & _ & Ha). destruct (lower_keeps now xs h b') as (-> & -> & -> & _ & Hb).
    intros ? ? ? ? ? [? _]%Ha [? _]%Hb. by eapply (H1 i k a' b').
  - intros a (i & Hi)%list_elem_of_lookup_1. apply lower_lookup in Hi as (a' & Hi & ->).
    destruct (lower_keeps now xs h a') as (_ & _ & -> & -> & _). by eapply H2, list_elem_of_lookup_2.
Qed.

(** An alert is active after [lower] when it was before and is not of the types that are lowered. *)
Lemma lower_active now xs h db t item : (exists a, a ∈ alerts (lower now xs h db) /\ is_active t item a) ->
  (exists a, a ∈ alerts db /\ is_active t item a) /\ (item = h -> t ∉ xs).
Proof.
  intros (a & (i & Hi)%list_elem_of_lookup_1 & (Ha & Hit & Hty)). apply lower_lookup in Hi as (b & Hi & ->).
  destruct (lower_keeps now xs h b) as (_ & E1 & _ & E2 & E3). destruct (E3 Ha) as [Hb Hl]. rewrite E1 in Hit. rewrite E2 in Hty.
  split; [exists b; split; [by eapply list_elem_of_lookup_2|done]|]. intros -> Ht.
  unfold to_lower in Hl. apply bool_decide_eq_false in Hl. apply Hl. split; [done|]. split; [done|].
  rewrite Hty. by apply list_elem_of_fmap_2.
Qed.

Lemma existsb_conflict t ct item (l : list AlertStateRecord) : existsb (conflicts t ct item) l = true <->
  exists a, a ∈ l /\ AlertStateRecord_alert_item_type_id a = Some ct /\ AlertStateRecord_alert_item_id a = Some item /\
    AlertStateRecord_alert_type a = t /\ AlertStateRecord_active a = Some true.
Proof.
  rewrite existsb_exists. unfold conflicts. split.
  - intros (a & Ha%list_elem_of_In & Hc%bool_decide_eq_true). eauto.
  - intros (a & Ha & Hc). exists a. by rewrite <-list_elem_of_In, bool_decide_eq_true.
Qed.

Lemma raise_ok now t msg ct pid sev item db : alerts_ok db -> alerts_ok (raise now t msg ct pid sev item db).
Proof.
  intros [H1 H2]. unfold raise. destruct (existsb _ _) eqn:Hc; [by split|]. apply not_true_iff_false in Hc. rewrite existsb_conflict in Hc.
  split; simpl.
  - intros i k a b ct' item' Hi Hk. apply lookup_app_Some in Hi as [Hi|[Li Hi]], Hk as [Hk|[Lk Hk]]; [by eapply H1| | |].
    + apply list_lookup_singleton_Some in Hk as [_ <-]. simpl. intros. simplify_eq.
      destruct Hc. exists a. by split; [eapply list_elem_of_lookup_2|].
    + apply list_lookup_singleton_Some in Hi as [_ <-]. simpl. intros. simplify_eq.
      destruct Hc. exists b. by split; [eapply list_elem_of_lookup_2|].
    + apply list_lookup_singleton_Some in Hi as [Ei _], Hk as [Ek _]. lia.
  - intros a [Ha| ->%list_elem_of_singleton]%elem_of_app; auto.
Qed.

(** After [raise] the alert is active, and no other than before. *)
Lemma raise_active now t msg ct pid sev item db : alerts_ok db ->
  (exists a, a ∈ alerts (raise now t msg ct pid sev item db) /\ is_active t item a /\ AlertStateRecord_alert_item_type_id a = Some ct) /\
  (forall u item', (exists a, a ∈ alerts (raise now t msg ct pid sev item db) /\ is_active u item' a) ->
     (exists a, a ∈ alerts db /\ is_active u item' a) \/ (u = t /\ item' = item)).
Proof.
  intros [_ H2]. unfold raise. destruct (existsb _ _) eqn:Hc; simpl.
  - apply existsb_conflict in Hc as (a & Ha & E1 & E2 & E3 & E4). split; [|by left]. exists a. repeat split; try done.
    by rewrite <-H2.
  - split.
    + eexists. split; [apply elem_of_app; right; by apply list_elem_of_singleton|]. by repeat split.
    + intros u item' (a & [Ha| ->%list_elem_of_singleton]%elem_of_app & Hact); [left; eauto|]. right.
      destruct Hact as (_ & [= ->] & E). simpl in E. by apply AlertRecordType_to_string_inj in E as ->.
Qed.

(** After a report about a host that is set up, the alert its state calls for is active for the
    host, no other alert about its clock is, and all others are as they were; there is
    never more than one active alert of a type for an item. *)
Theorem ntp_alerts now hosts fqdn s db h ct (Hdb : alerts_ok db) (Hh : find_host fqdn hosts = Some h) (Hs : is_setup h = true)
    (Hct : ManagedHostRecord_content_type_id h = Some ct) :
  exists db', ntp_message now hosts fqdn s db = Some db' /\ alerts_ok db' /\
    (forall t, t ∈ time_types ->
       ((exists a, a ∈ alerts db' /\ is_active t (ManagedHostRecord_id h) a) <-> alert_of s = Some t)) /\
    (forall t item a, a ∈ alerts db -> is_active t item a -> t ∉ time_types \/ item <> ManagedHostRecord_id h -> a ∈ alerts db').
Proof.
  assert (Hkeep : forall xs t item a, xs ⊆ time_types -> a ∈ alerts db -> is_active t item a ->
    t ∉ time_types \/ item <> ManagedHostRecord_id h -> a ∈ alerts (lower now xs (ManagedHostRecord_id h) db)).
  { intros xs t item a Hsub (i & Hi)%list_elem_of_lookup_1 (_ & Hit & Hty) Ho. apply (list_elem_of_lookup_2 _ i).
    simpl. rewrite list_lookup_fmap, Hi. simpl. replace (to_lower xs _ a) with false; [done|]. symmetry.
    apply bool_decide_eq_false. intros (_ & Hit' & (u & Eu & Hu)%list_elem_of_fmap). destruct Ho as [Ho|Ho]; [|congruence].
    rewrite Hty in Eu. apply AlertRecordType_to_string_inj in Eu as ->. auto. }
  destruct (alert_of s) as [t|] eqn:Ht.
  - assert (exists xs msg, ntp_message now hosts fqdn s db = alert_for now xs t msg h db /\ xs ⊆ time_types /\
      (forall u, u ∈ time_types -> (u ∉ xs <-> u = t))) as (xs & msg & -> & Hsub & Hxs).
    { unfold ntp_message. rewrite Hh. destruct s; simplify_eq/=; do 2 eexists; (split; [reflexivity|]); unfold time_types;
        (split; [set_solver|]); intros u Hu; set_unfold; intuition congruence. }
    unfold alert_for. rewrite Hs, Hct. simpl. eexists. split; [reflexivity|].
    set (db1 := lower now xs (ManagedHostRecord_id h) db). assert (Hok : alerts_ok db1) by (by apply lower_ok).
    destruct (raise_active now t msg ct None AlertSeverity_ERROR (ManagedHostRecord_id h) db1 Hok) as [(a & Ha & Hact & _) Hother].
    split; [by apply raise_ok|]. split.
    + intros u Hu. split; [|intros [= <-]; eauto]. intros [Hx|[-> _]]%Hother; [|done].
      apply lower_active in Hx as [_ Hn]. f_equal. symmetry. apply Hxs; auto.
    + intros u item b Hb Hact' Ho. specialize (Hkeep xs u item b Hsub Hb Hact' Ho). unfold raise. fold db1 in Hkeep.
      case_match; simpl; [done|]. apply elem_of_app. by left.
  - unfold ntp_message. rewrite Hh. destruct s; try done. eexists. split; [reflexivity|]. split; [by apply lower_ok|]. split.
    + intros u Hu. split; [|done]. intros [_ Hn]%lower_active. destruct (Hn eq_refl). done.
    + intros u item b Hb Hact Ho. eapply Hkeep; eauto.
Qed.

(** * Witnesses *)

Definition sample_host : ManagedHostRecord :=
  MkManagedHostRecord 7 0 "managed" false (Some true) (Some 12) "oss1" "oss1" "oss1" None None false "existing_keys" "".

Definition sample_alerts : Alerts :=
  raise "t0" AlertRecordType_TimeOutOfSyncAlert "Time is out of sync on server oss1" 12 None AlertSeverity_ERROR 7 (MkAlerts [] 1).

(** The clock was out of sync and its daemon is then stopped. *)
Example no_client_found :
  time_synced (E := unit) (Ok true) (Ok (Stopped, Failed)) (Err tt) (Err tt) = Ok State_None /\
  (fun db => (fun a => (AlertStateRecord_record_type a, AlertStateRecord_active a)) <$> alerts db) <$>
    ntp_message "t1" [sample_host] "oss1" State_None sample_alerts =
  Some [("TimeOutOfSyncAlert", None); ("NoTimeSyncAlert", Some true)].
Proof. by vm_compute. Qed.

Example offsets_read :
  parse_ntp_time_offset ("synchronised to NTP server (10.0.0.1) at stratum 11" +:+ String "010" "   time correct to within 49 ms" +:+ String "010" "") = Some "49 ms" /\
  parse_chrony_time_offset ("Offset          : +0.000000002 seconds" +:+ String "010" "") = Some "0.000000002 seconds".
Proof. by vm_compute. Qed.

Lemma ntp_alerts_witness : exists db', ntp_message "t1" [sample_host] "oss1" State_None sample_alerts = Some db' /\
  exists a, a ∈ alerts db' /\ is_active AlertRecordType_NoTimeSyncAlert 7 a.
Proof.
  destruct (ntp_alerts "t1" [sample_host] "oss1" State_None sample_alerts sample_host 12) as (db' & E & _ & H & _); [|done..|].
  - apply raise_ok. split; [intros i k a b ct item Hi; discriminate Hi|]. by intros a ?%elem_of_nil.
  - exists db'. split; [exact E|]. apply H; [set_solver|reflexivity].
Defined.
