(* ===== verification/Journal.v ===== *)
(** The journals of the servers: the agent plugin [iml-agent/src/daemon_plugins/journal.rs]
    that reads them, and the service [iml-journal] that stores the messages, purges old
    ones and turns some into alerts. *)
From S2P Require Import Prelude RustStd WarpTypes Alerts.
From stdpp Require Import base gmap sets list strings.
From Stdlib Require Import ZArith Ascii.

Open Scope Z_scope.

(** * Messages *)

Inductive JournalPriority : Type := Emerg | Alert_ | Crit | Err_ | Warning | Notice | Info_ | Debug_.

(** [as i16]: the discriminant. *)
Definition JournalPriority_as (p : JournalPriority) : Z :=
  match p with Emerg => 0 | Alert_ => 1 | Crit => 2 | Err_ => 3 | Warning => 4 | Notice => 5 | Info_ => 6 | Debug_ => 7 end.

(** [TryFrom<String>]: [parse::<u8>] and the range; [None] is the error. *)
Definition JournalPriority_try_from (s : string) : option JournalPriority :=
  match from_str_radix 10 0 255 s with
  | Ok 0 => Some Emerg
  | Ok 1 => Some Alert_
  | Ok 2 => Some Crit
  | Ok 3 => Some Err_
  | Ok 4 => Some Warning
  | Ok 5 => Some Notice
  | Ok 6 => Some Info_
  | Ok 7 => Some Debug_
  | _ => None
  end.

(** [jm_datetime] is in microseconds. *)
Record JournalMessage : Type := MkJournalMessage {
  jm_datetime : Z; jm_severity : JournalPriority; jm_facility : Z; jm_source : string; jm_message : string }.

Inductive MessageClass : Type := Normal | Lustre | LustreError | Copytool | CopytoolError.

Definition MessageClass_as (c : MessageClass) : Z :=
  match c with Normal => 0 | Lustre => 1 | LustreError => 2 | Copytool => 3 | CopytoolError => 4 end.

(** * The agent plugin *)

Inductive Msg : Type := MsgString (s : string) | MsgBytes (b : string).

Record IncomingMessage : Type := MkIncomingMessage {
  im_cursor : string; im_realtime_timestamp : string; im_priority : option string;
  im_syslog_facility : option string; im_syslog_identifier : option string; im_message : Msg }.

(** One entry; [None] for each of its errors. *)
Definition read_entry (x : IncomingMessage) : option (string * JournalMessage) :=
  message ← match im_message x with
            | MsgString s => Some s
            | MsgBytes b => if utf8_valid b then Some b else None
            end;
  priority ← match im_priority x with Some p => JournalPriority_try_from p | None => Some Info_ end;
  micros ← match parse_u64 (im_realtime_timestamp x) with Ok n => Some n | Err _ => None end;
  facility ← match from_str_radix 10 (- 2 ^ 15) (2 ^ 15 - 1) (default "3" (im_syslog_facility x)) with Ok n => Some n | Err _ => None end;
  Some (im_cursor x, MkJournalMessage micros priority facility (default "unknown" (im_syslog_identifier x)) message).

(** What is asked for: the 1000 entries after the cursor, or the last 999. *)
Definition journal_range (cursor : option string) : string :=
  match cursor with Some x => "entries=" +:+ x +:+ ":1:1000" | None => "entries=:-999:" end.

Section plugin.
Context {E : Type}.
(** The gateway: what it answers to a range, with every line decoded. *)
Context (gateway : string -> Result E (list IncomingMessage)).

Inductive JournalError : Type := Gateway (e : E) | BadEntry.

Definition read_entries (cursor : option string) : Result JournalError (list (string * JournalMessage)) :=
  match gateway (journal_range cursor) with
  | Err e => Err (Gateway e)
  | Ok xs => match mapM read_entry xs with Some ys => Ok ys | None => Err BadEntry end
  end.

(** [update_session], with the cursor before and after. *)
Definition update_session (cursor : option string) : Result JournalError (option (list JournalMessage)) * option string :=
  match read_entries cursor with
  | Err e => (Err e, cursor)
  | Ok xs =>
      let messages := xs.*2 in
      match last xs.*1 with
      | None => (Ok None, cursor)
      | Some new_cursor => (Ok (Some messages), Some new_cursor)
      end
  end.
End plugin.

(** * The service: classes of messages *)

Section classes.
(** One character of the regular expression [\d]: what is left after it. *)
Context (digit : string -> option string).

Fixpoint strip_digits (fuel : nat) (s : string) : string :=
  match fuel with
  | O => s
  | S n => match digit s with Some s' => strip_digits n s' | None => s end
  end.

(** [\d+]. *)
Definition digits (s : string) : option string := s' ← digit s; Some (strip_digits (slen s') s').

(** [^\[\d+\.\d+\] ] followed by [p]. *)
Definition after_timestamp (p s : string) : bool :=
  match (s ← after "[" s; s ← digits s; s ← after "." s; s ← digits s; after "] " s) with
  | Some s => starts_with p s
  | None => false
  end.

Definition get_message_class (message : string) : MessageClass :=
  if after_timestamp "LustreError:" message || starts_with "LustreError:" message then LustreError
  else if after_timestamp "Lustre:" message || starts_with "Lustre:" message then Lustre
  else Normal.
End classes.

(** * The parsers *)

(** A parser that may also panic, when a slice is out of range or inside a character. *)
Inductive Parse (A : Type) : Type := Panic | Nothing | Found (a : A).
Arguments Panic {A}.
Arguments Nothing {A}.
Arguments Found {A} a.

#[export] Instance Parse_bind : MBind Parse :=
  fun A B f m => match m with Panic => Panic | Nothing => Nothing | Found a => f a end.

(** [?] on an option, and a slice. *)
Definition try_opt {A} (o : option A) : Parse A := match o with Some a => Found a | None => Nothing end.
Definition slice {A} (o : option A) : Parse A := match o with Some a => Found a | None => Panic end.

(** [find] with a string: what is before and after its first occurrence. *)
Definition find (p s : string) : Parse (string * string) := try_opt (split_first p s).

Definition parse_i32 (s : string) : Parse Z :=
  match from_str_radix 10 (- 2 ^ 31) (2 ^ 31 - 1) s with Ok n => Found n | Err _ => Nothing end.

(** [msg[9..9 + msg[9..].find(':')?].parse::<i32>().ok()?]. *)
Definition pid_at_9 (msg : string) : Parse Z :=
  s ← slice (get_from 9 msg);
  '(pid, _) ← find ":" s;
  parse_i32 pid.

(** [:\s+connection from]: what is before the first match. *)
Fixpoint before_connection (s : string) : option string :=
  let here :=
    match s with
    | String ":" r => negb (String.eqb (trim_start r) r) && starts_with "connection from" (trim_start r)
    | _ => false
    end in
  if here then Some ""
  else match s with EmptyString => None | String a s => String a <$> before_connection s end.

Definition client_connection_parser (msg : string) : Parse (Z * string) :=
  '(_, nid) ← find "@" msg;
  '(nid, _) ← find " " nid;
  '(_, uuid) ← find " from " msg;
  '(uuid, _) ← find "@" uuid;
  target ← try_opt (before_connection msg);
  '(_, target) ← try_opt (split_last " " target);
  lustre_pid ← pid_at_9 msg;
  Found (lustre_pid, "client " +:+ uuid +:+ " from " +:+ nid +:+ " connected to target " +:+ target).

Definition server_security_flavor_parser (msg : string) : Parse (Z * string) :=
  '(_, flavor) ← try_opt (split_last " " msg);
  lustre_pid ← pid_at_9 msg;
  Found (lustre_pid, "with security flavor " +:+ flavor).

Definition get_item_after (s aft : string) : Parse string :=
  '(_, s) ← find aft s;
  '(item, _) ← find " " s;
  Found item.

Definition admin_client_eviction_parser (msg : string) : Parse (Z * string) :=
  uuid ← get_item_after msg "evicting ";
  lustre_pid ← pid_at_9 msg;
  Found (lustre_pid, "client " +:+ uuid +:+ " evicted by the administrator").

Definition client_eviction_parser (msg : string) : Parse (Z * string) :=
  '(_, s) ← find "### " msg;
  '(reason, _) ← find ": evicting client at " s;
  client ← get_item_after msg ": evicting client at ";
  pid ← get_item_after msg "pid: ";
  lustre_pid ← parse_i32 pid;
  Found (lustre_pid, "client " +:+ client +:+ " evicted: " +:+ reason).

(** * The handlers *)

Inductive Handler : Type :=
  | port_used_handler | client_connection_handler | server_security_flavor_handler | admin_client_eviction_handler | client_eviction_handler.

Definition HANDLERS : list (string * Handler) :=
  [("Can't start acceptor on port", port_used_handler);
   ("Can't create socket:", port_used_handler);
   (": connection from ", client_connection_handler);
   (": select flavor ", server_security_flavor_handler);
   (": obd_export_evict_by_uuid()", admin_client_eviction_handler);
   (": evicting client at ", client_eviction_handler)].

(** [handlers] is the table in the order in which the map is iterated. *)
Definition find_one_in_many (msg : string) (handlers : list (string * Handler)) : option Handler :=
  (fun x => x.2.2) <$> list_find (fun kv : string * Handler => contains msg kv.1 = true) handlers.

Definition set_message (msg : string) (a : AlertStateRecord) : AlertStateRecord :=
  {| AlertStateRecord_id := AlertStateRecord_id a; AlertStateRecord_alert_item_type_id := AlertStateRecord_alert_item_type_id a;
     AlertStateRecord_alert_item_id := AlertStateRecord_alert_item_id a; AlertStateRecord_alert_type := AlertStateRecord_alert_type a;
     AlertStateRecord_begin := AlertStateRecord_begin a; AlertStateRecord_end := AlertStateRecord_end a;
     AlertStateRecord_active := AlertStateRecord_active a;
     AlertStateRecord_dismissed := AlertStateRecord_dismissed a; AlertStateRecord_severity := AlertStateRecord_severity a;
     AlertStateRecord_record_type := AlertStateRecord_record_type a; AlertStateRecord_variant := AlertStateRecord_variant a;
     AlertStateRecord_lustre_pid := AlertStateRecord_lustre_pid a; AlertStateRecord_message := Some msg |}.

(** [WHERE lustre_pid = $1 ORDER BY id DESC LIMIT 1]. *)
Definition latest_of_pid (pid : Z) (db : Alerts) : option AlertStateRecord :=
  foldr (fun a best =>
    if bool_decide (AlertStateRecord_lustre_pid a = Some pid) then
      match best with
      | Some b => if AlertStateRecord_id b <? AlertStateRecord_id a then Some a else best
      | None => Some a
      end
    else best) None (alerts db).

Definition add_flavor (pid : Z) (msg : string) (db : Alerts) : Alerts :=
  match latest_of_pid pid db with
  | Some a =>
      match AlertStateRecord_message a with
      | Some message =>
          MkAlerts ((fun b => if AlertStateRecord_id b =? AlertStateRecord_id a then set_message (message +:+ " " +:+ msg) b else b) <$> alerts db)
            (next_alert db)
      | None => db
      end
  | None => db
  end.

(** A handler that raises an alert for what its parser finds. *)
Definition raise_found (now : string) (p : Parse (Z * string)) (severity : AlertSeverity) (host_id host_content_type_id : Z) (db : Alerts)
    : option Alerts :=
  match p with
  | Panic => None
  | Nothing => Some db
  | Found (lustre_pid, msg) =>
      Some (raise now AlertRecordType_ClientConnectEvent msg host_content_type_id (Some lustre_pid) severity host_id db)
  end.

(** [None] is a panic. *)
Definition run_handler (now : string) (h : Handler) (msg : string) (host_id host_content_type_id : Z) (db : Alerts) : option Alerts :=
  match h with
  | port_used_handler =>
      Some (raise now AlertRecordType_SyslogEvent "Lustre port already being used" host_content_type_id None AlertSeverity_ERROR host_id db)
  | client_connection_handler =>
      raise_found now (client_connection_parser msg) AlertSeverity_INFO host_id host_content_type_id db
  | server_security_flavor_handler =>
      match server_security_flavor_parser msg with
      | Panic => None
      | Nothing => Some db
      | Found (lustre_pid, msg) => Some (add_flavor lustre_pid msg db)
      end
  | admin_client_eviction_handler =>
      raise_found now (admin_client_eviction_parser msg) AlertSeverity_WARNING host_id host_content_type_id db
  | client_eviction_handler =>
      raise_found now (client_eviction_parser msg) AlertSeverity_WARNING host_id host_content_type_id db
  end.

Definition execute_handlers (now : string) (handlers : list (string * Handler)) (msg : string) (host_id host_content_type_id : Z) (db : Alerts)
    : option Alerts :=
  match find_one_in_many msg handlers with
  | None => Some db
  | Some h => run_handler now h msg host_id host_content_type_id db
  end.

(** * The table of messages *)

Record LogRow : Type := MkLogRow {
  log_id : Z; log_datetime : Z; log_fqdn : string; log_severity : Z; log_facility : Z; log_tag : string; log_message : string; log_class : Z }.

Section service.
(** [*DBLOG_HW] and [*DBLOG_LW]. *)
Context (DBLOG_HW DBLOG_LW : Z).
Context (digit : string -> option string).
(** [Utc.timestamp(t, 0)], which panics out of its range. *)
Context (timestamp : Z -> option Z).
(** The iteration order of [HANDLERS]. *)
Context (handlers : list (string * Handler)).

(** The rows are in the order of their identifiers. The loop of [purge_excess]; [None] when it
    does not come to its end within [fuel] passes. *)
Fixpoint purge_loop (fuel : nat) (num_rows : Z) (rows : list LogRow) : option (Z * list LogRow) :=
  if DBLOG_LW <? num_rows then
    match fuel with
    | O => None
    | S n =>
        let limit := Z.min 10000 (num_rows - DBLOG_LW) in
        let x := Z.min limit (Z.of_nat (length rows)) in
        purge_loop n (num_rows - x) (drop (Z.to_nat limit) rows)
    end
  else Some (num_rows, rows).

Definition purge_excess (fuel : nat) (num_rows : Z) (rows : list LogRow) : option (Z * list LogRow) :=
  if num_rows <=? DBLOG_HW then Some (num_rows, rows) else purge_loop fuel num_rows rows.

Record Journal : Type := MkJournal { num_rows : Z; log : list LogRow; next_log : Z; journal_alerts : Alerts }.

Fixpoint log_rows (id : Z) (fqdn : string) (xs : list JournalMessage) (times : list Z) : list LogRow :=
  match xs, times with
  | x :: xs, t :: times =>
      MkLogRow id t fqdn (JournalPriority_as (jm_severity x)) (jm_facility x) (jm_source x) (jm_message x)
        (MessageClass_as (get_message_class digit (jm_message x))) :: log_rows (id + 1) fqdn xs times
  | _, _ => []
  end.

Fixpoint run_handlers (now : string) (xs : list JournalMessage) (host_id ct : Z) (db : Alerts) : option Alerts :=
  match xs with
  | [] => Some db
  | x :: xs => db ← execute_handlers now handlers (jm_message x) host_id ct db; run_handlers now xs host_id ct db
  end.

(** [t.as_secs().try_into()] and the conversion. *)
Definition time_of (x : JournalMessage) : option Z :=
  let secs := jm_datetime x / 1000000 in
  if secs <? 2 ^ 63 then timestamp secs else None.

(** The body of the loop; [None] when the service ends: a panic, an error of a conversion, or a
    purge that needs more than [fuel] passes. *)
Definition journal_message (fuel : nat) (now : string) (hosts : list ManagedHostRecord) (fqdn : string) (xs : list JournalMessage) (j : Journal)
    : option Journal :=
  '(n, rows) ← purge_excess fuel (num_rows j) (log j);
  match find_host fqdn hosts with
  | None => Some (MkJournal n rows (next_log j) (journal_alerts j))
  | Some h =>
      match ManagedHostRecord_content_type_id h with
      | None => Some (MkJournal n rows (next_log j) (journal_alerts j))
      | Some ct =>
          db ← run_handlers now xs (ManagedHostRecord_id h) ct (journal_alerts j);
          times ← mapM time_of xs;
          Some (MkJournal (n + Z.of_nat (length xs)) (rows ++ log_rows (next_log j) fqdn xs times)
                  (next_log j + Z.of_nat (length xs)) db)
      end
  end.

(** The service counts the rows when it starts. *)
Definition journal_start (rows : list LogRow) (next : Z) (db : Alerts) : Journal := MkJournal (Z.of_nat (length rows)) rows next db.

End service.

(** * Purging *)

Section purge.
Context (DBLOG_HW DBLOG_LW : Z) (Hlw : 0 <= DBLOG_LW).

Lemma purge_loop_exact fuel rows : (Z.to_nat (Z.of_nat (length rows) - DBLOG_LW) <= fuel)%nat ->
  purge_loop DBLOG_LW fuel (Z.of_nat (length rows)) rows =
  Some (Z.min (Z.of_nat (length rows)) DBLOG_LW, drop (Z.to_nat (Z.of_nat (length rows) - DBLOG_LW)) rows).
Proof.
  revert rows. induction fuel as [|n IH]; intros rows Hf; cbn [purge_loop]; destruct (Z.ltb_spec DBLOG_LW (Z.of_nat (length rows))) as [Hl|Hl].
  - lia.
  - rewrite Z.min_l by lia. replace (Z.to_nat _) with 0%nat by lia. by rewrite drop_0.
  - set (limit := Z.min 10000 (Z.of_nat (length rows) - DBLOG_LW)).
    assert (E : Z.of_nat (length rows) - Z.min limit (Z.of_nat (length rows)) = Z.of_nat (length (drop (Z.to_nat limit) rows)))
      by (rewrite length_drop; lia).
    rewrite E, IH by (rewrite length_drop; lia). rewrite length_drop, drop_drop. do 2 f_equal; [lia|f_equal; lia].
  - rewrite Z.min_l by lia. replace (Z.to_nat _) with 0%nat by lia. by rewrite drop_0.
Qed.

(** While the service knows how many rows there are, purging ends, and above the high mark it
    leaves exactly the newest ones up to the low mark. *)
Theorem purge_keeps_newest fuel rows (Hf : (length rows <= fuel)%nat) :
  purge_excess DBLOG_HW DBLOG_LW fuel (Z.of_nat (length rows)) rows =
  Some (if Z.of_nat (length rows) <=? DBLOG_HW then (Z.of_nat (length rows), rows)
        else (Z.min (Z.of_nat (length rows)) DBLOG_LW, drop (Z.to_nat (Z.of_nat (length rows) - DBLOG_LW)) rows)).
Proof. unfold purge_excess. case_match; [done|]. apply purge_loop_exact. lia. Qed.

(** When rows have been deleted by another program, the loop deletes nothing any more once the
    table is empty, and does not end. *)
Theorem purge_diverges n rows (Hhw : DBLOG_HW < n) (Hn : DBLOG_LW + Z.of_nat (length rows) < n) :
  forall fuel, purge_excess DBLOG_HW DBLOG_LW fuel n rows = None.
Proof.
  intros fuel. unfold purge_excess. destruct (Z.leb_spec n DBLOG_HW); [lia|]. clear Hhw H.
  revert n rows Hn. induction fuel as [|m IH]; intros n rows Hn; cbn [purge_loop]; rewrite (proj2 (Z.ltb_lt _ _)) by lia; [done|].
  apply IH. rewrite length_drop. lia.
Qed.

Context (digit : string -> option string) (timestamp : Z -> option Z) (handlers : list (string * Handler)).

Lemma log_rows_length id fqdn xs times : length times = length xs -> length (log_rows digit id fqdn xs times) = length xs.
Proof.
  revert id times. induction xs as [|x xs IH]; intros id [|t times] E; simplify_eq/=; [done|]. by rewrite IH.
Qed.

(** The count the service keeps is the number of rows in the table after every message, so
    that the purge before the next one ends; and the table never holds more rows than the
    larger of its marks and one message. *)
Theorem journal_counts fuel now hosts fqdn xs j j' (Hc : num_rows j = Z.of_nat (length (log j)))
    (E : journal_message DBLOG_HW DBLOG_LW digit timestamp handlers fuel now hosts fqdn xs j = Some j') :
  num_rows j' = Z.of_nat (length (log j')) /\ num_rows j' <= Z.max DBLOG_HW DBLOG_LW + Z.of_nat (length xs).
Proof.
  unfold journal_message in E. destruct (purge_excess _ _ _ _ _) as [[n rows]|] eqn:Ep; [|done]. simpl in E.
  assert (Hp : n = Z.of_nat (length rows) /\ n <= Z.max DBLOG_HW DBLOG_LW).
  { unfold purge_excess in Ep. rewrite Hc in Ep. destruct (Z.leb_spec (Z.of_nat (length (log j))) DBLOG_HW) as [Hl|Hl]; [simplify_eq; lia|].
    clear Hc Hl E. revert Ep. generalize (log j) as l. induction fuel as [|m IH]; intros l; cbn [purge_loop];
      (destruct (Z.ltb_spec DBLOG_LW (Z.of_nat (length l))) as [Hl|Hl]; [|intros; simplify_eq; lia]); [done|].
    set (limit := Z.min 10000 (Z.of_nat (length l) - DBLOG_LW)).
    replace (Z.of_nat (length l) - Z.min limit (Z.of_nat (length l))) with (Z.of_nat (length (drop (Z.to_nat limit) l)))
      by (rewrite length_drop; lia). apply IH. }
  destruct Hp as [-> Hb]. destruct (find_host fqdn hosts) as [h|]; [|simplify_eq/=; lia].
  destruct (ManagedHostRecord_content_type_id h) as [ct|]; [|simplify_eq/=; lia].
  destruct (run_handlers _ _ _ _ _ _) as [db|]; [|done]. simpl in E. destruct (mapM (time_of timestamp) xs) as [times|] eqn:Et; [|done].
  simplify_eq/=. apply mapM_Some, Forall2_length in Et. rewrite length_app, log_rows_length by done. lia.
Qed.

End purge.

(** * The plugin *)

Section plugin.
Context {E : Type} (gateway : string -> Result E (list IncomingMessage)).

(** The plugin hands on what follows its cursor, all of it and in order, and its new cursor is
    the one of the last message handed on; otherwise the cursor stays. *)
Theorem update_session_spec cursor :
  match update_session gateway cursor with
  | (Ok (Some messages), cursor') =>
      exists xs, gateway (journal_range cursor) = Ok xs /\ Forall2 (fun x m => read_entry x = Some (im_cursor x, m)) xs messages /\
        cursor' = im_cursor <$> last xs /\ xs <> []
  | (Ok None, cursor') => gateway (journal_range cursor) = Ok [] /\ cursor' = cursor
  | (Err _, cursor') => cursor' = cursor
  end.
Proof.
  unfold update_session, read_entries. destruct (gateway _) as [xs|e]; [|done].
  destruct (mapM read_entry xs) as [ys|] eqn:Ey; [|done]. apply mapM_Some in Ey.
  assert (Hc : forall x y, read_entry x = Some y -> y.1 = im_cursor x).
  { intros x y. unfold read_entry. repeat (case_match || (intros; simplify_option_eq)); done. }
  assert (Ef : ys.*1 = im_cursor <$> xs).
  { induction Ey as [|x y xs ys Hxy Ey IH]; [done|]. rewrite !fmap_cons, IH. by rewrite (Hc x y Hxy). }
  rewrite Ef, fmap_last. destruct (last xs) as [x|] eqn:El; simpl.
  - exists xs. split; [done|]. split; [|split; [by rewrite El|by intros ->]]. clear -Ey Hc.
    induction Ey as [|x y xs ys Hxy Ey IH]; constructor; [|done]. rewrite Hxy. specialize (Hc x y Hxy). by destruct y; simplify_eq/=.
  - apply last_None in El as ->. done.
Qed.

(** One entry that cannot be read, for instance a message that is not UTF-8, stops the plugin for
    good: every read from the cursor fails, and the cursor does not move. *)
Theorem bad_entry_stops cursor xs x (Hg : gateway (journal_range cursor) = Ok xs) (Hx : x ∈ xs) (Hbad : read_entry x = None) :
  forall n, Nat.iter n (fun c => (update_session gateway c).2) cursor = cursor /\ (update_session gateway cursor).1 = Err BadEntry.
Proof.
  assert (Hm : mapM read_entry xs = None).
  { destruct (mapM read_entry xs) as [ys|] eqn:Ey; [|done]. apply mapM_Some in Ey.
    apply list_elem_of_lookup_1 in Hx as (i & Hi). destruct (Forall2_lookup_l _ _ _ _ _ Ey Hi) as (y & _ & Hy). congruence. }
  assert (Hu : update_session gateway cursor = (Err BadEntry, cursor)) by (unfold update_session, read_entries; by rewrite Hg, Hm).
  intros n. split; [|by rewrite Hu]. induction n as [|n IH]; [done|]. simpl. by rewrite IH, Hu.
Qed.

End plugin.

(** * The handlers *)

Lemma contains_app p a b : contains p (a +:+ p +:+ b) = true.
Proof.
  induction a as [|c a IH].
  - rewrite str_app_nil_l. pose proof (starts_with_app p b) as Hs. destruct (p +:+ b); cbn [contains]; by rewrite Hs.
  - rewrite str_app_cons. cbn [contains]. by rewrite IH, orb_true_r.
Qed.

Lemma contains_spec p s : contains p s = true <-> exists a b, s = a +:+ p +:+ b.
Proof.
  split; [|intros (a & b & ->); apply contains_app].
  induction s as [|c s IH]; cbn [contains]; intros [H|H]%orb_prop; try done.
  - apply starts_with_spec in H as (r & E). exists "", r. by rewrite str_app_nil_l.
  - apply starts_with_spec in H as (r & E). exists "", r. by rewrite str_app_nil_l.
  - destruct (IH H) as (a & b & ->). exists (String c a), b. by rewrite str_app_cons.
Qed.

Lemma contains_trans p q r : contains p q = true -> contains q r = true -> contains p r = true.
Proof.
  intros (a & b & ->)%contains_spec (c & d & ->)%contains_spec. apply contains_spec. exists (c +:+ a), (b +:+ d).
  by rewrite <-!str_app_assoc.
Qed.

Lemma contains_length p s : contains p s = true -> (slen p <= slen s)%nat.
Proof. intros (a & b & ->)%contains_spec. rewrite !slen_app. lia. Qed.

Lemma contains_antisym p q : contains p q = true -> contains q p = true -> p = q.
Proof.
  intros Hpq Hqp%contains_length. apply contains_spec in Hpq as (a & b & ->). rewrite !slen_app in Hqp.
  assert (slen a = 0%nat /\ slen b = 0%nat) as [Ha Hb] by lia. destruct a, b; try done. by rewrite str_app_nil_l, str_app_nil_r.
Qed.

(** No key of the table is part of another. *)
Lemma HANDLERS_apart k l : k ∈ HANDLERS.*1 -> l ∈ HANDLERS.*1 -> contains k l = true -> k = l.
Proof.
  intros Hk Hl.
  assert (E : forallb (fun k => forallb (fun l => implb (contains k l) (String.eqb k l)) HANDLERS.*1) HANDLERS.*1 = true) by (by vm_compute).
  rewrite forallb_forall in E. specialize (E k (proj1 (list_elem_of_In _ _) Hk)). rewrite forallb_forall in E.
  specialize (E l (proj1 (list_elem_of_In _ _) Hl)). intros Hc. rewrite Hc in E. by apply String.eqb_eq.
Qed.

(** The test is the wrong way round: a handler is looked for whose key contains the message. A
    message that contains a key, with anything before or after it, has no handler. *)
Theorem matching_messages_ignored now handlers msg k host_id ct db (Hh : handlers ≡ₚ HANDLERS) (Hk : k ∈ HANDLERS.*1)
    (Hc : contains k msg = true) (Hne : msg <> k) :
  execute_handlers now handlers msg host_id ct db = Some db.
Proof.
  unfold execute_handlers, find_one_in_many. destruct (list_find _ handlers) as [[i [l h]]|] eqn:Ef; [|done]. exfalso.
  apply list_find_Some in Ef as (Hi & Hl & _). simpl in Hl.
  assert (Hin : l ∈ HANDLERS.*1). { apply list_elem_of_lookup_2 in Hi. rewrite Hh in Hi. by apply (list_elem_of_fmap_2 fst) in Hi. }
  assert (k = l) as -> by (apply HANDLERS_apart; [done..|by eapply contains_trans]).
  by apply Hne, contains_antisym.
Qed.

(** The empty message is part of every key: it runs whichever handler the map gives first. *)
Example empty_message_runs_handler :
  find_one_in_many "" HANDLERS = Some port_used_handler /\
  find_one_in_many "Lustre: 2689:0:(genops.c:1379:obd_export_evict_by_uuid()) lustre-OST0001: evicting 26959b68 at adminstrative request" HANDLERS = None.
Proof. by vm_compute. Qed.

Lemma add_flavor_ok pid msg db : alerts_ok db -> alerts_ok (add_flavor pid msg db).
Proof.
  intros [H1 H2]. unfold add_flavor. destruct (latest_of_pid pid db) as [x|]; [|done]. destruct (AlertStateRecord_message x) as [m|]; [|done].
  set (f := fun b => if AlertStateRecord_id b =? AlertStateRecord_id x then set_message (m +:+ " " +:+ msg) b else b).
  assert (Hf : forall b, AlertStateRecord_alert_item_type_id (f b) = AlertStateRecord_alert_item_type_id b /\
    AlertStateRecord_alert_item_id (f b) = AlertStateRecord_alert_item_id b /\ AlertStateRecord_alert_type (f b) = AlertStateRecord_alert_type b /\
    AlertStateRecord_record_type (f b) = AlertStateRecord_record_type b /\ AlertStateRecord_active (f b) = AlertStateRecord_active b).
  { intros b. unfold f. by case_match. }
  split; simpl; fold f.
  - intros i k a b ct item Hi Hk. rewrite list_lookup_fmap in Hi, Hk. destruct (alerts db !! i) as [a'|] eqn:Ha; [|done].
    destruct (alerts db !! k) as [b'|] eqn:Hb; [|done]. injection Hi as <-. injection Hk as <-.
    destruct (Hf a') as (-> & -> & -> & _ & ->), (Hf b') as (-> & -> & -> & _ & ->). by eapply (H1 i k).
  - intros a (b & -> & Hb)%list_elem_of_fmap. destruct (Hf b) as (_ & _ & -> & -> & _). by apply H2.
Qed.

(** Whatever the messages say, the handlers keep the table of alerts in order: at most one
    active alert of a type for an item. *)
Theorem run_handlers_ok handlers now xs host_id ct db db' (Hdb : alerts_ok db)
    (E : run_handlers handlers now xs host_id ct db = Some db') : alerts_ok db'.
Proof.
  assert (Hone : forall msg db db', alerts_ok db -> execute_handlers now handlers msg host_id ct db = Some db' -> alerts_ok db').
  { intros msg d d' Hd. unfold execute_handlers. destruct (find_one_in_many msg handlers) as [h|]; [|intros; by simplify_eq].
    destruct h; simpl; unfold raise_found; repeat case_match; intros; simplify_eq; auto using raise_ok, add_flavor_ok. }
  revert db Hdb E. induction xs as [|x xs IH]; simpl; intros db Hdb E; [by simplify_eq|].
  destruct (execute_handlers _ _ _ _ _ db) as [d|] eqn:Ed; [|done]. eapply IH; [|done]. by eapply Hone.
Qed.

(** * Witnesses *)

Definition ascii_digit (s : string) : option string :=
  match s with String a s => if in_range 48 57 a then Some s else None | EmptyString => None end.

Example classes :
  get_message_class ascii_digit <$>
    ["Lustre: here"; "LustreError: here"; "[9830337.7944560] Lustre: here"; "[9830337.7944560] LustreError: here";
     "[NOT A TIME STAMP ] Lustre: here"; "[1234567A89] LustreError: here"; "[123456789.123456789A] LustreError: here"; "Nothing"] =
  [Lustre; LustreError; Lustre; LustreError; Normal; Normal; Normal; Normal].
Proof. by vm_compute. Qed.

Example parsers :
  client_connection_parser " Lustre: 31793:0:(ldlm_lib.c:877:target_handle_connect()) MGS:            connection from e5232e74-1e61@192.168.122.218@tcp t0 exp 0" =
    Found (31793, "client e5232e74-1e61 from 192.168.122.218@tcp connected to target MGS") /\
  client_eviction_parser " LustreError: 0:0:(ldlm_lockd.c:356:f()) ### lock callback timer expired after 101s: evicting client at 0@lo ns: mdt pid: 3636 timeout: 4" =
    Found (3636, "client 0@lo evicted: lock callback timer expired after 101s").
Proof. by vm_compute. Qed.

Definition sample_log (n : nat) : list LogRow := (fun i => MkLogRow (Z.of_nat i) 0 "oss1" 6 3 "kernel" "up" 0) <$> seq 0 n.

Lemma purge_keeps_newest_witness : purge_excess 5 3 8 8 (sample_log 8) = Some (3, drop 5 (sample_log 8)).
Proof. apply (purge_keeps_newest 5 3 ltac:(lia) 8 (sample_log 8)). vm_compute. lia. Defined.

Definition sample_entry : IncomingMessage := MkIncomingMessage "c1" "1600000000000000" (Some "6") None (Some "kernel") (MsgString "Lustre: up").

Definition sample_messages : list JournalMessage := [MkJournalMessage 1600000000000000 Info_ 3 "kernel" "Lustre: up"].

Lemma journal_counts_witness : exists j', journal_message 5 3 ascii_digit Some HANDLERS 8 "t1" [sample_host] "oss1" sample_messages
    (journal_start (sample_log 8) 8 (MkAlerts [] 1)) = Some j' /\ num_rows j' = Z.of_nat (length (log j')).
Proof.
  eexists. split; [vm_compute; reflexivity|].
  eapply (journal_counts 5 3 ltac:(lia) ascii_digit Some HANDLERS 8 "t1" [sample_host] "oss1" sample_messages
    (journal_start (sample_log 8) 8 (MkAlerts [] 1))); [reflexivity|by vm_compute].
Defined.

Lemma run_handlers_ok_witness : alerts_ok (default (MkAlerts [] 1) (run_handlers HANDLERS "t1" sample_messages 7 12 (MkAlerts [] 1))).
Proof.
  apply (run_handlers_ok HANDLERS "t1" sample_messages 7 12 (MkAlerts [] 1)); [|by vm_compute].
  split; [intros i k a b ct item Hi; discriminate Hi|]. by intros a ?%elem_of_nil.
Defined.
