(* ===== verification/Sql.v ===== *)
(** What the services use of PostgreSQL beyond single rows: an insert that updates on a
    conflict, and lists passed as text. *)
From S2P Require Import Prelude RustStd.
From stdpp Require Import base gmap sets list strings.
From Stdlib Require Import ZArith Ascii.

(** [ON CONFLICT DO UPDATE] refuses to change a row twice: [None] is the error. *)
Definition upsert {K V} `{Countable K} (rows : list (K * V)) (m : gmap K V) : option (gmap K V) :=
  if decide (NoDup rows.*1) then Some (foldl (fun m x => <[x.1 := x.2]> m) m rows) else None.

Section upsert.
Context {K V : Type} `{Countable K}.

Lemma upsert_lookup (rows : list (K * V)) m m' : upsert rows m = Some m' ->
  (forall k v, (k, v) ∈ rows -> m' !! k = Some v) /\ (forall k, k ∉ rows.*1 -> m' !! k = m !! k).
Proof.
  unfold upsert. case_decide as Hn; [|done]. intros [= <-].
  assert (G : forall rows (m : gmap K V), NoDup rows.*1 -> (forall k v, (k, v) ∈ rows -> foldl (fun m (x : K * V) => <[x.1 := x.2]> m) m rows !! k = Some v) /\
    (forall k, k ∉ rows.*1 -> foldl (fun m (x : K * V) => <[x.1 := x.2]> m) m rows !! k = m !! k)); [|by apply G].
  clear. intros rows. induction rows as [|[k v] rows IH]; intros m Hn; [by split; [intros ?? ?%elem_of_nil|]|].
  rewrite fmap_cons in Hn. apply NoDup_cons in Hn as [Hk Hn]. destruct (IH (<[k := v]> m) Hn) as [I1 I2]. simpl. split.
  - intros k' v' [[= -> ->]|Hin]%elem_of_cons; [|by apply I1]. rewrite I2 by done. apply lookup_insert_eq.
  - intros k' [Hne Hk']%not_elem_of_cons. rewrite I2 by done. by rewrite lookup_insert_ne.
Qed.

Lemma upsert_in (rows : list (K * V)) m m' k v : upsert rows m = Some m' -> m' !! k = Some v ->
  (k, v) ∈ rows \/ (k ∉ rows.*1 /\ m !! k = Some v).
Proof.
  intros E Hk. destruct (upsert_lookup _ _ _ E) as [H1 H2]. destruct (decide (k ∈ rows.*1)) as [Hin|Hn].
  - left. apply list_elem_of_fmap in Hin as ([k' v'] & -> & Hin). specialize (H1 _ _ Hin). simpl in *. by simplify_eq.
  - right. by rewrite <-H2.
Qed.
End upsert.

(** PostgreSQL's [string_to_array(s, ',')]. *)
Definition string_to_array (s : string) : list string := if String.eqb s "" then [] else str_split "," s.

(** Lists of texts survive being joined and split. *)
Lemma string_to_array_join l : Forall (fun s => contains_char "," s = false /\ s <> "") l -> string_to_array (str_join "," l) = l.
Proof.
  intros Hl. destruct l as [|x l]; [done|]. unfold string_to_array. destruct (String.eqb_spec (str_join "," (x :: l)) "") as [E|Hne].
  - exfalso. inversion_clear Hl as [|? ? [_ Hx] _]. destruct x; [done|]. by destruct l.
  - apply str_split_join; [done|]. eapply Forall_impl; [done|]. by intros s [? _].
Qed.

