(* ===== verification/Network.v ===== *)
(** The service [iml-network]: what it stores of the interfaces and of LNet when an agent
    reports them. *)
From S2P Require Import Prelude RustStd WarpTypes Alerts Sql.
From stdpp Require Import base gmap sets list strings.
From Stdlib Require Import ZArith Ascii.

Open Scope Z_scope.

(** * Messages *)

Inductive LndType : Type := Tcp | O2ib.

Definition LndType_to_string (t : LndType) : string := match t with Tcp => "tcp" | O2ib => "o2ib" end.

Record RxStats : Type := MkRxStats {
  rx_bytes : Z; rx_packets : Z; rx_errs : Z; rx_drop : Z; rx_fifo : Z; rx_frame : Z; rx_compressed : Z; rx_multicast : Z }.

Record TxStats : Type := MkTxStats {
  tx_bytes : Z; tx_packets : Z; tx_errs : Z; tx_drop : Z; tx_fifo : Z; tx_colls : Z; tx_carrier : Z; tx_compressed : Z }.

Record InterfaceStats : Type := MkInterfaceStats { stats_rx : RxStats; stats_tx : TxStats }.

(** Addresses with their prefix are as they are printed. *)
Record NetworkInterface : Type := MkNetworkInterface {
  ni_interface : string; ni_mac_address : option string; ni_interface_type : option LndType;
  ni_inet4_address : list string; ni_inet6_address : list string; ni_stats : option InterfaceStats;
  ni_is_up : bool; ni_is_slave : bool }.

(** [interfaces] is a [BTreeMap], in the order of its keys. *)
Record Nid : Type := MkNid { nid_nid : string; nid_status : string; nid_interfaces : option (list (Z * string)) }.
Record Net : Type := MkNet { net_type : string; net_local_nis : list Nid }.
Record LNet : Type := MkLNet { lnet_net : list Net }.
Record NetworkData : Type := MkNetworkData { nd_network_interfaces : list NetworkInterface; nd_lnet_data : LNet }.

Definition ascii_lower (a : ascii) : ascii :=
  if in_range 65 90 a then ascii_of_N (N_of_ascii a + 32) else a.

Fixpoint to_ascii_lowercase (s : string) : string :=
  match s with EmptyString => EmptyString | String a s => String (ascii_lower a) (to_ascii_lowercase s) end.

Definition get_state (l : LNet) : string :=
  let statuses := lnet_net l ≫= (fun x => nid_status <$> net_local_nis x) in
  if existsb (fun x => String.eqb (to_ascii_lowercase x) "up") statuses then "up" else "down".

(** * Tables *)

Record NicRow : Type := MkNicRow {
  nic_name : string; nic_inet4 : list string; nic_inet6 : list string; nic_lnd_type : option string; nic_state_up : bool; nic_host_id : Z }.

Record NidRow : Type := MkNidRow { nr_id : Z; nr_net_type : string; nr_status : string; nr_interfaces : list string }.

Record LnetRow : Type := MkLnetRow { lr_state : string; lr_nids : list Z }.

(** [network_interface] by its primary key, [nid] by its unique columns, [lnet] by its host, and
    the points that were written to the time series. *)
Record Tables : Type := MkTables {
  network_interface : gmap string NicRow; nid : gmap (Z * string) NidRow; next_nid : Z; lnet : gmap Z LnetRow;
  points : list (string * Z * Z * Z) }.

Definition nic_row (host_id : Z) (x : NetworkInterface) : option (string * NicRow) :=
  mac ← ni_mac_address x;
  Some (mac, MkNicRow (ni_interface x) (string_to_array (str_join "," (ni_inet4_address x)))
                      (string_to_array (str_join "," (ni_inet6_address x)))
                      (LndType_to_string <$> ni_interface_type x) (ni_is_up x) host_id).

Definition update_interfaces (host_id : Z) (interfaces : list NetworkInterface) (t : Tables) : option Tables :=
  rows ← upsert (omap (nic_row host_id) interfaces) (network_interface t);
  Some (MkTables rows (nid t) (next_nid t) (lnet t) (points t)).

(** [as i64] of a [u64]. *)
Definition as_i64 (x : Z) : Z := if x <? 2 ^ 63 then x else x - 2 ^ 64.

Definition net_points (host_id : Z) (interfaces : list NetworkInterface) : list (string * Z * Z * Z) :=
  omap (fun x => (fun s => (ni_interface x, host_id, as_i64 (rx_bytes (stats_rx s)), as_i64 (tx_bytes (stats_tx s)))) <$> ni_stats x) interfaces.

Definition update_network_stats (host_id : Z) (interfaces : list NetworkInterface) (t : Tables) : Tables :=
  MkTables (network_interface t) (nid t) (next_nid t) (lnet t) (points t ++ net_points host_id interfaces).

(** The columns net type, host, nid, status and interfaces, row by row. *)
Definition parse_lnet_data (d : LNet) (host_id : Z) : option (list (string * Z * string * string * string)) :=
  match lnet_net d with
  | [] => None
  | nets =>
      Some (List.filter (fun x => negb (String.eqb (net_type x) "lo")) nets ≫= (fun l =>
        (fun x => (net_type l, host_id, nid_nid x, nid_status x, default "" (str_join "," <$> (fmap snd <$> nid_interfaces x)))) <$> net_local_nis l))
  end.

(** The rows of [nid] with the identifiers that the statement gives them: the old one on a
    conflict. Every row takes a number of the sequence. *)
Fixpoint nid_rows (next : Z) (xs : list (string * Z * string * string * string)) (m : gmap (Z * string) NidRow)
    : list ((Z * string) * NidRow) :=
  match xs with
  | [] => []
  | (ty, host, n, status, ifs) :: xs =>
      let id := match m !! (host, n) with Some r => nr_id r | None => next end in
      ((host, n), MkNidRow id ty status (string_to_array ifs)) :: nid_rows (next + 1) xs m
  end.

(** [array_agg] of no rows is [NULL], which the column does not take: [None] is the error. *)
Definition update_lnet_data (host_id : Z) (d : LNet) (t : Tables) : option Tables :=
  match parse_lnet_data d host_id with
  | None => Some t
  | Some xs =>
      let rows := nid_rows (next_nid t) xs (nid t) in
      nids ← upsert rows (nid t);
      match rows with
      | [] => None
      | _ => Some (MkTables (network_interface t) nids (next_nid t + Z.of_nat (length xs))
                     (<[host_id := MkLnetRow (get_state d) (nr_id <$> rows.*2)]> (lnet t)) (points t))
      end
  end.

(** * The loop *)

(** The service goes on, or it ends with what it has stored. *)
Inductive Outcome : Type := Continue (t : Tables) | Ended (t : Tables).

(** [influx] says whether the points could be written. *)
Definition network_message (hosts : list ManagedHostRecord) (fqdn : string) (influx : bool) (d : NetworkData) (t : Tables) : Outcome :=
  match ManagedHostRecord_id <$> find_host fqdn hosts with
  | None => Continue t
  | Some host_id =>
      match update_interfaces host_id (nd_network_interfaces d) t with
      | None => Ended t
      | Some t =>
          if influx then
            let t := update_network_stats host_id (nd_network_interfaces d) t in
            match update_lnet_data host_id (nd_lnet_data d) t with
            | None => Ended t
            | Some t => Continue t
            end
          else Ended t
      end
  end.

(** * What holds *)

(** Nids have different identifiers, all below the next of the sequence. *)
Record tables_ok (t : Tables) : Prop := MkTablesOk {
  nids_distinct : forall k l r s, nid t !! k = Some r -> nid t !! l = Some s -> nr_id r = nr_id s -> k = l;
  nids_below : forall k r, nid t !! k = Some r -> nr_id r < next_nid t }.

(** The row at each place: the key, and the identifier it had or the next one. *)
Lemma nid_rows_lookup next xs m i k r : nid_rows next xs m !! i = Some (k, r) ->
  exists ty host n status ifs, xs !! i = Some (ty, host, n, status, ifs) /\ k = (host, n) /\
    r = MkNidRow (match m !! (host, n) with Some r => nr_id r | None => next + Z.of_nat i end) ty status (string_to_array ifs).
Proof.
  revert next i. induction xs as [|[[[[ty host] n] status] ifs] xs IH]; intros next [|i] E; simplify_eq/=.
  - eexists _, _, _, _, _. split; [done|]. split; [done|]. f_equal. case_match; lia.
  - destruct (IH _ _ E) as (ty' & host' & n' & status' & ifs' & Hx & -> & ->). eexists _, _, _, _, _. split; [done|]. split; [done|].
    f_equal. case_match; lia.
Qed.

Lemma nid_rows_length next xs m : length (nid_rows next xs m) = length xs.
Proof. revert next. induction xs as [|[[[[ty host] n] status] ifs] xs IH]; intros next; simpl; [done|]. by rewrite IH. Qed.

Lemma nid_rows_id next xs m i k r : nid_rows next xs m !! i = Some (k, r) ->
  (exists s, m !! k = Some s /\ nr_id r = nr_id s) \/ (m !! k = None /\ nr_id r = next + Z.of_nat i /\ (i < length xs)%nat).
Proof.
  intros E. pose proof (lookup_lt_Some _ _ _ E) as Hl. rewrite nid_rows_length in Hl.
  apply nid_rows_lookup in E as (ty & host & n & status & ifs & _ & -> & ->). simpl.
  destruct (m !! (host, n)) as [s|]; [left|right]; eauto.
Qed.

(** The statement keeps identifiers apart. *)
Lemma upsert_nids_ok t xs m' : tables_ok t -> upsert (nid_rows (next_nid t) xs (nid t)) (nid t) = Some m' ->
  (forall k l r s, m' !! k = Some r -> m' !! l = Some s -> nr_id r = nr_id s -> k = l) /\
  (forall k r, m' !! k = Some r -> nr_id r < next_nid t + Z.of_nat (length xs)).
Proof.
  intros [H1 H2] E. assert (Hn : NoDup (nid_rows (next_nid t) xs (nid t)).*1) by (unfold upsert in E; by case_decide).
  assert (Hid : forall k r, m' !! k = Some r -> (exists s, nid t !! k = Some s /\ nr_id r = nr_id s) \/
    (nid t !! k = None /\ exists i, nid_rows (next_nid t) xs (nid t) !! i = Some (k, r) /\ nr_id r = next_nid t + Z.of_nat i /\ (i < length xs)%nat)).
  { intros k r Hk. destruct (upsert_in _ _ _ _ _ E Hk) as [Hin|[_ Hold]]; [|left; eauto].
    apply list_elem_of_lookup_1 in Hin as (i & Hi). destruct (nid_rows_id _ _ _ _ _ _ Hi) as [Hs|(Hm & Hr & Hl)]; [by left|right; eauto]. }
  split.
  - intros k l r s Hk Hl Er. destruct (Hid k r Hk) as [(r' & Hr' & E1)|(_ & i & Hi & E1 & _)],
      (Hid l s Hl) as [(s' & Hs' & E2)|(_ & j & Hj & E2 & _)].
    + eapply H1; eauto. congruence.
    + specialize (H2 _ _ Hr'). lia.
    + specialize (H2 _ _ Hs'). lia.
    + assert (i = j) as -> by lia. congruence.
  - intros k r Hk. destruct (Hid k r Hk) as [(r' & Hr' & E1)|(_ & i & _ & E1 & Hl)]; [specialize (H2 _ _ Hr')|]; lia.
Qed.

(** The nids of a report, without the loopback. *)
Definition reported (d : LNet) : list Nid :=
  List.filter (fun x => negb (String.eqb (net_type x) "lo")) (lnet_net d) ≫= net_local_nis.

Lemma parse_lnet_nids d host xs : parse_lnet_data d host = Some xs ->
  Forall2 (fun x n => x.1.1.1.2 = host /\ x.1.1.2 = nid_nid n /\ x.1.2 = nid_status n) xs (reported d).
Proof.
  unfold parse_lnet_data, reported. intros E.
  assert (G : forall l : list Net, Forall2 (fun x n => x.1.1.1.2 = host /\ x.1.1.2 = nid_nid n /\ x.1.2 = nid_status n)
    (l ≫= (fun l => (fun x => (net_type l, host, nid_nid x, nid_status x, default "" (str_join "," <$> (fmap snd <$> nid_interfaces x)))) <$> net_local_nis l))
    (l ≫= net_local_nis)).
  { clear. intros l. induction l as [|x l IH]; [constructor|]. rewrite !bind_cons. apply Forall2_app; [|done].
    apply Forall2_fmap_l. by apply Forall_Forall2_diag, Forall_true. }
  destruct (lnet_net d); [done|]. assert (xs = _) as -> by (symmetry; apply (inj Some), E). apply G.
Qed.

(** What the table of LNet says of a host are the nids the host has reported: their rows, and no
    other row has one of their identifiers. *)
Definition lnet_of (t : Tables) (host : Z) (d : LNet) : Prop :=
  exists row, lnet t !! host = Some row /\ lr_state row = get_state d /\
    Forall2 (fun id n => exists r, nid t !! (host, nid_nid n) = Some r /\ nr_id r = id /\ nr_status r = nid_status n /\
      forall k s, nid t !! k = Some s -> nr_id s = id -> k = (host, nid_nid n)) (lr_nids row) (reported d).

Lemma update_lnet_data_ok host d t t' : tables_ok t -> lnet_net d <> [] -> update_lnet_data host d t = Some t' ->
  tables_ok t' /\ lnet_of t' host d /\ (forall h, h <> host -> lnet t' !! h = lnet t !! h) /\
  (forall k, k.1 <> host -> nid t' !! k = nid t !! k) /\ network_interface t' = network_interface t.
Proof.
  intros Hok Hne E. unfold update_lnet_data in E. destruct (parse_lnet_data d host) as [xs|] eqn:Ex; cycle 1.
  { unfold parse_lnet_data in Ex. by destruct (lnet_net d). }
  destruct (upsert _ (nid t)) as [m|] eqn:Eu; [|done]. simpl in E. set (rows := nid_rows (next_nid t) xs (nid t)) in *.
  assert (E' : t' = MkTables (network_interface t) m (next_nid t + Z.of_nat (length xs)) (<[host := MkLnetRow (get_state d) (nr_id <$> rows.*2)]> (lnet t)) (points t))
    by (destruct rows; by simplify_eq). clear E. subst t'.
  destruct (upsert_nids_ok t xs m Hok Eu) as [U1 U2]. destruct (upsert_lookup _ _ _ Eu) as [L1 L2].
  pose proof (parse_lnet_nids d host xs Ex) as Hp.
  split; [by split|]. split; [|split; [|split; [|done]]]; simpl.
  - eexists. split; [apply lookup_insert_eq|]. split; [done|]. simpl. rewrite <-list_fmap_compose. apply Forall2_fmap_l.
    apply Forall2_same_length_lookup. split; [unfold rows; rewrite nid_rows_length; by eapply Forall2_length|].
    intros i [k r] n Hi Hni. simpl. assert (Hin : (k, r) ∈ rows) by (by eapply list_elem_of_lookup_2).
    apply nid_rows_lookup in Hi as (ty & h & x & st & ifs & Hx & -> & ->).
    destruct (Forall2_lookup_lr _ _ _ _ _ _ Hp Hx Hni) as (E1 & E2 & E3). simpl in *. subst.
    eexists. split; [by apply L1|]. split; [done|]. split; [done|]. intros k s Hk Hid. eapply U1; [done|by apply L1|done].
  - intros h Hh. by rewrite lookup_insert_ne.
  - intros k Hk. apply L2. intros ([k' r] & -> & Hin)%list_elem_of_fmap. apply list_elem_of_lookup_1 in Hin as (i & Hi).
    apply nid_rows_lookup in Hi as (ty & h & x & st & ifs & Hx & -> & _). simpl in Hk.
    apply (Forall2_lookup_l _ _ _ _ _ Hp) in Hx as (n & _ & E1 & _). by simpl in E1.
Qed.

Lemma nic_row_keys host xs : (omap (nic_row host) xs).*1 = omap ni_mac_address xs.
Proof.
  induction xs as [|x xs IH]; [done|].
  change (omap (nic_row host) (x :: xs)) with (match nic_row host x with Some y => y :: omap (nic_row host) xs | None => omap (nic_row host) xs end).
  change (omap ni_mac_address (x :: xs)) with (match ni_mac_address x with Some y => y :: omap ni_mac_address xs | None => omap ni_mac_address xs end).
  unfold nic_row at 1. by destruct (ni_mac_address x); simpl; rewrite <-IH.
Qed.

Definition clean_addresses (x : NetworkInterface) : Prop :=
  Forall (fun s => contains_char "," s = false /\ s <> "") (ni_inet4_address x) /\
  Forall (fun s => contains_char "," s = false /\ s <> "") (ni_inet6_address x).

(** The row of an interface. *)
Definition nic_of (host : Z) (x : NetworkInterface) : NicRow :=
  MkNicRow (ni_interface x) (ni_inet4_address x) (ni_inet6_address x) (LndType_to_string <$> ni_interface_type x) (ni_is_up x) host.

(** C27: a report of a known host is stored, when its interfaces have different hardware
    addresses, its nids are different and one is not the loopback's, the IP addresses are not
    empty and have no comma in them, and the time series could be written. Then every interface
    with a hardware address is stored as reported, under this host; the LNet row of the host
    names the reported nids and no others; the nids and LNet rows of other hosts are as they
    were, and so is every interface whose hardware address the report does not have, be it of
    another host or an old one of this host. An interface that was stored for another host moves
    to this one when its hardware address is reported here. *)
Theorem network_stored hosts fqdn d t h (Hok : tables_ok t) (Hh : find_host fqdn hosts = Some h)
    (Hmac : NoDup (omap ni_mac_address (nd_network_interfaces d))) (Haddr : Forall clean_addresses (nd_network_interfaces d))
    (Hnid : NoDup (nid_nid <$> reported (nd_lnet_data d))) (Hne : reported (nd_lnet_data d) <> []) :
  exists t', network_message hosts fqdn true d t = Continue t' /\ tables_ok t' /\ lnet_of t' (ManagedHostRecord_id h) (nd_lnet_data d) /\
    (forall x mac, x ∈ nd_network_interfaces d -> ni_mac_address x = Some mac ->
       network_interface t' !! mac = Some (nic_of (ManagedHostRecord_id h) x)) /\
    (forall k, k.1 <> ManagedHostRecord_id h -> nid t' !! k = nid t !! k) /\
    (forall k, k <> ManagedHostRecord_id h -> lnet t' !! k = lnet t !! k) /\
    (forall mac, mac ∉ omap ni_mac_address (nd_network_interfaces d) -> network_interface t' !! mac = network_interface t !! mac).
Proof.
  unfold network_message. rewrite Hh. simpl. set (host := ManagedHostRecord_id h).
  destruct (upsert (omap (nic_row host) (nd_network_interfaces d)) (network_interface t)) as [m|] eqn:Eu; cycle 1.
  { unfold upsert in Eu. rewrite nic_row_keys in Eu. by case_decide. }
  unfold update_interfaces. rewrite Eu. simpl. destruct (upsert_lookup _ _ _ Eu) as [L1 L2]. rewrite nic_row_keys in L2.
  set (t1 := update_network_stats _ _ _).
  assert (Hnet : lnet_net (nd_lnet_data d) <> []) by (intros E; apply Hne; unfold reported; by rewrite E).
  assert (exists t', update_lnet_data host (nd_lnet_data d) t1 = Some t') as [t' Et].
  { unfold update_lnet_data. destruct (parse_lnet_data _ host) as [xs|] eqn:Ex; [|eauto].
    pose proof (parse_lnet_nids _ _ _ Ex) as Hp. unfold upsert. rewrite decide_True.
    - simpl. destruct (nid_rows _ xs _) eqn:Er; [|eauto]. apply (f_equal length) in Er. rewrite nid_rows_length in Er.
      apply Forall2_length in Hp. destruct (reported (nd_lnet_data d)); [done|]. simpl in *. lia.
    - assert (G : forall next m, (nid_rows next xs m).*1 = (fun n => (host, nid_nid n)) <$> reported (nd_lnet_data d)).
      { clear -Hp. induction Hp as [|[[[[ty h'] n'] st] ifs] n xs ns (E1 & E2 & E3) Hp IH]; intros next m; [done|].
        simpl in *. by rewrite IH, E1, E2. }
      rewrite G. apply (NoDup_fmap_1 snd). by rewrite <-list_fmap_compose. }
  rewrite Et. exists t'. assert (Hok1 : tables_ok t1) by (by destruct Hok; split).
  destruct (update_lnet_data_ok host _ t1 t' Hok1 Hnet Et) as (O1 & O2 & O3 & O4 & O5). rewrite O5.
  split; [done|]. split; [done|]. split; [done|]. split; [|done]. intros x mac Hx Hm.
  apply L1, list_elem_of_omap. exists x. split; [done|]. unfold nic_row. rewrite Hm. simpl.
  rewrite Forall_forall in Haddr. destruct (Haddr x Hx) as [H4 H6]. by rewrite !string_to_array_join.
Qed.

(** Two interfaces of a report with one hardware address, as a VLAN and its parent have, make the
    statement fail, and the service ends. *)
Theorem shared_mac_ends_service hosts fqdn influx d t h (Hh : find_host fqdn hosts = Some h)
    (Hmac : ~ NoDup (omap ni_mac_address (nd_network_interfaces d))) :
  network_message hosts fqdn influx d t = Ended t.
Proof.
  unfold network_message. rewrite Hh. simpl. unfold update_interfaces, upsert.
  rewrite nic_row_keys. by rewrite decide_False.
Qed.

(** A report with the loopback only, which is what LNet has before it is configured, ends the
    service as well: the list of nids would be [NULL]. *)
Theorem loopback_only_ends_service hosts fqdn d t h (Hh : find_host fqdn hosts = Some h)
    (Hmac : NoDup (omap ni_mac_address (nd_network_interfaces d)))
    (Hne : lnet_net (nd_lnet_data d) <> []) (Hlo : reported (nd_lnet_data d) = []) :
  exists t', network_message hosts fqdn true d t = Ended t'.
Proof.
  unfold network_message. rewrite Hh. simpl. destruct (update_interfaces _ _ t) as [t1|]; [|eauto].
  unfold update_lnet_data. destruct (parse_lnet_data _ _) as [xs|] eqn:Ex; cycle 1.
  { unfold parse_lnet_data in Ex. by destruct (lnet_net _). }
  pose proof (Forall2_length _ _ _ (parse_lnet_nids _ _ _ Ex)) as Hl. rewrite Hlo in Hl. destruct xs; [|done].
  simpl. eauto.
Qed.

(** * Witnesses *)

Definition sample_nic (name mac : string) : NetworkInterface :=
  MkNetworkInterface name (Some mac) (Some Tcp) ["10.0.0.2/24"] [] None true false.

Definition sample_net : NetworkData :=
  MkNetworkData [sample_nic "eth0" "52:54:00:00:00:01"]
    (MkLNet [MkNet "lo" [MkNid "0@lo" "up" None]; MkNet "tcp" [MkNid "10.0.0.2@tcp" "down" (Some [(0, "eth0")])]]).

Definition no_tables : Tables := MkTables ∅ ∅ 1 ∅ [].

Lemma network_stored_witness : exists t', network_message [sample_host] "oss1" true sample_net no_tables = Continue t' /\
  lnet_of t' 7 (nd_lnet_data sample_net).
Proof.
  destruct (network_stored [sample_host] "oss1" sample_net no_tables sample_host) as (t' & E & _ & Hl & _).
  - split; intros *; discriminate.
  - reflexivity.
  - apply (bool_decide_unpack _). by vm_compute.
  - repeat constructor; done.
  - apply (bool_decide_unpack _). by vm_compute.
  - discriminate.
  - exists t'. split; [exact E|exact Hl].
Defined.

(** The row of an interface of another host moves with its hardware address. *)
Example mac_moves_host :
  match network_message [sample_host] "oss1" true sample_net
    (MkTables {["52:54:00:00:00:01" := MkNicRow "eth1" [] [] None false 3]} ∅ 1 ∅ []) with
  | Continue t => nic_host_id <$> network_interface t !! "52:54:00:00:00:01" = Some 7
  | Ended _ => False
  end.
Proof. by vm_compute. Qed.

(** The loopback counts for the state of LNet. *)
Example loopback_is_up : get_state (nd_lnet_data sample_net) = "up".
Proof. by vm_compute. Qed.

Example vlan_ends_service :
  network_message [sample_host] "oss1" true
    (MkNetworkData [sample_nic "eth0" "52:54:00:00:00:01"; sample_nic "" "52:54:00:00:00:01"] (MkLNet [])) no_tables = Ended no_tables.
Proof. by vm_compute. Qed.
