(* ===== verification/SnapshotStore.v ===== *)
(** How the snapshot service stores what the agents report: the loop of [main] in
    [iml-services/iml-snapshot/src/main.rs]. *)
From S2P Require Import Prelude RustStd Sql.
From stdpp Require Import base gmap sets list strings.
From Stdlib Require Import ZArith.

Open Scope Z_scope.

(** [iml_wire_types::snapshot::Snapshot]; times are numbers. *)
Record ReportedSnapshot : Type := MkReportedSnapshot {
  rs_filesystem_name : string; rs_snapshot_name : string; rs_snapshot_fsname : string; rs_modify_time : Z; rs_create_time : Z;
  rs_mounted : bool; rs_comment : option string }.

Record SnapshotRow : Type := MkSnapshotRow {
  sr_id : Z; sr_create_time : Z; sr_modify_time : Z; sr_snapshot_fsname : string; sr_mounted : bool; sr_comment : option string }.

(** The table [snapshot] by its unique columns, and its sequence. *)
Record SnapshotTable : Type := MkSnapshotTable { snapshots : gmap (string * string) SnapshotRow; next_snapshot : Z }.

(** The [DELETE]. *)
Definition delete_missing (fs_name : string) (names : list string) (m : gmap (string * string) SnapshotRow) : gmap (string * string) SnapshotRow :=
  filter (fun kv => ~ (kv.1.2 ∉ names /\ kv.1.1 = fs_name)) m.

Definition snapshot_key (s : ReportedSnapshot) : string * string := (rs_filesystem_name s, rs_snapshot_name s).

(** The rows of the [INSERT]: a row that is there keeps its identifier. *)
Fixpoint snapshot_rows (next : Z) (ss : list ReportedSnapshot) (m : gmap (string * string) SnapshotRow) : list ((string * string) * SnapshotRow) :=
  match ss with
  | [] => []
  | s :: ss =>
      let id := match m !! snapshot_key s with Some r => sr_id r | None => next end in
      (snapshot_key s, MkSnapshotRow id (rs_create_time s) (rs_modify_time s) (rs_snapshot_fsname s) (rs_mounted s) (rs_comment s))
        :: snapshot_rows (next + 1) ss m
  end.

(** The transaction for one file system; [None] when it fails, which ends the service. *)
Definition store_snapshots (fs_name : string) (ss : list ReportedSnapshot) (t : SnapshotTable) : option SnapshotTable :=
  let m := delete_missing fs_name (rs_snapshot_name <$> ss) (snapshots t) in
  m ← upsert (snapshot_rows (next_snapshot t) ss m) m;
  Some (MkSnapshotTable m (next_snapshot t + Z.of_nat (length ss))).

(** A message, file system by file system in the order of its map: the table, and whether the
    service goes on. *)
Fixpoint snapshot_message (snap_map : list (string * list ReportedSnapshot)) (t : SnapshotTable) : SnapshotTable * bool :=
  match snap_map with
  | [] => (t, true)
  | (fs_name, ss) :: snap_map =>
      match store_snapshots fs_name ss t with
      | None => (t, false)
      | Some t => snapshot_message snap_map t
      end
  end.

(** * What holds *)

Lemma snapshot_rows_keys next ss m : (snapshot_rows next ss m).*1 = snapshot_key <$> ss.
Proof. revert next. induction ss as [|s ss IH]; intros next; [done|]. simpl. by rewrite IH. Qed.

(** A stored row says what the report says. *)
Definition row_says (s : ReportedSnapshot) (r : SnapshotRow) : Prop :=
  sr_create_time r = rs_create_time s /\ sr_modify_time r = rs_modify_time s /\ sr_snapshot_fsname r = rs_snapshot_fsname s /\
  sr_mounted r = rs_mounted s /\ sr_comment r = rs_comment s.

Lemma snapshot_rows_elem next ss m s : s ∈ ss -> exists r, (snapshot_key s, r) ∈ snapshot_rows next ss m /\ row_says s r /\
  (forall r0, m !! snapshot_key s = Some r0 -> sr_id r = sr_id r0).
Proof.
  revert next. induction ss as [|s' ss IH]; intros next; [by intros ?%elem_of_nil|]. intros [->|Hs]%elem_of_cons; simpl.
  - eexists. split; [left|]. split; [done|]. intros r0 ->. done.
  - destruct (IH (next + 1) Hs) as (r & Hr & Hsay & Hid). exists r. split; [by right|done].
Qed.

Lemma lookup_delete_missing fs names m k : delete_missing fs names m !! k = if decide (k.2 ∉ names /\ k.1 = fs) then None else m !! k.
Proof.
  unfold delete_missing. case_decide as Hd.
  - apply map_lookup_filter_None. right. intros r _ Hn. by apply Hn.
  - destruct (m !! k) as [r|] eqn:Hk; [by apply map_lookup_filter_Some|]. apply map_lookup_filter_None. by left.
Qed.

(** One file system: its rows are then the reported ones; a snapshot that was known keeps its
    identifier, and other file systems keep their rows. *)
Lemma store_snapshots_spec fs ss t : Forall (fun s => rs_filesystem_name s = fs) ss -> NoDup (rs_snapshot_name <$> ss) ->
  exists t', store_snapshots fs ss t = Some t' /\
    (forall s, s ∈ ss -> exists r, snapshots t' !! (fs, rs_snapshot_name s) = Some r /\ row_says s r /\
       (forall r0, snapshots t !! (fs, rs_snapshot_name s) = Some r0 -> sr_id r = sr_id r0)) /\
    (forall name, name ∉ rs_snapshot_name <$> ss -> snapshots t' !! (fs, name) = None) /\
    (forall k, k.1 <> fs -> snapshots t' !! k = snapshots t !! k).
Proof.
  intros Hfs Hn. unfold store_snapshots. set (m := delete_missing _ _ _).
  assert (Hkeys : snapshot_key <$> ss = (fs,.) <$> (rs_snapshot_name <$> ss)).
  { rewrite <-list_fmap_compose. apply list_fmap_ext. intros i s Hi. unfold snapshot_key. simpl.
    by rewrite (Forall_lookup_1 _ _ _ _ Hfs Hi). }
  destruct (upsert (snapshot_rows (next_snapshot t) ss m) m) as [m'|] eqn:Eu; cycle 1.
  { unfold upsert in Eu. rewrite snapshot_rows_keys, Hkeys in Eu. rewrite decide_True in Eu; [done|].
    apply NoDup_fmap; [by intros x y [= ->]|done]. }
  destruct (upsert_lookup _ _ _ Eu) as [L1 L2]. rewrite snapshot_rows_keys, Hkeys in L2.
  eexists. split; [done|]. split; [|split]; simpl.
  - intros s Hs. destruct (snapshot_rows_elem (next_snapshot t) ss m s Hs) as (r & Hr & Hsay & Hid). exists r.
    assert (Ek : snapshot_key s = (fs, rs_snapshot_name s)).
    { rewrite Forall_forall in Hfs. unfold snapshot_key. by rewrite (Hfs s Hs). }
    rewrite Ek in *. split; [by apply L1|]. split; [done|]. intros r0 Hr0. apply Hid. unfold m. rewrite lookup_delete_missing.
    rewrite decide_False; [done|]. simpl. intros [Hno _]. apply Hno. by apply list_elem_of_fmap_2.
  - intros name Hname. rewrite L2.
    + unfold m. rewrite lookup_delete_missing. by rewrite decide_True.
    + intros (x & [= ->] & Hx)%list_elem_of_fmap. done.
  - intros k Hk. rewrite L2.
    + unfold m. rewrite lookup_delete_missing. rewrite decide_False; [done|]. by intros [_ ?].
    + intros (x & -> & _)%list_elem_of_fmap. done.
Qed.

(** After a message, the stored snapshots of each file system it names are the reported ones,
    with the reported values, a snapshot that was known keeps its identifier, and the file
    systems it does not name are as they were. *)
Theorem snapshots_stored snap_map t (Hfs : NoDup snap_map.*1)
    (Hall : Forall (fun x => Forall (fun s => rs_filesystem_name s = x.1) x.2 /\ NoDup (rs_snapshot_name <$> x.2)) snap_map) :
  exists t', snapshot_message snap_map t = (t', true) /\
    (forall fs ss, (fs, ss) ∈ snap_map ->
       (forall s, s ∈ ss -> exists r, snapshots t' !! (fs, rs_snapshot_name s) = Some r /\ row_says s r /\
          (forall r0, snapshots t !! (fs, rs_snapshot_name s) = Some r0 -> sr_id r = sr_id r0)) /\
       (forall name, name ∉ rs_snapshot_name <$> ss -> snapshots t' !! (fs, name) = None)) /\
    (forall k, k.1 ∉ snap_map.*1 -> snapshots t' !! k = snapshots t !! k).
Proof.
  revert t. induction snap_map as [|[fs ss] sm IH]; intros t; simpl.
  { exists t. split; [done|]. split; [by intros ?? ?%elem_of_nil|done]. }
  rewrite fmap_cons in Hfs. apply NoDup_cons in Hfs as [Hf Hfs]. apply Forall_cons in Hall as [[H1 H2] Hall]. simpl in *.
  destruct (store_snapshots_spec fs ss t H1 H2) as (t1 & -> & S1 & S2 & S3).
  destruct (IH Hfs Hall t1) as (t' & -> & I1 & I2). exists t'. split; [done|]. split.
  - intros fs' ss' [[= -> ->]|Hin]%elem_of_cons.
    + split; [intros s Hs|intros name Hn]; rewrite I2 by done; auto.
    + assert (Hne : fs' <> fs) by (intros ->; apply Hf; by apply (list_elem_of_fmap_2 fst) in Hin).
      destruct (I1 _ _ Hin) as [J1 J2]. split; [|done]. intros s Hs. destruct (J1 s Hs) as (r & Hr & Hsay & Hid).
      exists r. split; [done|]. split; [done|]. intros r0 Hr0. apply Hid. by rewrite S3.
  - intros k [Hk Hn]%not_elem_of_cons. rewrite I2 by done. by apply S3.
Qed.

(** * Witness *)

Definition sample_snapshot (name : string) : ReportedSnapshot := MkReportedSnapshot "fs1" name "5ee1a3b2" 1604388443 1604388443 false None.

Lemma snapshots_stored_witness : exists t', snapshot_message [("fs1", [sample_snapshot "a"; sample_snapshot "b"])] (MkSnapshotTable ∅ 1) = (t', true) /\
  exists r, snapshots t' !! ("fs1", "a") = Some r /\ sr_snapshot_fsname r = "5ee1a3b2".
Proof.
  destruct (snapshots_stored [("fs1", [sample_snapshot "a"; sample_snapshot "b"])] (MkSnapshotTable ∅ 1)) as (t' & E & Hin & _).
  - apply (bool_decide_unpack _). by vm_compute.
  - repeat constructor; set_solver.
  - exists t'. split; [exact E|]. destruct (Hin "fs1" [sample_snapshot "a"; sample_snapshot "b"] ltac:(by left)) as [H1 _].
    destruct (H1 (sample_snapshot "a") ltac:(by left)) as (r & Hr & (_ & _ & Hf & _) & _). exists r. split; [exact Hr|exact Hf].
Defined.
