(* ===== verification/Ldev.v ===== *)
(** The file [ldev.conf] of a server: [iml-agent/src/action_plugins/ldev.rs] and [LdevEntry]
    of [iml-wire-types/src/lib.rs]. *)
From S2P Require Import Prelude RustStd WarpTypes.
From stdpp Require Import base gmap sets list strings.
From Stdlib Require Import ZArith Ascii.

(** * Entries *)

Definition FsType_try_from (x : string) : option FsType :=
  if String.eqb x "ldiskfs" then Some FsType_Ldiskfs
  else if String.eqb x "zfs" then Some FsType_Zfs
  else None.

Record LdevEntry : Type := MkLdevEntry {
  ld_primary : string; ld_failover : option string; ld_label : string; ld_device : string; ld_fs_type : option FsType }.

(** [From<&str>]; [None] is one of its panics. *)
Definition LdevEntry_from (x : string) : option LdevEntry :=
  let parts := str_split " " x in
  primary ← parts !! 0;
  failover ← parts !! 1;
  label ← parts !! 2;
  device ← parts !! 3;
  prefix ← head (str_split ":" device);
  Some (MkLdevEntry primary (if String.eqb failover "-" then None else Some failover) label device (FsType_try_from prefix)).

Definition device_text (e : LdevEntry) : string :=
  if starts_with "zfs:" (ld_device e) || starts_with "ldiskfs:" (ld_device e) then ld_device e
  else match ld_fs_type e with
       | Some FsType_Zfs => "zfs:" +:+ ld_device e
       | Some FsType_Ldiskfs => "ldiskfs:" +:+ ld_device e
       | None => ld_device e
       end.

Definition LdevEntry_to_string (e : LdevEntry) : string :=
  ld_primary e +:+ " " +:+ default "-" (ld_failover e) +:+ " " +:+ ld_label e +:+ " " +:+ device_text e.

(** [PartialEq] and [Ord] look at the label only, so that a [BTreeSet] of entries is the set of
    their labels. *)
Definition entry_labels (es : list LdevEntry) : gset string := list_to_set (ld_label <$> es).

(** * The file *)

Definition newline : ascii := "010".

(** A carriage return before the newline belongs to it. *)
Definition strip_cr (s : string) : string := if ends_with (String "013" "") s then stake (slen s - 1) s else s.

(** [str::lines]: the text after the last newline is a line when it is not empty, and keeps its
    carriage return. *)
Fixpoint lines_of (pieces : list string) : list string :=
  match pieces with
  | [] => []
  | [x] => if String.eqb x "" then [] else [x]
  | x :: pieces => strip_cr x :: lines_of pieces
  end.

Definition str_lines (s : string) : list string := lines_of (str_split newline s).

Definition parse_entries (ldev_config : string) : option (list LdevEntry) := mapM LdevEntry_from (str_lines ldev_config).

Definition convert (entries : list LdevEntry) : string := str_join (String newline "") (LdevEntry_to_string <$> entries).

Inductive LdevError : Type := LdevEntriesError.

(** [create] on what the file holds, [""] when there is none: the result and the file then.
    [None] is a panic. *)
Definition create (entries : list LdevEntry) (file : string) : option (Result LdevError unit * string) :=
  match entries with
  | [] => Some (Err LdevEntriesError, file)
  | _ =>
      existing ← parse_entries file;
      Some (if decide (entry_labels existing = entry_labels entries) then (Ok tt, file) else (Ok tt, convert entries))
  end.

(** * What holds *)

(** The parts of an entry can stand on a line. *)
Definition word (s : string) : Prop :=
  contains_char " " s = false /\ contains_char newline s = false /\ contains_char "013" s = false.

(** The form in which an entry is read: its device carries the type. *)
Record canonical (e : LdevEntry) : Prop := MkCanonical {
  can_primary : word (ld_primary e);
  can_failover : forall f, ld_failover e = Some f -> word f /\ f <> "-";
  can_label : word (ld_label e);
  can_device : word (ld_device e);
  can_type : ld_fs_type e = (head (str_split ":" (ld_device e)) ≫= FsType_try_from);
  can_colon : ld_fs_type e <> None -> contains_char ":" (ld_device e) = true }.

(** A type that is read off the device is in its text. *)
Lemma device_text_canonical e : canonical e -> device_text e = ld_device e.
Proof.
  intros [_ _ _ _ Ht Hc]. unfold device_text. destruct (starts_with "zfs:" _ || starts_with "ldiskfs:" _) eqn:E; [done|].
  apply orb_false_elim in E as [E1 E2]. destruct (ld_fs_type e) as [t|] eqn:Et; [|done]. exfalso.
  specialize (Hc ltac:(done)). destruct (str_split ":" (ld_device e)) as [|x xs] eqn:Es; [done|]. simpl in Ht.
  assert (Hd : ld_device e = str_join ":" (x :: xs)) by (by rewrite <-Es, str_join_split).
  destruct xs as [|y ys].
  { pose proof (str_split_pieces ":" (ld_device e)) as Hp. rewrite Es in Hp. inversion_clear Hp as [|? ? Hx _].
    rewrite Hd in Hc. simpl in Hc. congruence. }
  change (str_join ":" (x :: y :: ys)) with (x +:+ ":" +:+ str_join ":" (y :: ys)) in Hd. rewrite str_app_assoc in Hd.
  unfold FsType_try_from in Ht. destruct (String.eqb_spec x "ldiskfs") as [->|]; [by rewrite Hd, starts_with_app in E2|].
  destruct (String.eqb_spec x "zfs") as [->|]; [by rewrite Hd, starts_with_app in E1|done].
Qed.

(** An entry is what its line is read as. *)
Theorem ldev_entry_round_trip e (He : canonical e) : LdevEntry_from (LdevEntry_to_string e) = Some e.
Proof.
  unfold LdevEntry_to_string. rewrite device_text_canonical by done. destruct He as [[Hp _] Hf [Hl _] [Hd _] Ht _].
  set (f := default "-" (ld_failover e)).
  assert (Hfw : contains_char " " f = false) by (unfold f; destruct (ld_failover e) as [x|]; [by apply Hf|done]).
  unfold LdevEntry_from. change (ld_primary e +:+ " " +:+ f +:+ " " +:+ ld_label e +:+ " " +:+ ld_device e)
    with (str_join " " [ld_primary e; f; ld_label e; ld_device e]).
  rewrite str_split_join by (done || by repeat constructor). simpl.
  destruct (str_split ":" (ld_device e)) as [|x xs] eqn:Es; [by destruct (str_split_nonempty ":" (ld_device e))|].
  simpl in *. rewrite <-Ht. destruct e as [p fo l d t]. simpl in *. f_equal. f_equal. unfold f.
  destruct fo as [x'|]; simpl; [|done]. destruct (Hf x' eq_refl) as [_ Hne]. by destruct (String.eqb_spec x' "-").
Qed.

Lemma strip_cr_id s : contains_char "013" s = false -> strip_cr s = s.
Proof.
  intros Hs. unfold strip_cr, ends_with. case_match eqn:E; [|done]. exfalso. apply andb_prop in E as [_ E]. apply String.eqb_eq in E.
  revert Hs E. generalize (slen s - slen (String "013" "")). intros n. revert s.
  induction n as [|n IH]; intros [|a s] Hs E; try done; simpl in *; simplify_eq/=.
  apply orb_false_elim in Hs as [_ Hs]. by apply (IH s).
Qed.

Lemma lines_of_clean ls : Forall (fun l => strip_cr l = l /\ l <> "") ls -> lines_of ls = ls.
Proof.
  induction 1 as [|x ls [Hx Hne] Hls IH]; [done|]. destruct ls as [|y ls]; simpl.
  - by destruct (String.eqb_spec x "").
  - f_equal; [done|exact IH].
Qed.

Lemma contains_to_string c e : canonical e -> Ascii.eqb " " c = false -> Ascii.eqb "-" c = false ->
  (forall s, word s -> contains_char c s = false) -> contains_char c (LdevEntry_to_string e) = false.
Proof.
  intros He Hs Hm Hw. unfold LdevEntry_to_string. rewrite device_text_canonical by done. destruct He as [Hp Hf Hl Hd _ _].
  assert (Hfo : contains_char c (default "-" (ld_failover e)) = false).
  { destruct (ld_failover e) as [f|]; [apply Hw, (Hf f eq_refl)|]. change ((Ascii.eqb "-" c || false)%bool = false). by rewrite Hm. }
  assert (Hsp : contains_char c " " = false) by (change ((Ascii.eqb " " c || false)%bool = false); by rewrite Hs).
  by rewrite !contains_char_app, Hfo, Hsp, !Hw.
Qed.

(** A file that was written from entries is read as these entries. *)
Theorem ldev_file_round_trip es (Hes : Forall canonical es) : parse_entries (convert es) = Some es.
Proof.
  unfold parse_entries, convert, str_lines.
  assert (Hl : lines_of (str_split newline (str_join (String newline "") (LdevEntry_to_string <$> es))) = LdevEntry_to_string <$> es).
  { destruct es as [|e es]; [done|]. rewrite str_split_join; [|done|].
    - apply lines_of_clean, Forall_fmap. eapply Forall_impl; [done|]. intros x Hx. simpl. split.
      + apply strip_cr_id, contains_to_string; try done. by intros s (_ & _ & ?).
      + unfold LdevEntry_to_string. by destruct (ld_primary x).
    - apply Forall_fmap. eapply Forall_impl; [done|]. intros x Hx. apply contains_to_string; try done. by intros s (_ & ? & _). }
  rewrite Hl. apply mapM_Some. apply Forall2_fmap_l, Forall_Forall2_diag. eapply Forall_impl; [done|].
  intros e He. by apply ldev_entry_round_trip.
Qed.

(** After [create], the file lists the targets it was given and no others, whatever entries it had. *)
Theorem ldev_create_labels es file old (Hne : es <> []) (Hes : Forall canonical es) (Hold : parse_entries file = Some old) :
  exists file' new, create es file = Some (Ok tt, file') /\ parse_entries file' = Some new /\ entry_labels new = entry_labels es.
Proof.
  unfold create. destruct es as [|e es]; [done|]. rewrite Hold. simpl. case_decide as Hd.
  - by exists file, old.
  - exists (convert (e :: es)), (e :: es). split; [done|]. by rewrite ldev_file_round_trip.
Qed.

(** Entries are compared by their labels alone: a target whose servers or device have changed
    keeps its old line. *)
Theorem ldev_changes_ignored es file old (Hne : es <> []) (Hold : parse_entries file = Some old) (Hl : entry_labels old = entry_labels es) :
  create es file = Some (Ok tt, file).
Proof. unfold create. destruct es as [|e es]; [done|]. rewrite Hold. simpl. by rewrite decide_True. Qed.

(** A comment or an empty line in the file makes the action panic. *)
Example comment_panics : create [MkLdevEntry "oss1" None "fs-OST0000" "zfs:ost0/ost0" (Some FsType_Zfs)] ("# ldev.conf" +:+ String newline "") = None.
Proof. by vm_compute. Qed.

(** * Witnesses *)

Definition sample_entry (primary : string) : LdevEntry := MkLdevEntry primary (Some "oss2") "fs-OST0000" "zfs:ost0/ost0" (Some FsType_Zfs).

Lemma sample_canonical : canonical (sample_entry "oss1").
Proof. split; simpl; try done. by intros f [= <-]. Qed.

Lemma ldev_entry_round_trip_witness : LdevEntry_from "oss1 oss2 fs-OST0000 zfs:ost0/ost0" = Some (sample_entry "oss1").
Proof. apply (ldev_entry_round_trip (sample_entry "oss1") sample_canonical). Defined.

Lemma ldev_file_round_trip_witness : parse_entries "oss1 oss2 fs-OST0000 zfs:ost0/ost0" = Some [sample_entry "oss1"].
Proof. apply (ldev_file_round_trip [sample_entry "oss1"]). constructor; [apply sample_canonical|constructor]. Defined.

Lemma ldev_create_labels_witness : exists file' new, create [sample_entry "oss1"] "" = Some (Ok tt, file') /\ parse_entries file' = Some new /\ entry_labels new = entry_labels [sample_entry "oss1"].
Proof.
  apply (ldev_create_labels [sample_entry "oss1"] "" []); [discriminate| |reflexivity]. constructor; [apply sample_canonical|constructor].
Defined.

Example moved_target_ignored : create [sample_entry "oss3"] "oss1 oss2 fs-OST0000 zfs:ost0/ost0" = Some (Ok tt, "oss1 oss2 fs-OST0000 zfs:ost0/ost0").
Proof. by vm_compute. Qed.
