(* ===== verification/Corosync.v ===== *)
(** The service [iml-corosync]: the high-availability clusters as the agents on their nodes
    report them. *)
From S2P Require Import Prelude RustStd WarpTypes Alerts Sql.
From stdpp Require Import base gmap sets list strings.
From Stdlib Require Import ZArith.

Open Scope Z_scope.

(** * Reports *)

Inductive NodeType : Type := NodeType_Unknown | NodeType_Member | NodeType_Remote | NodeType_Ping.

Definition NodeType_to_string (t : NodeType) : string :=
  match t with NodeType_Unknown => "unknown" | NodeType_Member => "member" | NodeType_Remote => "remote" | NodeType_Ping => "ping" end.

Record Node : Type := MkNode {
  n_name : string; n_id : string; n_online : bool; n_standby : bool; n_standby_onfail : bool; n_maintenance : bool; n_pending : bool;
  n_unclean : bool; n_shutdown : bool; n_expected_up : bool; n_is_dc : bool; n_resources_running : Z; n_type : NodeType }.

Record Resource : Type := MkResource {
  r_id : string; r_resource_agent : string; r_role : string; r_active : bool; r_orphaned : bool; r_managed : bool; r_failed : bool;
  r_failure_ignored : bool; r_nodes_running_on : Z; r_active_node_name : option string; r_active_node_id : option string }.

Record Ban : Type := MkBan { b_id : string; b_resource : string; b_node : string; b_weight : Z; b_master_only : bool }.

Record Cluster : Type := MkCluster {
  c_nodes : list Node; c_resources : list Resource; c_bans : list Ban; c_resource_mounts : gmap string string }.

(** A node is known by its number and its name. *)
Definition CorosyncNodeKey : Type := string * string.
Definition node_key (n : Node) : CorosyncNodeKey := (n_id n, n_name n).

(** * Tables *)

Record NodeRow : Type := MkNodeRow {
  nr_online : bool; nr_standby : bool; nr_standby_onfail : bool; nr_maintenance : bool; nr_pending : bool; nr_unclean : bool;
  nr_shutdown : bool; nr_expected_up : bool; nr_is_dc : bool; nr_resources_running : Z; nr_type : string }.

Record ResourceRow : Type := MkResourceRow {
  rr_resource_agent : string; rr_role : string; rr_active : bool; rr_orphaned : bool; rr_managed : bool; rr_failed : bool;
  rr_failure_ignored : bool; rr_nodes_running_on : Z; rr_active_node : option CorosyncNodeKey; rr_mount_point : option string }.

Record TicketRow : Type := MkTicketRow { tk_ha_label : string; tk_cluster_id : option Z; tk_not_deleted : option bool; tk_state : string }.

(** The tables by their unique columns. [corosync_nodes] is an array that is filled from a sorted
    set, so that two arrays are equal when the sets are. *)
Record Tables : Type := MkTables {
  clusters : gmap Z (gset CorosyncNodeKey); next_cluster : Z;
  nodes : gmap (CorosyncNodeKey * Z) NodeRow;
  node_hosts : gset (Z * CorosyncNodeKey * Z);
  resources : gmap (string * Z) ResourceRow;
  resource_hosts : gset (Z * Z * string);
  bans : gmap (string * Z * string * string) (Z * bool);
  tickets : list TicketRow }.

(** * Statements *)

Definition upsert_corosync_cluster (keys : gset CorosyncNodeKey) (t : Tables) : Tables :=
  if decide (map_Exists (fun _ ks => ks = keys) (clusters t)) then
    MkTables (clusters t) (next_cluster t + 1) (nodes t) (node_hosts t) (resources t) (resource_hosts t) (bans t) (tickets t)
  else MkTables (<[next_cluster t := keys]> (clusters t)) (next_cluster t + 1) (nodes t) (node_hosts t) (resources t) (resource_hosts t)
         (bans t) (tickets t).

Definition fetch_corosync_cluster_by_nodes (keys : gset CorosyncNodeKey) (t : Tables) : option Z :=
  fst <$> head (map_to_list (filter (fun kv : Z * gset CorosyncNodeKey => kv.2 = keys) (clusters t))).

(** A row of a set of rows satisfies [q]. *)
Definition some_row {A} `{Countable A} (q : A -> bool) (X : gset A) : bool := existsb q (elements X).

(** The clusters to be deleted: the host has a node in them and their nodes are others. *)
Definition dead_cluster (host_id : Z) (keys : gset CorosyncNodeKey) (t : Tables) (c : Z) : bool :=
  match clusters t !! c with Some ks => bool_decide (ks <> keys) | None => false end &&
  some_row (fun x => bool_decide (x.1.1 = host_id /\ x.2 = c)) (node_hosts t).

(** The references are deleted with the cluster. *)
Definition delete_cluster (host_id : Z) (keys : gset CorosyncNodeKey) (t : Tables) : Tables :=
  let dead := dead_cluster host_id keys t in
  MkTables (filter (fun kv => dead kv.1 = false) (clusters t)) (next_cluster t)
    (filter (fun kv => dead kv.1.2 = false) (nodes t)) (filter (fun x => dead x.2 = false) (node_hosts t))
    (filter (fun kv => dead kv.1.2 = false) (resources t)) (filter (fun x => dead x.1.2 = false) (resource_hosts t))
    (filter (fun kv => dead kv.1.1.1.2 = false) (bans t)) (tickets t).

Definition dead_ban (host_id : Z) (ban_ids : list string) (t : Tables) (k : string * Z * string * string) : bool :=
  some_row (fun x => bool_decide (x.1.1 = host_id /\ x.1.2.2 = k.2)) (node_hosts t) && bool_decide (k.1.1.1 ∉ ban_ids).

Definition delete_corosync_resource_bans (host_id : Z) (ban_ids : list string) (t : Tables) : Tables :=
  MkTables (clusters t) (next_cluster t) (nodes t) (node_hosts t) (resources t) (resource_hosts t)
    (filter (fun kv => dead_ban host_id ban_ids t kv.1 = false) (bans t)) (tickets t).

(** With a node go the rows of [corosync_node_managed_host] that refer to it. *)
Definition dead_node (host_id : Z) (keys : gset CorosyncNodeKey) (t : Tables) (k : CorosyncNodeKey) : bool :=
  some_row (fun x => bool_decide (x.1.1 = host_id /\ x.1.2 = k)) (node_hosts t) && bool_decide (k ∉ keys).

Definition delete_nodes (host_id : Z) (keys : gset CorosyncNodeKey) (t : Tables) : Tables :=
  MkTables (clusters t) (next_cluster t) (filter (fun kv => dead_node host_id keys t kv.1.1 = false) (nodes t))
    (filter (fun x => dead_node host_id keys t x.1.2 = false) (node_hosts t)) (resources t) (resource_hosts t) (bans t) (tickets t).

(** The resource is looked up by its name alone. *)
Definition dead_resource (host_id : Z) (ids : list string) (t : Tables) (name : string) : bool :=
  some_row (fun x => bool_decide (x.1.1 = host_id /\ x.2 = name)) (resource_hosts t) && bool_decide (name ∉ ids).

(** The second statement deletes what the host still has. *)
Definition delete_target_resources (host_id : Z) (ids : list string) (t : Tables) : Tables :=
  MkTables (clusters t) (next_cluster t) (nodes t) (node_hosts t) (filter (fun kv => dead_resource host_id ids t kv.1.1 = false) (resources t))
    (filter (fun x => dead_resource host_id ids t x.2 = false /\ ~ (x.2 ∉ ids /\ x.1.1 = host_id)) (resource_hosts t)) (bans t) (tickets t).

(** [as i32] of a [u32]. *)
Definition as_i32 (x : Z) : Z := if x <? 2 ^ 31 then x else x - 2 ^ 32.

Definition node_row (n : Node) : NodeRow :=
  MkNodeRow (n_online n) (n_standby n) (n_standby_onfail n) (n_maintenance n) (n_pending n) (n_unclean n) (n_shutdown n) (n_expected_up n)
    (n_is_dc n) (as_i32 (n_resources_running n)) (NodeType_to_string (n_type n)).

Definition upsert_cluster_nodes (ns : list Node) (cluster_id : Z) (t : Tables) : option Tables :=
  m ← upsert ((fun n => ((node_key n, cluster_id), node_row n)) <$> ns) (nodes t);
  Some (MkTables (clusters t) (next_cluster t) m (node_hosts t) (resources t) (resource_hosts t) (bans t) (tickets t)).

Definition ticket_state (rs : list Resource) (label : string) : option string :=
  (fun x => if r_active x.2 then "granted" else "revoked") <$>
    list_find (fun r => r_resource_agent r = "ocf::ddn:Ticketer" /\ r_id r = label) rs.

Definition update_chroma_ticket (rs : list Resource) (cluster_id : Z) (t : Tables) : Tables :=
  MkTables (clusters t) (next_cluster t) (nodes t) (node_hosts t) (resources t) (resource_hosts t) (bans t)
    ((fun tk => if decide (tk_cluster_id tk = Some cluster_id /\ tk_not_deleted tk = Some true)
                then MkTicketRow (tk_ha_label tk) (tk_cluster_id tk) (tk_not_deleted tk) (default (tk_state tk) (ticket_state rs (tk_ha_label tk)))
                else tk) <$> tickets t).

Definition resource_row (mounts : gmap string string) (r : Resource) : ResourceRow :=
  MkResourceRow (r_resource_agent r) (r_role r) (r_active r) (r_orphaned r) (r_managed r) (r_failed r) (r_failure_ignored r)
    (as_i32 (r_nodes_running_on r))
    (match r_active_node_id r, r_active_node_name r with Some x, Some y => Some (x, y) | _, _ => None end) (mounts !! r_id r).

Definition upsert_target_resources (rs : list Resource) (mounts : gmap string string) (cluster_id : Z) (t : Tables) : option Tables :=
  m ← upsert ((fun r => ((r_id r, cluster_id), resource_row mounts r)) <$> rs) (resources t);
  Some (MkTables (clusters t) (next_cluster t) (nodes t) (node_hosts t) m (resource_hosts t) (bans t) (tickets t)).

Definition upsert_resource_bans (cluster_id : Z) (bs : list Ban) (t : Tables) : option Tables :=
  m ← upsert ((fun b => ((b_id b, cluster_id, b_resource b, b_node b), (b_weight b, b_master_only b))) <$> bs) (bans t);
  Some (MkTables (clusters t) (next_cluster t) (nodes t) (node_hosts t) (resources t) (resource_hosts t) m (tickets t)).

Definition upsert_node_managed_host (host_id cluster_id : Z) (k : CorosyncNodeKey) (t : Tables) : Tables :=
  MkTables (clusters t) (next_cluster t) (nodes t) ({[(host_id, k, cluster_id)]} ∪ node_hosts t) (resources t) (resource_hosts t) (bans t) (tickets t).

Definition upsert_target_resource_managed_host (host_id cluster_id : Z) (ids : list string) (t : Tables) : Tables :=
  MkTables (clusters t) (next_cluster t) (nodes t) (node_hosts t) (resources t)
    (list_to_set ((fun id => (host_id, cluster_id, id)) <$> ids) ∪ resource_hosts t) (bans t) (tickets t).

(** * The loop *)

(** The body, from the known host and its node on: [None] when a statement fails. *)
Definition store_cluster (host_id : Z) (local : CorosyncNodeKey) (cl : Cluster) (t : Tables) : option Tables :=
  let keys := list_to_set (node_key <$> c_nodes cl) in
  let ids := r_id <$> c_resources cl in
  let t := upsert_corosync_cluster keys t in
  cluster_id ← fetch_corosync_cluster_by_nodes keys t;
  let t := delete_cluster host_id keys t in
  let t := delete_corosync_resource_bans host_id (b_id <$> c_bans cl) t in
  let t := delete_nodes host_id keys t in
  let t := delete_target_resources host_id ids t in
  t ← upsert_cluster_nodes (c_nodes cl) cluster_id t;
  let t := update_chroma_ticket (c_resources cl) cluster_id t in
  t ← upsert_target_resources (c_resources cl) (c_resource_mounts cl) cluster_id t;
  t ← upsert_resource_bans cluster_id (c_bans cl) t;
  let t := upsert_node_managed_host host_id cluster_id local t in
  Some (upsert_target_resource_managed_host host_id cluster_id ids t).

(** One message; [None] when the service ends. *)
Definition corosync_message (hosts : list ManagedHostRecord) (fqdn local_node_id : string) (cl : Cluster) (t : Tables) : option Tables :=
  match ManagedHostRecord_id <$> find_host fqdn hosts with
  | None => Some t
  | Some host_id =>
      match snd <$> list_find (fun n => n_id n = local_node_id) (c_nodes cl) with
      | None => Some t
      | Some n => store_cluster host_id (node_key n) cl t
      end
  end.

(** * What holds *)

(** Clusters differ in their nodes, and their numbers are below the next. *)
Record clusters_ok (t : Tables) : Prop := MkClustersOk {
  ok_unique : forall c d ks, clusters t !! c = Some ks -> clusters t !! d = Some ks -> c = d;
  ok_below : forall c ks, clusters t !! c = Some ks -> c < next_cluster t }.

Lemma upsert_cluster_ok keys t : clusters_ok t -> clusters_ok (upsert_corosync_cluster keys t).
Proof.
  intros [H1 H2]. unfold upsert_corosync_cluster. case_decide as Hd; split; simpl.
  - done.
  - intros c ks Hc. specialize (H2 c ks Hc). lia.
  - intros c d ks [[<- <-]|[Hc Ec]]%lookup_insert_Some [[<- E]|[Hd' Ed]]%lookup_insert_Some; try done.
    + destruct Hd. by exists d, keys.
    + subst ks. destruct Hd. by exists c, keys.
    + by eapply H1.
  - intros c ks [[<- <-]|[_ Hc]]%lookup_insert_Some; [lia|]. specialize (H2 c ks Hc). lia.
Qed.

Lemma upsert_cluster_there keys t : exists c, clusters (upsert_corosync_cluster keys t) !! c = Some keys.
Proof.
  unfold upsert_corosync_cluster. case_decide as Hd; simpl.
  - destruct Hd as (c & ks & Hc & ->). eauto.
  - exists (next_cluster t). apply lookup_insert_eq.
Qed.

(** A cluster that is known is left as it is. *)
Lemma upsert_cluster_known keys t c : clusters t !! c = Some keys -> clusters (upsert_corosync_cluster keys t) = clusters t.
Proof.
  intros Hc. unfold upsert_corosync_cluster. rewrite decide_True; [done|]. by exists c, keys.
Qed.

Lemma fetch_cluster keys t c : clusters_ok t -> clusters t !! c = Some keys -> fetch_corosync_cluster_by_nodes keys t = Some c.
Proof.
  intros [H1 _] Hc. unfold fetch_corosync_cluster_by_nodes.
  assert (Hin : (c, keys) ∈ map_to_list (filter (fun kv : Z * gset CorosyncNodeKey => kv.2 = keys) (clusters t))).
  { apply elem_of_map_to_list, map_lookup_filter_Some. done. }
  destruct (map_to_list _) as [|[d ks] l] eqn:El; [by apply elem_of_nil in Hin|]. simpl. f_equal.
  assert (Hd : (d, ks) ∈ map_to_list (filter (fun kv : Z * gset CorosyncNodeKey => kv.2 = keys) (clusters t))) by (rewrite El; by left).
  apply elem_of_map_to_list, map_lookup_filter_Some in Hd as [Hd E]. simpl in E. subst ks. by eapply H1.
Qed.

(** The tables before the inserts. *)
Definition swept (host_id : Z) (cl : Cluster) (t : Tables) : Tables :=
  let keys := list_to_set (node_key <$> c_nodes cl) in
  delete_target_resources host_id (r_id <$> c_resources cl)
    (delete_nodes host_id keys (delete_corosync_resource_bans host_id (b_id <$> c_bans cl) (delete_cluster host_id keys t))).

(** What the inserts make of the tables [s]. *)
Definition filled (host_id : Z) (local : CorosyncNodeKey) (c : Z) (cl : Cluster) (s t' : Tables) : Prop :=
  clusters t' = clusters s /\
  (exists m, upsert ((fun n => ((node_key n, c), node_row n)) <$> c_nodes cl) (nodes s) = Some m /\ nodes t' = m) /\
  (exists m, upsert ((fun r => ((r_id r, c), resource_row (c_resource_mounts cl) r)) <$> c_resources cl) (resources s) = Some m /\ resources t' = m) /\
  (exists m, upsert ((fun b => ((b_id b, c, b_resource b, b_node b), (b_weight b, b_master_only b))) <$> c_bans cl) (bans s) = Some m /\ bans t' = m) /\
  node_hosts t' = {[(host_id, local, c)]} ∪ node_hosts s /\
  resource_hosts t' = list_to_set ((fun id => (host_id, c, id)) <$> (r_id <$> c_resources cl)) ∪ resource_hosts s.

Lemma store_cluster_split host_id local cl t t' c : clusters_ok t ->
  clusters (upsert_corosync_cluster (list_to_set (node_key <$> c_nodes cl)) t) !! c = Some (list_to_set (node_key <$> c_nodes cl)) ->
  store_cluster host_id local cl t = Some t' ->
  filled host_id local c cl (swept host_id cl (upsert_corosync_cluster (list_to_set (node_key <$> c_nodes cl)) t)) t'.
Proof.
  intros Hok Hc. unfold store_cluster. rewrite (fetch_cluster _ _ c (upsert_cluster_ok _ _ Hok) Hc).
  unfold upsert_cluster_nodes, upsert_target_resources, upsert_resource_bans, mbind, option_bind.
  fold (swept host_id cl (upsert_corosync_cluster (list_to_set (node_key <$> c_nodes cl)) t)).
  set (s := swept host_id cl _). destruct (upsert _ (nodes s)) as [m1|] eqn:E1; [|done].
  destruct (upsert _ (resources _)) as [m2|] eqn:E2; [|done]. destruct (upsert _ (bans _)) as [m3|] eqn:E3; [|done].
  intros [= <-]. unfold filled. simpl in *. repeat split; eauto.
Qed.

Lemma store_cluster_total host_id local cl t : clusters_ok t ->
  NoDup (node_key <$> c_nodes cl) -> NoDup (r_id <$> c_resources cl) -> NoDup ((fun b => (b_id b, b_resource b, b_node b)) <$> c_bans cl) ->
  exists t', store_cluster host_id local cl t = Some t'.
Proof.
  intros Hok Hn Hr Hb. unfold store_cluster. destruct (upsert_cluster_there (list_to_set (node_key <$> c_nodes cl)) t) as [c Hc].
  rewrite (fetch_cluster _ _ c (upsert_cluster_ok _ _ Hok) Hc).
  unfold upsert_cluster_nodes, upsert_target_resources, upsert_resource_bans, mbind, option_bind.
  assert (Hup : forall {K V A} `{Countable K} (f : A -> K * V) (l : list A) (m : gmap K V), NoDup ((fst ∘ f) <$> l) -> is_Some (upsert (f <$> l) m)).
  { intros K V A ? ? f l m Hnd. unfold upsert. rewrite <-list_fmap_compose. by rewrite decide_True. }
  edestruct Hup as [m1 E1]; [|rewrite E1].
  { apply (NoDup_fmap_1 fst). rewrite <-list_fmap_compose. exact Hn. }
  edestruct Hup as [m2 E2]; [|rewrite E2].
  { apply (NoDup_fmap_1 fst). rewrite <-list_fmap_compose. exact Hr. }
  edestruct Hup as [m3 E3]; [|rewrite E3].
  { apply (NoDup_fmap_1 (fun k : string * Z * string * string => (k.1.1.1, k.1.2, k.2))). rewrite <-list_fmap_compose. exact Hb. }
  eauto.
Qed.

Lemma some_row_spec {A} `{Countable A} (q : A -> bool) (X : gset A) x : x ∈ X -> q x = true -> some_row q X = true.
Proof. intros Hx Hq. apply existsb_exists. exists x. split; [|done]. by apply list_elem_of_In, elem_of_elements. Qed.

(** The cluster of the report survives the sweep. *)
Lemma report_alive host_id keys t c : clusters t !! c = Some keys -> dead_cluster host_id keys t c = false.
Proof. intros Hc. unfold dead_cluster. rewrite Hc. rewrite bool_decide_false; [done|]. intros Hne. by apply Hne. Qed.

Lemma swept_clusters host_id cl t c : let keys := list_to_set (node_key <$> c_nodes cl) in
  clusters t !! c = Some keys -> clusters (swept host_id cl t) !! c = Some keys.
Proof. intros keys Hc. simpl. apply map_lookup_filter_Some. split; [done|]. by apply report_alive. Qed.

Lemma swept_resource_hosts host_id cl t c name : (host_id, c, name) ∈ resource_hosts (swept host_id cl t) -> name ∈ r_id <$> c_resources cl.
Proof.
  intros Hin. simpl in Hin. apply elem_of_filter in Hin as [[_ Hn] _]. simpl in Hn.
  destruct (decide (name ∈ r_id <$> c_resources cl)) as [Hx|Hx]; [done|]. by destruct Hn.
Qed.

(** A resource that the host had and that is not in the report any more is gone, in every cluster. *)
Lemma swept_resource_gone host_id cl t c name : clusters t !! c = Some (list_to_set (node_key <$> c_nodes cl)) ->
  (host_id, c, name) ∈ resource_hosts t -> name ∉ r_id <$> c_resources cl ->
  forall d, resources (swept host_id cl t) !! (name, d) = None.
Proof.
  intros Hc Hin Hn d. simpl. apply map_lookup_filter_None. right. intros row _ Hd. apply not_true_iff_false in Hd. apply Hd. clear Hd.
  unfold dead_resource. rewrite bool_decide_true by done. rewrite andb_true_r. simpl.
  apply (some_row_spec _ _ (host_id, c, name)); [|by apply bool_decide_true].
  apply elem_of_filter. split; [by apply report_alive|done].
Qed.

Lemma elem_of_upsert {K V A} `{Countable K} (f : A -> K * V) l m m' x : upsert (f <$> l) m = Some m' -> x ∈ l -> m' !! (f x).1 = Some (f x).2.
Proof.
  intros E Hx. destruct (upsert_lookup _ _ _ E) as [H1 _]. apply H1. rewrite <-surjective_pairing. by apply list_elem_of_fmap_2.
Qed.

(** C18: after a report of a host, the cluster with the reported nodes is stored, with every node,
    resource and ban as reported; the host belongs to it by its own node, and has exactly the
    reported resources there; and one that it had and that is not reported is removed. Nodes,
    resources and bans have ids of their own in the report. *)
Theorem cluster_stored host_id local cl t (Hok : clusters_ok t)
    (Hn : NoDup (node_key <$> c_nodes cl)) (Hr : NoDup (r_id <$> c_resources cl))
    (Hb : NoDup ((fun b => (b_id b, b_resource b, b_node b)) <$> c_bans cl)) :
  exists t' c, store_cluster host_id local cl t = Some t' /\
    clusters t' !! c = Some (list_to_set (node_key <$> c_nodes cl)) /\
    (forall n, n ∈ c_nodes cl -> nodes t' !! (node_key n, c) = Some (node_row n)) /\
    (forall r, r ∈ c_resources cl -> resources t' !! (r_id r, c) = Some (resource_row (c_resource_mounts cl) r)) /\
    (forall b, b ∈ c_bans cl -> bans t' !! (b_id b, c, b_resource b, b_node b) = Some (b_weight b, b_master_only b)) /\
    (host_id, local, c) ∈ node_hosts t' /\
    (forall name, (host_id, c, name) ∈ resource_hosts t' <-> name ∈ r_id <$> c_resources cl) /\
    (forall name, clusters t !! c = Some (list_to_set (node_key <$> c_nodes cl)) -> (host_id, c, name) ∈ resource_hosts t ->
       name ∉ r_id <$> c_resources cl -> resources t' !! (name, c) = None).
Proof.
  set (keys := list_to_set (node_key <$> c_nodes cl) : gset CorosyncNodeKey).
  destruct (upsert_cluster_there keys t) as [c Hc]. destruct (store_cluster_total host_id local cl t Hok Hn Hr Hb) as [t' E].
  destruct (store_cluster_split host_id local cl t t' c Hok Hc E) as (F1 & (m1 & F2 & G2) & (m2 & F3 & G3) & (m3 & F4 & G4) & F5 & F6).
  exists t', c. split; [done|]. rewrite F1, G2, G3, G4, F5, F6. split; [by apply swept_clusters|].
  split; [intros n Hx; apply (elem_of_upsert _ _ _ _ n F2 Hx)|]. split; [intros r Hx; apply (elem_of_upsert _ _ _ _ r F3 Hx)|].
  split; [intros b Hx; apply (elem_of_upsert _ _ _ _ b F4 Hx)|]. split; [set_solver|]. split.
  - intros name. rewrite elem_of_union, elem_of_list_to_set. split.
    + intros [(x & [= ->] & Hx)%list_elem_of_fmap|Hx]; [done|]. by eapply swept_resource_hosts.
    + intros Hx. left. by apply (list_elem_of_fmap_2 (fun id => (host_id, c, id))).
  - intros name Hc0 Hin Hnot. destruct (upsert_lookup _ _ _ F3) as [_ L2]. rewrite L2.
    + eapply (swept_resource_gone host_id cl _ c); [done| |done]. unfold upsert_corosync_cluster. by case_decide.
    + rewrite <-list_fmap_compose. intros (r & [= ->] & Hx)%list_elem_of_fmap. apply Hnot. by apply list_elem_of_fmap_2.
Qed.

(** Resources are deleted by name: when a host no longer has a resource, the resources of that name
    in all other clusters are deleted with it. *)
Theorem resource_lost_elsewhere host_id local cl t t' c name (Hok : clusters_ok t)
    (Hc : clusters t !! c = Some (list_to_set (node_key <$> c_nodes cl))) (Hin : (host_id, c, name) ∈ resource_hosts t)
    (Hn : name ∉ r_id <$> c_resources cl) (E : store_cluster host_id local cl t = Some t') :
  forall d, resources t' !! (name, d) = None.
Proof.
  intros d. set (keys := list_to_set (node_key <$> c_nodes cl) : gset CorosyncNodeKey) in *.
  assert (Hc' : clusters (upsert_corosync_cluster keys t) !! c = Some keys) by (by rewrite (upsert_cluster_known keys t c Hc)).
  destruct (store_cluster_split host_id local cl t t' c Hok Hc' E) as (_ & _ & (m2 & F3 & ->) & _).
  destruct (upsert_lookup _ _ _ F3) as [_ L2]. rewrite L2.
  - eapply (swept_resource_gone host_id cl _ c); [done| |done]. unfold upsert_corosync_cluster. by case_decide.
  - rewrite <-list_fmap_compose. intros (r & [= -> _] & Hx)%list_elem_of_fmap. apply Hn. by apply list_elem_of_fmap_2.
Qed.

(** * Witnesses *)

Definition sample_node (id name : string) : Node :=
  MkNode name id true false false false false false false true false 1 NodeType_Member.

Definition sample_resource (id : string) : Resource :=
  MkResource id "ocf::lustre:Lustre" "Started" true false true false false 1 (Some "oss1") (Some "1").

Definition sample_cluster (ids : list string) : Cluster :=
  MkCluster [sample_node "1" "oss1"; sample_node "2" "oss2"] (sample_resource <$> ids) [] ∅.

Definition no_tables : Tables := MkTables ∅ 1 ∅ ∅ ∅ ∅ ∅ [].

Lemma no_tables_ok : clusters_ok no_tables.
Proof. split; intros *; discriminate. Qed.

Lemma cluster_stored_witness : exists t' c, store_cluster 7 ("1", "oss1") (sample_cluster ["MGS"; "fs-OST0000"]) no_tables = Some t' /\
  resources t' !! ("MGS", c) = Some (resource_row ∅ (sample_resource "MGS")).
Proof.
  destruct (cluster_stored 7 ("1", "oss1") (sample_cluster ["MGS"; "fs-OST0000"]) no_tables no_tables_ok) as (t' & c & E & _ & _ & Hr & _).
  - apply (bool_decide_unpack _). by vm_compute.
  - apply (bool_decide_unpack _). by vm_compute.
  - apply (bool_decide_unpack _). by vm_compute.
  - exists t', c. split; [exact E|]. apply (Hr (sample_resource "MGS")). by left.
Defined.

(** Two clusters with a resource of the same name; it is removed from the first only. *)
Example other_cluster_loses_resource :
  let other := MkCluster [sample_node "1" "mds1"] [sample_resource "MGS"] [] ∅ in
  (fun t => (bool_decide (is_Some (resources t !! ("MGS", 1))), bool_decide (is_Some (resources t !! ("MGS", 2))))) <$>
    (t ← store_cluster 7 ("1", "oss1") (sample_cluster ["MGS"]) no_tables;
     t ← store_cluster 8 ("1", "mds1") other t;
     store_cluster 7 ("1", "oss1") (sample_cluster []) t) = Some (false, false).
Proof. by vm_compute. Qed.
