(* ===== verification/DependencyTree.v ===== *)
(** * The dependency trees of the user interface ([iml-gui/crate/src/dependency_tree.rs])

    The jobs of a command wait for one another; the page shows them as a tree. The file turns a
    list of things with identifiers and dependencies into a graph, and walks the graph with two
    callbacks. [Arc]s to the same value are the value; the set of visited identifiers and the
    context of the callbacks are passed along. The recursion has a fuel argument, and
    [traverse_total] shows that one more than the number of links is always enough.

    The theorems describe the walk by the forest it visits: the callbacks see that forest and
    nothing else, every node is new exactly once, and the graph that [build_direct_dag] makes
    shows every job, below one that waits for it if there is one. *)
From S2P Require Import Prelude.
From stdpp Require Import gmap sets fin_sets fin_map_dom list sorting.
From Stdlib Require Import Lia.

(** The trait [Deps]. *)
Class Deps (K T : Type) : Type := { deps_id : T -> K; deps : T -> list K }.

Record Rich (K T : Type) : Type := MkRich { r_id : K; r_deps : list K; r_inner : T }.
Arguments MkRich {K T} _ _ _.
Arguments r_id {K T} _.
Arguments r_deps {K T} _.
Arguments r_inner {K T} _.

Definition Rich_new {K T} (inner : T) (extract : T -> K * list K) : Rich K T :=
  MkRich (extract inner).1 (extract inner).2 inner.

#[export] Instance Rich_Deps {K T} : Deps K (Rich K T) := {| deps_id := r_id; deps := r_deps |}.

Record DependencyDAG (K T : Type) `{Countable K} : Type := MkDAG { roots : list T; links : gmap K (list T) }.
Arguments MkDAG {K T _ _} _ _.
Arguments roots {K T _ _} _.
Arguments links {K T _ _} _.

Section dag.
Context {K T : Type} `{Countable K} `{Deps K T}.
Implicit Types (x y : K).

(** ** Building the graph *)

Definition DAG_is_empty (g : DependencyDAG K T) : bool := match roots g with [] => true | _ => false end.

(** The first object with an identifier stands for it; an identifier without one is left out. *)
Definition convert_ids_to_arcs (objs : list T) (ids : list K) : list T :=
  omap (fun i => List.find (fun o => bool_decide (deps_id o = i)) objs) ids.

#[local] Arguments convert_ids_to_arcs : simpl never.

Definition enrich_dag (objs : list T) (int_roots : list K) (int_deps : list (K * list K)) : DependencyDAG K T :=
  MkDAG (convert_ids_to_arcs objs int_roots)
    (foldl (fun m d => <[d.1 := convert_ids_to_arcs objs d.2]> m) ∅ int_deps).

(** [Vec::remove] at the first position that has the value. *)
Fixpoint remove_first y (l : list K) : list K :=
  match l with
  | [] => []
  | x :: l => if decide (x = y) then l else x :: remove_first y l
  end.

Definition direct_step (acc : list K * list (K * list K)) (t : T) : list K * list (K * list K) :=
  match deps t with
  | [] => acc
  | ys =>
      let rs := if decide (deps_id t ∈ acc.1) then acc.1 else acc.1 ++ [deps_id t] in
      (foldl (fun rs y => remove_first y rs) rs ys, acc.2 ++ [(deps_id t, ys)])
  end.

Definition build_direct_dag (ts : list T) : DependencyDAG K T :=
  let '(rs, dag) := foldl direct_step (deps_id <$> ts, []) ts in enrich_dag ts rs dag.

(** The arc from [x] to [y] is put with the other arcs from [x]. *)
Fixpoint push_arc x y (dag : list (K * list K)) : list (K * list K) :=
  match dag with
  | [] => [(x, [y])]
  | d :: dag => if decide (d.1 = x) then (d.1, d.2 ++ [y]) :: dag else d :: push_arc x y dag
  end.

Definition inverse_step (acc : gset K * list (K * list K)) (t : T) : gset K * list (K * list K) :=
  foldl (fun acc x => (acc.1 ∖ {[deps_id t]}, push_arc x (deps_id t) acc.2)) acc (deps t).

Definition build_inverse_dag (le : relation K) `{!RelDecision le} (ts : list T) : DependencyDAG K T :=
  let '(rs, dag) := foldl inverse_step (list_to_set (deps_id <$> ts), []) ts in
  enrich_dag ts (merge_sort le (elements rs)) dag.

(** ** Walking the graph *)

Section traverse.
Context {U C : Type} (graph : DependencyDAG K T).
Context (apply_node : T -> bool -> C -> U * C) (combine_nodes : U -> list U -> C -> U * C).

(** The two loops over nodes: each is visited in the state the one before has left. *)
Fixpoint traverse_all {S} (visit : T -> S -> option (U * S)) (ns : list T) (s : S) : option (list U * S) :=
  match ns with
  | [] => Some ([], s)
  | n :: ns =>
      '(u, s) ← visit n s;
      '(us, s) ← traverse_all visit ns s;
      Some (u :: us, s)
  end.

Fixpoint traverse_node (fuel : nat) (n : T) (env : gset K * C) : option (U * (gset K * C)) :=
  match fuel with
  | O => None
  | S fuel =>
      let is_new := bool_decide (deps_id n ∉ env.1) in
      let '(parent, context) := apply_node n is_new env.2 in
      let env := ({[deps_id n]} ∪ env.1, context) in
      '(acc, env) ← (match links graph !! deps_id n with
                     | Some ds => if is_new then traverse_all (traverse_node fuel) ds env else Some ([], env)
                     | None => Some ([], env)
                     end);
      let '(u, context) := combine_nodes parent acc env.2 in
      Some (u, (env.1, context))
  end.

Definition traverse_graph (fuel : nat) (context : C) : option (list U * C) :=
  '(acc, env) ← traverse_all (traverse_node fuel) (roots graph) (∅, context);
  Some (acc, env.2).

End traverse.

(** ** The forest that is walked *)

(** A visit to a node: whether it was new, and the visits below it. *)
Inductive Tree : Type := Node (n : T) (is_new : bool) (below : list Tree).

Lemma Tree_nested_ind (P : Tree -> Prop) (HP : forall n b below, Forall P below -> P (Node n b below)) : forall t, P t.
Proof.
  fix IH 1. intros [n b below]. apply HP. induction below as [|t below IHb]; constructor; [apply IH|exact IHb].
Qed.

Definition tree_apply (n : T) (is_new : bool) (u : unit) : Tree * unit := (Node n is_new [], u).
Definition tree_combine (parent : Tree) (acc : list Tree) (u : unit) : Tree * unit :=
  match parent with Node n is_new _ => (Node n is_new acc, u) end.

Definition forest (g : DependencyDAG K T) (fuel : nat) : option (list Tree) :=
  fst <$> traverse_graph g tree_apply tree_combine fuel tt.

Definition map_state {A B S} (f : A -> S -> B * S) : list A -> S -> list B * S :=
  fix go l s :=
    match l with
    | [] => ([], s)
    | x :: l => let '(y, s) := f x s in let '(ys, s) := go l s in (y :: ys, s)
    end.

(** What the callbacks make of a forest. *)
Section render.
Context {U C : Type} (apply_node : T -> bool -> C -> U * C) (combine_nodes : U -> list U -> C -> U * C).

Fixpoint render (t : Tree) (ctx : C) : U * C :=
  match t with
  | Node n is_new below =>
      let '(parent, ctx) := apply_node n is_new ctx in
      let '(acc, ctx) := map_state render below ctx in
      combine_nodes parent acc ctx
  end.

Lemma traverse_all_render (visit : T -> gset K * C -> option (U * (gset K * C))) (walk : T -> gset K * unit -> option (Tree * (gset K * unit))) ns V ctx
    (Hv : forall n V ctx, visit n (V, ctx) =
      '(t, env) ← walk n (V, tt); let '(u, ctx) := render t ctx in Some (u, (env.1, ctx))) :
  traverse_all visit ns (V, ctx) =
  '(ts, env) ← traverse_all walk ns (V, tt); let '(us, ctx) := map_state render ts ctx in Some (us, (env.1, ctx)).
Proof.
  revert V ctx. induction ns as [|n ns IH]; intros V ctx; simpl; [done|].
  rewrite Hv. destruct (walk n (V, tt)) as [[t [V1 []]]|]; simpl; [|done].
  destruct (render t ctx) as [u ctx1] eqn:Er; simpl. rewrite IH.
  destruct (traverse_all walk ns (V1, tt)) as [[ts [V2 []]]|]; simpl; [|done].
  rewrite Er. by destruct (map_state render ts ctx1).
Qed.

Lemma traverse_node_render g fuel : forall n V ctx,
  traverse_node g apply_node combine_nodes fuel n (V, ctx) =
  '(t, env) ← traverse_node g tree_apply tree_combine fuel n (V, tt);
  let '(u, ctx) := render t ctx in Some (u, (env.1, ctx)).
Proof.
  induction fuel as [|fuel IH]; intros n V ctx; [done|]. simpl.
  destruct (apply_node n _ ctx) as [parent ctx1] eqn:Ea. simpl.
  destruct (links g !! deps_id n) as [ds|]; [case_bool_decide|]; simpl; rewrite ?Ea; [|by destruct (combine_nodes _ _ _)..].
  rewrite (traverse_all_render _ _ _ _ _ IH).
  destruct (traverse_all _ ds _) as [[ts [V2 []]]|]; simpl; [|done]. rewrite Ea.
  destruct (map_state render ts ctx1) as [us ctx2]; simpl. by destruct (combine_nodes _ _ _).
Qed.

End render.

(** The walk hands its callbacks the forest, each node before what is below it and after it
    again with the results: what is shown depends on the graph through the forest alone. *)
Theorem traverse_renders {U C} (apply_node : T -> bool -> C -> U * C) (combine_nodes : U -> list U -> C -> U * C) g fuel ctx :
  traverse_graph g apply_node combine_nodes fuel ctx = (fun ts => map_state (render apply_node combine_nodes) ts ctx) <$> forest g fuel.
Proof.
  unfold traverse_graph, forest, traverse_graph.
  rewrite (traverse_all_render apply_node combine_nodes _ _ _ _ _ (traverse_node_render apply_node combine_nodes g fuel)).
  destruct (traverse_all _ (roots g) _) as [[ts env]|]; simpl; [|done]. by destruct (map_state _ ts ctx).
Qed.

(** ** What the forest holds *)

Fixpoint new_ids (t : Tree) : list K :=
  match t with Node n is_new below => (if is_new then [deps_id n] else []) ++ flat_map new_ids below end.

Definition root_of (t : Tree) : T := match t with Node n _ _ => n end.
Definition is_new (t : Tree) : bool := match t with Node _ b _ => b end.

Fixpoint nodes (t : Tree) : list Tree :=
  match t with Node _ _ below => t :: flat_map nodes below end.

Section walk.
Context (g : DependencyDAG K T).

Definition edge x y : Prop := exists ds d, links g !! x = Some ds /\ d ∈ ds /\ deps_id d = y.

(** Below a node that is new are its links, in order; below one that is not, nothing. *)
Definition shows (t : Tree) : Prop :=
  match t with Node n b below => root_of <$> below = if b then default [] (links g !! deps_id n) else [] end.

(** The visits [ts] to the nodes [ns], which have turned the visited set [V] into [V']. *)
Record visited_by (ns : list T) (V V' : gset K) (ts : list Tree) : Prop := {
  vb_roots : root_of <$> ts = ns;
  vb_set : V' = V ∪ list_to_set (flat_map new_ids ts);
  vb_nodup : NoDup (flat_map new_ids ts);
  vb_fresh : forall x, x ∈ flat_map new_ids ts -> x ∉ V;
  vb_ns : forall n, n ∈ ns -> deps_id n ∈ V';
  vb_closed : forall x y, x ∈ flat_map new_ids ts -> edge x y -> y ∈ V';
  vb_reach : forall x, x ∈ flat_map new_ids ts -> exists n, n ∈ ns /\ rtc edge (deps_id n) x;
  vb_shows : Forall shows (flat_map nodes ts);
  vb_from : forall t, t ∈ flat_map nodes ts -> root_of t ∈ ns \/ exists x ds, links g !! x = Some ds /\ root_of t ∈ ds;
}.

Lemma visited_nil V : visited_by [] V V [].
Proof. split; simpl; try set_solver; try constructor. Qed.

Lemma visited_cons n ns V V1 V2 t ts : visited_by [n] V V1 [t] -> visited_by ns V1 V2 ts -> visited_by (n :: ns) V V2 (t :: ts).
Proof.
  intros [R1 S1 D1 F1 N1 C1 H1 W1 O1] [R2 S2 D2 F2 N2 C2 H2 W2 O2]. simpl in *. rewrite app_nil_r in *. injection R1 as R1.
  split; simpl.
  - rewrite <- R2, R1. done.
  - rewrite list_to_set_app_L. set_solver.
  - apply NoDup_app. split_and!; [done| |done]. intros x Hx Hy. apply (F2 x Hy). set_solver.
  - intros x [Hx|Hx]%elem_of_app; [eauto|]. specialize (F2 x Hx). set_solver.
  - intros m [->|Hm]%elem_of_cons; [|eauto]. specialize (N1 n). set_solver.
  - intros x y [Hx|Hx]%elem_of_app He; [|eauto]. specialize (C1 x y Hx He). set_solver.
  - intros x [Hx|Hx]%elem_of_app; [destruct (H1 x Hx)|destruct (H2 x Hx)]; set_solver.
  - rewrite Forall_app. auto.
  - intros u [Hu|Hu]%elem_of_app; [destruct (O1 u Hu)|destruct (O2 u Hu)]; set_solver.
Qed.

Lemma visited_old n V : deps_id n ∈ V -> visited_by [n] V V [Node n false []].
Proof.
  intros Hn. split; simpl; try set_solver; repeat constructor.
Qed.

Lemma visited_new n V V' ts : deps_id n ∉ V -> visited_by (default [] (links g !! deps_id n)) ({[deps_id n]} ∪ V) V' ts ->
  visited_by [n] V V' [Node n true ts].
Proof.
  intros Hn [R S D F N C H1 W O]. split; simpl; rewrite ?app_nil_r.
  - done.
  - set_solver.
  - constructor; [|done]. intros Hx. apply (F _ Hx). set_solver.
  - intros x [->|Hx]%elem_of_cons; [done|]. specialize (F x Hx). set_solver.
  - set_solver.
  - intros x y [->|Hx]%elem_of_cons He; [|eauto]. destruct He as (ds & d & E & Hd & <-). rewrite E in N. by apply N.
  - intros x [->|Hx]%elem_of_cons; [exists n; split; [left|constructor]|].
    destruct (H1 x Hx) as (m & Hm & Hr). exists n. split; [left|].
    destruct (links g !! deps_id n) as [ds|] eqn:E; simpl in Hm; [|by apply elem_of_nil in Hm].
    eapply rtc_l; [|exact Hr]. by exists ds, m.
  - by constructor.
  - intros u [->|Hu]%elem_of_cons; [left; set_solver|]. right.
    destruct (O u Hu) as [Hin|]; [|done]. destruct (links g !! deps_id n) as [ds|] eqn:E; simpl in Hin; [eauto|by apply elem_of_nil in Hin].
Qed.

Lemma walk_all visit ns : (forall n V t V', visit n (V, tt) = Some (t, (V', tt)) -> visited_by [n] V V' [t]) ->
  forall V ts V', traverse_all visit ns (V, tt) = Some (ts, (V', tt)) -> visited_by ns V V' ts.
Proof.
  intros Hv. induction ns as [|n ns IH]; intros V ts V' E; simpl in E.
  - simplify_eq. apply visited_nil.
  - destruct (visit n (V, tt)) as [[t [V1 []]]|] eqn:E1; simpl in E; [|done].
    destruct (traverse_all visit ns (V1, tt)) as [[us [V2 []]]|] eqn:E2; simpl in E; simplify_eq.
    eapply visited_cons; eauto.
Qed.

Lemma walk_node fuel : forall n V t V',
  traverse_node g tree_apply tree_combine fuel n (V, tt) = Some (t, (V', tt)) -> visited_by [n] V V' [t].
Proof.
  induction fuel as [|fuel IH]; intros n V t V' E; [done|]. simpl in E.
  case_bool_decide as Hn.
  - destruct (links g !! deps_id n) as [ds|] eqn:El; simpl in E.
    + destruct (traverse_all _ ds _) as [[ts [V1 []]]|] eqn:E1; simpl in E; simplify_eq/=.
      apply visited_new; [done|]. rewrite El. eapply walk_all; eauto.
    + simplify_eq/=. apply visited_new; [done|]. rewrite El. apply visited_nil.
  - assert (deps_id n ∈ V) as Hin by (destruct (decide (deps_id n ∈ V)); tauto).
    destruct (links g !! deps_id n); simplify_eq/=;
      (replace ({[deps_id n]} ∪ V) with V by set_solver; by apply visited_old).
Qed.

(** ** The walk ends *)

Definition unseen (V : gset K) : nat := size (dom (links g) ∖ V).

Lemma walk_all_total fuel : (forall n V, (unseen V < fuel)%nat -> is_Some (traverse_node g tree_apply tree_combine fuel n (V, tt))) ->
  forall ns V, (unseen V < fuel)%nat -> is_Some (traverse_all (traverse_node g tree_apply tree_combine fuel) ns (V, tt)).
Proof.
  intros Hn. induction ns as [|n ns IH]; intros V HV; simpl; [eauto|].
  destruct (Hn n V HV) as [[t [V1 []]] E]. rewrite E. simpl.
  destruct (IH V1) as [[ts env] ->]; simpl; [|eauto].
  rewrite (vb_set _ _ _ _ (walk_node _ _ _ _ _ E)). unfold unseen in *. eapply Nat.le_lt_trans; [apply subseteq_size|exact HV]. set_solver.
Qed.

Lemma walk_node_total fuel : forall n V, (unseen V < fuel)%nat -> is_Some (traverse_node g tree_apply tree_combine fuel n (V, tt)).
Proof.
  induction fuel as [|fuel IH]; intros n V HV; [lia|]. simpl.
  destruct (links g !! deps_id n) as [ds|] eqn:E; [case_bool_decide as Hn|]; simpl; eauto.
  destruct (walk_all_total fuel IH ds ({[deps_id n]} ∪ V)) as [[ts env] ->]; simpl; [|eauto].
  unfold unseen in *. eapply Nat.lt_le_trans; [|apply (proj2 (Nat.succ_le_mono _ _) HV)].
  apply subset_size. split; [set_solver|]. intros Hs.
  assert (deps_id n ∈ dom (links g)) by (apply elem_of_dom; eauto). specialize (Hs (deps_id n)). set_solver.
Qed.

Lemma forest_visited fuel fs : forest g fuel = Some fs -> exists V, visited_by (roots g) ∅ V fs.
Proof.
  unfold forest, traverse_graph.
  destruct (traverse_all _ (roots g) _) as [[ts [V []]]|] eqn:E; simpl; [|done]. intros [= <-].
  exists V. eapply walk_all, E. apply walk_node.
Qed.

Lemma visited_reachable ns V fs x : visited_by ns ∅ V fs ->
  x ∈ flat_map new_ids fs <-> exists r, r ∈ ns /\ rtc edge (deps_id r) x.
Proof.
  intros [R S D F N C Hr W _]. split; [apply Hr|]. intros (r & Hin & Hp).
  assert (forall y, y ∈ V <-> y ∈ flat_map new_ids fs) as HV by (intros y; rewrite S, elem_of_union, elem_of_list_to_set; set_solver).
  apply HV. specialize (N r Hin). clear Hin. induction Hp as [|y z w Hyz _ IH]; [done|].
  apply IH, (C y); [by apply HV|done].
Qed.

(** The walk ends, with one more than the number of links as fuel or more. Every node that can be
    reached from the roots is new exactly once, and below it are its links in order; below a
    node that was seen before there is nothing. *)
Theorem forest_spec fuel (Hf : (size (links g) < fuel)%nat) :
  exists fs, forest g fuel = Some fs /\ root_of <$> fs = roots g /\ NoDup (flat_map new_ids fs) /\
    (forall x, x ∈ flat_map new_ids fs <-> exists r, r ∈ roots g /\ rtc edge (deps_id r) x) /\
    Forall shows (flat_map nodes fs).
Proof.
  destruct (walk_all_total fuel (walk_node_total fuel) (roots g) ∅) as [[fs env] E].
  { unfold unseen. rewrite difference_empty_L, size_dom. done. }
  exists fs. assert (forest g fuel = Some fs) as Ef by (unfold forest, traverse_graph; by rewrite E).
  destruct (forest_visited _ _ Ef) as [V HV]. split_and!; [done|apply HV..| |apply HV].
  intros x. by eapply visited_reachable.
Qed.

(** ** Which roots are new *)

Lemma traverse_all_app {U S} (visit : T -> S -> option (U * S)) ns ms s :
  traverse_all visit (ns ++ ms) s =
  '(us, s) ← traverse_all visit ns s; '(vs, s) ← traverse_all visit ms s; Some (us ++ vs, s).
Proof.
  revert s. induction ns as [|n ns IH]; intros s; simpl.
  - by destruct (traverse_all visit ms s) as [[? ?]|].
  - destruct (visit n s) as [[u s1]|]; simpl; [|done]. rewrite IH.
    destruct (traverse_all visit ns s1) as [[us s2]|]; simpl; [|done]. by destruct (traverse_all visit ms s2) as [[? ?]|].
Qed.

Lemma node_is_new fuel n V t env : traverse_node g tree_apply tree_combine fuel n (V, tt) = Some (t, env) -> is_new t = bool_decide (deps_id n ∉ V).
Proof.
  destruct fuel as [|fuel]; [done|]. simpl. destruct (match links g !! deps_id n with Some _ => _ | None => _ end) as [[acc env']|]; simpl; [|done].
  by intros [= <- _].
Qed.

Lemma all_new fuel ns : forall V ts V', NoDup (deps_id <$> ns) -> (forall n x, n ∈ ns -> ~ edge x (deps_id n)) -> (forall n, n ∈ ns -> deps_id n ∉ V) ->
  traverse_all (traverse_node g tree_apply tree_combine fuel) ns (V, tt) = Some (ts, (V', tt)) -> Forall (fun t => is_new t = true) ts.
Proof.
  induction ns as [|n ns IH]; intros V ts V' Hnd He HV E; simpl in E; [by simplify_eq|].
  destruct (traverse_node _ _ _ fuel n (V, tt)) as [[t [V1 []]]|] eqn:E1; simpl in E; [|done].
  destruct (traverse_all _ ns (V1, tt)) as [[us [V2 []]]|] eqn:E2; simpl in E; simplify_eq.
  apply NoDup_cons in Hnd as [Hn Hnd]. constructor.
  - rewrite (node_is_new _ _ _ _ _ E1). apply bool_decide_eq_true, HV. left.
  - eapply (IH V1); [done|set_solver| |exact E2]. intros m Hm Hin.
    destruct (walk_node _ _ _ _ _ E1) as [_ Hs _ _ _ _ Hr _ _]. rewrite Hs in Hin.
    apply elem_of_union in Hin as [Hin|Hin%elem_of_list_to_set]; [apply (HV m); set_solver|].
    destruct (Hr _ Hin) as (k & ->%list_elem_of_singleton & Hp). apply rtc_inv_r in Hp as [Heq|(y & _ & Hy)].
    + apply Hn. rewrite Heq. by apply list_elem_of_fmap_2.
    + apply (He m y); [by right|done].
Qed.

Lemma none_new fuel ns : forall V ts V', (forall n, n ∈ ns -> deps_id n ∈ V) ->
  traverse_all (traverse_node g tree_apply tree_combine fuel) ns (V, tt) = Some (ts, (V', tt)) -> Forall (fun t => is_new t = false) ts.
Proof.
  induction ns as [|n ns IH]; intros V ts V' HV E; simpl in E; [by simplify_eq|].
  destruct (traverse_node _ _ _ fuel n (V, tt)) as [[t [V1 []]]|] eqn:E1; simpl in E; [|done].
  destruct (traverse_all _ ns (V1, tt)) as [[us [V2 []]]|] eqn:E2; simpl in E; simplify_eq. constructor.
  - rewrite (node_is_new _ _ _ _ _ E1). apply bool_decide_eq_false. intros Hn. apply Hn, HV. left.
  - eapply (IH V1); [|exact E2]. intros m Hm. rewrite (vb_set _ _ _ _ (walk_node _ _ _ _ _ E1)). set_solver.
Qed.

End walk.

(** ** The graph of a list of jobs *)

Lemma find_id (objs : list T) i : deps_id <$> List.find (fun o => bool_decide (deps_id o = i)) objs =
  if decide (i ∈ deps_id <$> objs) then Some i else None.
Proof.
  induction objs as [|o objs IH]; simpl; [done|].
  case_bool_decide as E; simpl.
  - rewrite decide_True; [by rewrite E|set_solver].
  - rewrite IH. repeat case_decide; set_solver.
Qed.

Lemma convert_ids (objs : list T) ids : deps_id <$> convert_ids_to_arcs objs ids = filter (fun i => i ∈ deps_id <$> objs) ids.
Proof.
  unfold convert_ids_to_arcs. induction ids as [|i ids IH]; simpl; [done|].
  pose proof (find_id objs i) as Hf. rewrite filter_cons.
  destruct (List.find _ objs) as [o|]; destruct (decide (i ∈ deps_id <$> objs)); simplify_eq/=; by rewrite ?IH.
Qed.

Lemma convert_sub (objs : list T) ids : convert_ids_to_arcs objs ids ⊆ objs.
Proof. intros o (i & _ & Hf)%list_elem_of_omap. apply List.find_some in Hf as [Hf _]. by apply list_elem_of_In. Qed.

Lemma direct_dag (ts : list T) rs d :
  (foldl direct_step (rs, d) ts).2 = d ++ ((fun t => (deps_id t, deps t)) <$> filter (fun t => deps t <> []) ts).
Proof.
  revert rs d. induction ts as [|t ts IH]; intros rs d; simpl; [by rewrite app_nil_r|].
  rewrite filter_cons. unfold direct_step at 2. destruct (deps t) eqn:E; simpl.
  - by rewrite IH.
  - rewrite IH. simpl. rewrite E. by rewrite <- (assoc_L (++)).
Qed.

Lemma remove_first_elem y (l : list K) x : x ∈ l -> x = y \/ x ∈ remove_first y l.
Proof. induction l as [|z l IH]; simpl; [set_solver|]. case_decide; set_solver. Qed.

Lemma remove_first_sub y (l : list K) : remove_first y l ⊆ l.
Proof. induction l as [|z l IH]; simpl; [set_solver|]. case_decide; set_solver. Qed.

Lemma removed (ys l : list K) x : x ∈ l -> x ∈ ys \/ x ∈ foldl (fun rs y => remove_first y rs) l ys.
Proof.
  revert l. induction ys as [|y ys IH]; intros l Hx; simpl; [auto|].
  destruct (remove_first_elem y l x Hx) as [->|Hx']; [set_solver|]. destruct (IH _ Hx'); set_solver.
Qed.

Lemma removed_sub (ys l : list K) : foldl (fun rs y => remove_first y rs) l ys ⊆ l.
Proof. revert l. induction ys as [|y ys IH]; intros l; simpl; [done|]. etrans; [apply IH|apply remove_first_sub]. Qed.

Definition waits (ts : list T) x y : Prop := exists t, t ∈ ts /\ deps_id t = x /\ y ∈ deps t.

Lemma direct_roots_sub (ts : list T) rs d : (foldl direct_step (rs, d) ts).1 ⊆ rs ++ (deps_id <$> ts).
Proof.
  revert rs d. induction ts as [|t ts IH]; intros rs d; simpl; [by rewrite app_nil_r|].
  unfold direct_step at 2. destruct (deps t) as [|y ys]; [rewrite (IH rs d); set_solver|].
  etrans; [apply IH|]. simpl. intros x [Hx|Hx]%elem_of_app; [|set_solver].
  apply (removed_sub (y :: ys)) in Hx. case_decide; set_solver.
Qed.

(** Nothing gets lost: what was a root can be reached from one. *)
Lemma direct_reach (ts : list T) rs d x : (forall t, t ∈ ts -> deps_id t ∉ deps t) -> x ∈ rs ->
  exists r, r ∈ (foldl direct_step (rs, d) ts).1 /\ rtc (waits ts) r x.
Proof.
  intros Hself Hx. induction ts as [|t ts IH] using rev_ind; simpl; [eauto using rtc_refl|].
  destruct IH as (r & Hr & Hp); [set_solver|]. rewrite foldl_snoc.
  assert (forall a b, rtc (waits ts) a b -> rtc (waits (ts ++ [t])) a b) as Hmono.
  { intros a b. apply rtc_subrel. intros u v (t' & ? & ?). exists t'. set_solver. }
  destruct (foldl direct_step (rs, d) ts) as [rs' d']. simpl in *. unfold direct_step.
  destruct (deps t) as [|y ys] eqn:E; simpl; [eauto|].
  set (rs1 := if decide (deps_id t ∈ rs') then rs' else rs' ++ [deps_id t]).
  assert (r ∈ rs1) as Hr1 by (unfold rs1; case_decide; set_solver).
  assert (deps_id t ∈ rs1) as Ht1 by (unfold rs1; case_decide; set_solver).
  assert (deps_id t ∉ y :: ys) as Hn by (rewrite <- E; apply Hself; set_solver).
  change (foldl _ (remove_first y rs1) ys) with (foldl (fun rs y => remove_first y rs) rs1 (y :: ys)).
  destruct (removed (y :: ys) rs1 r Hr1) as [Hy|]; [|eauto].
  destruct (removed (y :: ys) rs1 _ Ht1) as [?|]; [done|].
  exists (deps_id t). split; [done|]. eapply rtc_l; [|by apply Hmono]. exists t. rewrite E. set_solver.
Qed.

Lemma filter_fn_all {A} (q : A -> bool) (l : list A) : Forall (fun x : A => q x = true) l -> List.filter q l = l.
Proof. induction 1 as [|x l Hx _ IH]; simpl; [done|]. by rewrite Hx, IH. Qed.

Lemma filter_fn_none {A} (q : A -> bool) (l : list A) : Forall (fun x : A => q x = false) l -> List.filter q l = [].
Proof. induction 1 as [|x l Hx _ IH]; simpl; [done|]. by rewrite Hx, IH. Qed.

Lemma NoDup_filter_fn {A} (q : A -> bool) (l : list A) : NoDup l -> NoDup (List.filter q l).
Proof. rewrite !NoDup_ListNoDup. apply List.NoDup_filter. Qed.

Lemma find_snoc {A} (q : A -> bool) (l : list A) (x : A) : List.find q (l ++ [x]) =
  match List.find q l with Some y => Some y | None => if q x then Some x else None end.
Proof. induction l as [|y l IH]; simpl; [done|]. by destruct (q y). Qed.

Section direct.
Context (ts : list T) (Hids : NoDup (deps_id <$> ts)).

Lemma direct_links x : links (build_direct_dag ts) !! x =
  t ← List.find (fun t => bool_decide (deps_id t = x)) ts; match deps t with [] => None | ys => Some (convert_ids_to_arcs ts ys) end.
Proof.
  unfold build_direct_dag, enrich_dag. pose proof (direct_dag ts (deps_id <$> ts) []) as Hd.
  generalize (convert_ids_to_arcs ts) as f. intros f.
  destruct (foldl direct_step _ ts) as [rs dag]. simpl in *. subst dag. clear rs.
  induction ts as [|t l IH] using rev_ind; [done|]. rewrite fmap_app in Hids. apply NoDup_app in Hids as (Hl & Hnot & _).
  rewrite filter_app, fmap_app, foldl_app.
  assert (List.find (fun t => bool_decide (deps_id t = x)) (l ++ [t]) =
    if bool_decide (deps_id t = x) then Some t else List.find (fun t => bool_decide (deps_id t = x)) l) as ->.
  { rewrite find_snoc. destruct (bool_decide (deps_id t = x)) eqn:E; [|by destruct (List.find _ l)]. apply bool_decide_eq_true in E.
    destruct (List.find _ l) as [o|] eqn:Eo; [|done]. apply List.find_some in Eo as [Ho Eo]. apply bool_decide_eq_true in Eo.
    destruct (Hnot x); [|set_solver]. rewrite <- Eo. apply list_elem_of_fmap_2. by apply list_elem_of_In. }
  rewrite filter_cons, filter_nil. case_decide as Ed; simpl.
  - destruct (decide (deps_id t = x)) as [->|Hx].
    + rewrite lookup_insert_eq, bool_decide_true by done. simpl. destruct (deps t); [exfalso; by apply Ed|done].
    + rewrite lookup_insert_ne, bool_decide_false by done. auto.
  - rewrite IH by done. case_bool_decide as E; [|done]. simpl. destruct (deps t); [|discriminate Ed].
    pose proof (find_id l x) as Hf. rewrite decide_False in Hf; [|set_solver]. by destruct (List.find _ l).
Qed.

Lemma direct_find t : t ∈ ts -> List.find (fun o => bool_decide (deps_id o = deps_id t)) ts = Some t.
Proof.
  intros Ht. destruct (List.find _ ts) as [o|] eqn:E.
  - apply List.find_some in E as [Ho Eo]. apply list_elem_of_In in Ho. apply bool_decide_eq_true in Eo.
    f_equal. apply list_elem_of_lookup in Ht as [i Hi]. apply list_elem_of_lookup in Ho as [k Hk].
    assert (i = k) as ->; [|congruence].
    eapply NoDup_lookup; [exact Hids|..]; rewrite list_lookup_fmap; [by rewrite Hi|rewrite Hk; simpl; by rewrite Eo].
  - apply list_elem_of_In in Ht. apply (List.find_none _ _ E) in Ht. by apply bool_decide_eq_false in Ht.
Qed.

Lemma direct_children t : t ∈ ts ->
  deps_id <$> default [] (links (build_direct_dag ts) !! deps_id t) = filter (fun y => y ∈ deps_id <$> ts) (deps t).
Proof.
  intros Ht. rewrite direct_links, (direct_find _ Ht). simpl. destruct (deps t); [done|]. apply convert_ids.
Qed.

Lemma direct_edge x y : edge (build_direct_dag ts) x y <-> waits ts x y /\ y ∈ deps_id <$> ts.
Proof.
  split.
  - intros (ds & d & E & Hd & <-). rewrite direct_links in E.
    destruct (List.find _ ts) as [t|] eqn:Ef; simpl in E; [|done].
    apply List.find_some in Ef as [Ht Ex]. apply list_elem_of_In in Ht. apply bool_decide_eq_true in Ex.
    destruct (deps t) as [|z zs] eqn:Edeps; [done|]. injection E as <-.
    apply (list_elem_of_fmap_2 deps_id) in Hd. rewrite convert_ids in Hd. apply list_elem_of_filter in Hd as [? ?].
    split; [|done]. exists t. by rewrite Edeps.
  - intros [(t & Ht & <- & Hy) Hin].
    assert (y ∈ deps_id <$> default [] (links (build_direct_dag ts) !! deps_id t)) as Hc
      by (rewrite direct_children by done; by apply list_elem_of_filter).
    destruct (links (build_direct_dag ts) !! deps_id t) as [ds|] eqn:E; simpl in Hc; [|by apply elem_of_nil in Hc].
    apply list_elem_of_fmap in Hc as (d & -> & Hd). by exists ds, d.
Qed.

Lemma direct_size : (size (links (build_direct_dag ts)) <= length ts)%nat.
Proof.
  rewrite <- (length_fmap deps_id), <- (size_list_to_set (C := gset K)) by done. rewrite <- size_dom.
  apply subseteq_size. intros x [ds E]%elem_of_dom. rewrite direct_links in E.
  destruct (List.find _ ts) as [t|] eqn:Ef; [|done]. apply List.find_some in Ef as [Ht Ex].
  apply bool_decide_eq_true in Ex. rewrite <- Ex. apply elem_of_list_to_set, list_elem_of_fmap_2. by apply list_elem_of_In.
Qed.

Definition direct_roots : list K := (foldl direct_step (deps_id <$> ts, []) ts).1.

Lemma direct_roots_in x : x ∈ direct_roots -> x ∈ deps_id <$> ts.
Proof. intros Hx. apply direct_roots_sub in Hx. set_solver. Qed.

Lemma direct_root_ids : deps_id <$> roots (build_direct_dag ts) = direct_roots.
Proof.
  pose proof direct_roots_in as Hin. unfold direct_roots in *. unfold build_direct_dag.
  destruct (foldl direct_step _ ts) as [rs dag]. simpl in *. rewrite convert_ids. clear dag.
  induction rs as [|r rs IH]; [done|]. rewrite filter_cons, decide_True by (apply Hin; set_solver).
  f_equal. apply IH. set_solver.
Qed.

Lemma waits_edge x y : rtc (waits ts) x y -> x ∈ deps_id <$> ts -> y ∈ deps_id <$> ts -> rtc (edge (build_direct_dag ts)) x y.
Proof.
  intros Hp Hx Hy. induction Hp as [|a b c Hab Hbc IH]; [constructor|].
  assert (b ∈ deps_id <$> ts) as Hb.
  { inversion Hbc as [|? d ? (t & Ht & <- & _)]; subst; [done|]. by apply list_elem_of_fmap_2. }
  eapply rtc_l; [apply direct_edge; eauto|eauto].
Qed.


Lemma direct_nodes fuel fs t : forest (build_direct_dag ts) fuel = Some fs -> t ∈ flat_map nodes fs -> root_of t ∈ ts.
Proof.
  intros E Ht. destruct (forest_visited _ _ _ E) as [V HV]. destruct (vb_from _ _ _ _ _ HV t Ht) as [Hr|(x & ds & El & Hd)].
  - revert Hr. unfold build_direct_dag. destruct (foldl direct_step _ ts). apply convert_sub.
  - rewrite direct_links in El. destruct (List.find _ ts) as [o|]; simpl in El; [|done].
    destruct (deps o); simplify_eq. by apply convert_sub in Hd.
Qed.

(** C22: when no job waits for itself, the page shows every job once, even when jobs wait for one
    another in a circle; below it are the jobs it waits for, in their order, and below a job
    that is shown already, nothing. The walk ends with fuel above the number of links, which is
    at most the number of jobs ([direct_size]). *)
Theorem direct_shows_all fuel (Hself : forall t, t ∈ ts -> deps_id t ∉ deps t) (Hf : (size (links (build_direct_dag ts)) < fuel)%nat) :
  exists fs, forest (build_direct_dag ts) fuel = Some fs /\ flat_map new_ids fs ≡ₚ deps_id <$> ts /\
    forall n b below, Node n b below ∈ flat_map nodes fs ->
      n ∈ ts /\ deps_id ∘ root_of <$> below = if b then filter (fun y => y ∈ deps_id <$> ts) (deps n) else [].
Proof.
  destruct (forest_spec (build_direct_dag ts) fuel Hf) as (fs & E & _ & Hnd & Hreach & Hshow).
  exists fs. split_and!; [done| |].
  - apply NoDup_Permutation; [done..|]. intros x. rewrite Hreach. split.
    + intros (r & Hr & Hp). apply (list_elem_of_fmap_2 deps_id) in Hr. rewrite direct_root_ids in Hr.
      apply rtc_inv_r in Hp as [<-|(y & _ & He)]; [by apply direct_roots_in|]. by apply direct_edge in He as [_ ?].
    + intros Hx. destruct (direct_reach ts (deps_id <$> ts) [] x Hself Hx) as (r & Hr & Hp).
      apply waits_edge in Hp; [|by apply direct_roots_in|done].
      fold direct_roots in Hr. rewrite <- direct_root_ids in Hr. apply list_elem_of_fmap in Hr as (t & -> & Ht). eauto.
  - intros n b below Hn. pose proof (direct_nodes _ _ _ E Hn) as Hin. split; [done|].
    rewrite Forall_forall in Hshow. specialize (Hshow _ Hn). simpl in *. rewrite list_fmap_compose, Hshow.
    destruct b; [by apply direct_children|done].
Qed.


(** ** The top of the tree *)

(** The identifiers for which no job of [l] waits. *)
Definition awaited (l : list T) x : bool := existsb (fun t => bool_decide (x ∈ deps t)) l.
Definition sources (l : list T) : list K := List.filter (fun x => negb (awaited l x)) (deps_id <$> ts).

Lemma awaited_spec l x : awaited l x = true <-> exists t, t ∈ l /\ x ∈ deps t.
Proof.
  unfold awaited. rewrite existsb_exists. split; intros (t & Ht & Hx); exists t; (split; [by apply list_elem_of_In|]).
  - by apply bool_decide_eq_true in Hx.
  - by apply bool_decide_eq_true.
Qed.

(** Removing [ys] from the front part, where each occurs at most once, or else from the rest. *)
Lemma removed_filter ys (q : K -> bool) l extra : NoDup l ->
  exists extra', foldl (fun rs y => remove_first y rs) (List.filter q l ++ extra) ys =
    List.filter (fun x => q x && negb (bool_decide (x ∈ ys))) l ++ extra' /\ extra' ⊆ extra.
Proof.
  intros Hl. revert q extra. induction ys as [|y ys IH]; intros q extra; simpl.
  - exists extra. split; [|done]. f_equal. apply List.filter_ext. intros x. by rewrite andb_true_r.
  - assert (exists e, remove_first y (List.filter q l ++ extra) = List.filter (fun x => q x && negb (bool_decide (x = y))) l ++ e /\ e ⊆ extra) as (e & -> & He).
    { clear IH. induction l as [|x l IHl]; simpl.
      - exists (remove_first y extra). split; [done|apply remove_first_sub].
      - apply NoDup_cons in Hl as [Hx Hl]. destruct (IHl Hl) as (e & Ee & He). destruct (q x) eqn:Eq; simpl; [|eauto].
        case_decide as Exy; [subst y|].
        + rewrite bool_decide_true by done. simpl. exists extra. split; [|done]. f_equal.
          assert (forall z, z ∈ l -> z <> x) as Hz by set_solver. clear -Hz.
          induction l as [|z l IH]; simpl; [done|]. rewrite bool_decide_false by (apply Hz; set_solver). rewrite andb_true_r.
          destruct (q z); [f_equal|]; apply IH; set_solver.
        + rewrite bool_decide_false by done. simpl. exists e. by rewrite Ee. }
    destruct (IH (fun x => q x && negb (bool_decide (x = y))) e) as (e' & -> & He'). exists e'. split; [|set_solver].
    f_equal. apply List.filter_ext. intros x. rewrite <- andb_assoc. f_equal. rewrite <- negb_orb. f_equal.
    repeat case_bool_decide; set_solver.
Qed.

Lemma direct_sources l : l ⊆ ts ->
  exists extra, (foldl direct_step (deps_id <$> ts, []) l).1 = sources l ++ extra /\ forall x, x ∈ extra -> awaited l x = true.
Proof.
  induction l as [|t l IH] using rev_ind; intros Hl; simpl.
  - exists []. split; [|set_solver]. unfold sources. rewrite app_nil_r. simpl. clear. induction (deps_id <$> ts) as [|x l IH]; simpl; congruence.
  - destruct IH as (extra & E & Hx); [set_solver|]. rewrite foldl_snoc.
    destruct (foldl direct_step _ l) as [rs d]. simpl in E. subst rs.
    assert (forall x, awaited (l ++ [t]) x = awaited l x || bool_decide (x ∈ deps t)) as Ha.
    { intros x. unfold awaited. rewrite existsb_app. simpl. by rewrite orb_false_r. }
    assert (List.filter (fun x => negb (awaited l x) && negb (bool_decide (x ∈ deps t))) (deps_id <$> ts) = sources (l ++ [t])) as Hs.
    { apply List.filter_ext. intros x. by rewrite Ha, negb_orb. }
    unfold direct_step. destruct (deps t) as [|y ys] eqn:Ed.
    + exists extra. split; [|intros x; rewrite Ha; rewrite orb_true_iff; auto]. simpl. f_equal. rewrite <- Hs.
      apply List.filter_ext. intros x. by rewrite andb_true_r.
    + assert (exists e1, (if decide (deps_id t ∈ sources l ++ extra) then sources l ++ extra else (sources l ++ extra) ++ [deps_id t]) = sources l ++ e1 /\
        forall x, x ∈ e1 -> awaited l x = true) as (e1 & E1 & He1).
      { case_decide as Hin; [eauto|]. exists (extra ++ [deps_id t]). split; [by rewrite <- (assoc_L (++))|].
        intros x [Hxe| ->%list_elem_of_singleton]%elem_of_app; [auto|]. destruct (awaited l (deps_id t)) eqn:Et; [done|]. destruct Hin.
        apply elem_of_app. left. apply elem_of_filter_fn. rewrite Et. split; [|done]. apply list_elem_of_fmap_2. set_solver. }
      cbn [fst]. rewrite E1. unfold sources at 1. destruct (removed_filter (y :: ys) (fun x => negb (awaited l x)) (deps_id <$> ts) e1 Hids) as (e2 & E2 & He2).
      exists e2. rewrite E2, Hs. split; [done|]. intros x Hin. rewrite Ha, He1; auto.
Qed.


Section acyclic.
Context (rank : K -> nat) (Hrank : forall t y, t ∈ ts -> y ∈ deps t -> (rank y < rank (deps_id t))%nat).

Lemma from_source x : x ∈ deps_id <$> ts -> exists s, s ∈ sources ts /\ rtc (waits ts) s x.
Proof.
  remember (max_list (rank <$> (deps_id <$> ts)) - rank x)%nat as k eqn:Ek. revert x Ek.
  induction (lt_wf k) as [k _ IH]. intros x -> Hx. destruct (awaited ts x) eqn:Ea.
  - apply awaited_spec in Ea as (t & Ht & Hy). specialize (Hrank t x Ht Hy).
    assert (deps_id t ∈ deps_id <$> ts) as Hin by by apply list_elem_of_fmap_2.
    pose proof (max_list_elem_of_le _ _ (list_elem_of_fmap_2 rank _ _ Hin)).
    destruct (IH (max_list (rank <$> (deps_id <$> ts)) - rank (deps_id t))%nat ltac:(lia) _ eq_refl Hin) as (s & Hs & Hp).
    exists s. split; [done|]. eapply rtc_r; [exact Hp|]. by exists t.
  - exists x. split; [|constructor]. apply elem_of_filter_fn. by rewrite Ea.
Qed.

(** When the jobs do not wait for one another in a circle, the top of the tree are the jobs no
    other waits for, in their order; the other roots the graph has are not shown again. *)
Theorem direct_top_level fuel (Hf : (size (links (build_direct_dag ts)) < fuel)%nat) :
  exists fs, forest (build_direct_dag ts) fuel = Some fs /\ deps_id ∘ root_of <$> List.filter is_new fs = sources ts.
Proof.
  destruct (forest_spec (build_direct_dag ts) fuel Hf) as (fs & E & _).
  exists fs. split; [done|]. destruct (direct_sources ts ltac:(done)) as (extra & Er & Hextra).
  fold direct_roots in Er. rewrite <- direct_root_ids in Er. apply fmap_app_inv in Er as (a & b & Ea & Eb & Er).
  unfold forest, traverse_graph in E. rewrite Er, traverse_all_app in E.
  destruct (traverse_all _ a _) as [[us [V []]]|] eqn:E1; simpl in E; [|done].
  destruct (traverse_all _ b _) as [[vs [V2 []]]|] eqn:E2; simpl in E; [|done]. injection E as <-.
  pose proof (walk_all _ _ a (walk_node _ fuel) _ _ _ E1) as HV.
  assert (Forall (fun t => is_new t = true) us) as Hus.
  { eapply all_new; [| | |exact E1].
    - rewrite <- Ea. by apply NoDup_filter_fn.
    - intros n x Hn [(t & Ht & _ & Hy) _]%direct_edge. apply (list_elem_of_fmap_2 deps_id) in Hn. rewrite <- Ea in Hn.
      apply elem_of_filter_fn in Hn as [_ Hn]. apply negb_true_iff in Hn. assert (awaited ts (deps_id n) = true) by (apply awaited_spec; eauto). congruence.
    - set_solver. }
  assert (Forall (fun t => is_new t = false) vs) as Hvs.
  { eapply none_new; [|exact E2]. intros n Hn. rewrite (vb_set _ _ _ _ _ HV). apply elem_of_union_r, elem_of_list_to_set.
    apply (visited_reachable _ _ _ _ _ HV). apply (list_elem_of_fmap_2 deps_id) in Hn.
    assert (deps_id n ∈ deps_id <$> ts) as Hin by (apply direct_roots_in; rewrite <- direct_root_ids, Er, fmap_app; set_solver).
    destruct (from_source _ Hin) as (s & Hs & Hp). apply waits_edge in Hp; [|by apply elem_of_filter_fn in Hs as [? _]|done].
    rewrite Ea in Hs. apply list_elem_of_fmap in Hs as (r & -> & Hr). eauto. }
  rewrite List.filter_app, (filter_fn_all _ us Hus), (filter_fn_none _ vs Hvs), app_nil_r, list_fmap_compose, (vb_roots _ _ _ _ _ HV). done.
Qed.

End acyclic.
End direct.

(** ** The inverse graph *)

Lemma inverse_step_roots (S : gset K) dag t : (inverse_step (S, dag) t).1 = match deps t with [] => S | _ => S ∖ {[deps_id t]} end.
Proof.
  unfold inverse_step. destruct (deps t) as [|y ys]; [done|]. simpl. generalize (push_arc y (deps_id t) dag). intros d.
  assert (forall (A : gset K) d, (foldl (fun acc x => (acc.1 ∖ {[deps_id t]}, push_arc x (deps_id t) acc.2)) (A, d) ys).1 ⊆ A /\
    A ∖ {[deps_id t]} ⊆ (foldl (fun acc x => (acc.1 ∖ {[deps_id t]}, push_arc x (deps_id t) acc.2)) (A, d) ys).1) as Hf.
  { induction ys as [|z ys IH]; intros A d'; simpl; [set_solver|]. destruct (IH (A ∖ {[deps_id t]}) (push_arc z (deps_id t) d')). set_solver. }
  destruct (Hf (S ∖ {[deps_id t]}) d). set_solver.
Qed.

(** The roots of the inverse graph are the jobs that wait for nothing: of jobs that wait for one
    another in a circle none is a root. *)
Lemma inverse_roots (ts : list T) (S : gset K) dag x :
  x ∈ (foldl inverse_step (S, dag) ts).1 <-> x ∈ S /\ forall t, t ∈ ts -> deps_id t = x -> deps t = [].
Proof.
  induction ts as [|t ts IH] using rev_ind; [set_solver|]. rewrite foldl_snoc.
  destruct (foldl inverse_step (S, dag) ts) as [S' d]. rewrite inverse_step_roots. simpl in IH.
  destruct (deps t) as [|y ys] eqn:Ed.
  - rewrite IH. split; intros [Hx Ht]; (split; [done|]); intros u Hu; [|apply Ht; set_solver].
    apply elem_of_app in Hu as [Hu| ->%list_elem_of_singleton]; [eauto|done].
  - rewrite elem_of_difference, IH, not_elem_of_singleton. split.
    + intros [[Hx Ht] Hne]. split; [done|]. intros u [Hu| ->%list_elem_of_singleton]%elem_of_app; [eauto|]. intros <-. done.
    + intros [Hx Ht]. split; [split; [done|]; intros u Hu; apply Ht; set_solver|]. intros ->. specialize (Ht t). rewrite Ed in Ht.
      discriminate Ht; [set_solver|done].
Qed.

End dag.

(** * Witnesses *)

Open Scope Z_scope.

Definition sample_job (i : Z) (ys : list Z) : Rich Z unit := MkRich i ys tt.

(** Setting up a server. *)
Definition sample_jobs : list (Rich Z unit) :=
  [sample_job 39 []; sample_job 40 [39]; sample_job 41 [39]; sample_job 42 [39]; sample_job 43 [42]; sample_job 44 [41];
   sample_job 45 [44]; sample_job 46 [39; 43]; sample_job 47 [43; 46]; sample_job 48 [39; 40; 41; 42; 45; 46; 47]].

(** The identifiers as they are shown, each with its depth. *)
Definition outline (ts : list (Rich Z unit)) : option (list (Z * Z)) :=
  (fun r => concat r.1) <$>
    traverse_graph (build_direct_dag ts) (fun n (b : bool) (u : unit) => (if b then [(r_id n, 0)] else [], u))
      (fun p acc u => (p ++ ((fun x => (x.1, x.2 + 1)) <$> concat acc), u)) (S (length ts)) tt.

Example setup_outline : outline sample_jobs =
  Some [(48, 0); (39, 1); (40, 1); (41, 1); (42, 1); (45, 1); (44, 2); (46, 1); (43, 2); (47, 1)].
Proof. vm_compute. reflexivity. Qed.

(** In the direct graph a circle is shown from where it is entered; in the inverse one it is not
    shown; and a job that waits for itself is lost in both. *)
Example circle_outline : outline [sample_job 1 [2]; sample_job 2 [3]; sample_job 3 [2]] = Some [(1, 0); (2, 1); (3, 2)] /\
  roots (build_inverse_dag Z.le [sample_job 1 [2]; sample_job 2 [3]; sample_job 3 [2]]) = [] /\
  outline [sample_job 1 [1]] = Some [].
Proof. vm_compute. repeat split. Qed.

Lemma sample_self : forall t, t ∈ sample_jobs -> deps_id t ∉ deps t.
Proof. apply Forall_forall. unfold sample_jobs. rewrite !Forall_cons. vm_compute deps. cbn. set_solver. Qed.

Lemma direct_shows_all_witness : exists fs, forest (build_direct_dag sample_jobs) 11 = Some fs /\
  flat_map new_ids fs ≡ₚ [39; 40; 41; 42; 43; 44; 45; 46; 47; 48].
Proof.
  destruct (direct_shows_all sample_jobs) with (fuel := 11%nat) as (fs & E & Hp & _).
  - vm_compute. apply (bool_decide_unpack _). vm_compute. reflexivity.
  - apply sample_self.
  - vm_compute. lia.
  - exists fs. split; [exact E|exact Hp].
Defined.

Lemma direct_top_level_witness : exists fs, forest (build_direct_dag sample_jobs) 11 = Some fs /\
  deps_id ∘ root_of <$> List.filter is_new fs = [48].
Proof.
  change [48] with (sources sample_jobs sample_jobs). apply (direct_top_level sample_jobs) with (rank := Z.to_nat).
  - apply (bool_decide_unpack _). vm_compute. reflexivity.
  - intros t y Ht. revert t Ht y. apply (Forall_forall (fun t => forall y, y ∈ deps t -> (Z.to_nat y < Z.to_nat (deps_id t))%nat)). unfold sample_jobs.
    repeat (apply Forall_cons; split); [intros y Hy; cbn in Hy |- *; repeat (apply elem_of_cons in Hy as [->|Hy]; [lia|]); by apply elem_of_nil in Hy..|constructor].
  - vm_compute. lia.
Defined.
