(* ===== verification/CommandModal.v ===== *)
(** * The window of running commands ([iml-gui/crate/src/components/command_modal.rs])

    The window shows commands, their jobs as a tree and the steps of a job; it polls the API until
    all commands have finished. [Model] is its state, [update] its message handler, which
    returns what it orders: messages to itself, requests and a timer. The page is then a state
    with the requests and timers under way, and a turn is an event of the user or the end of
    one of these. The sender of a timer's channel is the number of the timer: it is alive while
    [tree_cancel] holds that number, and a timer whose sender was dropped ends as [Noop].

    The regular expression of [extract_uri_id] is translated to a search; which characters it
    takes for word characters and digits is a parameter, the rest of what it consumes one of.
    JSON values are a parameter as well. Rendering is modelled as far as it decides which jobs
    are shown. *)
From S2P Require Import Prelude RustStd Ordering DependencyTree.
From stdpp Require Import gmap sets fin_sets fin_map_dom list strings sorting.
From Stdlib Require Import ZArith Lia.
Open Scope string_scope.
Open Scope Z_scope.

(** ** Wire types *)

Record Command : Type := MkCommand {
  cmd_cancelled : bool; cmd_complete : bool; cmd_created_at : string; cmd_errored : bool; cmd_id : Z;
  cmd_jobs : list string; cmd_logs : string; cmd_message : string; cmd_resource_uri : string }.

Record JobLock : Type := MkJobLock {
  jl_locked_item_content_type_id : Z; jl_locked_item_id : Z; jl_locked_item_uri : string; jl_resource_uri : string }.

Record AvailableTransition : Type := MkTransition { at_label : string; at_state : string }.

Record Job (V : Type) : Type := MkJob {
  job_available_transitions : list AvailableTransition; job_cancelled : bool; job_class_name : string; job_commands : list string;
  job_created_at : string; job_description : string; job_errored : bool; job_id : Z; job_modified_at : string;
  job_read_locks : list JobLock; job_resource_uri : string; job_state : string; job_step_results : gmap string V;
  job_steps : list string; job_wait_for : list string; job_write_locks : list JobLock }.
Arguments MkJob {V}.
Arguments job_available_transitions {V} _.
Arguments job_description {V} _.
Arguments job_id {V} _.
Arguments job_state {V} _.
Arguments job_steps {V} _.
Arguments job_wait_for {V} _.

Record Step (V : Type) : Type := MkStep {
  step_args : gmap string V; step_backtrace : string; step_class_name : string; step_console : string; step_created_at : string;
  step_description : string; step_id : Z; step_log : string; step_modified_at : string; step_resource_uri : string;
  step_result : option string; step_state : string; step_step_count : Z; step_step_index : Z }.
Arguments MkStep {V}.
Arguments step_id {V} _.
Arguments step_state {V} _.

(** ** The selection *)

Inductive TypedId : Type := TCmd (i : Z) | TJob (i : Z) | TStep (i : Z).

#[export] Instance TypedId_eq_dec : EqDecision TypedId.
Proof. solve_decision. Defined.

#[export] Instance TypedId_countable : Countable TypedId.
Proof.
  apply (inj_countable' (fun t => match t with TCmd i => inl (inl i) | TJob i => inl (inr i) | TStep i => inr i end)
    (fun s => match s with inl (inl i) => TCmd i | inl (inr i) => TJob i | inr i => TStep i end)).
  by intros [].
Defined.

Definition Select : Type := gset TypedId.

(** Insertion at the place that the binary search gives, unless the value is there. *)
Fixpoint insert_in_sorted (ids : list Z) (i : Z) : list Z :=
  match ids with
  | [] => [i]
  | x :: xs => if i <? x then i :: ids else if i =? x then ids else x :: insert_in_sorted xs i
  end.

Definition split_step (acc : list Z * list Z * list Z) (t : TypedId) : list Z * list Z * list Z :=
  let '(cs, js, ss) := acc in
  match t with
  | TCmd c => (insert_in_sorted cs c, js, ss)
  | TJob j => (cs, insert_in_sorted js j, ss)
  | TStep s => (cs, js, insert_in_sorted ss s)
  end.

Definition Select_split (s : Select) : list Z * list Z * list Z := foldl split_step ([], [], []) (elements s).

Definition perform_click (i : TypedId) (s : Select) : bool * Select :=
  if decide (i ∈ s) then (false, s ∖ {[i]}) else (true, {[i]} ∪ s).

(** The rest of [all] from the first occurrence of [it]. *)
Fixpoint seek (it : Z) (all : list Z) : list Z :=
  match all with
  | [] => []
  | x :: xs => if x =? it then all else seek it xs
  end.

Fixpoint is_subset (part all : list Z) : bool :=
  match part with
  | [] => true
  | it :: part => match seek it all with [] => false | all => is_subset part all end
  end.

Section modal.
Context {Value : Type}.

Abbreviation Job0 := (Job (option Value)) (only parsing).
Abbreviation RichCommand := (Rich Z Command) (only parsing).
Abbreviation RichJob := (Rich Z (Job (option Value))) (only parsing).
Abbreviation RichStep := (Rich Z (Step Value)) (only parsing).

(** ** Identifiers in URIs *)

(** One character of [\w] and of [\d]: what is left after it. *)
Context (word digit : string -> option string).

Fixpoint strip (one : string -> option string) (fuel : nat) (s : string) : string :=
  match fuel with
  | O => s
  | S n => match one s with Some s' => strip one n s' | None => s end
  end.

(** One or more characters of a class: what they are, and the rest. *)
Definition several (one : string -> option string) (s : string) : option (string * string) :=
  s' ← one s; let rest := strip one (slen s') s' in Some (stake (slen s - slen rest) s, rest).

Definition after (p s : string) : option string := if starts_with p s then Some (sdrop (slen p) s) else None.

(** [/api/(\w+)/(\d+)/] at the start of [s]. *)
Definition uri_at (s : string) : option (string * string) :=
  s ← after "/api/" s; '(a, s) ← several word s; s ← after "/" s; '(b, s) ← several digit s; _ ← after "/" s; Some (a, b).

Fixpoint uri_in (s : string) : option (string * string) :=
  match uri_at s with
  | Some x => Some x
  | None => match s with EmptyString => None | String _ s => uri_in s end
  end.

Definition extract_uri_id (endpoint_name input : string) : option Z :=
  '(s, t) ← uri_in input;
  if String.eqb s endpoint_name then ok (from_str_radix 10 (- 2 ^ 31) (2 ^ 31 - 1) t) else None.

Definition extract_children_from_cmd (c : Command) : Z * list Z := (cmd_id c, merge_sort Z.le (omap (extract_uri_id "job") (cmd_jobs c))).
Definition extract_children_from_job (j : Job0) : Z * list Z := (job_id j, merge_sort Z.le (omap (extract_uri_id "step") (job_steps j))).
Definition extract_children_from_step (s : Step Value) : Z * list Z := (step_id s, []).

(** What the jobs that a job waits for are sorted by. *)
Definition wait_key (jobs : gmap Z RichJob) (i : Z) : key :=
  match jobs !! i with
  | Some j => KL [KZ (- Z.of_nat (length (r_deps j))); KS (job_description (r_inner j)); KZ (r_id j)]
  | None => KL [KZ 0; KS ""; KZ i]
  end.

Definition wait_le (jobs : gmap Z RichJob) (i k : Z) : Prop := kcmp (wait_key jobs i) (wait_key jobs k) <> Gt.
#[global] Instance wait_le_dec jobs : RelDecision (wait_le jobs).
Proof. intros i k. unfold wait_le. apply _. Defined.

Definition extract_wait_fors_from_job (jobs : gmap Z RichJob) (j : Job0) : Z * list Z :=
  (job_id j, merge_sort (wait_le jobs) (omap (extract_uri_id "job") (job_wait_for j))).

(** ** The state *)

Record Model : Type := MkModel {
  tree_cancel : option nat;
  commands : gmap Z RichCommand; commands_view : list RichCommand;
  jobs : gmap Z RichJob; jobs_graphs : gmap Z (DependencyDAG Z RichJob);
  steps : gmap Z RichStep; steps_view : gmap Z (list RichStep);
  select : Select; cancelling_jobs : gset Z; modal_open : bool }.

Definition Model_default : Model := MkModel None ∅ [] ∅ ∅ ∅ ∅ ∅ ∅ false.

Definition clear (m : Model) : Model := MkModel None ∅ [] ∅ ∅ ∅ ∅ ∅ ∅ (modal_open m).

Definition set_select (s : Select) (m : Model) : Model :=
  MkModel (tree_cancel m) (commands m) (commands_view m) (jobs m) (jobs_graphs m) (steps m) (steps_view m) s (cancelling_jobs m) (modal_open m).
Definition set_open (b : bool) (m : Model) : Model :=
  MkModel (tree_cancel m) (commands m) (commands_view m) (jobs m) (jobs_graphs m) (steps m) (steps_view m) (select m) (cancelling_jobs m) b.
Definition set_tree_cancel (t : option nat) (m : Model) : Model :=
  MkModel t (commands m) (commands_view m) (jobs m) (jobs_graphs m) (steps m) (steps_view m) (select m) (cancelling_jobs m) (modal_open m).
Definition set_cancelling (c : gset Z) (m : Model) : Model :=
  MkModel (tree_cancel m) (commands m) (commands_view m) (jobs m) (jobs_graphs m) (steps m) (steps_view m) (select m) c (modal_open m).
Definition set_collections (cs : gmap Z RichCommand) (js : gmap Z RichJob) (ss : gmap Z RichStep) (m : Model) : Model :=
  MkModel (tree_cancel m) cs (commands_view m) js (jobs_graphs m) ss (steps_view m) (select m) (cancelling_jobs m) (modal_open m).
Definition set_views (cv : list RichCommand) (jg : gmap Z (DependencyDAG Z RichJob)) (sv : gmap Z (list RichStep)) (m : Model) : Model :=
  MkModel (tree_cancel m) (commands m) cv (jobs m) jg (steps m) sv (select m) (cancelling_jobs m) (modal_open m).

(** ** The collections and what is shown of them *)

Definition extract_sorted_keys {A} (m : gmap Z A) : list Z := merge_sort Z.le (elements (dom m)).
Definition convert_to_sorted_vec {A} (m : gmap Z A) : list A := omap (fun k => m !! k) (extract_sorted_keys m).

Definition convert_to_rich_hashmap {A} (ts : list A) (extract : A -> Z * list Z) : gmap Z (Rich Z A) :=
  foldl (fun m t => <[(extract t).1 := Rich_new t extract]> m) ∅ ts.

Definition check_back_consistency (m : Model) : bool * bool * bool :=
  let cmd_ids := extract_sorted_keys (commands m) in
  let job_ids := extract_sorted_keys (jobs m) in
  let step_ids := extract_sorted_keys (steps m) in
  let ok0 := negb (bool_decide (commands m = ∅)) in
  let ok1 := forallb (fun j => existsb (fun c => bool_decide (j ∈ r_deps c)) (map_to_list (commands m)).*2) job_ids in
  let ok2 := forallb (fun s => existsb (fun j => bool_decide (s ∈ r_deps j)) (map_to_list (jobs m)).*2) step_ids in
  let '(cs, js, ss) := Select_split (select m) in
  let ok0 := ok0 && is_subset cs cmd_ids in
  let ok1 := ok1 && is_subset js job_ids in
  let ok2 := ok2 && is_subset ss step_ids in
  if ok0 && ok1 && ok2 then (true, true, true)
  else if ok0 && ok1 then (true, true, false)
  else if ok0 then (true, false, false)
  else (false, false, false).

(** The graph of the jobs of a command, when all of them are there. *)
Definition jobs_graph (js : gmap Z RichJob) (cmd : RichCommand) : option (DependencyDAG Z RichJob) :=
  inner ← mapM (fun j => js !! j) (r_deps cmd);
  Some (build_direct_dag ((fun j => Rich_new (r_inner j) (extract_wait_fors_from_job js)) <$> inner)).

Definition refresh_view (layers : bool * bool * bool) (m : Model) : Model :=
  let '(cmds_ok, jobs_ok, steps_ok) := layers in
  set_views
    (if cmds_ok : bool then convert_to_sorted_vec (commands m) else commands_view m)
    (if jobs_ok : bool then omap (jobs_graph (jobs m)) (commands m) else jobs_graphs m)
    (if steps_ok : bool then omap (fun j => mapM (fun s => steps m !! s) (r_deps j)) (jobs m) else steps_view m) m.

Definition refresh (m : Model) : Model := refresh_view (check_back_consistency m) m.

Definition update_commands (cmds : list Command) (m : Model) : Model :=
  refresh (set_collections (convert_to_rich_hashmap cmds extract_children_from_cmd ∪ commands m) (jobs m) (steps m) m).
Definition update_jobs (js : list Job0) (m : Model) : Model :=
  refresh (set_collections (commands m) (convert_to_rich_hashmap js extract_children_from_job ∪ jobs m) (steps m) m).
Definition update_steps (ss : list (Step Value)) (m : Model) : Model :=
  refresh (set_collections (commands m) (jobs m) (convert_to_rich_hashmap ss extract_children_from_step ∪ steps m) m).

Definition to_load_cmd (m : Model) (i : Z) : bool :=
  match commands m !! i with Some c => negb (cmd_complete (r_inner c)) | None => true end.
Definition to_load_job (m : Model) (i : Z) : bool :=
  match jobs m !! i with Some j => negb (String.eqb (job_state (r_inner j)) "complete") | None => true end.
Definition to_load_step (m : Model) (i : Z) : bool :=
  match steps m !! i with Some s => String.eqb (step_state (r_inner s)) "incomplete" | None => true end.

Definition is_all_commands_finished (cmds : gmap Z RichCommand) : bool :=
  forallb (fun c => cmd_complete (r_inner c)) (map_to_list cmds).*2.

Definition find_cancel_transition (j : RichJob) : option AvailableTransition :=
  List.find (fun t => String.eqb (at_state t) "cancelled") (job_available_transitions (r_inner j)).

(** ** Messages *)

Inductive ModalMsg : Type := KeyDown (code : Z) | Close | Open.

Inductive Input : Type := Commands (cmds : list Command) | Ids (ids : list Z).

Inductive Msg : Type :=
| Modal (msg : ModalMsg)
| FireCommands (cmds : Input)
| FetchTree
| FetchedCommands (r : Result unit (list Command))
| FetchedJobs (r : Result unit (list Job0))
| FetchedSteps (r : Result unit (list (Step Value)))
| Click (i : TypedId)
| CancelJob (i : Z)
| CancelledJob (i : Z) (r : Result unit Job0)
| Noop.

(** What a message orders: a message, a request, or a timer with its number. *)
Inductive Order : Type :=
| SendMsg (msg : Msg)
| FetchCommands (ids : list Z)
| FetchJobs (ids : list Z)
| FetchSteps (ids : list Z)
| Sleep (n : nat)
| PutJob (i : Z) (state : string).

Definition unless_empty (f : list Z -> Order) (ids : list Z) : list Order := match ids with [] => [] | _ => [f ids] end.

Definition schedule_fetch_tree (m : Model) : list Order :=
  let '(cmd_ids, job_ids, _) := Select_split (select m) in
  let load_cmd_ids := List.filter (to_load_cmd m) (extract_sorted_keys (commands m)) in
  let load_job_ids := List.filter (to_load_job m) (omap (fun c => commands m !! c) cmd_ids ≫= r_deps) in
  let load_step_ids := List.filter (to_load_step m) (omap (fun j => jobs m !! j) job_ids ≫= r_deps) in
  unless_empty FetchCommands load_cmd_ids ++ unless_empty FetchJobs load_job_ids ++ unless_empty FetchSteps load_step_ids.

Definition ESC : Z := 27.

Definition modal_update (msg : ModalMsg) (m : Model) : Model * list Order :=
  match msg with
  | KeyDown code => (m, if code =? ESC then [SendMsg (Modal Close)] else [])
  | Close => (set_open false m, [])
  | Open => (set_open true m, [])
  end.

(** [n] is the number of the timer that the message may set. *)
Definition update (n : nat) (msg : Msg) (m : Model) : Model * list Order :=
  match msg with
  | Modal msg =>
      modal_update msg (match msg with Close => clear m | _ => m end)
  | FireCommands cmds =>
      let m := set_open true (set_select ∅ m) in
      match cmds with
      | Commands cmds =>
          let m := match cmds with cmd :: _ => set_select (perform_click (TCmd (cmd_id cmd)) (select m)).2 m | [] => m end in
          let m := update_commands cmds m in
          (m, if is_all_commands_finished (commands m) then [] else [SendMsg FetchTree])
      | Ids ids => (m, [FetchCommands ids])
      end
  | FetchTree =>
      let m := set_tree_cancel None m in
      (m, if is_all_commands_finished (commands m) then [] else schedule_fetch_tree m)
  | FetchedCommands r =>
      let m := match r with Ok objects => update_commands objects m | Err _ => m end in
      if is_all_commands_finished (commands m) then (m, []) else (set_tree_cancel (Some n) m, [Sleep n])
  | FetchedJobs r => (match r with Ok objects => update_jobs objects m | Err _ => m end, [])
  | FetchedSteps r => (match r with Ok objects => update_steps objects m | Err _ => m end, [])
  | Click i =>
      let '(do_fetch, s) := perform_click i (select m) in
      let m := set_select s m in
      (m, if do_fetch : bool then schedule_fetch_tree m else [])
  | CancelJob i =>
      match jobs m !! i with
      | Some j =>
          match find_cancel_transition j with
          | Some ct => if decide (i ∈ cancelling_jobs m) then (m, []) else (set_cancelling ({[i]} ∪ cancelling_jobs m) m, [PutJob i (at_state ct)])
          | None => (m, [])
          end
      | None => (m, [])
      end
  | CancelledJob i _ => (set_cancelling (cancelling_jobs m ∖ {[i]}) m, [])
  | Noop => (m, [])
  end.

(** ** The page *)

(** A request or a timer under way. *)
Inductive Fut : Type :=
| FCommands (ids : list Z)
| FJobs (ids : list Z)
| FSteps (ids : list Z)
| FSleep (n : nat)
| FPut (i : Z) (state : string).

Record Page : Type := MkPage { model : Model; pending : list Fut; next_timer : nat }.

Definition sent (os : list Order) : list Msg := omap (fun o => match o with SendMsg msg => Some msg | _ => None end) os.
Definition started (os : list Order) : list Fut :=
  omap (fun o => match o with
                 | SendMsg _ => None
                 | FetchCommands ids => Some (FCommands ids)
                 | FetchJobs ids => Some (FJobs ids)
                 | FetchSteps ids => Some (FSteps ids)
                 | Sleep n => Some (FSleep n)
                 | PutJob i st => Some (FPut i st)
                 end) os.

Definition handle (msg : Msg) (p : Page) : Page * list Msg :=
  let '(m, os) := update (next_timer p) msg (model p) in
  (MkPage m (pending p ++ started os) (S (next_timer p)), sent os).

(** A message and the messages it sends, which send none themselves ([sent_quiet]). *)
Definition deliver (msg : Msg) (p : Page) : Page :=
  let '(p, msgs) := handle msg p in foldl (fun p msg => (handle msg p).1) p msgs.

(** The answer to a request. *)
Inductive Answer : Type :=
| ACommands (r : Result unit (list Command))
| AJobs (r : Result unit (list Job0))
| ASteps (r : Result unit (list (Step Value)))
| ATimer
| AJob (r : Result unit Job0).

Definition answer (f : Fut) (a : Answer) (m : Model) : option Msg :=
  match f, a with
  | FCommands _, ACommands r => Some (FetchedCommands r)
  | FJobs _, AJobs r => Some (FetchedJobs r)
  | FSteps _, ASteps r => Some (FetchedSteps r)
  | FSleep n, ATimer => Some (if bool_decide (tree_cancel m = Some n) then FetchTree else Noop)
  | FPut i _, AJob r => Some (CancelledJob i r)
  | _, _ => None
  end.

Inductive Event : Type :=
| EFire (cmds : Input)
| EClick (i : TypedId)
| ECancel (i : Z)
| EModal (msg : ModalMsg)
| EAnswer (i : nat) (a : Answer).

Definition page_turn (e : Event) (p : Page) : option Page :=
  match e with
  | EFire cmds => Some (deliver (FireCommands cmds) p)
  | EClick i => Some (deliver (Click i) p)
  | ECancel i => Some (deliver (CancelJob i) p)
  | EModal msg => Some (deliver (Modal msg) p)
  | EAnswer i a =>
      f ← pending p !! i;
      msg ← answer f a (model p);
      Some (deliver msg (MkPage (model p) (delete i (pending p)) (next_timer p)))
  end.

Definition page_start : Page := MkPage Model_default [] 0.

Definition page_run (es : list Event) (p : Page) : option Page := foldl (fun o e => o ≫= page_turn e) (Some p) es.

(** ** The jobs that are shown *)

(** The steps below a job: closed, a spinner, or each step and whether it is open. *)
Inductive StepList : Type := SClosed | SSpinner | SItems (items : list (RichStep * bool)).

(** What is rendered of a job: nothing, its description, or also its cancel button (the label, and
    whether it can be pressed) and its steps; and a job with the jobs below it. *)
Inductive JobNode : Type :=
| JEmpty
| JItem (j : RichJob)
| JItemSteps (j : RichJob) (cancel_btn : option (string * bool)) (steps : StepList)
| JDiv (parent : JobNode) (below : list JobNode).

Record Context : Type := MkContext { ctx_steps_view : gmap Z (list RichStep); ctx_select : Select; ctx_cancelling_jobs : gset Z }.

Definition job_item_cancel_button (j : RichJob) (cancelling : bool) : option (string * bool) :=
  (fun t => (at_label t, negb cancelling)) <$> find_cancel_transition j.

Definition step_list_view (steps : list RichStep) (s : Select) (is_open : bool) : StepList :=
  if negb is_open then SClosed
  else match steps with
       | [] => SSpinner
       | _ => SItems ((fun x => (x, bool_decide (TStep (r_id x) ∈ s))) <$> steps)
       end.

Definition job_item_view (j : RichJob) (is_new : bool) (ctx : Context) : JobNode * Context :=
  (if negb is_new then JEmpty
   else match job_steps (r_inner j) with
        | [] => JItem j
        | _ =>
            JItemSteps j (job_item_cancel_button j (bool_decide (r_id j ∈ ctx_cancelling_jobs ctx)))
              (step_list_view (default [] (ctx_steps_view ctx !! r_id j)) (ctx_select ctx)
                 (bool_decide (TJob (r_id j) ∈ ctx_select ctx)))
        end, ctx).

Definition job_item_combine (parent : JobNode) (acc : list JobNode) (ctx : Context) : JobNode * Context :=
  (match parent with JEmpty => JEmpty | _ => JDiv parent acc end, ctx).

(** [None] is the spinner. *)
Definition job_tree_view (m : Model) (parent_cid : Z) : option (list JobNode) :=
  g ← jobs_graphs m !! parent_cid;
  if DAG_is_empty g then None
  else fst <$> traverse_graph g job_item_view job_item_combine (S (size (links g)))
                 (MkContext (steps_view m) (select m) (cancelling_jobs m)).

End modal.
