(* ===== verification/ModalSpec.v ===== *)
(** * What the window of running commands shows and does

    Answers may come in any order: once all jobs and steps that were received belong to something,
    the window shows what the collections and the selection say, whatever it showed before
    ([views_settle]). The jobs of a command are shown once each ([page_shows_jobs]). While a
    command is running there is a request or a timer under way, and a button that was pressed
    comes back ([page_alive]). Identifiers are read from the URIs they were printed to
    ([uri_round_trip]). The examples at the end are where the window goes wrong. *)
From S2P Require Import Prelude RustStd Ordering DependencyTree CommandModal.
From stdpp Require Import gmap sets fin_sets fin_map_dom list strings pretty sorting.
From Stdlib Require Import ZArith Lia Ascii.
Open Scope string_scope.
Open Scope Z_scope.

(** ** Sorted lists *)

Lemma seek_in it all : StronglySorted Z.le all -> it ∈ all ->
  exists rest, seek it all = it :: rest /\ StronglySorted Z.le (it :: rest) /\ (forall x, x ∈ all -> it <= x -> x ∈ it :: rest) /\ it :: rest ⊆ all.
Proof.
  induction 1 as [|x xs Hxs IH Hx]; intros Hin; [by apply elem_of_nil in Hin|]. simpl.
  destruct (Z.eqb_spec x it) as [->|Hne].
  - exists xs. split_and!; [done|by constructor|done|done].
  - apply elem_of_cons in Hin as [?|Hin]; [congruence|]. destruct (IH Hin) as (rest & E & Hs & Hall & Hsub).
    exists rest. split_and!; [done..| |set_solver]. intros y [->|Hy]%elem_of_cons Hle; [|auto].
    rewrite Forall_forall in Hx. specialize (Hx it Hin). lia.
Qed.

Lemma seek_out it all : it ∉ all -> seek it all = [].
Proof. induction all as [|x xs IH]; intros Hn; simpl; [done|]. destruct (Z.eqb_spec x it); set_solver. Qed.

(** The search for a part in one pass over both lists. *)
Lemma is_subset_spec part all : StronglySorted Z.le part -> StronglySorted Z.le all -> is_subset part all = true <-> part ⊆ all.
Proof.
  intros Hp. revert all. induction Hp as [|it part Hp IH Hit]; intros all Ha; simpl; [set_solver|].
  rewrite Forall_forall in Hit. destruct (decide (it ∈ all)) as [Hin|Hin].
  - destruct (seek_in it all Ha Hin) as (rest & -> & Hs & Hall & Hsub). rewrite (IH _ Hs). split; [set_solver|].
    intros Hsub' x Hx. apply Hall; [set_solver|auto].
  - rewrite (seek_out _ _ Hin). split; [done|set_solver].
Qed.

Lemma insert_sorted ids i : StronglySorted Z.lt ids -> StronglySorted Z.lt (insert_in_sorted ids i) /\ (forall x, x ∈ insert_in_sorted ids i <-> x = i \/ x ∈ ids).
Proof.
  induction 1 as [|x xs Hxs [IHs IHe] Hx]; simpl; [split; [repeat constructor|set_solver]|].
  pose proof (proj1 (Forall_forall _ _) Hx) as Hlt. destruct (Z.ltb_spec i x).
  - split; [|set_solver]. constructor; [by constructor|]. constructor; [done|]. eapply Forall_impl; [exact Hx|]. lia.
  - destruct (Z.eqb_spec i x) as [->|]; [split; [by constructor|set_solver]|].
    split; [|set_solver]. constructor; [done|]. apply Forall_forall. intros y Hy. apply IHe in Hy as [->|Hy]; [lia|auto].
Qed.

Definition split_ok (l : list TypedId) (acc : list Z * list Z * list Z) : Prop :=
  let '(cs, js, ss) := acc in
  (StronglySorted Z.lt cs /\ StronglySorted Z.lt js /\ StronglySorted Z.lt ss) /\
  (forall i, i ∈ cs <-> TCmd i ∈ l) /\ (forall i, i ∈ js <-> TJob i ∈ l) /\ (forall i, i ∈ ss <-> TStep i ∈ l).

Lemma split_list l : split_ok l (foldl split_step ([], [], []) l).
Proof.
  induction l as [|t l IH] using rev_ind; [split_and!; [constructor..|set_solver|set_solver|set_solver]|].
  rewrite foldl_snoc. destruct (foldl split_step _ l) as [[cs js] ss]. destruct IH as ((Hc & Hj & Hs) & Ec & Ej & Es).
  destruct t as [i|i|i]; simpl;
    [destruct (insert_sorted cs i Hc)|destruct (insert_sorted js i Hj)|destruct (insert_sorted ss i Hs)]; set_solver.
Qed.

(** [Select_split] sorts the selection by kind and value, in whatever order the set is read. *)
Lemma split_spec (s : Select) : split_ok (elements s) (Select_split s).
Proof. apply split_list. Qed.

Lemma lt_le_sorted l : StronglySorted Z.lt l -> StronglySorted Z.le l.
Proof. induction 1 as [|x l _ IH Hx]; constructor; [done|]. eapply Forall_impl; [exact Hx|]. simpl. lia. Qed.

Lemma sorted_keys_sorted {A} (m : gmap Z A) : StronglySorted Z.le (extract_sorted_keys m).
Proof. apply (StronglySorted_merge_sort Z.le). Qed.

Lemma elem_of_sorted_keys {A} (m : gmap Z A) i : i ∈ extract_sorted_keys m <-> is_Some (m !! i).
Proof. unfold extract_sorted_keys. rewrite merge_sort_Permutation, elem_of_elements. apply elem_of_dom. Qed.

Section modal.
Context {Value : Type} (word digit : string -> option string).

#[local] Notation Model := (@Model Value).
#[local] Notation update := (update word digit).
#[local] Notation refresh := (refresh word digit).
#[local] Notation jobs_graph := (jobs_graph word digit).
Implicit Types (m : Model).

(** ** The order of answers *)

(** What an answer brings. *)
Inductive Upd : Type := UCommands (l : list Command) | UJobs (l : list (Job (option Value))) | USteps (l : list (Step Value)).

Definition extended (u : Upd) m : Model :=
  match u with
  | UCommands l => set_collections (convert_to_rich_hashmap l (extract_children_from_cmd word digit) ∪ commands m) (jobs m) (steps m) m
  | UJobs l => set_collections (commands m) (convert_to_rich_hashmap l (extract_children_from_job word digit) ∪ jobs m) (steps m) m
  | USteps l => set_collections (commands m) (jobs m) (convert_to_rich_hashmap l extract_children_from_step ∪ steps m) m
  end.

Definition receive (u : Upd) m : Model :=
  match u with
  | UCommands l => update_commands word digit l m
  | UJobs l => update_jobs word digit l m
  | USteps l => update_steps word digit l m
  end.

Lemma receive_extended u m : receive u m = refresh (extended u m).
Proof. by destruct u. Qed.

(** Every job belongs to a command and every step to a job. *)
Definition owned m : Prop :=
  (forall j, is_Some (jobs m !! j) -> exists c r, commands m !! c = Some r /\ j ∈ r_deps r) /\
  (forall s, is_Some (steps m !! s) -> exists j r, jobs m !! j = Some r /\ s ∈ r_deps r).

Definition lvl0 m : bool := negb (bool_decide (commands m = ∅)) && is_subset (Select_split (select m)).1.1 (extract_sorted_keys (commands m)).
Definition lvl1 m : bool := is_subset (Select_split (select m)).1.2 (extract_sorted_keys (jobs m)).
Definition lvl2 m : bool := is_subset (Select_split (select m)).2 (extract_sorted_keys (steps m)).

Lemma owners_all {A B} (m : gmap Z A) (n : gmap Z (Rich Z B)) : (forall j, is_Some (m !! j) -> exists c r, n !! c = Some r /\ j ∈ r_deps r) ->
  forallb (fun j => existsb (fun c => bool_decide (j ∈ r_deps c)) (map_to_list n).*2) (extract_sorted_keys m) = true.
Proof.
  intros Ho. apply forallb_forall. intros j Hj. apply list_elem_of_In, elem_of_sorted_keys in Hj.
  destruct (Ho j Hj) as (c & r & E & Hin). apply existsb_exists. exists r. split; [|by apply bool_decide_eq_true].
  apply list_elem_of_In, list_elem_of_fmap. exists (c, r). split; [done|]. by apply elem_of_map_to_list.
Qed.

Lemma check_owned m : owned m -> check_back_consistency m = (lvl0 m, lvl0 m && lvl1 m, lvl0 m && lvl1 m && lvl2 m).
Proof.
  intros [H1 H2]. unfold check_back_consistency, lvl0, lvl1, lvl2. rewrite (owners_all _ _ H1), (owners_all _ _ H2).
  destruct (Select_split (select m)) as [[cs js] ss]. simpl.
  by destruct (negb _), (is_subset cs _), (is_subset js _), (is_subset ss _).
Qed.

Lemma check_implies m a b c : check_back_consistency m = (a, b, c) ->
  (a = true -> lvl0 m = true) /\ (b = true -> lvl0 m && lvl1 m = true) /\ (c = true -> lvl0 m && lvl1 m && lvl2 m = true).
Proof.
  unfold check_back_consistency, lvl0, lvl1, lvl2. destruct (Select_split (select m)) as [[cs js] ss]. simpl.
  destruct (negb _); destruct (is_subset cs _); destruct (forallb _ _); destruct (is_subset js _); destruct (forallb _ _); destruct (is_subset ss _);
    simpl; intros [= <- <- <-]; auto.
Qed.

(** More has been received, and the selection is the same. *)
Definition grown m m' : Prop :=
  dom (commands m) ⊆ dom (commands m') /\ dom (jobs m) ⊆ dom (jobs m') /\ dom (steps m) ⊆ dom (steps m') /\ select m = select m'.

Lemma subset_grown {A B} (l : list Z) (m : gmap Z A) (m' : gmap Z B) : StronglySorted Z.lt l -> dom m ⊆ dom m' ->
  is_subset l (extract_sorted_keys m) = true -> is_subset l (extract_sorted_keys m') = true.
Proof.
  intros Hl%lt_le_sorted Hd. rewrite !is_subset_spec by (done || apply sorted_keys_sorted). intros Hsub x Hx.
  apply Hsub, elem_of_sorted_keys, elem_of_dom, Hd, elem_of_dom in Hx. by apply elem_of_sorted_keys.
Qed.

Lemma lvl_grown m m' : grown m m' -> (lvl0 m = true -> lvl0 m' = true) /\ (lvl1 m = true -> lvl1 m' = true) /\ (lvl2 m = true -> lvl2 m' = true).
Proof.
  intros (Hc & Hj & Hs & Hsel). unfold lvl0, lvl1, lvl2. rewrite Hsel. pose proof (split_spec (select m')) as Hp.
  destruct (Select_split (select m')) as [[cs js] ss]. destruct Hp as ((Sc & Sj & Ss) & _). simpl.
  split_and!; [|by apply subset_grown..]. rewrite !andb_true_iff. intros [Hne Hsub]. split; [|by eapply subset_grown].
  apply negb_true_iff, bool_decide_eq_false. apply negb_true_iff, bool_decide_eq_false in Hne. intros E. apply Hne.
  apply dom_empty_inv_L. rewrite E, dom_empty_L in Hc. set_solver.
Qed.

Lemma grown_trans m1 m2 m3 : grown m1 m2 -> grown m2 m3 -> grown m1 m3.
Proof. unfold grown. intros (? & ? & ? & ?) (? & ? & ? & ?). split_and!; [set_solver..|congruence]. Qed.

Lemma extended_grown u m : grown m (extended u m).
Proof. unfold grown. destruct u; simpl; split_and!; rewrite ?dom_union_L; set_solver. Qed.

Lemma refresh_collections m : commands (refresh m) = commands m /\ jobs (refresh m) = jobs m /\ steps (refresh m) = steps m /\ select (refresh m) = select m.
Proof. unfold CommandModal.refresh. by destruct (check_back_consistency m) as [[[] []] []]. Qed.

Lemma grown_refresh m m' : grown (refresh m) m' -> grown m m'.
Proof. unfold grown. by destruct (refresh_collections m) as (-> & -> & -> & ->). Qed.

Definition received (s : Select) (us : list Upd) : Model := foldl (fun m u => receive u m) (set_select s Model_default) us.

(** A view that cannot be right at the end was never made. *)
Lemma unsettled s us m' : grown (received s us) m' ->
  (lvl0 m' = false -> commands_view (received s us) = []) /\
  (lvl0 m' && lvl1 m' = false -> jobs_graphs (received s us) = ∅) /\
  (lvl0 m' && lvl1 m' && lvl2 m' = false -> steps_view (received s us) = ∅).
Proof.
  induction us as [|u us IH] using rev_ind; [done|]. unfold received in *. rewrite foldl_snoc, receive_extended.
  set (m := foldl _ _ us) in *. intros Hg%grown_refresh. pose proof (grown_trans _ _ _ (extended_grown u m) Hg) as Hg'.
  destruct (IH Hg') as (I0 & I1 & I2). pose proof (lvl_grown _ _ Hg) as (G0 & G1 & G2).
  assert (commands_view (extended u m) = commands_view m /\ jobs_graphs (extended u m) = jobs_graphs m /\ steps_view (extended u m) = steps_view m)
    as (V0 & V1 & V2) by by destruct u.
  unfold CommandModal.refresh. destruct (check_back_consistency (extended u m)) as [[a b] c] eqn:Ec.
  pose proof (check_implies _ _ _ _ Ec) as (C0 & C1 & C2). rewrite !andb_true_iff in C1, C2. simpl. rewrite V0, V1, V2. split_and!.
  - intros L. destruct a; [|auto]. specialize (G0 (C0 eq_refl)). congruence.
  - intros L. destruct b; [|auto]. destruct (C1 eq_refl) as [D0 D1]. by rewrite (G0 D0), (G1 D1) in L.
  - intros L. destruct c; [|auto]. destruct (C2 eq_refl) as [[D0 D1]%andb_true_iff D2]. by rewrite (G0 D0), (G1 D1), (G2 D2) in L.
Qed.

(** C23: answers can come in any order and number: when every job that was received belongs to a
    command and every step to a job, the window shows what it would show if it were made from
    the collections and the selection at once. *)
Theorem views_settle s us (Ho : owned (received s us)) :
  received s us = refresh (set_views [] ∅ ∅ (received s us)).
Proof.
  assert (check_back_consistency (set_views [] ∅ ∅ (received s us)) = check_back_consistency (received s us)) as Ec by done.
  unfold CommandModal.refresh. rewrite Ec. destruct (decide (us = [])) as [->|Hne].
  { unfold received. simpl. unfold check_back_consistency. simpl. by destruct (Select_split s) as [[cs js] ss]. }
  destruct (exists_last Hne) as (us' & u & ->). revert Ho Ec. unfold received. rewrite foldl_snoc, receive_extended.
  fold (received s us'). set (m := extended u (received s us')). intros Ho _.
  destruct (refresh_collections m) as (Rc & Rj & Rs & Rsel).
  assert (owned m) as Hm by (unfold owned in *; by rewrite Rc, Rj, Rs in Ho).
  destruct (unsettled s us' m (extended_grown _ _)) as (U0 & U1 & U2).
  assert (check_back_consistency (refresh m) = check_back_consistency m) as ->.
  { unfold check_back_consistency. by rewrite Rc, Rj, Rs, Rsel. }
  unfold CommandModal.refresh. rewrite (check_owned m Hm). simpl. unfold set_views. simpl.
  assert (commands_view m = commands_view (received s us') /\ jobs_graphs m = jobs_graphs (received s us') /\ steps_view m = steps_view (received s us'))
    as (-> & -> & ->) by by destruct u.
  f_equal; [destruct (lvl0 m) eqn:?|destruct (lvl0 m && lvl1 m) eqn:?|destruct (lvl0 m && lvl1 m && lvl2 m) eqn:?]; auto.
Qed.

(** ** The tree of jobs *)

Fixpoint shown (n : @JobNode Value) : list Z :=
  match n with
  | JEmpty => []
  | JItem j | JItemSteps j _ _ => [r_id j]
  | JDiv parent below => shown parent ++ flat_map shown below
  end.

Lemma map_state_reader {A B S} (f : A -> S -> B * S) (s : S) l : Forall (fun x => (f x s).2 = s) l -> map_state f l s = ((fun x => (f x s).1) <$> l, s).
Proof.
  induction 1 as [|x l Hx _ IH]; simpl; [done|]. destruct (f x s) as [y s'] eqn:E. simpl in Hx. subst s'. by rewrite IH.
Qed.

#[local] Notation view := (render job_item_view job_item_combine).

Lemma view_reads t (ctx : @Context Value) : (view t ctx).2 = ctx.
Proof. induction t as [n b below IH] using Tree_nested_ind. simpl. by rewrite (map_state_reader _ _ _ IH). Qed.

Lemma views_of ts (ctx : @Context Value) : map_state view ts ctx = ((fun t => (view t ctx).1) <$> ts, ctx).
Proof. apply map_state_reader, Forall_forall. intros t _. apply view_reads. Qed.

Lemma shown_render g t ctx : Forall (shows g) (nodes t) -> shown (view t ctx).1 = new_ids t.
Proof.
  induction t as [n b below IH] using Tree_nested_ind. intros [Hs Hb]%Forall_cons. simpl in Hs |- *. rewrite views_of. destruct b; simpl.
  - assert (flat_map shown ((fun t => (view t ctx).1) <$> below) = flat_map new_ids below) as <-; [|by destruct (job_steps (r_inner n))].
    clear Hs. induction IH as [|t below Ht _ IHb]; simpl in *; [done|]. apply Forall_app in Hb as [Hb1 Hb2].
    rewrite Ht by done. f_equal. exact (IHb Hb2).
  - by apply fmap_nil_inv in Hs as ->.
Qed.

Definition ids_ok (js : gmap Z (Rich Z (Job (option Value)))) : Prop := forall i r, js !! i = Some r -> r_id r = i /\ job_id (r_inner r) = i.

(** Once the jobs of a command are there, the window shows each of them exactly once,
    whatever they wait for, as long as none waits for itself. *)
Theorem page_shows_jobs m c (js : gmap Z (Rich Z (Job (option Value)))) cmd (Hids : ids_ok js) (Hall : forall i, i ∈ r_deps cmd -> is_Some (js !! i))
    (Hg : jobs_graphs m !! c = jobs_graph js cmd) (Hne : r_deps cmd <> []) (Hnd : NoDup (r_deps cmd))
    (Hself : forall i j, i ∈ r_deps cmd -> js !! i = Some j -> i ∉ omap (extract_uri_id word digit "job") (job_wait_for (r_inner j))) :
  exists ns, job_tree_view m c = Some ns /\ flat_map shown ns ≡ₚ r_deps cmd.
Proof.
  destruct (mapM_is_Some_2 (fun j => js !! j) (r_deps cmd)) as [inner Ei]. { by apply Forall_forall. }
  unfold CommandModal.jobs_graph in Hg. rewrite Ei in Hg. simpl in Hg. apply mapM_Some in Ei.
  set (f := fun j : Rich Z (Job (option Value)) => Rich_new (r_inner j) (extract_wait_fors_from_job word digit js)) in Hg.
  assert (deps_id <$> (f <$> inner) = r_deps cmd) as Hdeps.
  { rewrite <- list_fmap_compose. clear -Hids Ei. induction Ei as [|i j l k Hij _ IH]; simpl; [done|]. f_equal; [|exact IH]. by destruct (Hids _ _ Hij). }
  assert (forall t, t ∈ f <$> inner -> deps_id t ∉ deps t) as Hs.
  { intros t (j & -> & Hj)%list_elem_of_fmap. destruct (elem_of_Forall2_r _ _ _ _ Ei Hj) as (i & Hi & Eij).
    destruct (Hids _ _ Eij) as [_ Hjob]. simpl. rewrite Hjob, merge_sort_Permutation. eauto. }
  assert (NoDup (deps_id <$> (f <$> inner))) as Hn by by rewrite Hdeps.
  destruct (direct_shows_all (f <$> inner) Hn (S (size (links (build_direct_dag (f <$> inner))))) Hs ltac:(lia)) as (fs & Ef & Hp & _).
  destruct (forest_visited _ _ _ Ef) as [V HV]. pose proof (vb_shows _ _ _ _ _ HV) as Hshow. pose proof (vb_roots _ _ _ _ _ HV) as Hroots.
  rewrite Hdeps in Hp. unfold job_tree_view. rewrite Hg. simpl. destruct (DAG_is_empty _) eqn:Ee.
  { exfalso. unfold DAG_is_empty in Ee. rewrite <- Hroots in Ee. destruct fs; [|done]. simpl in Hp. by apply Permutation_nil_l in Hp. }
  rewrite traverse_renders, Ef. simpl. eexists. split; [done|]. rewrite views_of. simpl. rewrite <- Hp. clear -Hshow.
  induction fs as [|t fs IH]; [done|]. simpl in *. apply Forall_app in Hshow as [H1 H2]. rewrite (shown_render _ _ _ H1). f_equiv. exact (IH H2).
Qed.

(** ** Polling *)

#[local] Notation handle := (handle word digit).
#[local] Notation deliver := (deliver word digit).
#[local] Notation page_turn := (page_turn word digit).
#[local] Notation page_run := (page_run word digit).
#[local] Notation Page := (@Page Value).
#[local] Notation Msg := (@Msg Value).
Implicit Types (p : Page) (msg : Msg).

(** While a command is running, a timer that has not been given up or a request for commands is
    under way. *)
Definition polled p : Prop :=
  is_all_commands_finished (commands (model p)) = false ->
  (exists n, tree_cancel (model p) = Some n /\ FSleep n ∈ pending p) \/ (exists ids, FCommands ids ∈ pending p).

(** A job whose button was pressed has a request under way. *)
Definition cancels p : Prop := forall i, i ∈ cancelling_jobs (model p) -> exists st, FPut i st ∈ pending p.

Lemma schedule_quiet m : sent (schedule_fetch_tree m) = [].
Proof. unfold schedule_fetch_tree. destruct (Select_split _) as [[cs js] ss]. unfold unless_empty. by repeat case_match. Qed.

(** The messages that a message sends send none. *)
Lemma sent_quiet n msg m msg' n' m' : msg' ∈ sent (update n msg m).2 -> sent (update n' msg' m').2 = [].
Proof.
  assert (forall m0 : Model, sent (schedule_fetch_tree m0) = []) as Hs by apply schedule_quiet.
  intros Hin. assert (msg' = FetchTree \/ msg' = Modal Close) as [->| ->].
  { destruct msg as [[code| |]|[cmds|ids]| |r|r|r|i|i|i r|]; simpl in Hin;
      repeat (case_match || destruct (perform_click _ _) as [[] ?]); simpl in Hin; rewrite ?Hs in Hin; set_solver. }
  - simpl. case_match; [done|apply Hs].
  - done.
Qed.

Lemma refresh_rest m : tree_cancel (refresh m) = tree_cancel m /\ cancelling_jobs (refresh m) = cancelling_jobs m.
Proof. unfold CommandModal.refresh. by destruct (check_back_consistency m) as [[[] []] []]. Qed.

Lemma unfinished_fetched m : is_all_commands_finished (commands m) = false -> exists ids, FCommands ids ∈ started (schedule_fetch_tree m).
Proof.
  intros Hf. unfold schedule_fetch_tree. destruct (Select_split _) as [[cs js] ss].
  assert (exists i, i ∈ List.filter (to_load_cmd m) (extract_sorted_keys (commands m))) as [i Hi].
  { unfold is_all_commands_finished in Hf. apply not_true_iff_false in Hf.
    destruct (decide (Exists (fun c => cmd_complete (r_inner c) = false) (map_to_list (commands m)).*2)) as [He|He].
    - apply Exists_exists in He as (c & (kc & -> & Hk%elem_of_map_to_list')%list_elem_of_fmap & Hc). exists kc.1.
      apply elem_of_filter_fn. split; [apply elem_of_sorted_keys; eauto|]. unfold to_load_cmd. by rewrite Hk, Hc.
    - destruct Hf. apply forallb_forall. intros c Hc. destruct (cmd_complete (r_inner c)) eqn:E; [done|].
      destruct He. apply Exists_exists. exists c. split; [by apply list_elem_of_In|done]. }
  destruct (List.filter _ _) as [|k ks] eqn:E; [by apply elem_of_nil in Hi|]. exists (k :: ks). simpl. set_solver.
Qed.

(** What a message leaves as it was. *)
Lemma handle_pending msg p : pending p ⊆ pending (handle msg p).1.
Proof. unfold CommandModal.handle. destruct (update _ msg _) as [m os]. simpl. set_solver. Qed.

Lemma handle_cancels msg p : cancels p -> cancels (handle msg p).1.
Proof.
  unfold CommandModal.handle. destruct (update (next_timer p) msg (model p)) as [m os] eqn:E. intros Hc i Hi. simpl in *.
  assert (i ∈ cancelling_jobs (model p) \/ exists st, FPut i st ∈ started os) as [Hin|[st Hin]].
  { destruct msg as [[code| |]|[cmds|ids]| |[l|[]]|[l|[]]|[l|[]]|k|k|k r|]; simpl in E;
      repeat (case_match || destruct (perform_click _ _) as [[] ?]); simplify_eq/=; try (left; done); try set_solver;
      unfold update_commands, update_jobs, update_steps in Hi; rewrite ?(proj2 (refresh_rest _)) in Hi; try (left; done). }
  - destruct (Hc i Hin) as [st Hst]. exists st. set_solver.
  - exists st. set_solver.
Qed.

Lemma handle_polled msg p : msg = FetchTree \/ (exists r, msg = FetchedCommands r) \/ polled p ->
  polled (handle msg p).1 \/ (exists cmds, msg = FireCommands cmds) /\ (handle msg p).2 = [FetchTree].
Proof.
  intros Hp.
  assert (forall m os, update (next_timer p) msg (model p) = (m, os) -> commands m = commands (model p) -> tree_cancel m = tree_cancel (model p) ->
    polled p -> polled (handle msg p).1) as Hsame.
  { unfold CommandModal.handle. intros m os -> Ec Et Hpol. unfold polled in *. simpl. rewrite Ec, Et.
    intros Hu. destruct (Hpol Hu) as [(n & ? & ?)|(ids & ?)]; [left|right]; set_solver. }
  destruct msg as [[code| |]|[cmds|ids]| |r|r|r|i|i|i r|]; simpl in *.
  - left. eapply Hsame; [done..|naive_solver].
  - left. done.
  - left. eapply Hsame; [done..|naive_solver].
  - unfold CommandModal.handle. simpl. destruct (is_all_commands_finished _) eqn:E; [left|right; eauto]. intros Hu. simpl in Hu. by rewrite E in Hu.
  - left. eapply Hsame; [done..|naive_solver].
  - left. unfold CommandModal.handle. simpl. intros Hu. simpl in *. rewrite Hu. right.
    destruct (unfinished_fetched (set_tree_cancel None (model p)) Hu) as [ids Hin]. exists ids. set_solver.
  - left. unfold CommandModal.handle. simpl. case_match eqn:E; intros Hu; simpl in *; [by rewrite E in Hu|].
    left. exists (next_timer p). split; [done|set_solver].
  - left. destruct r as [l|[]]; (eapply Hsame; [done|..|naive_solver]); simpl; try done; unfold update_jobs;
      [by rewrite (proj1 (refresh_collections _))|by rewrite (proj1 (refresh_rest _))].
  - left. destruct r as [l|[]]; (eapply Hsame; [done|..|naive_solver]); simpl; try done; unfold update_steps;
      [by rewrite (proj1 (refresh_collections _))|by rewrite (proj1 (refresh_rest _))].
  - left. destruct (perform_click i (select (model p))) as [b s] eqn:Eb. eapply Hsame; [done..|naive_solver].
  - left. destruct (jobs (model p) !! i) as [j|] eqn:Ej; [destruct (find_cancel_transition j) eqn:Et; [case_decide as Ed|]|];
      (eapply Hsame; [by rewrite ?Ej, ?Et, ?decide_True, ?decide_False by done| | |naive_solver]; done).
  - left. eapply Hsame; [done..|naive_solver].
  - left. eapply Hsame; [done..|naive_solver].
Qed.

Lemma handle_sent msg p : (handle msg p).2 = [] \/ (handle msg p).2 = [FetchTree] \/ (handle msg p).2 = [Modal Close].
Proof.
  assert (forall m0 : Model, sent (schedule_fetch_tree m0) = []) as Hs by apply schedule_quiet.
  unfold CommandModal.handle. destruct msg as [[code| |]|[cmds|ids]| |r|r|r|i|i|i r|]; simpl;
    repeat (case_match || destruct (perform_click _ _) as [[] ?]); simplify_eq/=; rewrite ?Hs; auto.
Qed.

Lemma deliver_ok msg p : cancels p -> msg = FetchTree \/ (exists r, msg = FetchedCommands r) \/ polled p ->
  polled (deliver msg p) /\ cancels (deliver msg p).
Proof.
  intros Hc Hp. unfold CommandModal.deliver.
  pose proof (handle_polled msg p Hp) as Hp1. pose proof (handle_cancels msg p Hc) as Hc1. pose proof (handle_sent msg p) as Hs.
  destruct (handle msg p) as [p1 msgs] eqn:E. simpl in *.
  assert (forall q, polled (handle FetchTree q).1) as Ht by (intros q; destruct (handle_polled FetchTree q) as [|[[? ?] _]]; auto; done).
  destruct Hs as [->|[->| ->]]; cbn [foldl].
  - split; [|done]. by destruct Hp1 as [|[_ ?]].
  - split; [apply Ht|by apply handle_cancels].
  - split; [done|by apply handle_cancels].
Qed.

Lemma other_stays (l : list Fut) i f g : l !! i = Some f -> g ∈ l -> g <> f -> g ∈ delete i l.
Proof.
  intros Hi Hg Hne. apply list_elem_of_lookup in Hg as [k Hk]. rewrite <- (take_drop_middle l i f Hi) in Hk.
  rewrite delete_take_drop. apply list_elem_of_lookup_2 in Hk. set_solver.
Qed.

(** C24: whatever the user does and whatever the answers are, while a command is running the window
    goes on asking: a request for commands is under way, or a timer that will ask for them. And
    a job whose button was pressed has its request under way, so that the button comes back. *)
Theorem page_alive es p (Hrun : page_run es page_start = Some p) : polled p /\ cancels p.
Proof.
  revert p Hrun. induction es as [|e es IH] using rev_ind; intros p Hrun.
  - injection Hrun as <-. split; [done|]. intros i Hi. by apply elem_of_empty in Hi.
  - unfold CommandModal.page_run in *. rewrite foldl_snoc in Hrun. destruct (foldl _ _ es) as [q|]; [|done]. simpl in Hrun.
    destruct (IH q eq_refl) as [Hp Hc]. destruct e as [cmds|i|i|msg|i a]; simpl in Hrun; try (injection Hrun as <-; apply deliver_ok; auto; done).
    destruct (pending q !! i) as [f|] eqn:Ei; simpl in Hrun; [|done]. destruct (answer f a (model q)) as [msg|] eqn:Ea; simpl in Hrun; [|done].
    injection Hrun as <-. pose proof (fun g => other_stays _ _ _ g Ei) as Hst.
    assert ((forall k st, f <> FPut k st) -> cancels (MkPage (model q) (delete i (pending q)) (next_timer q))) as Hc'.
    { intros Hf k Hk. destruct (Hc k Hk) as [st Hin]. exists st. apply Hst; [done|]. intros <-. by eapply Hf. }
    assert ((forall n, f = FSleep n -> tree_cancel (model q) <> Some n) -> (forall ids, f <> FCommands ids) ->
      polled (MkPage (model q) (delete i (pending q)) (next_timer q))) as Hp'.
    { intros Hf1 Hf2 Hu. destruct (Hp Hu) as [(n & Hn & Hin)|(ids & Hin)]; [left|right].
      - exists n. split; [done|]. apply Hst; [done|]. intros <-. by eapply Hf1.
      - exists ids. apply Hst; [done|]. intros <-. by eapply Hf2. }
    destruct f as [ids|ids|ids|n|k st], a as [r|r|r| |r]; simplify_eq/=.
    + apply deliver_ok; [by apply Hc'|eauto].
    + apply deliver_ok; [by apply Hc'|right; right; by apply Hp'].
    + apply deliver_ok; [by apply Hc'|right; right; by apply Hp'].
    + apply deliver_ok; [by apply Hc'|]. case_bool_decide as E; [by left|]. right; right. apply Hp'; [by intros n' [= ->]|done].
    + unfold CommandModal.deliver, CommandModal.handle. simpl. split.
      * intros Hu. rewrite app_nil_r. apply Hp'; done.
      * intros k' Hk'. rewrite app_nil_r. simpl in Hk'. apply elem_of_difference in Hk' as [Hk' Hne]. destruct (Hc k' Hk') as [st' Hin].
        exists st'. apply Hst; [done|]. intros [= -> _]. set_solver.
Qed.

(** *** What is asked for *)

(** The requests of a poll are for the commands that are running, the jobs of the selected commands
    and the steps of the selected jobs that are not known to have ended. *)
Lemma schedule_spec m :
  (forall ids, FetchCommands ids ∈ schedule_fetch_tree m -> forall i, i ∈ ids <-> exists c, commands m !! i = Some c /\ cmd_complete (r_inner c) = false) /\
  (forall ids, FetchJobs ids ∈ schedule_fetch_tree m -> forall j, j ∈ ids <->
     (exists c r, TCmd c ∈ select m /\ commands m !! c = Some r /\ j ∈ r_deps r) /\ to_load_job m j = true) /\
  (forall ids, FetchSteps ids ∈ schedule_fetch_tree m -> forall s, s ∈ ids <->
     (exists j r, TJob j ∈ select m /\ jobs m !! j = Some r /\ s ∈ r_deps r) /\ to_load_step m s = true).
Proof.
  unfold schedule_fetch_tree. pose proof (split_spec (select m)) as Hp. destruct (Select_split _) as [[cs js] ss].
  destruct Hp as (_ & Hc & Hj & _). setoid_rewrite elem_of_elements in Hc. setoid_rewrite elem_of_elements in Hj.
  assert (forall (f : list Z -> @Order Value) l o, o ∈ unless_empty f l -> o = f l) as Hu by (intros f [|x l] o; simpl; set_solver).
  split_and!; intros ids Hin; rewrite !elem_of_app in Hin; destruct Hin as [Hin|[Hin|Hin]]; apply Hu in Hin; simplify_eq; intros i; rewrite elem_of_filter_fn.
  - rewrite elem_of_sorted_keys. unfold to_load_cmd. split.
    + intros [[c ->] Hl]. apply negb_true_iff in Hl. eauto.
    + intros (c & -> & Hl). rewrite Hl. eauto.
  - f_equiv. rewrite list_elem_of_bind. setoid_rewrite list_elem_of_omap. naive_solver.
  - f_equiv. rewrite list_elem_of_bind. setoid_rewrite list_elem_of_omap. naive_solver.
Qed.

End modal.

(** ** URIs *)

Fixpoint all_chars (P : ascii -> Prop) (s : string) : Prop :=
  match s with EmptyString => True | String a s => P a /\ all_chars P s end.

Lemma all_chars_pretty (P : ascii -> Prop) n s : (forall d, (d < 10)%N -> P (pretty_N_char d)) -> all_chars P s -> all_chars P (pretty_N_go n s).
Proof.
  intros HP. revert s. induction (N.lt_wf_0 n) as [n _ IH]; intros s Hs.
  assert (n = 0 \/ 0 < n)%N as [->|Hn] by lia; [by rewrite pretty_N_go_0|].
  rewrite pretty_N_go_step by done. apply IH; [by apply N.div_lt|]. split; [|done]. apply HP. by apply N.mod_lt.
Qed.

Definition is_digit (a : ascii) : Prop := in_range 48 57 a = true.
Definition is_word (a : ascii) : Prop := is_digit a \/ in_range 65 90 a = true \/ in_range 97 122 a = true \/ a = "_"%char.

Lemma fmt_digits z : 0 <= z -> all_chars is_digit (fmt_int z) /\ fmt_int z <> "".
Proof.
  assert (forall d, (d < 10)%N -> is_digit (pretty_N_char d)) as Hd.
  { intros d H. do 10 (destruct d as [|d] using N.peano_ind; [done|clear IHd]). lia. }
  intros Hz. unfold fmt_int. destruct z as [|p|p]; cbn [pretty pretty_Z]; [by split| |lia]. rewrite pretty_pos. split.
  - by apply all_chars_pretty.
  - destruct (pretty_N_go_head (Npos p) "") as (d & r & _ & ->); done.
Qed.

Section uris.
Context (word digit : string -> option string).

(** What the code relies on: both classes hold the ASCII characters they should, and not the
    slash. *)
Class CharClasses : Prop := {
  word_in : forall a s, is_word a -> word (String a s) = Some s;
  word_slash : forall s, word (String "/" s) = None;
  digit_in : forall a s, is_digit a -> digit (String a s) = Some s;
  digit_slash : forall s, digit (String "/" s) = None }.
Context {Hclasses : CharClasses}.

Section class.
Context (one : string -> option string) (P : ascii -> Prop).
Context (Hin : forall a s, P a -> one (String a s) = Some s) (Hslash : forall s, one (String "/" s) = None).

Lemma strip_class a r : all_chars P a -> forall fuel, (slen a <= fuel)%nat -> strip one fuel (a +:+ String "/" r) = String "/" r.
Proof.
  induction a as [|c a IH]; intros Ha fuel Hf; simpl in *.
  - rewrite str_app_nil_l. destruct fuel; simpl; [done|]. by rewrite Hslash.
  - destruct Ha as [Hc Ha]. destruct fuel as [|fuel]; [lia|]. rewrite str_app_cons. simpl. rewrite (Hin _ _ Hc). apply IH; [done|lia].
Qed.

Lemma several_class a r : all_chars P a -> a <> "" -> several one (a +:+ String "/" r) = Some (a, String "/" r).
Proof.
  intros Ha Hne. destruct a as [|c a]; [done|]. destruct Ha as [Hc Ha]. unfold several. rewrite str_app_cons, (Hin _ _ Hc). cbn [mbind option_bind].
  rewrite strip_class; [|done|rewrite slen_app; lia]. rewrite <- str_app_cons, slen_app.
  replace (slen (String c a) + slen (String "/" r) - slen (String "/" r))%nat with (slen (String c a)) by lia. by rewrite stake_app.
Qed.
End class.

Lemma after_app p s : after p (p +:+ s) = Some s.
Proof. unfold after. by rewrite starts_with_app, sdrop_app. Qed.

Lemma uri_in_at s x : uri_at word digit s = Some x -> uri_in word digit s = Some x.
Proof. destruct s; cbn [uri_in]; by intros ->. Qed.

(** The URI of an item of an endpoint. *)
Definition resource_uri (name : string) (i : Z) : string := "/api/" +:+ name +:+ String "/" (fmt_int i +:+ String "/" "").

(** The identifier in the URI of an item is read back, by the endpoint of the item only. *)
Theorem uri_round_trip name other i (Hname : all_chars is_word name) (Hne : name <> "") (Hi : 0 <= i < 2 ^ 31) :
  extract_uri_id word digit name (resource_uri name i) = Some i /\
  (other <> name -> extract_uri_id word digit other (resource_uri name i) = None).
Proof.
  assert (uri_in word digit (resource_uri name i) = Some (name, fmt_int i)) as E.
  { apply uri_in_at.
    destruct (fmt_digits i) as [Hd Hz]; [lia|]. unfold uri_at, resource_uri. rewrite after_app. cbn [mbind option_bind].
    rewrite (several_class word is_word) by eauto using word_in, word_slash. cbn [mbind option_bind].
    change (String "/" (fmt_int i +:+ String "/" "")) with ("/" +:+ (fmt_int i +:+ String "/" "")). rewrite after_app. cbn [mbind option_bind].
    rewrite (several_class digit is_digit) by eauto using digit_in, digit_slash. cbn [mbind option_bind]. done. }
  unfold extract_uri_id. rewrite E. cbn [mbind option_bind]. rewrite String.eqb_refl, parse_fmt_int by lia. split; [done|].
  intros Ho. by rewrite (proj2 (String.eqb_neq name other)) by congruence.
Qed.
End uris.

(** * Witnesses *)

Definition ascii_class (b : ascii -> bool) (s : string) : option string :=
  match s with String a r => if b a then Some r else None | EmptyString => None end.
Definition ascii_digit : string -> option string := ascii_class (in_range 48 57).
Definition ascii_word : string -> option string :=
  ascii_class (fun a => in_range 48 57 a || in_range 65 90 a || in_range 97 122 a || Ascii.eqb a "_").

Lemma ascii_classes : CharClasses ascii_word ascii_digit.
Proof.
  split; unfold ascii_word, ascii_digit, ascii_class, is_word, is_digit; intros; try done.
  - destruct H as [->|[->|[->| ->]]]; by rewrite ?orb_true_r.
  - by rewrite H.
Qed.

Definition sample_command (i : Z) (js : list Z) (complete : bool) : Command :=
  MkCommand false complete "" false i (resource_uri "job" <$> js) "" "" (resource_uri "command" i).
Definition sample_job (i : Z) (ss ws : list Z) (description state : string) : Job (option unit) :=
  MkJob [MkTransition "Cancel" "cancelled"] false "" [] "" description false i "" [] (resource_uri "job" i) state ∅
    (resource_uri "step" <$> ss) (resource_uri "job" <$> ws) [].
Definition sample_step (i : Z) : Step unit := MkStep ∅ "" "" "" "" "" i "" "" (resource_uri "step" i) None "success" 0 0.

Definition sample_updates : list (@Upd unit) :=
  [USteps [sample_step 20; sample_step 21]; UJobs [sample_job 10 [20; 21] [11] "Start" "complete"; sample_job 11 [] [10] "Stop" "tasked"];
   UCommands [sample_command 1 [10; 11] false]].

Definition sample_select : Select := {[TCmd 1; TJob 10]}.
Abbreviation sample_model := (received ascii_word ascii_digit sample_select sample_updates) (only parsing).

Lemma sample_owned : owned sample_model.
Proof.
  split; intros i Hi; apply elem_of_sorted_keys in Hi; revert i Hi; apply Forall_forall; vm_compute extract_sorted_keys;
    repeat (apply Forall_cons; split); try constructor; [exists 1|exists 1|exists 10|exists 10]; eexists; (split; [vm_compute; reflexivity|]); vm_compute r_deps; set_solver.
Qed.

Lemma views_settle_witness : sample_model = refresh ascii_word ascii_digit (set_views [] ∅ ∅ sample_model) /\
  r_id <$> commands_view sample_model = [1].
Proof.
  split; [exact (views_settle ascii_word ascii_digit sample_select sample_updates sample_owned)|]. vm_compute. reflexivity.
Defined.

Lemma page_shows_jobs_witness : exists ns, job_tree_view sample_model 1 = Some ns /\ flat_map shown ns ≡ₚ [10; 11].
Proof.
  apply (page_shows_jobs ascii_word ascii_digit sample_model 1 (jobs sample_model) (MkRich 1 [10; 11] (sample_command 1 [10; 11] false))).
  - intros i r E. assert (i ∈ extract_sorted_keys (jobs sample_model)) as Hi by (apply elem_of_sorted_keys; eauto).
    replace (extract_sorted_keys (jobs sample_model)) with [10; 11] in Hi by (vm_compute; reflexivity).
    apply elem_of_cons in Hi as [->| ->%list_elem_of_singleton]; vm_compute in E; injection E as <-; done.
  - intros i Hi. apply elem_of_cons in Hi as [->| ->%list_elem_of_singleton]; vm_compute; eauto.
  - vm_compute. reflexivity.
  - done.
  - apply (bool_decide_unpack _). vm_compute. reflexivity.
  - intros i j Hi E. apply elem_of_cons in Hi as [->| ->%list_elem_of_singleton]; vm_compute in E; injection E as <-;
      apply (bool_decide_unpack _); vm_compute; reflexivity.
Defined.

Definition sample_events : list (@Event unit) :=
  [EFire (Commands [sample_command 1 [10] false]); EAnswer 1 (AJobs (Ok [sample_job 10 [] [] "Start" "tasked"])); ECancel 10;
   EAnswer 0 (ACommands (Ok [sample_command 1 [10] false]))].

Definition page_after (es : list (@Event unit)) : @Page unit := default page_start (page_run ascii_word ascii_digit es page_start).

Lemma page_alive_witness : polled (page_after sample_events) /\ cancels (page_after sample_events) /\
  pending (page_after sample_events) = [FPut 10 "cancelled"; FSleep 4].
Proof.
  assert (page_run ascii_word ascii_digit sample_events page_start = Some (page_after sample_events)) as E by (vm_compute; reflexivity).
  split_and!; [apply (page_alive ascii_word ascii_digit _ _ E)..|vm_compute; reflexivity].
Defined.

Lemma uri_round_trip_witness : extract_uri_id ascii_word ascii_digit "job" "/api/job/39/" = Some 39.
Proof.
  change "/api/job/39/" with (resource_uri "job" 39).
  apply (uri_round_trip ascii_word ascii_digit (Hclasses := ascii_classes) "job" "step" 39); [|done|lia].
  unfold is_word. cbn. tauto.
Defined.

(** ** Where the window goes wrong *)

(** Commands that have finished when the window is opened are not asked for again, nor are their
    jobs: the first one is shown open, and its jobs as a spinner. *)
Lemma finished_not_loaded {Value} word digit n (m : @Model Value) cmd cmds :
  is_all_commands_finished (convert_to_rich_hashmap (cmd :: cmds) (extract_children_from_cmd word digit) ∪ commands m) = true ->
  let '(m', os) := update word digit n (FireCommands (Commands (cmd :: cmds))) m in
  os = [] /\ TCmd (cmd_id cmd) ∈ select m' /\ jobs m' = jobs m.
Proof.
  intros Hf. cbn [update]. set (m0 := set_select _ _).
  assert (commands (update_commands word digit (cmd :: cmds) m0) = convert_to_rich_hashmap (cmd :: cmds) (extract_children_from_cmd word digit) ∪ commands m /\
    jobs (update_commands word digit (cmd :: cmds) m0) = jobs m /\ select (update_commands word digit (cmd :: cmds) m0) = select m0) as (-> & -> & ->).
  { unfold update_commands. destruct (refresh_collections word digit (set_collections (convert_to_rich_hashmap (cmd :: cmds) (extract_children_from_cmd word digit) ∪ commands m0)
      (jobs m0) (steps m0) m0)) as (-> & -> & _ & ->). done. }
  rewrite Hf. split_and!; [done| |done]. unfold m0, perform_click. cbn [select set_select set_open]. rewrite decide_False by set_solver. set_solver.
Qed.

(** A request that is under way when the window is closed brings its commands back: the closed
    window goes on polling, and shows the old commands with the next ones. *)
Example closed_window_polls :
  let p := page_after [EFire (Commands [sample_command 1 [10] false]); EModal Close; EAnswer 0 (ACommands (Ok [sample_command 1 [10] false]))] in
  modal_open (model p) = false /\ pending p = [FJobs [10]; FSleep 3] /\ tree_cancel (model p) = Some 3%nat /\
  r_id <$> commands_view (model (page_after [EFire (Commands [sample_command 1 [10] false]); EModal Close;
    EAnswer 0 (ACommands (Ok [sample_command 1 [10] false])); EFire (Commands [sample_command 2 [] true])])) = [1; 2].
Proof. vm_compute. repeat split. Qed.

(** When the first request for commands fails, it is not repeated: the window says that it is
    loading for ever. *)
Example first_request_fails :
  let p := page_after [EFire (Ids [1]); EAnswer 0 (ACommands (Err tt))] in
  modal_open (model p) = true /\ pending p = [] /\ commands_view (model p) = [].
Proof. vm_compute. repeat split. Qed.

(** The answer about a job may be older than the one about its command: when the command has
    finished nothing is asked for any more, and the job is shown as running for ever. *)
Example job_left_running :
  let p := page_after [EFire (Commands [sample_command 1 [10] false]); EAnswer 1 (AJobs (Ok [sample_job 10 [] [] "Start" "tasked"]));
    EAnswer 0 (ACommands (Ok [sample_command 1 [10] true]))] in
  pending p = [] /\ (fun j => job_state (r_inner j)) <$> jobs (model p) !! 10 = Some "tasked" /\
  cmd_complete ∘ r_inner <$> commands (model p) !! 1 = Some true.
Proof. vm_compute. repeat split. Qed.

(** Jobs that others wait for are sorted by the number of their steps, not of the jobs they wait
    for themselves. *)
Example sorted_by_steps :
  (extract_wait_fors_from_job ascii_word ascii_digit
    (convert_to_rich_hashmap [sample_job 2 [] [3; 4] "A" "tasked"; sample_job 3 [20] [] "B" "tasked"] (extract_children_from_job ascii_word ascii_digit))
    (sample_job 1 [] [2; 3] "C" "tasked")).2 = [3; 2].
Proof. vm_compute. reflexivity. Qed.
