(* ===== verification/Sfa.v ===== *)
(** * What a storage array reports ([iml-wire-types/src/sfa.rs], [wbem-client/src/cim_xml.rs],
    [iml-sfa/src/sfa_class_ext.rs])

    The instances that the WBEM interface of an array returns, and the records they are converted
    to. The order of a record is the derived one, its identity the text of [Identifiable::id];
    both are stated as instances of [Keyed] and [Changeable], so that [get_changes] applies. The
    requests themselves are a parameter. *)
From S2P Require Import Prelude RustStd Ordering Change WarpTypes.
From stdpp Require Import base gmap sets list strings pretty.
From Stdlib Require Import ZArith Lia Ascii.
Open Scope string_scope.
Open Scope Z_scope.

(** ** Instances *)

Inductive Property : Type :=
| Single (name : option string) (prop_type : string) (value : option string)
| Multiple (name : option string) (prop_type : string) (values : option (list string)).

Definition property_name (p : Property) : option string := match p with Single name _ _ | Multiple name _ _ => name end.

Record Instance_ : Type := MkInstance { class_name : string; properties : list Property }.

Definition get_property (x : Instance_) (name : string) : option string :=
  match List.find (fun p => bool_decide (property_name p = Some name)) (properties x) with
  | Some (Single _ _ value) => value
  | _ => None
  end.

(** The errors of the conversions. *)
Inductive SfaClassError : Type :=
| PropertyNotfound (name : string)
| UnexpectedInstance (expected found : string)
| IoError (value : Z)
| ParseBoolError
| SfaParseInt (e : ParseIntError).

Definition try_get_property (x : Instance_) (name : string) : Result SfaClassError string :=
  ok_or (PropertyNotfound name) (get_property x name).

Definition sfa_i32 (s : string) : Result SfaClassError Z := map_err SfaParseInt (from_str_radix 10 (- 2 ^ 31) (2 ^ 31 - 1) s).
Definition sfa_i16 (s : string) : Result SfaClassError Z := map_err SfaParseInt (from_str_radix 10 (- 2 ^ 15) (2 ^ 15 - 1) s).

Definition ascii_lower (a : ascii) : ascii := if in_range 65 90 a then ascii_of_N (N_of_ascii a + 32) else a.

(** [to_lowercase().parse::<bool>()]. No character outside ASCII has a letter of these words as its
    lower case. *)
Definition parse_bool (s : string) : Result SfaClassError bool :=
  let s := String.string_of_list_ascii (ascii_lower <$> String.list_ascii_of_string s) in
  if String.eqb s "true" then Ok true else if String.eqb s "false" then Ok false else Err ParseBoolError.

(** ** Enumerations: [as i16] and [TryFrom<i16>] *)

Definition HealthState_i16 (x : HealthState) : Z :=
  match x with HealthState_None => 0 | HealthState_Ok => 1 | HealthState_NonCritical => 2 | HealthState_Critical => 3 | HealthState_Unknown => 255 end.

Definition HealthState_try_from (s : Z) : Result SfaClassError HealthState :=
  match s with
  | 0 => Ok HealthState_None | 1 => Ok HealthState_Ok | 2 => Ok HealthState_NonCritical | 3 => Ok HealthState_Critical
  | 255 => Ok HealthState_Unknown | x => Err (IoError x)
  end.

Definition EnclosureType_i16 (x : EnclosureType) : Z :=
  match x with EnclosureType_None => 0 | EnclosureType_Disk => 1 | EnclosureType_Controller => 2 | EnclosureType_Ups => 3 | EnclosureType_Unknown => 255 end.

Definition EnclosureType_try_from (s : Z) : Result SfaClassError EnclosureType :=
  match s with
  | 0 => Ok EnclosureType_None | 1 => Ok EnclosureType_Disk | 2 => Ok EnclosureType_Controller | 3 => Ok EnclosureType_Ups
  | 255 => Ok EnclosureType_Unknown | x => Err (IoError x)
  end.

Definition MemberState_i16 (x : MemberState) : Z :=
  match x with
  | MemberState_Normal => 0 | MemberState_Missing => 1 | MemberState_AlreadyMissing => 2 | MemberState_Rebuilding => 3
  | MemberState_WaitingToRebuild => 4 | MemberState_Failed => 5 | MemberState_MissingNoRebuild => 6 | MemberState_ErrorRec => 7
  | MemberState_Unassigned => 8 | MemberState_Copyback => 9 | MemberState_WaitingCopyback => 10 | MemberState_Locked => 11
  | MemberState_LockedNoRebuild => 12 | MemberState_AlreadyLocked => 13 | MemberState_MissingPreventsRebuild => 14
  | MemberState_LockedPreventsRebuild => 15 | MemberState_Unknown => 255
  end.

Definition MemberState_try_from (s : Z) : Result SfaClassError MemberState :=
  match s with
  | 0 => Ok MemberState_Normal | 1 => Ok MemberState_Missing | 2 => Ok MemberState_AlreadyMissing | 3 => Ok MemberState_Rebuilding
  | 4 => Ok MemberState_WaitingToRebuild | 5 => Ok MemberState_Failed | 6 => Ok MemberState_MissingNoRebuild | 7 => Ok MemberState_ErrorRec
  | 8 => Ok MemberState_Unassigned | 9 => Ok MemberState_Copyback | 10 => Ok MemberState_WaitingCopyback | 11 => Ok MemberState_Locked
  | 12 => Ok MemberState_LockedNoRebuild | 13 => Ok MemberState_AlreadyLocked | 14 => Ok MemberState_MissingPreventsRebuild
  | 15 => Ok MemberState_LockedPreventsRebuild | 255 => Ok MemberState_Unknown | x => Err (IoError x)
  end.

Definition SubTargetType_i16 (x : SubTargetType) : Z :=
  match x with SubTargetType_Pool => 0 | SubTargetType_Vd => 1 | SubTargetType_Pd => 2 | SubTargetType_Unknown => 255 end.

Definition SubTargetType_try_from (s : Z) : Result SfaClassError SubTargetType :=
  match s with
  | 0 => Ok SubTargetType_Pool | 1 => Ok SubTargetType_Vd | 2 => Ok SubTargetType_Pd | 255 => Ok SubTargetType_Unknown | x => Err (IoError x)
  end.

Definition JobType_i16 (x : JobType) : Z :=
  match x with
  | JobType_Initialize => 0 | JobType_Rebuild => 1 | JobType_RebuildFract => 2 | JobType_RebuildDist => 3 | JobType_Erase => 4
  | JobType_Delete => 5 | JobType_Failover => 6 | JobType_Move => 7 | JobType_Migrate => 8 | JobType_Verify => 9
  | JobType_VerifyForce => 10 | JobType_VerifyOnce => 11 | JobType_VerifyNoCorrect => 12 | JobType_NonDestructiveInitialize => 13
  | JobType_Copyback => 14 | JobType_RebuildFast => 15 | JobType_Failback => 16 | JobType_RebuildMixed => 17 | JobType_Unknown => 255
  end.

Definition JobType_try_from (s : Z) : Result SfaClassError JobType :=
  match s with
  | 0 => Ok JobType_Initialize | 1 => Ok JobType_Rebuild | 2 => Ok JobType_RebuildFract | 3 => Ok JobType_RebuildDist | 4 => Ok JobType_Erase
  | 5 => Ok JobType_Delete | 6 => Ok JobType_Failover | 7 => Ok JobType_Move | 8 => Ok JobType_Migrate | 9 => Ok JobType_Verify
  | 10 => Ok JobType_VerifyForce | 11 => Ok JobType_VerifyOnce | 12 => Ok JobType_VerifyNoCorrect | 13 => Ok JobType_NonDestructiveInitialize
  | 14 => Ok JobType_Copyback | 15 => Ok JobType_RebuildFast | 16 => Ok JobType_Failback | 17 => Ok JobType_RebuildMixed
  | 255 => Ok JobType_Unknown | x => Err (IoError x)
  end.

Definition JobState_i16 (x : JobState) : Z :=
  match x with
  | JobState_Queued => 0 | JobState_Running => 1 | JobState_Paused => 2 | JobState_Suspended => 3 | JobState_Completed => 4
  | JobState_NoSpares => 5 | JobState_Unknown => 255
  end.

Definition JobState_try_from (s : Z) : Result SfaClassError JobState :=
  match s with
  | 0 => Ok JobState_Queued | 1 => Ok JobState_Running | 2 => Ok JobState_Paused | 3 => Ok JobState_Suspended | 4 => Ok JobState_Completed
  | 5 => Ok JobState_NoSpares | 255 => Ok JobState_Unknown | x => Err (IoError x)
  end.

(** ** Records *)

Record SfaStorageSystem : Type := MkStorageSystem {
  ss_uuid : string; ss_platform : string; ss_health_state_reason : string; ss_health_state : HealthState; ss_child_health_state : HealthState }.

Record SfaEnclosure : Type := MkEnclosure {
  en_index : Z; en_element_name : string; en_health_state : HealthState; en_health_state_reason : string; en_child_health_state : HealthState;
  en_model : string; en_position : Z; en_enclosure_type : EnclosureType; en_canister_location : string; en_storage_system : string }.

Record SfaDiskDrive : Type := MkDiskDrive {
  dd_index : Z; dd_enclosure_index : Z; dd_failed : bool; dd_slot_number : Z; dd_health_state : HealthState; dd_health_state_reason : string;
  dd_member_index : option Z; dd_member_state : MemberState; dd_storage_system : string }.

Record SfaJob : Type := MkSfaJob {
  sj_index : Z; sj_sub_target_index : option Z; sj_sub_target_type : option SubTargetType; sj_job_type : JobType; sj_state : JobState;
  sj_storage_system : string }.

Record SfaPowerSupply : Type := MkPowerSupply {
  ps_index : Z; ps_enclosure_index : Z; ps_health_state : HealthState; ps_health_state_reason : string; ps_position : Z; ps_storage_system : string }.

Record SfaController : Type := MkController {
  ct_index : Z; ct_enclosure_index : Z; ct_health_state : HealthState; ct_health_state_reason : string; ct_child_health_state : HealthState;
  ct_storage_system : string }.

Definition expect_class (x : Instance_) (expected : string) : Result SfaClassError unit :=
  if String.eqb (class_name x) expected then Ok tt else Err (UnexpectedInstance expected (class_name x)).

Definition health (x : Instance_) (name : string) : Result SfaClassError HealthState :=
  s ← try_get_property x name; n ← sfa_i16 s; HealthState_try_from n.

(** [Option::map(f).transpose()?]. *)
Definition transpose {A B} (f : A -> Result SfaClassError B) (o : option A) : Result SfaClassError (option B) :=
  match o with Some a => Some <$> f a | None => Ok None end.

Definition SfaStorageSystem_try_from (x : Instance_) : Result SfaClassError SfaStorageSystem :=
  _ ← expect_class x "DDN_SFAStorageSystem";
  child_health_state ← health x "ChildHealthState";
  health_state_reason ← try_get_property x "HealthStateReason";
  health_state ← health x "HealthState";
  uuid ← try_get_property x "UUID";
  platform ← try_get_property x "Platform";
  Ok (MkStorageSystem uuid platform health_state_reason health_state child_health_state).

Definition SfaEnclosure_try_from (storage_system : string) (x : Instance_) : Result SfaClassError SfaEnclosure :=
  _ ← expect_class x "DDN_SFAEnclosure";
  index ← try_get_property x "Index" ≫= sfa_i32;
  element_name ← try_get_property x "ElementName";
  health_state ← health x "HealthState";
  health_state_reason ← try_get_property x "HealthStateReason";
  child_health_state ← health x "ChildHealthState";
  model ← try_get_property x "Model";
  position ← try_get_property x "Position" ≫= sfa_i16;
  enclosure_type ← (try_get_property x "Type" ≫= sfa_i16) ≫= EnclosureType_try_from;
  canister_location ← try_get_property x "CanisterLocation";
  Ok (MkEnclosure index element_name health_state health_state_reason child_health_state model position enclosure_type canister_location storage_system).

Definition SfaDiskDrive_try_from (storage_system : string) (x : Instance_) : Result SfaClassError SfaDiskDrive :=
  _ ← expect_class x "DDN_SFADiskDrive";
  index ← try_get_property x "Index" ≫= sfa_i32;
  enclosure_index ← try_get_property x "EnclosureIndex" ≫= sfa_i32;
  failed ← try_get_property x "Failed" ≫= parse_bool;
  health_state_reason ← try_get_property x "HealthStateReason";
  health_state ← health x "HealthState";
  member_index ← transpose sfa_i16 (get_property x "MemberIndex");
  member_state ← (try_get_property x "MemberState" ≫= sfa_i16) ≫= MemberState_try_from;
  slot_number ← try_get_property x "DiskSlotNumber" ≫= sfa_i32;
  Ok (MkDiskDrive index enclosure_index failed slot_number health_state health_state_reason member_index member_state storage_system).

Definition SfaJob_try_from (storage_system : string) (x : Instance_) : Result SfaClassError SfaJob :=
  _ ← expect_class x "DDN_SFAJob";
  index ← try_get_property x "Index" ≫= sfa_i32;
  sub_target_index ← transpose sfa_i32 (get_property x "SubTargetIndex");
  sub_target_type ← transpose sfa_i16 (get_property x "SubTargetType") ≫= transpose SubTargetType_try_from;
  job_type ← (try_get_property x "Type" ≫= sfa_i16) ≫= JobType_try_from;
  state ← (try_get_property x "State" ≫= sfa_i16) ≫= JobState_try_from;
  Ok (MkSfaJob index sub_target_index sub_target_type job_type state storage_system).

Definition SfaPowerSupply_try_from (storage_system : string) (x : Instance_) : Result SfaClassError SfaPowerSupply :=
  _ ← expect_class x "DDN_SFAPowerSupply";
  index ← try_get_property x "Index" ≫= sfa_i32;
  health_state_reason ← try_get_property x "HealthStateReason";
  health_state ← health x "HealthState";
  position ← try_get_property x "Position" ≫= sfa_i16;
  enclosure_index ← try_get_property x "EnclosureIndex" ≫= sfa_i32;
  Ok (MkPowerSupply index enclosure_index health_state health_state_reason position storage_system).

Definition SfaController_try_from (storage_system : string) (x : Instance_) : Result SfaClassError SfaController :=
  _ ← expect_class x "DDN_SFAController";
  index ← try_get_property x "Index" ≫= sfa_i32;
  enclosure_index ← try_get_property x "EnclosureIndex" ≫= sfa_i32;
  health_state_reason ← try_get_property x "HealthStateReason";
  health_state ← health x "HealthState";
  child_health_state ← health x "ChildHealthState";
  Ok (MkController index enclosure_index health_state health_state_reason child_health_state storage_system).

(** ** Requests *)

Section requests.
Context {Url E : Type} (of_class : SfaClassError -> E).
Context (get_instance : Url -> Result E Instance_) (enumerate_instances : Url -> string -> Result E (list Instance_)).

Definition fetch_sfa_storage_system (url : Url) : Result E SfaStorageSystem :=
  x ← get_instance url; map_err of_class (SfaStorageSystem_try_from x).

(** The instances of a class, each with the identifier of the array that reports it. Both requests
    are made at once; when both fail the model returns the error of the first. *)
Definition fetch_instances {A} (class : string) (try_from : string -> Instance_ -> Result SfaClassError A) (url : Url) : Result E (list A) :=
  x ← fetch_sfa_storage_system url;
  ys ← enumerate_instances url class;
  map_err of_class (mapM (try_from (ss_uuid x)) ys).

Definition fetch_sfa_enclosures (url : Url) := fetch_instances "DDN_SFAEnclosure" SfaEnclosure_try_from url.
Definition fetch_sfa_disk_drives (url : Url) := fetch_instances "DDN_SFADiskDrive" SfaDiskDrive_try_from url.
Definition fetch_sfa_jobs (url : Url) := fetch_instances "DDN_SFAJob" SfaJob_try_from url.
Definition fetch_sfa_power_supply (url : Url) := fetch_instances "DDN_SFAPowerSupply" SfaPowerSupply_try_from url.
Definition fetch_sfa_controllers (url : Url) := fetch_instances "DDN_SFAController" SfaController_try_from url.
End requests.

(** ** Order and identity *)

Definition two_part_id (i : Z) (s : string) : string := fmt_int i +:+ String "_" s.

Lemma digit_not_underscore d : (d < 10)%N -> pretty_N_char d <> "_"%char.
Proof. intros H. do 10 (destruct d as [|d] using N.peano_ind; [done|clear IHd]). lia. Qed.

Lemma fmt_no_underscore i : contains_char "_" (fmt_int i) = false.
Proof. apply fmt_int_contains; [apply digit_not_underscore|done]. Qed.

(** The number ends at the first underscore. *)
Lemma two_part_id_inj i j s t : two_part_id i s = two_part_id j t -> i = j /\ s = t.
Proof.
  unfold two_part_id. intros E.
  assert (split_first (String "_" "") (fmt_int i +:+ String "_" s) = split_first (String "_" "") (fmt_int j +:+ String "_" t)) as H by by rewrite E.
  rewrite !split_first_char in H by apply fmt_no_underscore. injection H as H ->. split; [|done]. unfold fmt_int in H. by apply (inj pretty) in H.
Qed.

Definition three_part_id (i : Z) (s : string) (k : Z) : string := fmt_int i +:+ String "_" (s +:+ String "_" (fmt_int k)).

Lemma three_part_id_inj i j s t k l : three_part_id i s k = three_part_id j t l -> i = j /\ s = t /\ k = l.
Proof.
  intros [-> E]%two_part_id_inj. split; [done|]. apply (f_equal String.rev) in E.
  change (String "_" (fmt_int k)) with (String "_" "" +:+ fmt_int k) in E. change (String "_" (fmt_int l)) with (String "_" "" +:+ fmt_int l) in E.
  rewrite !str_rev_app in E. rewrite <- !str_app_assoc in E.
  assert (forall u z, split_first (String "_" "") (String.rev (fmt_int z) +:+ (String.rev (String "_" "") +:+ u)) = Some (String.rev (fmt_int z), u)) as H.
  { intros u z. apply split_first_char. by rewrite contains_char_rev, fmt_no_underscore. }
  assert (Some (String.rev (fmt_int k), String.rev s) = Some (String.rev (fmt_int l), String.rev t)) as [= H1 H2].
  { rewrite <- !H. by rewrite E. }
  apply (f_equal String.rev) in H1, H2. rewrite !str_rev_involutive in H1, H2. split; [done|]. unfold fmt_int in H1. by apply (inj pretty) in H1.
Qed.

#[export] Instance bool_keyed : Keyed bool := fun b => KZ (if b : bool then 1 else 0).
#[export] Instance HealthState_keyed : Keyed HealthState := fun x => KZ (HealthState_i16 x).
#[export] Instance EnclosureType_keyed : Keyed EnclosureType := fun x => KZ (EnclosureType_i16 x).
#[export] Instance MemberState_keyed : Keyed MemberState := fun x => KZ (MemberState_i16 x).
#[export] Instance SubTargetType_keyed : Keyed SubTargetType := fun x => KZ (SubTargetType_i16 x).
#[export] Instance JobType_keyed : Keyed JobType := fun x => KZ (JobType_i16 x).
#[export] Instance JobState_keyed : Keyed JobState := fun x => KZ (JobState_i16 x).

#[export] Instance SfaEnclosure_keyed : Keyed SfaEnclosure := fun x =>
  KL [key_of (en_index x); key_of (en_element_name x); key_of (en_health_state x); key_of (en_health_state_reason x);
      key_of (en_child_health_state x); key_of (en_model x); key_of (en_position x); key_of (en_enclosure_type x);
      key_of (en_canister_location x); key_of (en_storage_system x)].
#[export] Instance SfaDiskDrive_keyed : Keyed SfaDiskDrive := fun x =>
  KL [key_of (dd_index x); key_of (dd_enclosure_index x); key_of (dd_failed x); key_of (dd_slot_number x); key_of (dd_health_state x);
      key_of (dd_health_state_reason x); key_of (dd_member_index x); key_of (dd_member_state x); key_of (dd_storage_system x)].
#[export] Instance SfaJob_keyed : Keyed SfaJob := fun x =>
  KL [key_of (sj_index x); key_of (sj_sub_target_index x); key_of (sj_sub_target_type x); key_of (sj_job_type x); key_of (sj_state x);
      key_of (sj_storage_system x)].
#[export] Instance SfaPowerSupply_keyed : Keyed SfaPowerSupply := fun x =>
  KL [key_of (ps_index x); key_of (ps_enclosure_index x); key_of (ps_health_state x); key_of (ps_health_state_reason x);
      key_of (ps_position x); key_of (ps_storage_system x)].
#[export] Instance SfaController_keyed : Keyed SfaController := fun x =>
  KL [key_of (ct_index x); key_of (ct_enclosure_index x); key_of (ct_health_state x); key_of (ct_health_state_reason x);
      key_of (ct_child_health_state x); key_of (ct_storage_system x)].

(** A key that tells the values of a type apart. *)
Class KeyInj (A : Type) `{Keyed A} : Prop := key_inj : forall x y : A, key_of x = key_of y -> x = y.

#[export] Instance Z_key_inj : KeyInj Z.
Proof. by intros x y [= ->]. Qed.
#[export] Instance string_key_inj : KeyInj string.
Proof. by intros x y [= ->]. Qed.
#[export] Instance option_key_inj `{KeyInj A} : KeyInj (option A).
Proof. intros [x|] [y|] E; try discriminate E; [|done]. f_equal. apply key_inj. by injection E. Qed.

Ltac enum_key_inj := intros x y E; destruct x, y; (reflexivity || discriminate E).
#[export] Instance bool_key_inj : KeyInj bool. Proof. enum_key_inj. Qed.
#[export] Instance HealthState_key_inj : KeyInj HealthState. Proof. enum_key_inj. Qed.
#[export] Instance EnclosureType_key_inj : KeyInj EnclosureType. Proof. enum_key_inj. Qed.
#[export] Instance MemberState_key_inj : KeyInj MemberState. Proof. enum_key_inj. Qed.
#[export] Instance SubTargetType_key_inj : KeyInj SubTargetType. Proof. enum_key_inj. Qed.
#[export] Instance JobType_key_inj : KeyInj JobType. Proof. enum_key_inj. Qed.
#[export] Instance JobState_key_inj : KeyInj JobState. Proof. enum_key_inj. Qed.

(** Two records with the same key have the same fields. *)
Ltac record_key_inj :=
  intros [] [] E; injection E; intros; f_equal; first [assumption | apply key_inj; match goal with H : _ = _ |- _ => first [exact (f_equal KZ H) | exact (f_equal KL H)] end].

#[export] Program Instance SfaEnclosure_changeable : Changeable SfaEnclosure :=
  {| change_id := fun x => KS (two_part_id (en_index x) (en_storage_system x)) |}.
Next Obligation. record_key_inj. Qed.
#[export] Program Instance SfaDiskDrive_changeable : Changeable SfaDiskDrive :=
  {| change_id := fun x => KS (two_part_id (dd_index x) (dd_storage_system x)) |}.
Next Obligation. record_key_inj. Qed.
#[export] Program Instance SfaJob_changeable : Changeable SfaJob :=
  {| change_id := fun x => KS (two_part_id (sj_index x) (sj_storage_system x)) |}.
Next Obligation. record_key_inj. Qed.
#[export] Program Instance SfaPowerSupply_changeable : Changeable SfaPowerSupply :=
  {| change_id := fun x => KS (three_part_id (ps_index x) (ps_storage_system x) (ps_enclosure_index x)) |}.
Next Obligation. record_key_inj. Qed.
#[export] Program Instance SfaController_changeable : Changeable SfaController :=
  {| change_id := fun x => KS (two_part_id (ct_index x) (ct_storage_system x)) |}.
Next Obligation. record_key_inj. Qed.
