(* ===== verification/SfaService.v ===== *)
(** * The service that stores the state of a storage array ([iml-sfa/])

    Every five seconds the service asks the array for its enclosures, drives, jobs, power supplies
    and controllers, compares each list with the one before ([get_changes]) and writes the
    difference to a table. A request goes to the endpoints in turn until one answers
    ([retry_fn], with [retry_future]). A table is a map from the columns of its unique index to
    the whole row; what the service needs of a record and its table is the class [SfaTable],
    with an instance for each of the five, and the theorems are proved against the class.

    A statement may be refused by the database at any time, which ends the service; it is then
    started again and reads the tables. *)
From S2P Require Import Prelude RustStd Ordering Change WarpTypes RequestRetry Sfa.
From stdpp Require Import base gmap sets list strings.
From Stdlib Require Import ZArith Lia Ascii.
Open Scope string_scope.
Open Scope Z_scope.

(** ** Endpoints *)

Section endpoints.
Context {Url : Type} (parse_url : string -> option Url).

(** The environment in the order of the names; [None] is the panic on a bad URL. *)
Definition get_sfa_endpoints (vars : list (string * string)) : option (option (list (list Url))) :=
  let vars := foldl (fun m v => btree_insert v.1 v.2 m) [] (List.filter (fun v => starts_with "SFA_ENDPOINTS_" v.1) vars) in
  groups ← mapM (fun v : string * string => mapM parse_url (List.filter (fun x => negb (String.eqb x "")) (str_split "|"%char v.2))) vars;
  let groups := List.filter (fun g => negb (bool_decide (length g = 0%nat))) groups in
  Some (match groups with [] => None | _ => Some groups end).

Context {E A : Type}.

(** One try for each endpoint. *)
Definition sfa_policy (len : Z) : RetryPolicy E unit := closure_policy (fun k e => if k <? len then RetryNow else ReturnError e).

(** [f] gets the endpoint of the request's number; the policy keeps the number in range, so the
    default of [nth] is not used ([retry_fn_first]). *)
Definition retry_fn (endpoints : list Url) (f : Url -> Result E A) : option (Ending E A * list Z * nat) :=
  match endpoints with
  | [] => None
  | first :: _ =>
      @retry_future E unit A (sfa_policy (Z.of_nat (length endpoints) - 1)) (fun c => f (nth c endpoints first)) (S (length endpoints)) tt
  end.
End endpoints.

(** ** Tables *)

(** A record [T], the row [R] it is stored as and the columns [K] of the table's index. *)
Class SfaTable (T K R V : Type) `{Changeable T} : Type := {
  to_row : T -> R;
  of_row : R -> option T;
  row_key : R -> K;
  on_conflict : R -> R -> R;
  updated : R -> V;
  row_id (x y : T) : change_id x = change_id y <-> row_key (to_row x) = row_key (to_row y);
  of_to (x : T) : of_row (to_row x) = Some x;
  to_of (r : R) (x : T) : of_row r = Some x -> to_row x = r;
  conflict_key (o r : R) : row_key o = row_key r -> row_key (on_conflict o r) = row_key r;
  conflict_decodes (o r : R) : is_Some (of_row o) -> is_Some (of_row r) -> is_Some (of_row (on_conflict o r));
  conflict_updates (o r : R) : row_key o = row_key r -> updated (on_conflict o r) = updated r }.

Section table.
Context {T K R V : Type} `{Countable K} `{SfaTable T K R V}.
Implicit Types (xs : list T) (m : gmap K R).

Definition key_of_record (x : T) : K := row_key (to_row x).

Definition all m : option (list T) := mapM of_row (map_to_list m).*2.

Definition upsert_row m (r : R) : gmap K R :=
  <[row_key r := match m !! row_key r with Some o => on_conflict o r | None => r end]> m.

(** [None] when two rows have the same key, which the statement does not allow. *)
Definition batch_upsert xs m : option (gmap K R) :=
  if decide (NoDup (key_of_record <$> xs)) then Some (foldl upsert_row m (to_row <$> xs)) else None.

Definition batch_delete xs m : gmap K R := foldl (fun m x => delete (key_of_record x) m) m xs.
End table.

(** ** Rows *)

Definition EnclosureRow : Type := Z * string * Z * string * Z * string * Z * Z * string * string.
Definition SfaDiskDriveRow : Type := Z * Z * bool * Z * Z * string * option Z * Z * string.
Definition SfaJobRow : Type := Z * option Z * option Z * Z * Z * string.
Definition SfaPowerSupplyRow : Type := Z * Z * Z * string * Z * string.
Definition SfaControllerRow : Type := Z * Z * Z * string * Z * string.

Definition enclosure_row (x : SfaEnclosure) : EnclosureRow :=
  (en_index x, en_element_name x, HealthState_i16 (en_health_state x), en_health_state_reason x, HealthState_i16 (en_child_health_state x),
   en_model x, en_position x, EnclosureType_i16 (en_enclosure_type x), en_canister_location x, en_storage_system x).
Definition drive_row (x : SfaDiskDrive) : SfaDiskDriveRow :=
  (dd_index x, dd_enclosure_index x, dd_failed x, dd_slot_number x, HealthState_i16 (dd_health_state x), dd_health_state_reason x,
   dd_member_index x, MemberState_i16 (dd_member_state x), dd_storage_system x).
Definition job_row (x : SfaJob) : SfaJobRow :=
  (sj_index x, sj_sub_target_index x, SubTargetType_i16 <$> sj_sub_target_type x, JobType_i16 (sj_job_type x), JobState_i16 (sj_state x), sj_storage_system x).
Definition supply_row (x : SfaPowerSupply) : SfaPowerSupplyRow :=
  (ps_index x, ps_enclosure_index x, HealthState_i16 (ps_health_state x), ps_health_state_reason x, ps_position x, ps_storage_system x).
Definition controller_row (x : SfaController) : SfaControllerRow :=
  (ct_index x, ct_enclosure_index x, HealthState_i16 (ct_health_state x), ct_health_state_reason x, HealthState_i16 (ct_child_health_state x), ct_storage_system x).

(** What [SELECT] gives back: a number that is no value of its type is an error. *)
Definition enclosure_of (r : EnclosureRow) : option SfaEnclosure :=
  let '(i, n, h, hr, c, m, p, t, l, s) := r in
  h ← ok (HealthState_try_from h); c ← ok (HealthState_try_from c); t ← ok (EnclosureType_try_from t);
  Some (MkEnclosure i n h hr c m p t l s).
Definition drive_of (r : SfaDiskDriveRow) : option SfaDiskDrive :=
  let '(i, e, f, n, h, hr, mi, ms, s) := r in
  h ← ok (HealthState_try_from h); ms ← ok (MemberState_try_from ms); Some (MkDiskDrive i e f n h hr mi ms s).
Definition job_of (r : SfaJobRow) : option SfaJob :=
  let '(i, ti, ty, jt, st, s) := r in
  ty ← ok (transpose SubTargetType_try_from ty); jt ← ok (JobType_try_from jt); st ← ok (JobState_try_from st); Some (MkSfaJob i ti ty jt st s).
Definition supply_of (r : SfaPowerSupplyRow) : option SfaPowerSupply :=
  let '(i, e, h, hr, p, s) := r in h ← ok (HealthState_try_from h); Some (MkPowerSupply i e h hr p s).
Definition controller_of (r : SfaControllerRow) : option SfaController :=
  let '(i, e, h, hr, c, s) := r in
  h ← ok (HealthState_try_from h); c ← ok (HealthState_try_from c); Some (MkController i e h hr c s).

(** [ON CONFLICT .. DO UPDATE SET]: the stored row, the new one, and what is stored then. *)
Definition enclosure_conflict (o r : EnclosureRow) : EnclosureRow :=
  let '(i, _, _, _, _, m, _, _, l, s) := o in let '(_, n, h, hr, c, _, p, t, _, _) := r in (i, n, h, hr, c, m, p, t, l, s).
Definition drive_conflict (o r : SfaDiskDriveRow) : SfaDiskDriveRow :=
  let '(i, _, _, _, _, _, _, _, s) := o in let '(_, e, f, n, h, hr, mi, ms, _) := r in (i, e, f, n, h, hr, mi, ms, s).
Definition job_conflict (o r : SfaJobRow) : SfaJobRow :=
  let '(i, _, _, _, _, s) := o in let '(_, ti, ty, jt, st, _) := r in (i, ti, ty, jt, st, s).
Definition supply_conflict (o r : SfaPowerSupplyRow) : SfaPowerSupplyRow :=
  let '(i, e, _, _, _, s) := o in let '(_, _, h, hr, p, _) := r in (i, e, h, hr, p, s).
Definition controller_conflict (o r : SfaControllerRow) : SfaControllerRow :=
  let '(i, _, _, _, _, s) := o in let '(_, e, h, hr, c, _) := r in (i, e, h, hr, c, s).

(** ** The instances *)

Lemma HealthState_decode x : HealthState_try_from (HealthState_i16 x) = Ok x.
Proof. by destruct x. Qed.
Lemma EnclosureType_decode x : EnclosureType_try_from (EnclosureType_i16 x) = Ok x.
Proof. by destruct x. Qed.
Lemma MemberState_decode x : MemberState_try_from (MemberState_i16 x) = Ok x.
Proof. by destruct x. Qed.
Lemma SubTargetType_decode x : SubTargetType_try_from (SubTargetType_i16 x) = Ok x.
Proof. by destruct x. Qed.
Lemma JobType_decode x : JobType_try_from (JobType_i16 x) = Ok x.
Proof. by destruct x. Qed.
Lemma JobState_decode x : JobState_try_from (JobState_i16 x) = Ok x.
Proof. by destruct x. Qed.

(** A number that is decoded is the number of the value. *)
Ltac encode_enum f := unfold f; intros E; repeat (case_match; try discriminate E); by injection E as <-.

Lemma HealthState_encode n x : HealthState_try_from n = Ok x -> HealthState_i16 x = n.
Proof. encode_enum HealthState_try_from. Qed.
Lemma EnclosureType_encode n x : EnclosureType_try_from n = Ok x -> EnclosureType_i16 x = n.
Proof. encode_enum EnclosureType_try_from. Qed.
Lemma MemberState_encode n x : MemberState_try_from n = Ok x -> MemberState_i16 x = n.
Proof. encode_enum MemberState_try_from. Qed.
Lemma SubTargetType_encode n x : SubTargetType_try_from n = Ok x -> SubTargetType_i16 x = n.
Proof. encode_enum SubTargetType_try_from. Qed.
Lemma JobType_encode n x : JobType_try_from n = Ok x -> JobType_i16 x = n.
Proof. encode_enum JobType_try_from. Qed.
Lemma JobState_encode n x : JobState_try_from n = Ok x -> JobState_i16 x = n.
Proof. encode_enum JobState_try_from. Qed.

#[export] Hint Rewrite HealthState_decode EnclosureType_decode MemberState_decode SubTargetType_decode JobType_decode JobState_decode : iml_rw.

Ltac of_to_row := intros []; cbn; autorewrite with iml_rw; done.

(** Reads a row: every number that is decoded is turned back. *)
Ltac inv_row :=
  repeat match goal with
  | H : (ok ?e ≫= _) = Some _ |- _ => let E := fresh "E" in destruct e eqn:E; cbn [ok mbind option_bind] in H; [|discriminate H]
  | H : Some _ = Some _ |- _ => injection H as <-
  | H : HealthState_try_from _ = Ok _ |- _ => apply HealthState_encode in H as <-
  | H : EnclosureType_try_from _ = Ok _ |- _ => apply EnclosureType_encode in H as <-
  | H : MemberState_try_from _ = Ok _ |- _ => apply MemberState_encode in H as <-
  | H : JobType_try_from _ = Ok _ |- _ => apply JobType_encode in H as <-
  | H : JobState_try_from _ = Ok _ |- _ => apply JobState_encode in H as <-
  end.

Lemma transpose_encode n x : transpose SubTargetType_try_from n = Ok x -> SubTargetType_i16 <$> x = n.
Proof.
  destruct n as [n|]; cbn; [|by intros [= <-]]. destruct (SubTargetType_try_from n) eqn:E; [|done]. intros [= <-]. cbn. by rewrite (SubTargetType_encode _ _ E).
Qed.

Ltac key_laws :=
  match goal with
  | |- context [two_part_id] => split; [intros [= E]; apply two_part_id_inj in E as [-> ->]; done|intros [= -> ->]; done]
  | |- context [three_part_id] => split; [intros [= E]; apply three_part_id_inj in E as (-> & -> & ->); done|intros [= -> -> ->]; done]
  end.

(** Laws of a conflict between two rows: of their keys, of decoding, of what is updated. *)
Ltac open_rows :=
  cbv [EnclosureRow SfaDiskDriveRow SfaJobRow SfaPowerSupplyRow SfaControllerRow] in *;
  repeat match goal with r : (_ * _)%type |- _ => destruct r end.
Ltac conflict_eq := intros o r; open_rows; cbn; congruence.
Ltac conflict_ok := intros o r _ [x E]; open_rows; cbn in *; inv_row; autorewrite with iml_rw; cbn; eauto.
Ltac to_of_row := intros r x E; open_rows; cbn in E; inv_row; reflexivity.

#[export] Program Instance enclosure_table : SfaTable SfaEnclosure (Z * string) EnclosureRow (Z * string * string * Z * string * Z * Z * Z) :=
  {| to_row := enclosure_row; of_row := enclosure_of; row_key := fun '(i, _, _, _, _, _, _, _, _, s) => (i, s); on_conflict := enclosure_conflict;
     updated := fun '(i, n, h, hr, c, _, p, t, _, s) => (i, s, n, h, hr, c, p, t) |}.
Next Obligation. intros [] []. cbn. key_laws. Qed.
Next Obligation. of_to_row. Qed.
Next Obligation. to_of_row. Qed.
Next Obligation. conflict_eq. Qed.
Next Obligation. conflict_ok. Qed.
Next Obligation. conflict_eq. Qed.

#[export] Program Instance drive_table : SfaTable SfaDiskDrive (Z * string) SfaDiskDriveRow SfaDiskDriveRow :=
  {| to_row := drive_row; of_row := drive_of; row_key := fun '(i, _, _, _, _, _, _, _, s) => (i, s); on_conflict := drive_conflict; updated := fun r => r |}.
Next Obligation. intros [] []. cbn. key_laws. Qed.
Next Obligation. of_to_row. Qed.
Next Obligation. to_of_row. Qed.
Next Obligation. conflict_eq. Qed.
Next Obligation. conflict_ok. Qed.
Next Obligation. conflict_eq. Qed.

#[export] Program Instance supply_table : SfaTable SfaPowerSupply (Z * string * Z) SfaPowerSupplyRow SfaPowerSupplyRow :=
  {| to_row := supply_row; of_row := supply_of; row_key := fun '(i, e, _, _, _, s) => (i, s, e); on_conflict := supply_conflict; updated := fun r => r |}.
Next Obligation. intros [] []. cbn. key_laws. Qed.
Next Obligation. of_to_row. Qed.
Next Obligation. to_of_row. Qed.
Next Obligation. conflict_eq. Qed.
Next Obligation. conflict_ok. Qed.
Next Obligation. conflict_eq. Qed.

#[export] Program Instance controller_table : SfaTable SfaController (Z * string) SfaControllerRow SfaControllerRow :=
  {| to_row := controller_row; of_row := controller_of; row_key := fun '(i, _, _, _, _, s) => (i, s); on_conflict := controller_conflict; updated := fun r => r |}.
Next Obligation. intros [] []. cbn. key_laws. Qed.
Next Obligation. of_to_row. Qed.
Next Obligation. to_of_row. Qed.
Next Obligation. conflict_eq. Qed.
Next Obligation. conflict_ok. Qed.
Next Obligation. conflict_eq. Qed.

#[export] Program Instance job_table : SfaTable SfaJob (Z * string) SfaJobRow SfaJobRow :=
  {| to_row := job_row; of_row := job_of; row_key := fun '(i, _, _, _, _, s) => (i, s); on_conflict := job_conflict; updated := fun r => r |}.
Next Obligation. intros [] []. cbn. key_laws. Qed.
Next Obligation. intros [? ? [[]|] ? ? ?]; cbn; autorewrite with iml_rw; done. Qed.
Next Obligation.
  intros r x E. open_rows. unfold job_of in E. inv_row.
  match goal with H : transpose _ _ = Ok _ |- _ => apply transpose_encode in H as <- end. reflexivity.
Qed.
Next Obligation. conflict_eq. Qed.
Next Obligation.
  intros o r _ [x E]. open_rows. unfold job_of, job_conflict in *. inv_row. cbn. eauto.
Qed.
Next Obligation. conflict_eq. Qed.

(** ** The service *)

Record Tables : Type := MkTables {
  t_systems : gmap string SfaStorageSystem;
  t_enclosures : gmap (Z * string) EnclosureRow;
  t_drives : gmap (Z * string) SfaDiskDriveRow;
  t_jobs : gmap (Z * string) SfaJobRow;
  t_supplies : gmap (Z * string * Z) SfaPowerSupplyRow;
  t_controllers : gmap (Z * string) SfaControllerRow }.

(** The lists of one round, and those that the service compares with. *)
Record Lists : Type := MkLists {
  l_enclosures : list SfaEnclosure; l_drives : list SfaDiskDrive; l_jobs : list SfaJob; l_supplies : list SfaPowerSupply; l_controllers : list SfaController }.

(** What one round asks for. The answer of an endpoint depends on the request, whose number is the
    first argument of the two functions; when several of the first five fail, which are made at
    once, the model returns the first error in their order. [None] is a panic. *)
Section round.
Context {Url E : Type} (of_class : SfaClassError -> E).
Context (get_instance : nat -> Url -> Result E Instance_) (enumerate_instances : nat -> Url -> string -> Result E (list Instance_)).

Definition request {A} (endpoints : list Url) (f : Url -> Result E A) : option (Result E A) :=
  match retry_fn endpoints f with Some (Returns r, _, _) => Some r | _ => None end.

Definition fetch_round (endpoints : list Url) : option (Result E (SfaStorageSystem * Lists)) :=
  enclosures ← request endpoints (fetch_sfa_enclosures of_class (get_instance 1%nat) (enumerate_instances 1%nat));
  x ← request endpoints (fetch_sfa_storage_system of_class (get_instance 2%nat));
  drives ← request endpoints (fetch_sfa_disk_drives of_class (get_instance 3%nat) (enumerate_instances 3%nat));
  jobs ← request endpoints (fetch_sfa_jobs of_class (get_instance 4%nat) (enumerate_instances 4%nat));
  supplies ← request endpoints (fetch_sfa_power_supply of_class (get_instance 5%nat) (enumerate_instances 5%nat));
  match (new_enclosures ← enclosures; x ← x; new_drives ← drives; new_jobs ← jobs; new_supplies ← supplies;
         Ok (new_enclosures, x, new_drives, new_jobs, new_supplies)) with
  | Err e => Some (Err e)
  | Ok (new_enclosures, x, new_drives, new_jobs, new_supplies) =>
      controllers ← request endpoints (fetch_sfa_controllers of_class (get_instance 6%nat) (enumerate_instances 6%nat));
      Some (new_controllers ← controllers; Ok (x, MkLists new_enclosures new_drives new_jobs new_supplies new_controllers))
  end.
End round.

Definition upsert_system (x : SfaStorageSystem) (t : Tables) : option Tables :=
  Some (MkTables (<[ss_uuid x := x]> (t_systems t)) (t_enclosures t) (t_drives t) (t_jobs t) (t_supplies t) (t_controllers t)).
Definition on_enclosures (f : gmap (Z * string) EnclosureRow -> option (gmap (Z * string) EnclosureRow)) (t : Tables) : option Tables :=
  m ← f (t_enclosures t); Some (MkTables (t_systems t) m (t_drives t) (t_jobs t) (t_supplies t) (t_controllers t)).
Definition on_drives (f : gmap (Z * string) SfaDiskDriveRow -> option (gmap (Z * string) SfaDiskDriveRow)) (t : Tables) : option Tables :=
  m ← f (t_drives t); Some (MkTables (t_systems t) (t_enclosures t) m (t_jobs t) (t_supplies t) (t_controllers t)).
Definition on_jobs (f : gmap (Z * string) SfaJobRow -> option (gmap (Z * string) SfaJobRow)) (t : Tables) : option Tables :=
  m ← f (t_jobs t); Some (MkTables (t_systems t) (t_enclosures t) (t_drives t) m (t_supplies t) (t_controllers t)).
Definition on_supplies (f : gmap (Z * string * Z) SfaPowerSupplyRow -> option (gmap (Z * string * Z) SfaPowerSupplyRow)) (t : Tables) : option Tables :=
  m ← f (t_supplies t); Some (MkTables (t_systems t) (t_enclosures t) (t_drives t) (t_jobs t) m (t_controllers t)).
Definition on_controllers (f : gmap (Z * string) SfaControllerRow -> option (gmap (Z * string) SfaControllerRow)) (t : Tables) : option Tables :=
  m ← f (t_controllers t); Some (MkTables (t_systems t) (t_enclosures t) (t_drives t) (t_jobs t) (t_supplies t) m).

(** [build_changes]: the two statements, each left out when there is nothing to do. *)
Definition build_changes {T M} (upsert_fn : list T -> M -> option M) (delete_fn : list T -> M -> M) (changes : option (list T) * option (list T)) :
    (M -> option M) * (M -> option M) :=
  (fun m => match changes.1 with Some x => upsert_fn x m | None => Some m end,
   fun m => match changes.2 with Some x => Some (delete_fn x m) | None => Some m end).

Definition statements (x : SfaStorageSystem) (new old : Lists) : list (Tables -> option Tables) :=
  let '(enclosure_upsert, enclosure_remove) := build_changes batch_upsert batch_delete (get_changes (l_enclosures new) (l_enclosures old)) in
  let '(drive_upsert, drive_remove) := build_changes batch_upsert batch_delete (get_changes (l_drives new) (l_drives old)) in
  let '(job_upsert, job_remove) := build_changes batch_upsert batch_delete (get_changes (l_jobs new) (l_jobs old)) in
  let '(supply_upsert, supply_remove) := build_changes batch_upsert batch_delete (get_changes (l_supplies new) (l_supplies old)) in
  let '(controller_upsert, controller_remove) := build_changes batch_upsert batch_delete (get_changes (l_controllers new) (l_controllers old)) in
  [upsert_system x; on_enclosures enclosure_upsert; on_controllers controller_upsert; on_controllers controller_remove;
   on_supplies supply_upsert; on_supplies supply_remove; on_drives drive_upsert; on_jobs job_upsert; on_jobs job_remove;
   on_drives drive_remove; on_enclosures enclosure_remove].

(** Statements are executed in turn up to one that fails or that the database refuses; the number
    of those it lets pass is [passed]. *)
Fixpoint execute (passed : nat) (ss : list (Tables -> option Tables)) (t : Tables) {struct ss} : Tables * bool :=
  match ss with
  | [] => (t, true)
  | s :: ss =>
      match passed, s t with
      | S passed, Some t => execute passed ss t
      | _, _ => (t, false)
      end
  end.

Inductive SfaState : Type := Stopped (t : Tables) | Running (t : Tables) (old : Lists).

Inductive SfaLabel : Type :=
| LStart
| LRound (x : SfaStorageSystem) (new : Lists) (passed : nat)
| LFail.

Definition sfa_turn (l : SfaLabel) (s : SfaState) : option SfaState :=
  match l, s with
  | LStart, Stopped t =>
      Some (match (drives ← all (t_drives t); enclosures ← all (t_enclosures t); jobs ← all (t_jobs t); supplies ← all (t_supplies t);
                   controllers ← all (t_controllers t); Some (MkLists enclosures drives jobs supplies controllers)) with
            | Some old => Running t old
            | None => Stopped t
            end)
  | LRound x new passed, Running t old =>
      Some (match execute passed (statements x new old) t with
            | (t, true) => Running t new
            | (t, false) => Stopped t
            end)
  | LFail, Running t old => Some (Stopped t)
  | _, _ => None
  end.

Definition sfa_run (ls : list SfaLabel) (s : SfaState) : option SfaState := foldl (fun o l => o ≫= sfa_turn l) (Some s) ls.

(** * Properties *)

Section sync.
Context {T K R V : Type} `{Countable K} `{SfaTable T K R V}.
Implicit Types (xs new old : list T) (m : gmap K R).

#[local] Existing Instance changeable_eq_dec.

(** Rows are under their own keys, and can be read. *)
Definition rows_ok m : Prop := forall k r, m !! k = Some r -> row_key r = k /\ is_Some (of_row r).

(** The table has a row for each item, with its values in the columns that are updated, and no
    other rows. *)
Definition agrees xs m : Prop :=
  (forall x, x ∈ xs -> exists r, m !! key_of_record x = Some r /\ updated r = updated (to_row x)) /\
  (forall k r, m !! k = Some r -> exists x, x ∈ xs /\ key_of_record x = k).

Lemma upsert_row_ok m r : rows_ok m -> is_Some (of_row r) -> rows_ok (upsert_row m r).
Proof.
  intros Hm Hr k r'. unfold upsert_row. destruct (decide (row_key r = k)) as [<-|Hne]; [|rewrite lookup_insert_ne by done; apply Hm].
  rewrite lookup_insert_eq. intros [= <-]. destruct (m !! row_key r) as [o|] eqn:E; [|done].
  destruct (Hm _ _ E) as [Hk Ho]. split; [by apply conflict_key|by apply conflict_decodes].
Qed.

Lemma upsert_rows_ok xs m : rows_ok m -> rows_ok (foldl upsert_row m (to_row <$> xs)).
Proof.
  revert m. induction xs as [|x xs IH]; intros m Hm; [done|]. cbn. apply IH, upsert_row_ok; [done|]. rewrite of_to. eauto.
Qed.

Lemma batch_upsert_ok xs m m' : rows_ok m -> batch_upsert xs m = Some m' -> rows_ok m'.
Proof. unfold batch_upsert. intros Hm E. case_decide; simplify_eq. by apply upsert_rows_ok. Qed.

Lemma batch_delete_lookup xs m k : batch_delete xs m !! k = if decide (k ∈ key_of_record <$> xs) then None else m !! k.
Proof.
  unfold batch_delete. revert m. induction xs as [|x xs IH]; intros m; [done|]. cbn. rewrite IH.
  destruct (decide (key_of_record x = k)) as [<-|Hne].
  - rewrite lookup_delete_eq. repeat case_decide; set_solver.
  - rewrite lookup_delete_ne by done. repeat case_decide; set_solver.
Qed.

Lemma batch_delete_ok xs m : rows_ok m -> rows_ok (batch_delete xs m).
Proof. intros Hm k r. rewrite batch_delete_lookup. case_decide; [done|]. apply Hm. Qed.

Lemma upsert_rows_other (rs : list R) m k : k ∉ row_key <$> rs -> foldl upsert_row m rs !! k = m !! k.
Proof.
  revert m. induction rs as [|r rs IH]; intros m Hk; [done|]. cbn. rewrite IH by set_solver. unfold upsert_row.
  apply lookup_insert_ne. set_solver.
Qed.

Lemma upsert_rows_in (rs : list R) m r : NoDup (row_key <$> rs) -> r ∈ rs ->
  foldl upsert_row m rs !! row_key r = Some (match m !! row_key r with Some o => on_conflict o r | None => r end).
Proof.
  revert m. induction rs as [|r' rs IH]; intros m Hnd Hin; [by apply elem_of_nil in Hin|]. apply NoDup_cons in Hnd as [Hn Hnd]. cbn.
  apply elem_of_cons in Hin as [->|Hin].
  - rewrite upsert_rows_other by done. unfold upsert_row. by rewrite lookup_insert_eq.
  - rewrite IH by done. unfold upsert_row. rewrite lookup_insert_ne; [done|]. intros E. apply Hn. rewrite E. by apply list_elem_of_fmap_2.
Qed.

Lemma changes_keys new old : unique_ids new -> NoDup (key_of_record <$> default [] (get_changes new old).1).
Proof.
  intros Hu. apply NoDup_fmap_2_strong; [|apply get_changes_nodup]. intros x y [Hx _]%get_changes_elem [Hy _]%get_changes_elem E.
  apply Hu; [done..|]. by apply row_id.
Qed.

(** Writing the changes makes a table that agrees with the old list agree with the new one. *)
Lemma table_synced new old m : unique_ids new -> unique_ids old -> rows_ok m -> agrees old m ->
  exists m1 m2, (build_changes batch_upsert batch_delete (get_changes new old)).1 m = Some m1 /\
    (build_changes batch_upsert batch_delete (get_changes new old)).2 m1 = Some m2 /\ agrees new m2.
Proof.
  intros Hn Ho Hm [Hin Honly]. set (ups := default [] (get_changes new old).1). set (dels := default [] (get_changes new old).2).
  pose proof (changes_keys new old Hn) as Hkeys. fold ups in Hkeys.
  exists (foldl upsert_row m (to_row <$> ups)), (batch_delete dels (foldl upsert_row m (to_row <$> ups))).
  split; [|split].
  - unfold build_changes, ups in *. cbn [fst snd]. destruct (fst (get_changes new old)); [|done]. unfold batch_upsert. by rewrite decide_True.
  - unfold build_changes, dels. cbn [fst snd]. by destruct (snd (get_changes new old)).
  - assert (NoDup (row_key <$> (to_row <$> ups))) as Hnd by by rewrite <- list_fmap_compose. split.
    + intros x Hx. rewrite batch_delete_lookup, decide_False.
      2:{ intros (y & E & [_ Hy]%get_changes_elem)%list_elem_of_fmap. apply (Hy x Hx). by apply row_id. }
      destruct (decide (x ∈ ups)) as [Hu|Hu].
      * exists (match m !! key_of_record x with Some o => on_conflict o (to_row x) | None => to_row x end).
        split; [apply upsert_rows_in; [done|by apply list_elem_of_fmap_2]|].
        destruct (m !! key_of_record x) as [o|] eqn:E; [|done]. apply conflict_updates. by destruct (Hm _ _ E).
      * assert (x ∈ old) as Hxo by (apply dec_stable; intros Hxo; apply Hu; by apply get_changes_elem).
        rewrite upsert_rows_other; [by apply Hin|]. intros (r & E & (y & -> & Hy)%list_elem_of_fmap)%list_elem_of_fmap.
        apply Hu. assert (x = y) as ->; [|done]. apply get_changes_elem in Hy as [Hy _]. apply Hn; [done..|]. by apply row_id.
    + intros k r Hk. rewrite batch_delete_lookup in Hk. case_decide as Hd; [done|].
      destruct (decide (k ∈ key_of_record <$> ups)) as [(y & -> & [Hy _]%get_changes_elem)%list_elem_of_fmap|Hu]; [eauto|].
      rewrite upsert_rows_other in Hk by by rewrite <- list_fmap_compose. destruct (Honly _ _ Hk) as (x & Hx & <-).
      destruct (decide (Exists (fun y => key_of_record y = key_of_record x) new)) as [(y & Hy & E)%Exists_exists|He]; [eauto|].
      destruct Hd. apply list_elem_of_fmap_2, get_changes_elem. split; [done|]. intros y Hy E. apply He, Exists_exists. exists y. split; [done|].
      by apply row_id.
Qed.

(** What the service reads when it starts. *)
Lemma all_read m : rows_ok m -> exists xs, all m = Some xs /\ agrees xs m /\ unique_ids xs.
Proof.
  intros Hm. destruct (mapM_is_Some_2 of_row (map_to_list m).*2) as [xs E].
  { apply Forall_forall. intros r ((k & r') & -> & Hr%elem_of_map_to_list)%list_elem_of_fmap. by destruct (Hm _ _ Hr). }
  exists xs. split; [done|]. apply mapM_Some in E.
  assert (forall x, x ∈ xs -> exists k, m !! k = Some (to_row x) /\ key_of_record x = k) as Hxs.
  { intros x Hx. destruct (elem_of_Forall2_r _ _ _ _ E Hx) as (r & ((k & r') & -> & Hr%elem_of_map_to_list)%list_elem_of_fmap & Ex).
    apply to_of in Ex as Er. cbn in Er. subst r'. exists k. split; [done|]. by destruct (Hm _ _ Hr). }
  split; [split|].
  - intros x Hx. destruct (Hxs x Hx) as (k & Hk & <-). eauto.
  - intros k r Hk. destruct (elem_of_Forall2_l _ _ _ r E) as (x & Hx & Ex).
    { apply list_elem_of_fmap. exists (k, r). split; [done|]. by apply elem_of_map_to_list. }
    apply to_of in Ex as <-. exists x. split; [done|]. by destruct (Hm _ _ Hk).
  - intros x y Hx Hy Eid%row_id. destruct (Hxs x Hx) as (k & Hk & Kx), (Hxs y Hy) as (k' & Hk' & Ky).
    assert (to_row x = to_row y) as Er by (unfold key_of_record in *; congruence).
    pose proof (of_to x) as Ox. rewrite Er, of_to in Ox. by injection Ox.
Qed.
End sync.

(** ** Requests *)

Lemma retry_fn_loop {Url E A} (endpoints : list Url) (d : Url) (f : Url -> Result E A) fuel k :
  (k < length endpoints)%nat -> (length endpoints <= k + fuel)%nat ->
  (forall i u, (i < k)%nat -> endpoints !! i = Some u -> exists e, f u = Err e) ->
  exists r n u, @retry_loop E unit A (sfa_policy (Z.of_nat (length endpoints) - 1)) (fun c => f (nth c endpoints d)) fuel k tt [] = Some (Returns r, [], S n) /\
    endpoints !! n = Some u /\ f u = r /\
    (forall i u, (i < n)%nat -> endpoints !! i = Some u -> exists e, f u = Err e) /\
    (forall e, r = Err e -> S n = length endpoints).
Proof.
  revert k. induction fuel as [|fuel IH]; intros k Hk Hf Hpast; [lia|]. cbn [retry_loop].
  destruct (lookup_lt_is_Some_2 endpoints k Hk) as [u Hu]. rewrite (nth_lookup_Some _ _ d _ Hu).
  destruct (f u) as [a|e] eqn:Ef; [by exists (Ok a), k, u|]. cbn [on_err closure_policy sfa_policy].
  destruct (Z.of_nat k <? Z.of_nat (length endpoints) - 1) eqn:Hlt.
  - apply IH; [lia..|]. intros i v Hi Hv. destruct (decide (i = k)) as [->|Hne]; [|apply (Hpast i v); [lia|done]].
    rewrite Hu in Hv. injection Hv as <-. eauto.
  - exists (Err e), k, u. split_and!; [done..|]. intros _ _. lia.
Qed.

(** The endpoints are tried in turn, each once and without waiting, up to the first that answers;
    an error is returned only when all have failed, and it is the last one's. *)
Theorem retry_fn_first {Url E A} (endpoints : list Url) (f : Url -> Result E A) :
  endpoints <> [] ->
  exists r n u, retry_fn endpoints f = Some (Returns r, [], S n) /\ endpoints !! n = Some u /\ f u = r /\
    (forall i u, (i < n)%nat -> endpoints !! i = Some u -> exists e, f u = Err e) /\
    (forall e, r = Err e -> S n = length endpoints).
Proof.
  destruct endpoints as [|first rest]; [done|]. intros _. unfold retry_fn, retry_future.
  apply retry_fn_loop; [cbn; lia..|]. intros i u Hi. lia.
Qed.

Lemma retry_fn_first_witness :
  exists r n u, retry_fn ["a"; "b"; "c"] (fun u => if String.eqb u "b" then Ok 7 else Err u) = Some (Returns r, [], S n) /\
    ["a"; "b"; "c"] !! n = Some u /\ r = Ok 7.
Proof.
  destruct (retry_fn_first ["a"; "b"; "c"] (fun u => if String.eqb u "b" then Ok 7 else Err u) ltac:(discriminate)) as (r & n & u & E & Hu & _).
  exists r, n, u. split; [exact E|]. split; [exact Hu|]. vm_compute in E. by injection E as <- _.
Defined.

(** Every group of endpoints has one, so the service never indexes an empty list. *)
Lemma endpoints_not_empty {Url} (parse_url : string -> option Url) vars groups :
  get_sfa_endpoints parse_url vars = Some (Some groups) -> groups <> [] /\ Forall (fun g => g <> []) groups.
Proof.
  unfold get_sfa_endpoints. intros (gs & _ & E)%bind_Some. set (l := List.filter _ gs) in E.
  assert (Forall (fun g => g <> []) l) as Hl.
  { apply Forall_forall. intros g [_ Hg]%list_elem_of_In%filter_In ->. done. }
  destruct l as [|g l']; [done|]. injection E as <-. done.
Qed.

Lemma request_total {Url E A} (endpoints : list Url) (f : Url -> Result E A) : endpoints <> [] ->
  exists r u, request endpoints f = Some r /\ u ∈ endpoints /\ f u = r.
Proof.
  destruct endpoints as [|first rest]; [done|]. intros _. unfold request, retry_fn, retry_future.
  destruct (retry_fn_loop (first :: rest) first f (S (length (first :: rest))) 0) as (r & n & u & -> & Hu & Hf & _); [cbn; lia..|intros i u Hi; lia|].
  exists r, u. split_and!; [done| |done]. by apply list_elem_of_lookup_2 in Hu.
Qed.

Lemma fetched_system {Url E A} (of_class : SfaClassError -> E) gi ei class (tf : string -> Instance_ -> Result SfaClassError A) (sys : A -> string) (url : Url) l :
  (forall s i a, tf s i = Ok a -> sys a = s) -> fetch_instances of_class gi ei class tf url = Ok l ->
  exists x, fetch_sfa_storage_system of_class gi url = Ok x /\ Forall (fun a => sys a = ss_uuid x) l.
Proof.
  intros Hsys. unfold fetch_instances. destruct (fetch_sfa_storage_system of_class gi url) as [x|]; [|done]. cbn.
  destruct (ei url class) as [ys|]; [|done]. cbn. destruct (mapM (tf (ss_uuid x)) ys) as [l'|] eqn:E1; [|done]. cbn. intros [= <-].
  exists x. split; [done|]. apply mapM_Ok in E1. induction E1; constructor; eauto.
Qed.

(** The array that a record is given. *)
Ltac inv_try := intros H; repeat (apply bind_Ok in H as (? & _ & H)); by injection H as <-.

Lemma enclosure_system s i x : SfaEnclosure_try_from s i = Ok x -> en_storage_system x = s.
Proof. inv_try. Qed.
Lemma drive_system s i x : SfaDiskDrive_try_from s i = Ok x -> dd_storage_system x = s.
Proof. inv_try. Qed.
Lemma job_system s i x : SfaJob_try_from s i = Ok x -> sj_storage_system x = s.
Proof. inv_try. Qed.
Lemma supply_system s i x : SfaPowerSupply_try_from s i = Ok x -> ps_storage_system x = s.
Proof. inv_try. Qed.
Lemma controller_system s i x : SfaController_try_from s i = Ok x -> ct_storage_system x = s.
Proof. inv_try. Qed.

(** A round does not panic; every item it reports carries the identifier of the array at one of the
    endpoints, the one that its list was read from. *)
Theorem round_of_array {Url E} (of_class : SfaClassError -> E) (get_instance : nat -> Url -> Result E Instance_) enumerate_instances endpoints :
  endpoints <> [] ->
  exists r, fetch_round of_class get_instance enumerate_instances endpoints = Some r /\
    forall x new, r = Ok (x, new) ->
      exists u1 u2 u3 u4 u5 u6 y1 y3 y4 y5 y6, [u1; u2; u3; u4; u5; u6] ⊆ endpoints /\
        fetch_sfa_storage_system of_class (get_instance 2%nat) u2 = Ok x /\
        fetch_sfa_storage_system of_class (get_instance 1%nat) u1 = Ok y1 /\ Forall (fun a => en_storage_system a = ss_uuid y1) (l_enclosures new) /\
        fetch_sfa_storage_system of_class (get_instance 3%nat) u3 = Ok y3 /\ Forall (fun a => dd_storage_system a = ss_uuid y3) (l_drives new) /\
        fetch_sfa_storage_system of_class (get_instance 4%nat) u4 = Ok y4 /\ Forall (fun a => sj_storage_system a = ss_uuid y4) (l_jobs new) /\
        fetch_sfa_storage_system of_class (get_instance 5%nat) u5 = Ok y5 /\ Forall (fun a => ps_storage_system a = ss_uuid y5) (l_supplies new) /\
        fetch_sfa_storage_system of_class (get_instance 6%nat) u6 = Ok y6 /\ Forall (fun a => ct_storage_system a = ss_uuid y6) (l_controllers new).
Proof.
  intros Hne. unfold fetch_round.
  destruct (request_total endpoints (fetch_sfa_enclosures of_class (get_instance 1%nat) (enumerate_instances 1%nat)) Hne) as (r1 & u1 & -> & I1 & F1),
    (request_total endpoints (fetch_sfa_storage_system of_class (get_instance 2%nat)) Hne) as (r2 & u2 & -> & I2 & F2),
    (request_total endpoints (fetch_sfa_disk_drives of_class (get_instance 3%nat) (enumerate_instances 3%nat)) Hne) as (r3 & u3 & -> & I3 & F3),
    (request_total endpoints (fetch_sfa_jobs of_class (get_instance 4%nat) (enumerate_instances 4%nat)) Hne) as (r4 & u4 & -> & I4 & F4),
    (request_total endpoints (fetch_sfa_power_supply of_class (get_instance 5%nat) (enumerate_instances 5%nat)) Hne) as (r5 & u5 & -> & I5 & F5),
    (request_total endpoints (fetch_sfa_controllers of_class (get_instance 6%nat) (enumerate_instances 6%nat)) Hne) as (r6 & u6 & -> & I6 & F6).
  destruct r1 as [l1|], r2 as [x2|], r3 as [l3|], r4 as [l4|], r5 as [l5|], r6 as [l6|]; cbn; eexists; (split; [reflexivity|]); try done.
  intros x new [= <- <-].
  destruct (fetched_system _ _ _ _ _ _ _ _ enclosure_system F1) as (y1 & ? & ?), (fetched_system _ _ _ _ _ _ _ _ drive_system F3) as (y3 & ? & ?),
    (fetched_system _ _ _ _ _ _ _ _ job_system F4) as (y4 & ? & ?), (fetched_system _ _ _ _ _ _ _ _ supply_system F5) as (y5 & ? & ?),
    (fetched_system _ _ _ _ _ _ _ _ controller_system F6) as (y6 & ? & ?).
  exists u1, u2, u3, u4, u5, u6, y1, y3, y4, y5, y6. split_and!; try done. set_solver.
Qed.

(** ** The tables and the lists *)

Definition tables_ok (t : Tables) : Prop :=
  rows_ok (t_enclosures t) /\ rows_ok (t_drives t) /\ rows_ok (t_jobs t) /\ rows_ok (t_supplies t) /\ rows_ok (t_controllers t).

Definition tables_agree (l : Lists) (t : Tables) : Prop :=
  agrees (l_enclosures l) (t_enclosures t) /\ agrees (l_drives l) (t_drives t) /\ agrees (l_jobs l) (t_jobs t) /\
  agrees (l_supplies l) (t_supplies t) /\ agrees (l_controllers l) (t_controllers t).

(** The array does not report two items with the same key. *)
Definition lists_unique (l : Lists) : Prop :=
  unique_ids (l_enclosures l) /\ unique_ids (l_drives l) /\ unique_ids (l_jobs l) /\ unique_ids (l_supplies l) /\ unique_ids (l_controllers l).

Definition label_ok (l : SfaLabel) : Prop := match l with LRound _ new _ => lists_unique new | _ => True end.

Definition state_ok (s : SfaState) : Prop :=
  match s with
  | Stopped t => tables_ok t
  | Running t old => tables_ok t /\ tables_agree old t /\ lists_unique old
  end.

Section changes.
Context {T K R V : Type} `{Countable K} `{SfaTable T K R V}.

Lemma changes_ok changes (m m' : gmap K R) : rows_ok m ->
  ((build_changes batch_upsert batch_delete changes).1 m = Some m' -> rows_ok m') /\
  ((build_changes batch_upsert batch_delete changes).2 m = Some m' -> rows_ok m').
Proof.
  intros Hm. unfold build_changes. cbn [fst snd]. destruct changes as [[u|] [d|]]; cbn [fst snd]; split; intros E; try by simplify_eq.
  all: try by eapply batch_upsert_ok. all: injection E as <-; by apply batch_delete_ok.
Qed.
End changes.

(** The statements of one table. *)
Definition upserts {T K R V} `{Countable K} `{SfaTable T K R V} (new old : list T) : gmap K R -> option (gmap K R) :=
  (build_changes batch_upsert batch_delete (get_changes new old)).1.
Definition removals {T K R V} `{Countable K} `{SfaTable T K R V} (new old : list T) : gmap K R -> option (gmap K R) :=
  (build_changes batch_upsert batch_delete (get_changes new old)).2.

Lemma statements_eq x new old : statements x new old =
  [upsert_system x; on_enclosures (upserts (l_enclosures new) (l_enclosures old)); on_controllers (upserts (l_controllers new) (l_controllers old));
   on_controllers (removals (l_controllers new) (l_controllers old)); on_supplies (upserts (l_supplies new) (l_supplies old));
   on_supplies (removals (l_supplies new) (l_supplies old)); on_drives (upserts (l_drives new) (l_drives old)); on_jobs (upserts (l_jobs new) (l_jobs old));
   on_jobs (removals (l_jobs new) (l_jobs old)); on_drives (removals (l_drives new) (l_drives old)); on_enclosures (removals (l_enclosures new) (l_enclosures old))].
Proof. reflexivity. Qed.

(** Each statement keeps the rows readable, whether or not those after it are executed. *)
Lemma statements_ok x new old : Forall (fun s : Tables -> option Tables => forall t t', tables_ok t -> s t = Some t' -> tables_ok t') (statements x new old).
Proof.
  rewrite statements_eq. repeat apply Forall_cons_2; [..|apply Forall_nil_2]; intros t t' (He & Hd & Hj & Hs & Hc) E.
  1: by injection E as <-.
  all: apply bind_Some in E as (m & Em & [= <-]); apply changes_ok in Em; [|done]; by split_and!.
Qed.

Lemma execute_ok ss n t : Forall (fun s : Tables -> option Tables => forall t t', tables_ok t -> s t = Some t' -> tables_ok t') ss ->
  tables_ok t -> tables_ok (execute n ss t).1.
Proof.
  intros Hss. revert n t. induction Hss as [|s ss Hs Hss IH]; intros n t Ht; [done|]. cbn. destruct n; [done|].
  destruct (s t) as [t'|] eqn:E; [|done]. eapply IH, Hs; eauto.
Qed.

(** A round that is not refused. *)
Definition run_all (ss : list (Tables -> option Tables)) (t : Tables) : option Tables := foldl (fun o s => o ≫= s) (Some t) ss.

Lemma run_all_none ss : foldl (fun (o : option Tables) s => o ≫= s) None ss = None.
Proof. by induction ss. Qed.

Lemma execute_all ss n t t' : execute n ss t = (t', true) <-> run_all ss t = Some t' /\ (length ss <= n)%nat.
Proof.
  revert n t. induction ss as [|s ss IH]; intros n t; unfold run_all; cbn.
  { split; [intros [= <-]; split; [done|lia]|intros [[= <-] _]; done]. }
  destruct n as [|n]; [split; [done|lia]|]. destruct (s t) as [t1|]; cbn.
  - rewrite IH. unfold run_all. split; intros [E Hl]; (split; [done|lia]).
  - rewrite run_all_none. split; [done|by intros []].
Qed.

Lemma round_agrees x new old t : tables_ok t -> tables_agree old t -> lists_unique new -> lists_unique old ->
  exists t', run_all (statements x new old) t = Some t' /\ tables_agree new t' /\ t_systems t' = <[ss_uuid x := x]> (t_systems t).
Proof.
  intros (He & Hd & Hj & Hs & Hc) (Ae & Ad & Aj & As & Ac) (Ne & Nd & Nj & Ns & Nc) (Oe & Od & Oj & Os & Oc).
  destruct (table_synced _ _ _ Ne Oe He Ae) as (e1 & e2 & E1 & E2 & Re), (table_synced _ _ _ Nd Od Hd Ad) as (d1 & d2 & D1 & D2 & Rd),
    (table_synced _ _ _ Nj Oj Hj Aj) as (j1 & j2 & J1 & J2 & Rj), (table_synced _ _ _ Ns Os Hs As) as (s1 & s2 & S1 & S2 & Rs),
    (table_synced _ _ _ Nc Oc Hc Ac) as (c1 & c2 & C1 & C2 & Rc).
  exists (MkTables (<[ss_uuid x := x]> (t_systems t)) e2 d2 j2 s2 c2). split; [|by split_and!].
  rewrite statements_eq. unfold run_all, upserts, removals, upsert_system, on_enclosures, on_drives, on_jobs, on_supplies, on_controllers.
  cbn -[build_changes get_changes]. by repeat (first [rewrite E1|rewrite E2|rewrite D1|rewrite D2|rewrite J1|rewrite J2|rewrite S1|rewrite S2|rewrite C1|rewrite C2]; cbn -[build_changes get_changes]).
Qed.

Lemma start_reads t : tables_ok t -> exists old, sfa_turn LStart (Stopped t) = Some (Running t old) /\ tables_agree old t /\ lists_unique old.
Proof.
  intros (He & Hd & Hj & Hs & Hc).
  destruct (all_read _ He) as (e & E & Ae & Ue), (all_read _ Hd) as (d & D & Ad & Ud), (all_read _ Hj) as (j & J & Aj & Uj),
    (all_read _ Hs) as (s & S & As & Us), (all_read _ Hc) as (c & C & Ac & Uc).
  exists (MkLists e d j s c). split; [|by split; split_and!]. cbn -[all]. by rewrite D, E, J, S, C.
Qed.

Lemma sfa_turn_ok l s s' : state_ok s -> label_ok l -> sfa_turn l s = Some s' -> state_ok s'.
Proof.
  intros Hs Hl E. destruct l as [|x new n|], s as [t|t old]; try discriminate E.
  - destruct (start_reads t Hs) as (old & E' & Hag). rewrite E' in E. by injection E as <-.
  - destruct Hs as (Ht & Ha & Hu). cbn -[execute statements] in E. destruct (execute n (statements x new old) t) as [t' b] eqn:Ex.
    pose proof (execute_ok _ n t (statements_ok x new old) Ht) as Ht'. rewrite Ex in Ht'.
    destruct b; injection E as <-; [|exact Ht']. apply execute_all in Ex as [Ex _].
    destruct (round_agrees x new old t Ht Ha Hl Hu) as (t1 & E1 & Hag & _). rewrite E1 in Ex. injection Ex as ->. done.
  - injection E as <-. apply Hs.
Qed.

Lemma sfa_run_ok ls s s' : state_ok s -> Forall label_ok ls -> sfa_run ls s = Some s' -> state_ok s'.
Proof.
  unfold sfa_run. intros Hs Hls. revert s'. induction ls as [|l ls IH] using rev_ind; intros s'; [by intros [= <-]|].
  apply Forall_app in Hls as [Hls Hl]. rewrite foldl_app. cbn. intros (s1 & E1 & E)%bind_Some.
  eapply sfa_turn_ok; [by apply (IH Hls)|by apply Forall_cons in Hl as [Hl _]|done].
Qed.

(** ** The tables follow the array *)

(** C21: From any readable tables, whatever rounds, refused statements, failed requests and
    restarts came before: a service that is stopped can start and reads lists that agree with the
    tables; one that is running has tables that agree with the lists it compares with, and after a
    round whose statements all pass, every table has exactly the rows of the items the array
    reported, with their values in the columns that are updated, and the storage system is
    stored. No list of the array has two items with one key. *)
Theorem sfa_synced t0 ls s :
  tables_ok t0 -> Forall label_ok ls -> sfa_run ls (Stopped t0) = Some s ->
  match s with
  | Stopped t => exists old, sfa_turn LStart s = Some (Running t old) /\ tables_agree old t
  | Running t old =>
      tables_agree old t /\
      forall x new passed, lists_unique new -> (11 <= passed)%nat ->
        exists t', sfa_turn (LRound x new passed) s = Some (Running t' new) /\ tables_agree new t' /\
          t_systems t' = <[ss_uuid x := x]> (t_systems t)
  end.
Proof.
  intros Ht Hls E. apply sfa_run_ok in E as Hs; [|done..]. destruct s as [t|t old].
  - destruct (start_reads t Hs) as (old & Es & Ha & _). eauto.
  - destruct Hs as (Hok & Ha & Hu). split; [done|]. intros x new passed Hn Hp.
    destruct (round_agrees x new old t Hok Ha Hn Hu) as (t' & Er & Hag & Hsys). exists t'. split; [|done].
    assert (execute passed (statements x new old) t = (t', true)) as Ex by (apply execute_all; split; [done|by rewrite statements_eq]).
    cbn -[execute statements]. by rewrite Ex.
Qed.

Definition empty_tables : Tables := MkTables ∅ ∅ ∅ ∅ ∅ ∅.
Definition no_lists : Lists := MkLists [] [] [] [] [].
Definition demo_enclosure (model : string) : SfaEnclosure := MkEnclosure 1 "enc" HealthState_Ok "" HealthState_Ok model 2 EnclosureType_Disk "A" "sys".
Definition demo_lists (model : string) : Lists := MkLists [demo_enclosure model] [] [] [] [].
Definition demo_system : SfaStorageSystem := MkStorageSystem "sys" "SFA14KX" "" HealthState_Ok HealthState_Ok.

Lemma empty_tables_ok : tables_ok empty_tables.
Proof. split_and!; intros k r Hr; discriminate Hr. Qed.

Lemma demo_unique model : lists_unique (demo_lists model).
Proof. split_and!; intros x y Hx Hy _; [|by apply elem_of_nil in Hx..]. by apply list_elem_of_singleton in Hx as ->, Hy as ->. Qed.

Lemma sfa_synced_witness :
  exists t, sfa_turn (LRound demo_system (demo_lists "SS9012") 11) (Running empty_tables no_lists) = Some (Running t (demo_lists "SS9012")) /\
    tables_agree (demo_lists "SS9012") t.
Proof.
  destruct (sfa_synced empty_tables [LStart; LFail; LStart] (Running empty_tables no_lists) empty_tables_ok) as [_ H].
  - by repeat apply Forall_cons_2.
  - vm_compute. reflexivity.
  - destruct (H demo_system (demo_lists "SS9012") 11%nat (demo_unique _) (le_n 11)) as (t & E & Ha & _). exists t. split; [exact E|exact Ha].
Defined.

(** ** What is not updated *)

(** The model and the canister location of an enclosure are not among the columns that a conflict
    updates: when the array reports another model for an enclosure it had reported, every
    statement of the round passes, and the row still has the old model. *)
Theorem enclosure_model_stale :
  exists t, sfa_run [LStart; LRound demo_system (demo_lists "SS9012") 11; LRound demo_system (demo_lists "SS8462") 11] (Stopped empty_tables) =
      Some (Running t (demo_lists "SS8462")) /\
    t_enclosures t !! (1, "sys") = Some (enclosure_row (demo_enclosure "SS9012")).
Proof. eexists. split; [vm_compute; reflexivity|]. vm_compute. reflexivity. Qed.
