(* ===== verification/Routes.v ===== *)
(** * Routes of the page ([iml-gui/crate/src/route.rs], [extensions.rs])

    A route is shown in the browser as a path of segments, under the base of the page when it has
    one, and a path that the browser reports is turned back into a route. *)
From S2P Require Import Prelude RustStd.
From stdpp Require Import base list strings.
From Stdlib Require Import Ascii.
Open Scope string_scope.

Inductive Route : Type :=
| About | Dashboard | FsDashboard (id : string) | ServerDashboard (id : string) | TargetDashboard (id : string)
| Filesystems | Filesystem (id : string) | Jobstats | Login | Mgt | NotFound | PowerControl | Servers | Server (id : string)
| OstPools | OstPool (id : string) | Targets | Target (id : string) | Users | User (id : string) | Volumes
| ServerVolumes (id : string) | Volume (id : string) | SfaEnclosure (id : string) | Snapshots | Stratagem.

Section base.
(** [UI_BASE]: the segment that the page is served under. *)
Context (ui_base : option string).

Definition path (r : Route) : list string :=
  let p := match r with
    | About => ["about"]
    | Dashboard => ["dashboard"]
    | FsDashboard id => ["dashboard"; "fs"; id]
    | ServerDashboard id => ["dashboard"; "server"; id]
    | TargetDashboard id => ["dashboard"; "target"; id]
    | Filesystems => ["filesystems"]
    | Filesystem id => ["filesystems"; id]
    | Jobstats => ["jobstats"]
    | Login => ["login"]
    | Mgt => ["mgt"]
    | NotFound => ["404"]
    | OstPools => ["ost_pools"]
    | OstPool id => ["ost_pools"; id]
    | PowerControl => ["power_control"]
    | Servers => ["servers"]
    | Server id => ["servers"; id]
    | Targets => ["targets"]
    | Target id => ["targets"; id]
    | Users => ["users"]
    | User id => ["users"; id]
    | Volumes => ["volumes"]
    | ServerVolumes id => ["servers"; id; "volumes"]
    | Volume id => ["volumes"; id]
    | SfaEnclosure id => ["sfa_enclosure"; id]
    | Snapshots => ["snapshots"]
    | Stratagem => ["stratagem"]
    end in
  match ui_base with Some base => base :: p | None => p end.

Definition to_href (r : Route) : string := "/" +:+ str_join "/" (path r).

(** [UrlExt::get_path], of the segments of a URL. *)
Definition get_path (url : list string) : list string :=
  match ui_base, url with
  | Some base, x :: rest => if String.eqb x base then rest else url
  | _, _ => url
  end.

(** [dashboard/..]. *)
Definition dashboard_route (path : list string) : Route :=
  match path with
  | "fs" :: name :: _ => FsDashboard name
  | "server" :: name :: _ => ServerDashboard name
  | "target" :: name :: _ => TargetDashboard name
  | _ => Dashboard
  end.

Definition item_route (all : Route) (one : string -> Route) (path : list string) : Route :=
  match path with [] => all | id :: _ => one id end.

Definition server_route (path : list string) : Route :=
  match path with
  | [] => Servers
  | [id] => Server id
  | id :: x :: _ => if String.eqb x "volumes" then ServerVolumes id else NotFound
  end.

Definition Route_from (url : list string) : Route :=
  match get_path url with
  | [] => Dashboard
  | x :: rest =>
      if String.eqb x "about" then About
      else if String.eqb x "dashboard" then dashboard_route rest
      else if String.eqb x "filesystems" then item_route Filesystems Filesystem rest
      else if String.eqb x "" then Dashboard
      else if String.eqb x "jobstats" then Jobstats
      else if String.eqb x "login" then Login
      else if String.eqb x "mgt" then Mgt
      else if String.eqb x "ost_pools" then item_route OstPools OstPool rest
      else if String.eqb x "power_control" then PowerControl
      else if String.eqb x "servers" then server_route rest
      else if String.eqb x "targets" then item_route Targets Target rest
      else if String.eqb x "users" then item_route Users User rest
      else if String.eqb x "volumes" then item_route Volumes Volume rest
      else if String.eqb x "sfa_enclosure" then item_route NotFound SfaEnclosure rest
      else if String.eqb x "snapshots" then Snapshots
      else if String.eqb x "stratagem" then Stratagem
      else NotFound
  end.

(** The segments of an address, as the browser gives them back. *)
Definition segments (href : string) : list string := drop 1 (str_split "/" href).

(** ** Properties *)

Definition route_id (r : Route) : option string :=
  match r with
  | FsDashboard id | ServerDashboard id | TargetDashboard id | Filesystem id | Server id | OstPool id | Target id | User id
  | ServerVolumes id | Volume id | SfaEnclosure id => Some id
  | _ => None
  end.

Lemma get_path_path r : get_path (path r) = match ui_base with Some base => drop 1 (path r) | None => path r end.
Proof. unfold get_path, path. destruct ui_base as [base|]; [by rewrite String.eqb_refl|]. by destruct r. Qed.

Lemma from_path r : Route_from (path r) = r.
Proof. unfold Route_from. rewrite get_path_path. unfold path. destruct ui_base; by destruct r. Qed.

Lemma no_slash r :
  (forall b, ui_base = Some b -> contains_char "/" b = false) -> (forall id, route_id r = Some id -> contains_char "/" id = false) ->
  Forall (fun x => contains_char "/" x = false) (path r).
Proof.
  intros Hb Hi. assert (forall l, (forall b, ui_base = Some b -> contains_char "/" b = false) -> Forall (fun x => contains_char "/" x = false) l ->
    Forall (fun x => contains_char "/" x = false) (match ui_base with Some b => b :: l | None => l end)) as H.
  { intros l Hb' Hl. destruct ui_base; [constructor; auto|done]. }
  apply H; [done|]. destruct r; cbn in Hi; repeat constructor; auto.
Qed.

Lemma href_segments r :
  (forall b, ui_base = Some b -> contains_char "/" b = false) -> (forall id, route_id r = Some id -> contains_char "/" id = false) ->
  segments (to_href r) = path r.
Proof.
  intros Hb Hi. unfold segments, to_href. change ("/" +:+ ?s) with (String "/" s). cbn [str_split Ascii.eqb Bool.eqb drop].
  apply str_split_join; [|by apply no_slash]. unfold path. by destruct ui_base, r.
Qed.

(** Whatever the base, the link of a route leads back to that route, if neither the base nor the
    identifier in the route has a slash. *)
Theorem route_round_trip r :
  (forall b, ui_base = Some b -> contains_char "/" b = false) -> (forall id, route_id r = Some id -> contains_char "/" id = false) ->
  Route_from (segments (to_href r)) = r.
Proof. intros Hb Hi. rewrite href_segments by done. apply from_path. Qed.

(** Two routes with the same link are the same route. *)
Corollary to_href_inj r r' :
  (forall b, ui_base = Some b -> contains_char "/" b = false) ->
  (forall id, route_id r = Some id \/ route_id r' = Some id -> contains_char "/" id = false) ->
  to_href r = to_href r' -> r = r'.
Proof. intros Hb Hi E. apply (f_equal segments) in E. rewrite !href_segments in E by auto. by rewrite <- (from_path r), <- (from_path r'), E. Qed.
End base.

Lemma route_round_trip_witness : Route_from (Some "ui") (segments (to_href (Some "ui") (ServerVolumes "7"))) = ServerVolumes "7".
Proof. apply (route_round_trip (Some "ui") (ServerVolumes "7")); intros ? [= <-]; reflexivity. Defined.
