(* ===== verification/Paging.v ===== *)
(** * Paging of lists ([iml-gui/crate/src/components/paging.rs], [dropdown.rs])

    A list is shown a page at a time; the page is the range [offset .. end()]. The page's program
    runs as WebAssembly, where [usize] has 32 bits; sums wrap around as in a release build. *)
From S2P Require Import Prelude RustStd.
From stdpp Require Import base sets list strings.
From Stdlib Require Import ZArith Lia.
Open Scope Z_scope.

(** ** The list of options *)

Inductive Dropdown : Type := Dropdown_Open | Dropdown_Close.

Inductive DropdownMsg : Type := DropdownMsg_Close | DropdownMsg_Open | DropdownMsg_Toggle.

Definition dropdown_update (msg : DropdownMsg) (model : Dropdown) : Dropdown :=
  match msg with
  | DropdownMsg_Open => Dropdown_Open
  | DropdownMsg_Close => Dropdown_Close
  | DropdownMsg_Toggle => match model with Dropdown_Open => Dropdown_Close | Dropdown_Close => Dropdown_Open end
  end.

(** ** Pages *)

Definition usize_add (x y : Z) : Z := (x + y) mod 2 ^ 32.

Definition ROW_OPTS : list Z := [10; 25; 50; 100].

Record Paging : Type := MkPaging { total : Z; limit : Z; offset : Z; dropdown : Dropdown }.

Definition Paging_default : Paging := MkPaging 0 10 0 Dropdown_Close.
Definition Paging_new (n : Z) : Paging := MkPaging n (limit Paging_default) (offset Paging_default) (dropdown Paging_default).

Definition has_more (p : Paging) : bool := usize_add (limit p) (offset p) <? total p.
Definition has_less (p : Paging) : bool := negb (offset p =? 0).
Definition has_pages (p : Paging) : bool := has_more p || has_less p.
Definition page_end (p : Paging) : Z := Z.min (usize_add (offset p) (limit p)) (total p).

Definition prev_page (p : Paging) : Paging :=
  MkPaging (total p) (limit p) (if offset p <? limit p then 0 else offset p - limit p) (dropdown p).
Definition next_page (p : Paging) : Paging := MkPaging (total p) (limit p) (page_end p) (dropdown p).
Definition range (p : Paging) : Z * Z := (offset p, page_end p).

Inductive PagingMsg : Type :=
| PDropdown (msg : DropdownMsg)
| PNext
| PNoop
| PPrev
| PSetLimit (limit : Z)
| PSetOffset (offset : Z)
| PSetTotal (total : Z).

(** The model, and the messages that are sent. *)
Definition paging_update (msg : PagingMsg) (p : Paging) : Paging * list PagingMsg :=
  match msg with
  | PSetTotal n => (MkPaging n (limit p) (offset p) (dropdown p), [])
  | PSetOffset n => (MkPaging (total p) (limit p) n (dropdown p), [])
  | PSetLimit n => (MkPaging (total p) n (offset p) (dropdown p), [PDropdown DropdownMsg_Close])
  | PNext => (next_page p, [])
  | PPrev => (prev_page p, [])
  | PDropdown m => (MkPaging (total p) (limit p) (offset p) (dropdown_update m (dropdown p)), [])
  | PNoop => (p, [])
  end.

(** Which of the controls can be used: [limit_selection_view], [next_prev_view]. *)
Definition offers (p : Paging) (msg : PagingMsg) : bool :=
  match msg with
  | PPrev => has_less p
  | PNext => has_more p
  | PSetLimit n => has_pages p && bool_decide (n ∈ ROW_OPTS)
  | PDropdown m => has_pages p && match m with DropdownMsg_Open => false | _ => true end
  | PNoop => true
  | _ => false
  end.

(** [&rows[pager.range()]]: [None] is the panic of a range that is not in the list. *)
Definition page_rows {A} (rows : list A) (p : Paging) : option (list A) :=
  let '(from, to) := range p in
  if (from <=? to) && (to <=? Z.of_nat (length rows)) then Some (take (Z.to_nat (to - from)) (drop (Z.to_nat from) rows)) else None.

(** A page that shows rows: the rows come anew, with [SetTotal], or the user uses a control. *)
Inductive ListEvent (A : Type) : Type := NewRows (rows : list A) | Control (msg : PagingMsg).
Arguments NewRows {A} _.
Arguments Control {A} _.

Definition paging_run (msgs : list PagingMsg) (p : Paging) : Paging := foldl (fun p m => (paging_update m p).1) p msgs.

Definition list_event {A} (s : list A * Paging) (e : ListEvent A) : option (list A * Paging) :=
  match e with
  | NewRows rows => Some (rows, (paging_update (PSetTotal (Z.of_nat (length rows))) s.2).1)
  | Control m => if offers s.2 m then let '(p, ms) := paging_update m s.2 in Some (s.1, paging_run ms p) else None
  end.

Definition list_run {A} (es : list (ListEvent A)) (s : list A * Paging) : option (list A * Paging) :=
  foldl (fun o e => s ← o; list_event s e) (Some s) es.

(** ** Properties *)

(** Rows that a page can count. *)
Definition countable_rows {A} (rows : list A) : Prop := Z.of_nat (length rows) < 2 ^ 31.

Definition paging_ok {A} (s : list A * Paging) : Prop :=
  countable_rows s.1 /\ total s.2 = Z.of_nat (length s.1) /\ limit s.2 ∈ ROW_OPTS /\ 0 <= offset s.2 <= total s.2.

Lemma row_opts_bound n : n ∈ ROW_OPTS -> 10 <= n <= 100.
Proof. unfold ROW_OPTS. rewrite !elem_of_cons, elem_of_nil. lia. Qed.

Lemma usize_add_small x y : 0 <= x -> 0 <= y -> x + y < 2 ^ 32 -> usize_add x y = x + y.
Proof. intros. apply Z.mod_small. lia. Qed.

Lemma page_end_ok {A} (s : list A * Paging) : paging_ok s -> page_end s.2 = Z.min (offset s.2 + limit s.2) (total s.2).
Proof.
  intros (Hc & Ht & Hl%row_opts_bound & Ho). unfold page_end, countable_rows in *. rewrite usize_add_small; lia.
Qed.

(** A list may grow, and may shrink to no less than what is before the page. *)
Definition grows {A} (s : list A * Paging) (e : ListEvent A) : Prop :=
  match e with NewRows rows => countable_rows rows /\ offset s.2 <= Z.of_nat (length rows) | Control _ => True end.

Lemma list_event_ok {A} (s s' : list A * Paging) e : paging_ok s -> grows s e -> list_event s e = Some s' -> paging_ok s'.
Proof.
  intros Hok Hg E. pose proof (page_end_ok s Hok) as He. pose proof Hok as (Hc & Ht & Hl & Ho). pose proof (row_opts_bound _ Hl). destruct e as [rows|m]; cbn in E, Hg.
  - injection E as <-. destruct Hg as [Hr Hg]. split_and!; cbn; try done; lia.
  - destruct (offers s.2 m) eqn:Hof; [|done]. destruct m; cbn in E, Hof; try done; injection E as <-; split_and!; cbn; try done; try lia.
    + case_match; lia.
    + case_match; lia.
    + apply andb_true_iff in Hof as [_ Hof]. by apply bool_decide_eq_true in Hof.
Qed.

Lemma list_run_ok {A} (es : list (ListEvent A)) s s' :
  paging_ok s -> (forall es1 e es2 s1, es = es1 ++ e :: es2 -> list_run es1 s = Some s1 -> grows s1 e) -> list_run es s = Some s' -> paging_ok s'.
Proof.
  intros Hs. revert s'. induction es as [|e es IH] using rev_ind; intros s' Hg; [by intros [= <-]|].
  unfold list_run. rewrite foldl_app. cbn. intros (s1 & E1 & E)%bind_Some. eapply list_event_ok; [|by eapply Hg|done].
  eapply IH; [|done]. intros es1 e' es2 s2 -> Hs2. eapply Hg; [|done]. by rewrite <- app_assoc.
Qed.

Lemma page_rows_ok {A} (s : list A * Paging) : paging_ok s ->
  page_rows s.1 s.2 = Some (take (Z.to_nat (limit s.2)) (drop (Z.to_nat (offset s.2)) s.1)).
Proof.
  intros Hok. pose proof (page_end_ok s Hok) as He. destruct Hok as (Hc & Ht & Hl%row_opts_bound & Ho). unfold page_rows, range. rewrite He.
  rewrite (proj2 (Z.leb_le _ _)), (proj2 (Z.leb_le _ _)) by lia. cbn [andb]. f_equal. destruct (Z_le_gt_dec (offset s.2 + limit s.2) (total s.2)).
  - f_equal. lia.
  - rewrite !take_ge; [done|rewrite length_drop; lia..].
Qed.

(** C30: Whatever the user does with the controls and however the list grows, showing a page does not
    panic: the page has the rows from its offset on, as many as the limit allows. *)
Theorem pages_shown {A} (rows : list A) es rows' p :
  countable_rows rows -> list_run es (rows, Paging_new (Z.of_nat (length rows))) = Some (rows', p) ->
  (forall es1 e es2 s1, es = es1 ++ e :: es2 -> list_run es1 (rows, Paging_new (Z.of_nat (length rows))) = Some s1 -> grows s1 e) ->
  page_rows rows' p = Some (take (Z.to_nat (limit p)) (drop (Z.to_nat (offset p)) rows')) /\ limit p ∈ ROW_OPTS.
Proof.
  intros Hc E Hg. assert (paging_ok (rows', p)) as Hok.
  { eapply list_run_ok; [|done|done]. split_and!; cbn; [done|done|set_solver|lia..]. }
  split; [by apply (page_rows_ok (rows', p))|apply Hok].
Qed.

Lemma pages_shown_witness :
  exists p, page_rows (seqZ 0 30) p = Some (take (Z.to_nat (limit p)) (drop (Z.to_nat (offset p)) (seqZ 0 30))) /\ offset p = 20.
Proof.
  exists (MkPaging 30 10 20 Dropdown_Close). split; [|reflexivity].
  apply (pages_shown (seqZ 0 25) [Control PNext; Control PNext; NewRows (seqZ 0 30)]); [reflexivity|reflexivity|].
  intros es1 e es2 s1 E. destruct es1 as [|? [|? [|? [|]]]]; simplify_eq/=; [done|done|]. vm_compute. intros [= <-]. split; [reflexivity|discriminate].
Defined.

(** Every page from [p] on, as the user turns them. *)
Fixpoint visit {A} (fuel : nat) (rows : list A) (p : Paging) : option (list A) :=
  match fuel with
  | O => None
  | S fuel =>
      page ← page_rows rows p;
      if has_more p then rest ← visit fuel rows (next_page p); Some (page ++ rest) else Some page
  end.

(** Turning the pages ends, and shows every row once and in order. *)
Theorem pages_cover {A} (rows : list A) p fuel :
  paging_ok (rows, p) -> (length rows < fuel)%nat -> visit fuel rows p = Some (drop (Z.to_nat (offset p)) rows).
Proof.
  intros Hok Hf. assert (length rows - Z.to_nat (offset p) < fuel)%nat as Hf' by lia. clear Hf. revert p Hok Hf'.
  induction fuel as [|fuel IH]; intros p Hok Hf; [lia|]. cbn [visit].
  pose proof (page_rows_ok (rows, p) Hok) as Hr. pose proof (page_end_ok (rows, p) Hok) as He. cbn [fst snd] in *. rewrite Hr. cbn [mbind option_bind].
  pose proof Hok as (Hc & Ht & Hl%row_opts_bound & Ho). cbn [fst snd] in *. unfold has_more, countable_rows in *.
  rewrite usize_add_small by lia. destruct (Z.ltb_spec (limit p + offset p) (total p)).
  - rewrite IH; [| |unfold next_page; cbn; lia].
    + unfold next_page. cbn [offset]. rewrite He.
      replace (Z.to_nat (Z.min (offset p + limit p) (total p))) with (Z.to_nat (offset p) + Z.to_nat (limit p))%nat by lia.
      rewrite <- drop_drop. cbn. f_equal. apply take_drop.
    + split_and!; cbn; [done|done|apply Hok|lia..].
  - f_equal. apply take_ge. rewrite length_drop. lia.
Qed.

(** Going back from the next page leads to the page before it. *)
Theorem prev_next {A} (rows : list A) p : paging_ok (rows, p) -> has_more p = true -> prev_page (next_page p) = p.
Proof.
  intros Hok Hm. pose proof (page_end_ok (rows, p) Hok) as He. destruct Hok as (Hc & Ht & Hl%row_opts_bound & Ho). cbn [fst snd] in *.
  unfold has_more, countable_rows in *. rewrite usize_add_small in Hm by lia. apply Z.ltb_lt in Hm.
  destruct p as [t l o d]. unfold prev_page, next_page. cbn in *. rewrite He. rewrite Z.min_l by lia. rewrite (proj2 (Z.ltb_ge _ _)) by lia.
  f_equal. lia.
Qed.

(** When rows before the page are removed, the offset is not moved back: the range then starts after
    its end, and showing the page panics. *)
Theorem shrunk_list_panics :
  exists p, list_run [Control PNext; NewRows (seqZ 0 9)] (seqZ 0 11, Paging_new 11) = Some (seqZ 0 9, p) /\ page_rows (seqZ 0 9) p = None.
Proof. eexists. split; [vm_compute; reflexivity|reflexivity]. Qed.
