(* ===== verification/Tree.v ===== *)
(** * The tree of the page ([iml-gui/crate/src/components/tree.rs])

    The side of the page shows servers with their volumes, and file systems with their targets and
    pools. A node of the tree is known by its address, the set of steps to it; it has the ids of
    what is below it and the state of their pages. The tree is told of every record that is added
    or removed ([lib.rs], [handle_record_change]) and asks the cache of records for the rest.

    [None] is a panic, which a target without a name or a volume that is not in the cache causes.
    Labels are sorted with a relation that is a parameter; as the sorted ids are then collected
    into an ordered set, nothing depends on it. *)
From stdpp Require Import base gmap sets list strings sorting.
From Stdlib Require Import ZArith Lia.
From S2P Require Import Prelude RustStd Ordering WarpTypes WarpCache WarpDrive Paging.
Open Scope string_scope.
Open Scope Z_scope.

(** ** Addresses *)

Inductive Step : Type :=
| Step_HostCollection
| Step_Host (id : Z)
| Step_VolumeCollection
| Step_FsCollection
| Step_Fs (id : Z)
| Step_MgtCollection
| Step_MdtCollection
| Step_OstPoolCollection
| Step_OstPool (id : Z)
| Step_OstCollection.

Definition Step_code (s : Step) : Z * Z :=
  match s with
  | Step_HostCollection => (0, 0) | Step_Host id => (1, id) | Step_VolumeCollection => (2, 0) | Step_FsCollection => (3, 0)
  | Step_Fs id => (4, id) | Step_MgtCollection => (5, 0) | Step_MdtCollection => (6, 0) | Step_OstPoolCollection => (7, 0)
  | Step_OstPool id => (8, id) | Step_OstCollection => (9, 0)
  end.

Definition Step_decode (c : Z * Z) : Step :=
  match c with
  | (0, _) => Step_HostCollection | (1, id) => Step_Host id | (2, _) => Step_VolumeCollection | (3, _) => Step_FsCollection
  | (4, id) => Step_Fs id | (5, _) => Step_MgtCollection | (6, _) => Step_MdtCollection | (7, _) => Step_OstPoolCollection
  | (8, id) => Step_OstPool id | _ => Step_OstCollection
  end.

#[export] Instance Step_eq_dec : EqDecision Step.
Proof. solve_decision. Defined.
#[export] Instance Step_countable : Countable Step.
Proof. refine (inj_countable' Step_code Step_decode _). by intros []. Defined.

(** The derived order. *)
#[export] Instance Step_keyed : Keyed Step := fun s => kvariant (Step_code s).1 [KZ (Step_code s).2].

Inductive TargetKind : Type := Mgt | Mdt | Ost.
#[export] Instance TargetKind_eq_dec : EqDecision TargetKind.
Proof. solve_decision. Defined.

Definition Step_from (k : TargetKind) : Step := match k with Mgt => Step_MgtCollection | Mdt => Step_MdtCollection | Ost => Step_OstCollection end.

(** A set of steps, in their order. *)
Definition Address : Type := list Step.
Definition Address_new (path : list Step) : Address := set_from false path.
Definition extend (a : Address) (s : Step) : Address := Address_new (a ++ [s]).

(** ** Nodes *)

Record TreeNode : Type := MkNode { node_open : bool; items : list Z; node_paging : Paging }.

Definition TreeNode_default : TreeNode := MkNode false [] Paging_default.

(** [len()], a [usize]. *)
Definition usize_len {A} (l : list A) : Z := Z.of_nat (length l) mod 2 ^ 32.

Definition from_items (xs : list Z) : TreeNode := let l := set_from false xs in MkNode false l (Paging_new (usize_len l)).

Definition with_total (n : Z) (p : Paging) : Paging := MkPaging n (limit p) (offset p) (dropdown p).

(** [node.items = ..; node.paging.total = node.items.len()]. *)
Definition set_items (xs : list Z) (n : TreeNode) : TreeNode :=
  let l := set_from false xs in MkNode (node_open n) l (with_total (usize_len l) (node_paging n)).

Abbreviation Model := (gmap Address TreeNode).

(** [Model::remove_item]: the total is one less, whether or not the item was there. *)
Definition model_remove_item (a : Address) (id : Z) (m : Model) : Model :=
  match m !! a with
  | None => m
  | Some n =>
      <[a := MkNode (node_open n) (List.filter (fun x => negb (x =? id)) (items n))
               (with_total ((total (node_paging n) - 1) mod 2 ^ 32) (node_paging n))]> m
  end.

Definition slice_page (p : Paging) (xs : list Z) : list Z := take (Z.to_nat (page_end p)) (drop (Z.to_nat (offset p)) xs).

Inductive Msg : Type :=
| Msg_Add (id : RecordId)
| Msg_Remove (id : RecordId)
| Msg_Reset
| Msg_Toggle (a : Address) (open : bool)
| Msg_AddEmptyNode (a : Address)
| Msg_RemoveNode (a : Address)
| Msg_Page (a : Address) (msg : PagingMsg).

Section tree.
Context (natord_le : relation string) `{!RelDecision natord_le}.
Implicit Types (cache : Cache) (m : Model).

Definition values {A} (m : gmap Z A) : list A := (map_to_list m).*2.

Definition label_le {A} (x y : string * A) : Prop := natord_le x.1 y.1.
#[local] Instance label_le_dec {A} (x y : string * A) : Decision (label_le x y).
Proof. unfold label_le. apply _. Defined.

(** [sort_by]: the labels of all are asked for when there are two or more. *)
Definition sort_by_label {A} (label : A -> option string) (xs : list A) : option (list A) :=
  match xs with
  | [] | [_] => Some xs
  | _ =>
      ls ← mapM (fun x => l ← label x; Some (l, x)) xs;
      Some (merge_sort label_le ls).*2
  end.

Definition ids_by_label {A} (label : A -> option string) (id : A -> Z) (xs : list A) : option (list Z) :=
  ys ← sort_by_label label xs; Some (id <$> (ys : list A)).

Definition host_label (x : Host) : option string := Some (Host_label x).
Definition fs_label (x : Filesystem) : option string := Some (Filesystem_label x).
Definition pool_label (x : OstPoolRecord) : option string := Some (OstPoolRecord_name x).
Definition volume_node_label (x : VolumeNodeRecord) : option string := Some (VolumeNodeRecord_path x).
Definition target_label (x : ManagedTargetRecord) : option string := ManagedTargetRecord_name x.

Definition sorted_hosts cache : option (list Z) := ids_by_label host_label Host_id (values (host cache)).
Definition sorted_filesystems cache : option (list Z) := ids_by_label fs_label Filesystem_id (values (filesystem cache)).

Definition get_kind (name : string) : TargetKind := if String.eqb name "MGS" then Mgt else if contains "-MDT" name then Mdt else Ost.
Definition target_kind (x : ManagedTargetRecord) : option TargetKind := get_kind <$> target_label x.

Definition get_volume_nodes_by_host_id cache (host_id : Z) : list VolumeNodeRecord :=
  List.filter (fun v => VolumeNodeRecord_host_id v =? host_id) (values (volume_node cache)).

Definition get_ost_pools_by_fs_id cache (fs_id : Z) : list OstPoolRecord :=
  List.filter (fun v => OstPoolRecord_filesystem_id v =? fs_id) (values (ost_pool cache)).

Definition get_targets_by_pool_id cache (ostpool_id : Z) : list ManagedTargetRecord :=
  let target_ids := OstPoolOstsRecord_managedost_id <$> List.filter (fun x => OstPoolOstsRecord_ostpool_id x =? ostpool_id) (values (ost_pool_osts cache)) in
  List.filter (fun x => bool_decide (ManagedTargetRecord_id x ∈ target_ids)) (values (target cache)).

Definition get_target_from_managed_target cache (x : ManagedTargetRecord) : option TargetRecord :=
  List.find (fun y => bool_decide (ManagedTargetRecord_uuid x = Some (TargetRecord_uuid y))) (values (target_record cache)).

(** Of the file system with that id, and of that kind. *)
Definition is_target_of cache (fs_id : Z) (x : ManagedTargetRecord) : bool :=
  match get_target_from_managed_target cache x, filesystem cache !! fs_id with
  | Some t, Some fs => bool_decide (Filesystem_name fs ∈ TargetRecord_filesystems t)
  | _, _ => false
  end.

Definition get_targets_by_fs_id cache (fs_id : Z) (kind : TargetKind) : option (list ManagedTargetRecord) :=
  ks ← mapM (fun t => k ← target_kind t; Some (k, t)) (values (target cache));
  Some (List.filter (is_target_of cache fs_id) (List.filter (fun kt : TargetKind * ManagedTargetRecord => bool_decide (kt.1 = kind)) ks).*2).

Definition get_targets_by_parent_resource cache (parent : RecordId) (kind : TargetKind) : option (list ManagedTargetRecord) :=
  match parent with
  | RecordId_OstPool x => Some (get_targets_by_pool_id cache x)
  | RecordId_Filesystem x => get_targets_by_fs_id cache x kind
  | _ => Some []
  end.

Definition get_target_fs_ids cache (x : ManagedTargetRecord) : list Z :=
  match get_target_from_managed_target cache x with
  | Some t => omap (fun name => Filesystem_id <$> List.find (fun y => String.eqb (Filesystem_name y) name) (values (filesystem cache))) (TargetRecord_filesystems t)
  | None => []
  end.

(** ** Adding and removing records *)

(** The items after [id] is added: those that are in the cache. *)
Definition add_to_items {A} (label : A -> option string) (id_of : A -> Z) (table : gmap Z A) (id : Z) (n : TreeNode) : option TreeNode :=
  let with_id := set_insert false id (items n) in
  xs ← ids_by_label label id_of (List.filter (fun y => set_contains (id_of y) with_id) (values table));
  Some (set_items xs n).

(** The nodes of a target under each of its file systems; the loop ends at the first node that is
    not there. *)
Fixpoint add_target cache (id : Z) (kind : TargetKind) (fs_ids : list Z) m : option Model :=
  match fs_ids with
  | [] => Some m
  | fs_id :: fs_ids =>
      let base_addr := Address_new [Step_FsCollection; Step_Fs fs_id] in
      let a := extend base_addr (Step_from kind) in
      match m !! a with
      | None => Some m
      | Some n =>
          n ← add_to_items target_label ManagedTargetRecord_id (target cache) id n;
          let m := <[a := n]> m in
          let a' := extend (extend base_addr Step_OstPoolCollection) Step_OstCollection in
          match m !! a' with
          | None => Some m
          | Some n' =>
              n' ← add_to_items target_label ManagedTargetRecord_id (target cache) id n';
              add_target cache id kind fs_ids (<[a' := n']> m)
          end
      end
  end.

Definition add_item (record_id : RecordId) cache m : option (Model * list Msg) :=
  match record_id with
  | RecordId_Host id =>
      let addr := Address_new [Step_HostCollection] in
      match m !! addr with
      | None => Some (m, [])
      | Some n => xs ← sorted_hosts cache; Some (<[addr := set_items xs n]> m, [Msg_AddEmptyNode (extend addr (Step_Host id))])
      end
  | RecordId_Filesystem id =>
      let addr := Address_new [Step_FsCollection] in
      match m !! addr with
      | None => Some (m, [])
      | Some n => xs ← sorted_filesystems cache; Some (<[addr := set_items xs n]> m, [Msg_AddEmptyNode (extend addr (Step_Fs id))])
      end
  | RecordId_VolumeNode id =>
      match volume_node cache !! id with
      | None => Some (m, [])
      | Some vn =>
          let addr := Address_new [Step_HostCollection; Step_Host (VolumeNodeRecord_host_id vn); Step_VolumeCollection] in
          match m !! addr with
          | None => Some (m, [])
          | Some n => n ← add_to_items volume_node_label VolumeNodeRecord_id (volume_node cache) id n; Some (<[addr := n]> m, [])
          end
      end
  | RecordId_OstPoolOsts id =>
      match (ost ← ost_pool_osts cache !! id; ost_pool cache !! OstPoolOstsRecord_ostpool_id ost) with
      | None => Some (m, [])
      | Some pool =>
          let addr := Address_new [Step_FsCollection; Step_Fs (OstPoolRecord_filesystem_id pool); Step_OstPoolCollection; Step_OstPool (OstPoolRecord_id pool)] in
          match m !! addr with
          | None => Some (m, [])
          | Some n => n ← add_to_items pool_label OstPoolRecord_id (ost_pool cache) id n; Some (<[addr := n]> m, [])
          end
      end
  | RecordId_Target id =>
      match target cache !! id with
      | None => Some (m, [])
      | Some t =>
          match get_target_fs_ids cache t with
          | [] => Some (m, [])
          | ids => kind ← target_kind t; m ← add_target cache id kind ids m; Some (m, [])
          end
      end
  | _ => Some (m, [])
  end.

Definition remove_item (record_id : RecordId) cache m : option (Model * list Msg) :=
  match record_id with
  | RecordId_Host id =>
      let addr := Address_new [Step_HostCollection] in
      Some (model_remove_item addr id m, [Msg_RemoveNode (extend addr (Step_Host id))])
  | RecordId_Filesystem id =>
      let addr := Address_new [Step_FsCollection] in
      Some (model_remove_item addr id m, [Msg_RemoveNode (extend addr (Step_Fs id))])
  | RecordId_VolumeNode id =>
      Some (match volume_node cache !! id with
            | None => m
            | Some vn => model_remove_item (Address_new [Step_HostCollection; Step_Host (VolumeNodeRecord_host_id vn); Step_VolumeCollection]) id m
            end, [])
  | RecordId_OstPoolOsts id =>
      match (ost ← ost_pool_osts cache !! id; ost_pool cache !! OstPoolOstsRecord_ostpool_id ost) with
      | None => Some (m, [])
      | Some pool =>
          let addr := Address_new [Step_FsCollection; Step_Fs (OstPoolRecord_filesystem_id pool); Step_OstPoolCollection] in
          Some (model_remove_item addr (OstPoolRecord_id pool) m, [Msg_RemoveNode (extend addr (Step_OstPool (OstPoolRecord_id pool)))])
      end
  | RecordId_Target id =>
      match target cache !! id with
      | None => Some (m, [])
      | Some t =>
          match get_target_fs_ids cache t with
          | [] => Some (m, [])
          | ids =>
              kind ← target_kind t;
              Some (foldl (fun m fs_id =>
                let addr := Address_new [Step_FsCollection; Step_Fs fs_id] in
                model_remove_item (extend (extend addr Step_OstPoolCollection) Step_OstCollection) id
                  (model_remove_item (extend addr (Step_from kind)) id m)) m ids, [])
          end
      end
  | _ => Some (m, [])
  end.

(** ** Messages *)

(** [entry(a).or_insert_with(f)], where [f] may panic. *)
Definition or_insert (a : Address) (f : option TreeNode) m : option Model :=
  match m !! a with Some _ => Some m | None => n ← f; Some (<[a := n]> m) end.

Definition or_default (steps : list Step) (a : Address) m : Model :=
  foldl (fun m s => match m !! extend a s with Some _ => m | None => <[extend a s := TreeNode_default]> m end) m steps.

Definition targets_node cache (fs_id : Z) (kind : TargetKind) : option TreeNode :=
  xs ← get_targets_by_fs_id cache fs_id kind; ids ← ids_by_label target_label ManagedTargetRecord_id xs; Some (from_items ids).

(** What opening or closing a node adds below it. *)
Definition below cache (a : Address) (ids : list Z) m : option Model :=
  match a with
  | [Step_HostCollection] => Some (or_default (Step_Host <$> ids) a m)
  | [Step_HostCollection; Step_Host id] =>
      or_insert (extend a Step_VolumeCollection)
        (ids ← ids_by_label volume_node_label VolumeNodeRecord_id (get_volume_nodes_by_host_id cache id); Some (from_items ids)) m
  | [Step_FsCollection] => Some (or_default (Step_Fs <$> ids) a m)
  | [Step_FsCollection; Step_Fs id] =>
      m ← or_insert (extend a Step_MgtCollection) (targets_node cache id Mgt) m;
      m ← or_insert (extend a Step_MdtCollection) (targets_node cache id Mdt) m;
      m ← or_insert (extend a Step_OstCollection) (targets_node cache id Ost) m;
      or_insert (extend a Step_OstPoolCollection) (ids ← ids_by_label pool_label OstPoolRecord_id (get_ost_pools_by_fs_id cache id); Some (from_items ids)) m
  | [Step_FsCollection; Step_Fs _; Step_OstPoolCollection] => Some (or_default (Step_OstPool <$> ids) a m)
  | [Step_FsCollection; Step_Fs _; Step_OstPoolCollection; Step_OstPool pool_id] =>
      or_insert (extend a Step_OstCollection)
        (xs ← get_targets_by_parent_resource cache (RecordId_OstPool pool_id) Ost; ids ← ids_by_label target_label ManagedTargetRecord_id xs; Some (from_items ids)) m
  | _ => Some m
  end.

Definition update cache (msg : Msg) m : option (Model * list Msg) :=
  match msg with
  | Msg_Reset =>
      hosts ← sorted_hosts cache; filesystems ← sorted_filesystems cache;
      Some (<[Address_new [Step_FsCollection] := from_items filesystems]> (<[Address_new [Step_HostCollection] := from_items hosts]> ∅), [])
  | Msg_Add id => add_item id cache m
  | Msg_Remove id => remove_item id cache m
  | Msg_Toggle a open =>
      match m !! a with
      | None => Some (m, [])
      | Some n => m ← below cache a (items n) (<[a := MkNode open (items n) (node_paging n)]> m); Some (m, [])
      end
  | Msg_AddEmptyNode a => Some (<[a := TreeNode_default]> m, [])
  | Msg_RemoveNode a => Some (delete a m, [])
  | Msg_Page a msg =>
      match m !! a with
      | None => Some (m, [])
      | Some n =>
          let '(p, msgs) := paging_update msg (node_paging n) in
          Some (<[a := MkNode (node_open n) (items n) p]> m, Msg_Page a <$> msgs)
      end
  end.

(** ** What is shown *)

(** Folders with the number beside their names, and the items of records. *)
Inductive Shown : Type :=
| Shown_Folder (address : Address) (count : Z) (open : bool) (below : list Shown)
| Shown_Item (id : RecordId) (below : list Shown).

Definition tree_collection_view m (address : Address) (on_open : TreeNode -> option (list Shown)) : option (list Shown) :=
  match m !! address with
  | None => Some []
  | Some x =>
      rows ← (if node_open x then on_open x else Some []);
      Some [Shown_Folder address (total (node_paging x)) (node_open x) rows]
  end.

(** The items of a page that are in a table of the cache. *)
Definition page_items {A} (table : gmap Z A) (x : TreeNode) : list A := omap (fun id => table !! id) (slice_page (node_paging x) (items x)).

Definition tree_target_collection_view cache m (parent : Address) (kind : TargetKind) : option (list Shown) :=
  tree_collection_view m (extend parent (Step_from kind)) (fun x =>
    mapM (fun t => _ ← target_label t; Some (Shown_Item (RecordId_Target (ManagedTargetRecord_id t)) [])) (page_items (target cache) x)).

Definition tree_volume_collection_view cache m (parent : Address) : option (list Shown) :=
  tree_collection_view m (extend parent Step_VolumeCollection) (fun x =>
    mapM (fun vn =>
      v ← List.find (fun v => VolumeRecord_id v =? VolumeNodeRecord_volume_id vn) (values (volume cache));
      Some (Shown_Item (RecordId_Volume (VolumeRecord_id v)) [])) (page_items (volume_node cache) x)).

(** An item whose node is not there is left out. *)
Definition item_view m (address : Address) (id : RecordId) (on_open : option (list Shown)) : option (list Shown) :=
  match m !! address with
  | None => Some []
  | Some n => rows ← (if node_open n then on_open else Some []); Some [Shown_Item id rows]
  end.

Definition tree_pool_item_view cache m (parent : Address) (pool : OstPoolRecord) : option (list Shown) :=
  let address := extend parent (Step_OstPool (OstPoolRecord_id pool)) in
  item_view m address (RecordId_OstPool (OstPoolRecord_id pool)) (tree_target_collection_view cache m address Ost).

Definition tree_pools_collection_view cache m (parent : Address) : option (list Shown) :=
  let addr := extend parent Step_OstPoolCollection in
  tree_collection_view m addr (fun x => rows ← mapM (tree_pool_item_view cache m addr) (page_items (ost_pool cache) x); Some (concat rows)).

Definition tree_host_item_view cache m (h : Host) : option (list Shown) :=
  let address := Address_new [Step_HostCollection; Step_Host (Host_id h)] in
  item_view m address (RecordId_Host (Host_id h)) (tree_volume_collection_view cache m address).

Definition tree_fs_item_view cache m (fs : Filesystem) : option (list Shown) :=
  let address := Address_new [Step_FsCollection; Step_Fs (Filesystem_id fs)] in
  item_view m address (RecordId_Filesystem (Filesystem_id fs))
    (mgts ← tree_target_collection_view cache m address Mgt; mdts ← tree_target_collection_view cache m address Mdt;
     osts ← tree_target_collection_view cache m address Ost; pools ← tree_pools_collection_view cache m address;
     Some (mgts ++ mdts ++ osts ++ pools)%list).

Definition tree_host_collection_view cache m : option (list Shown) :=
  tree_collection_view m (Address_new [Step_HostCollection]) (fun x =>
    rows ← mapM (tree_host_item_view cache m) (page_items (host cache) x); Some (concat rows)).

Definition tree_fs_collection_view cache m : option (list Shown) :=
  tree_collection_view m (Address_new [Step_FsCollection]) (fun x =>
    rows ← mapM (tree_fs_item_view cache m) (page_items (filesystem cache) x); Some (concat rows)).

Definition view cache m : option (list Shown) :=
  hosts ← tree_host_collection_view cache m; filesystems ← tree_fs_collection_view cache m; Some (hosts ++ filesystems)%list.

(** ** The page *)

(** The page's records and its tree; what warp drive sends and what the user does. *)
Record GuiPage : Type := MkGuiPage { gp_records : Cache; gp_tree : Model }.

Inductive GuiEvent : Type :=
| Ev_Message (msg : Message)
| Ev_Toggle (a : Address) (open : bool)
| Ev_Page (a : Address) (msg : PagingMsg).

(** Messages are handled in turn; those that the tree sends come after those already sent. *)
Fixpoint handle_all cache (msgs : list Msg) m : option Model :=
  match msgs with
  | [] => Some m
  | msg :: msgs => '(m, _) ← update cache msg m; handle_all cache msgs m
  end.

Definition handle cache (msg : Msg) m : option Model := '(m, msgs) ← update cache msg m; handle_all cache msgs m.

(** A record that was not known is added to the tree. One that is deleted is removed from the tree
    while it is still in the cache, and what the tree then sends comes after its removal. *)
Definition gui_event (p : GuiPage) (e : GuiEvent) : option GuiPage :=
  match e with
  | Ev_Message (Message_Locks _) => Some p
  | Ev_Message (Message_Records c) => m ← handle c Msg_Reset (gp_tree p); Some (MkGuiPage c m)
  | Ev_Message (Message_RecordChange (Change_Update r)) =>
      let c := insert_record (gp_records p) r in
      if in_tree (record_id r) && bool_decide (cache_get (gp_records p) (record_id r) = None)
      then m ← handle c (Msg_Add (record_id r)) (gp_tree p); Some (MkGuiPage c m)
      else Some (MkGuiPage c (gp_tree p))
  | Ev_Message (Message_RecordChange (Change_Delete id)) =>
      let c := (remove_record (gp_records p) id).2 in
      if in_tree id
      then '(m, msgs) ← update (gp_records p) (Msg_Remove id) (gp_tree p); m ← handle_all c msgs m; Some (MkGuiPage c m)
      else Some (MkGuiPage c (gp_tree p))
  | Ev_Toggle a open => m ← handle (gp_records p) (Msg_Toggle a open) (gp_tree p); Some (MkGuiPage (gp_records p) m)
  | Ev_Page a msg => m ← handle (gp_records p) (Msg_Page a msg) (gp_tree p); Some (MkGuiPage (gp_records p) m)
  end.

Definition gui_start : GuiPage := MkGuiPage Cache_default ∅.

Definition gui_events (es : list GuiEvent) : option GuiPage := foldl (fun o e => p ← o; gui_event p e) (Some gui_start) es.
End tree.
