(* ===== verification/TreeSpec.v ===== *)
(** * What the tree of the page shows

    After any messages of warp drive and anything the user does, the folders of servers, of file
    systems and of the volumes of a server have exactly the ids of the records in the page's cache,
    and the number beside them is right ([tree_follows]). What the tree gets wrong is stated as
    well: pages after the first, pools, and targets of several file systems. *)
From stdpp Require Import base gmap sets list strings sorting.
From Stdlib Require Import ZArith Lia.
From S2P Require Import Prelude RustStd Ordering WarpTypes WarpCache WarpDrive Paging Tree.
Open Scope string_scope.
Open Scope Z_scope.

(** ** Ordered sets of ids *)

Lemma elem_of_ids x (l : list Z) : x ∈ set_from false l <-> x ∈ l.
Proof.
  pose proof (set_from_keys false l (KZ x)) as H. rewrite !list_elem_of_fmap in H. split; intros Hx.
  - destruct (proj1 H) as (y & [= ->] & Hy); eauto.
  - destruct (proj2 H) as (y & [= ->] & Hy); eauto.
Qed.

Lemma ids_contains x (l : list Z) : set_contains x l = true <-> x ∈ l.
Proof. rewrite set_contains_spec, list_elem_of_fmap. split; [by intros (y & [= ->] & Hy)|eauto]. Qed.

Lemma elem_of_insert_id x y (l : list Z) : x ∈ set_insert false y l <-> x = y \/ x ∈ l.
Proof.
  pose proof (set_insert_keys false y l (KZ x)) as H. rewrite !list_elem_of_fmap in H. split.
  - intros Hx. destruct (proj1 H) as [[= ->]|(z & [= ->] & Hz)]; eauto.
  - intros Hx. destruct (proj2 H) as (z & [= ->] & Hz); [|done]. destruct Hx as [->|Hx]; eauto.
Qed.

Lemma ids_nodup (l : list Z) : oset_wf l -> NoDup l.
Proof. intros Hl. by eapply NoDup_fmap_1, klt_sorted_nodup. Qed.

Lemma filter_sorted (f : Z -> bool) (l : list Z) : oset_wf l -> oset_wf (List.filter f l).
Proof.
  unfold oset_wf. induction l as [|x l IH]; cbn; [done|]. intros [Hs Hx]%StronglySorted_inv. destruct (f x); [|auto]. cbn. constructor; [auto|].
  apply Forall_fmap, Forall_forall. intros y [Hy _]%list_elem_of_In%filter_In. rewrite Forall_fmap, Forall_forall in Hx. by apply Hx, list_elem_of_In.
Qed.

Lemma filter_length_removed id (l : list Z) : NoDup l -> id ∈ l ->
  Z.of_nat (length (List.filter (fun x => negb (x =? id)) l)) = Z.of_nat (length l) - 1.
Proof.
  intros Hnd Hid. destruct (list_elem_of_split _ _ Hid) as (l1 & l2 & ->). apply NoDup_app in Hnd as (_ & H1 & H2). apply NoDup_cons in H2 as [Hn _].
  assert (forall l', id ∉ l' -> List.filter (fun x => negb (x =? id)) l' = l') as Hk.
  { induction l' as [|x l' IH]; intros Hx; [done|]. cbn. rewrite (proj2 (Z.eqb_neq _ _)) by set_solver. cbn. f_equal. apply IH. set_solver. }
  rewrite List.filter_app. cbn. rewrite Z.eqb_refl. cbn. rewrite !Hk; [|done|intros Hx; by apply (H1 id Hx), list_elem_of_here]. rewrite !length_app. cbn. lia.
Qed.

(** ** A node and what it should have *)

Section exact.
(** Whether the numbers are right; the items are in any case. *)
Context (ex : Prop).

(** The node has the ids for which [P] holds, once each and in order, and its number is right. *)
Definition node_ok (P : Z -> Prop) (n : TreeNode) : Prop :=
  oset_wf (items n) /\ (forall id, id ∈ items n <-> P id) /\ (ex -> total (node_paging n) = usize_len (items n)).

Lemma from_items_ok (P : Z -> Prop) xs : (forall id, id ∈ xs <-> P id) -> node_ok P (from_items xs).
Proof. intros H. split_and!; cbn; [apply set_from_wf|intros id; by rewrite elem_of_ids|done]. Qed.

Lemma set_items_ok (P : Z -> Prop) xs n : (forall id, id ∈ xs <-> P id) -> node_ok P (set_items xs n).
Proof. intros H. split_and!; cbn; [apply set_from_wf|intros id; by rewrite elem_of_ids|done]. Qed.

Lemma node_ok_ext (P Q : Z -> Prop) n : (forall id, P id <-> Q id) -> node_ok P n -> node_ok Q n.
Proof. intros H (Hw & He & Ht). split_and!; [done| |done]. intros id. by rewrite He. Qed.

Lemma removed_ok (P Q : Z -> Prop) id n : node_ok P n -> (ex -> P id) -> (forall x, Q x <-> P x /\ x <> id) ->
  node_ok Q (MkNode (node_open n) (List.filter (fun x => negb (x =? id)) (items n)) (with_total ((total (node_paging n) - 1) mod 2 ^ 32) (node_paging n))).
Proof.
  intros (Hw & He & Ht) Hp HQ. split_and!; cbn.
  - by apply filter_sorted.
  - intros x. rewrite list_elem_of_In, filter_In, <- list_elem_of_In, negb_true_iff, Z.eqb_neq, He. by rewrite HQ.
  - intros Hex. rewrite Ht by done. unfold usize_len. rewrite filter_length_removed; [apply Zminus_mod_idemp_l|by apply ids_nodup|by apply He, Hp].
Qed.

Section spec.
Context (natord_le : relation string) `{!RelDecision natord_le}.
Implicit Types (c : Cache) (m : Model).
Abbreviation update := (Tree.update natord_le).
Abbreviation below := (Tree.below natord_le).
Abbreviation gui_event := (Tree.gui_event natord_le).
Abbreviation gui_events := (Tree.gui_events natord_le).
Abbreviation add_target := (Tree.add_target natord_le).

Lemma sort_by_label_perm {A} (label : A -> option string) xs ys : sort_by_label natord_le label xs = Some ys -> ys ≡ₚ xs.
Proof.
  unfold sort_by_label. destruct xs as [|x [|y xs]]; [by intros [= <-]..|]. intros (ls & E & [= <-])%bind_Some.
  rewrite merge_sort_Permutation. apply mapM_Some in E. remember (x :: y :: xs) as l eqn:El. clear El. induction E as [|a b l k Hab _ IH]; [done|].
  apply bind_Some in Hab as (s & _ & [= <-]). cbn. by constructor.
Qed.

Lemma ids_by_label_elem {A} (label : A -> option string) id xs l k : ids_by_label natord_le label id xs = Some l -> k ∈ l <-> exists x, x ∈ xs /\ id x = k.
Proof.
  unfold ids_by_label. intros (ys & Hp%sort_by_label_perm & [= <-])%bind_Some. rewrite list_elem_of_fmap. setoid_rewrite Hp. naive_solver.
Qed.

Lemma elem_of_values {A} (t : gmap Z A) x : x ∈ values t <-> exists k, t !! k = Some x.
Proof.
  unfold values. rewrite list_elem_of_fmap. split.
  - intros ((k & y) & -> & Hk%elem_of_map_to_list). eauto.
  - intros (k & Hk). exists (k, x). by rewrite elem_of_map_to_list.
Qed.

(** ** The cache *)

Lemma insert_host c r : host (insert_record c r) = match r with Record_Host x => <[Host_id x := x]> (host c) | _ => host c end.
Proof. by destruct c, r. Qed.
Lemma insert_filesystem c r : filesystem (insert_record c r) = match r with Record_Filesystem x => <[Filesystem_id x := x]> (filesystem c) | _ => filesystem c end.
Proof. by destruct c, r. Qed.
Lemma insert_volume_node c r :
  volume_node (insert_record c r) = match r with Record_VolumeNode x => <[VolumeNodeRecord_id x := x]> (volume_node c) | _ => volume_node c end.
Proof. by destruct c, r. Qed.
Lemma remove_host c i : host (remove_record c i).2 = match i with RecordId_Host k => delete k (host c) | _ => host c end.
Proof. by destruct c, i. Qed.
Lemma remove_filesystem c i : filesystem (remove_record c i).2 = match i with RecordId_Filesystem k => delete k (filesystem c) | _ => filesystem c end.
Proof. by destruct c, i. Qed.
Lemma remove_volume_node c i : volume_node (remove_record c i).2 = match i with RecordId_VolumeNode k => delete k (volume_node c) | _ => volume_node c end.
Proof. by destruct c, i. Qed.

(** Records are under their own ids. *)
Definition records_ok c : Prop :=
  (forall k x, host c !! k = Some x -> Host_id x = k) /\ (forall k x, filesystem c !! k = Some x -> Filesystem_id x = k) /\
  (forall k x, volume_node c !! k = Some x -> VolumeNodeRecord_id x = k).

Lemma insert_own {A} (id : A -> Z) (t : gmap Z A) x : (forall k y, t !! k = Some y -> id y = k) -> forall k y, <[id x := x]> t !! k = Some y -> id y = k.
Proof. intros H k y. rewrite lookup_insert. case_decide as E; [intros [= <-]; done|apply H]. Qed.

Lemma delete_own {A} (id : A -> Z) (t : gmap Z A) i : (forall k y, t !! k = Some y -> id y = k) -> forall k y, delete i t !! k = Some y -> id y = k.
Proof. intros H k y. rewrite lookup_delete_Some. intros [_ E]. by apply H. Qed.

Lemma records_ok_insert c r : records_ok c -> records_ok (insert_record c r).
Proof.
  intros (Hh & Hf & Hv). unfold records_ok. rewrite insert_host, insert_filesystem, insert_volume_node.
  destruct r; split_and!; try done; by apply insert_own.
Qed.

Lemma records_ok_remove c i : records_ok c -> records_ok (remove_record c i).2.
Proof.
  intros (Hh & Hf & Hv). unfold records_ok. rewrite remove_host, remove_filesystem, remove_volume_node.
  destruct i; split_and!; try done; by apply delete_own.
Qed.

Lemma all_ids {A} (label : A -> option string) (id : A -> Z) (t : gmap Z A) l :
  (forall k y, t !! k = Some y -> id y = k) -> ids_by_label natord_le label id (values t) = Some l -> forall k, k ∈ l <-> is_Some (t !! k).
Proof.
  intros Hid E k. rewrite (ids_by_label_elem _ _ _ _ _ E). split.
  - intros (x & (j & Hj)%elem_of_values & <-). rewrite (Hid _ _ Hj). eauto.
  - intros [x Hx]. exists x. rewrite elem_of_values. split; [eauto|by apply Hid].
Qed.

(** ** The tree *)

Definition hosts_at : Address := [Step_HostCollection].
Definition host_at (h : Z) : Address := [Step_HostCollection; Step_Host h].
Definition volumes_at (h : Z) : Address := [Step_HostCollection; Step_Host h; Step_VolumeCollection].
Definition filesystems_at : Address := [Step_FsCollection].
Definition fs_at (f : Z) : Address := [Step_FsCollection; Step_Fs f].

Definition is_host c (k : Z) : Prop := is_Some (host c !! k).
Definition is_filesystem c (k : Z) : Prop := is_Some (filesystem c !! k).
Definition is_volume_of c (h k : Z) : Prop := exists vn, volume_node c !! k = Some vn /\ VolumeNodeRecord_host_id vn = h.

(** A folder of all the records of a table; when it is open, each of them has a node. *)
Definition folder_ok (P : Z -> Prop) (a : Address) (item_at : Z -> Address) m : Prop :=
  exists n, m !! a = Some n /\ node_ok P n /\ (node_open n = true -> forall k, P k -> is_Some (m !! item_at k)).

Definition volumes_ok c m : Prop := forall h n, m !! volumes_at h = Some n -> node_ok (is_volume_of c h) n.

(** Before the first records there is no tree. *)
Definition tree_ok c m : Prop :=
  m = ∅ \/ (folder_ok (is_host c) hosts_at host_at m /\ folder_ok (is_filesystem c) filesystems_at fs_at m /\ volumes_ok c m).

(** The nodes that these folders consist of. *)
Definition main (a : Address) : bool :=
  match a with
  | [Step_HostCollection] | [Step_HostCollection; Step_Host _] | [Step_HostCollection; Step_Host _; Step_VolumeCollection]
  | [Step_FsCollection] | [Step_FsCollection; Step_Fs _] => true
  | _ => false
  end.

Definition same_main m m' : Prop := forall a, main a = true -> m !! a = m' !! a.

#[local] Instance same_main_equiv : Equivalence same_main.
Proof. split; [by intros m a|intros m m' H a Ha; symmetry; by apply H|intros m m1 m2 H H' a Ha; by rewrite H, H']. Qed.

Lemma folder_same P a item_at m m' : main a = true -> (forall k, main (item_at k) = true) -> same_main m m' -> folder_ok P a item_at m -> folder_ok P a item_at m'.
Proof.
  intros Ha Hi H (n & Hn & Hok & Ho). exists n. split_and!; [by rewrite <- H|done|]. intros Hopen k Hk. rewrite <- H by done. by apply Ho.
Qed.

Lemma volumes_same c m m' : same_main m m' -> volumes_ok c m -> volumes_ok c m'.
Proof. intros H Hv h n. rewrite <- H by done. apply Hv. Qed.

Lemma insert_side m a n : main a = false -> same_main m (<[a := n]> m).
Proof. intros Ha b Hb. rewrite lookup_insert_ne; [done|]. intros ->. congruence. Qed.

Lemma remove_side m a id : main a = false -> same_main m (model_remove_item a id m).
Proof. intros Ha. unfold model_remove_item. case_match; [by apply insert_side|done]. Qed.

Lemma or_insert_side m m' a f : main a = false -> or_insert a f m = Some m' -> same_main m m'.
Proof. intros Ha. unfold or_insert. case_match; [by intros [= <-]|]. intros (n & _ & [= <-])%bind_Some. by apply insert_side. Qed.

Lemma add_target_side c id kind ids m m' : add_target c id kind ids m = Some m' -> same_main m m'.
Proof.
  revert m. induction ids as [|f ids IH]; intros m; cbn [Tree.add_target]; [by intros [= <-]|].
  case_match; [|by intros [= <-]]. intros (n1 & _ & E)%bind_Some.
  assert (same_main m (<[extend (Address_new [Step_FsCollection; Step_Fs f]) (Step_from kind) := n1]> m)) as H1 by (apply insert_side; by destruct kind).
  case_match; [|injection E as <-; done]. apply bind_Some in E as (n2 & _ & E). etrans; [exact H1|]. etrans; [|by apply IH]. by apply insert_side.
Qed.

Lemma tree_same c m m' : same_main m m' -> m <> ∅ -> tree_ok c m -> tree_ok c m'.
Proof.
  intros H Hne [->|(Hh & Hf & Hv)]; [done|]. right. split_and!; [by eapply folder_same|by eapply folder_same|by eapply volumes_same].
Qed.

(** *** Folders *)

Lemma folder_ext (P P' : Z -> Prop) a item_at m : (forall k, P k <-> P' k) -> folder_ok P a item_at m -> folder_ok P' a item_at m.
Proof. intros H (n & Hn & Hok & Ho). exists n. split_and!; [done|by eapply node_ok_ext|]. intros Hopen k Hk. apply Ho; [done|]. by apply H. Qed.

Lemma folder_frame P a item_at m m' : m' !! a = m !! a -> (forall k, m' !! item_at k = m !! item_at k) -> folder_ok P a item_at m -> folder_ok P a item_at m'.
Proof. intros Ha Hi (n & Hn & Hok & Ho). exists n. rewrite Ha. split_and!; [done..|]. intros Hopen k Hk. rewrite Hi. by apply Ho. Qed.

Lemma folder_added (P P' : Z -> Prop) a item_at k0 n xs m :
  (forall k, a <> item_at k) -> m !! a = Some n -> (forall k, k ∈ xs <-> P' k) -> (forall k, P' k -> k = k0 \/ P k) -> folder_ok P a item_at m ->
  folder_ok P' a item_at (<[item_at k0 := TreeNode_default]> (<[a := set_items xs n]> m)).
Proof.
  intros Hne Hn Hxs HP (n' & Hn' & _ & Ho). rewrite Hn in Hn'. injection Hn' as <-. exists (set_items xs n). split_and!.
  - rewrite lookup_insert_ne by done. by rewrite lookup_insert_eq.
  - by apply set_items_ok.
  - intros Hopen k Hk. destruct (decide (item_at k0 = item_at k)) as [<-|Hk0]; [rewrite lookup_insert_eq; eauto|].
    rewrite lookup_insert_ne, lookup_insert_ne by done. apply Ho; [done|]. destruct (HP k Hk) as [->|]; [done|done].
Qed.

Lemma folder_removed (P P' : Z -> Prop) a item_at k0 m :
  (forall k, a <> item_at k) -> Inj (=) (=) item_at -> (ex -> P k0) -> (forall k, P' k <-> P k /\ k <> k0) -> folder_ok P a item_at m ->
  folder_ok P' a item_at (delete (item_at k0) (model_remove_item a k0 m)).
Proof.
  intros Hne Hinj Hk0 HP (n & Hn & Hok & Ho). unfold model_remove_item. rewrite Hn. eexists. split_and!.
  - rewrite lookup_delete_ne by done. by rewrite lookup_insert_eq.
  - by eapply removed_ok.
  - cbn. intros Hopen k [Hk Hkk]%HP. rewrite lookup_delete_ne by (intros E; by apply Hkk, Hinj). rewrite lookup_insert_ne by done. by apply Ho.
Qed.

Lemma or_default_lookup steps b m a :
  or_default steps b m !! a = match m !! a with Some n => Some n | None => if decide (a ∈ extend b <$> steps) then Some TreeNode_default else None end.
Proof.
  unfold or_default. revert m. induction steps as [|s steps IH]; intros m; cbn; [destruct (m !! a); [done|]; rewrite decide_False; [done|apply not_elem_of_nil]|]. rewrite IH.
  destruct (decide (extend b s = a)) as [<-|Hne].
  - destruct (m !! extend b s) as [n|] eqn:E; [by rewrite E|]. rewrite lookup_insert_eq. by rewrite decide_True by set_solver.
  - assert ((match m !! extend b s with Some _ => m | None => <[extend b s := TreeNode_default]> m end) !! a = m !! a) as ->.
    { destruct (m !! extend b s); [done|]. by rewrite lookup_insert_ne. }
    destruct (m !! a); [done|]. repeat case_decide; set_solver.
Qed.

(** Opening or closing the folder itself. *)
Lemma folder_toggled P a item_at steps open n m :
  (forall k, a <> item_at k) -> (forall k, extend a (steps k) = item_at k) -> m !! a = Some n -> folder_ok P a item_at m ->
  folder_ok P a item_at (or_default (steps <$> items n) a (<[a := MkNode open (items n) (node_paging n)]> m)).
Proof.
  intros Hne Hst Hn (n' & Hn' & Hok & Ho). rewrite Hn in Hn'. injection Hn' as <-. exists (MkNode open (items n) (node_paging n)). split_and!.
  - by rewrite or_default_lookup, lookup_insert_eq.
  - apply Hok.
  - intros Hopen k Hk. rewrite or_default_lookup, lookup_insert_ne by done. destruct (m !! item_at k); [eauto|].
    rewrite decide_True; [eauto|]. rewrite <- Hst. apply list_elem_of_fmap_2, list_elem_of_fmap_2. by apply Hok.
Qed.

(** Another state of a node's pages and of its being open. *)
Lemma folder_node P a item_at b n o q m :
  (forall k, a <> item_at k) -> (b <> a \/ o = node_open n) -> m !! b = Some n -> total q = total (node_paging n) -> folder_ok P a item_at m ->
  folder_ok P a item_at (<[b := MkNode o (items n) q]> m).
Proof.
  intros Hne Ho Hn Ht (n' & Hn' & (Hw & He & Hto) & Hop). destruct (decide (b = a)) as [->|Hb].
  - rewrite Hn in Hn'. injection Hn' as <-. destruct Ho as [?| ->]; [done|]. exists (MkNode (node_open n) (items n) q).
    rewrite lookup_insert_eq. split_and!; [done|split_and!; [done..|cbn; intros Hex; rewrite Ht; by apply Hto]|]. intros Hopen k Hk. rewrite lookup_insert_ne by done. by apply Hop.
  - exists n'. rewrite lookup_insert_ne by done. split_and!; [done|by split_and!|]. intros Hopen k Hk.
    destruct (decide (b = item_at k)) as [->|]; [rewrite lookup_insert_eq; eauto|rewrite lookup_insert_ne by done; by apply Hop].
Qed.

(** *** Volumes *)

Lemma volumes_node c b n o q m : m !! b = Some n -> total q = total (node_paging n) -> volumes_ok c m -> volumes_ok c (<[b := MkNode o (items n) q]> m).
Proof.
  intros Hn Ht Hv h n'. rewrite lookup_insert. case_decide as E; [|apply Hv]. subst b. intros [= <-].
  destruct (Hv _ _ Hn) as (Hw & He & Hto). split_and!; [done..|cbn; intros Hex; rewrite Ht; by apply Hto].
Qed.

Lemma volumes_frame c m m' : (forall h n, m' !! volumes_at h = Some n -> m !! volumes_at h = Some n) -> volumes_ok c m -> volumes_ok c m'.
Proof. intros H Hv h n Hn. by apply Hv, H. Qed.

(** ** Events *)

Definition state_ok (p : GuiPage) : Prop := records_ok (gp_records p) /\ tree_ok (gp_records p) (gp_tree p).

(** What is relied on: warp drive sends records under their own ids, a volume node stays with its
    host, and a page is turned with the two links. *)
Definition event_ok (p : GuiPage) (e : GuiEvent) : Prop :=
  match e with
  | Ev_Message (Message_Records c) => records_ok c
  | Ev_Message (Message_RecordChange (Change_Update (Record_VolumeNode x))) =>
      forall y, volume_node (gp_records p) !! VolumeNodeRecord_id x = Some y -> VolumeNodeRecord_host_id y = VolumeNodeRecord_host_id x
  | Ev_Page _ msg => msg = PNext \/ msg = PPrev
  | _ => True
  end.

(** The deletion of a record that the page does not have: warp drive sends one to a user who
    connects when the record is gone and the message is not yet sent. *)
Definition stray (p : GuiPage) (e : GuiEvent) : Prop :=
  match e with Ev_Message (Message_RecordChange (Change_Delete id)) => cache_get (gp_records p) id = None | _ => False end.

Lemma reset_ok c m m' : records_ok c -> handle natord_le c Msg_Reset m = Some m' -> tree_ok c m'.
Proof.
  intros (Hh & Hf & Hv). unfold handle. cbn [Tree.update]. intros ([m1 ms] & (hs & Eh & (fs & Ef & [= <- <-])%bind_Some)%bind_Some & [= <-])%bind_Some.
  right. change (Address_new [Step_FsCollection]) with filesystems_at. change (Address_new [Step_HostCollection]) with hosts_at. split_and!.
  - exists (from_items hs). rewrite lookup_insert_ne, lookup_insert_eq by done. split_and!; [done| |done]. apply from_items_ok. by apply (all_ids _ _ _ _ Hh Eh).
  - exists (from_items fs). rewrite lookup_insert_eq. split_and!; [done| |done]. apply from_items_ok. by apply (all_ids _ _ _ _ Hf Ef).
  - intros h n. rewrite !lookup_insert_ne by done. done.
Qed.

Lemma is_some_insert {A} (t : gmap Z A) i x k : is_Some (<[i := x]> t !! k) <-> k = i \/ is_Some (t !! k).
Proof. rewrite lookup_insert. case_decide as E; [subst; naive_solver|]. naive_solver. Qed.

Lemma add_host_ok c x m m' : records_ok c -> tree_ok c m ->
  handle natord_le (insert_record c (Record_Host x)) (Msg_Add (RecordId_Host (Host_id x))) m = Some m' -> tree_ok (insert_record c (Record_Host x)) m'.
Proof.
  intros Hr Ht. pose proof (records_ok_insert c (Record_Host x) Hr) as (Hh & _). set (c' := insert_record c _) in *.
  unfold handle. cbn [Tree.update add_item]. change (Address_new [Step_HostCollection]) with hosts_at. destruct (m !! hosts_at) as [n|] eqn:Hn.
  - intros ([m1 ms] & (hs & Eh & [= <- <-])%bind_Some & [= <-])%bind_Some. change (extend hosts_at (Step_Host (Host_id x))) with (host_at (Host_id x)).
    destruct Ht as [->|(Hho & Hfo & Hvo)]; [done|]. right. split_and!.
    + eapply (folder_added (is_host c)); [done|done| | |done].
      * by apply (all_ids _ _ _ _ Hh Eh).
      * intros k. unfold is_host, c'. rewrite insert_host. rewrite is_some_insert. tauto.
    + eapply folder_frame; [..|eapply folder_ext; [|exact Hfo]].
      * by rewrite !lookup_insert_ne.
      * intros k. by rewrite !lookup_insert_ne.
      * intros k. unfold is_filesystem, c'. by rewrite insert_filesystem.
    + intros h n'. rewrite !lookup_insert_ne by done. intros E. eapply node_ok_ext; [|by apply Hvo]. intros k. unfold is_volume_of, c'. by rewrite insert_volume_node.
  - intros [= <-]. destruct Ht as [->|((n & Hn' & _) & _)]; [by left|congruence].
Qed.

Lemma add_filesystem_ok c x m m' : records_ok c -> tree_ok c m ->
  handle natord_le (insert_record c (Record_Filesystem x)) (Msg_Add (RecordId_Filesystem (Filesystem_id x))) m = Some m' ->
  tree_ok (insert_record c (Record_Filesystem x)) m'.
Proof.
  intros Hr Ht. pose proof (records_ok_insert c (Record_Filesystem x) Hr) as (_ & Hf & _). set (c' := insert_record c _) in *.
  unfold handle. cbn [Tree.update add_item]. change (Address_new [Step_FsCollection]) with filesystems_at. destruct (m !! filesystems_at) as [n|] eqn:Hn.
  - intros ([m1 ms] & (fs & Ef & [= <- <-])%bind_Some & [= <-])%bind_Some. change (extend filesystems_at (Step_Fs (Filesystem_id x))) with (fs_at (Filesystem_id x)).
    destruct Ht as [->|(Hho & Hfo & Hvo)]; [done|]. right. split_and!.
    + eapply folder_frame; [..|eapply folder_ext; [|exact Hho]].
      * by rewrite !lookup_insert_ne.
      * intros k. by rewrite !lookup_insert_ne.
      * intros k. unfold is_host, c'. by rewrite insert_host.
    + eapply (folder_added (is_filesystem c)); [done|done| | |done].
      * by apply (all_ids _ _ _ _ Hf Ef).
      * intros k. unfold is_filesystem, c'. rewrite insert_filesystem. rewrite is_some_insert. tauto.
    + intros h n'. rewrite !lookup_insert_ne by done. intros E. eapply node_ok_ext; [|by apply Hvo]. intros k. unfold is_volume_of, c'. by rewrite insert_volume_node.
  - intros [= <-]. destruct Ht as [->|(_ & (n & Hn' & _) & _)]; [by left|congruence].
Qed.

(** Another cache with the same hosts, file systems and volumes. *)
Lemma tree_ext c c' m : (forall k, is_host c k <-> is_host c' k) -> (forall k, is_filesystem c k <-> is_filesystem c' k) ->
  (forall h k, is_volume_of c h k <-> is_volume_of c' h k) -> tree_ok c m -> tree_ok c' m.
Proof.
  intros Hh Hf Hv [->|(Hho & Hfo & Hvo)]; [by left|]. right. split_and!; [by eapply folder_ext..|]. intros h n Hn. by eapply node_ok_ext, Hvo.
Qed.

Lemma volume_insert c x h k : volume_node c !! VolumeNodeRecord_id x = None ->
  is_volume_of (insert_record c (Record_VolumeNode x)) h k <-> (k = VolumeNodeRecord_id x /\ VolumeNodeRecord_host_id x = h) \/ is_volume_of c h k.
Proof.
  intros Hx. unfold is_volume_of. rewrite insert_volume_node. setoid_rewrite lookup_insert. split.
  - intros (vn & E & Hvn). case_decide as Ek; [injection E as <-; eauto|eauto].
  - intros [[-> Hh]|(vn & E & Hvn)]; [exists x; by rewrite decide_True|]. exists vn. rewrite decide_False; [done|congruence].
Qed.

Lemma add_to_volumes c x n n' : records_ok c -> volume_node c !! VolumeNodeRecord_id x = None ->
  let c' := insert_record c (Record_VolumeNode x) in
  add_to_items natord_le volume_node_label VolumeNodeRecord_id (volume_node c') (VolumeNodeRecord_id x) n = Some n' ->
  node_ok (is_volume_of c (VolumeNodeRecord_host_id x)) n -> node_ok (is_volume_of c' (VolumeNodeRecord_host_id x)) n'.
Proof.
  intros Hr Hx c' (ids & Eids & [= <-])%bind_Some (Hw & He & Hto). apply set_items_ok. intros k. rewrite (ids_by_label_elem _ _ _ _ _ Eids).
  pose proof (records_ok_insert c (Record_VolumeNode x) Hr) as (_ & _ & Hv). fold c' in Hv. split.
  - intros (y & [Hy Hc]%list_elem_of_In%filter_In & <-). apply list_elem_of_In, elem_of_values in Hy as (j & Hj). pose proof (Hv _ _ Hj) as <-.
    apply ids_contains, elem_of_insert_id in Hc. unfold c'. apply volume_insert; [done|]. rewrite He in Hc. destruct Hc as [->|Hc]; auto.
  - intros Hk. pose proof Hk as (y & Ey & Hy). exists y. split; [|by apply Hv]. apply list_elem_of_In, filter_In. split.
    + apply list_elem_of_In, elem_of_values. eauto.
    + apply ids_contains, elem_of_insert_id. rewrite (Hv _ _ Ey), He. apply volume_insert in Hk; [|done]. tauto.
Qed.

Lemma add_volume_ok c x m m' : records_ok c -> tree_ok c m -> volume_node c !! VolumeNodeRecord_id x = None ->
  let c' := insert_record c (Record_VolumeNode x) in
  handle natord_le c' (Msg_Add (RecordId_VolumeNode (VolumeNodeRecord_id x))) m = Some m' -> tree_ok c' m'.
Proof.
  intros Hr Ht Hx c'. unfold handle. cbn [Tree.update add_item].
  assert (volume_node c' !! VolumeNodeRecord_id x = Some x) as -> by (unfold c'; rewrite insert_volume_node; apply lookup_insert_eq).
  change (Address_new _) with (volumes_at (VolumeNodeRecord_host_id x)).
  assert (forall k, is_host c k <-> is_host c' k) as Hh by (intros k; unfold is_host, c'; by rewrite insert_host).
  assert (forall k, is_filesystem c k <-> is_filesystem c' k) as Hf by (intros k; unfold is_filesystem, c'; by rewrite insert_filesystem).
  destruct (m !! volumes_at (VolumeNodeRecord_host_id x)) as [n|] eqn:Hn.
  - intros ([m1 ms] & (n' & En & [= <- <-])%bind_Some & [= <-])%bind_Some. destruct Ht as [->|(Hho & Hfo & Hvo)]; [done|]. right. split_and!.
    1,2: eapply folder_frame; [..|eapply folder_ext; [|eassumption]; done]; [by rewrite lookup_insert_ne|intros k; by rewrite lookup_insert_ne].
    intros h n1. rewrite lookup_insert. case_decide as E; [injection E as <-; intros [= <-]; by eapply add_to_volumes, Hvo|].
    intros E1. eapply node_ok_ext; [|by apply Hvo]. intros k. unfold c'. rewrite volume_insert by done. naive_solver.
  - intros [= <-]. destruct Ht as [->|(Hho & Hfo & Hvo)]; [by left|]. right. split_and!; [by eapply folder_ext..|].
    intros h n1 E1. eapply node_ok_ext; [|by apply Hvo]. intros k. unfold c'. rewrite volume_insert by done. naive_solver.
Qed.

(** Pools and targets are elsewhere in the tree. *)
Definition aside m m' : Prop := same_main m m' /\ (m = ∅ -> m' = ∅).

#[local] Instance aside_preorder : PreOrder aside.
Proof. split; [by intros m|]. intros m m1 m2 [H1 E1] [H2 E2]. split; [by etrans|auto]. Qed.

Lemma tree_aside c m m' : aside m m' -> tree_ok c m -> tree_ok c m'.
Proof. intros [H E] Ht. destruct (decide (m = ∅)) as [->|Hne]; [left; by apply E|by eapply tree_same]. Qed.

Lemma aside_insert m a n n' : main a = false -> m !! a = Some n -> aside m (<[a := n']> m).
Proof. intros Ha Hn. split; [by apply insert_side|]. intros ->. by rewrite lookup_empty in Hn. Qed.

Lemma aside_remove m a id : main a = false -> aside m (model_remove_item a id m).
Proof. intros Ha. unfold model_remove_item. destruct (m !! a) as [n|] eqn:E; [by eapply aside_insert|done]. Qed.

Lemma aside_delete m a : main a = false -> aside m (delete a m).
Proof.
  intros Ha. split; [|intros ->; apply delete_empty]. intros b Hb. rewrite lookup_delete_ne; [done|]. intros ->. congruence.
Qed.

Lemma add_target_aside c id kind ids m m' : add_target c id kind ids m = Some m' -> aside m m'.
Proof.
  intros E. split; [by eapply add_target_side|]. intros ->. destruct ids as [|f ids]; cbn [Tree.add_target] in E; [by injection E as <-|].
  rewrite lookup_empty in E. by injection E as <-.
Qed.

Lemma add_aside c i m m' ms : add_item natord_le i c m = Some (m', ms) ->
  match i with RecordId_OstPoolOsts _ | RecordId_Target _ => aside m m' /\ ms = [] | _ => True end.
Proof.
  destruct i as [| | | | | | | | | |id| | | | | | | | | | | |id| | | | |]; try done; cbn [add_item].
  - destruct (ost_pool_osts c !! id ≫= _) as [pool|]; [|by intros [= <- <-]]. case_match eqn:Em; [|by intros [= <- <-]].
    intros (n & _ & [= <- <-])%bind_Some. split; [|done]. by eapply aside_insert.
  - destruct (target c !! id) as [t|]; [|by intros [= <- <-]]. destruct (get_target_fs_ids c t) as [|f fs]; [by intros [= <- <-]|].
    intros (k & _ & (m1 & E1 & [= <- <-])%bind_Some)%bind_Some. split; [|done]. by eapply add_target_aside.
Qed.

Lemma remove_targets_aside id kind fs m : aside m (foldl (fun m fs_id =>
  let addr := Address_new [Step_FsCollection; Step_Fs fs_id] in
  model_remove_item (extend (extend addr Step_OstPoolCollection) Step_OstCollection) id (model_remove_item (extend addr (Step_from kind)) id m)) m fs).
Proof.
  revert m. induction fs as [|f fs IH]; intros m; [done|]. cbn [foldl]. etrans; [|apply IH]. cbn zeta.
  etrans; [apply (aside_remove _ (extend (Address_new [Step_FsCollection; Step_Fs f]) (Step_from kind)) id); by destruct kind|]. by apply aside_remove.
Qed.

(** The record leaves the tree, and then the cache. *)
Lemma remove_aside c c' i m m1 ms m' : remove_item i c m = Some (m1, ms) -> handle_all natord_le c' ms m1 = Some m' ->
  match i with RecordId_OstPoolOsts _ | RecordId_Target _ => aside m m' | _ => True end.
Proof.
  destruct i as [| | | | | | | | | |id| | | | | | | | | | | |id| | | | |]; try done; cbn [remove_item].
  - destruct (ost_pool_osts c !! id ≫= _) as [pool|]; [|by intros [= <- <-] [= <-]]. intros [= <- <-] [= <-].
    etrans; [|by apply aside_delete]. by apply aside_remove.
  - destruct (target c !! id) as [t|]; [|by intros [= <- <-] [= <-]]. destruct (get_target_fs_ids c t) as [|f fs]; [by intros [= <- <-] [= <-]|].
    intros (k & _ & [= <- <-])%bind_Some [= <-]. apply (remove_targets_aside id k (f :: fs)).
Qed.

Lemma is_some_delete {A} (t : gmap Z A) i k : is_Some (delete i t !! k) <-> is_Some (t !! k) /\ k <> i.
Proof. rewrite lookup_delete. case_decide as E; [subst; split; [by intros []|naive_solver]|naive_solver]. Qed.

Lemma model_remove_ne a id m b : a <> b -> model_remove_item a id m !! b = m !! b.
Proof. intros Hne. unfold model_remove_item. destruct (m !! a); [by rewrite lookup_insert_ne|done]. Qed.

#[local] Instance host_at_inj : Inj (=) (=) host_at.
Proof. by intros x y [= ->]. Qed.
#[local] Instance fs_at_inj : Inj (=) (=) fs_at.
Proof. by intros x y [= ->]. Qed.

Lemma remove_host_ok c k m : (ex -> host c !! k <> None) -> tree_ok c m ->
  tree_ok (remove_record c (RecordId_Host k)).2 (delete (host_at k) (model_remove_item hosts_at k m)).
Proof.
  intros Hk [->|(Hho & Hfo & Hvo)].
  { left. unfold model_remove_item. rewrite lookup_empty. apply delete_empty. }
  right. split_and!.
  - eapply (folder_removed (is_host c)); [done|apply _|intros Hex; by apply not_eq_None_Some, Hk| |done]. intros x. unfold is_host. rewrite remove_host. apply is_some_delete.
  - eapply folder_frame; [..|eapply folder_ext; [|exact Hfo]].
    + by rewrite lookup_delete_ne, model_remove_ne.
    + intros x. by rewrite lookup_delete_ne, model_remove_ne.
    + intros x. unfold is_filesystem. by rewrite remove_filesystem.
  - intros h n. rewrite lookup_delete_ne, model_remove_ne by done. intros E. eapply node_ok_ext; [|by apply Hvo].
    intros x. unfold is_volume_of. by rewrite remove_volume_node.
Qed.

Lemma remove_filesystem_ok c k m : (ex -> filesystem c !! k <> None) -> tree_ok c m ->
  tree_ok (remove_record c (RecordId_Filesystem k)).2 (delete (fs_at k) (model_remove_item filesystems_at k m)).
Proof.
  intros Hk [->|(Hho & Hfo & Hvo)].
  { left. unfold model_remove_item. rewrite lookup_empty. apply delete_empty. }
  right. split_and!.
  - eapply folder_frame; [..|eapply folder_ext; [|exact Hho]].
    + by rewrite lookup_delete_ne, model_remove_ne.
    + intros x. by rewrite lookup_delete_ne, model_remove_ne.
    + intros x. unfold is_host. by rewrite remove_host.
  - eapply (folder_removed (is_filesystem c)); [done|apply _|intros Hex; by apply not_eq_None_Some, Hk| |done].
    intros x. unfold is_filesystem. rewrite remove_filesystem. apply is_some_delete.
  - intros h n. rewrite lookup_delete_ne, model_remove_ne by done. intros E. eapply node_ok_ext; [|by apply Hvo].
    intros x. unfold is_volume_of. by rewrite remove_volume_node.
Qed.

Lemma remove_volume_ok c k vn m : volume_node c !! k = Some vn -> tree_ok c m ->
  tree_ok (remove_record c (RecordId_VolumeNode k)).2 (model_remove_item (volumes_at (VolumeNodeRecord_host_id vn)) k m).
Proof.
  intros Hk [->|(Hho & Hfo & Hvo)].
  { left. unfold model_remove_item. by rewrite lookup_empty. }
  assert (forall h x, is_volume_of (remove_record c (RecordId_VolumeNode k)).2 h x <-> is_volume_of c h x /\ x <> k) as Hx.
  { intros h x. unfold is_volume_of. rewrite remove_volume_node. setoid_rewrite lookup_delete_Some. naive_solver. }
  right. split_and!.
  - eapply folder_frame; [by rewrite model_remove_ne|intros x; by rewrite model_remove_ne|]. eapply folder_ext, Hho.
    intros x. unfold is_host. by rewrite remove_host.
  - eapply folder_frame; [by rewrite model_remove_ne|intros x; by rewrite model_remove_ne|]. eapply folder_ext, Hfo.
    intros x. unfold is_filesystem. by rewrite remove_filesystem.
  - intros h n. unfold model_remove_item. destruct (m !! volumes_at (VolumeNodeRecord_host_id vn)) as [n0|] eqn:En.
    + rewrite lookup_insert. case_decide as E; [injection E as <-; intros [= <-]; eapply removed_ok; [by apply Hvo|by exists vn|apply Hx]|].
      intros E1. eapply node_ok_ext; [|by apply Hvo]. intros x. rewrite Hx. split; [|naive_solver].
      intros Hv. split; [done|]. intros ->. destruct Hv as (vn' & Hv' & Hh). rewrite Hk in Hv'. injection Hv' as <-. by rewrite Hh in E.
    + intros E1. eapply node_ok_ext; [|by apply Hvo]. intros x. rewrite Hx. split; [|naive_solver].
      intros Hv. split; [done|]. intros ->. destruct Hv as (vn' & Hv' & <-). rewrite Hk in Hv'. injection Hv' as <-. congruence.
Qed.

(** *** The user *)

Lemma main_cases b : main b = true -> b = hosts_at \/ (exists h, b = host_at h) \/ (exists h, b = volumes_at h) \/ b = filesystems_at \/ exists f, b = fs_at f.
Proof. unfold main. repeat case_match; try done; eauto 10. Qed.

Lemma below_aside c a ids m m' : main a = false -> m <> ∅ -> below c a ids m = Some m' -> aside m m'.
Proof.
  intros Ha Hne E. split; [|done]. unfold Tree.below in E. repeat case_match; try discriminate Ha; try (by injection E as <-).
  - injection E as <-. intros b Hb. rewrite or_default_lookup. destruct (m !! b); [done|]. rewrite decide_False; [done|].
    intros (? & -> & (k & -> & _)%list_elem_of_fmap)%list_elem_of_fmap. done.
  - by eapply or_insert_side in E.
Qed.

(** A node's own state. *)
Lemma tree_node c a n o q m : m !! a = Some n -> total q = total (node_paging n) -> (o = node_open n \/ a <> hosts_at /\ a <> filesystems_at) ->
  tree_ok c m -> tree_ok c (<[a := MkNode o (items n) q]> m).
Proof.
  intros Hn Ht Ho [->|(Hho & Hfo & Hvo)]; [by rewrite lookup_empty in Hn|]. right.
  split_and!; [apply folder_node; [done|naive_solver|done..]|apply folder_node; [done|naive_solver|done..]|by apply volumes_node].
Qed.

Lemma targets_aside c a id m m' : a = fs_at id -> m <> ∅ -> below c a [] m = Some m' -> aside m m'.
Proof.
  intros -> Hne E. split; [|done]. cbn [Tree.below fs_at] in E.
  apply bind_Some in E as (m1 & E1 & (m2 & E2 & (m3 & E3 & E4)%bind_Some)%bind_Some).
  apply or_insert_side in E1, E2, E3, E4; [|done..]. by rewrite E1, E2, E3.
Qed.

Lemma or_default_side steps b m a : a ∉ extend b <$> steps -> or_default steps b m !! a = m !! a.
Proof. intros Ha. rewrite or_default_lookup. destruct (m !! a); [done|]. by rewrite decide_False. Qed.

Lemma not_below (f : Z -> Step) b (ids : list Z) a : (forall k, a <> extend b (f k)) -> a ∉ extend b <$> (f <$> ids).
Proof. intros H (s & -> & (k & -> & _)%list_elem_of_fmap)%list_elem_of_fmap. by apply (H k). Qed.

Lemma toggle_volumes c h m m' : records_ok c -> tree_ok c m -> m <> ∅ -> below c (host_at h) [] m = Some m' -> tree_ok c m'.
Proof.
  intros (_ & _ & Hv) [->|(Hho & Hfo & Hvo)] Hne; [done|]. cbn [Tree.below host_at]. change (extend _ _) with (volumes_at h). unfold or_insert.
  destruct (m !! volumes_at h) eqn:En; [intros [= <-]; by right; split_and!|].
  intros (n & (ids & E & [= <-])%bind_Some & [= <-])%bind_Some. right.
  split_and!; [eapply folder_frame; [..|exact Hho]|eapply folder_frame; [..|exact Hfo]|]; try (by rewrite lookup_insert_ne); try (intros k; by rewrite lookup_insert_ne).
  intros h' n'. rewrite lookup_insert. case_decide as Eh; [injection Eh as <-; intros [= <-]|apply Hvo]. apply from_items_ok. intros k.
  rewrite (ids_by_label_elem _ _ _ _ _ E). unfold get_volume_nodes_by_host_id. split.
  - intros (x & [Hx%list_elem_of_In Hh%Z.eqb_eq]%list_elem_of_In%filter_In & <-). apply elem_of_values in Hx as (j & Hj). rewrite (Hv _ _ Hj). by exists x.
  - intros (x & Hx & Hh). exists x. split; [|by apply Hv]. apply list_elem_of_In, filter_In. split; [apply list_elem_of_In, elem_of_values; eauto|by apply Z.eqb_eq].
Qed.

Lemma toggle_ok c a open m m' : records_ok c -> tree_ok c m -> handle natord_le c (Msg_Toggle a open) m = Some m' -> tree_ok c m'.
Proof.
  intros Hr Ht. unfold handle. cbn [Tree.update]. destruct (m !! a) as [n|] eqn:Hn; [|by intros [= <-]].
  intros ([m1 ms] & (m2 & E & [= <- <-])%bind_Some & [= <-])%bind_Some. set (m1 := <[a := MkNode open (items n) (node_paging n)]> m) in E.
  assert (m1 <> ∅) as Hne by apply insert_non_empty.
  assert (a <> hosts_at -> a <> filesystems_at -> tree_ok c m1) as H1 by (intros; apply tree_node; auto).
  destruct (main a) eqn:Ha; [|eapply tree_aside; [by eapply below_aside|by apply H1; intros ->]].
  apply main_cases in Ha as [->|[[h ->]|[[h ->]|[->|[f ->]]]]].
  - injection E as <-. destruct Ht as [->|(Hho & Hfo & Hvo)]; [by rewrite lookup_empty in Hn|]. right. split_and!.
    + by apply (folder_toggled _ _ host_at Step_Host).
    + eapply folder_frame, Hfo; [|intros k]; (rewrite or_default_side by (by apply not_below)); unfold m1; by rewrite lookup_insert_ne.
    + intros h n'. rewrite or_default_side by (by apply not_below). unfold m1. rewrite lookup_insert_ne by done. apply Hvo.
  - eapply toggle_volumes; [done| |done|exact E]. by apply H1.
  - injection E as <-. by apply H1.
  - injection E as <-. destruct Ht as [->|(Hho & Hfo & Hvo)]; [by rewrite lookup_empty in Hn|]. right. split_and!.
    + eapply folder_frame, Hho; [|intros k]; (rewrite or_default_side by (by apply not_below)); unfold m1; by rewrite lookup_insert_ne.
    + by apply (folder_toggled _ _ fs_at Step_Fs).
    + intros h n'. rewrite or_default_side by (by apply not_below). unfold m1. rewrite lookup_insert_ne by done. apply Hvo.
  - eapply tree_aside; [apply (targets_aside c (fs_at f) f m1); [done|done|exact E]|by apply H1].
Qed.

Lemma page_ok c a msg m m' : (msg = PNext \/ msg = PPrev) -> tree_ok c m -> handle natord_le c (Msg_Page a msg) m = Some m' -> tree_ok c m'.
Proof.
  intros Hm Ht. unfold handle. cbn [Tree.update]. destruct (m !! a) as [n|] eqn:Hn; [|by intros [= <-]].
  destruct Hm as [->| ->]; intros [= <-]; apply tree_node; auto.
Qed.

(** *** Messages of warp drive *)

Lemma update_known_ok c r m : records_ok c -> event_ok (MkGuiPage c m) (Ev_Message (Message_RecordChange (Change_Update r))) ->
  (in_tree (record_id r) = true -> cache_get c (record_id r) <> None) -> tree_ok c m -> tree_ok (insert_record c r) m.
Proof.
  intros Hr Hev Hk. apply tree_ext.
  - intros k. unfold is_host. rewrite insert_host. destruct r; try done. rewrite is_some_insert. split; [by right|]. intros [->|H]; [|done].
    specialize (Hk eq_refl). cbn in Hk. destruct (host c !! Host_id x); [eauto|done].
  - intros k. unfold is_filesystem. rewrite insert_filesystem. destruct r; try done. rewrite is_some_insert. split; [by right|]. intros [->|H]; [|done].
    specialize (Hk eq_refl). cbn in Hk. destruct (filesystem c !! Filesystem_id x); [eauto|done].
  - intros h k. unfold is_volume_of. rewrite insert_volume_node. destruct r; try done. setoid_rewrite lookup_insert.
    specialize (Hk eq_refl). cbn in Hk, Hev. destruct (volume_node c !! VolumeNodeRecord_id x) as [y|] eqn:Ey; [|done]. specialize (Hev y eq_refl). split.
    + intros (vn & Hvn & Hh). case_decide as E; [|eauto]. subst k. rewrite Ey in Hvn. injection Hvn as <-. exists x. split; [done|congruence].
    + intros (vn & Hvn & Hh). case_decide as E; [|eauto]. subst k. injection Hvn as <-. exists y. split; [done|congruence].
Qed.

Lemma cache_get_new c r : cache_get c (record_id r) = None ->
  match r with Record_VolumeNode x => volume_node c !! VolumeNodeRecord_id x = None | _ => True end.
Proof. destruct r; try done. cbn. by destruct (volume_node c !! _). Qed.

Lemma add_ok c r m m' : records_ok c -> tree_ok c m -> in_tree (record_id r) = true -> cache_get c (record_id r) = None ->
  handle natord_le (insert_record c r) (Msg_Add (record_id r)) m = Some m' -> tree_ok (insert_record c r) m'.
Proof.
  intros Hr Ht Hin Hnew E. apply cache_get_new in Hnew. destruct r; try discriminate Hin.
  - by eapply add_filesystem_ok.
  - by eapply add_host_ok.
  - apply bind_Some in E as ([m1 ms] & E1 & E). pose proof (add_aside _ _ _ _ _ E1) as [Ha ->]. injection E as <-.
    eapply tree_aside; [exact Ha|]. eapply tree_ext, Ht; intros; unfold is_host, is_filesystem, is_volume_of; by rewrite ?insert_host, ?insert_filesystem, ?insert_volume_node.
  - apply bind_Some in E as ([m1 ms] & E1 & E). pose proof (add_aside _ _ _ _ _ E1) as [Ha ->]. injection E as <-.
    eapply tree_aside; [exact Ha|]. eapply tree_ext, Ht; intros; unfold is_host, is_filesystem, is_volume_of; by rewrite ?insert_host, ?insert_filesystem, ?insert_volume_node.
  - by eapply add_volume_ok.
Qed.

Lemma tree_ext_remove c i m : (forall k, i <> RecordId_Host k) -> (forall k, i <> RecordId_Filesystem k) -> (forall k, i <> RecordId_VolumeNode k) ->
  tree_ok c m -> tree_ok (remove_record c i).2 m.
Proof.
  intros Hh Hf Hv. apply tree_ext; intros; unfold is_host, is_filesystem, is_volume_of;
    rewrite ?remove_host, ?remove_filesystem, ?remove_volume_node; destruct i; try done; exfalso; [eapply Hh|eapply Hf|eapply Hv]; done.
Qed.

Lemma delete_ok c i m m1 ms m' : tree_ok c m -> in_tree i = true -> (ex -> cache_get c i <> None) ->
  update c (Msg_Remove i) m = Some (m1, ms) -> handle_all natord_le (remove_record c i).2 ms m1 = Some m' -> tree_ok (remove_record c i).2 m'.
Proof.
  intros Ht Hin Hget E1 E2. pose proof (remove_aside _ _ _ _ _ _ _ E1 E2) as Ha. destruct i; try discriminate Hin.
  - injection E1 as <- <-. injection E2 as <-. apply remove_filesystem_ok; [|done]. intros Hex. specialize (Hget Hex). cbn in Hget. by destruct (filesystem c !! id).
  - injection E1 as <- <-. injection E2 as <-. apply remove_host_ok; [|done]. intros Hex. specialize (Hget Hex). cbn in Hget. by destruct (host c !! id).
  - eapply tree_aside; [exact Ha|]. by apply tree_ext_remove.
  - eapply tree_aside; [exact Ha|]. by apply tree_ext_remove.
  - cbn in E1. destruct (volume_node c !! id) as [vn|] eqn:Ev; injection E1 as <- <-; injection E2 as <-; [by apply remove_volume_ok|].
    eapply tree_ext; [..|exact Ht]; intros; unfold is_host, is_filesystem, is_volume_of; rewrite ?remove_host, ?remove_filesystem, ?remove_volume_node; [done..|].
    by rewrite delete_id.
Qed.

Lemma gui_event_ok p e p' : (forall c, e <> Ev_Message (Message_Records c)) -> state_ok p -> event_ok p e -> (ex -> ~ stray p e) ->
  gui_event p e = Some p' -> state_ok p'.
Proof.
  intros Hnr [Hr Ht] He Hs E. destruct p as [c m]. cbn in Hr, Ht. destruct e as [[l|c1|[r|i]]|a o|a msg]; cbn [Tree.gui_event gp_records gp_tree] in E.
  - by injection E as <-.
  - by destruct (Hnr c1).
  - destruct (in_tree (record_id r) && bool_decide (cache_get c (record_id r) = None)) eqn:Eb.
    + apply bind_Some in E as (m' & E & [= <-]). apply andb_true_iff in Eb as [Hi Hn%bool_decide_eq_true].
      split; [by apply records_ok_insert|]. by apply (add_ok c r m).
    + injection E as <-. split; [by apply records_ok_insert|]. apply update_known_ok; [done..| |done]. intros Hi Hn. by rewrite Hi, bool_decide_eq_true_2 in Eb.
  - destruct (in_tree i) eqn:Hi.
    + apply bind_Some in E as ([m1 ms] & E1 & (m' & E2 & [= <-])%bind_Some). split; [by apply records_ok_remove|]. by eapply delete_ok.
    + injection E as <-. split; [by apply records_ok_remove|]. apply tree_ext_remove; [..|done]; by intros k ->.
  - apply bind_Some in E as (m' & E & [= <-]). split; [done|]. by eapply toggle_ok.
  - apply bind_Some in E as (m' & E & [= <-]). split; [done|]. by eapply page_ok.
Qed.

Lemma gui_records_ok p c p' : records_ok c -> gui_event p (Ev_Message (Message_Records c)) = Some p' -> state_ok p'.
Proof. intros Hc E. apply bind_Some in E as (m' & E & [= <-]). split; [exact Hc|]. by eapply reset_ok. Qed.
End spec.
End exact.

(** When the numbers are right is what changes. *)
Lemma node_ok_weaken (ex ex' : Prop) P n : (ex' -> ex) -> node_ok ex P n -> node_ok ex' P n.
Proof. intros H (Hw & He & Ht). split_and!; [done..|auto]. Qed.

Lemma folder_ok_weaken (ex ex' : Prop) P a f m : (ex' -> ex) -> folder_ok ex P a f m -> folder_ok ex' P a f m.
Proof. intros H (n & Hn & Hok & Ho). exists n. split_and!; [done|by eapply node_ok_weaken|done]. Qed.

Lemma state_ok_weaken (ex ex' : Prop) p : (ex' -> ex) -> state_ok ex p -> state_ok ex' p.
Proof.
  intros H [Hr Ht]. split; [done|]. destruct Ht as [?|(Hh & Hf & Hv)]; [by left|right].
  split_and!; [by eapply folder_ok_weaken..|]. intros h n Hn. by eapply node_ok_weaken, Hv.
Qed.

Section runs.
Context (natord_le : relation string) `{!RelDecision natord_le}.
Abbreviation gui_event := (Tree.gui_event natord_le).
Abbreviation gui_events := (Tree.gui_events natord_le).

(** The events of a run are what is relied on. *)
Definition run_ok (es : list GuiEvent) : Prop :=
  forall es1 e es2 p1, es = (es1 ++ e :: es2)%list -> gui_events es1 = Some p1 -> event_ok p1 e.

(** Since the records were last sent there was no stray deletion. *)
Definition no_stray (es : list GuiEvent) : Prop :=
  forall es1 e es2 p1, es = (es1 ++ e :: es2)%list -> gui_events es1 = Some p1 -> stray p1 e ->
    exists c, Ev_Message (Message_Records c) ∈ es2.

Lemma no_stray_snoc es e p : (forall c, e <> Ev_Message (Message_Records c)) -> gui_events es = Some p ->
  no_stray (es ++ [e])%list -> no_stray es /\ ~ stray p e.
Proof.
  intros Hnr Hp Hs. split.
  - intros es1 e1 es2 p1 -> Hp1 Hst. destruct (Hs es1 e1 (es2 ++ [e])%list p1) as [c Hc]; [by rewrite <-app_assoc|done..|].
    exists c. apply elem_of_app in Hc as [?|Hc]; [done|]. apply list_elem_of_singleton in Hc. by destruct (Hnr c).
  - intros Hst. destruct (Hs es e [] p eq_refl Hp Hst) as [c Hc]. by apply elem_of_nil in Hc.
Qed.

Lemma gui_events_ok es p : gui_events es = Some p -> run_ok es -> state_ok (no_stray es) p.
Proof.
  revert p. induction es as [|e es IH] using rev_ind; intros p.
  { intros [= <-] _. split; [|by left]. split_and!; cbn; intros k x; by rewrite lookup_empty. }
  unfold Tree.gui_events. rewrite foldl_app. cbn. intros (p1 & E1 & E)%bind_Some Hok.
  assert (event_ok p1 e) as He by (by eapply Hok).
  assert (state_ok (no_stray es) p1) as Hp1.
  { apply IH; [done|]. intros es1 e' es2 p2 -> Hp2. eapply Hok; [|done]. by rewrite <- app_assoc. }
  assert ((exists c, e = Ev_Message (Message_Records c)) \/ forall c, e <> Ev_Message (Message_Records c)) as [[c ->]|Hnr]
    by (destruct e as [[]| |]; eauto).
  { by eapply gui_records_ok. }
  eapply gui_event_ok; [done| |done|intros H; by eapply no_stray_snoc in H as [_ H]|done].
  eapply state_ok_weaken; [|exact Hp1]. intros H. by eapply no_stray_snoc in H as [H _].
Qed.

(** ** The tree follows the records *)


(** ** What is shown *)

Definition shown_id (x : Shown) : option RecordId := match x with Shown_Item i _ => Some i | Shown_Folder _ _ _ _ => None end.

Lemma items_shown {A} (t : gmap Z A) (id : A -> Z) (mk : A -> option (list Shown)) (rid : Z -> RecordId) ids rows :
  (forall k, k ∈ ids -> exists x, t !! k = Some x /\ id x = k) ->
  (forall x r, id x ∈ ids -> mk x = Some r -> exists b, r = [Shown_Item (rid (id x)) b]) ->
  mapM mk (omap (fun k => t !! k) ids) = Some rows -> shown_id <$> concat rows = Some ∘ rid <$> ids.
Proof.
  revert rows. induction ids as [|k ids IH]; intros rows Ht Hmk; cbn; [by intros [= <-]|].
  destruct (Ht k (list_elem_of_here _ _)) as (x & -> & Hx). cbn. intros (r & Hr & (rs & Hrs & [= <-])%bind_Some)%bind_Some.
  destruct (Hmk x r) as (b & ->); [subst k; apply list_elem_of_here|done|]. cbn. rewrite Hx. f_equal. apply IH; [|intros y r' Hy; apply Hmk; by right|done].
  intros j Hj. apply Ht. by right.
Qed.

(** The first page of the servers: as many as fit, in the order of their ids, and the number of all
    of them beside the folder. *)
Theorem first_servers_shown es p n shown :
  gui_events es = Some p -> run_ok es -> no_stray es ->
  gp_tree p !! hosts_at = Some n -> node_open n = true -> offset (node_paging n) = 0 -> limit (node_paging n) ∈ ROW_OPTS -> Z.of_nat (length (items n)) < 2 ^ 31 ->
  tree_host_collection_view (gp_records p) (gp_tree p) = Some shown ->
  exists rows, shown = [Shown_Folder hosts_at (Z.of_nat (length (items n))) true rows] /\
    shown_id <$> rows = Some ∘ RecordId_Host <$> take (Z.to_nat (limit (node_paging n))) (items n).
Proof.
  intros E Hok Hst Hn Hopen Hoff Hl Hlen. destruct (gui_events_ok es p E Hok) as [(Hh & _) [Ht|((n' & Hn' & (_ & Hit & Htot) & Hitem) & _)]].
  { rewrite Ht, lookup_empty in Hn. done. }
  rewrite Hn in Hn'. injection Hn' as <-. unfold tree_host_collection_view, tree_collection_view. change (Address_new [Step_HostCollection]) with hosts_at.
  rewrite Hn, Hopen. intros (rows & (rs & Ers & [= <-])%bind_Some & [= <-])%bind_Some. exists (concat rs).
  assert (total (node_paging n) = Z.of_nat (length (items n))) as Hlt by (rewrite Htot by done; apply Z.mod_small; lia). rewrite Hlt. split; [done|].
  assert (slice_page (node_paging n) (items n) = take (Z.to_nat (limit (node_paging n))) (items n)) as Hs.
  { unfold slice_page, page_end. rewrite Hoff, Hlt. change (drop (Z.to_nat 0) (items n)) with (items n). apply row_opts_bound in Hl. rewrite usize_add_small by lia.
    destruct (Z_le_gt_dec (limit (node_paging n)) (Z.of_nat (length (items n)))); [f_equal; lia|].
    rewrite (take_ge _ (Z.to_nat (limit _))), take_ge by lia. done. }
  unfold page_items in Ers. rewrite Hs in Ers. eapply (items_shown _ Host_id); [..|exact Ers].
  - intros k Hk. apply elem_of_take in Hk as (i & Hk & _). apply list_elem_of_lookup_2, Hit in Hk as [x Hx]. exists x. split; [done|by apply Hh].
  - intros x r Hx. unfold tree_host_item_view, item_view. change (Address_new _) with (host_at (Host_id x)).
    apply elem_of_take in Hx as (i & Hx & _). apply list_elem_of_lookup_2, Hit in Hx. destruct (Hitem Hopen _ Hx) as [nx ->].
    intros (b & _ & [= <-])%bind_Some. eauto.
Qed.
End runs.

(** ** Samples *)

Definition plain_order (x y : string) : Prop := True.
#[export] Instance plain_order_dec : RelDecision plain_order.
Proof. intros x y. left. exact I. Defined.

Definition tree_profile : ServerProfile := MkServerProfile false false false "" false "" false false [] "" "" "" false false.
Definition tree_host (id : Z) (name : string) : Host :=
  MkHost name None 1 None "" name id false "" name "" false None name None None None "" None tree_profile "" "".
Definition tree_fs (id : Z) (name : string) : Filesystem :=
  MkFilesystem None None None None None (MkFilesystemConfParams None None None None None None None None None None None) 1 None None None id false name [] "" name [] "" "" "".
Definition tree_pool (id fs : Z) : OstPoolRecord := MkOstPoolRecord id "pool" fs (Some true) None.
Definition tree_target (id : Z) (name uuid : string) : ManagedTargetRecord :=
  MkManagedTargetRecord id 0 "" false (Some name) (Some uuid) None None None None false (Some true) None.
Definition tree_mount (id : Z) (name uuid : string) (fs : list string) : TargetRecord := MkTargetRecord id "mounted" name None None [] fs uuid None None.

Definition tree_records (rs : list Record_) : Cache := foldl insert_record Cache_default rs.
Definition upd (r : Record_) : GuiEvent := Ev_Message (Message_RecordChange (Change_Update r)).
Definition del (i : RecordId) : GuiEvent := Ev_Message (Message_RecordChange (Change_Delete i)).
Definition recs (rs : list Record_) : GuiEvent := Ev_Message (Message_Records (tree_records rs)).







(** ** Where the tree is wrong *)

Definition pools_at (f : Z) : Address := [Step_FsCollection; Step_Fs f; Step_OstPoolCollection].
Definition pool_osts_at (f k : Z) : Address := [Step_FsCollection; Step_Fs f; Step_OstPoolCollection; Step_OstPool k; Step_OstCollection].
Definition mgts_at (f : Z) : Address := [Step_FsCollection; Step_Fs f; Step_MgtCollection].

Definition tree_items (p : option GuiPage) (a : Address) : option (list Z * Z) :=
  p ← p; n ← gp_tree p !! a; Some (items n, total (node_paging n)).

(** A user connects after the third server is removed from the cache of warp drive and before its
    deletion is sent: two servers are shown, and the number 1 beside them. *)
Theorem stray_delete_miscounts :
  tree_items (gui_events plain_order [recs [Record_Host (tree_host 1 "oss1"); Record_Host (tree_host 2 "oss2")]; del (RecordId_Host 3)]) hosts_at = Some ([1; 2], 1).
Proof. by vm_compute. Qed.

(** A page after the first is as long as all the pages up to its end: of 25 items with 10 to a
    page, the second page shows the last 15. *)
Theorem second_page_too_long : slice_page (next_page (Paging_new 25)) (seqZ 0 25) = seqZ 10 15 /\ limit (next_page (Paging_new 25)) = 10.
Proof. split; reflexivity. Qed.

Definition pool_events : list GuiEvent :=
  [recs [Record_Filesystem (tree_fs 1 "fs"); Record_OstPool (tree_pool 5 1); Record_OstPoolOsts (MkOstPoolOstsRecord 7 5 3); Record_OstPoolOsts (MkOstPoolOstsRecord 8 5 4);
         Record_Target (tree_target 3 "fs-OST0001" "u3"); Record_Target (tree_target 4 "fs-OST0002" "u4"); Record_Target (tree_target 6 "fs-OST0003" "u6")];
   Ev_Toggle filesystems_at true; Ev_Toggle (fs_at 1) true; Ev_Toggle (pools_at 1) true; Ev_Toggle (pools_at 1 ++ [Step_OstPool 5])%list true].

(** When an OST leaves a pool, the pool is taken out of the tree although it is still in the cache,
    and the number of pools goes down with every OST: with the second one it wraps around. *)
Theorem ost_takes_pool_along :
  tree_items (gui_events plain_order pool_events) (pools_at 1) = Some ([5], 1) /\
  tree_items (gui_events plain_order (pool_events ++ [del (RecordId_OstPoolOsts 7)])%list) (pools_at 1) = Some ([], 0) /\
  tree_items (gui_events plain_order (pool_events ++ [del (RecordId_OstPoolOsts 7); del (RecordId_OstPoolOsts 8)])%list) (pools_at 1) = Some ([], 2 ^ 32 - 1).
Proof. split_and!; vm_compute; reflexivity. Qed.

(** When an OST joins a pool, the folder of the pool's OSTs stays as it was. *)
Theorem ost_not_added_to_pool :
  tree_items (gui_events plain_order pool_events) (pool_osts_at 1 5) = Some ([3; 4], 2) /\
  tree_items (gui_events plain_order (pool_events ++ [upd (Record_OstPoolOsts (MkOstPoolOstsRecord 9 5 6))])%list) (pool_osts_at 1 5) = Some ([3; 4], 2).
Proof. split_and!; vm_compute; reflexivity. Qed.

Definition mgs_events : list GuiEvent :=
  [recs [Record_Filesystem (tree_fs 1 "fs1"); Record_Filesystem (tree_fs 2 "fs2"); Record_TargetRecord (tree_mount 1 "MGS" "u" ["fs1"; "fs2"])];
   Ev_Toggle filesystems_at true; Ev_Toggle (fs_at 1) true; Ev_Toggle (fs_at 2) true].

(** A target of two file systems is added below the first only: the loop over the file systems looks
    for a folder of the OSTs of all pools, which there never is, and ends there. *)
Theorem second_filesystem_missed :
  let p := gui_events plain_order (mgs_events ++ [upd (Record_Target (tree_target 3 "MGS" "u"))])%list in
  tree_items p (mgts_at 1) = Some ([3], 1) /\ tree_items p (mgts_at 2) = Some ([], 0).
Proof. split; vm_compute; reflexivity. Qed.

(** A target without a name stops the program when a file system is opened. *)
Theorem unnamed_target_panics :
  gui_events plain_order [recs [Record_Filesystem (tree_fs 1 "fs"); Record_Target (MkManagedTargetRecord 3 0 "" false None None None None None None false (Some true) None)];
                          Ev_Toggle filesystems_at true; Ev_Toggle (fs_at 1) true] = None.
Proof. vm_compute. reflexivity. Qed.
