(* ===== verification/NtpConfig.v ===== *)
(** * The agent's edits of [/etc/ntp.conf] ([iml-agent/src/action_plugins/ntp/])

    To make the manager the server of time, the agent rewrites the lines of the file that name
    servers and keeps each original behind a marker; the next edit first takes the marked lines
    back. How a file is cut into lines is the codec's, a parameter with the law that lines which
    were written are read back. *)
From S2P Require Import Prelude RustStd.
From stdpp Require Import base sets list strings.
From Stdlib Require Import Ascii Lia.
Open Scope string_scope.

Definition MARKER : string := "# IML_EDIT".
Definition REMOVE_MARKER : string := "#REMOVE_MARKER#".
Definition PREFIX : string := "server".

Definition eol : ascii := "010".

(** The original of a line that was edited; a line that was added becomes the mark for removal. *)
Definition reset_config (line : string) : string :=
  match split_first MARKER line with
  | Some (_, rest) => let original := trim rest in if String.eqb original "" then REMOVE_MARKER else original
  | None => line
  end.

Definition filter_out_remove_markers (line : string) : bool :=
  match split_first REMOVE_MARKER line with Some _ => false | None => true end.

Definition transform_config (server line : string) (prefix_found : bool) : string * bool :=
  if bool_decide (take 1 (str_split " " line) = ["server"]) then
    if prefix_found then (str_join " " [MARKER; line], true)
    else if String.eqb server "localhost" then
      (("server  127.127.1.0 " +:+ MARKER) +:+ String eol (("fudge   127.127.1.0 stratum 10 " +:+ MARKER) +:+ " " +:+ line), true)
    else (str_join " " [PREFIX; server; "iburst"; MARKER; line], true)
  else (line, prefix_found).

Section configure.
Context {E : Type}.

(** [try_fold] over the lines that are kept. *)
Fixpoint configure_lines (server : option string) (acc : string) (prefix_found : bool) (s : list (Result E string)) : Result E string :=
  match s with
  | [] => Ok acc
  | Err e :: _ => Err e
  | Ok line :: s =>
      let line := reset_config line in
      if filter_out_remove_markers line then
        let '(x, prefix_found) := match server with Some name => transform_config name line prefix_found | None => (line, prefix_found) end in
        configure_lines server ((acc +:+ x) +:+ String eol "") prefix_found s
      else configure_lines server acc prefix_found s
  end.

Definition configure_ntp (server : option string) (s : list (Result E string)) : Result E string := configure_lines server "" false s.

Fixpoint has_marker_from (acc : bool) (s : list (Result E string)) : Result E bool :=
  match s with
  | [] => Ok acc
  | Err e :: _ => Err e
  | Ok x :: s => has_marker_from (acc || match split_first MARKER x with Some _ => true | None => false end) s
  end.
Definition has_marker (s : list (Result E string)) : Result E bool := has_marker_from false s.

(** The file is read, and written when that was without error. A write that fails is an error of
    the action too; what it leaves in the file is the file system's. *)
Context (read_lines : string -> list (Result E string)).

Definition update_and_write_new_config (server : option string) (file : string) : Result E unit * string :=
  match configure_ntp server (read_lines file) with Ok updated => (Ok tt, updated) | Err e => (Err e, file) end.

Definition is_ntp_configured (file : string) : Result E bool := has_marker (read_lines file).
End configure.

(** ** Texts *)

Definition write_lines (ls : list string) : string := foldr (fun l s => l +:+ String eol s) "" ls.

Lemma write_lines_app l1 l2 : write_lines (l1 ++ l2) = write_lines l1 +:+ write_lines l2.
Proof. unfold write_lines. induction l1 as [|x l1 IH]; [done|]. cbn [foldr app]. rewrite IH. by rewrite <- str_app_assoc, str_app_cons. Qed.

(** The lines that a line becomes. *)
Definition edited (server line : string) (found : bool) : list string :=
  if bool_decide (take 1 (str_split " " line) = ["server"]) then
    if found then [str_join " " [MARKER; line]]
    else if String.eqb server "localhost" then
      ["server  127.127.1.0 " +:+ MARKER; ("fudge   127.127.1.0 stratum 10 " +:+ MARKER) +:+ " " +:+ line]
    else [str_join " " [PREFIX; server; "iburst"; MARKER; line]]
  else [line].

Fixpoint edit_all (server : option string) (found : bool) (ls : list string) : list string :=
  match ls with
  | [] => []
  | l :: ls =>
      match server with
      | Some name => edited name l found ++ edit_all server (transform_config name l found).2 ls
      | None => l :: edit_all server found ls
      end
  end.

Definition restore (ls : list string) : list string := List.filter filter_out_remove_markers (reset_config <$> ls).

Lemma edited_text server line found : (transform_config server line found).1 +:+ String eol "" = write_lines (edited server line found).
Proof.
  unfold transform_config, edited. destruct (bool_decide _), found; try done. destruct (String.eqb server "localhost"); [|done].
  cbn [fst write_lines foldr]. rewrite <- str_app_assoc. by rewrite str_app_cons.
Qed.

Lemma configure_text {E} server acc found ls :
  configure_lines (E := E) server acc found (Ok <$> ls) = Ok (acc +:+ write_lines (edit_all server found (restore ls))).
Proof.
  revert acc found. induction ls as [|l ls IH]; intros acc found; [cbn; by rewrite str_app_nil_r|]. cbn [configure_lines fmap list_fmap].
  unfold restore. cbn [fmap list_fmap List.filter]. destruct (filter_out_remove_markers (reset_config l)) eqn:Ef; [|apply IH].
  fold (restore ls). destruct server as [name|]; cbn [edit_all].
  - destruct (transform_config name (reset_config l) found) as [x f] eqn:Et. rewrite IH. rewrite write_lines_app, <- edited_text, Et. cbn [fst snd].
    by rewrite !str_app_assoc.
  - rewrite IH. f_equal. cbn [write_lines foldr]. by rewrite <- !str_app_assoc, str_app_cons.
Qed.

(** ** Taking edits back *)

Definition clean (l : string) : Prop := contains_char eol l = false /\ contains_char "013" l = false.

Definition is_server (l : string) : bool := bool_decide (take 1 (str_split " " l) = ["server"]).

(** A line as an administrator writes it: without the marks, and without space around a server. *)
Record plain (l : string) : Prop := MkPlain {
  plain_clean : clean l;
  plain_marker : split_first MARKER l = None;
  plain_remove : split_first REMOVE_MARKER l = None;
  plain_trim : is_server l = true -> trim l = l }.

(** A name that a server can have. *)
Definition server_name (s : string) : Prop := clean s /\ contains_char "#" s = false.

Lemma split_first_at c p a b : contains_char c a = false -> split_first (String c p) (a +:+ String c p +:+ b) = Some (a, b).
Proof.
  intros Ha. assert (forall p b, starts_with p (p +:+ b) = true /\ sdrop (slen p) (p +:+ b) = b) as Hp.
  { clear. intros p b. induction p as [|x p [IH1 IH2]]; [by destruct b|]. rewrite str_app_cons. split; [|exact IH2].
    unfold starts_with. cbn. destruct (ascii_dec x x); [exact IH1|done]. }
  induction a as [|x a IH].
  - rewrite str_app_nil_l. destruct (Hp (String c p) b) as [H1 H2]. rewrite str_app_cons in *. cbn [split_first]. by rewrite H1, H2.
  - cbn in Ha. apply orb_false_elim in Ha as [Hx Ha]. rewrite str_app_cons. cbn [split_first]. unfold starts_with. cbn [String.prefix].
    destruct (ascii_dec c x) as [->|]; [by rewrite Ascii.eqb_refl in Hx|]. by rewrite IH.
Qed.

Lemma trim_space l : trim (" " +:+ l) = trim l.
Proof. unfold trim. f_equal. by destruct l. Qed.

Lemma server_nonempty l : is_server l = true -> l <> "".
Proof. intros H ->. done. Qed.

Lemma reset_plain l : plain l -> reset_config l = l /\ filter_out_remove_markers l = true.
Proof. intros []. unfold reset_config, filter_out_remove_markers. by rewrite plain_marker0, plain_remove0. Qed.

Lemma reset_marked a l : contains_char "#" a = false -> plain l -> is_server l = true -> reset_config (a +:+ MARKER +:+ " " +:+ l) = l.
Proof.
  intros Ha [_ _ _ Ht] Hs. unfold reset_config, MARKER. rewrite split_first_at by done. rewrite trim_space, Ht by done.
  destruct (String.eqb_spec l "") as [->|]; done.
Qed.

Lemma restore_app l1 l2 : restore (l1 ++ l2) = (restore l1 ++ restore l2)%list.
Proof. unfold restore. by rewrite fmap_app, List.filter_app. Qed.

Lemma restore_one x l : plain l -> reset_config x = l -> restore [x] = [l].
Proof. intros Hl <-. unfold restore. cbn. by rewrite (proj2 (reset_plain _ Hl)). Qed.

Lemma restore_edited server l found : server_name server -> plain l -> restore (edited server l found) = [l].
Proof.
  intros [_ Hs] Hl. unfold edited. fold (is_server l). destruct (is_server l) eqn:Hi; [|apply restore_one; [done|by apply reset_plain]].
  destruct found; [|destruct (String.eqb server "localhost")].
  - apply restore_one; [done|]. by apply (reset_marked "").
  - change ([?x; ?y]) with ([x] ++ [y])%list. rewrite restore_app. change (restore ["server  127.127.1.0 " +:+ MARKER]) with (@nil string).
    apply (restore_one _ l Hl). rewrite <- str_app_assoc. by apply reset_marked.
  - apply restore_one; [done|]. cbn [str_join]. replace (PREFIX +:+ " " +:+ server +:+ " " +:+ "iburst" +:+ " " +:+ MARKER +:+ " " +:+ l)
      with ((PREFIX +:+ " " +:+ server +:+ " " +:+ "iburst" +:+ " ") +:+ MARKER +:+ " " +:+ l) by (by rewrite !str_app_assoc).
    apply reset_marked; [|done..]. rewrite !contains_char_app, Hs. done.
Qed.

Lemma restore_edits server found ls : (forall s, server = Some s -> server_name s) -> Forall plain ls -> restore (edit_all server found ls) = ls.
Proof.
  intros Hs Hls. revert found. induction Hls as [|l ls Hl Hls IH]; intros found; [done|]. cbn [edit_all]. destruct server as [s|].
  - rewrite restore_app, IH, restore_edited by auto. done.
  - change (l :: edit_all None found ls) with ([l] ++ edit_all None found ls)%list. rewrite restore_app, IH. by rewrite (restore_one l l Hl (proj1 (reset_plain _ Hl))).
Qed.

Lemma edit_none found ls : edit_all None found ls = ls.
Proof. induction ls as [|l ls IH]; cbn [edit_all]; congruence. Qed.

Lemma restore_plain ls : Forall plain ls -> restore ls = ls.
Proof. intros Hls. rewrite <- (restore_edits None false ls) at 2 by done. by rewrite edit_none. Qed.

Lemma clean_app s t : clean s -> clean t -> clean (s +:+ t).
Proof. intros [H1 H2] [H3 H4]. split; by rewrite contains_char_app, ?H1, ?H2. Qed.

Lemma clean_edited server l found : clean server -> clean l -> Forall clean (edited server l found).
Proof.
  intros Hs Hl. unfold edited. destruct (bool_decide _); [|by apply Forall_singleton]. destruct found; [|destruct (String.eqb server "localhost")].
  all: rewrite ?Forall_cons, ?Forall_nil; split_and?; try done; cbn [str_join]; repeat apply clean_app; done.
Qed.

Lemma clean_edits server found ls : (forall s, server = Some s -> clean s) -> Forall clean ls -> Forall clean (edit_all server found ls).
Proof.
  intros Hs Hls. revert found. induction Hls as [|l ls Hl Hls IH]; intros found; [constructor|]. cbn [edit_all]. destruct server as [s|]; [|by constructor].
  apply Forall_app. split; [apply clean_edited; auto|apply IH].
Qed.

Lemma plain_cleans ls : Forall plain ls -> Forall clean ls.
Proof. intros H. eapply Forall_impl; [exact H|]. by intros l []. Qed.

Section file.
Context {E : Type} (read_lines : string -> list (Result E string)).
Hypothesis read_written : forall ls, Forall clean ls -> read_lines (write_lines ls) = Ok <$> ls.

Lemma update_text server ls : Forall clean ls ->
  update_and_write_new_config read_lines server (write_lines ls) = (Ok tt, write_lines (edit_all server false (restore ls))).
Proof. intros Hls. unfold update_and_write_new_config, configure_ntp. rewrite read_written by done. by rewrite configure_text. Qed.

(** Edits do not pile up: on a file of plain lines, setting a server and then removing it gives
    the file back as it was, and setting one server and then another gives what setting the second
    alone gives. *)
Theorem ntp_edits_undone ls s1 server :
  Forall plain ls -> server_name s1 -> (forall s, server = Some s -> server_name s) ->
  let file := (update_and_write_new_config read_lines (Some s1) (write_lines ls)).2 in
  (update_and_write_new_config read_lines server file).2 = (update_and_write_new_config read_lines server (write_lines ls)).2 /\
  (update_and_write_new_config read_lines None file).2 = write_lines ls.
Proof.
  intros Hls H1 Hs. cbn zeta. rewrite (update_text (Some s1)) by by apply plain_cleans. cbn [snd].
  pose proof (restore_plain ls Hls) as Hr.
  assert (Forall clean (edit_all (Some s1) false (restore ls))) as Hc.
  { rewrite Hr. apply clean_edits; [by intros s [= <-]; apply H1|by apply plain_cleans]. }
  rewrite !update_text by (done || by apply plain_cleans). cbn [snd]. rewrite Hr. rewrite restore_edits; [|by intros s [= <-]|done].
  by rewrite edit_none.
Qed.
End file.

(** A reader that cuts a text at each end of a line keeps what was written. *)
Definition cut_lines (text : string) : list (Result Empty_set string) := Ok <$> removelast (str_split eol text).

Lemma cut_written ls : Forall clean ls -> cut_lines (write_lines ls) = Ok <$> ls.
Proof.
  intros H. unfold cut_lines. f_equal. induction H as [|l ls [Hl _] Hls IH]; [done|]. cbn [write_lines foldr].
  rewrite str_split_app by done. fold (write_lines ls). pose proof (str_split_nonempty eol (write_lines ls)).
  cbn [removelast]. destruct (str_split eol (write_lines ls)); [done|]. by rewrite IH.
Qed.

Definition demo_conf : list string := ["driftfile /var/lib/ntp/drift"; "server 0.centos.pool.ntp.org iburst"; "server 1.centos.pool.ntp.org iburst"; "keys /etc/ntp/keys"].

Lemma ntp_edits_undone_witness :
  let file := (update_and_write_new_config cut_lines (Some "adm.local") (write_lines demo_conf)).2 in
  (update_and_write_new_config cut_lines (Some "localhost") file).2 = (update_and_write_new_config cut_lines (Some "localhost") (write_lines demo_conf)).2 /\
  (update_and_write_new_config cut_lines None file).2 = write_lines demo_conf.
Proof.
  apply (ntp_edits_undone cut_lines cut_written demo_conf "adm.local" (Some "localhost")).
  - repeat constructor.
  - repeat constructor.
  - intros s [= <-]. repeat constructor.
Defined.

Definition marked (x : string) : bool := match split_first MARKER x with Some _ => true | None => false end.

Section configured.
Context {E : Type}.

Lemma has_marker_lines acc ls :
  has_marker_from (E := E) acc (Ok <$> ls) = Ok (acc || existsb marked ls).
Proof. revert acc. induction ls as [|l ls IH]; intros acc; cbn [has_marker_from fmap list_fmap existsb]; [by rewrite orb_false_r|]. by rewrite IH, orb_assoc. Qed.

Lemma edited_marked server l found : server_name server -> plain l ->
  existsb marked (edited server l found) = is_server l.
Proof.
  intros [_ Hs] Hl. unfold edited. fold (is_server l). destruct (is_server l).
  - destruct found; [done|]. destruct (String.eqb server "localhost"); [done|]. cbn [str_join existsb].
    replace (PREFIX +:+ " " +:+ server +:+ " " +:+ "iburst" +:+ " " +:+ MARKER +:+ " " +:+ l)
      with ((PREFIX +:+ " " +:+ server +:+ " " +:+ "iburst" +:+ " ") +:+ MARKER +:+ " " +:+ l) by (by rewrite !str_app_assoc).
    unfold marked, MARKER. rewrite split_first_at; [done|]. rewrite !contains_char_app, Hs. done.
  - cbn. unfold marked. by rewrite (plain_marker _ Hl).
Qed.

(** Whether the file counts as configured after a server was set is decided by the file: it does
    exactly when some line names a server. A file without such a line is written back as it was,
    and the action succeeds without having set the server. *)
Theorem configured_iff_server (read_lines : string -> list (Result E string)) ls server :
  (forall ls, Forall clean ls -> read_lines (write_lines ls) = Ok <$> ls) -> Forall plain ls -> server_name server ->
  is_ntp_configured read_lines (update_and_write_new_config read_lines (Some server) (write_lines ls)).2 = Ok (existsb is_server ls).
Proof.
  intros Hr Hls Hs. rewrite (update_text read_lines Hr) by by apply plain_cleans. cbn [snd].
  rewrite restore_plain by done.
  unfold is_ntp_configured. rewrite Hr by (apply clean_edits; [intros s [= <-]; apply Hs|by apply plain_cleans]).
  unfold has_marker. rewrite has_marker_lines. cbn [orb]. f_equal. generalize false as found.
  induction Hls as [|l ls Hl Hls IH]; intros found; [done|]. cbn [edit_all existsb]. by rewrite existsb_app, edited_marked, IH.
Qed.
End configured.

(** A file with no line for a server: the action reports success and nothing was set. *)
Example no_server_no_edit :
  update_and_write_new_config cut_lines (Some "adm.local") (write_lines ["pool 2.pool.ntp.org"]) = (Ok tt, write_lines ["pool 2.pool.ntp.org"]) /\
  is_ntp_configured cut_lines (write_lines ["pool 2.pool.ntp.org"]) = Ok false.
Proof. split; reflexivity. Qed.
