(* ===== verification/FidActions.v ===== *)
(** * The agent's actions on lists of file identifiers ([iml-agent/src/action_plugins/stratagem/])

    The task runner hands each action a list of identifiers; the action answers with those it
    could not treat. What the operating system and liblustreapi do is given by arguments: for a
    command, how it ended and when, by the position of the item it is run for. *)
From S2P Require Import Prelude RustStd WireTypes Fids Tasks.
From stdpp Require Import base gmap sets list strings.
From Stdlib Require Import Ascii ZArith Lia Permutation.
Open Scope string_scope.
Open Scope Z_scope.

(** ** Commands ([iml-cmd]) *)

(** The exit code of a process, none after a signal. *)
Abbreviation ExitStatus := (option Z) (only parsing).

Definition success (s : ExitStatus) : bool := bool_decide (s = Some 0).

(** [raw_os_error] of an [io::Error]. *)
Abbreviation IoError := (option Z) (only parsing).

Inductive CmdError : Type :=
  | CmdIo (err : IoError)
  | CmdOutput (status : ExitStatus).

Definition checked_output (output : Result IoError ExitStatus) : Result CmdError ExitStatus :=
  match output with
  | Err e => Err (CmdIo e)
  | Ok x => if success x then Ok x else Err (CmdOutput x)
  end.

(** [as i16]. *)
Definition as_i16 (x : Z) : Z := (x + 2 ^ 15) mod 2 ^ 16 - 2 ^ 15.

Inductive ImlAgentError : Type :=
  | EIo (e : IoError)
  | ECmd (e : CmdError)
  | ELiblustre (e : string)
  | ERequired (s : string)
  | EMissingArgument (s : string).

(** ** Streams *)

(** [StreamExt::chunks]: [cur] is the buffer. *)
Fixpoint chunks_go {A} (cap : nat) (cur xs : list A) : list (list A) :=
  match xs with
  | [] => match cur with [] => [] | _ => [cur] end
  | x :: xs =>
      let cur := (cur ++ [x])%list in
      if (cap <=? length cur)%nat then cur :: chunks_go cap [] xs else chunks_go cap cur xs
  end.
Definition chunks {A} (cap : nat) (xs : list A) : list (list A) := chunks_go cap [] xs.

(** [try_join_all] on futures of which each is ready at some time: it ends with the first error. *)
Fixpoint first_failed {E A} (xs : list (nat * Result E A)) : option (nat * E) :=
  match xs with
  | [] => None
  | (_, Ok _) :: xs => first_failed xs
  | (t, Err e) :: xs =>
      match first_failed xs with
      | Some (t', e') => if (t' <? t)%nat then Some (t', e') else Some (t, e)
      | None => Some (t, e)
      end
  end.

Definition try_join_all {E A} (xs : list (nat * Result E A)) : Result E (list A) :=
  match first_failed xs with Some (_, e) => Err e | None => Ok (omap (fun x => ok x.2) xs) end.

Lemma concat_chunks_go {A} cap (cur xs : list A) : concat (chunks_go cap cur xs) = (cur ++ xs)%list.
Proof.
  revert cur. induction xs as [|x xs IH]; intros cur; simpl.
  - destruct cur; simpl; by rewrite ?app_nil_r.
  - destruct (cap <=? _)%nat; simpl; rewrite IH; by rewrite <- ?app_assoc.
Qed.

(** Nothing is lost or reordered by cutting a stream into chunks. *)
Lemma concat_chunks {A} cap (xs : list A) : concat (chunks cap xs) = xs.
Proof. apply concat_chunks_go. Qed.

Lemma chunks_go_size {A} cap (cur xs : list A) : (length cur < cap)%nat ->
  Forall (fun c => (0 < length c <= cap)%nat) (chunks_go cap cur xs).
Proof.
  revert cur. induction xs as [|x xs IH]; intros cur Hc; simpl.
  - destruct cur; [constructor|]. apply Forall_singleton. simpl in *. lia.
  - destruct (Nat.leb_spec cap (length (cur ++ [x]))) as [Hl|Hl]; rewrite length_app in *; simpl in *.
    + constructor; [rewrite length_app; simpl; lia|]. apply IH. simpl. lia.
    + apply IH. rewrite length_app. simpl. lia.
Qed.

Lemma chunks_size {A} cap (xs : list A) : (0 < cap)%nat -> Forall (fun c => (0 < length c <= cap)%nat) (chunks cap xs).
Proof. intros. by apply chunks_go_size. Qed.

Lemma chunks_go_fmap {A B} (f : A -> B) cap (cur xs : list A) : chunks_go (A := B) cap (f <$> cur) (f <$> xs) = fmap (M := list) f <$> chunks_go (A := A) cap cur xs.
Proof.
  revert cur. induction xs as [|x xs IH]; intros cur; cbn [fmap list_fmap chunks_go]; [by destruct cur|].
  change [f x] with (f <$> [x]). rewrite <- fmap_app, length_fmap. destruct (cap <=? _)%nat; cbn; by rewrite <- IH.
Qed.

Definition all_ok {E A} (xs : list (nat * A)) : list (nat * Result E A) := (fun x => (x.1, Ok x.2)) <$> xs.

Lemma join_all_ok {E A} (xs : list (nat * A)) :
  try_join_all (E := E) (all_ok xs) = Ok xs.*2.
Proof.
  unfold try_join_all, all_ok. assert (first_failed (E := E) ((fun x => (x.1, Ok x.2)) <$> xs) = None) as -> by by induction xs.
  f_equal. induction xs as [|x xs IH]; cbn; [done|]. by rewrite IH.
Qed.

Lemma chunks_all_ok {E A} cap (xs : list (nat * A)) : chunks cap (all_ok (E := E) xs) = all_ok <$> chunks cap xs.
Proof. apply (chunks_go_fmap _ cap []). Qed.

Lemma first_failed_some {E A} (xs : list (nat * Result E A)) :
  (exists t e, (t, Err e) ∈ xs) <-> first_failed xs <> None.
Proof.
  induction xs as [|[t [a|e]] xs IH]; simpl.
  - split; [intros (t & e & H); by apply not_elem_of_nil in H|done].
  - rewrite <- IH. split; intros (t' & e & H); exists t', e; [by apply elem_of_cons in H as [[=]|]|by apply elem_of_cons; right].
  - split; [|intros _; exists t, e; apply elem_of_cons; by left]. intros _. destruct (first_failed xs) as [[t' e']|]; [destruct (_ <? _)%nat|]; done.
Qed.

(** It fails exactly when one of the futures does. *)
Lemma join_all_fails {E A} (xs : list (nat * Result E A)) :
  (exists e, try_join_all xs = Err e) <-> exists t e, (t, Err e) ∈ xs.
Proof.
  rewrite first_failed_some. unfold try_join_all. destruct (first_failed xs) as [[t e]|]; split; intros; [done|by exists e|by destruct H|done].
Qed.

Section actions.
Context `{Json}.

Record FidItem : Type := MkFidItem { fi_fid : string; fi_data : value }.

(** The error for an item. *)
Definition fid_error (fi : FidItem) (errno : Z) : FidError := MkFidError (fi_fid fi) (fi_data fi) errno.

(** [LlapiFid], what the actions use of it. *)
Record LlapiFid : Type := MkLlapiFid {
  mntpt : string; fid2path : string -> Result string string; rmfids : nat -> list string -> Result string unit; rmfids_size : nat }.

Context (search_rootpath : string -> Result ImlAgentError LlapiFid).

(** How the command for the item at a position ends, and when. *)
Context (run : nat -> list string -> nat * Result IoError ExitStatus).

(** [retain(|x| x.errno != 0)]. *)
Definition failed (x : FidError) : bool := negb (fe_errno x =? 0).

(** [try_fold] over the chunks of futures. *)
Fixpoint fold_chunks (acc : list FidError) (cs : list (list (nat * Result ImlAgentError FidError))) : Result ImlAgentError (list FidError) :=
  match cs with
  | [] => Ok acc
  | c :: cs => xs ← try_join_all c; fold_chunks (acc ++ List.filter failed xs) cs
  end.

Lemma fold_chunks_ok acc (cs : list (list (nat * FidError))) :
  fold_chunks acc (all_ok <$> cs) = Ok (acc ++ List.filter failed (concat cs).*2)%list.
Proof.
  revert acc. induction cs as [|c cs IH]; intros acc; cbn [fmap list_fmap fold_chunks concat]; [by rewrite app_nil_r|].
  rewrite join_all_ok. cbn [mbind Result_bind]. rewrite IH, fmap_app, List.filter_app. by rewrite app_assoc.
Qed.

Lemma fold_chunks_err acc cs : (exists e, fold_chunks acc cs = Err e) <-> exists t e, (t, Err e) ∈ concat cs.
Proof.
  revert acc. induction cs as [|c cs IH]; intros acc; cbn [fold_chunks concat].
  - split; [by intros []|intros (t & e & He); by apply not_elem_of_nil in He].
  - destruct (try_join_all c) as [xs|e] eqn:Ec; cbn [mbind Result_bind].
    + rewrite IH. split; intros (t & e & He); exists t, e; [apply elem_of_app; by right|]. apply elem_of_app in He as [He|]; [|done].
      destruct (proj2 (join_all_fails c)) as [e' He']; [by exists t, e|]. congruence.
    + split; [|by intros _; exists e]. intros _. destruct (proj1 (join_all_fails c)) as (t & e' & He); [by exists e|].
      exists t, e'. apply elem_of_app. by left.
Qed.

(** ** Copying to a cloud and back ([action_cloudsync.rs]) *)

Inductive ActionType : Type := Push | Pull.

(** [str::replace] of a character. *)
Fixpoint replace_char (c : ascii) (t s : string) : string :=
  match s with
  | EmptyString => EmptyString
  | String a s => if Ascii.eqb a c then t +:+ replace_char c t s else String a (replace_char c t s)
  end.

Definition get_unique (input : string) : string := replace_char "/" "_" (replace_char "_" "__" input).

(** The future of an item; [args] is the command line for a path. *)
Definition cloud_item (llapi : LlapiFid) (args : string -> list string) (n : nat) (fi : FidItem) : nat * Result ImlAgentError FidError :=
  match fid2path llapi (fi_fid fi) with
  | Err _ => (0%nat, Ok (fid_error fi 2))
  | Ok fid_path =>
      let '(t, output) := run n (args fid_path) in
      (t, match output with Err e => Err (EIo e) | Ok status => Ok (fid_error fi (as_i16 (default 0 status))) end)
  end.

Definition archive_args (llapi : LlapiFid) (target_name fid_path : string) : list string :=
  ["stgm_cloudsync"; "push"; mntpt llapi +:+ "/" +:+ fid_path; target_name +:+ ":" +:+ get_unique fid_path].

Definition restore_args (llapi : LlapiFid) (target_name fid_path : string) : list string :=
  ["stgm_cloudsync"; "pull"; target_name +:+ ":" +:+ get_unique fid_path; mntpt llapi +:+ "/" +:+ fid_path].

Definition archive_fids (llapi : LlapiFid) (target_name : string) (fid_list : list FidItem) : Result ImlAgentError (list FidError) :=
  fold_chunks [] (chunks 10 (imap (cloud_item llapi (archive_args llapi target_name)) fid_list)).

Definition restore_fids (llapi : LlapiFid) (target_name : string) (fid_list : list FidItem) : Result ImlAgentError (list FidError) :=
  fold_chunks [] (chunks 10 (imap (cloud_item llapi (restore_args llapi target_name)) fid_list)).

Definition cloudsync_process_fids (fsname_or_mntpath remote : string) (action : ActionType) (fid_list : list FidItem) : Result ImlAgentError (list FidError) :=
  llapi ← search_rootpath fsname_or_mntpath;
  match action with Push => archive_fids llapi remote fid_list | Pull => restore_fids llapi remote fid_list end.
(** What is reported for an item: a path that is not known, or an exit code that is not zero. *)
Definition cloud_reported (llapi : LlapiFid) (args : string -> list string) (n : nat) (fi : FidItem) : option FidError :=
  match fid2path llapi (fi_fid fi) with
  | Err _ => Some (fid_error fi 2)
  | Ok fid_path => match (run n (args fid_path)).2 with Ok (Some c) => if c =? 0 then None else Some (fid_error fi c) | _ => None end
  end.

(** Every command is started, and its exit code is a byte. *)
Definition commands_start (llapi : LlapiFid) (args : string -> list string) (fid_list : list FidItem) : Prop :=
  forall n fi fid_path, fid_list !! n = Some fi -> fid2path llapi (fi_fid fi) = Ok fid_path ->
    exists st, (run n (args fid_path)).2 = Ok st /\ (forall c, st = Some c -> 0 <= c < 256).

Lemma as_i16_byte c : 0 <= c < 256 -> as_i16 c = c.
Proof. intros. unfold as_i16. rewrite Z.mod_small; lia. Qed.

Lemma failed_fid_error fi errno : failed (fid_error fi errno) = negb (errno =? 0).
Proof. done. Qed.

(** When every future gives an item of the answer, the answer is those that failed. *)
Lemma fold_imap {X} (f : nat -> X -> nat * Result ImlAgentError FidError) (g : nat -> X -> option FidError) l :
  (forall n x, l !! n = Some x -> exists t e, f n x = (t, Ok e) /\ g n x = if failed e then Some e else None) ->
  fold_chunks [] (chunks 10 (imap f l)) = Ok (omap id (imap g l)).
Proof.
  intros Hf. enough (exists xs : list (nat * FidError), imap f l = all_ok xs /\ List.filter failed xs.*2 = omap id (imap g l)) as (xs & -> & <-).
  { by rewrite chunks_all_ok, fold_chunks_ok, concat_chunks. }
  revert f g Hf. induction l as [|x l IH]; intros f g Hf; [by exists []|].
  destruct (IH (f ∘ S) (g ∘ S)) as (xs & Hx & Hfx); [intros n y Hn; by apply (Hf (S n))|].
  destruct (Hf 0%nat x eq_refl) as (t & e & He & Hg). exists ((t, e) :: xs). rewrite !imap_cons, Hx, He. split; [done|].
  cbn [fmap list_fmap snd List.filter omap list_omap]. unfold id at 1. rewrite Hg, Hfx. by destruct (failed e).
Qed.

Lemma cloud_item_ok llapi args fid_list n fi : commands_start llapi args fid_list -> fid_list !! n = Some fi ->
  exists t e, cloud_item llapi args n fi = (t, Ok e) /\ cloud_reported llapi args n fi = if failed e then Some e else None.
Proof.
  intros Hs Hn. assert (H0 := Hs n fi). unfold cloud_item, cloud_reported. destruct (fid2path llapi (fi_fid fi)) as [path|e]; [|eexists _, _; split; reflexivity].
  destruct (H0 path Hn eq_refl) as (st & Hst & Hc). destruct (run n (args path)) as [t o]. cbn [snd] in Hst |- *. subst o.
  eexists _, _. split; [done|]. rewrite failed_fid_error. destruct st as [c|]; [|done]. change (default 0 (Some c)) with c. rewrite as_i16_byte by (exact (Hc c eq_refl)). by destruct (c =? 0).
Qed.

(** A copy to the cloud reports exactly the items that failed, in the order of the list. *)
Theorem archive_reports llapi target fid_list : commands_start llapi (archive_args llapi target) fid_list ->
  archive_fids llapi target fid_list = Ok (omap id (imap (cloud_reported llapi (archive_args llapi target)) fid_list)).
Proof.
  intros Hs. apply fold_imap. intros n fi Hn. by apply (cloud_item_ok _ _ fid_list).
Qed.

Theorem restore_reports llapi target fid_list : commands_start llapi (restore_args llapi target) fid_list ->
  restore_fids llapi target fid_list = Ok (omap id (imap (cloud_reported llapi (restore_args llapi target)) fid_list)).
Proof.
  intros Hs. apply fold_imap. intros n fi Hn. by apply (cloud_item_ok _ _ fid_list).
Qed.

(** One command that cannot be started fails the action for the whole list. *)
Theorem archive_fails llapi target fid_list :
  (exists e, archive_fids llapi target fid_list = Err e) <->
  exists n fi path e, fid_list !! n = Some fi /\ fid2path llapi (fi_fid fi) = Ok path /\ (run n (archive_args llapi target path)).2 = Err e.
Proof.
  unfold archive_fids. rewrite fold_chunks_err, concat_chunks. split.
  - intros (t & e & (n & Hn)%list_elem_of_lookup). rewrite list_lookup_imap in Hn. apply fmap_Some in Hn as (fi & Hn & He). unfold cloud_item in He.
    destruct (fid2path llapi (fi_fid fi)) as [path|] eqn:Hp; [|done]. destruct (run n _) as [t' o] eqn:Hr. exists n, fi, path.
    destruct o as [|e']; [done|]. exists e'. by rewrite Hr.
  - intros (n & fi & path & e & Hn & Hp & Hr). exists (run n (archive_args llapi target path)).1, (EIo e). apply list_elem_of_lookup. exists n. rewrite list_lookup_imap, Hn. cbn. f_equal.
    unfold cloud_item. rewrite Hp. destruct (run n _) as [t' o]. cbn in Hr. by subst o.
Qed.
(** Which names the copies get: of paths in which no separator is followed by an underscore or by
    a separator, different ones. Decoding reads two underscores as one, a single one as the separator. *)
Fixpoint plain_path (s : string) : bool :=
  match s with
  | EmptyString => true
  | String a s =>
      match s with
      | String b _ => negb (Ascii.eqb a "/" && (Ascii.eqb b "_" || Ascii.eqb b "/")) && plain_path s
      | EmptyString => true
      end
  end.

Fixpoint path_of (s : string) : string :=
  match s with
  | EmptyString => EmptyString
  | String a s' =>
      if Ascii.eqb a "_" then
        match s' with
        | String b s => if Ascii.eqb b "_" then String "_" (path_of s) else String "/" (path_of s')
        | EmptyString => "/"
        end
      else String a (path_of s')
  end.

Lemma get_unique_cons a s : get_unique (String a s) =
  if Ascii.eqb a "_" then "__" +:+ get_unique s else if Ascii.eqb a "/" then String "_" (get_unique s) else String a (get_unique s).
Proof.
  unfold get_unique. cbn [replace_char]. destruct (Ascii.eqb_spec a "_") as [->|Ha]; [done|]. cbn [replace_char]. by destruct (Ascii.eqb a "/").
Qed.

Lemma get_unique_head a s : Ascii.eqb a "_" = false -> Ascii.eqb a "/" = false -> get_unique (String a s) = String a (get_unique s).
Proof. intros H1 H2. by rewrite get_unique_cons, H1, H2. Qed.

(** ** Round trip of the names of the copies *)
Lemma path_of_unique s : plain_path s = true -> path_of (get_unique s) = s.
Proof.
  induction s as [|a s IH]; intros Hs; [done|].
  assert (plain_path s = true) as Hs' by (destruct s; [done|]; cbn in Hs; by apply andb_true_iff in Hs as [_ Hs]).
  rewrite get_unique_cons. destruct (Ascii.eqb_spec a "_") as [->|Ha]; [rewrite !str_app_cons, str_app_nil_l; cbn [path_of]; by rewrite !Ascii.eqb_refl, IH|].
  destruct (Ascii.eqb_spec a "/") as [->|Ha'].
  - destruct s as [|b s]; [done|]. cbn in Hs. apply andb_true_iff in Hs as [Hb _]. apply negb_true_iff, orb_false_iff in Hb as [Hb1 Hb2].
    rewrite <- (IH Hs') at 2. rewrite (get_unique_head b) by done. cbn [path_of]. by rewrite Hb1.
  - cbn [path_of]. rewrite (proj2 (Ascii.eqb_neq _ _) Ha). by rewrite IH.
Qed.

Theorem get_unique_inj p q : plain_path p = true -> plain_path q = true -> get_unique p = get_unique q -> p = q.
Proof. intros Hp Hq He. by rewrite <- (path_of_unique p), <- (path_of_unique q), He. Qed.
End actions.

(** Of other paths, not: two files of one file system are copied to the same name, and the second
    copy replaces the first. *)
Example get_unique_collides : get_unique "src_/init.py" = get_unique "src/_init.py" /\ get_unique "a//b" = get_unique "a_b".
Proof. split; reflexivity. Qed.

(** ** Copying to another file system and back ([action_filesync.rs]) *)

Section filesync.
Context `{Json}.
Context (search_rootpath : string -> Result ImlAgentError LlapiFid).
Context (run : nat -> list string -> nat * Result IoError ExitStatus).
(** [fs::metadata]: whether it is a directory, and its length. *)
Context (metadata : PathBuf -> Result IoError (bool * Z)).
(** [create_dir_all] of the directory that a file is in, with the time it takes. *)
Context (create_parent : nat -> PathBuf -> nat * Result IoError unit).
Context (openmpi_path : string) (openmpi_count : Z).

(** [Path::join]. *)
Definition path_join (base p : PathBuf) : PathBuf :=
  if starts_with "/" p then p else if String.eqb base "" || ends_with "/" base then base +:+ p else base +:+ "/" +:+ p.

Record Work : Type := MkWork { file_path : PathBuf; w_fid : FidItem }.

Definition LARGEFILE : Z := 1024 * 1024 * 1024.

(** The part that both copies share: the directory, the command, its exit code. *)
Definition copy_item (args : PathBuf -> PathBuf -> list string) (src_root dest_root : PathBuf) (n : nat) (w : Work) : nat * Result ImlAgentError FidError :=
  let src_file := path_join src_root (file_path w) in
  let dest_file := path_join dest_root (file_path w) in
  match create_parent n dest_file with
  | (t0, Err e) => (t0, Err (EIo e))
  | (t0, Ok _) =>
      let '(t, output) := run n (args src_file dest_file) in
      ((t0 + t)%nat, match output with Err e => Err (EIo e) | Ok status => Ok (fid_error (w_fid w) (as_i16 (default 1 status))) end)
  end.

Definition rsync_args (src_file dest_file : PathBuf) : list string := ["rsync"; "-a"; "-t"; src_file; dest_file].

Definition do_rsync (src_root dest_root : PathBuf) (work_list : list Work) : Result ImlAgentError (list FidError) :=
  fold_chunks [] (chunks 10 (imap (copy_item rsync_args src_root dest_root) work_list)).

Definition dsync_args (src_file dest_file : PathBuf) : list string :=
  [openmpi_path +:+ "/mpirun"; "--allow-run-as-root"; "-c"; fmt_int openmpi_count; "--hostfile"; "/etc/iml/filesync-hostfile"; "dsync"; "-S"; src_file; dest_file].

(** One after the other, up to the first error. *)
Fixpoint try_collect (xs : list (nat * Result ImlAgentError FidError)) : Result ImlAgentError (list FidError) :=
  match xs with
  | [] => Ok []
  | (_, Err e) :: _ => Err e
  | (_, Ok x) :: xs => rest ← try_collect xs; Ok (if failed x then x :: rest else rest)
  end.

Definition do_dsync (src_root dest_root : PathBuf) (work_list : list Work) : Result ImlAgentError (list FidError) :=
  try_collect (imap (copy_item dsync_args src_root dest_root) work_list).

(** The loop over the identifiers. *)
Fixpoint sort_work (llapi : LlapiFid) (src_root : PathBuf) (fid_list : list FidItem) (rsync_list dsync_list : list Work)
    : Result ImlAgentError (list Work * list Work) :=
  match fid_list with
  | [] => Ok (rsync_list, dsync_list)
  | fid :: fid_list =>
      match fid2path llapi (fi_fid fid) with
      | Err _ => sort_work llapi src_root fid_list rsync_list dsync_list
      | Ok fid_path =>
          match metadata (path_join src_root fid_path) with
          | Err e => Err (EIo e)
          | Ok (is_dir, len) =>
              let work := MkWork fid_path fid in
              if is_dir || (LARGEFILE <? len) then sort_work llapi src_root fid_list rsync_list (dsync_list ++ [work])
              else sort_work llapi src_root fid_list (rsync_list ++ [work]) dsync_list
          end
      end
  end.

Definition filesync_process_fids (fsname_or_mntpath remote : string) (action : ActionType) (fid_list : list FidItem) : Result ImlAgentError (list FidError) :=
  llapi ← search_rootpath fsname_or_mntpath;
  let '(src_root, dest_root) := match action with Push => (mntpt llapi, remote) | Pull => (remote, mntpt llapi) end in
  '(rsync_list, dsync_list) ← sort_work llapi src_root fid_list [] [];
  res ← do_rsync src_root dest_root rsync_list;
  res' ← do_dsync src_root dest_root dsync_list;
  Ok (res ++ res')%list.

(** The work for an item whose path is known, and whether it is for [dsync]. *)
Definition work_of (llapi : LlapiFid) (src_root : PathBuf) (large : bool) (fid : FidItem) : option Work :=
  match fid2path llapi (fi_fid fid) with
  | Err _ => None
  | Ok fid_path =>
      match metadata (path_join src_root fid_path) with
      | Err _ => None
      | Ok (is_dir, len) => if Bool.eqb (is_dir || (LARGEFILE <? len)) large then Some (MkWork fid_path fid) else None
      end
  end.

Definition metadata_known (llapi : LlapiFid) (src_root : PathBuf) (fid_list : list FidItem) : Prop :=
  Forall (fun fid => forall p, fid2path llapi (fi_fid fid) = Ok p -> exists md, metadata (path_join src_root p) = Ok md) fid_list.

Lemma sort_work_spec llapi src_root fid_list rs ds : metadata_known llapi src_root fid_list ->
  sort_work llapi src_root fid_list rs ds =
  Ok (rs ++ omap (work_of llapi src_root false) fid_list, ds ++ omap (work_of llapi src_root true) fid_list)%list.
Proof.
  intros Hm. revert rs ds. induction Hm as [|fid l Hf Hm IH]; intros rs ds; cbn [sort_work omap list_omap]; [by rewrite !app_nil_r|].
  unfold work_of at 1 4. destruct (fid2path llapi (fi_fid fid)) as [p|]; [|apply IH]. destruct (Hf p eq_refl) as [[d len] ->].
  destruct (d || _); cbn [Bool.eqb]; rewrite IH, <- !app_assoc; done.
Qed.

(** What is reported for a piece of work. *)
Definition copy_reported (args : PathBuf -> PathBuf -> list string) (src_root dest_root : PathBuf) (n : nat) (w : Work) : option FidError :=
  match (run n (args (path_join src_root (file_path w)) (path_join dest_root (file_path w)))).2 with
  | Ok st => let c := default 1 st in if c =? 0 then None else Some (fid_error (w_fid w) c)
  | Err _ => None
  end.

Definition copies_start (args : PathBuf -> PathBuf -> list string) (src_root dest_root : PathBuf) (ws : list Work) : Prop :=
  forall n w, ws !! n = Some w ->
    (create_parent n (path_join dest_root (file_path w))).2 = Ok tt /\
    exists st, (run n (args (path_join src_root (file_path w)) (path_join dest_root (file_path w)))).2 = Ok st /\ (forall c, st = Some c -> 0 <= c < 256).

Lemma copy_item_ok args src_root dest_root ws n w : copies_start args src_root dest_root ws -> ws !! n = Some w ->
  exists t e, copy_item args src_root dest_root n w = (t, Ok e) /\ copy_reported args src_root dest_root n w = if failed e then Some e else None.
Proof.
  intros Hs Hn. destruct (Hs n w Hn) as (Hd & st & Hst & Hc). unfold copy_item, copy_reported.
  destruct (create_parent n _) as [t0 d]. cbn [snd] in Hd. subst d. destruct (run n _) as [t o].
  cbn [snd] in Hst |- *. subst o. eexists _, _. split; [done|]. rewrite failed_fid_error.
  rewrite as_i16_byte; [by destruct (default 1 st =? 0)|]. destruct st; [by apply Hc|done].
Qed.

Lemma try_collect_imap {X} (f : nat -> X -> nat * Result ImlAgentError FidError) (g : nat -> X -> option FidError) l :
  (forall n x, l !! n = Some x -> exists t e, f n x = (t, Ok e) /\ g n x = if failed e then Some e else None) ->
  try_collect (imap f l) = Ok (omap id (imap g l)).
Proof.
  revert f g. induction l as [|x l IH]; intros f g Hf; [done|]. rewrite !imap_cons.
  destruct (Hf 0%nat x eq_refl) as (t & e & -> & Hg). cbn [try_collect omap list_omap]. rewrite (IH (f ∘ S) (g ∘ S)) by (intros n y Hn; by apply (Hf (S n))).
  cbn [mbind Result_bind]. unfold id at 3. rewrite Hg. by destruct (failed e).
Qed.

(** A copy reports exactly the pieces of work whose command failed or was killed: small files
    first, then directories and large files, each in the order of the list. *)
Theorem filesync_reports fsname remote action fid_list llapi :
  search_rootpath fsname = Ok llapi ->
  let '(src_root, dest_root) := match action with Push => (mntpt llapi, remote) | Pull => (remote, mntpt llapi) end in
  let small := omap (work_of llapi src_root false) fid_list in
  let large := omap (work_of llapi src_root true) fid_list in
  metadata_known llapi src_root fid_list -> copies_start rsync_args src_root dest_root small -> copies_start dsync_args src_root dest_root large ->
  filesync_process_fids fsname remote action fid_list =
  Ok (omap id (imap (copy_reported rsync_args src_root dest_root) small) ++ omap id (imap (copy_reported dsync_args src_root dest_root) large))%list.
Proof.
  intros Hr. destruct (match action with Push => _ | Pull => _ end) as [src_root dest_root] eqn:Ha. cbn zeta. intros Hm Hs Hl.
  unfold filesync_process_fids. rewrite Hr. cbn [mbind Result_bind]. rewrite Ha, sort_work_spec by done. cbn [mbind Result_bind app].
  unfold do_rsync. rewrite (fold_imap _ (copy_reported rsync_args src_root dest_root)) by (intros n w Hn; by apply (copy_item_ok _ _ _ _ _ _ Hs)).
  cbn [mbind Result_bind]. unfold do_dsync.
  by rewrite (try_collect_imap _ (copy_reported dsync_args src_root dest_root)) by (intros n w Hn; by apply (copy_item_ok _ _ _ _ _ _ Hl)).
Qed.

(** One file that is no longer there fails the action for the whole list. *)
Theorem missing_file_fails fsname remote action fid_list llapi fid p e :
  search_rootpath fsname = Ok llapi -> fid ∈ fid_list -> fid2path llapi (fi_fid fid) = Ok p ->
  metadata (path_join (match action with Push => mntpt llapi | Pull => remote end) p) = Err e ->
  exists e', filesync_process_fids fsname remote action fid_list = Err e'.
Proof.
  intros Hr Hin Hp Hm. unfold filesync_process_fids. rewrite Hr. cbn [mbind Result_bind].
  assert (forall src rs ds, metadata (path_join src p) = Err e -> exists e', sort_work llapi src fid_list rs ds = Err e') as Hsort.
  { clear -Hin Hp. intros src rs ds He. revert rs ds. induction fid_list as [|x l IH]; intros rs ds; [by apply not_elem_of_nil in Hin|]. cbn [sort_work].
    apply elem_of_cons in Hin as [<-|Hin]; [rewrite Hp, He; by eexists|]. destruct (fid2path llapi (fi_fid x)) as [q|]; [|by apply IH].
    destruct (metadata (path_join src q)) as [[d len]|]; [|by eexists]. destruct (d || _); by apply IH. }
  destruct action; edestruct Hsort as [e' ->]; eauto.
Qed.
End filesync.

(** An identifier whose path is not known is left out: it is neither copied nor reported. *)
Theorem unknown_path_dropped `{Json} search_rootpath run metadata create_parent mpi count fsname remote action llapi fid e :
  search_rootpath fsname = Ok llapi -> fid2path llapi (fi_fid fid) = Err e ->
  filesync_process_fids search_rootpath run metadata create_parent mpi count fsname remote action [fid] = Ok [].
Proof. intros Hr Hp. unfold filesync_process_fids. rewrite Hr. destruct action; cbn; by rewrite Hp. Qed.

(** ** Mirrors ([action_mirror.rs]) *)

Section mirror.
Context `{Json}.
Context (search_rootpath : string -> Result ImlAgentError LlapiFid).
Context (run : nat -> list string -> nat * Result IoError ExitStatus).

Definition lfs_mirror (n : nat) (args : list string) (path : string) : Result CmdError ExitStatus :=
  checked_output (run n (["/usr/bin/lfs"; "mirror"] ++ args ++ [path])%list).2.

Definition lfs_mirror_fiderror (args : list string) (mntpt : string) (n : nat) (fi : FidItem) : option FidError :=
  let path := mntpt +:+ "/.lustre/fid/" +:+ fi_fid fi in
  match lfs_mirror n args path with
  | Ok status => if success status then None else Some (fid_error fi (as_i16 (default 0 status)))
  | Err (CmdIo err) => Some (fid_error fi (as_i16 (default (-1) err)))
  | Err (CmdOutput _) => None
  end.

Definition process_extend_fids (fsname_or_mntpath : string) (task_args : gmap string string) (fid_list : list FidItem) : Result ImlAgentError (list FidError) :=
  llapi ← search_rootpath fsname_or_mntpath;
  match task_args !! "pool" with
  | None => Err (EMissingArgument "task::pool")
  | Some pool =>
      let args := ["extend"; "-N"; "-p"; pool] in
      let args := match task_args !! "striping" with Some striping => (args ++ str_split " " striping)%list | None => args end in
      Ok (omap id (imap (lfs_mirror_fiderror args (mntpt llapi)) fid_list))
  end.

Definition process_resync_fids (fsname_or_mntpath : string) (fid_list : list FidItem) : Result ImlAgentError (list FidError) :=
  llapi ← search_rootpath fsname_or_mntpath;
  Ok (omap id (imap (lfs_mirror_fiderror ["resync"] (mntpt llapi)) fid_list)).

(** [None] is the panic of [unwrap]. *)
Definition process_split_fids (fsname_or_mntpath : string) (task_args : gmap string string) (fid_list : list FidItem) : option (Result ImlAgentError (list FidError)) :=
  match search_rootpath fsname_or_mntpath with
  | Err e => Some (Err e)
  | Ok llapi =>
      pool ← task_args !! "pool";
      Some (Ok (omap id (imap (lfs_mirror_fiderror ["split"; "-d"; "-p"; pool] (mntpt llapi)) fid_list)))
  end.

(** An item is reported exactly when [lfs] could not be started for it, whatever [lfs] did. *)
Lemma mirror_reported args mnt n fi :
  lfs_mirror_fiderror args mnt n fi =
  match (run n (["/usr/bin/lfs"; "mirror"] ++ args ++ [mnt +:+ "/.lustre/fid/" +:+ fi_fid fi])%list).2 with
  | Err err => Some (fid_error fi (as_i16 (default (-1) err)))
  | Ok _ => None
  end.
Proof.
  unfold lfs_mirror_fiderror, lfs_mirror, checked_output. destruct (run n _).2 as [st|]; [|done]. destruct (success st) eqn:Hs; [by rewrite Hs|done].
Qed.

Lemma omap_imap_none {A B} (f : nat -> A -> option B) l : (forall n x, l !! n = Some x -> f n x = None) -> omap id (imap f l) = [].
Proof.
  revert f. induction l as [|x l IH]; intros f Hf; [done|]. rewrite imap_cons. cbn [omap list_omap]. unfold id at 1.
  rewrite (Hf 0%nat x eq_refl). apply IH. intros n y Hn. by apply (Hf (S n)).
Qed.

(** A mirror that [lfs] failed to make is not reported: when [lfs] can be run at all, the answer is
    empty, whichever exit codes it had. *)
Theorem mirror_failures_lost fsname fid_list llapi :
  search_rootpath fsname = Ok llapi -> (forall n args, exists st, (run n args).2 = Ok st) -> process_resync_fids fsname fid_list = Ok [].
Proof.
  intros Hr Hs. unfold process_resync_fids. rewrite Hr. cbn [mbind Result_bind]. f_equal. apply omap_imap_none. intros n fi _.
  rewrite mirror_reported. by destruct (Hs n (["/usr/bin/lfs"; "mirror"] ++ ["resync"] ++ [mntpt llapi +:+ "/.lustre/fid/" +:+ fi_fid fi])%list) as [st ->].
Qed.
End mirror.

(** ** Removal ([action_purge.rs]) *)

Section purge.
Context `{Json}.
Context (search_rootpath : string -> Result ImlAgentError LlapiFid).

(** The calls of [rmfids] and the answer; an error of a call is logged. *)
Definition purge_process_fids (fsname_or_mntpath : string) (fid_list : list FidItem) : Result ImlAgentError (list FidError) * list (list string * Result string unit) :=
  match search_rootpath fsname_or_mntpath with
  | Err e => (Err e, [])
  | Ok llapi => (Ok [], imap (fun n fids => (fids, rmfids llapi n fids)) (chunks (rmfids_size llapi) (fi_fid <$> fid_list)))
  end.

Lemma imap_fst {A B} (f : nat -> A -> B) l : (imap (fun n x => (x, f n x)) l).*1 = l.
Proof. revert f. induction l as [|x l IH]; intros f; [done|]. rewrite imap_cons. cbn. f_equal. apply (IH (f ∘ S)). Qed.

(** Every identifier is removed once, in calls of at most the size that the file system takes. *)
Theorem purge_calls fsname fid_list llapi : search_rootpath fsname = Ok llapi -> (0 < rmfids_size llapi)%nat ->
  let calls := (purge_process_fids fsname fid_list).2.*1 in
  concat calls = fi_fid <$> fid_list /\ Forall (fun c => (0 < length c <= rmfids_size llapi)%nat) calls.
Proof.
  intros Hr Hs. unfold purge_process_fids. rewrite Hr. cbn [snd]. rewrite imap_fst. cbn zeta. split; [apply concat_chunks|by apply chunks_size].
Qed.

(** The answer is empty whatever the calls did. *)
Theorem purge_failures_lost fsname fid_list llapi : search_rootpath fsname = Ok llapi -> (purge_process_fids fsname fid_list).1 = Ok [].
Proof. intros Hr. unfold purge_process_fids. by rewrite Hr. Qed.
End purge.

(** ** Reports ([action_warning.rs]) *)

Section warning.
Context `{Json}.
Context (search_rootpath : string -> Result ImlAgentError LlapiFid).
Record LinkEA : Type := MkLinkEA { pfid : string; l_name : string }.
(** [serde_json::from_value]. *)
Context (linkea_of : value -> option (list LinkEA)).
(** The order in which the errors of a chunk are sent, and how far the sender of the report got:
    the chunks it read, and which items of the next were done when it gave up. *)
Context (arrange : list FidError -> list FidError).
Record Sender : Type := MkSender { pulled : nat; finished : nat -> bool }.

Definition warning_fid2path (llapi : LlapiFid) (fid : string) : option string := ok (fid2path llapi fid).

Fixpoint parent_path (llapi : LlapiFid) (pfids : list LinkEA) : option string :=
  match pfids with
  | [] => None
  | p :: pfids =>
      match warning_fid2path llapi (pfid p) with
      | Some path => Some (path +:+ "/" +:+ l_name p)
      | None => parent_path llapi pfids
      end
  end.

(** The path, or the error that is sent. *)
Definition item2path (llapi : LlapiFid) (fi : FidItem) : option string * option FidError :=
  match parent_path llapi (default [] (linkea_of (fi_data fi))) with
  | Some path => (Some path, None)
  | None =>
      match warning_fid2path llapi (fi_fid fi) with
      | Some path => (Some path, None)
      | None => (None, Some (fid_error fi 2))
      end
  end.

Definition eol : string := String "010" "".

(** The bytes of the report for a chunk. *)
Definition report_chunk (llapi : LlapiFid) (xs : list FidItem) : string :=
  let paths := (fun x => mntpt llapi +:+ "/" +:+ x) <$> omap (fun fi => (item2path llapi fi).1) xs in
  let x := str_join eol paths in
  if String.eqb x "" then x else x +:+ eol.

Definition chunk_errors (llapi : LlapiFid) (xs : list FidItem) : list FidError := omap (fun fi => (item2path llapi fi).2) xs.

Definition done_items (p : nat -> bool) (xs : list FidItem) : list FidItem := omap id (imap (fun n x => if p n then Some x else None) xs).

(** The errors, and what the sender has read of the report under its name. The sender runs on its
    own: whether it succeeds is not asked. *)
Definition warning_process_fids (s : Sender) (fsname_or_mntpath : string) (task_args : gmap string string) (fid_list : list FidItem)
    : Result ImlAgentError (list FidError) * option (string * list string) :=
  match task_args !! "report_name" with
  | None => (Err (ERequired "Task missing 'report_name' argument"), None)
  | Some report_name =>
      match search_rootpath fsname_or_mntpath with
      | Err e => (Err e, None)
      | Ok llapi =>
          let cs := chunks 1000 fid_list in
          let errors := (take (pulled s) cs ≫= (fun c => arrange (chunk_errors llapi c))) ++
                        match cs !! pulled s with Some c => arrange (chunk_errors llapi (done_items (finished s) c)) | None => [] end in
          (Ok errors, Some (report_name, report_chunk llapi <$> take (pulled s) cs))
      end
  end%list.

(** The line of the report for an item. *)
Definition report_line (llapi : LlapiFid) (fi : FidItem) : option string :=
  (fun x => (mntpt llapi +:+ "/" +:+ x) +:+ eol) <$> (item2path llapi fi).1.

Definition lines_text (ls : list string) : string := foldr String.append "" ls.

Lemma lines_text_app l1 l2 : lines_text (l1 ++ l2) = lines_text l1 +:+ lines_text l2.
Proof. unfold lines_text. induction l1 as [|x l1 IH]; cbn; [done|]. rewrite IH. by rewrite str_app_assoc. Qed.

Lemma join_lines ls : Forall (fun l => l <> "") ls ->
  (let x := str_join eol ls in if String.eqb x "" then x else x +:+ eol) = lines_text ((fun l => l +:+ eol) <$> ls).
Proof.
  intros Hl. cbn zeta. destruct ls as [|l ls]; [done|]. assert (str_join eol (l :: ls) <> "") as Hne.
  { inversion_clear Hl. destruct ls; cbn [str_join]; [done|]. by destruct l. }
  destruct (String.eqb_spec (str_join eol (l :: ls)) "") as [|_]; [done|]. clear Hne Hl. revert l.
  induction ls as [|y ls IH]; intros l; [unfold lines_text; cbn; by rewrite str_app_nil_r|].
  change (str_join eol (l :: y :: ls)) with (l +:+ eol +:+ str_join eol (y :: ls)). rewrite <- !str_app_assoc, IH.
  unfold lines_text. cbn [fmap list_fmap foldr]. by rewrite !str_app_assoc.
Qed.

Lemma report_chunk_lines llapi xs : report_chunk llapi xs = lines_text (omap (report_line llapi) xs).
Proof.
  unfold report_chunk. rewrite join_lines.
  - f_equal. induction xs as [|x xs IH]; [done|]. cbn [omap list_omap]. unfold report_line at 1. destruct (item2path llapi x).1; cbn; [|done]. by rewrite IH.
  - apply Forall_forall. intros l (x & -> & _)%list_elem_of_fmap. by destruct (mntpt llapi).
Qed.

Lemma report_whole llapi (cs : list (list FidItem)) : lines_text (report_chunk llapi <$> cs) = lines_text (omap (report_line llapi) (concat cs)).
Proof.
  induction cs as [|c cs IH]; [done|]. cbn [concat]. rewrite omap_app, lines_text_app, <- IH, <- report_chunk_lines. done.
Qed.

Lemma item_error llapi fi : (item2path llapi fi).2 = match report_line llapi fi with Some _ => None | None => Some (fid_error fi 2) end.
Proof. unfold report_line, item2path. destruct (parent_path _ _); [done|]. by destruct (warning_fid2path _ _). Qed.

Hypothesis arrange_perm : forall l, arrange l ≡ₚ l.

Lemma errors_whole llapi (cs : list (list FidItem)) : (cs ≫= (fun c => arrange (chunk_errors llapi c))) ≡ₚ chunk_errors llapi (concat cs).
Proof.
  unfold chunk_errors. induction cs as [|c cs IH]; [done|]. cbn [mbind list_bind concat]. rewrite omap_app, IH. by rewrite arrange_perm.
Qed.

(** When the sender has read the whole report, the report has a line for each item whose path could
    be found, in the order of the list, and the answer is the other items, each once: no item is
    in both or in neither. *)
Theorem warning_accounts s fsname task_args fid_list llapi name :
  task_args !! "report_name" = Some name -> search_rootpath fsname = Ok llapi -> (length (chunks 1000 fid_list) <= pulled s)%nat ->
  exists errors bodies, warning_process_fids s fsname task_args fid_list = (Ok errors, Some (name, bodies)) /\
    lines_text bodies = lines_text (omap (report_line llapi) fid_list) /\
    errors ≡ₚ (fun fi => fid_error fi 2) <$> List.filter (fun fi => negb (bool_decide (is_Some (report_line llapi fi)))) fid_list.
Proof.
  intros Hn Hr Hp. unfold warning_process_fids. rewrite Hn, Hr. eexists _, _. split; [done|].
  rewrite take_ge by done. rewrite report_whole, concat_chunks. split; [done|].
  rewrite lookup_ge_None_2 by done. rewrite app_nil_r, errors_whole, concat_chunks. unfold chunk_errors.
  apply Permutation_refl'. clear Hp. induction fid_list as [|x l IH]; [done|]. cbn [omap list_omap List.filter]. rewrite item_error, IH.
  destruct (report_line llapi x); [by rewrite bool_decide_true by done|]. rewrite bool_decide_false by (by intros []). done.
Qed.
End warning.

(** A sender that fails at once, say because the manager cannot be reached: there is no report, and
    the answer says that every item was treated. *)
Theorem report_failure_lost `{Json} search_rootpath linkea_of arrange fsname task_args fid_list llapi name :
  task_args !! "report_name" = Some name -> search_rootpath fsname = Ok llapi -> arrange [] = [] ->
  warning_process_fids search_rootpath linkea_of arrange (MkSender 0 (fun _ => false)) fsname task_args fid_list = (Ok [], Some (name, [])).
Proof.
  intros Hn Hr Ha. unfold warning_process_fids. rewrite Hn, Hr. cbn [pulled finished]. cbn [take mbind list_bind app fmap list_fmap].
  destruct (chunks 1000 fid_list !! 0%nat) as [c|]; [|done]. assert (done_items (fun _ => false) c = []) as ->; [|by cbn; rewrite Ha].
  apply omap_imap_none. done.
Qed.

(** ** What the task runner makes of the answers *)

Section counted.
Context `{Json}.

Definition agent_answer (e : string) (inserts : list bool) (r : Result ImlAgentError (list FidError)) : Answer :=
  match r with Ok errors => AgentDone errors inserts | Err _ => AgentFailed e end.

(** An empty answer adds nothing to the number of failures, and the rows go on to be counted as
    completed: so do those of a removal that failed, of mirrors that [lfs] did not make, and of a
    report that was not sent. *)
Theorem lost_failures_counted (w : World) i j rows action actions failures errs aborted e inserts :
  jobs w !! i = Some j -> j_phase j = JSend rows (action :: actions) failures errs aborted ->
  exists w', send_action i (agent_answer e inserts (Ok [])) w = Some w' /\
    (j_phase <$> jobs w' !! i) = Some (JSend rows actions failures errs aborted).
Proof.
  intros Hj Hp. unfold send_action. rewrite Hj. cbn [mbind option_bind]. rewrite Hp. cbn [agent_answer length Z.of_nat]. rewrite Z.add_0_r.
  destruct (t_keep_failed (j_task j)); cbn [keep_errors].
  all: eexists; split; [done|]; cbn; rewrite list_lookup_alter_eq, Hj; done.
Qed.
End counted.
