(* ===== verification/Stratagem.v ===== *)
(** * Scans of a file system by Stratagem

    The API ([iml-api/src/graphql/stratagem.rs]) makes the tasks, the configuration of the scans
    and the jobs of a command; the agent ([action_plugins/stratagem/server.rs]) runs a scan and
    sends the identifiers it lists to mailboxes, which the task runner takes as input of the tasks.
    The database, the job scheduler, the scanner and the HTTP client are arguments. *)
From S2P Require Import Prelude RustStd WireTypes Fids Tasks FidActions.
From stdpp Require Import base gmap sets list strings.
From Stdlib Require Import Ascii ZArith Lia.
Open Scope string_scope.
Open Scope Z_scope.

(** ** Configurations ([iml-wire-types/src/stratagem.rs]) *)

Record StratagemDevice : Type := MkStratagemDevice { path : string; d_groups : list string }.
Record StratagemRule : Type := MkStratagemRule { action : string; expression : string; argument : string; counter_name : option string }.
Record StratagemGroup : Type := MkStratagemGroup { rules : list StratagemRule; g_name : string }.
Record StratagemConfig : Type := MkStratagemConfig {
  flist_type : string; summarize_size : bool; groups : list StratagemGroup; device : StratagemDevice }.

Definition get_rule_by_idx (g : StratagemGroup) (idx : nat) : option StratagemRule := rules g !! idx.

Definition get_group_by_name (c : StratagemConfig) (name : string) : option StratagemGroup :=
  List.find (fun g => String.eqb (g_name g) name) (groups c).

(** ** Results of a scan *)

Record StratagemCounter : Type := MkStratagemCounter {
  c_name : string; c_count : Z; c_size : Z; c_blocks : Z; c_flist_type : string }.

Record StratagemClassifyResult : Type := MkStratagemClassifyResult {
  cr_attr_type : string; cr_flist_type : string; cr_counters : list StratagemCounter }.

Record StratagemClassifyCounter : Type := MkStratagemClassifyCounter {
  cc_name : string; cc_count : Z; cc_size : Z; cc_blocks : Z; cc_flist_type : string; cc_expression : string; cc_classify : StratagemClassifyResult }.

Inductive StratagemCounters : Type :=
  | ClassifyCounter (c : StratagemClassifyCounter)
  | PlainCounter (c : StratagemCounter).

Record StratagemGroupResult : Type := MkStratagemGroupResult { gr_name : string; gr_counters : list StratagemCounters }.

Abbreviation StratagemResult := (list StratagemGroupResult) (only parsing).

Definition counter_flist_type (c : StratagemCounters) : string :=
  match c with ClassifyCounter c => cc_flist_type c | PlainCounter c => c_flist_type c end.

Definition name (c : StratagemCounters) : string := match c with ClassifyCounter c => cc_name c | PlainCounter c => c_name c end.
Definition count (c : StratagemCounters) : Z := match c with ClassifyCounter c => cc_count c | PlainCounter c => c_count c end.
Definition size (c : StratagemCounters) : Z := match c with ClassifyCounter c => cc_size c | PlainCounter c => c_size c end.

Definition have_flist (c : StratagemCounters) : bool := negb (String.eqb (counter_flist_type c) "none").

(** ** The configuration of the agent's command line *)

Definition size_rules (small large huge medium : string) : list StratagemRule :=
  [MkStratagemRule "LAT_COUNTER_INC" "&& < size 1048576 != type S_IFDIR" small None;
   MkStratagemRule "LAT_COUNTER_INC" "&& >= size 1048576000000 != type S_IFDIR" huge None;
   MkStratagemRule "LAT_COUNTER_INC" "&& >= size 1048576000 != type S_IFDIR" large None;
   MkStratagemRule "LAT_COUNTER_INC" "&& >= size 1048576 != type S_IFDIR" medium None].

Definition user_rules : list StratagemRule := [MkStratagemRule "LAT_ATTR_CLASSIFY" "!= type S_IFDIR" "uid" (Some "top_inode_users")].

(** A rule that lists identifiers. *)
Definition fid_rule (expression argument : string) : StratagemRule := MkStratagemRule "LAT_SHELL_CMD_FID" expression argument (Some argument).

Definition older_than (t : Z) : string := "&& != type S_IFDIR < atime - sys_time " +:+ fmt_int t.
Definition warn_window (r p : Z) : string := "&& != type S_IFDIR && < atime - sys_time " +:+ fmt_int r +:+ " > atime - sys_time " +:+ fmt_int p.

Definition generate_cooked_config (path : string) (rd pd : option Z) : StratagemConfig :=
  let conf_groups := [MkStratagemGroup (size_rules "SIZE_<_1M" "SIZE_>=_1G" "SIZE_>=_1T" "1M_<=_SIZE_<_1G") "size_distribution";
                      MkStratagemGroup user_rules "user_distribution"] in
  let device_groups := ["size_distribution"; "user_distribution"] in
  let '(conf_groups, device_groups) :=
    match pd with
    | Some pd => (conf_groups ++ [MkStratagemGroup [fid_rule (older_than pd) "fids_expired"] "purge_fids"], device_groups ++ ["purge_fids"])%list
    | None => (conf_groups, device_groups)
    end in
  let '(conf_groups, device_groups) :=
    match rd with
    | Some rd =>
        let expression := match pd with Some pd => warn_window rd pd | None => older_than rd end in
        (conf_groups ++ [MkStratagemGroup [fid_rule expression "fids_expiring_soon"] "warn_fids"], device_groups ++ ["warn_fids"])%list
    | None => (conf_groups, device_groups)
    end in
  MkStratagemConfig "none" true conf_groups (MkStratagemDevice path device_groups).

(** ** Which mailbox gets which files *)

Definition mailbox_file (base_dir : string) (data : StratagemConfig) (group : StratagemGroupResult) (idx : nat) (counter : StratagemCounters)
    : Result ImlAgentError (PathBuf * string) :=
  group ← ok_or (ERequired ("Did not find group by name " +:+ gr_name group)) (get_group_by_name data (gr_name group));
  rule ← ok_or (ERequired ("did not find rule by idx " +:+ fmt_int (Z.of_nat idx))) (get_rule_by_idx group idx);
  let p := path_join (path_join (path_join "" base_dir) (g_name group)) (name counter) in
  Ok (p, g_name group +:+ "-" +:+ argument rule).

(** The counters of a group that list identifiers, with their positions. *)
Definition listed (group : StratagemGroupResult) : list (nat * StratagemCounters) :=
  List.filter (fun x => have_flist x.2) (imap pair (gr_counters group)).

(** [collect::<Result<Vec<_>, _>>()]. *)
Fixpoint collect {E A} (xs : list (Result E A)) : Result E (list A) :=
  match xs with [] => Ok [] | x :: xs => a ← x; l ← collect xs; Ok (a :: l) end.

Definition get_mailbox_files (base_dir : string) (data : StratagemConfig) (result : StratagemResult) : Result ImlAgentError (list (PathBuf * string)) :=
  collect (List.filter (fun x => existsb have_flist (gr_counters x)) result ≫=
           (fun group => (fun '(idx, counter) => mailbox_file base_dir data group idx counter) <$> listed group)).


(** The scan writes the configuration, runs [lipe_scan] with a new directory and decodes what it
    left there: [scan] is what this gives. *)
Definition trigger_scan (id : string) (scan : StratagemConfig -> string -> Result ImlAgentError StratagemResult) (data : StratagemConfig)
    : Result ImlAgentError (string * StratagemResult * list (PathBuf * string)) :=
  let tmp_dir := "/tmp/" +:+ id +:+ "/" in
  x ← scan data tmp_dir;
  mailbox_files ← get_mailbox_files tmp_dir data x;
  Ok (tmp_dir, x, mailbox_files).


Lemma listed_in group idx c : (idx, c) ∈ listed group <-> gr_counters group !! idx = Some c /\ have_flist c = true.
Proof.
  unfold listed. rewrite list_elem_of_In, filter_In, <- list_elem_of_In, elem_of_lookup_imap. cbn. split.
  - intros [(i & x & [= -> ->] & Hx) Hc]. done.
  - intros [Hx Hc]. split; [|done]. by exists idx, c.
Qed.

Lemma listed_none group : existsb have_flist (gr_counters group) = false -> listed group = [].
Proof.
  intros He. destruct (listed group) as [|[idx c] l] eqn:El; [done|]. assert ((idx, c) ∈ listed group) as Hin by (rewrite El; left).
  apply listed_in in Hin as [Hc Hf]. assert (existsb have_flist (gr_counters group) = true); [|congruence].
  apply existsb_exists. exists c. split; [|done]. apply list_elem_of_In, list_elem_of_lookup. by exists idx.
Qed.

(** The filter on groups takes out only groups that list nothing. *)
Lemma mailbox_files_eq base_dir data result :
  get_mailbox_files base_dir data result =
  collect (result ≫= (fun group => (fun '(idx, counter) => mailbox_file base_dir data group idx counter) <$> listed group)).
Proof.
  unfold get_mailbox_files. f_equal. induction result as [|g l IH]; [done|]. cbn [List.filter mbind list_bind].
  destruct (existsb have_flist (gr_counters g)) eqn:He; cbn [mbind list_bind]; [by rewrite IH|]. by rewrite IH, (listed_none g He).
Qed.

Lemma collect_ok {E A} (xs : list (Result E A)) l : collect xs = Ok l <-> xs = Ok <$> l.
Proof.
  revert l. induction xs as [|[a|e] xs IH]; intros l; cbn.
  - split; [by intros [= <-]|by destruct l].
  - destruct (collect xs) as [l'|e] eqn:Ec; cbn.
    + split; [intros [= <-]; cbn; f_equal; by apply IH|]. destruct l as [|b l]; [done|]. intros [= -> Hl]. apply IH in Hl. congruence.
    + split; [done|]. destruct l as [|b l]; [done|]. intros [= _ Hl]. by apply IH in Hl.
  - split; [done|]. by destruct l.
Qed.

Lemma collect_err {E A} (xs : list (Result E A)) : (exists e, collect xs = Err e) <-> exists e, Err e ∈ xs.
Proof.
  induction xs as [|[a|e] xs IH]; cbn.
  - split; intros [e He]; [done|by apply not_elem_of_nil in He].
  - setoid_rewrite elem_of_cons. destruct (collect xs) as [l|e] eqn:Ec; cbn; split.
    + by intros [].
    + intros (e & [[=]|He]). destruct (proj2 IH) as [e0 H0]; [by exists e|done].
    + intros _. destruct (proj1 IH) as [e' He']; [by eexists|]. exists e'. by right.
    + intros _. by eexists.
  - split; intros _; exists e; [left|done].
Qed.

(** Each file is of a counter that lists identifiers, and its mailbox is named by the group and the
    argument of the rule at its position. *)
Theorem mailbox_files_named base_dir data result files p address : get_mailbox_files base_dir data result = Ok files ->
  (p, address) ∈ files <-> exists group idx counter g rule, group ∈ result /\ gr_counters group !! idx = Some counter /\ have_flist counter = true /\
    get_group_by_name data (gr_name group) = Some g /\ rules g !! idx = Some rule /\
    p = path_join (path_join (path_join "" base_dir) (g_name g)) (name counter) /\ address = g_name g +:+ "-" +:+ argument rule.
Proof.
  rewrite mailbox_files_eq. intros Hc%collect_ok. transitivity (Ok (p, address) ∈ ((Ok <$> files) : list (Result ImlAgentError _))).
  { split; [by apply list_elem_of_fmap_2|]. by intros (x & [= <-] & Hx)%list_elem_of_fmap. }
  rewrite <- Hc, list_elem_of_bind. setoid_rewrite list_elem_of_fmap. split.
  - intros (group & ([idx c] & Hm & [Hidx Hl]%listed_in) & Hg). unfold mailbox_file, get_rule_by_idx, ok_or in Hm.
    destruct (get_group_by_name data (gr_name group)) as [g|] eqn:Eg; [|done]. cbn in Hm. destruct (rules g !! idx) as [rule|] eqn:Er; [|done].
    injection Hm as -> ->. by exists group, idx, c, g, rule.
  - intros (group & idx & c & g & rule & Hg & Hidx & Hl & Eg & Er & -> & ->). exists group. split; [|done].
    exists (idx, c). split; [|by apply listed_in]. unfold mailbox_file, get_rule_by_idx, ok_or. rewrite Eg. cbn. by rewrite Er.
Qed.

(** *** What a scan gives *)

(** A name that is a component of a path. *)
Definition plain_name (s : string) : Prop := s <> "" /\ starts_with "/" s = false /\ ends_with "/" s = false.

(** The rule at position [idx] of the configuration's group that [group] is the result of. *)
Definition rule_of (data : StratagemConfig) (group : StratagemGroupResult) (idx : nat) (rule : StratagemRule) : Prop :=
  exists g, g ∈ groups data /\ g_name g = gr_name group /\ rules g !! idx = Some rule.

(** The counter at position [idx] of a group of the result lists identifiers. *)
Definition lists_ids (result : StratagemResult) (group : StratagemGroupResult) (idx : nat) (c : StratagemCounters) : Prop :=
  group ∈ result /\ gr_counters group !! idx = Some c /\ counter_flist_type c <> "none".

Lemma ends_with_last a s : s <> "" -> ends_with "/" (a +:+ s) = ends_with "/" s.
Proof.
  intros Hs. induction a as [|c a IH]; [done|]. rewrite <- IH. change (String c a +:+ s) with (String c (a +:+ s)).
  assert (1 <= slen (a +:+ s))%nat as Hl by (rewrite slen_app; destruct s; [done|]; cbn; lia).
  unfold ends_with. change (slen "/") with 1%nat. change (slen (String c (a +:+ s))) with (S (slen (a +:+ s))).
  replace (S (slen (a +:+ s)) - 1)%nat with (S (slen (a +:+ s) - 1)) by lia.
  by rewrite !(proj2 (Nat.leb_le _ _)) by lia.
Qed.

(** The file of a counter is in the directory of its group, below the directory of the scan. *)
Lemma counter_path dir g n : plain_name g -> starts_with "/" n = false ->
  path_join (path_join (path_join "" ("/" +:+ dir +:+ "/")) g) n = "/" +:+ dir +:+ "/" +:+ g +:+ "/" +:+ n.
Proof.
  intros (Hg & Hs & He) Hn. unfold path_join. rewrite starts_with_app.
  assert (ends_with "/" ("/" +:+ dir +:+ "/") = true) as -> by (apply (ends_with_app ("/" +:+ dir))).
  rewrite Hs, Hn, orb_true_r, ends_with_last, He by done. cbn [orb]. by rewrite <- !str_app_assoc.
Qed.

Lemma have_flist_true c : have_flist c = true <-> counter_flist_type c <> "none".
Proof. unfold have_flist. by rewrite negb_true_iff, String.eqb_neq. Qed.

(** With unique names, the group that is found is the one of the name. *)
Lemma group_found data n g : NoDup (g_name <$> groups data) ->
  get_group_by_name data n = Some g <-> g ∈ groups data /\ g_name g = n.
Proof.
  unfold get_group_by_name. induction (groups data) as [|h l IH]; cbn; [by split; [|intros [?%elem_of_nil _]]|].
  intros [Hh Hl]%NoDup_cons. rewrite elem_of_cons. destruct (String.eqb_spec (g_name h) n) as [<-|Hn].
  - split; [intros [= <-]; auto|]. intros [[->|Hg] Hgn]; [done|]. destruct Hh. rewrite <- Hgn. by apply list_elem_of_fmap_2.
  - rewrite IH by done. split; [tauto|]. intros [[->|Hg] Hgn]; tauto.
Qed.

Lemma rule_found data group idx rule : NoDup (g_name <$> groups data) ->
  rule_of data group idx rule <-> exists g, get_group_by_name data (gr_name group) = Some g /\ rules g !! idx = Some rule.
Proof.
  intros Hd. unfold rule_of. setoid_rewrite (group_found data _ _ Hd). naive_solver.
Qed.

Lemma mailbox_file_err base_dir data group idx counter e : NoDup (g_name <$> groups data) ->
  mailbox_file base_dir data group idx counter = Err e -> forall rule, ~ rule_of data group idx rule.
Proof.
  intros Hd He rule (g & Hg & Hr)%rule_found; [|done]. unfold mailbox_file, get_rule_by_idx, ok_or in He. rewrite Hg in He. cbn in He. by rewrite Hr in He.
Qed.

Lemma mailbox_file_rule base_dir data group idx counter f : NoDup (g_name <$> groups data) ->
  mailbox_file base_dir data group idx counter = Ok f -> exists rule, rule_of data group idx rule.
Proof.
  intros Hd Hf. unfold mailbox_file, get_rule_by_idx, ok_or in Hf. setoid_rewrite (rule_found _ _ _ _ Hd).
  destruct (get_group_by_name data (gr_name group)) as [g|]; [|done]. cbn in Hf. destruct (rules g !! idx) as [rule|] eqn:Er; [|done]. by exists rule, g.
Qed.

Lemma length_listed group : length (listed group) = length (List.filter have_flist (gr_counters group)).
Proof.
  unfold listed. generalize 0%nat as k. intros k. assert (forall f : nat -> nat, length (List.filter (fun x : nat * StratagemCounters => have_flist x.2) (imap (fun i c => (f i, c)) (gr_counters group))) =
    length (List.filter have_flist (gr_counters group))) as H; [|exact (H id)].
  induction (gr_counters group) as [|c l IH]; intros f; [done|]. cbn. destruct (have_flist c); cbn; [f_equal|]; apply (IH (f ∘ S)).
Qed.

(** As many files as counters that list identifiers. *)
Lemma mailbox_files_number base_dir data result files : get_mailbox_files base_dir data result = Ok files ->
  length files = length (List.filter have_flist (result ≫= gr_counters)).
Proof.
  rewrite mailbox_files_eq. intros Hc%collect_ok%(f_equal length). rewrite length_fmap in Hc. rewrite <- Hc. clear Hc.
  induction result as [|g l IH]; [done|]. cbn [mbind list_bind]. rewrite List.filter_app, !length_app, length_fmap, length_listed. f_equal. apply IH.
Qed.

(** C39: A scan's files are found, each with its mailbox. For a configuration whose groups have
    different names and a result whose names are components of a path: the scan fails only when
    a counter that lists identifiers (its list type is not [none]) has no rule at its position in
    the configuration's group of that name. Otherwise there is one file for each such counter,
    [/tmp/<scan>/<group>/<counter>], and none for the others, and its mailbox is the
    group's name, a dash and the argument of the counter's rule. *)
Theorem mailbox_files_found id scan data result :
  NoDup (g_name <$> groups data) ->
  (forall group c, group ∈ result -> c ∈ gr_counters group -> plain_name (gr_name group) /\ starts_with "/" (name c) = false) ->
  scan data ("/tmp/" +:+ id +:+ "/") = Ok result ->
  match trigger_scan id scan data with
  | Err _ => exists group idx c, lists_ids result group idx c /\ forall rule, ~ rule_of data group idx rule
  | Ok (dir, x, files) =>
      dir = "/tmp/" +:+ id +:+ "/" /\ x = result /\
      (forall group idx c, lists_ids result group idx c -> exists rule, rule_of data group idx rule) /\
      (forall p address, (p, address) ∈ files <-> exists group idx c rule,
         lists_ids result group idx c /\ rule_of data group idx rule /\
         p = "/tmp/" +:+ id +:+ "/" +:+ gr_name group +:+ "/" +:+ name c /\ address = gr_name group +:+ "-" +:+ argument rule) /\
      length files = length (List.filter (fun c => negb (String.eqb (counter_flist_type c) "none")) (result ≫= gr_counters))
  end.
Proof.
  intros Hd Hn Hs. unfold trigger_scan. cbv zeta. rewrite Hs. cbn [mbind Result_bind].
  destruct (get_mailbox_files ("/tmp/" +:+ id +:+ "/") data result) as [files|e] eqn:Ef; cbn.
  - split_and!; [done..| | |by apply mailbox_files_number in Ef].
    + intros group idx c (Hg & Hc & Hl%have_flist_true). rewrite mailbox_files_eq in Ef. apply collect_ok in Ef.
      assert (mailbox_file ("/tmp/" +:+ id +:+ "/") data group idx c ∈ ((Ok <$> files) : list (Result ImlAgentError _))) as (f & Hf & _)%list_elem_of_fmap.
      { rewrite <- Ef. apply list_elem_of_bind. exists group. split; [|done]. apply list_elem_of_fmap. exists (idx, c). split; [done|]. by apply listed_in. }
      by apply mailbox_file_rule in Hf.
    + intros p address. rewrite (mailbox_files_named _ _ _ _ p address Ef). setoid_rewrite have_flist_true. unfold lists_ids.
      setoid_rewrite (rule_found data _ _ _ Hd). split.
      * intros (group & idx & c & g & rule & Hg & Hc & Hl & Hgn & Hr & -> & ->). exists group, idx, c, rule.
        pose proof (proj2 (proj1 (group_found _ _ _ Hd) Hgn)) as Hname. rewrite Hname.
        destruct (Hn group c) as [Hp Hq]; [done|by eapply list_elem_of_lookup_2|]. split_and!; [done..|by exists g| |done].
        by apply (counter_path ("tmp/" +:+ id)).
      * intros (group & idx & c & rule & (Hg & Hc & Hl) & (g & Hgn & Hr) & -> & ->). exists group, idx, c, g, rule.
        pose proof (proj2 (proj1 (group_found _ _ _ Hd) Hgn)) as Hname. rewrite Hname.
        destruct (Hn group c) as [Hp Hq]; [done|by eapply list_elem_of_lookup_2|]. split_and!; [done..| |done].
        symmetry. by apply (counter_path ("tmp/" +:+ id)).
  - rewrite mailbox_files_eq in Ef. apply (ex_intro (fun e => _ = Err e)), collect_err in Ef as [e' He].
    apply list_elem_of_bind in He as (group & ([idx c] & He & [Hc Hl%have_flist_true]%listed_in)%list_elem_of_fmap & Hg).
    exists group, idx, c. split; [done|]. symmetry in He. by eapply mailbox_file_err.
Qed.

(** A scan with the agent's own configuration. *)
Definition sample_data : StratagemConfig := generate_cooked_config "/dev/mapper/mpathb" (Some 18000000) (Some 5184000000).

Definition sample_result : StratagemResult :=
  [MkStratagemGroupResult "size_distribution"
     [PlainCounter (MkStratagemCounter "smaller_than_1M" 1 104857 0 "none"); PlainCounter (MkStratagemCounter "not_smaller_than_1M" 0 0 0 "none")];
   MkStratagemGroupResult "purge_fids" [PlainCounter (MkStratagemCounter "shell_cmd_of_rule_0" 1 104857 0 "fid")];
   MkStratagemGroupResult "warn_fids" [PlainCounter (MkStratagemCounter "shell_cmd_of_rule_1" 1 104857 0 "fid")]].

Lemma mailbox_files_found_witness : exists files,
  trigger_scan "7" (fun _ _ => Ok sample_result) sample_data = Ok ("/tmp/7/", sample_result, files) /\ length files = 2%nat /\
  ("/tmp/7/warn_fids/shell_cmd_of_rule_1", "warn_fids-fids_expiring_soon") ∈ files.
Proof.
  pose proof (mailbox_files_found "7" (fun _ _ => Ok sample_result) sample_data sample_result) as H.
  destruct (trigger_scan "7" (fun _ _ => Ok sample_result) sample_data) as [[[dir x] files]|e] eqn:E; [|by vm_compute in E].
  destruct H as (-> & -> & _ & Hf & Hl).
  - apply (bool_decide_unpack _). by vm_compute.
  - intros group c Hg Hc. apply list_elem_of_In in Hg, Hc. cbn in Hg. repeat destruct Hg as [<-|Hg]; try done;
      cbn in Hc; repeat destruct Hc as [<-|Hc]; try done; (split; [split_and!; [done|reflexivity..]|reflexivity]).
  - done.
  - exists files. split; [done|]. split; [by rewrite Hl|]. apply Hf.
    exists (MkStratagemGroupResult "warn_fids" [PlainCounter (MkStratagemCounter "shell_cmd_of_rule_1" 1 104857 0 "fid")]), 0%nat,
      (PlainCounter (MkStratagemCounter "shell_cmd_of_rule_1" 1 104857 0 "fid")),
      (fid_rule (warn_window 18000000 5184000000) "fids_expiring_soon").
    split; [split_and!; [do 2 right; left|done..]|]. split; [|done].
    exists (MkStratagemGroup [fid_rule (warn_window 18000000 5184000000) "fids_expiring_soon"] "warn_fids"). split_and!; [do 3 right; left|done..].
Defined.

(** ** Sending the lists *)

Section stream.
(** [stream_dir_lines], and what sending a chunk of a file gives. *)
Context (dir_lines : PathBuf -> list (Result ImlAgentError string)).
Context (send : nat -> nat -> string -> list (Result ImlAgentError string) -> Result ImlAgentError unit).

Definition fid_line (x : string) : string :=
  let quote := String "034" "" in
  "{ " +:+ quote +:+ "fid" +:+ quote +:+ ": " +:+ quote +:+ x +:+ quote +:+ " }" +:+ String "010" "".

Definition body_of (xs : list (Result ImlAgentError string)) : list (Result ImlAgentError string) := fmap (M := Result ImlAgentError) fid_line <$> xs.

(** [try_for_each] over the chunks of file [i]: the bodies that were sent, and how it ended. *)
Fixpoint send_chunks (i k : nat) (address : string) (cs : list (list (Result ImlAgentError string))) : list (string * list (Result ImlAgentError string)) * Result ImlAgentError unit :=
  match cs with
  | [] => ([], Ok tt)
  | xs :: cs =>
      let body := body_of xs in
      match send i k address body with
      | Err e => ([(address, body)], Err e)
      | Ok _ => let '(sent, r) := send_chunks i (S k) address cs in ((address, body) :: sent, r)
      end
  end.

Definition send_file (i : nat) (f : PathBuf * string) : list (string * list (Result ImlAgentError string)) * Result ImlAgentError unit :=
  send_chunks i 0 f.2 (chunks 5000 (dir_lines f.1)).

(** The requests of each file, which run in parallel, and the answer. The results of [join_all] are
    not looked at. *)
Definition stream_fidlists (mailbox_files : list (PathBuf * string)) : list (list (string * list (Result ImlAgentError string))) * Result ImlAgentError unit :=
  (fst <$> imap send_file mailbox_files, Ok tt).

Lemma send_chunks_all i k address cs : (forall k b, send i k address b = Ok tt) ->
  (send_chunks i k address cs).1 = (fun xs => (address, body_of xs)) <$> cs.
Proof.
  intros Hs. revert k. induction cs as [|c cs IH]; intros k; [done|]. cbn [send_chunks]. rewrite Hs. specialize (IH (S k)).
  destruct (send_chunks i (S k) address cs). cbn in *. by rewrite IH.
Qed.

(** When the requests succeed, each mailbox gets the lines of its file, in order and in requests
    of at most 5000 lines. *)
Theorem fidlists_sent mailbox_files i p address :
  mailbox_files !! i = Some (p, address) -> (forall k b, send i k address b = Ok tt) ->
  exists sent, (stream_fidlists mailbox_files).1 !! i = Some sent /\
    concat sent.*2 = body_of (dir_lines p) /\
    Forall (fun s => s.1 = address /\ (0 < length s.2 <= 5000)%nat) sent.
Proof.
  intros Hi Hs. unfold stream_fidlists. cbn [fst]. rewrite list_lookup_fmap, list_lookup_imap, Hi. cbn [fmap option_fmap option_map].
  eexists. split; [done|]. unfold send_file. cbn [fst snd]. rewrite send_chunks_all by done. split.
  - rewrite <- (concat_chunks 5000 (dir_lines p)) at 2. rewrite <- list_fmap_compose. induction (chunks 5000 (dir_lines p)) as [|c cs IH]; [done|].
    rewrite fmap_cons. cbn [concat]. rewrite IH.
    unfold body_of, compose. by rewrite fmap_app.
  - apply Forall_fmap. eapply Forall_impl; [apply (chunks_size 5000); lia|]. intros c Hc. cbn. unfold body_of. by rewrite length_fmap.
Qed.
End stream.

(** A request that fails is not reported: the answer is a success, and the lines are lost. *)
Example fidlist_dropped :
  stream_fidlists (fun _ => [Ok "[0x200000401:0x1:0x0]"]) (fun _ _ _ _ => Err (EIo None)) [("/tmp/x/warn_fids/shell_cmd", "u-warn_fids-fids_expiring_soon")] =
  ([[("u-warn_fids-fids_expiring_soon", [Ok (fid_line "[0x200000401:0x1:0x0]")])]], Ok tt).
Proof. reflexivity. Qed.
