(* ===== verification/StratagemApi.v ===== *)
(** * The API's commands for Stratagem ([iml-api/src/graphql/stratagem.rs])

    Each command stores tasks, builds a scan for every target of the file system and hands the
    scheduler a list of jobs that refer to each other by position. The database and the scheduler
    are arguments; what a command did to them is the state of a monad with errors. *)
From S2P Require Import Prelude RustStd WireTypes Fids Tasks FidActions Stratagem.
From stdpp Require Import base gmap sets list strings.
From Stdlib Require Import Ascii ZArith Lia.
Open Scope string_scope.
Open Scope Z_scope.

(** ** Jobs *)

(** The JSON values that are made. *)
Inductive Arg : Type :=
  | AStr (s : string)
  | AInt (n : Z)
  | ARange (l : list nat)
  | AConfig (c : StratagemConfig).

Record SendJob : Type := MkSendJob { class_name : string; args : list (string * Arg) }.

Record TargetHost : Type := MkTargetHost { th_name : string; th_fqdn : string; th_dev_path : option string }.

(** A row of [target], and of [chroma_core_managedhost]. *)
Record TargetRow : Type := MkTargetRow { tr_name : string; tr_dev_path : option string; tr_active_host_id : option Z; tr_filesystems : list string }.
Record HostRow : Type := MkHostRow { hr_fqdn : string; hr_not_deleted : bool }.

(** The filter on the name: the part after the last dash. *)
Definition is_mdt (name : string) : bool := match rsplitn2 "-" name with x :: _ => starts_with "MDT" x | [] => false end.

(** The metadata targets of a file system that are active on a host. *)
Definition target_hosts (targets : list TargetRow) (hosts : gmap Z HostRow) (fsname : string) : list TargetHost :=
  List.filter (fun x => is_mdt (th_name x))
    (omap (fun t => id ← tr_active_host_id t; h ← hosts !! id;
                    if bool_decide (fsname ∈ tr_filesystems t) && hr_not_deleted h then Some (MkTargetHost (tr_name t) (hr_fqdn h) (tr_dev_path t)) else None) targets).

(** What [insert_task] is given; every task starts in the state [created]. *)
Record NewTask : Type := MkNewTask {
  nt_name : string; nt_single_runner : bool; nt_keep_failed : bool; nt_actions : list string; nt_args : gmap string string; nt_fs_id : Z }.

Definition create_task_job (id : Z) : SendJob := MkSendJob "CreateTaskJob" [("task_id", AInt id)].

Definition remove_task_job (job_range : list nat) (id : Z) : SendJob :=
  MkSendJob "RemoveTaskJob" [("task_id", AInt id); ("depends_on_job_range", ARange job_range)].

Definition scan_job (class fqdn uuid fsname : string) (cfg : StratagemConfig) (job_range : list nat) : SendJob :=
  MkSendJob class [("fqdn", AStr fqdn); ("uuid", AStr uuid); ("fsname", AStr fsname); ("config", AConfig cfg); ("depends_on_job_range", ARange job_range)].

(** The loop over the hosts; a target without a path is passed over. *)
Definition scan_jobs (class uuid fsname : string) (cfg : string -> StratagemConfig) (job_range : list nat) (xs : list TargetHost) : list SendJob :=
  omap (fun x => (fun path => scan_job class (th_fqdn x) uuid fsname (cfg path) job_range) <$> th_dev_path x) xs.

Definition range (jobs : list SendJob) : list nat := seq 0 (length jobs).

(** ** Effects and errors *)

Inductive ApiError : Type :=
  | FieldError (s : string)
  | SqlxError
  | SchedulerError.

Record Effects : Type := MkEffects { inserted : list (Z * NewTask); posted : list (list SendJob * string) }.

Definition M (A : Type) : Type := Effects -> Result ApiError A * Effects.

#[local] Instance M_ret : MRet M := fun A a e => (Ok a, e).
#[local] Instance M_bind : MBind M := fun A B f m e => match m e with (Ok a, e) => f a e | (Err x, e) => (Err x, e) end.

Definition lift {A} (r : Result ApiError A) : M A := fun e => (r, e).

Section api.
Context {Command : Type}.
Context (fs_id_by_name : string -> Result ApiError Z).
(** The id of the task that is inserted next. *)
Context (new_id : nat -> Result ApiError Z).
Context (get_target_hosts_by_fsname : string -> Result ApiError (list TargetHost)).
Context (call : list SendJob -> Result ApiError Z).
Context (get_command : Z -> Result ApiError Command).

Definition insert_task (t : NewTask) : M Z := fun e =>
  match new_id (length (inserted e)) with
  | Ok id => (Ok id, MkEffects (inserted e ++ [(id, t)]) (posted e))
  | Err x => (Err x, e)
  end.

Definition run_jobs (jobs : list SendJob) (message : string) : M Z := fun e =>
  (call jobs, MkEffects (inserted e) (posted e ++ [(jobs, message)])).

(** ** [run_filesync], [run_cloudsync] *)

Definition sync_config (kind expression path : string) : StratagemConfig :=
  MkStratagemConfig "none" true [MkStratagemGroup [fid_rule expression kind] kind] (MkStratagemDevice path [kind]).

Definition run_sync (kind message uuid fsname remote expression action : string) : M Command :=
  fs_id ← lift (fs_id_by_name fsname);
  task ← insert_task (MkNewTask (uuid +:+ "-" +:+ kind +:+ "-" +:+ kind) false false ["stratagem." +:+ kind]
                       (list_to_map [("remote", remote); ("expression", expression); ("action", action)]) fs_id);
  let jobs := [create_task_job task] in
  let job_range := range jobs in
  xs ← lift (get_target_hosts_by_fsname fsname);
  let jobs := (jobs ++ scan_jobs "ScanMdtJob" uuid fsname (sync_config kind expression) job_range xs)%list in
  command_id ← run_jobs jobs message;
  lift (get_command command_id).

Definition run_filesync : string -> string -> string -> string -> string -> M Command := run_sync "filesync" "Stratagem: Filesync".
Definition run_cloudsync : string -> string -> string -> string -> string -> M Command := run_sync "cloudsync" "Stratagem: Cloudsync".

(** ** [run_fast_file_scan] *)

(** Durations are in nanoseconds. *)
Definition as_millis (d : Z) : Z := d / 1000000.

Definition scan_config (groups : list string) (report_duration purge_duration : option Z) (path : string) : StratagemConfig :=
  let cfg_groups := [MkStratagemGroup (size_rules "SIZE < 1M" "SIZE >= 1G" "SIZE >= 1T" "1M <= SIZE < 1G") "size_distribution";
                     MkStratagemGroup user_rules "user_distribution"] in
  let cfg_groups := match report_duration with
    | Some r =>
        let expression := match purge_duration with Some p => warn_window (as_millis r) (as_millis p) | None => older_than (as_millis r) end in
        cfg_groups ++ [MkStratagemGroup [fid_rule expression "fids_expiring_soon"] "warn_fids"]
    | None => cfg_groups
    end%list in
  let cfg_groups := match purge_duration with
    | Some p => cfg_groups ++ [MkStratagemGroup [fid_rule (older_than (as_millis p)) "fids_expired"] "purge_fids"]
    | None => cfg_groups
    end%list in
  MkStratagemConfig "none" true cfg_groups (MkStratagemDevice path groups).

(** The blocks for the two durations: the task, its job and its group are added. *)
Definition add_task (wanted : bool) (t : NewTask) (group : string) (acc : list Z * list SendJob * list string) : M (list Z * list SendJob * list string) :=
  let '(cleanup_tasks, jobs, groups) := acc in
  if wanted then
    task ← insert_task t;
    mret (cleanup_tasks ++ [task], jobs ++ [create_task_job task], groups ++ [group])%list
  else mret acc.

Definition durations_ok (report_duration purge_duration : option Z) : bool :=
  match report_duration, purge_duration with Some r, Some p => r <? p | _, _ => true end.

Definition run_fast_file_scan (uuid fsname : string) (report_duration purge_duration : option Z) : M Command :=
  if durations_ok report_duration purge_duration then
    fs_id ← lift (fs_id_by_name fsname);
    acc ← add_task (bool_decide (is_Some report_duration))
            (MkNewTask (uuid +:+ "-warn_fids-fids_expiring_soon") false false ["stratagem.warning"]
               {["report_name" := "expiring_fids-" +:+ fsname +:+ "-" +:+ uuid +:+ ".txt"]} fs_id) "warn_fids"
            ([], [MkSendJob "ClearOldStratagemDataJob" []], ["size_distribution"; "user_distribution"]);
    acc ← add_task (bool_decide (is_Some purge_duration))
            (MkNewTask (uuid +:+ "-purge_fids-fids_expired") false false ["stratagem.purge"] ∅ fs_id) "purge_fids" acc;
    let '(cleanup_tasks, jobs, groups) := acc in
    let job_range := range jobs in
    xs ← lift (get_target_hosts_by_fsname fsname);
    let jobs := (jobs ++ scan_jobs "FastFileScanMdtJob" uuid fsname (scan_config groups report_duration purge_duration) job_range xs)%list in
    let job_range := range jobs in
    let jobs := (jobs ++ [MkSendJob "AggregateStratagemResultsJob" [("fs_name", AStr fsname); ("depends_on_job_range", ARange job_range)]] ++
                 (remove_task_job job_range <$> cleanup_tasks))%list in
    command_id ← run_jobs jobs "Stratagem: Fast File Scan";
    lift (get_command command_id)
  else lift (Err (FieldError "Report duration must be less than Purge duration.")).

(** ** [run_stratagem] *)

Record TaskArgs : Type := MkTaskArgs {
  ta_name : string; ta_single_runner : bool; ta_keep_failed : bool; ta_actions : list string; ta_pairs : list (string * string); ta_needs_cleanup : bool }.

(** The loop over the tasks. *)
Fixpoint add_tasks (fs_id : Z) (tasks : list TaskArgs) (cleanup_tasks : list Z) (jobs : list SendJob) : M (list Z * list SendJob) :=
  match tasks with
  | [] => mret (cleanup_tasks, jobs)
  | t :: tasks =>
      let args := foldl (fun m x => <[x.1 := x.2]> m) ∅ (ta_pairs t) in
      task ← insert_task (MkNewTask (ta_name t) (ta_single_runner t) (ta_keep_failed t) (ta_actions t) args fs_id);
      add_tasks fs_id tasks (if ta_needs_cleanup t then cleanup_tasks ++ [task] else cleanup_tasks)%list (jobs ++ [create_task_job task])%list
  end.

Definition group_config (groups : list StratagemGroup) (path : string) : StratagemConfig :=
  MkStratagemConfig "none" true groups (MkStratagemDevice path (g_name <$> groups)).

Definition run_stratagem (uuid fsname : string) (tasks : list TaskArgs) (groups : list StratagemGroup) : M Command :=
  fs_id ← lift (fs_id_by_name fsname);
  acc ← add_tasks fs_id tasks [] [];
  let '(cleanup_tasks, jobs) := acc in
  let job_range := range jobs in
  xs ← lift (get_target_hosts_by_fsname fsname);
  let jobs := (jobs ++ scan_jobs "ScanMdtJob" uuid fsname (group_config groups) job_range xs)%list in
  let job_range := range jobs in
  let jobs := (jobs ++ (remove_task_job job_range <$> cleanup_tasks))%list in
  command_id ← run_jobs jobs "Stratagem: Scanning all MDT's";
  lift (get_command command_id).

(** ** What a scan stores and posts *)

Definition warn_task (uuid fsname : string) (fs_id : Z) : NewTask :=
  MkNewTask (uuid +:+ "-warn_fids-fids_expiring_soon") false false ["stratagem.warning"]
    {["report_name" := "expiring_fids-" +:+ fsname +:+ "-" +:+ uuid +:+ ".txt"]} fs_id.
Definition purge_task (uuid : string) (fs_id : Z) : NewTask :=
  MkNewTask (uuid +:+ "-purge_fids-fids_expired") false false ["stratagem.purge"] ∅ fs_id.

Definition if_some {A B} (o : option A) (b : B) : list B := match o with Some _ => [b] | None => [] end.

Definition scan_tasks (uuid fsname : string) (rd pd : option Z) (fs_id : Z) : list NewTask :=
  (if_some rd (warn_task uuid fsname fs_id) ++ if_some pd (purge_task uuid fs_id))%list.

Definition setup_jobs (ids : list Z) : list SendJob := MkSendJob "ClearOldStratagemDataJob" [] :: (create_task_job <$> ids).

Definition scan_groups (rd pd : option Z) : list string :=
  (["size_distribution"; "user_distribution"] ++ if_some rd "warn_fids" ++ if_some pd "purge_fids")%list.

Definition mdt_jobs (uuid fsname : string) (rd pd : option Z) (ids : list Z) (xs : list TargetHost) : list SendJob :=
  scan_jobs "FastFileScanMdtJob" uuid fsname (scan_config (scan_groups rd pd) rd pd) (range (setup_jobs ids)) xs.

Definition closing_jobs (fsname : string) (ids : list Z) (before : list SendJob) : list SendJob :=
  MkSendJob "AggregateStratagemResultsJob" [("fs_name", AStr fsname); ("depends_on_job_range", ARange (range before))] :: (remove_task_job (range before) <$> ids).

Definition no_effects : Effects := MkEffects [] [].

Ltac run_command :=
  repeat match goal with
  | |- context [fs_id_by_name ?n] => destruct (fs_id_by_name n) as [|]; cbn; [|auto]
  | |- context [new_id ?n] => let id := fresh "id" in destruct (new_id n) as [id|]; cbn; [|auto]
  | |- context [get_target_hosts_by_fsname ?n] => let xs := fresh "xs" in destruct (get_target_hosts_by_fsname n) as [xs|]; cbn; [|auto]
  | |- context [call ?j] => destruct (call j) as [|]
  end.

(** Either nothing is posted, or one list of jobs, for the tasks that were stored. *)
Lemma fast_scan_effects uuid fsname rd pd :
  let e := (run_fast_file_scan uuid fsname rd pd no_effects).2 in
  posted e = [] \/
  exists fs_id ids xs, fs_id_by_name fsname = Ok fs_id /\ (inserted e).*1 = ids /\ (inserted e).*2 = scan_tasks uuid fsname rd pd fs_id /\
    let before := (setup_jobs ids ++ mdt_jobs uuid fsname rd pd ids xs)%list in
    posted e = [(before ++ closing_jobs fsname ids before, "Stratagem: Fast File Scan")]%list.
Proof.
  unfold run_fast_file_scan, add_task, mbind, M_bind, mret, M_ret, lift, insert_task, run_jobs. destruct (durations_ok rd pd); [|by left].
  destruct (fs_id_by_name fsname) as [fs|] eqn:Ef; cbn; [|auto]. destruct rd as [rd|], pd as [pd|]; cbn; run_command; right.
  all: first [by exists fs, [id; id0], xs | by exists fs, [id], xs | by exists fs, [], xs].
Qed.

(** ** Order of the jobs *)

Definition deps (j : SendJob) : list nat := args j ≫= (fun x => match x.2 with ARange l => l | _ => [] end).

(** Jobs depend on earlier jobs of the list only. *)
Definition ordered (jobs : list SendJob) : Prop := forall i j d, jobs !! i = Some j -> d ∈ deps j -> (d < i)%nat.

Lemma ordered_app l1 l2 : ordered l1 -> (forall j d, j ∈ l2 -> d ∈ deps j -> (d < length l1)%nat) -> ordered (l1 ++ l2).
Proof.
  intros H1 H2 i j d [Hj|[Hi Hj]]%lookup_app_Some Hd; [by apply (H1 i j)|]. apply list_elem_of_lookup_2 in Hj. specialize (H2 j d Hj Hd). lia.
Qed.

Lemma range_lt jobs d : d ∈ range jobs -> (d < length jobs)%nat.
Proof. unfold range. rewrite elem_of_seq. lia. Qed.

Lemma deps_scan class uuid fsname cfg r xs j d : j ∈ scan_jobs class uuid fsname cfg r xs -> d ∈ deps j -> d ∈ r.
Proof.
  unfold scan_jobs. intros (x & _ & Hj)%list_elem_of_omap. apply fmap_Some in Hj as (p & _ & ->). cbn. by rewrite app_nil_r.
Qed.

Lemma deps_remove r (ids : list Z) j d : j ∈ (remove_task_job r <$> ids) -> d ∈ deps j -> d ∈ r.
Proof. intros (id & -> & _)%list_elem_of_fmap. cbn. by rewrite app_nil_r. Qed.

Lemma deps_create (ids : list Z) j d : j ∈ (create_task_job <$> ids) -> d ∉ deps j.
Proof. intros (id & -> & _)%list_elem_of_fmap. apply not_elem_of_nil. Qed.

Lemma ordered_create ids : ordered (create_task_job <$> ids).
Proof. intros i j d Hj Hd. apply list_elem_of_lookup_2 in Hj. by destruct (deps_create ids j d Hj). Qed.

(** Scans after what prepares them, removals after the scans. *)
Lemma ordered_scans setup class uuid fsname cfg xs : ordered setup -> ordered (setup ++ scan_jobs class uuid fsname cfg (range setup) xs).
Proof. intros Hs. apply ordered_app; [done|]. intros j d Hj Hd. by apply range_lt, (deps_scan class uuid fsname cfg _ xs j). Qed.

Lemma ordered_removals before ids : ordered before -> ordered (before ++ (remove_task_job (range before) <$> ids)).
Proof. intros Hs. apply ordered_app; [done|]. intros j d Hj Hd. by apply range_lt, (deps_remove _ ids j). Qed.

Definition sync_task (kind uuid remote expression action : string) (fs_id : Z) : NewTask :=
  MkNewTask (uuid +:+ "-" +:+ kind +:+ "-" +:+ kind) false false ["stratagem." +:+ kind]
    (list_to_map [("remote", remote); ("expression", expression); ("action", action)]) fs_id.

Lemma sync_effects kind message uuid fsname remote expression action :
  let e := (run_sync kind message uuid fsname remote expression action no_effects).2 in
  posted e = [] \/
  exists fs_id id xs, fs_id_by_name fsname = Ok fs_id /\ inserted e = [(id, sync_task kind uuid remote expression action fs_id)] /\
    let setup := [create_task_job id] in
    posted e = [(setup ++ scan_jobs "ScanMdtJob" uuid fsname (sync_config kind expression) (range setup) xs, message)]%list.
Proof.
  unfold run_sync, mbind, M_bind, lift, insert_task, run_jobs. destruct (fs_id_by_name fsname) as [fs|] eqn:Ef; cbn; [|auto]. run_command; right.
  all: by exists fs, id, xs.
Qed.

Definition task_of (fs_id : Z) (t : TaskArgs) : NewTask :=
  MkNewTask (ta_name t) (ta_single_runner t) (ta_keep_failed t) (ta_actions t) (foldl (fun m x => <[x.1 := x.2]> m) ∅ (ta_pairs t)) fs_id.

Lemma add_tasks_run fs_id tasks cl jobs e cl' jobs' e' : add_tasks fs_id tasks cl jobs e = (Ok (cl', jobs'), e') ->
  exists ids, jobs' = (jobs ++ (create_task_job <$> ids))%list /\ length ids = length tasks /\
    cl' = (cl ++ omap (fun x => if ta_needs_cleanup x.2 then Some x.1 else None) (zip ids tasks))%list /\
    inserted e' = (inserted e ++ zip ids (task_of fs_id <$> tasks))%list /\ posted e' = posted e.
Proof.
  revert cl jobs e. induction tasks as [|t tasks IH]; intros cl jobs e; cbn [add_tasks].
  - intros [= <- <- <-]. exists []. by rewrite !app_nil_r.
  - unfold mbind at 1, M_bind at 1, insert_task at 1. destruct (new_id (length (inserted e))) as [id|]; [|done].
    intros (ids & -> & Hl & -> & Hi & Hp)%IH. exists (id :: ids). cbn in Hi, Hp |- *. rewrite Hi, Hp, <- !app_assoc, Hl. split_and!; try done.
    by destruct (ta_needs_cleanup t); cbn; rewrite <- ?app_assoc.
Qed.

Lemma add_tasks_posted fs_id tasks cl jobs e : posted (add_tasks fs_id tasks cl jobs e).2 = posted e.
Proof.
  revert cl jobs e. induction tasks as [|t tasks IH]; intros cl jobs e; [done|]. cbn [add_tasks]. unfold mbind, M_bind, insert_task.
  destruct (new_id (length (inserted e))) as [id|]; [|done]. by rewrite IH.
Qed.

(** The tasks of the request are stored, each with its job, and those marked for it are removed. *)
Lemma stratagem_effects uuid fsname tasks groups :
  let e := (run_stratagem uuid fsname tasks groups no_effects).2 in
  posted e = [] \/
  exists fs_id ids xs, fs_id_by_name fsname = Ok fs_id /\ length ids = length tasks /\ inserted e = zip ids (task_of fs_id <$> tasks) /\
    let before := ((create_task_job <$> ids) ++ scan_jobs "ScanMdtJob" uuid fsname (group_config groups) (range (create_task_job <$> ids)) xs)%list in
    let cleanup := omap (fun x => if ta_needs_cleanup x.2 then Some x.1 else None) (zip ids tasks) in
    posted e = [(before ++ (remove_task_job (range before) <$> cleanup), "Stratagem: Scanning all MDT's")]%list.
Proof.
  unfold run_stratagem. unfold mbind, M_bind, lift, run_jobs. destruct (fs_id_by_name fsname) as [fs|] eqn:Ef; [|auto]. cbn zeta.
  pose proof (add_tasks_posted fs tasks [] [] no_effects) as Hp. destruct (add_tasks fs tasks [] [] no_effects) as [[[cl jobs]|] e] eqn:Ea; [|by left].
  apply add_tasks_run in Ea as (ids & -> & Hl & -> & Hi & _). cbn in Hi, Hp |- *. destruct (get_target_hosts_by_fsname fsname) as [xs|]; cbn; [|by left].
  right. exists fs, ids, xs. rewrite Hp. by destruct (call _).
Qed.

Definition posts_ordered (m : M Command) : Prop := forall jobs message, (jobs, message) ∈ posted (m no_effects).2 -> ordered jobs.

Lemma posted_one {A B} (x : A) (y : B) x' y' : (x, y) ∈ [(x', y')] -> x = x'.
Proof. intros H%list_elem_of_singleton. by injection H. Qed.

(** In the jobs of every command, a job depends on earlier jobs only: the list can be run. *)
Theorem commands_ordered uuid fsname :
  (forall remote expression action, posts_ordered (run_filesync uuid fsname remote expression action)) /\
  (forall remote expression action, posts_ordered (run_cloudsync uuid fsname remote expression action)) /\
  (forall rd pd, posts_ordered (run_fast_file_scan uuid fsname rd pd)) /\
  (forall tasks groups, posts_ordered (run_stratagem uuid fsname tasks groups)).
Proof.
  assert (forall kind message remote expression action, posts_ordered (run_sync kind message uuid fsname remote expression action)) as Hsync.
  { intros kind message remote expression action jobs m. destruct (sync_effects kind message uuid fsname remote expression action) as [->|(fs & id & xs & _ & _ & ->)].
    - by intros ?%not_elem_of_nil.
    - intros ->%posted_one. apply (ordered_scans [create_task_job id]), (ordered_create [id]). }
  split_and!; [apply Hsync|apply Hsync| |].
  - intros rd pd jobs m. destruct (fast_scan_effects uuid fsname rd pd) as [->|(fs & ids & xs & _ & _ & _ & ->)]; [by intros ?%not_elem_of_nil|].
    intros ->%posted_one. apply ordered_app.
    + apply ordered_scans. unfold setup_jobs. apply (ordered_app [_]); [|intros j d Hj Hd; by destruct (deps_create ids j d Hj)].
      intros [|i] j d Hj Hd; [|done]. injection Hj as <-. by apply not_elem_of_nil in Hd.
    + intros j d [->|Hj]%elem_of_cons Hd; apply range_lt; [cbn in Hd; by rewrite app_nil_r in Hd|by apply (deps_remove _ ids j)].
  - intros tasks groups jobs m. destruct (stratagem_effects uuid fsname tasks groups) as [->|(fs & ids & xs & _ & _ & _ & ->)]; [by intros ?%not_elem_of_nil|].
    intros ->%posted_one. apply ordered_removals, ordered_scans, ordered_create.
Qed.

(** ** From the scans to the tasks *)

(** The scanner lists identifiers for the rules that ask for it. *)
Definition lists_only (data : StratagemConfig) (result : list StratagemGroupResult) : Prop :=
  forall group idx counter g rule, group ∈ result -> gr_counters group !! idx = Some counter -> have_flist counter = true ->
    get_group_by_name data (gr_name group) = Some g -> rules g !! idx = Some rule -> Stratagem.action rule = "LAT_SHELL_CMD_FID".

Lemma fid_rule_in data g rule idx name : get_group_by_name data name = Some g -> rules g !! idx = Some rule -> g ∈ groups data /\ rule ∈ rules g.
Proof.
  intros Hg Hr. split; [|by eapply list_elem_of_lookup_2]. unfold get_group_by_name in Hg. by apply List.find_some, proj1, list_elem_of_In in Hg.
Qed.

Lemma scan_addresses gs rd pd path g rule : g ∈ groups (scan_config gs rd pd path) -> rule ∈ rules g -> Stratagem.action rule = "LAT_SHELL_CMD_FID" ->
  (is_Some rd /\ g_name g +:+ "-" +:+ argument rule = "warn_fids-fids_expiring_soon") \/
  (is_Some pd /\ g_name g +:+ "-" +:+ argument rule = "purge_fids-fids_expired").
Proof.
  intros Hg Hr Ha. unfold scan_config in Hg. cbn [groups] in Hg. destruct rd as [rd|], pd as [pd|]; cbn [app] in Hg; rewrite ?elem_of_cons in Hg.
  all: repeat match type of Hg with _ ∨ _ => destruct Hg as [->|Hg] end; try by apply not_elem_of_nil in Hg.
  all: cbn [rules] in Hr; unfold size_rules, user_rules in Hr; rewrite ?elem_of_cons in Hr.
  all: repeat match type of Hr with _ ∨ _ => destruct Hr as [->|Hr] end; try by apply not_elem_of_nil in Hr.
  all: try discriminate Ha.
  all: (left; split; [done|reflexivity]) || (right; split; [done|reflexivity]).
Qed.

Lemma no_config j c : ("config", AConfig c) ∈ args j -> (exists ids, j ∈ setup_jobs ids) \/ (exists f ids b, j ∈ closing_jobs f ids b) -> False.
Proof.
  intros Hc [(ids & [->|(id & -> & _)%list_elem_of_fmap]%elem_of_cons)|(f & ids & b & [->|(id & -> & _)%list_elem_of_fmap]%elem_of_cons)].
  all: cbn in Hc; rewrite ?elem_of_cons in Hc; repeat destruct Hc as [[=]|Hc]; by apply not_elem_of_nil in Hc.
Qed.

Lemma scan_job_config class uuid fsname f r xs j c : j ∈ scan_jobs class uuid fsname f r xs -> ("config", AConfig c) ∈ args j -> exists path, c = f path.
Proof.
  unfold scan_jobs. intros (x & _ & Hj)%list_elem_of_omap Hc. apply fmap_Some in Hj as (p & _ & ->). exists p.
  cbn in Hc. rewrite !elem_of_cons in Hc. destruct Hc as [[=]|[[=]|[[=]|[[= ->]|[[=]|Hc]]]]]; [done|]. by apply not_elem_of_nil in Hc.
Qed.

(** C28: Every list of identifiers that a scan of the command makes is for a mailbox that is named, after
    the manager has put the command's id in front, as a task which the command has stored: files
    that expire soon go to the report, expired ones to the removal. The scan lists identifiers for
    the rules that ask for them only. *)
Theorem scan_reaches_tasks uuid fsname rd pd jobs message job cfg base_dir result files p address :
  let e := (run_fast_file_scan uuid fsname rd pd no_effects).2 in
  (jobs, message) ∈ posted e -> job ∈ jobs -> ("config", AConfig cfg) ∈ args job ->
  lists_only cfg result -> get_mailbox_files base_dir cfg result = Ok files -> (p, address) ∈ files ->
  exists id t, (id, t) ∈ inserted e /\ nt_name t = uuid +:+ "-" +:+ address /\
    nt_actions t = [if String.eqb address "purge_fids-fids_expired" then "stratagem.purge" else "stratagem.warning"].
Proof.
  cbn zeta. destruct (fast_scan_effects uuid fsname rd pd) as [->|(fs & ids & xs & _ & Hids & Hts & ->)]; [by intros ?%not_elem_of_nil|].
  intros ->%posted_one Hj Hc Hl Hf Hp. apply (mailbox_files_named _ _ _ _ p address) in Hf as [Hf _].
  destruct (Hf Hp) as (group & idx & c & g & rule & Hg & Hidx & Hfl & Eg & Er & _ & ->). clear Hf.
  assert (exists path, cfg = scan_config (scan_groups rd pd) rd pd path) as [path ->].
  { apply elem_of_app in Hj as [[Hj|Hj]%elem_of_app|Hj].
    - destruct (no_config job cfg Hc). left. by exists ids.
    - by eapply scan_job_config.
    - destruct (no_config job cfg Hc). right. by eexists _, _, _. }
  assert (Ha := Hl _ _ _ _ _ Hg Hidx Hfl Eg Er). destruct (fid_rule_in _ _ _ _ _ Eg Er) as [Hgin Hrin].
  set (e := (run_fast_file_scan uuid fsname rd pd no_effects).2) in *.
  assert (forall t, t ∈ (inserted e).*2 -> exists id, (id, t) ∈ inserted e) as Hin.
  { intros t ([id t'] & -> & Hi)%list_elem_of_fmap. by exists id. }
  rewrite Hts in Hin. unfold scan_tasks in Hin. destruct (scan_addresses _ _ _ _ _ _ Hgin Hrin Ha) as [[[r ->] ->]|[[q ->] ->]].
  - destruct (Hin (warn_task uuid fsname fs)) as [id Hid]; [cbn; apply elem_of_cons; by left|]. exists id, (warn_task uuid fsname fs). by repeat split.
  - destruct (Hin (purge_task uuid fs)) as [id Hid]; [apply elem_of_app; right; cbn; apply elem_of_cons; by left|].
    exists id, (purge_task uuid fs). by repeat split.
Qed.

(** The same of the two copies: what their scans list is for the one task of the command. *)
Theorem sync_reaches_task kind message uuid fsname remote expr act jobs message' job cfg base_dir result files p address :
  let e := (run_sync kind message uuid fsname remote expr act no_effects).2 in
  (jobs, message') ∈ posted e -> job ∈ jobs -> ("config", AConfig cfg) ∈ args job ->
  get_mailbox_files base_dir cfg result = Ok files -> (p, address) ∈ files ->
  exists id t, inserted e = [(id, t)] /\ nt_name t = uuid +:+ "-" +:+ address /\ nt_actions t = ["stratagem." +:+ kind].
Proof.
  cbn zeta. destruct (sync_effects kind message uuid fsname remote expr act) as [->|(fs & id & xs & _ & -> & ->)]; [by intros ?%not_elem_of_nil|].
  intros ->%posted_one Hj Hc Hf Hp. apply (mailbox_files_named _ _ _ _ p address) in Hf as [Hf _].
  destruct (Hf Hp) as (group & idx & c & g & rule & Hg & Hidx & Hfl & Eg & Er & _ & ->). clear Hf.
  exists id, (sync_task kind uuid remote expr act fs). split; [done|]. split; [|done].
  assert (exists path, cfg = sync_config kind expr path) as [path ->].
  { apply elem_of_app in Hj as [->%list_elem_of_singleton|Hj]; [|by eapply scan_job_config]. cbn in Hc. by apply list_elem_of_singleton in Hc. }
  destruct (fid_rule_in _ _ _ _ _ Eg Er) as [Hgin Hrin]. apply list_elem_of_singleton in Hgin as ->. by apply list_elem_of_singleton in Hrin as ->.
Qed.

(** ** Cleaning up *)

Definition job_task (class : string) (j : SendJob) : option Z :=
  if String.eqb (class_name j) class then match args j with (_, AInt id) :: _ => Some id | _ => None end else None.

Lemma omap_none {A B} (f : A -> option B) l : (forall x, x ∈ l -> f x = None) -> omap f l = [].
Proof.
  induction l as [|x l IH]; intros Hf; [done|]. cbn. rewrite Hf by (apply elem_of_cons; by left). apply IH. intros y Hy. apply Hf, elem_of_cons. by right.
Qed.

Lemma omap_fmap_some {A B} (f : A -> option B) (g : B -> A) (l : list B) : (forall b, f (g b) = Some b) -> omap f (g <$> l) = l.
Proof. intros Hf. induction l as [|b l IH]; [done|]. cbn. by rewrite Hf, IH. Qed.

Lemma scan_job_class class uuid fsname cfg r xs j : j ∈ scan_jobs class uuid fsname cfg r xs -> class_name j = class.
Proof. unfold scan_jobs. intros (x & _ & Hj)%list_elem_of_omap. by apply fmap_Some in Hj as (p & _ & ->). Qed.

(** A scan creates and removes each task it stored once, and removes them after all its scans. *)
Theorem fast_scan_cleans_up uuid fsname rd pd jobs message :
  let e := (run_fast_file_scan uuid fsname rd pd no_effects).2 in
  (jobs, message) ∈ posted e ->
  omap (job_task "CreateTaskJob") jobs = (inserted e).*1 /\ omap (job_task "RemoveTaskJob") jobs = (inserted e).*1 /\
  (forall i k s r, jobs !! i = Some s -> class_name s = "FastFileScanMdtJob" -> jobs !! k = Some r -> class_name r = "RemoveTaskJob" -> i ∈ deps r).
Proof.
  cbn zeta. destruct (fast_scan_effects uuid fsname rd pd) as [->|(fs & ids & xs & _ & -> & _ & ->)]; [by intros ?%not_elem_of_nil|]. intros ->%posted_one.
  assert (forall c j, j ∈ mdt_jobs uuid fsname rd pd ids xs -> c <> "FastFileScanMdtJob" -> job_task c j = None) as Hm.
  { intros c j Hj%scan_job_class Hc. unfold job_task. rewrite Hj. destruct (String.eqb_spec "FastFileScanMdtJob" c); congruence. }
  rewrite !omap_app. split_and!.
  - rewrite (omap_none _ (mdt_jobs _ _ _ _ _ _)) by (intros; by apply Hm). rewrite app_nil_r. unfold setup_jobs, closing_jobs. cbn [omap list_omap job_task class_name args].
    rewrite (omap_none _ (remove_task_job _ <$> ids)) by (by intros j (id & -> & _)%list_elem_of_fmap). cbn. rewrite app_nil_r. by apply omap_fmap_some.
  - rewrite (omap_none _ (mdt_jobs _ _ _ _ _ _)) by (intros; by apply Hm). rewrite app_nil_r. unfold setup_jobs, closing_jobs. cbn [omap list_omap job_task class_name args].
    rewrite (omap_none _ (create_task_job <$> ids)) by (by intros j (id & -> & _)%list_elem_of_fmap). cbn. by apply omap_fmap_some.
  - intros i k s r Hi Hs Hk Hr. set (before := (setup_jobs ids ++ mdt_jobs uuid fsname rd pd ids xs)%list) in *.
    assert (i < length before)%nat as Hlt.
    { apply lookup_app_Some in Hi as [Hi|[_ Hi]]; [by eapply lookup_lt_Some|]. exfalso. apply list_elem_of_lookup_2 in Hi.
      by apply elem_of_cons in Hi as [->|(id & -> & _)%list_elem_of_fmap]. }
    assert (i ∈ range before) as Hin by (unfold range; rewrite elem_of_seq; lia).
    apply lookup_app_Some in Hk as [Hk|[_ Hk]]; apply list_elem_of_lookup_2 in Hk.
    + exfalso. apply elem_of_app in Hk as [[->|(id & -> & _)%list_elem_of_fmap]%elem_of_cons|Hk%scan_job_class]; [done..|congruence].
    + apply elem_of_cons in Hk as [->|(id & -> & _)%list_elem_of_fmap]; [done|]. cbn. by rewrite app_nil_r.
Qed.
End api.

(** When storing the second task fails, the command fails and the first task stays, with no job
    that would remove it. *)
Example task_left_behind :
  let new_id n := if (n =? 0)%nat then Ok 1 else Err SqlxError in
  run_fast_file_scan (fun _ => Ok 7) new_id (fun _ => Ok []) (fun _ => Ok 3) (fun _ => Ok tt) "u" "fs" (Some 1000000000) (Some 2000000000) no_effects =
  (Err SqlxError, MkEffects [(1, warn_task "u" "fs" 7)] []).
Proof. reflexivity. Qed.

(** Of the targets, the metadata targets on hosts that are not deleted are scanned. *)
Theorem scanned_targets targets hosts fsname x : x ∈ target_hosts targets hosts fsname <->
  exists t id h, t ∈ targets /\ tr_active_host_id t = Some id /\ hosts !! id = Some h /\ fsname ∈ tr_filesystems t /\ hr_not_deleted h = true /\
    is_mdt (tr_name t) = true /\ x = MkTargetHost (tr_name t) (hr_fqdn h) (tr_dev_path t).
Proof.
  unfold target_hosts. rewrite list_elem_of_In, filter_In, <- list_elem_of_In, list_elem_of_omap. split.
  - intros [(t & Ht & Hx) Hm]. destruct (tr_active_host_id t) as [id|] eqn:Hid; [|done]. cbn in Hx. destruct (hosts !! id) as [h|] eqn:Hh; [|done]. cbn in Hx.
    destruct (bool_decide _ && _) eqn:Hb; [|done]. injection Hx as <-. apply andb_true_iff in Hb as [Hb%bool_decide_eq_true Hd]. by exists t, id, h.
  - intros (t & id & h & Ht & Hid & Hh & Hf & Hd & Hm & ->). split; [|done]. exists t. split; [done|]. rewrite Hid. cbn. rewrite Hh. cbn.
    by rewrite bool_decide_true, Hd.
Qed.

(** Scans are found, for a target with a path; files older than a day are reported, older than two removed. *)
Example scan_demo :
  let '(r, e) := run_fast_file_scan (fun _ => Ok 7) (fun n => Ok (Z.of_nat n)) (fun _ => Ok [MkTargetHost "fs-MDT0000" "mds1" (Some "/dev/sda"); MkTargetHost "fs-MDT0001" "mds2" None])
    (fun _ => Ok 3) (fun _ => Ok tt) "u" "fs" (Some 86400000000000) (Some 172800000000000) no_effects in
  r = Ok tt /\ (class_name <$> (posted e ≫= fst)) =
    ["ClearOldStratagemDataJob"; "CreateTaskJob"; "CreateTaskJob"; "FastFileScanMdtJob"; "AggregateStratagemResultsJob"; "RemoveTaskJob"; "RemoveTaskJob"].
Proof. split; reflexivity. Qed.

Definition demo_scan : M unit :=
  run_fast_file_scan (fun _ => Ok 7) (fun n => Ok (Z.of_nat n)) (fun _ => Ok [MkTargetHost "fs-MDT0000" "mds1" (Some "/dev/sda")]) (fun _ => Ok 3) (fun _ => Ok tt)
    "u" "fs" (Some 86400000000000) (Some 172800000000000).
Definition demo_jobs : list SendJob := posted (demo_scan no_effects).2 ≫= fst.
Definition demo_config : StratagemConfig := scan_config (scan_groups (Some 1) (Some 2)) (Some 86400000000000) (Some 172800000000000) "/dev/sda".
Definition demo_job : SendJob := scan_job "FastFileScanMdtJob" "mds1" "u" "fs" demo_config [0%nat; 1%nat; 2%nat].
Definition demo_result : list StratagemGroupResult := [MkStratagemGroupResult "purge_fids" [PlainCounter (MkStratagemCounter "fids_expired" 2 0 0 "fid")]].

Lemma scan_reaches_tasks_witness :
  exists id t, (id, t) ∈ inserted (demo_scan no_effects).2 /\ nt_name t = "u-purge_fids-fids_expired" /\ nt_actions t = ["stratagem.purge"].
Proof.
  apply (scan_reaches_tasks (fun _ => Ok 7) (fun n => Ok (Z.of_nat n)) (fun _ => Ok [MkTargetHost "fs-MDT0000" "mds1" (Some "/dev/sda")]) (fun _ => Ok 3) (fun _ => Ok tt)
    "u" "fs" (Some 86400000000000) (Some 172800000000000) demo_jobs "Stratagem: Fast File Scan" demo_job demo_config "/tmp/x/" demo_result
    [("/tmp/x/purge_fids/fids_expired", "purge_fids-fids_expired")] "/tmp/x/purge_fids/fids_expired" "purge_fids-fids_expired").
  - apply list_elem_of_singleton. reflexivity.
  - apply list_elem_of_In. right; right; right; left. reflexivity.
  - apply list_elem_of_In. right; right; right; left. reflexivity.
  - intros group idx counter g rule ->%list_elem_of_singleton Hc _ Hg Hr. injection Hg as <-. destruct idx as [|idx]; [|done]. by injection Hr as <-.
  - reflexivity.
  - apply list_elem_of_singleton. reflexivity.
Defined.
