(* ===== verification/Stonith.v ===== *)
(** * Whether a node can be fenced ([iml-agent/src/action_plugins/check_stonith.rs])

    The agent asks pacemaker for the fencing resources of the cluster and looks for one that covers
    its node. XML elements are an interface, with the lookups of the library that reads them. *)
From S2P Require Import Prelude RustStd Alerts.
From stdpp Require Import base sets list strings.
From Stdlib Require Import Ascii.
Open Scope string_scope.

(** ** Elements *)

Class ElementTree (Element : Type) : Type := {
  tag : Element -> string;
  get_attr : Element -> string -> option string;
  children : Element -> list Element;
  find : Element -> string -> option Element;
  find_all : Element -> string -> list Element }.

(** ** States ([iml-wire-types/src/lib.rs]) *)

Inductive ServiceState : Type := Unconfigured | Configured (r : RunState).
Inductive ConfigState : Type := Unknown | Default | IML | Other.

(** The elements of a state stay empty here. *)
Record ComponentState (T : Type) : Type := MkComponentState { service : ServiceState; config : ConfigState; info : string; state : T }.
Arguments MkComponentState {T} _ _ _ _.
Arguments state {T} _.
Arguments info {T} _.
Arguments config {T} _.

Inductive StonithError : Type :=
  | CibError (s : string)
  | XmlError (s : string).

Section stonith.
Context {Element : Type} `{ElementTree Element}.

(** The loop over the attributes: the host list, whether it is set, whether the check is static.
    [None] is the early return. *)
Fixpoint instance_attrs (es : list Element) (hl : string) (hl_set static_hc : bool) : option (string * bool * bool) :=
  match es with
  | [] => Some (hl, hl_set, static_hc)
  | e :: es =>
      match get_attr e "name" with
      | Some n =>
          if String.eqb n "pcmk_host_list" then instance_attrs es (default "" (get_attr e "value")) true static_hc
          else if String.eqb n "pcmk_host_check" then
            match get_attr e "value" with
            | Some v => if String.eqb v "static-list" then instance_attrs es hl hl_set true else None
            | None => None
            end
          else instance_attrs es hl hl_set static_hc
      | None => instance_attrs es hl hl_set static_hc
      end
  end.

Definition check_instance_attr (elem : option Element) (node : string) : Result string unit :=
  match elem with
  | None => Ok tt
  | Some instance =>
      match instance_attrs (children instance) "" false false with
      | None => Ok tt
      | Some (hl, hl_set, static_hc) =>
          if (static_hc || hl_set) && negb (bool_decide (node ∈ str_split "," hl)) then Err (node +:+ " missing from host list") else Ok tt
      end
  end.

Fixpoint meta_attrs (es : list Element) : Result string unit :=
  match es with
  | [] => Ok tt
  | e :: es =>
      if bool_decide (get_attr e "name" = Some "target-role") then
        match get_attr e "value" with
        | Some v => if String.eqb v "Started" then Ok tt else Err ("role: " +:+ v)
        | None => meta_attrs es
        end
      else meta_attrs es
  end.

Definition check_meta_attr (elem : option Element) : Result string unit :=
  match elem with Some meta => meta_attrs (children meta) | None => Ok tt end.

Definition stonith_ok (elem : Element) (nodename : string) : Result StonithError (bool * string * ConfigState) :=
  match get_attr elem "type" with
  | None => Err (CibError (tag elem +:+ " is missing type attribute"))
  | Some t =>
      if String.eqb t "fence_chroma" then
        match find elem "instance_attributes" with
        | None => Ok (false, "fence_chroma - unconfigured", IML)
        | Some _ => Ok (true, "fence_chroma", IML)
        end
      else
        match check_meta_attr (find elem "meta_attributes") with
        | Err err => Ok (false, t +:+ " - " +:+ err, Other)
        | Ok _ =>
            match check_instance_attr (find elem "instance_attributes") nodename with
            | Err err => Ok (false, t +:+ " - " +:+ err, Other)
            | Ok _ => Ok (true, t, Other)
            end
        end
  end.

(** The loop over the resources: the first that works, errors are logged. *)
Fixpoint first_working (els : list Element) (nodename : string) : option (string * ConfigState) :=
  match els with
  | [] => None
  | el :: els =>
      match stonith_ok el nodename with
      | Ok (true, msg, cs) => Some (msg, cs)
      | _ => first_working els nodename
      end
  end.

Definition do_check_stonith (xml : Result string Element) (nodename : string) : Result StonithError (ComponentState bool) :=
  let nodename := trim nodename in
  match xml with
  | Err err => Err (XmlError err)
  | Ok elem =>
      if String.eqb (tag elem) "primitive" then
        '(st, msg, cs) ← stonith_ok elem nodename;
        Ok (MkComponentState (Configured Setup) cs msg st)
      else if String.eqb (tag elem) "xpath-query" then
        Ok (match first_working (find_all elem "primitive") nodename with
            | Some (msg, cs) => MkComponentState (Configured Setup) cs msg true
            | None => MkComponentState (Configured Setup) Other "No working fencing agents" false
            end)
      else Err (CibError ("Unknown first tag " +:+ tag elem))
  end.

(** ** What the checks decide *)

Definition attr_is (name : string) (e : Element) : bool := match get_attr e "name" with Some n => String.eqb n name | None => false end.

(** A check that is not by the list: any node can be fenced. *)
Definition dynamic_check (es : list Element) : Prop := exists e, e ∈ es /\ attr_is "pcmk_host_check" e = true /\ get_attr e "value" <> Some "static-list".

(** The list that counts is the last. *)
Definition host_list (es : list Element) (hl : string) : string :=
  foldl (fun hl e => if attr_is "pcmk_host_list" e then default "" (get_attr e "value") else hl) hl es.

Definition by_list (es : list Element) : bool :=
  existsb (fun e => attr_is "pcmk_host_list" e || attr_is "pcmk_host_check" e) es.

Lemma instance_attrs_spec es hl s1 s2 :
  match instance_attrs es hl s1 s2 with
  | None => dynamic_check es
  | Some (hl', s1', s2') => ~ dynamic_check es /\ hl' = host_list es hl /\ s2' || s1' = s2 || s1 || by_list es
  end.
Proof.
  revert hl s1 s2. induction es as [|e es IH]; intros hl s1 s2; cbn [instance_attrs].
  { split_and!; [by intros (e & He%not_elem_of_nil & _)|done|]. cbn. by rewrite orb_false_r. }
  assert (Hskip : attr_is "pcmk_host_check" e = true -> get_attr e "value" = Some "static-list" \/ dynamic_check (e :: es)).
  { intros Ha. destruct (decide (get_attr e "value" = Some "static-list")); [by left|]. right. exists e. split; [left|done]. }
  assert (Hdyn : dynamic_check es -> dynamic_check (e :: es)) by (intros (x & Hx & Hr); exists x; split; [by right|done]).
  assert (Hcons : (attr_is "pcmk_host_check" e = true -> get_attr e "value" = Some "static-list") -> dynamic_check (e :: es) -> dynamic_check es).
  { intros Hs (x & [->|Hx]%elem_of_cons & Hn & Hv); [by destruct Hv; apply Hs|by exists x]. }
  unfold host_list, by_list, attr_is in *. cbn [foldl existsb].
  destruct (get_attr e "name") as [n|].
  - destruct (String.eqb_spec n "pcmk_host_list") as [->|Hl].
    + specialize (IH (default "" (get_attr e "value")) true s2). destruct (instance_attrs es _ true s2) as [[[hl' s1'] s2']|]; [|by apply Hdyn].
      destruct IH as (Hd & -> & ->). split_and!; [intros H'; by apply Hd, Hcons|done|]. by destruct s1, s2.
    + destruct (String.eqb n "pcmk_host_check") eqn:Hc.
      * destruct (get_attr e "value") as [v|] eqn:Ev; [destruct (String.eqb_spec v "static-list") as [->|Hv]|].
        -- specialize (IH hl s1 true). destruct (instance_attrs es hl s1 true) as [[[hl' s1'] s2']|]; [|by apply Hdyn].
           destruct IH as (Hd & -> & ->). split_and!; [intros H'; by apply Hd, Hcons|done|]. by destruct s1, s2.
        -- destruct (Hskip eq_refl) as [[= ->]|]; done.
        -- by destruct (Hskip eq_refl).
      * specialize (IH hl s1 s2). destruct (instance_attrs es hl s1 s2) as [[[hl' s1'] s2']|]; [|by apply Hdyn].
        destruct IH as (Hd & -> & ->). split_and!; [|done..]. intros H'. by apply Hd, Hcons.
  - specialize (IH hl s1 s2). destruct (instance_attrs es hl s1 s2) as [[[hl' s1'] s2']|]; [|by apply Hdyn].
    destruct IH as (Hd & -> & ->). split_and!; [|done..]. intros H'. by apply Hd, Hcons.
Qed.

(** A resource covers a node unless its check is by a list and the node is not on it. *)
Theorem instance_covers instance node :
  check_instance_attr (Some instance) node = Ok tt <->
  dynamic_check (children instance) \/ by_list (children instance) = false \/ node ∈ str_split "," (host_list (children instance) "").
Proof.
  unfold check_instance_attr. pose proof (instance_attrs_spec (children instance) "" false false) as Hs.
  destruct (instance_attrs _ _ _ _) as [[[hl s1] s2]|]; [|tauto]. destruct Hs as (Hd & -> & ->). cbn [orb].
  destruct (by_list (children instance)); cbn [andb]; [|tauto]. case_bool_decide; cbn; [tauto|]. split; [done|]. by intros [|[|]].
Qed.

Lemma first_working_some els nodename msg cs : first_working els nodename = Some (msg, cs) -> exists el, el ∈ els /\ stonith_ok el nodename = Ok (true, msg, cs).
Proof.
  induction els as [|el els IH]; [done|]. cbn. destruct (stonith_ok el nodename) as [[[[|] m] c]|] eqn:Es.
  - intros [= <- <-]. exists el. split; [left|done].
  - intros (x & Hx & Hs)%IH. exists x. split; [by right|done].
  - intros (x & Hx & Hs)%IH. exists x. split; [by right|done].
Qed.

Lemma first_working_none els nodename : first_working els nodename = None -> forall el msg cs, el ∈ els -> stonith_ok el nodename <> Ok (true, msg, cs).
Proof.
  induction els as [|el els IH]; intros Hn x msg cs Hx; [by apply not_elem_of_nil in Hx|]. cbn in Hn. destruct (stonith_ok el nodename) as [[[[|] m] c]|] eqn:Es.
  all: try done. all: apply elem_of_cons in Hx as [->|Hx]; [congruence|by apply IH].
Qed.

(** Of several resources, one that cannot be read does not matter: the answer is a state, and it
    says that the node can be fenced exactly when some resource works for it. *)
Theorem cluster_fenced elem nodename : tag elem = "xpath-query" ->
  exists s, do_check_stonith (Ok elem) nodename = Ok s /\
    (state s = true <-> exists el msg cs, el ∈ find_all elem "primitive" /\ stonith_ok el (trim nodename) = Ok (true, msg, cs)).
Proof.
  intros Ht. unfold do_check_stonith. rewrite Ht. cbn [String.eqb]. destruct (first_working (find_all elem "primitive") (trim nodename)) as [[msg cs]|] eqn:Ef.
  - eexists. split; [reflexivity|]. split; [|done]. intros _. apply first_working_some in Ef as (el & Hel & Hs). by exists el, msg, cs.
  - eexists. split; [reflexivity|]. split; [done|]. intros (el & msg & cs & Hel & Hs). by apply (first_working_none _ _ Ef el msg cs) in Hel.
Qed.
End stonith.

(** ** Examples, on trees *)

Inductive Tree : Type := Node (t : string) (attrs : list (string * string)) (kids : list Tree).

#[export] Instance Tree_elements : ElementTree Tree := {
  tag := fun '(Node t _ _) => t;
  get_attr := fun '(Node _ attrs _) n => snd <$> List.find (fun x => String.eqb x.1 n) attrs;
  children := fun '(Node _ _ kids) => kids;
  find := fun '(Node _ _ kids) n => List.find (fun '(Node t _ _) => String.eqb t n) kids;
  find_all := fun '(Node _ _ kids) n => List.filter (fun '(Node t _ _) => String.eqb t n) kids }.

Definition fence (hosts : string) : Tree :=
  Node "primitive" [("class", "stonith"); ("type", "fence_ipmilan")]
    [Node "instance_attributes" [] [Node "nvpair" [("name", "pcmk_host_check"); ("value", "static-list")] [];
                                    Node "nvpair" [("name", "pcmk_host_list"); ("value", hosts)] []]].

Example fenced_by_second :
  do_check_stonith (Ok (Node "xpath-query" [] [fence "host0"; Node "primitive" [] []; fence "host1,host2"])) "host2 " =
  Ok (MkComponentState (Configured Setup) Other "fence_ipmilan" true).
Proof. reflexivity. Qed.

(** Spaces in the list of hosts are part of the names. *)
Example spaced_list_misses :
  do_check_stonith (Ok (fence "host1, host2")) "host2" = Ok (MkComponentState (Configured Setup) Other "fence_ipmilan - host2 missing from host list" false).
Proof. reflexivity. Qed.
