(* ===== verification/Fstab.v ===== *)
(** * Clients that mount a file system ([iml-agent/src/action_plugins/lustre/client.rs])

    The agent mounts and unmounts, and keeps one line of [/etc/fstab] for each mount it manages.
    The state is that file and what the kernel has mounted; what the file system and [findmnt]
    answer is given by the arguments. *)
From S2P Require Import Prelude RustStd Ldev FidActions.
From stdpp Require Import base sets list strings.
From Stdlib Require Import Ascii ZArith Lia.
Open Scope string_scope.

(** ** [str::split_whitespace] *)

(** [skip]: bytes of a white space that are still to be passed over; [cur]: the word so far. *)
Fixpoint split_ws (skip : nat) (cur s : string) : list string :=
  match s with
  | EmptyString => if String.eqb cur "" then [] else [cur]
  | String a s' =>
      match skip with
      | S skip => split_ws skip cur s'
      | O =>
          match List.find (fun p => starts_with p s) white_space with
          | Some p => ((if String.eqb cur "" then [] else [cur]) ++ split_ws (slen p - 1) "" s')%list
          | None => split_ws 0 (cur +:+ String a "") s'
          end
      end
  end.
Definition split_whitespace (s : string) : list string := split_ws 0 "" s.

(** ** The file *)

Definition eol : ascii := "010".
Definition tab : ascii := "009".

(** Whether a line is not the entry of a mount point. *)
Definition other_mount (mountpoint line : string) : bool :=
  match split_whitespace line !! 1%nat with Some x => negb (String.eqb x mountpoint) | None => true end.

Definition filter_mountpoint (mountpoint contents : string) : string :=
  str_join (String eol "") (List.filter (other_mount mountpoint) (str_split eol contents)).

Definition fstab_line (mountspec mountpoint : string) (persist : bool) : string :=
  mountspec +:+ String tab (mountpoint +:+ String tab ("lustre" +:+ String tab ("x-systemd.mount-timeout=20m," +:+ (if persist then "" else "noauto,") +:+ "_netdev"))).

Definition append_line (line contents : string) : string := str_join (String eol "") (str_split eol contents ++ [line]).

(** [findmnt] ended with an exit code and printed a text, or could not be run. An error that the
    code makes itself has a text and no number. *)
Definition is_mounted (output : Result IoError (ExitStatus * string)) (mountpoint : string) : Result ImlAgentError bool :=
  match output with
  | Err e => Err (EIo e)
  | Ok (Some 0%Z, stdout) => Ok (existsb (fun x => String.eqb (trim x) mountpoint) (str_lines stdout))
  | Ok (Some 1%Z, _) => Ok false
  | Ok (_, _) => Err (EIo None)
  end.

Section io.
(** The error of the [n]th reading or writing of the file, if it fails. A new file is written beside
    the old one and renamed, so a writing that fails leaves the old one. *)
Context (io : nat -> option ImlAgentError).

Definition delete_fstab_entry (mountpoint contents : string) : Result ImlAgentError unit * string :=
  match io 0%nat with
  | Some e => (Err e, contents)
  | None =>
      let new_contents := filter_mountpoint mountpoint contents in
      if String.eqb contents new_contents then (Ok tt, contents)
      else match io 1%nat with Some e => (Err e, contents) | None => (Ok tt, new_contents) end
  end.

Definition update_fstab_entry (mountspec mountpoint : string) (persist : bool) (contents : string) : Result ImlAgentError unit * string :=
  match delete_fstab_entry mountpoint contents with
  | (Err e, contents) => (Err e, contents)
  | (Ok _, contents) =>
      match io 2%nat with
      | Some e => (Err e, contents)
      | None =>
          let new_contents := append_line (fstab_line mountspec mountpoint persist) contents in
          match io 3%nat with Some e => (Err e, contents) | None => (Ok tt, new_contents) end
      end
  end.

Record Mount : Type := MkMount { mountspec : string; mountpoint : string; persist : bool }.

(** [create_dir] and the command are what these give when they are reached. *)
Definition mount (findmnt : Result IoError (ExitStatus * string)) (create_dir : Result IoError unit) (command : list string -> Result IoError ExitStatus)
    (m : Mount) (contents : string) : Result ImlAgentError unit * string :=
  match is_mounted findmnt (mountpoint m) with
  | Err e => (Err e, contents)
  | Ok true => (Ok tt, contents)
  | Ok false =>
      match create_dir with
      | Err e => (Err (EIo e), contents)
      | Ok _ =>
          match checked_output (command ["/bin/mount"; "-t"; "lustre"; mountspec m; mountpoint m]) with
          | Err e => (Err (ECmd e), contents)
          | Ok _ => update_fstab_entry (mountspec m) (mountpoint m) (persist m) contents
          end
      end
  end.

Definition unmount (findmnt : Result IoError (ExitStatus * string)) (command : list string -> Result IoError ExitStatus) (point contents : string)
    : Result ImlAgentError unit * string :=
  match delete_fstab_entry point contents with
  | (Err e, contents) => (Err e, contents)
  | (Ok _, contents) =>
      match is_mounted findmnt point with
      | Err e => (Err e, contents)
      | Ok false => (Ok tt, contents)
      | Ok true =>
          match checked_output (command ["/bin/umount"; point]) with
          | Err e => (Err (ECmd e), contents)
          | Ok _ => (Ok tt, contents)
          end
      end
  end.

Definition add_fstab_entry (create_dir : Result IoError unit) (m : Mount) (contents : string) : Result ImlAgentError unit * string :=
  match create_dir with
  | Err e => (Err (EIo e), contents)
  | Ok _ => update_fstab_entry (mountspec m) (mountpoint m) (persist m) contents
  end.

Definition remove_fstab_entry (m : Mount) (contents : string) : Result ImlAgentError unit * string := delete_fstab_entry (mountpoint m) contents.
End io.

(** ** Lines *)

(** A word of printable characters. *)
Definition printable (a : ascii) : bool := in_range 33 126 a.
Fixpoint all_printable (s : string) : bool := match s with EmptyString => true | String a s => printable a && all_printable s end.
Definition is_word (s : string) : Prop := s <> "" /\ all_printable s = true.

Lemma not_white a s : printable a = true -> List.find (fun p => starts_with p (String a s)) white_space = None.
Proof.
  intros Hp. assert (forall p, p ∈ white_space -> exists c q, p = String c q /\ printable c = false) as Hw.
  { apply Forall_forall. repeat (constructor; [by eexists _, _|]). constructor. }
  destruct (List.find _ white_space) as [p|] eqn:Ef; [|done]. apply List.find_some in Ef as [Hin%list_elem_of_In Hs].
  apply Hw in Hin as (c & q & -> & Hc). unfold starts_with in Hs. cbn in Hs. destruct (ascii_dec c a) as [->|]; congruence.
Qed.

Lemma split_ws_word cur w s : all_printable w = true -> split_ws 0 cur (w +:+ s) = split_ws 0 (cur +:+ w) s.
Proof.
  revert cur. induction w as [|a w IH]; intros cur Hw; [by rewrite str_app_nil_r|]. cbn in Hw. apply andb_true_iff in Hw as [Ha Hw].
  rewrite str_app_cons. cbn [split_ws]. rewrite not_white by done. rewrite IH by done. by rewrite <- str_app_assoc.
Qed.

Lemma split_ws_tab cur s : cur <> "" -> split_ws 0 cur (String tab s) = cur :: split_ws 0 "" s.
Proof. intros Hc. cbn [split_ws]. assert (List.find (fun p => starts_with p (String tab s)) white_space = Some (String tab "")) as -> by (by destruct s). by destruct cur. Qed.

(** The second word of an entry is the mount point. *)
Lemma entry_point spec point p : is_word spec -> is_word point -> split_whitespace (fstab_line spec point p) !! 1%nat = Some point.
Proof.
  intros [Hs1 Hs2] [Hp1 Hp2]. unfold split_whitespace, fstab_line. rewrite split_ws_word by done. rewrite str_app_nil_l, split_ws_tab by done.
  rewrite split_ws_word by done. rewrite str_app_nil_l, split_ws_tab by done. done.
Qed.

Lemma printable_no_eol s : all_printable s = true -> contains_char eol s = false.
Proof.
  induction s as [|a s IH]; [done|]. cbn. intros [Ha Hs]%andb_true_iff. rewrite IH by done. destruct (Ascii.eqb_spec a eol) as [->|]; done.
Qed.

Lemma entry_one_line spec point p : is_word spec -> is_word point -> contains_char eol (fstab_line spec point p) = false.
Proof.
  intros [_ Hs] [_ Hp]. unfold fstab_line. rewrite contains_char_app, (printable_no_eol spec) by done. cbn [orb contains_char].
  rewrite contains_char_app, (printable_no_eol point) by done. by destruct p.
Qed.

(** ** What the edits do to the lines *)

Definition lines (contents : string) : list string := str_split eol contents.
Definition entries (point contents : string) : list string := List.filter (fun l => negb (other_mount point l)) (lines contents).

Lemma lines_append line c : contains_char eol line = false -> lines (append_line line c) = (lines c ++ [line])%list.
Proof.
  intros Hl. unfold lines, append_line. apply str_split_join; [by destruct (str_split eol c)|]. apply Forall_app. split; [apply str_split_pieces|by apply Forall_singleton].
Qed.

Lemma lines_filter point c :
  lines (filter_mountpoint point c) = match List.filter (other_mount point) (lines c) with [] => [""] | ls => ls end.
Proof.
  unfold filter_mountpoint, lines. pose proof (str_split_pieces eol c) as Hp.
  assert (Forall (fun x => contains_char eol x = false) (List.filter (other_mount point) (str_split eol c))) as Hf.
  { apply Forall_forall. intros x [Hx _]%list_elem_of_In%filter_In. rewrite Forall_forall in Hp. by apply Hp, list_elem_of_In. }
  destruct (List.filter _ _) as [|l ls]; [done|]. by apply str_split_join.
Qed.

Lemma filter_append point line c : contains_char eol line = false -> other_mount point line = false ->
  filter_mountpoint point (append_line line c) = filter_mountpoint point c.
Proof.
  intros Hl Ho. unfold filter_mountpoint at 1. fold (lines (append_line line c)). rewrite lines_append by done. rewrite List.filter_app. cbn [List.filter].
  rewrite Ho. by rewrite app_nil_r.
Qed.

Lemma filter_idem point c : filter_mountpoint point (filter_mountpoint point c) = filter_mountpoint point c.
Proof.
  unfold filter_mountpoint at 1. fold (lines (filter_mountpoint point c)). rewrite lines_filter. unfold filter_mountpoint. fold (lines c).
  destruct (List.filter (other_mount point) (lines c)) as [|l ls] eqn:E; [done|]. rewrite <- E. f_equal.
  generalize (lines c). intros k. induction k as [|x k IH]; [done|]. cbn. destruct (other_mount point x) eqn:Ex; cbn; rewrite ?Ex; congruence.
Qed.

Lemma entries_filter q point c : q <> point -> entries q (filter_mountpoint point c) = entries q c.
Proof.
  intros Hq. unfold entries. rewrite lines_filter. transitivity (List.filter (fun l => negb (other_mount q l)) (List.filter (other_mount point) (lines c))).
  { by destruct (List.filter (other_mount point) (lines c)). }
  generalize (lines c). intros k. induction k as [|x k IH]; [done|]. cbn. destruct (other_mount point x) eqn:Ex; cbn; [by rewrite IH|]. rewrite IH.
  assert (other_mount q x = true) as ->; [|done]. unfold other_mount in *. destruct (split_whitespace x !! 1%nat) as [w|]; [|done].
  apply negb_false_iff, String.eqb_eq in Ex as ->. apply negb_true_iff, String.eqb_neq. congruence.
Qed.

Lemma entries_none point c : entries point (filter_mountpoint point c) = [].
Proof.
  unfold entries. rewrite lines_filter. transitivity (List.filter (fun l => negb (other_mount point l)) (List.filter (other_mount point) (lines c))).
  { by destruct (List.filter (other_mount point) (lines c)). }
  generalize (lines c). intros k. induction k as [|x k IH]; [done|]. cbn. destruct (other_mount point x) eqn:Ex; cbn; rewrite ?Ex; done.
Qed.

Lemma entry_mount spec point p q : is_word spec -> is_word point -> other_mount q (fstab_line spec point p) = negb (String.eqb point q).
Proof. intros Hs Hp. unfold other_mount. by rewrite entry_point. Qed.

Section edits.
Context (io : nat -> option ImlAgentError) (no_error : forall n, io n = None).

Lemma delete_text point c : delete_fstab_entry io point c = (Ok tt, filter_mountpoint point c).
Proof. unfold delete_fstab_entry. rewrite !no_error. destruct (String.eqb_spec c (filter_mountpoint point c)) as [Hc|]; [by rewrite <- Hc|done]. Qed.

Lemma update_fstab_text spec point p c : update_fstab_entry io spec point p c = (Ok tt, append_line (fstab_line spec point p) (filter_mountpoint point c)).
Proof. unfold update_fstab_entry. rewrite delete_text. by rewrite !no_error. Qed.

(** After a mount was added, the file has one line for its mount point, the one that was asked for,
    and the lines of every other mount point as before. *)
Theorem fstab_updated spec point p c : is_word spec -> is_word point ->
  let c' := (update_fstab_entry io spec point p c).2 in
  entries point c' = [fstab_line spec point p] /\ forall q, q <> point -> entries q c' = entries q c.
Proof.
  intros Hs Hp. rewrite update_fstab_text. cbn [snd]. cbn zeta.
  assert (forall q, entries q (append_line (fstab_line spec point p) (filter_mountpoint point c)) =
    (entries q (filter_mountpoint point c) ++ if String.eqb point q then [fstab_line spec point p] else [])%list) as He.
  { intros q. unfold entries. rewrite lines_append by by apply entry_one_line. rewrite List.filter_app. cbn [List.filter].
    rewrite entry_mount by done. rewrite negb_involutive. done. }
  split; [|intros q Hq]; rewrite He.
  - by rewrite entries_none, String.eqb_refl.
  - rewrite entries_filter by done. apply not_eq_sym, String.eqb_neq in Hq as ->. by rewrite app_nil_r.
Qed.

(** Removing a mount that was added gives the file back, when it had no line for it. *)
Theorem fstab_round_trip spec point p c : is_word spec -> is_word point -> filter_mountpoint point c = c ->
  (delete_fstab_entry io point (update_fstab_entry io spec point p c).2).2 = c.
Proof.
  intros Hs Hp Hc. rewrite update_fstab_text. cbn [snd]. rewrite delete_text. cbn [snd]. rewrite Hc.
  rewrite filter_append; [done|by apply entry_one_line|]. by rewrite entry_mount, String.eqb_refl.
Qed.

(** Adding a mount again, with other settings, leaves what adding it so at once would have left. *)
Theorem fstab_last_wins spec1 p1 spec2 point p2 c : is_word spec1 -> is_word point ->
  update_fstab_entry io spec2 point p2 (update_fstab_entry io spec1 point p1 c).2 = update_fstab_entry io spec2 point p2 c.
Proof.
  intros Hs Hp. rewrite !update_fstab_text. cbn [snd]. rewrite filter_append; [|by apply entry_one_line|by rewrite entry_mount, String.eqb_refl]. by rewrite filter_idem.
Qed.

(** A mount that succeeds and was not there before is in the file. *)
Theorem mounted_in_fstab findmnt create_dir command m c c' :
  is_word (mountspec m) -> is_word (mountpoint m) -> is_mounted findmnt (mountpoint m) = Ok false -> mount io findmnt create_dir command m c = (Ok tt, c') ->
  entries (mountpoint m) c' = [fstab_line (mountspec m) (mountpoint m) (persist m)].
Proof.
  intros Hs Hp Hf. unfold mount. rewrite Hf. destruct create_dir; [|done]. destruct (checked_output _) as [|[]]; [|done..]. intros Hu.
  pose proof (fstab_updated (mountspec m) (mountpoint m) (persist m) c Hs Hp) as [He _]. by rewrite Hu in He.
Qed.

(** An unmount takes it out, even when the unmounting itself then fails. *)
Theorem unmounted_not_in_fstab findmnt command point c : entries point (unmount io findmnt command point c).2 = [].
Proof.
  unfold unmount. rewrite delete_text. pose proof (entries_none point c) as He. destruct (is_mounted findmnt point) as [[|]|]; [|done..].
  by destruct (checked_output _) as [|[]].
Qed.
End edits.

(** A comment whose second word is the mount point is taken for its entry, and removed. *)
Example comment_removed : filter_mountpoint "/mnt/fs" ("# /mnt/fs is managed" +:+ String eol "/dev/sda / ext4") = "/dev/sda / ext4".
Proof. reflexivity. Qed.
