(* ===== verification/Systemd.v ===== *)
(** * Units of systemd ([iml-systemd/])

    The state of a unit is read from what [busctl] prints; starting, stopping, enabling and
    disabling wait until the unit is in the state asked for. What the commands give, call by call,
    is an argument. *)
From S2P Require Import Prelude RustStd Ldev Alerts.
From stdpp Require Import base sets list strings.
From Stdlib Require Import Ascii ZArith Lia.
Open Scope string_scope.

(** ** Waiting *)

(** At most [n] calls, from the [k]th: [Err (Some e)] is a call that failed, [Err None] the end of
    the time. *)
Fixpoint poll_until {E X} (n k : nat) (calls : nat -> Result E X) (check : X -> bool) : Result (option E) unit :=
  match n with
  | O => Err None
  | S n =>
      match calls k with
      | Err e => Err (Some e)
      | Ok x => if check x then Ok tt else poll_until n (S k) calls check
      end
  end.

(** The call [k] gives what is waited for, the calls before it something else. *)
Definition first_at {E X} (calls : nat -> Result E X) (check : X -> bool) (k : nat) : Prop :=
  (exists x, calls k = Ok x /\ check x = true) /\ forall j, (j < k)%nat -> exists x, calls j = Ok x /\ check x = false.

Lemma poll_until_spec {E X} n k (calls : nat -> Result E X) check : (forall j, (j < k)%nat -> exists x, calls j = Ok x /\ check x = false) ->
  poll_until n k calls check = Ok tt <-> exists i, (k <= i < k + n)%nat /\ first_at calls check i.
Proof.
  revert k. induction n as [|n IH]; intros k Hb; cbn [poll_until]; [split; [done|intros (i & Hi & _); lia]|].
  destruct (calls k) as [x|e] eqn:Ek.
  - destruct (check x) eqn:Ex.
    + split; [|done]. intros _. exists k. split; [lia|]. split; [by exists x|done].
    + rewrite IH.
      * split; intros (i & Hi & Hs); exists i; split; try lia; try done. destruct (decide (i = k)) as [->|]; [|lia].
        destruct Hs as [(x' & He & Hx') _]. congruence.
      * intros j Hj. destruct (decide (j = k)) as [->|]; [by exists x|]. apply Hb. lia.
  - split; [done|]. intros (i & Hi & [(x & He & Hx) Hbefore]). destruct (decide (i = k)) as [->|]; [congruence|].
    destruct (Hbefore k) as (x' & He' & _); [lia|congruence].
Qed.

(** The time ends exactly when no call of it fails and none gives what is waited for. *)
Lemma poll_until_timeout {E X} n k (calls : nat -> Result E X) check :
  poll_until n k calls check = Err None <-> forall j, (k <= j < k + n)%nat -> exists x, calls j = Ok x /\ check x = false.
Proof.
  revert k. induction n as [|n IH]; intros k; cbn [poll_until]; [split; [intros _ j; lia|done]|]. destruct (calls k) as [x|e] eqn:Ek.
  - destruct (check x) eqn:Ex.
    + split; [done|]. intros Hj. destruct (Hj k) as (x' & He & Hx); [lia|congruence].
    + rewrite IH. split; intros Hj j Hr; [destruct (decide (j = k)) as [->|]; [by exists x|]|]; apply Hj; lia.
  - split; [done|]. intros Hj. destruct (Hj k) as (x' & He & Hx); [lia|congruence].
Qed.

(** ** States *)

Inductive UnitFileState : Type := FileDisabled | FileEnabled.
Inductive ActiveState : Type := ActiveInactive | ActiveActive | ActiveActivating | ActiveFailed.

#[export] Instance UnitFileState_eq_dec : EqDecision UnitFileState.
Proof. solve_decision. Defined.
#[export] Instance ActiveState_eq_dec : EqDecision ActiveState.
Proof. solve_decision. Defined.

Inductive SystemdError : Type :=
  | UnexpectedStatus
  | Required (s : string)
  | CommandFailed.

Definition quote : ascii := "034".

Definition clean_bus_output (output : string) : Result SystemdError string := ok_or UnexpectedStatus (str_split quote output !! 1%nat).

(** The states that are known, as they are printed. *)
Definition file_text (u : UnitFileState) : string := match u with FileDisabled => "disabled" | FileEnabled => "enabled" end.
Definition active_text (a : ActiveState) : string :=
  match a with ActiveInactive => "inactive" | ActiveActive => "active" | ActiveActivating => "activating" | ActiveFailed => "failed" end.

Definition file_state (s : string) : option UnitFileState :=
  if String.eqb s "disabled" then Some FileDisabled else if String.eqb s "enabled" then Some FileEnabled else None.
Definition active_state (s : string) : option ActiveState :=
  if String.eqb s "inactive" then Some ActiveInactive else if String.eqb s "active" then Some ActiveActive
  else if String.eqb s "activating" then Some ActiveActivating else if String.eqb s "failed" then Some ActiveFailed else None.

(** [busctl get-property] has printed [stdout]. The text of an error also quotes it. *)
Definition unit_states (path stdout : string) : Result SystemdError (UnitFileState * ActiveState) :=
  match omap (fun o => ok (clean_bus_output o)) (str_lines stdout) with
  | [u; a] =>
      match file_state u, active_state a with
      | Some u, Some a => Ok (u, a)
      | _, _ => Err (Required ("Unknown busctl (" +:+ path +:+ ") output"))
      end
  | _ => Err (Required ("Unknown busctl (" +:+ path +:+ ") output"))
  end.

Section unit.
(** What the [n]th call of [busctl LoadUnit] and of [busctl get-property] print. *)
Context (load_unit : nat -> Result SystemdError string) (get_property : nat -> string -> Result SystemdError string).

Definition get_unit_object_path (n : nat) : Result SystemdError string :=
  output ← load_unit n; clean_bus_output output.

Definition get_unit_states (n : nat) : Result SystemdError (UnitFileState * ActiveState) :=
  s ← get_unit_object_path n;
  output ← get_property n s;
  unit_states s output.

Definition run_state (x : UnitFileState * ActiveState) : RunState :=
  match x with
  | (FileDisabled, ActiveInactive) => Stopped
  | (FileEnabled, ActiveInactive) => Enabled
  | (FileDisabled, ActiveActive) => Started
  | (FileEnabled, ActiveActive) => Setup
  | (_, ActiveActivating) => Activating
  | (_, ActiveFailed) => Failed
  end.

Definition get_run_state (n : nat) : Result SystemdError RunState := run_state <$> get_unit_states n.

(** The number of calls is computed in [u32]. *)
Definition polls (time_to_wait : Z) : nat := Z.to_nat ((time_to_wait * 2) mod 2 ^ 32).

(** The text of the error also names the unit, the time and the state. *)
Definition wait_for_state (time_to_wait : Z) (check_fn : UnitFileState * ActiveState -> bool) : Result SystemdError unit :=
  match poll_until (polls time_to_wait) 0 get_unit_states check_fn with
  | Ok _ => Ok tt
  | Err (Some e) => Err e
  | Err None => _ ← get_run_state (polls time_to_wait); Err (Required "did not move into expected state")
  end.

(** The command comes first; only that of [start_unit] is asked whether it succeeded. *)
Definition start_unit_and_wait (command : Result SystemdError unit) (time : Z) : Result SystemdError unit :=
  _ ← command; wait_for_state time (fun x => bool_decide (x.2 = ActiveActive)).
Definition start_unit (command : Result SystemdError unit) : Result SystemdError unit := start_unit_and_wait command 30.
Definition stop_unit (command : Result SystemdError unit) : Result SystemdError unit :=
  _ ← command; wait_for_state 30 (fun x => bool_decide (x.2 = ActiveInactive)).
Definition enable_unit (command : Result SystemdError unit) : Result SystemdError unit :=
  _ ← command; wait_for_state 30 (fun x => bool_decide (x.1 = FileEnabled)).
Definition disable_unit (command : Result SystemdError unit) : Result SystemdError unit :=
  _ ← command; wait_for_state 30 (fun x => bool_decide (x.1 = FileDisabled)).
Definition restart_unit (command : Result SystemdError unit) : Result SystemdError unit :=
  _ ← command; wait_for_state 30 (fun x => bool_decide (x.2 = ActiveActive)).

Lemma wait_for_state_spec time check : (0 <= time < 2 ^ 31)%Z ->
  wait_for_state time check = Ok tt <-> exists k, (Z.of_nat k < 2 * time)%Z /\ first_at get_unit_states check k.
Proof.
  intros Ht. unfold wait_for_state. assert (Z.of_nat (polls time) = 2 * time)%Z as Hp by (unfold polls; rewrite Z.mod_small, Z2Nat.id by lia; lia).
  pose proof (poll_until_spec (polls time) 0 get_unit_states check) as Hs. destruct (poll_until _ _ _ _) as [[]|[e|]].
  - split; [|done]. intros _. destruct (proj1 (Hs ltac:(lia)) eq_refl) as (k & Hk & Hf). exists k. split; [lia|done].
  - split; [done|]. intros (k & Hk & Hf). assert (Err (Some e) = Ok tt); [|done]. apply Hs; [lia|]. exists k. split; [lia|done].
  - split; [by destruct (get_run_state _)|]. intros (k & Hk & Hf). assert (Err None = Ok tt :> Result (option SystemdError) unit); [|done].
    apply Hs; [lia|]. exists k. split; [lia|done].
Qed.

(** A start succeeds exactly when the command did and the unit is seen active within the time, with
    every reading before it successful. *)
Theorem start_succeeds command time : (0 <= time < 2 ^ 31)%Z ->
  start_unit_and_wait command time = Ok tt <->
  command = Ok tt /\ exists k, (Z.of_nat k < 2 * time)%Z /\ first_at get_unit_states (fun x => bool_decide (x.2 = ActiveActive)) k.
Proof.
  intros Ht. unfold start_unit_and_wait. destruct command as [[]|]; cbn; [|split; [done|by intros [? _]]]. rewrite wait_for_state_spec by done. tauto.
Qed.

(** A unit that stopping leaves as failed does not count as stopped. *)
Theorem failed_stop_times_out u : (forall n, get_unit_states n = Ok (u, ActiveFailed)) ->
  stop_unit (Ok tt) = Err (Required "did not move into expected state").
Proof.
  intros Hf. unfold stop_unit, wait_for_state. cbn [mbind Result_bind].
  assert (poll_until (polls 30) 0 get_unit_states (fun x => bool_decide (x.2 = ActiveInactive)) = Err None) as ->.
  { apply poll_until_timeout. intros j _. exists (u, ActiveFailed). by rewrite Hf. }
  unfold get_run_state. by rewrite Hf.
Qed.
End unit.

(** ** Reading what is printed *)

(** A property as [busctl] prints it. *)
Definition property_line (s : string) : string := "s " +:+ String quote (s +:+ String quote "").
Definition properties (u : UnitFileState) (a : ActiveState) : string :=
  property_line (file_text u) +:+ String newline (property_line (active_text a) +:+ String newline "").

(** Each of the states is read as it was printed. *)
Theorem states_read path u a : unit_states path (properties u a) = Ok (u, a).
Proof. by destruct u, a. Qed.

(** Others are errors: a unit without an [Install] section, and one that is stopping. *)
Example other_states :
  unit_states "p" (property_line "static" +:+ String newline (property_line "active")) = Err (Required "Unknown busctl (p) output") /\
  unit_states "p" (property_line "enabled" +:+ String newline (property_line "deactivating")) = Err (Required "Unknown busctl (p) output").
Proof. split; reflexivity. Qed.
