(* ===== verification/PoolActions.v ===== *)
(** * OST pools on the agent ([iml-agent/src/action_plugins/ostpool.rs], [lustre.rs],
      [daemon_plugins/ostpool.rs])

    The agent reads the pools of a file system from what [lctl] prints, and reports them to the
    service of [OstPools]. How a run of [lctl] ends, and when, is given by an argument. *)
From S2P Require Import Prelude RustStd Ordering Ldev FidActions NtpConfig OstPools Systemd.
From stdpp Require Import base gmap sets list strings.
From Stdlib Require Import Ascii ZArith Lia.
Open Scope string_scope.

(** [str::trim_end_matches]. *)
Definition trim_end_matches (p s : string) : string := String.rev (strip_prefixes [String.rev p] (slen s) (String.rev s)).

(** [s.rsplit(c).next()]. *)
Definition last_piece (c : ascii) (s : string) : string := match split_last c s with Some (_, y) => y | None => s end.

(** A run of [lctl] that ends with another status, or that fails in another way. *)
Inductive LctlError : Type :=
  | LStatus (code : option Z)
  | LOther.

Section lctl.
Context (lctl : list string -> nat * Result LctlError string).

Definition pool_list (filesystem : string) : nat * Result LctlError (list string) :=
  let '(t, r) := lctl ["pool_list"; filesystem] in
  (t, match r with
      | Ok o => Ok (last_piece "." <$> drop 1 (str_lines o))
      | Err (LStatus (Some 2%Z)) => Ok []
      | Err e => Err e
      end).

Definition ost_list (filesystem pool : string) : nat * Result LctlError (list string) :=
  let '(t, r) := pool_list (filesystem +:+ "." +:+ pool) in
  (t, match r with Ok l => Ok (trim_end_matches "_UUID" <$> l) | Err e => Err e end).

(** The pools with their OSTs, all asked for at once. *)
Definition pools (filesystem : string) : Result LctlError (list OstPool) :=
  xs ← (pool_list filesystem).2;
  try_join_all ((fun pool => let '(t, osts) := ost_list filesystem pool in (t, MkOstPool pool filesystem <$> osts)) <$> xs).

Definition pool_create (filesystem name : string) : Result LctlError unit := (fun _ => tt) <$> (lctl ["pool_new"; filesystem +:+ "." +:+ name]).2.
Definition pool_add (filesystem name ost : string) : Result LctlError unit := (fun _ => tt) <$> (lctl ["pool_add"; filesystem +:+ "." +:+ name; ost]).2.
Definition pool_remove (filesystem name ost : string) : Result LctlError unit := (fun _ => tt) <$> (lctl ["pool_remove"; filesystem +:+ "." +:+ name; ost]).2.
Definition pool_destroy (filesystem name : string) : Result LctlError unit := (fun _ => tt) <$> (lctl ["pool_destroy"; filesystem +:+ "." +:+ name]).2.

(** ** The report *)

Definition list_mdt0s : list string :=
  match (lctl ["get_param"; "-N"; "mdt.*-MDT0000"]).2 with
  | Ok o => omap (fun line => str_split "." line !! 1%nat) (str_lines o)
  | Err _ => []
  end.

Definition list_fs : list string := (fun x => match split_first "-MDT" x with Some (y, _) => y | None => x end) <$> list_mdt0s.

Definition get_fsmap (fsname : string) : string * list OstPool :=
  (fsname, set_from false (match pools fsname with Ok xs => xs | Err _ => [] end)).

Definition build_tree : list (string * list OstPool) := foldl (fun m '(k, v) => btree_insert k v m) [] (get_fsmap <$> list_fs).
End lctl.

(** ** Waiting for a pool *)

(** [lists n] is what the [n]th call of [pool_list] gives. [Err None] is the error, with its text, that
    the pool did not appear. *)
Definition time_to_wait : nat := 120.
Definition action_pool_wait (lists : nat -> Result LctlError (list string)) (name : string) : Result (option LctlError) unit :=
  poll_until (time_to_wait * 2) 0 lists (fun pl => bool_decide (name ∈ pl)).

(** The action succeeds exactly when one of the calls of two minutes, two in a second, sees the pool
    and none before it fails; it always ends. *)
Theorem pool_wait_succeeds lists name :
  action_pool_wait lists name = Ok tt <-> exists k, (k < 240)%nat /\ first_at lists (fun pl => bool_decide (name ∈ pl)) k.
Proof.
  unfold action_pool_wait. rewrite poll_until_spec by lia. split; intros (k & Hk & Hs); exists k; (split; [|done]); unfold time_to_wait in *; lia.
Qed.

(** ** What [lctl] prints *)

Lemma ends_with_spec q s : ends_with q s = true <-> exists r, s = r +:+ q.
Proof.
  unfold ends_with. split.
  - intros [_ Hq%String.eqb_eq]%andb_true_iff. exists (stake (slen s - slen q) s). transitivity (stake (slen s - slen q) s +:+ sdrop (slen s - slen q) s); [by rewrite stake_sdrop|by rewrite Hq].
  - intros [r ->]. rewrite slen_app, Nat.add_sub, sdrop_app, String.eqb_refl. rewrite (proj2 (Nat.leb_le _ _)); [done|lia].
Qed.

Lemma str_lines_written ls : Forall clean ls -> str_lines (write_lines ls) = ls.
Proof.
  unfold str_lines. induction 1 as [|l ls [Hl Hr] Hls IH]; [done|]. cbn [write_lines foldr]. fold (write_lines ls).
  change eol with newline. rewrite str_split_app by done. pose proof (str_split_nonempty newline (write_lines ls)) as Hne.
  pose proof (strip_cr_id l Hr) as Hcr.
  cbn [lines_of]. destruct (str_split newline (write_lines ls)) as [|x xs]; [done|]. rewrite Hcr. f_equal. exact IH.
Qed.

Lemma split_last_none c s : contains_char c s = false -> split_last c s = None.
Proof. induction s as [|a s IH]; [done|]. cbn. intros [Ha Hs]%orb_false_elim. rewrite IH by done. rewrite Ha. done. Qed.

Lemma last_piece_app c s t : contains_char c t = false -> last_piece c (s +:+ String c t) = t.
Proof.
  intros Ht. unfold last_piece. assert (split_last c (s +:+ String c t) = Some (s, t)) as ->; [|done].
  induction s as [|a s IH]; [rewrite str_app_nil_l; cbn; by rewrite split_last_none, Ascii.eqb_refl|]. rewrite str_app_cons. cbn. by rewrite IH.
Qed.

Lemma last_piece_whole c s : contains_char c s = false -> last_piece c s = s.
Proof. intros Hs. unfold last_piece. by rewrite split_last_none. Qed.

Lemma trim_end_app p s : p <> "" -> ends_with p s = false -> trim_end_matches p (s +:+ p) = s.
Proof.
  intros Hp Hs. unfold trim_end_matches. rewrite str_rev_app. assert (slen (s +:+ p) = S (slen (s +:+ p) - 1)) as ->.
  { rewrite slen_app. destruct p; [done|]. cbn. lia. }
  cbn [strip_prefixes list_find]. rewrite decide_True by apply starts_with_app. cbn [fmap option_fmap option_map]. rewrite sdrop_app.
  rewrite strip_prefixes_stop; [apply str_rev_involutive|]. apply Forall_singleton. apply not_true_iff_false.
  intros [r Hr]%starts_with_spec. apply not_true_iff_false in Hs. apply Hs, ends_with_spec. exists (String.rev r).
  by rewrite <- (str_rev_involutive s), Hr, str_rev_app, str_rev_involutive.
Qed.

(** A line about the file system, or the pool, and one for each name. *)
Definition printed (header : string) (names : list string) : string := write_lines (header :: names).

(** A name that stands in one line and has no dot. *)
Definition plain_name (s : string) : Prop := clean s /\ contains_char "." s = false.

Section printed.
Context (lctl : list string -> nat * Result LctlError string).

Lemma pool_list_printed fs header names : clean header -> Forall clean names -> (lctl ["pool_list"; fs]).2 = Ok (printed header names) ->
  (pool_list lctl fs).2 = Ok (last_piece "." <$> names).
Proof.
  intros Hh Hn Hl. unfold pool_list. destruct (lctl ["pool_list"; fs]) as [t r]. cbn [snd] in *. rewrite Hl. unfold printed.
  by rewrite str_lines_written by by constructor.
Qed.

Lemma clean_dot fs p : clean fs -> clean p -> clean (fs +:+ "." +:+ p).
Proof. intros Hf Hp. by repeat apply clean_app. Qed.

(** [lctl] lists the pools [names] of a file system, each with its OSTs. *)
Record lists_pools (fs : string) (names : list string) (osts : string -> list string) : Prop := {
  lp_fs : clean fs;
  lp_names : Forall plain_name names;
  lp_pools : exists h, clean h /\ (lctl ["pool_list"; fs]).2 = Ok (printed h ((fun p => fs +:+ "." +:+ p) <$> names));
  lp_osts p : p ∈ names -> Forall (fun o => plain_name o /\ ends_with "_UUID" o = false) (osts p) /\
    exists h, clean h /\ (lctl ["pool_list"; fs +:+ "." +:+ p]).2 = Ok (printed h ((fun o => o +:+ "_UUID") <$> osts p)) }.

Lemma ost_list_printed fs names osts p : lists_pools fs names osts -> p ∈ names -> (ost_list lctl fs p).2 = Ok (osts p).
Proof.
  intros [Hf Hn _ Ho] Hp. destruct (Ho p Hp) as (Hos & h & Hh & Hl). unfold ost_list.
  assert ((pool_list lctl (fs +:+ "." +:+ p)).2 = Ok (last_piece "." <$> ((fun o => o +:+ "_UUID") <$> osts p))) as Hpl.
  { apply (pool_list_printed _ h); [done| |done]. apply Forall_fmap. eapply Forall_impl; [exact Hos|]. intros o [[Hc _] _]. by apply clean_app. }
  destruct (pool_list lctl (fs +:+ "." +:+ p)) as [t r]. cbn [snd] in *. rewrite Hpl. f_equal. clear Hpl Hl Ho. induction Hos as [|o os [[Hc Hd] Hu] Hos IH]; [done|].
  cbn [fmap list_fmap]. rewrite IH. rewrite last_piece_whole by (by rewrite contains_char_app, Hd). by rewrite trim_end_app.
Qed.

(** The pools that are read are those that were printed. *)
Theorem pools_read fs names osts : lists_pools fs names osts -> pools lctl fs = Ok ((fun p => MkOstPool p fs (osts p)) <$> names).
Proof.
  intros Hp. pose proof Hp as [Hf Hn (h & Hh & Hl) _]. unfold pools.
  assert ((pool_list lctl fs).2 = Ok names) as ->.
  { erewrite pool_list_printed; [|done| |done].
    - f_equal. rewrite <- list_fmap_compose. rewrite <- (list_fmap_id names) at 2. apply list_fmap_ext. intros i x Hx. unfold compose.
      rewrite Forall_forall in Hn. apply last_piece_app. apply (Hn x), list_elem_of_lookup. by exists i.
    - apply Forall_fmap. eapply Forall_impl; [exact Hn|]. intros p [Hc _]. by apply clean_dot. }
  cbn [mbind Result_bind].
  assert (forall l, l ⊆ names -> ((fun pool => let '(t, osts) := ost_list lctl fs pool in (t, MkOstPool pool fs <$> osts)) <$> l) =
    all_ok ((fun p => ((ost_list lctl fs p).1, MkOstPool p fs (osts p))) <$> l)) as Hall.
  { intros l Hsub. unfold all_ok. rewrite <- list_fmap_compose. apply list_fmap_ext. intros i x Hx. unfold compose. cbn.
    assert ((ost_list lctl fs x).2 = Ok (osts x)) as Ho by (eapply ost_list_printed; [done|]; apply Hsub, list_elem_of_lookup; by exists i).
    destruct (ost_list lctl fs x) as [t r]. cbn [fst snd] in *. by rewrite Ho. }
  rewrite Hall by done. rewrite join_all_ok. f_equal. rewrite <- list_fmap_compose. done.
Qed.

(** ** From the text to the tables *)

Lemma fsmap_report fs : (forall xs, pools lctl fs = Ok xs -> forall p, p ∈ xs -> op_filesystem p = fs) -> report fs (get_fsmap lctl fs).2.
Proof.
  intros Hfs. split; [apply set_from_wf|]. intros p Hp%elem_of_set_from. destruct (pools lctl fs) as [xs|]; [by apply (Hfs xs)|by apply not_elem_of_nil in Hp].
Qed.

Context (tables : Tables).

(** After the service has taken the report, the file system has exactly the pools that [lctl] printed. *)
Theorem printed_pools_stored fs fsid' names osts db :
  lists_pools fs names osts -> fsid tables fs = Some fsid' -> db_ok db ->
  forall n, is_Some (view fsid' n (process_fs tables fs (get_fsmap lctl fs).2 db)) <-> n ∈ names.
Proof.
  intros Hp Hid Hdb n. pose proof (pools_read fs names osts Hp) as Hr.
  assert (report fs (get_fsmap lctl fs).2) as Hrep.
  { apply fsmap_report. intros xs Hxs p Hin. rewrite Hr in Hxs. injection Hxs as <-. by apply list_elem_of_fmap in Hin as (q & -> & _). }
  destruct (refines_exists db Hdb) as (m & Hm). destruct (process_fs_refines tables fs fsid' _ db m Hid Hrep Hm) as (m' & [_ Hv] & Hrec & _).
  rewrite <- Hv, Hrec. unfold reconcile. fold (by_name n (get_fsmap lctl fs).2).
  transitivity (n ∈ op_name <$> (get_fsmap lctl fs).2).
  - destruct (by_name n (get_fsmap lctl fs).2) as [p|] eqn:Eb; cbn.
    + split; [|by eexists]. intros _. apply by_name_Some in Eb as [Hin <-]. by apply list_elem_of_fmap_2.
    + apply by_name_None in Eb. split; [by intros []|done].
  - assert (forall p, p ∈ (fun p => MkOstPool p fs (osts p)) <$> names -> op_filesystem p = fs) as Hsame by (by intros p (q & -> & _)%list_elem_of_fmap).
    unfold get_fsmap. rewrite Hr. cbn [snd]. split.
    + intros (p & -> & Hin%elem_of_set_from)%list_elem_of_fmap. by apply list_elem_of_fmap in Hin as (q & -> & Hq).
    + intros Hn. assert (key_of (MkOstPool n fs (osts n)) ∈ key_of <$> set_from false ((fun p => MkOstPool p fs (osts p)) <$> names)) as Hk.
      { apply set_from_keys. apply list_elem_of_fmap_2. apply list_elem_of_fmap. by exists n. }
      apply list_elem_of_fmap in Hk as (q & Hk & Hq). apply list_elem_of_fmap. exists q. split; [|done]. by injection Hk.
Qed.

(** When [lctl] fails in another way than by finding no pools, the report has no pools, and the
    service deletes all that the file system has. *)
Theorem failed_lctl_deletes fs fsid' db e : pools lctl fs = Err e -> fsid tables fs = Some fsid' -> db_ok db ->
  forall n, view fsid' n (process_fs tables fs (get_fsmap lctl fs).2 db) = None.
Proof.
  intros He Hid Hdb n. assert (get_fsmap lctl fs = (fs, [])) as Hg by (unfold get_fsmap; by rewrite He).
  destruct (refines_exists db Hdb) as (m & Hm). rewrite Hg. cbn [snd].
  assert (report fs []) as Hrep by (split; [constructor|by intros p ?%not_elem_of_nil]).
  destruct (process_fs_refines tables fs fsid' [] db m Hid Hrep Hm) as (m' & [_ Hv] & Hrec & _). by rewrite <- Hv, Hrec.
Qed.
End printed.

(** One run of [lctl] that fails: the pool is gone from the tables. *)
Example failed_lctl_demo :
  let lctl := fun _ : list string => (0%nat, Err (LStatus (Some 5%Z))) in
  view 1 "a" pool_db = Some [10%Z] /\ view 1 "a" (process_fs two_osts "fs" (get_fsmap lctl "fs").2 pool_db) = None.
Proof. split; reflexivity. Qed.

(** An [lctl] that prints one pool with two OSTs. *)
Definition demo_lctl (args : list string) : nat * Result LctlError string :=
  (0%nat, if bool_decide (args = ["pool_list"; "fs"]) then Ok (printed "Pools from fs:" ["fs.flash"])
          else if bool_decide (args = ["pool_list"; "fs.flash"]) then Ok (printed "Pool: fs.flash" ["fs-OST0000_UUID"; "fs-OST0001_UUID"])
          else Err (LStatus (Some 2%Z))).

Lemma demo_lists : lists_pools demo_lctl "fs" ["flash"] (fun _ => ["fs-OST0000"; "fs-OST0001"]).
Proof.
  split; [done|by repeat constructor| |].
  - by exists "Pools from fs:".
  - intros p ->%list_elem_of_singleton. split; [by repeat constructor|]. by exists "Pool: fs.flash".
Qed.

Lemma printed_pools_stored_witness n : is_Some (view 1 n (process_fs two_osts "fs" (get_fsmap demo_lctl "fs").2 pool_db)) <-> n ∈ ["flash"].
Proof. apply (printed_pools_stored demo_lctl two_osts "fs" 1 ["flash"] (fun _ => ["fs-OST0000"; "fs-OST0001"]) pool_db demo_lists eq_refl pool_db_ok). Qed.
