(* ===== verification/SnapshotActions.v ===== *)
(** * Snapshots on the agent ([iml-agent/src/action_plugins/lustre/snapshot.rs],
      [daemon_plugins/snapshot.rs])

    The agent reads the snapshots of its file systems from what [lctl] prints, looks which are
    mounted, and reports a list when it differs from the one before. [lctl] and the device scanner
    are arguments. *)
From S2P Require Import Prelude RustStd DeviceTypes Ldev FidActions NtpConfig Systemd PoolActions.
From stdpp Require Import base gmap sets list strings.
From Stdlib Require Import Ascii ZArith Lia.
Open Scope string_scope.

(** [str::splitn(n, c)] for a one-byte pattern. *)
Fixpoint splitn (n : nat) (c : ascii) (s : string) : list string :=
  match n with
  | O => []
  | S O => [s]
  | S n => match split_first (String c "") s with Some (x, y) => x :: splitn n c y | None => [s] end
  end.

(** A snapshot as the report has it; times are seconds. *)
Record Snapshot : Type := MkSnapshot {
  filesystem_name : string; snapshot_name : string; create_time : Z; modify_time : Z; comment : option string; snapshot_fsname : string; mounted : bool }.

Record DeviceSnapshot : Type := MkDeviceSnapshot { ds_name : string; ds_create : Z; ds_update : Z; ds_comment : option string }.

Section snapshots.
(** The seconds that chrono has a time for; others make it panic. *)
Context (valid_time : Z -> bool).

(** The closure of [filter_map]: the outer [None] is a panic. *)
Definition device_snapshot (xs : list string) : option (option DeviceSnapshot) :=
  match xs with
  | name :: c :: rest =>
      match ok (parse_i64 c) with
      | None => Some None
      | Some c =>
          if valid_time c then
            match rest with
            | u :: rest =>
                match ok (parse_i64 u) with
                | None => Some None
                | Some u => if valid_time u then Some (Some (MkDeviceSnapshot name c u (head rest))) else None
                end
            | [] => Some None
            end
          else None
      end
  | _ => Some None
  end.

Definition parse_device_snapshots (x : string) : option (list DeviceSnapshot) :=
  omap id <$> mapM device_snapshot (splitn 4 " " <$> str_lines (trim x)).

(** The value of the option [svname] of a mount. *)
Definition svname (m : Mount) : option string :=
  s ← List.find (starts_with "svname=") (str_split "," (mo_opts (mt_opts m)));
  str_split "=" s !! 1%nat.

(** The mounts of snapshots among all mounts. *)
Definition get_snapshot_mounts (mounts : list Mount) : list Mount :=
  List.filter (fun x => String.eqb (ft_name (mt_fs_type x)) "lustre") (List.filter (fun x => existsb (String.eqb "nomgs") (str_split "," (mo_opts (mt_opts x)))) mounts).

(** [rsplitn(2, '-').nth(1)]. *)
Definition before_dash (s : string) : option string := rsplitn2 "-" s !! 1%nat.

Context (lctl : list string -> nat * Result LctlError string).

Definition get_snapshot_label (snapshot_name target : string) : nat * Result LctlError (option string) :=
  let '(t, r) := lctl ["--device"; target; "snapshot"; "--get_label"; snapshot_name] in
  (t, (fun x => before_dash (trim x)) <$> r).

Definition is_snapshot_mounted (mounts : list Mount) (snapshot_fsname : string) : bool :=
  existsb (fun x => bool_decide (svname x ≫= before_dash = Some snapshot_fsname)) mounts.

Definition build_snapshot (target : string) (mounts : list Mount) (d : DeviceSnapshot) : nat * Result LctlError (option Snapshot) :=
  match before_dash target with
  | None => (0%nat, Ok None)
  | Some filesystem_name =>
      let '(t, r) := get_snapshot_label (ds_name d) target in
      (t, match r with
          | Err e => Err e
          | Ok None => Ok None
          | Ok (Some snapshot_fsname) =>
              Ok (Some (MkSnapshot filesystem_name (ds_name d) (ds_create d) (ds_update d) (ds_comment d) snapshot_fsname (is_snapshot_mounted mounts snapshot_fsname)))
          end)
  end.

Definition found (l : list (option Snapshot)) : list Snapshot := omap id l.

(** The list of one target; [None] is a panic. *)
Definition list_snapshots (mounts : Result LctlError (list Mount)) (target : string) (name : option string) : option (Result LctlError (list Snapshot)) :=
  match (lctl (["--device"; target; "snapshot"; "-l"] ++ match name with Some n => [n] | None => [] end)%list).2 with
  | Err e => Some (Err e)
  | Ok stdout =>
      let stdout := trim stdout in
      if String.eqb stdout "" then Some (Ok [])
      else match mounts with
           | Err e => Some (Err e)
           | Ok mounts =>
               match parse_device_snapshots stdout with
               | None => None
               | Some xs => Some (found <$> try_join_all (List.map (build_snapshot target (get_snapshot_mounts mounts)) xs))
               end
           end
  end.

Definition create_args (fsname name : string) (use_barrier : bool) (comment : option string) : list string :=
  (["snapshot_create"; "--fsname"; fsname; "--name"; name; "--barrier"; if use_barrier then "on" else "off"] ++
   match comment with Some c => ["--comment"; c] | None => [] end)%list.
Definition create_snapshot (fsname name : string) (use_barrier : bool) (comment : option string) : Result LctlError unit :=
  (fun _ => tt) <$> (lctl (create_args fsname name use_barrier comment)).2.
Definition destroy_snapshot (fsname name : string) (force : bool) : Result LctlError unit :=
  (fun _ => tt) <$> (lctl (["snapshot_destroy"; "--fsname"; fsname; "--name"; name] ++ if force then ["--force"] else [])%list).2.
Definition mount_snapshot (fsname name : string) : Result LctlError unit := (fun _ => tt) <$> (lctl ["snapshot_mount"; "--fsname"; fsname; "--name"; name]).2.
Definition unmount_snapshot (fsname name : string) : Result LctlError unit := (fun _ => tt) <$> (lctl ["snapshot_umount"; "--fsname"; fsname; "--name"; name]).2.
End snapshots.

(** ** Reading what [lctl] prints *)

Definition snapshot_line (d : DeviceSnapshot) : string :=
  str_join " " ([ds_name d; fmt_int (ds_create d); fmt_int (ds_update d)] ++ match ds_comment d with Some c => [c] | None => [] end)%list.

(** What can be printed so that it can be read: a name without spaces, times that there are, a text
    in one line. *)
Record printable_snapshot (valid_time : Z -> bool) (d : DeviceSnapshot) : Prop := {
  ps_name : contains_char " " (ds_name d) = false;
  ps_times : is_i64 (ds_create d) /\ is_i64 (ds_update d) /\ valid_time (ds_create d) = true /\ valid_time (ds_update d) = true;
  ps_line : clean (snapshot_line d) }.

Lemma digits_no_space z : contains_char " " (fmt_int z) = false.
Proof. apply fmt_int_contains; [|done]. intros d Hd. destruct d as [|p]; [done|]. repeat (destruct p as [p|p|]; try done; try lia). Qed.

Lemma parse_i64_fmt z : is_i64 z -> parse_i64 (fmt_int z) = Ok z.
Proof. intros Hz. unfold is_i64 in Hz. apply parse_fmt_int; lia. Qed.

Lemma splitn_line d : contains_char " " (ds_name d) = false ->
  splitn 4 " " (snapshot_line d) = ([ds_name d; fmt_int (ds_create d); fmt_int (ds_update d)] ++ match ds_comment d with Some c => [c] | None => [] end)%list.
Proof.
  intros Hn. unfold snapshot_line. assert (forall n s t, contains_char " " s = false -> splitn (S (S n)) " " (s +:+ " " +:+ t) = s :: splitn (S n) " " t) as Hs.
  { intros n s t H. change (s +:+ " " +:+ t) with (s +:+ String " " t). cbn [splitn]. by rewrite split_first_char. }
  destruct (ds_comment d) as [c|]; cbn [app str_join]; rewrite !Hs by (done || apply digits_no_space); [done|].
  cbn [splitn]. assert (forall s, contains_char " " s = false -> split_first " " s = None) as ->; [|done|apply digits_no_space].
  induction s as [|a s IH]; [done|]. cbn [contains_char]. intros [Ha Hs']%orb_false_elim. cbn [split_first].
  rewrite starts_with_char. rewrite IH by done. destruct (Ascii.eqb_spec " " a) as [<-|]; done.
Qed.

Lemma device_snapshot_line valid d : printable_snapshot valid d -> device_snapshot valid (splitn 4 " " (snapshot_line d)) = Some (Some d).
Proof.
  intros [Hn (Hc & Hu & Vc & Vu) _]. rewrite splitn_line by done. destruct d as [name c u k]. cbn [ds_name ds_create ds_update ds_comment app device_snapshot] in *.
  rewrite parse_i64_fmt by done. cbn [ok]. rewrite Vc, parse_i64_fmt by done. cbn [ok]. rewrite Vu. by destruct k.
Qed.

Lemma lines_joined ds : Forall (fun d => clean (snapshot_line d)) ds -> str_lines (str_join (String newline "") (snapshot_line <$> ds)) = snapshot_line <$> ds.
Proof.
  intros Hd. destruct ds as [|d ds]; [done|]. unfold str_lines. rewrite str_split_join; [|done|].
  - apply lines_of_clean, Forall_fmap. eapply Forall_impl; [exact Hd|]. intros x [_ Hx]. simpl. split; [by apply strip_cr_id|].
    unfold snapshot_line. cbn. by destruct (ds_name x).
  - apply Forall_fmap. eapply Forall_impl; [exact Hd|]. by intros x [Hx _].
Qed.

(** The snapshots are read as they were printed, when the text does not end in white space that
    belongs to a comment. *)
Theorem snapshots_read valid ds : Forall (printable_snapshot valid) ds ->
  trim (write_lines (snapshot_line <$> ds)) = str_join (String newline "") (snapshot_line <$> ds) ->
  parse_device_snapshots valid (write_lines (snapshot_line <$> ds)) = Some ds.
Proof.
  intros Hd Ht. unfold parse_device_snapshots. rewrite Ht, lines_joined by (eapply Forall_impl; [exact Hd|]; by intros d []).
  assert (mapM (device_snapshot valid) (splitn 4 " " <$> (snapshot_line <$> ds)) = Some (Some <$> ds)) as ->.
  { apply mapM_Some. rewrite <- list_fmap_compose. apply Forall2_fmap, Forall_Forall2_diag. eapply Forall_impl; [exact Hd|]. intros d Hp. by apply device_snapshot_line. }
  cbn. f_equal. clear. induction ds as [|d ds IH]; [done|]. cbn. by rewrite IH.
Qed.

(** ** The list *)

Lemma mounted_iff mounts name : is_snapshot_mounted mounts name = true <-> exists m, m ∈ mounts /\ svname m ≫= before_dash = Some name.
Proof.
  unfold is_snapshot_mounted. rewrite existsb_exists. split.
  - intros (m & Hm%list_elem_of_In & Hd%bool_decide_eq_true). by exists m.
  - intros (m & Hm%list_elem_of_In & Hd). exists m. split; [done|]. by apply bool_decide_eq_true.
Qed.

Section listed.
Context (valid_time : Z -> bool) (lctl : list string -> nat * Result LctlError string).

(** Every snapshot of the list is of the target's file system, has the label that [lctl] gives it,
    and is marked as mounted exactly when a mount of a snapshot names that label. *)
Theorem listed_snapshots mounts target name l s :
  list_snapshots valid_time lctl (Ok mounts) target name = Some (Ok l) -> s ∈ l ->
  before_dash target = Some (filesystem_name s) /\
  (exists text, (lctl ["--device"; target; "snapshot"; "--get_label"; snapshot_name s]).2 = Ok text /\ before_dash (trim text) = Some (snapshot_fsname s)) /\
  (mounted s = true <-> exists m, m ∈ get_snapshot_mounts mounts /\ svname m ≫= before_dash = Some (snapshot_fsname s)).
Proof.
  unfold list_snapshots. destruct (lctl _).2 as [stdout|]; [|done]. destruct (String.eqb (trim stdout) ""); [intros [= <-] H; by apply not_elem_of_nil in H|].
  destruct (parse_device_snapshots valid_time (trim stdout)) as [xs|]; [|done]. intros [= Hl] Hs.
  destruct (try_join_all _) as [os|] eqn:Ej; [|done]. injection Hl as <-. unfold found in Hs. apply list_elem_of_omap in Hs as (o & Ho & Hoid). unfold id in Hoid. subst o.
  unfold try_join_all in Ej. destruct (first_failed _) as [[]|]; [done|]. injection Ej as <-.
  apply list_elem_of_omap in Ho as ([t r] & Hin & Hr). apply list_elem_of_In, in_map_iff in Hin as (d & Hd & _). cbn in Hr. destruct r as [o|]; [|done]. injection Hr as ->.
  unfold build_snapshot in Hd. destruct (before_dash target) as [fs|]; [|done]. unfold get_snapshot_label in Hd.
  destruct (lctl ["--device"; target; "snapshot"; "--get_label"; ds_name d]) as [t' r'] eqn:El.
  destruct r' as [text|]; [|done]. cbn in Hd. destruct (before_dash (trim text)) as [lb|] eqn:Eb; [|done]. injection Hd as _ <-. cbn. split; [done|]. split.
  - exists text. by rewrite El.
  - apply mounted_iff.
Qed.

(** ** The plugin *)

Inductive ListError : Type :=
  | ListLctl (e : LctlError)
  | MarkerNotFound.

(** The targets that are first metadata targets and no snapshots. *)
Definition snapshot_targets (mounts : list Mount) : list string :=
  elements ((list_to_set (list_mdt0s lctl) : gset string) ∖ list_to_set (omap svname (get_snapshot_mounts mounts))).

Definition list_target (mounts : string -> Result LctlError (list Mount)) (ready : string -> nat) (x : string)
    : option (nat * Result ListError (string * list Snapshot)) :=
  match before_dash x with
  | None => Some (ready x, Err MarkerNotFound)
  | Some fs_name =>
      match list_snapshots valid_time lctl (mounts x) x None with
      | None => None
      | Some (Err e) => Some (ready x, Err (ListLctl e))
      | Some (Ok l) => Some (ready x, Ok (fs_name, l))
      end
  end.

Definition list_all (mounts : Result LctlError (list Mount)) (mounts_of : string -> Result LctlError (list Mount)) (ready : string -> nat)
    : option (Result ListError (option (gmap string (list Snapshot)))) :=
  match mounts with
  | Err e => Some (Err (ListLctl e))
  | Ok ms =>
      match snapshot_targets ms with
      | [] => Some (Ok None)
      | xs =>
          match mapM (list_target mounts_of ready) xs with
          | None => None
          | Some rs => Some (match try_join_all rs with Ok l => Ok (Some (foldl (fun m x => <[x.1 := x.2]> m) ∅ l)) | Err e => Err e end)
          end
      end
  end.

(** A target that is a mounted snapshot is not listed as a file system of its own. *)
Theorem snapshots_not_targets mounts x : x ∈ snapshot_targets mounts <-> x ∈ list_mdt0s lctl /\ forall m, m ∈ get_snapshot_mounts mounts -> svname m <> Some x.
Proof.
  unfold snapshot_targets. rewrite elem_of_elements, elem_of_difference, elem_of_list_to_set, elem_of_list_to_set, list_elem_of_omap.
  split; intros [H1 H2]; (split; [done|]); [intros m Hm Hx; apply H2; by exists m|intros (m & Hm & Hx); by apply (H2 m)].
Qed.
End listed.

(** The state that the reader and the session share. *)
Section state.
Context {V : Type} `{EqDecision V}.

Record State : Type := MkState { updated : bool; output : option V }.

Definition try_update_state (snapshots : Result ListError (option V)) (st : State) : State :=
  match snapshots with
  | Err _ => st
  | Ok o => if bool_decide (output st = o) then st else MkState true o
  end.

Definition update_session (st : State) : State * option V :=
  if updated st then (MkState false (output st), output st) else (st, None).

(** A run: what the reader found, or the session asking. [sent] is what went to the manager. *)
Inductive Event : Type := Read (r : Result ListError (option V)) | Ask.

Definition turn (acc : State * list V) (e : Event) : State * list V :=
  let '(st, sent) := acc in
  match e with
  | Read r => (try_update_state r st, sent)
  | Ask => let '(st, o) := update_session st in (st, match o with Some v => (sent ++ [v])%list | None => sent end)
  end.

Definition run_plugin (es : list Event) : State * list V := foldl turn (MkState false None, []) es.

(** The session has sent the last list that was found, or will when it asks next; and a list that was
    found again is not sent again. *)
Theorem snapshots_delivered es st sent : run_plugin es = (st, sent) -> updated st = false -> forall v, output st = Some v -> last sent = Some v.
Proof.
  revert st sent. induction es as [|e es IH] using rev_ind; intros st sent; unfold run_plugin.
  - intros [= <- <-] _ v [=].
  - rewrite foldl_app. fold (run_plugin es). destruct (run_plugin es) as [st0 sent0]. specialize (IH st0 sent0 eq_refl). cbn [foldl]. destruct e as [r|]; cbn.
    + intros [= <- <-]. unfold try_update_state. destruct r as [o|]; [|done]. case_bool_decide; done.
    + unfold update_session. destruct (updated st0) eqn:Eu; cbn; [|intros [= <- <-]; intros _; by apply IH]. intros [= <- <-] _ v. cbn. intros ->. by rewrite last_snoc.
Qed.

Theorem asked_twice st : (update_session (update_session st).1).2 = None.
Proof. unfold update_session. destruct (updated st) eqn:E; cbn; by rewrite ?E. Qed.
End state.

Definition demo_snapshots : list DeviceSnapshot :=
  [MkDeviceSnapshot "daily" 1590000000 1590000000 (Some "before the upgrade"); MkDeviceSnapshot "weekly" 1590600000 1590600001 None].

Lemma snapshots_read_witness : parse_device_snapshots (fun _ => true) (write_lines (snapshot_line <$> demo_snapshots)) = Some demo_snapshots.
Proof.
  apply (snapshots_read (fun _ => true) demo_snapshots); [|reflexivity]. repeat constructor; unfold is_i64; simpl; lia || done.
Qed.
