(* ===== verification/CrmMon.v ===== *)
(** * Clusters as the agent sees them ([iml-agent/src/high_availability.rs],
      [daemon_plugins/corosync.rs], [action_plugins/high_availability/mod.rs])

    The agent reads the XML that [crm_mon] prints, event by event, into the cluster that the
    service of [Corosync] takes. How a text is cut into events is the XML library's, an argument;
    after the last event, the end of the file is read again and again. *)
From S2P Require Import Prelude RustStd Ldev Alerts FidActions Corosync.
From stdpp Require Import base gmap sets list strings pretty.
From Stdlib Require Import Ascii ZArith Lia.
Open Scope string_scope.
Open Scope Z_scope.

(** ** Events *)

Inductive HaError : Type :=
  | XmlError
  | MissingArgument (s : string)
  | ParseBool
  | ParseInt (e : ParseIntError)
  | InvalidNodeType (s : string)
  | HaCommand (e : CmdError)
  | HaRequired (s : string).

(** The attributes of an element, some of which cannot be read. *)
Abbreviation Attributes := (list (Result HaError (string * string))) (only parsing).

Inductive Event : Type :=
  | EvStart (name : string) (attrs : Attributes)
  | EvEmpty (name : string) (attrs : Attributes)
  | EvEnd (name : string)
  | EvOther
  | EvEof.

(** The events that are still to come. *)
Abbreviation Reader := (list (Result HaError Event)) (only parsing).

Definition read_event (r : Reader) : Result HaError (Event * Reader) :=
  match r with
  | [] => Ok (EvEof, [])
  | Ok e :: r => Ok (e, r)
  | Err e :: _ => Err e
  end.

Fixpoint attrs_from (acc : gmap string string) (attrs : Attributes) : Result HaError (gmap string string) :=
  match attrs with
  | [] => Ok acc
  | Err e :: _ => Err e
  | Ok (k, v) :: attrs => attrs_from (<[k := v]> acc) attrs
  end.
Definition attrs_to_hashmap (attrs : Attributes) : Result HaError (gmap string string) := attrs_from ∅ attrs.

(** ** Records from attributes *)

Definition required_arg (arg : string) (x : gmap string string) : Result HaError string := ok_or (MissingArgument arg) (x !! arg).

(** [str::parse::<bool>]. *)
Definition parse_bool (s : string) : Result HaError bool :=
  if String.eqb s "true" then Ok true else if String.eqb s "false" then Ok false else Err ParseBool.

Definition required_bool (arg : string) (x : gmap string string) : Result HaError bool := s ← required_arg arg x; parse_bool s.

Definition parse_u32 (s : string) : Result HaError Z := map_err ParseInt (from_str_radix 10 0 (2 ^ 32 - 1) s).
Definition parse_i32 (s : string) : Result HaError Z := map_err ParseInt (from_str_radix 10 (- 2 ^ 31) (2 ^ 31 - 1) s).

Definition NodeType_try_from (x : string) : Result HaError NodeType :=
  if String.eqb x "unknown" then Ok NodeType_Unknown else if String.eqb x "member" then Ok NodeType_Member
  else if String.eqb x "remote" then Ok NodeType_Remote else if String.eqb x "ping" then Ok NodeType_Ping else Err (InvalidNodeType x).

Definition node_from_map (x : gmap string string) : Result HaError Node :=
  name ← required_arg "name" x;
  id ← required_arg "id" x;
  online ← required_bool "online" x;
  standby ← required_bool "standby" x;
  standby_onfail ← required_bool "standby_onfail" x;
  maintenance ← required_bool "maintenance" x;
  pending ← required_bool "pending" x;
  unclean ← required_bool "unclean" x;
  shutdown ← required_bool "shutdown" x;
  expected_up ← required_bool "expected_up" x;
  is_dc ← required_bool "is_dc" x;
  rr ← required_arg "resources_running" x;
  resources_running ← parse_u32 rr;
  ty ← required_arg "type" x;
  type ← NodeType_try_from ty;
  Ok (MkNode name id online standby standby_onfail maintenance pending unclean shutdown expected_up is_dc resources_running type).

Definition resource_from_map (x : gmap string string) : Result HaError Resource :=
  id ← required_arg "id" x;
  resource_agent ← required_arg "resource_agent" x;
  role ← required_arg "role" x;
  active ← required_bool "active" x;
  orphaned ← required_bool "orphaned" x;
  managed ← required_bool "managed" x;
  failed ← required_bool "failed" x;
  failure_ignored ← required_bool "failure_ignored" x;
  nr ← required_arg "nodes_running_on" x;
  nodes_running_on ← parse_u32 nr;
  Ok (MkResource id resource_agent role active orphaned managed failed failure_ignored nodes_running_on None None).

Definition ban_from_map (x : gmap string string) : Result HaError Ban :=
  id ← required_arg "id" x;
  resource ← required_arg "resource" x;
  node ← required_arg "node" x;
  w ← required_arg "weight" x;
  weight ← parse_i32 w;
  master_only ← required_bool "master_only" x;
  Ok (MkBan id resource node weight master_only).

(** ** The loops; [None] is that the fuel does not suffice *)

Fixpoint read_nodes (fuel : nat) (r : Reader) (xs : list Node) : option (Result HaError (list Node * Reader)) :=
  match fuel with
  | O => None
  | S fuel =>
      match read_event r with
      | Err e => Some (Err e)
      | Ok (ev, r) =>
          match ev with
          | EvEmpty name attrs =>
              if String.eqb name "node" then
                match m ← attrs_to_hashmap attrs; node_from_map m with
                | Err e => Some (Err e)
                | Ok x => read_nodes fuel r (xs ++ [x])
                end
              else read_nodes fuel r xs
          | EvEnd name => if String.eqb name "nodes" then Some (Ok (xs, r)) else read_nodes fuel r xs
          | _ => read_nodes fuel r xs
          end
      end
  end.

Definition with_id (id : string) (r : Resource) : Resource :=
  MkResource id (r_resource_agent r) (r_role r) (r_active r) (r_orphaned r) (r_managed r) (r_failed r) (r_failure_ignored r) (r_nodes_running_on r)
    (r_active_node_name r) (r_active_node_id r).
Definition with_active_node (name id : option string) (r : Resource) : Resource :=
  MkResource (r_id r) (r_resource_agent r) (r_role r) (r_active r) (r_orphaned r) (r_managed r) (r_failed r) (r_failure_ignored r) (r_nodes_running_on r) name id.

(** The name and the next number of a resource when clones are counted; the number is an [i32]. *)
Definition number_clone (clone_index : Z) (r : Resource) : Resource * Z :=
  if 0 <=? clone_index then (with_id (r_id r +:+ ":" +:+ fmt_int clone_index) r, clone_index + 1) else (r, clone_index).

Fixpoint read_resources (fuel : nat) (r : Reader) (xs : list Resource) (current_resource : option Resource) (clone_index : Z)
    : option (Result HaError (list Resource * Reader)) :=
  match fuel with
  | O => None
  | S fuel =>
      match read_event r with
      | Err e => Some (Err e)
      | Ok (ev, r) =>
          match ev with
          | EvStart name attrs =>
              if String.eqb name "resource" then
                match m ← attrs_to_hashmap attrs; resource_from_map m with
                | Err e => Some (Err e)
                | Ok x => read_resources fuel r xs (Some x) clone_index
                end
              else if String.eqb name "clone" then read_resources fuel r xs current_resource 0
              else read_resources fuel r xs current_resource clone_index
          | EvEmpty name attrs =>
              if String.eqb name "node" then
                match attrs_to_hashmap attrs with
                | Err e => Some (Err e)
                | Ok m => read_resources fuel r xs (with_active_node (m !! "name") (m !! "id") <$> current_resource) clone_index
                end
              else if String.eqb name "resource" then
                match m ← attrs_to_hashmap attrs; resource_from_map m with
                | Err e => Some (Err e)
                | Ok x => let '(x, clone_index) := number_clone clone_index x in read_resources fuel r (xs ++ [x]) current_resource clone_index
                end
              else read_resources fuel r xs current_resource clone_index
          | EvEnd name =>
              if String.eqb name "resource" then
                match current_resource with
                | Some x => let '(x, clone_index) := number_clone clone_index x in read_resources fuel r (xs ++ [x]) None clone_index
                | None => read_resources fuel r xs None clone_index
                end
              else if String.eqb name "clone" then read_resources fuel r xs current_resource (-1)
              else if String.eqb name "resources" then Some (Ok (xs, r))
              else read_resources fuel r xs current_resource clone_index
          | _ => read_resources fuel r xs current_resource clone_index
          end
      end
  end.

Fixpoint read_bans (fuel : nat) (r : Reader) (xs : list Ban) : option (Result HaError (list Ban * Reader)) :=
  match fuel with
  | O => None
  | S fuel =>
      match read_event r with
      | Err e => Some (Err e)
      | Ok (ev, r) =>
          match ev with
          | EvEmpty name attrs =>
              if String.eqb name "ban" then
                match m ← attrs_to_hashmap attrs; ban_from_map m with
                | Err e => Some (Err e)
                | Ok x => read_bans fuel r (xs ++ [x])
                end
              else read_bans fuel r xs
          | EvEnd name => if String.eqb name "bans" then Some (Ok (xs, r)) else read_bans fuel r xs
          | _ => read_bans fuel r xs
          end
      end
  end.

(** Whole documents. *)
Definition with_nodes (xs : list Node) (c : Cluster) : Cluster := MkCluster xs (c_resources c) (c_bans c) (c_resource_mounts c).
Definition with_resources (xs : list Resource) (c : Cluster) : Cluster := MkCluster (c_nodes c) xs (c_bans c) (c_resource_mounts c).
Definition with_bans (xs : list Ban) (c : Cluster) : Cluster := MkCluster (c_nodes c) (c_resources c) xs (c_resource_mounts c).
Definition with_mounts (m : gmap string string) (c : Cluster) : Cluster := MkCluster (c_nodes c) (c_resources c) (c_bans c) m.
Definition no_cluster : Cluster := MkCluster [] [] [] ∅.

Fixpoint read_crm (fuel : nat) (r : Reader) (cluster : Cluster) : option (Result HaError Cluster) :=
  match fuel with
  | O => None
  | S fuel =>
      match read_event r with
      | Err e => Some (Err e)
      | Ok (ev, r) =>
          match ev with
          | EvStart name _ =>
              if String.eqb name "nodes" then
                match read_nodes fuel r [] with
                | None => None
                | Some (Err e) => Some (Err e)
                | Some (Ok (xs, r)) => read_crm fuel r (with_nodes xs cluster)
                end
              else if String.eqb name "resources" then
                match read_resources fuel r [] None (-1) with
                | None => None
                | Some (Err e) => Some (Err e)
                | Some (Ok (xs, r)) => read_crm fuel r (with_resources xs cluster)
                end
              else read_crm fuel r cluster
          | EvEof => Some (Ok cluster)
          | _ => read_crm fuel r cluster
          end
      end
  end.

Fixpoint read_banned (fuel : nat) (r : Reader) (cluster : Cluster) : option (Result HaError Cluster) :=
  match fuel with
  | O => None
  | S fuel =>
      match read_event r with
      | Err e => Some (Err e)
      | Ok (ev, r) =>
          match ev with
          | EvStart name _ =>
              if String.eqb name "bans" then
                match read_bans fuel r [] with
                | None => None
                | Some (Err e) => Some (Err e)
                | Some (Ok (xs, r)) => read_banned fuel r (with_bans xs cluster)
                end
              else read_banned fuel r cluster
          | EvEof => Some (Ok cluster)
          | _ => read_banned fuel r cluster
          end
      end
  end.

(** ** Where a resource is mounted *)

Inductive Ra : Type := RaDdn (x : option string) | RaLustre (x : option string).
Definition Ra_inner (x : Ra) : option string := match x with RaDdn x => x | RaLustre x => x end.

Definition primitive_ra (m : gmap string string) (current_ra : option Ra) : option Ra :=
  if bool_decide (m !! "class" = Some "ocf" /\ m !! "provider" = Some "ddn" /\ m !! "type" = Some "lustre-server") then Some (RaDdn None)
  else if bool_decide (m !! "class" = Some "ocf" /\ m !! "provider" = Some "lustre" /\ m !! "type" = Some "Lustre") then Some (RaLustre None)
  else current_ra.

Definition nvpair_ra (m : gmap string string) (current_ra : option Ra) : option Ra :=
  match current_ra with
  | Some (RaDdn v) => Some (RaDdn (if bool_decide (m !! "name" = Some "directory") then m !! "value" else v))
  | Some (RaLustre v) => Some (RaLustre (if bool_decide (m !! "name" = Some "mountpoint") then m !! "value" else v))
  | None => None
  end.

(** The loop ends with the document. *)
Fixpoint read_ra (r : Reader) (current_ra : option Ra) : Result HaError (option Ra) :=
  match r with
  | [] => Ok current_ra
  | Err e :: _ => Err e
  | Ok ev :: r =>
      match ev with
      | EvStart name attrs =>
          if String.eqb name "primitive" then m ← attrs_to_hashmap attrs; read_ra r (primitive_ra m current_ra) else read_ra r current_ra
      | EvEmpty name attrs =>
          if String.eqb name "nvpair" then m ← attrs_to_hashmap attrs; read_ra r (nvpair_ra m current_ra) else read_ra r current_ra
      | EvEof => Ok current_ra
      | _ => read_ra r current_ra
      end
  end.

Definition is_lustre_ra (x : string) : bool := String.eqb x "ocf::ddn:lustre-server" || String.eqb x "ocf::lustre:Lustre".

(** ** The local node *)

(** [str::split_terminator]. *)
Fixpoint drop_last_empty (xs : list string) : list string :=
  match xs with [] => [] | [x] => if String.eqb x "" then [] else [x] | x :: xs => x :: drop_last_empty xs end.
Definition split_terminator (c : ascii) (s : string) : list string := drop_last_empty (str_split c s).

Definition parse_local_nodeid_output (x : string) : option string :=
  let prefix := "Local node ID " in
  l ← List.find (starts_with prefix) (split_terminator newline x);
  after prefix l.

(** ** Commands *)

(** The answers of the commands: whether the programs are there, what [corosync-cfgtool -s],
    [crm_mon], [crm_resource --query-xml] of a resource and [crm_mon --neg-locations] print. *)
Record HaWorld : Type := MkHaWorld {
  has_cfgtool : bool; has_crm_mon : bool;
  cfgtool : Result HaError string; crm_mon : Result HaError string;
  query_xml : string -> Result HaError string; neg_locations : Result HaError string }.

Section commands.
(** How the XML library cuts a text. *)
Context (events : string -> Reader).

Definition read_crm_output (fuel : nat) (crm_output : string) : option (Result HaError Cluster) := read_crm fuel (events crm_output) no_cluster.

Definition read_banned_output (fuel : nat) (crm_output : string) (cluster : Cluster) : option (Result HaError Cluster) :=
  read_banned fuel (events crm_output) cluster.

Definition parse_resource_xml (x : string) : Result HaError (option string) :=
  match drop 2 (str_lines (trim x)) with
  | [] => Ok None
  | xs => current_ra ← read_ra (events (str_join (String newline "") xs)) None; Ok (current_ra ≫= Ra_inner)
  end.

Definition get_local_nodeid (w : HaWorld) : Result HaError (option string) :=
  if has_cfgtool w then output ← cfgtool w; Ok (parse_local_nodeid_output output) else Ok None.

Fixpoint resource_mounts (w : HaWorld) (out : gmap string string) (xs : list string) : Result HaError (gmap string string) :=
  match xs with
  | [] => Ok out
  | x :: xs =>
      output ← query_xml w x;
      v ← parse_resource_xml output;
      resource_mounts w (match v with Some v => <[x := v]> out | None => out end) xs
  end.
Definition get_lustre_resource_mounts (w : HaWorld) (xs : list string) : Result HaError (gmap string string) := resource_mounts w ∅ xs.

Definition lustre_resource_ids (x : Cluster) : list string := omap (fun x => if is_lustre_ra (r_resource_agent x) then Some (r_id x) else None) (c_resources x).

Definition get_crm_mon (fuel : nat) (w : HaWorld) : option (Result HaError (option Cluster)) :=
  if has_crm_mon w then
    match crm_mon w with
    | Err e => Some (Err e)
    | Ok crm_output =>
        match read_crm_output fuel crm_output with
        | None => None
        | Some (Err e) => Some (Err e)
        | Some (Ok x) =>
            match mounts ← get_lustre_resource_mounts w (lustre_resource_ids x); ban_output ← neg_locations w; Ok (mounts, ban_output) with
            | Err e => Some (Err e)
            | Ok (mounts, ban_output) => fmap (M := option) (fmap (M := Result HaError) Some) (read_banned_output fuel ban_output (with_mounts mounts x))
            end
        end
    end
  else Some (Ok None).

(** The plugin reports the node and the cluster when it knows both. *)
Definition update_session (fuel : nat) (w : HaWorld) : option (Result HaError (option (string * Cluster))) :=
  match get_local_nodeid w with
  | Err e => Some (Err e)
  | Ok node_id =>
      fmap (M := option) (fmap (M := Result HaError) (fun cluster =>
        match node_id, cluster with Some x, Some y => Some (x, y) | _, _ => None end)) (get_crm_mon fuel w)
  end.

(** *** Waiting for a resource *)

(** The roles of the resource, clones included. *)
Definition stati (resource : string) (cluster : Cluster) : list string :=
  omap (fun r => if String.eqb (default "" (head (str_split ":" (r_id r)))) resource then Some (r_role r) else None) (c_resources cluster).

Definition settled (resource : string) (running : bool) (cluster : Cluster) : bool :=
  let check := if running then "Started" else "Stopped" in
  match stati resource cluster with [] => false | ss => forallb (String.eqb check) ss end.

Definition WAIT_SEC : nat := 300.
Definition WAIT_DELAY : nat := 2.

(** [crm_mon_at n] is the answer to the [n]th call. *)
Fixpoint wait_polls (fuel : nat) (crm_mon_at : nat -> Result HaError string) (resource : string) (running : bool) (n k : nat)
    : option (Result HaError unit) :=
  match n with
  | O =>
      Some (Err (HaRequired ("Waiting for resource " +:+ (if running then "start" else "stop") +:+ " of " +:+ resource +:+ " failed after " +:+
        fmt_int (Z.of_nat WAIT_SEC) +:+ " sec")))
  | S n =>
      match crm_mon_at k with
      | Err e => Some (Err e)
      | Ok output =>
          match read_crm_output fuel output with
          | None => None
          | Some (Err e) => Some (Err e)
          | Some (Ok cluster) => if settled resource running cluster then Some (Ok tt) else wait_polls fuel crm_mon_at resource running n (S k)
          end
      end
  end.

Definition wait_resource (fuel : nat) (crm_mon_at : nat -> Result HaError string) (resource : string) (running : bool) : option (Result HaError unit) :=
  wait_polls fuel crm_mon_at resource running (WAIT_SEC / WAIT_DELAY) 0.
End commands.

(** * What is printed is read *)

(** ** Records *)

Definition bool_text (b : bool) : string := if b then "true" else "false".

Lemma parse_bool_text b : parse_bool (bool_text b) = Ok b.
Proof. by destruct b. Qed.

Lemma parse_fmt_unsigned max z : 0 <= z <= max -> from_str_radix 10 0 max (fmt_int z) = Ok z.
Proof.
  intros Hz. pose proof (parse_fmt_int (-1) max z ltac:(lia) ltac:(lia)) as H. revert H. unfold fmt_int.
  destruct z as [|p|p]; [done| |lia]. cbn [pretty pretty_Z]. rewrite pretty_pos. destruct (pretty_N_go_head (Npos p) "") as (d & r & Hd & E); [done|].
  rewrite E. unfold from_str_radix. assert (Ascii.eqb (pretty_N_char d) "-" = false) as ->; [|by cbn [andb]; intros ->].
  do 10 (destruct d as [|d] using N.peano_ind; [done|clear IHd]). lia.
Qed.

Lemma parse_u32_fmt z : 0 <= z < 2 ^ 32 -> parse_u32 (fmt_int z) = Ok z.
Proof. intros Hz. unfold parse_u32. by rewrite parse_fmt_unsigned by lia. Qed.

Lemma parse_i32_fmt z : - 2 ^ 31 <= z < 2 ^ 31 -> parse_i32 (fmt_int z) = Ok z.
Proof. intros Hz. unfold parse_i32. by rewrite parse_fmt_int by lia. Qed.

(** The attributes that are read. *)
Definition node_map (n : Node) : list (string * string) :=
  [("name", n_name n); ("id", n_id n); ("online", bool_text (n_online n)); ("standby", bool_text (n_standby n));
   ("standby_onfail", bool_text (n_standby_onfail n)); ("maintenance", bool_text (n_maintenance n)); ("pending", bool_text (n_pending n));
   ("unclean", bool_text (n_unclean n)); ("shutdown", bool_text (n_shutdown n)); ("expected_up", bool_text (n_expected_up n));
   ("is_dc", bool_text (n_is_dc n)); ("resources_running", fmt_int (n_resources_running n)); ("type", NodeType_to_string (n_type n))].

Definition resource_map (r : Resource) : list (string * string) :=
  [("id", r_id r); ("resource_agent", r_resource_agent r); ("role", r_role r); ("active", bool_text (r_active r));
   ("orphaned", bool_text (r_orphaned r)); ("managed", bool_text (r_managed r)); ("failed", bool_text (r_failed r));
   ("failure_ignored", bool_text (r_failure_ignored r)); ("nodes_running_on", fmt_int (r_nodes_running_on r))].

Definition ban_map (b : Ban) : list (string * string) :=
  [("id", b_id b); ("resource", b_resource b); ("node", b_node b); ("weight", fmt_int (b_weight b)); ("master_only", bool_text (b_master_only b))].

Definition node_fits (n : Node) : Prop := 0 <= n_resources_running n < 2 ^ 32.
Definition resource_fits (r : Resource) : Prop := 0 <= r_nodes_running_on r < 2 ^ 32.

(** [shows attrs kvs]: the attributes of an element have different names, as XML asks, and
    those of [kvs] are among them, in any order and with any others. *)
Definition readable (attrs : Attributes) (l : list (string * string)) : Prop := attrs = (Ok <$> l) /\ NoDup l.*1.
Definition shows (attrs : Attributes) (kvs : list (string * string)) : Prop := exists l, readable attrs l /\ forall kv, kv ∈ kvs -> kv ∈ l.

Lemma attrs_from_lookup l : forall acc, NoDup l.*1 -> exists m, attrs_from acc (Ok <$> l) = Ok m /\
  (forall k v, (k, v) ∈ l -> m !! k = Some v) /\ (forall k, k ∉ l.*1 -> m !! k = acc !! k).
Proof.
  induction l as [|[k v] l IH]; intros acc Hd.
  - exists acc. split; [done|]. split; [intros ? ? H%elem_of_nil; done|done].
  - apply NoDup_cons in Hd as [Hk Hd]. destruct (IH (<[k := v]> acc) Hd) as (m & E & H1 & H2). exists m. split; [done|]. split.
    + intros k' v' [[= -> ->]|H]%elem_of_cons; [|by apply H1]. by rewrite H2, lookup_insert_eq.
    + intros k' Hk'. cbn in Hk'. rewrite H2, lookup_insert_ne; [done| |]; set_solver.
Qed.

Lemma readable_map attrs l : readable attrs l -> exists m, attrs_to_hashmap attrs = Ok m /\ forall k v, m !! k = Some v <-> (k, v) ∈ l.
Proof.
  intros [-> Hd]. destruct (attrs_from_lookup l ∅ Hd) as (m & E & H1 & H2). exists m. split; [done|]. intros k v. split; [|apply H1].
  intros Hm. destruct (decide (k ∈ l.*1)) as [([k' v'] & -> & Hin)%list_elem_of_fmap|Hn].
  - pose proof (H1 _ _ Hin) as E'. cbn in *. congruence.
  - rewrite H2, lookup_empty in Hm by done. done.
Qed.

Lemma shows_map attrs kvs : shows attrs kvs -> exists m, attrs_to_hashmap attrs = Ok m /\ Forall (fun kv => m !! kv.1 = Some kv.2) kvs.
Proof.
  intros (l & Hl & Hin). destruct (readable_map _ _ Hl) as (m & E & Hm). exists m. split; [done|]. apply Forall_forall.
  intros [k v] Hkv. by apply Hm, Hin.
Qed.

Ltac read_shown H :=
  destruct (shows_map _ _ H) as (m & -> & Hm); cbn [mbind Result_bind];
  rewrite ?Forall_cons in Hm; cbn [fst snd] in Hm; destruct_and! Hm; unfold required_bool, required_arg;
  repeat first
    [ match goal with E : _ !! _ = Some _ |- _ => rewrite E; clear E end
    | rewrite parse_bool_text | rewrite parse_u32_fmt by done | rewrite parse_i32_fmt by done
    | progress cbn -[parse_bool bool_text fmt_int parse_u32 parse_i32 NodeType_try_from lookup] ].

Lemma node_read n attrs : node_fits n -> shows attrs (node_map n) -> (m ← attrs_to_hashmap attrs; node_from_map m) = Ok n.
Proof. intros Hn Hs. unfold node_from_map, node_map in *. read_shown Hs. by destruct n as [? ? ? ? ? ? ? ? ? ? ? ? []]. Qed.

(** Without the node that a resource runs on. *)
Definition no_active_node (r : Resource) : Resource := with_active_node None None r.

Lemma resource_read r attrs : resource_fits r -> shows attrs (resource_map r) ->
  (m ← attrs_to_hashmap attrs; resource_from_map m) = Ok (no_active_node r).
Proof. intros Hr Hs. unfold resource_from_map, resource_map in *. by read_shown Hs. Qed.


(** ** Documents *)

(** What the readers of nodes and bans pass over. *)
Definition aside (element list : string) (e : Event) : Prop :=
  match e with EvEmpty name _ => name <> element | EvEnd name => name <> list | EvEof => False | _ => True end.

(** The inside of [<nodes>] and of [<bans>]. *)
Inductive nodes_print : Reader -> list Node -> Prop :=
  | np_nil : nodes_print [] []
  | np_node attrs n evs ns : node_fits n -> shows attrs (node_map n) -> nodes_print evs ns -> nodes_print (Ok (EvEmpty "node" attrs) :: evs) (n :: ns)
  | np_aside e evs ns : aside "node" "nodes" e -> nodes_print evs ns -> nodes_print (Ok e :: evs) ns.


(** What the reader of resources passes over: text, comments and other elements, such as a group
    around resources. *)
Definition neutral (e : Event) : Prop :=
  match e with
  | EvStart name _ => name <> "resource" /\ name <> "clone"
  | EvEmpty name _ => name <> "node" /\ name <> "resource"
  | EvEnd name => name <> "resource" /\ name <> "clone" /\ name <> "resources"
  | EvOther => True
  | EvEof => False
  end.

(** The node that a resource runs on, with what is said of it. *)
Definition active_node (attrs : Attributes) (r : Resource) : Prop :=
  exists l, readable attrs l /\ (forall v, ("name", v) ∈ l <-> r_active_node_name r = Some v) /\ (forall v, ("id", v) ∈ l <-> r_active_node_id r = Some v).

(** An element inside a resource: one that is passed over, or one more node. *)
Definition inside (e : Event) : Prop := neutral e \/ exists attrs l, e = EvEmpty "node" attrs /\ readable attrs l.

(** A resource: an empty element, one that names no node, or one whose last node is where it
    runs. *)
Inductive resource_prints (r : Resource) : Reader -> Prop :=
  | rp_empty attrs : shows attrs (resource_map r) -> r = no_active_node r -> resource_prints r [Ok (EvEmpty "resource" attrs)]
  | rp_nowhere attrs evs : shows attrs (resource_map r) -> r = no_active_node r -> Forall neutral evs ->
      resource_prints r (Ok (EvStart "resource" attrs) :: (Ok <$> evs) ++ [Ok (EvEnd "resource")])%list
  | rp_active attrs pre node post : shows attrs (resource_map r) -> active_node node r -> Forall inside pre -> Forall neutral post ->
      resource_prints r (Ok (EvStart "resource" attrs) :: (Ok <$> pre) ++ Ok (EvEmpty "node" node) :: (Ok <$> post) ++ [Ok (EvEnd "resource")])%list.

Inductive resources_print : Reader -> list Resource -> Prop :=
  | rsp_nil : resources_print [] []
  | rsp_resource es r evs rs : resource_fits r -> resource_prints r es -> resources_print evs rs -> resources_print (es ++ evs)%list (r :: rs)
  | rsp_neutral e evs rs : neutral e -> resources_print evs rs -> resources_print (Ok e :: evs) rs.

(** A resource, alone or in a group, or the instances of a clone. *)
Inductive Item : Type :=
  | Single (r : Resource)
  | Clone (rs : list Resource).

Definition item_resources (i : Item) : list Resource := match i with Single r => [r] | Clone rs => rs end.

(** The inside of [<resources>]. *)
Inductive items_print : Reader -> list Item -> Prop :=
  | ip_nil : items_print [] []
  | ip_single es r evs items : resource_fits r -> resource_prints r es -> items_print evs items -> items_print (es ++ evs)%list (Single r :: items)
  | ip_clone attrs es rs evs items : resources_print es rs -> items_print evs items ->
      items_print (Ok (EvStart "clone" attrs) :: es ++ Ok (EvEnd "clone") :: evs)%list (Clone rs :: items)
  | ip_neutral e evs items : neutral e -> items_print evs items -> items_print (Ok e :: evs) items.

(** The instances of a clone are numbered. *)
Fixpoint numbered (k : Z) (rs : list Resource) : list Resource :=
  match rs with [] => [] | r :: rs => with_id (r_id r +:+ ":" +:+ fmt_int k) r :: numbered (k + 1) rs end.
Definition item_read (i : Item) : list Resource := match i with Single r => [r] | Clone rs => numbered 0 rs end.

(** Elements that the reader passes over at the top of a document. *)
Definition passed (stop : list string) (e : Result HaError Event) : Prop :=
  exists ev, e = Ok ev /\ match ev with EvStart name _ => name ∉ stop | EvEof => False | _ => True end.

Record Document : Type := MkDocument { d_nodes : list Node; d_items : list Item }.

(** A document with the nodes and items of [d], and anything else around them. *)
Inductive document_prints (d : Document) : Reader -> Prop :=
  | document_of pre a nevs mid b revs post :
      Forall (passed ["nodes"; "resources"]) pre -> nodes_print nevs (d_nodes d) ->
      Forall (passed ["nodes"; "resources"]) mid -> items_print revs (d_items d) ->
      Forall (passed ["nodes"; "resources"]) post ->
      document_prints d (pre ++ Ok (EvStart "nodes" a) :: nevs ++ Ok (EvEnd "nodes") ::
        mid ++ Ok (EvStart "resources" b) :: revs ++ Ok (EvEnd "resources") :: post)%list.


(** ** Reading them *)

Lemma read_nodes_printed evs ns : nodes_print evs ns -> forall fuel xs rest, (length evs < fuel)%nat ->
  read_nodes fuel (evs ++ Ok (EvEnd "nodes") :: rest)%list xs = Some (Ok ((xs ++ ns)%list, rest)).
Proof.
  induction 1 as [|attrs n evs ns Hf Hs _ IH|e evs ns He _ IH]; intros [|fuel] xs rest Hl; cbn [length] in Hl; try lia.
  - by rewrite app_nil_r.
  - cbn -[attrs_to_hashmap]. rewrite (node_read n) by done. rewrite IH by lia. by rewrite <-app_assoc.
  - cbn [app read_nodes read_event]. destruct e as [|name ?|name| |]; cbn [aside] in He; try done; try (apply IH; lia).
    + rewrite (proj2 (String.eqb_neq name "node")) by done. apply IH. lia.
    + rewrite (proj2 (String.eqb_neq name "nodes")) by done. apply IH. lia.
Qed.


Lemma read_neutral e fuel rest xs cur k : neutral e ->
  read_resources (S fuel) (Ok e :: rest) xs cur k = read_resources fuel rest xs cur k.
Proof.
  intros He. cbn [read_resources read_event]. destruct e as [name ?|name ?|name| |]; cbn [neutral] in He; try done.
  - destruct He. rewrite (proj2 (String.eqb_neq name "resource")), (proj2 (String.eqb_neq name "clone")) by done. done.
  - destruct He. rewrite (proj2 (String.eqb_neq name "node")), (proj2 (String.eqb_neq name "resource")) by done. done.
  - destruct He as (? & ? & ?).
    rewrite (proj2 (String.eqb_neq name "resource")), (proj2 (String.eqb_neq name "clone")), (proj2 (String.eqb_neq name "resources")) by done. done.
Qed.

Lemma read_neutrals evs : Forall neutral evs -> forall fuel rest xs cur k,
  read_resources (length evs + fuel) ((Ok <$> evs) ++ rest)%list xs cur k = read_resources fuel rest xs cur k.
Proof. induction 1 as [|e evs He _ IH]; intros fuel rest xs cur k; [done|]. cbn [length Nat.add fmap list_fmap app]. rewrite read_neutral by done. apply IH. Qed.

(** The node of a resource that is being read. *)
Lemma read_node_printed attrs l fuel rest xs x k : readable attrs l -> exists a b,
  read_resources (S fuel) (Ok (EvEmpty "node" attrs) :: rest) xs (Some x) k = read_resources fuel rest xs (Some (with_active_node a b x)) k /\
  (forall v, a = Some v <-> ("name", v) ∈ l) /\ (forall v, b = Some v <-> ("id", v) ∈ l).
Proof.
  intros Hl. destruct (readable_map _ _ Hl) as (m & E & Hm). exists (m !! "name"), (m !! "id"). split; [|split; intros v; apply Hm].
  cbn -[attrs_to_hashmap lookup]. by rewrite E.
Qed.

Lemma read_inside evs : Forall inside evs -> forall fuel rest xs x k, exists a b,
  read_resources (length evs + fuel) ((Ok <$> evs) ++ rest)%list xs (Some x) k = read_resources fuel rest xs (Some (with_active_node a b x)) k.
Proof.
  induction 1 as [|e evs He _ IH]; intros fuel rest xs x k; [exists (r_active_node_name x), (r_active_node_id x); by destruct x|].
  cbn [length Nat.add fmap list_fmap app]. destruct He as [He|(attrs & l & -> & Hl)].
  - rewrite read_neutral by done. apply IH.
  - destruct (read_node_printed attrs l (length evs + fuel) ((Ok <$> evs) ++ rest)%list xs x k Hl) as (a & b & -> & _).
    destruct (IH fuel rest xs (with_active_node a b x) k) as (a' & b' & E). exists a', b'. exact E.
Qed.

(** A resource adds itself, with the number that is due. *)
Lemma read_resource_printed r es fuel xs k rest : resource_fits r -> resource_prints r es ->
  read_resources (length es + fuel) (es ++ rest)%list xs None k =
  read_resources fuel rest (xs ++ [(number_clone k r).1])%list None (number_clone k r).2.
Proof.
  intros Hf [attrs Hs Hr|attrs evs Hs Hr Hn|attrs pre node post Hs (l & Hl & Ha & Hb) Hi Hn].
  - cbn -[attrs_to_hashmap]. rewrite (resource_read r) by done. rewrite <-Hr. by destruct (number_clone k r).
  - cbn [length app]. rewrite length_app, length_fmap. cbn [length Nat.add]. cbn -[attrs_to_hashmap number_clone Nat.add].
    rewrite (resource_read r) by done. rewrite <-Hr, <-app_assoc, <-Nat.add_assoc, read_neutrals by done.
    cbn. by destruct (number_clone k r).
  - cbn [length app]. rewrite length_app, length_fmap. cbn [length]. rewrite length_app, length_fmap. cbn [length].
    replace (S (length pre + S (length post + 1)) + fuel)%nat with (S (length pre + (S (length post + S fuel))))%nat by lia.
    cbn -[attrs_to_hashmap number_clone Nat.add]. rewrite (resource_read r) by done. rewrite <-app_assoc.
    destruct (read_inside pre Hi (S (length post + S fuel)) ((Ok (EvEmpty "node" node) :: (Ok <$> post) ++ [Ok (EvEnd "resource")]) ++ rest)%list
      xs (no_active_node r) k) as (a & b & ->). cbn [app].
    destruct (read_node_printed node l (length post + S fuel) (((Ok <$> post) ++ [Ok (EvEnd "resource")]) ++ rest)%list xs
      (with_active_node a b (no_active_node r)) k Hl) as (a' & b' & -> & Ha' & Hb').
    rewrite <-app_assoc, read_neutrals by done.
    assert (a' = r_active_node_name r) as -> by (apply option_eq; intros v; by rewrite Ha', Ha).
    assert (b' = r_active_node_id r) as -> by (apply option_eq; intros v; by rewrite Hb', Hb).
    cbn. replace (with_active_node _ _ _) with r by (by destruct r). by destruct (number_clone k r).
Qed.

Lemma read_resources_printed evs rs : resources_print evs rs -> forall fuel xs k rest,
  read_resources (length evs + fuel) (evs ++ rest)%list xs None k =
  read_resources fuel rest (xs ++ if 0 <=? k then numbered k rs else rs)%list None (if 0 <=? k then k + Z.of_nat (length rs) else k).
Proof.
  induction 1 as [|es r evs rs Hf Hr _ IH|e evs rs He _ IH]; intros fuel xs k rest.
  - cbn [numbered app length Z.of_nat Nat.add]. by case_match; rewrite app_nil_r, ?Z.add_0_r.
  - rewrite length_app, <-Nat.add_assoc, <-app_assoc, (read_resource_printed r) by done. rewrite IH.
    unfold number_clone. destruct (0 <=? k) eqn:Ek; cbn [fst snd].
    + apply Z.leb_le in Ek. rewrite (proj2 (Z.leb_le 0 (k + 1))) by lia. rewrite <-app_assoc. cbn [app numbered length].
      by replace (k + 1 + Z.of_nat (length rs)) with (k + Z.of_nat (S (length rs))) by lia.
    + rewrite Ek. by rewrite <-app_assoc.
  - cbn [length Nat.add app]. rewrite read_neutral by done. apply IH.
Qed.

Lemma read_items_printed evs items : items_print evs items -> forall fuel xs rest,
  read_resources (length evs + S fuel) (evs ++ Ok (EvEnd "resources") :: rest)%list xs None (-1) =
  Some (Ok ((xs ++ (items ≫= item_read))%list, rest)).
Proof.
  induction 1 as [|es r evs items Hf Hr _ IH|attrs es rs evs items Hr _ IH|e evs items He _ IH]; intros fuel xs rest.
  - cbn. by rewrite app_nil_r.
  - rewrite length_app, <-Nat.add_assoc, <-app_assoc, (read_resource_printed r) by done. cbn [number_clone Z.leb Z.compare fst snd].
    rewrite IH, <-app_assoc. done.
  - cbn [length app]. rewrite length_app. cbn [length]. replace (S (length es + S (length evs)) + S fuel)%nat with (S (length es + S (length evs + S fuel))) by lia.
    rewrite <-app_assoc. cbn -[Nat.add mbind]. rewrite (read_resources_printed es rs) by done.
    cbn -[Nat.add mbind]. rewrite IH, <-app_assoc. done.
  - cbn [length Nat.add app]. rewrite read_neutral by done. apply IH.
Qed.

Lemma read_crm_passed pre : forall fuel rest c, Forall (passed ["nodes"; "resources"]) pre -> (length pre <= fuel)%nat ->
  exists fuel', (fuel' + length pre = fuel)%nat /\ read_crm fuel (pre ++ rest)%list c = read_crm fuel' rest c.
Proof.
  induction pre as [|e pre IH]; intros fuel rest c Hf Hl; [exists fuel; split; [cbn; lia|done]|].
  inversion Hf as [|? ? (ev & -> & Hp) Hpre]; subst. cbn [length] in *. destruct fuel as [|fuel]; [lia|].
  destruct (IH fuel rest c Hpre ltac:(lia)) as (f1 & E1 & E). exists f1. split; [lia|]. rewrite <-E. cbn [app read_crm read_event].
  destruct ev as [name attrs| | | |]; try done. destruct (String.eqb name "nodes") eqn:E2; [apply String.eqb_eq in E2; set_solver|].
  destruct (String.eqb name "resources") eqn:E3; [apply String.eqb_eq in E3; set_solver|done].
Qed.

Lemma read_crm_nodes a evs ns fuel rest c : nodes_print evs ns -> (length evs < fuel)%nat ->
  read_crm (S fuel) (Ok (EvStart "nodes" a) :: evs ++ Ok (EvEnd "nodes") :: rest)%list c = read_crm fuel rest (with_nodes ns c).
Proof. intros Hn Hl. cbn [read_crm read_event]. change (String.eqb "nodes" "nodes") with true. cbn iota. by rewrite (read_nodes_printed evs ns). Qed.

Lemma read_crm_resources a evs items fuel rest c : items_print evs items -> (length evs < fuel)%nat ->
  read_crm (S fuel) (Ok (EvStart "resources" a) :: evs ++ Ok (EvEnd "resources") :: rest)%list c =
  read_crm fuel rest (with_resources (items ≫= item_read) c).
Proof.
  intros Hi Hl. cbn [read_crm read_event]. change (String.eqb "resources" "nodes") with false. change (String.eqb "resources" "resources") with true.
  cbn iota. replace fuel with (length evs + S (fuel - S (length evs)))%nat at 1 by lia. by rewrite (read_items_printed evs items).
Qed.

(** The cluster of a document. *)
Definition document_cluster (d : Document) : Cluster := MkCluster (d_nodes d) (d_items d ≫= item_read) [] ∅.

Lemma read_document d evs fuel : document_prints d evs -> (length evs < fuel)%nat -> read_crm fuel evs no_cluster = Some (Ok (document_cluster d)).
Proof.
  intros [pre a nevs mid b revs post Hpre Hn Hmid Hi Hpost] Hl.
  repeat (rewrite length_app in Hl; cbn [length] in Hl).
  match goal with |- read_crm _ (_ ++ ?r)%list _ = _ => destruct (read_crm_passed pre fuel r no_cluster Hpre ltac:(lia)) as (f1 & E1 & ->) end.
  destruct f1 as [|f1]; [lia|]. rewrite (read_crm_nodes a nevs (d_nodes d)) by (done || lia).
  match goal with |- read_crm _ (_ ++ ?r)%list ?c = _ => destruct (read_crm_passed mid f1 r c Hmid ltac:(lia)) as (f2 & E2 & ->) end.
  destruct f2 as [|f2]; [lia|]. rewrite (read_crm_resources b revs (d_items d)) by (done || lia).
  match goal with |- read_crm _ _ ?c = _ =>
    pose proof (read_crm_passed post f2 [] c Hpost ltac:(lia)) as (f3 & E3 & E); rewrite app_nil_r in E; rewrite E end.
  destruct f3 as [|f3]; [lia|done].
Qed.



(** ** The mount of a resource *)

Definition printed (m : list (string * string)) : Attributes := Ok <$> m.
Definition nvpair_event (kv : string * string) : Result HaError Event := Ok (EvEmpty "nvpair" (printed [("name", kv.1); ("value", kv.2)])).

(** The value of the last pair with the name. *)
Fixpoint last_value (name : string) (kvs : list (string * string)) (v : option string) : option string :=
  match kvs with [] => v | kv :: kvs => last_value name kvs (if String.eqb kv.1 name then Some kv.2 else v) end.

Lemma read_ra_pairs mk name kvs :
  (mk = RaDdn /\ name = "directory" \/ mk = RaLustre /\ name = "mountpoint") -> forall v rest,
  read_ra ((nvpair_event <$> kvs) ++ rest)%list (Some (mk v)) = read_ra rest (Some (mk (last_value name kvs v))).
Proof.
  intros Hm. induction kvs as [|[k w] kvs IH]; intros v rest; [done|]. cbn -[nvpair_ra attrs_to_hashmap]. unfold attrs_to_hashmap.
  cbn -[nvpair_ra insert lookup]. rewrite <-IH. f_equal. unfold nvpair_ra. rewrite lookup_insert_eq, lookup_insert_ne, lookup_insert_eq by done.
  destruct Hm as [[-> ->]|[-> ->]]; do 2 f_equal; case_bool_decide as E; cbn [fst snd].
  - injection E as ->. by rewrite String.eqb_refl.
  - rewrite (proj2 (String.eqb_neq k "directory")); [done|congruence].
  - injection E as ->. by rewrite String.eqb_refl.
  - rewrite (proj2 (String.eqb_neq k "mountpoint")); [done|congruence].
Qed.

(** ** A list that is not closed *)

(** The end of the file does not end the loop. *)
Lemma read_nodes_unclosed evs ns : nodes_print evs ns -> forall fuel xs, read_nodes fuel evs xs = None.
Proof.
  induction 1 as [|attrs n evs ns Hf Hs _ IH|e evs ns He _ IH]; intros fuel xs.
  - revert xs. by induction fuel as [|fuel IH]; intros xs; [|cbn; rewrite IH].
  - destruct fuel as [|fuel]; [done|]. cbn -[attrs_to_hashmap]. rewrite (node_read n) by done. apply IH.
  - destruct fuel as [|fuel]; [done|]. cbn [read_nodes read_event]. destruct e as [|name ?|name| |]; cbn [aside] in He; try done; try apply IH.
    + rewrite (proj2 (String.eqb_neq name "node")) by done. apply IH.
    + rewrite (proj2 (String.eqb_neq name "nodes")) by done. apply IH.
Qed.

Lemma read_crm_unclosed pre a evs ns fuel c : Forall (passed ["nodes"; "resources"]) pre -> nodes_print evs ns ->
  read_crm fuel (pre ++ Ok (EvStart "nodes" a) :: evs)%list c = None.
Proof.
  revert fuel. induction pre as [|e pre IH]; intros fuel Hp Hn; (destruct fuel as [|fuel]; [done|]); cbn [app read_crm read_event].
  - change (String.eqb "nodes" "nodes") with true. cbn iota. by rewrite (read_nodes_unclosed evs ns).
  - inversion Hp as [|? ? (ev & -> & He) Hpre]; subst. destruct ev as [name attrs| | | |]; try (by apply IH); [|done].
    destruct (String.eqb name "nodes") eqn:E2; [apply String.eqb_eq in E2; set_solver|].
    destruct (String.eqb name "resources") eqn:E3; [apply String.eqb_eq in E3; set_solver|by apply IH].
Qed.

(** * The session *)

Section session.
Context (events : string -> Reader).



(** Without [crm_mon], or when no line names the local node, nothing is reported. *)
Lemma session_silent w fuel cfg : has_cfgtool w = true -> cfgtool w = Ok cfg -> has_crm_mon w = false -> update_session events fuel w = Some (Ok None).
Proof. intros H1 H2 H3. unfold update_session, get_local_nodeid, get_crm_mon. rewrite H1, H2, H3. cbn. by destruct (parse_local_nodeid_output cfg). Qed.

(** A document that ends inside the list of nodes: the session never answers. *)
Theorem unclosed_document_hangs w pre a evs ns mon fuel : Forall (passed ["nodes"; "resources"]) pre -> nodes_print evs ns ->
  has_cfgtool w = false -> has_crm_mon w = true -> crm_mon w = Ok mon ->
  events mon = (pre ++ Ok (EvStart "nodes" a) :: evs)%list -> update_session events fuel w = None.
Proof.
  intros Hp Hn H1 H2 H3 E. unfold update_session, get_local_nodeid, get_crm_mon. rewrite H1, H2, H3. unfold read_crm_output. rewrite E.
  by rewrite (read_crm_unclosed pre a evs ns).
Qed.

(** ** Waiting *)

(** The role is reached at the call [k], at none before it. *)
Lemma wait_polls_spec fuel crm_mon_at clusters resource running n : forall k,
  (forall j, (k <= j < k + n)%nat -> exists output, crm_mon_at j = Ok output /\ read_crm_output events fuel output = Some (Ok (clusters j))) ->
  wait_polls events fuel crm_mon_at resource running n k = Some (Ok tt) <-> exists j, (k <= j < k + n)%nat /\ settled resource running (clusters j) = true.
Proof.
  induction n as [|n IH]; intros k Hc; cbn [wait_polls]; [split; [done|intros (j & ? & _); lia]|].
  destruct (Hc k ltac:(lia)) as (output & -> & ->). destruct (settled resource running (clusters k)) eqn:Es.
  - split; [|done]. intros _. exists k. split; [lia|done].
  - rewrite IH by (intros j Hj; apply Hc; lia). split; intros (j & Hj & Ej); exists j; (split; [|done]); [lia|].
    destruct (decide (j = k)) as [->|]; [congruence|lia].
Qed.

Theorem wait_resource_iff fuel crm_mon_at clusters resource running :
  (forall j, (j < 150)%nat -> exists output, crm_mon_at j = Ok output /\ read_crm_output events fuel output = Some (Ok (clusters j))) ->
  wait_resource events fuel crm_mon_at resource running = Some (Ok tt) <-> exists j, (j < 150)%nat /\ settled resource running (clusters j) = true.
Proof.
  intros Hc. unfold wait_resource. change (WAIT_SEC / WAIT_DELAY)%nat with 150%nat. rewrite (wait_polls_spec fuel crm_mon_at clusters).
  - split; intros (j & Hj & Ej); exists j; (split; [lia|done]).
  - intros j Hj. apply Hc. lia.
Qed.
End session.

(** The instances of a clone, which are printed under one name and numbered by the reader, are
    all waited for under that name. *)
Lemma split_numbered s k : contains_char ":" s = false -> head (str_split ":" (s +:+ ":" +:+ fmt_int k)) = Some s.
Proof. intros Hs. change (":" +:+ fmt_int k) with (String ":" (fmt_int k)). by rewrite str_split_app. Qed.

Definition item_role (resource : string) (r : Resource) : option string := if String.eqb (r_id r) resource then Some (r_role r) else None.

Definition role_of (resource : string) (r : Resource) : option string :=
  if String.eqb (default "" (head (str_split ":" (r_id r)))) resource then Some (r_role r) else None.

Lemma numbered_roles resource rs : Forall (fun r => contains_char ":" (r_id r) = false) rs -> forall k,
  omap (role_of resource) (numbered k rs) = omap (item_role resource) rs.
Proof.
  induction 1 as [|r rs Hr _ IH]; intros k; [done|]. cbn [numbered omap list_omap]. unfold role_of at 1. cbn [with_id r_id r_role].
  rewrite split_numbered by done. cbn [default]. unfold omap in IH. by rewrite IH.
Qed.

Lemma plain_roles resource rs : Forall (fun r => contains_char ":" (r_id r) = false) rs -> omap (role_of resource) rs = omap (item_role resource) rs.
Proof.
  induction 1 as [|r rs Hr _ IH]; [done|]. assert (role_of resource r = item_role resource r) as E by (unfold role_of; by rewrite str_split_no_sep).
  cbn -[role_of item_role]. by rewrite E, IH.
Qed.

Theorem settled_document d resource running :
  Forall (fun i => Forall (fun r => contains_char ":" (r_id r) = false) (item_resources i)) (d_items d) ->
  settled resource running (document_cluster d) = true <->
  (exists r, r ∈ d_items d ≫= item_resources /\ r_id r = resource) /\
  (forall r, r ∈ d_items d ≫= item_resources -> r_id r = resource -> r_role r = if running then "Started" else "Stopped").
Proof.
  intros Hi. assert (stati resource (document_cluster d) = omap (item_role resource) (d_items d ≫= item_resources)) as E.
  { unfold stati. change (omap (role_of resource) (d_items d ≫= item_read) = omap (item_role resource) (d_items d ≫= item_resources)).
    induction Hi as [|i items Hr _ IH]; [done|]. rewrite !bind_cons, !omap_app, IH. f_equal.
    destruct i as [r|rs]; cbn [item_read item_resources]; [by apply (plain_roles _ [r])|by apply numbered_roles]. }
  unfold settled. rewrite E. set (check := if running then "Started" else "Stopped").
  assert (forall s, s ∈ omap (item_role resource) (d_items d ≫= item_resources) <-> exists r, r ∈ d_items d ≫= item_resources /\ r_id r = resource /\ r_role r = s)
    as Hs.
  { intros s. rewrite list_elem_of_omap. unfold item_role. split; intros (r & Hr & H); exists r; (split; [done|]).
    - destruct (String.eqb_spec (r_id r) resource); [by split; [|injection H]|done].
    - destruct H as [-> ->]. by rewrite String.eqb_refl. }
  destruct (omap (item_role resource) (d_items d ≫= item_resources)) as [|s ss] eqn:Eo.
  - split; [done|]. intros [(r & Hr & Hid) _]. destruct (not_elem_of_nil (r_role r)). apply Hs. by exists r.
  - rewrite forallb_forall. split.
    + intros Hall. split; [destruct (proj1 (Hs s) ltac:(set_solver)) as (r & ? & ? & ?); by exists r|]. intros r Hr Hid. symmetry. apply String.eqb_eq, Hall.
      apply list_elem_of_In, Hs. by exists r.
    + intros [_ Hr] x Hx%list_elem_of_In. apply Hs in Hx as (r & H1 & H2 & <-). apply String.eqb_eq. symmetry. by apply Hr.
Qed.

(** ** Reports that the service can store *)

(** The names in the file: the instances of a clone have one. *)
Definition item_names (i : Item) : list string := match i with Single r => [r_id r] | Clone rs => take 1 (r_id <$> rs) end.

Definition names_ok (i : Item) : Prop :=
  Forall (fun r => contains_char ":" (r_id r) = false) (item_resources i) /\
  match i with Clone rs => exists name, Forall (fun r => r_id r = name) rs | _ => True end.

(** The name that an identifier was made from. *)
Definition base_name (id : string) : string := default "" (head (str_split ":" id)).

Lemma base_numbered s k : contains_char ":" s = false -> base_name (s +:+ ":" +:+ fmt_int k) = s.
Proof. intros Hs. unfold base_name. by rewrite split_numbered. Qed.

Lemma base_plain s : contains_char ":" s = false -> base_name s = s.
Proof. intros Hs. unfold base_name. by rewrite str_split_no_sep. Qed.

Lemma numbered_ids name rs : Forall (fun r => r_id r = name) rs -> forall k id,
  id ∈ r_id <$> numbered k rs -> exists j, k <= j < k + Z.of_nat (length rs) /\ id = name +:+ ":" +:+ fmt_int j.
Proof.
  induction 1 as [|r rs Hr _ IH]; intros k id; cbn [numbered length]; [intros H%elem_of_nil; done|]. rewrite fmap_cons, elem_of_cons.
  intros [->|Hin]; [exists k; split; [lia|]; cbn; by rewrite Hr|]. destruct (IH _ _ Hin) as (j & Hj & ->). exists j. split; [lia|done].
Qed.

Lemma numbered_nodup name rs k : Forall (fun r => r_id r = name) rs -> NoDup (r_id <$> numbered k rs).
Proof.
  intros Hf. revert k. induction Hf as [|r rs Hr Hf IH]; intros k; [constructor|]. cbn [numbered]. rewrite fmap_cons. constructor; [|apply IH].
  intros Hin. destruct (numbered_ids name rs Hf _ _ Hin) as (j & Hj & E). cbn in E. rewrite Hr in E. apply (inj (String.append name)) in E.
  apply (inj (String.append ":")) in E. apply (inj pretty) in E. lia.
Qed.

(** The identifiers of an item come from its names. *)
Lemma item_base i id : names_ok i -> id ∈ r_id <$> item_read i -> base_name id ∈ item_names i.
Proof.
  intros [Hc Hn] Hid. assert (forall rs, Forall (fun r => contains_char ":" (r_id r) = false) rs -> id ∈ r_id <$> rs -> base_name id ∈ r_id <$> rs) as Hplain.
  { intros rs Hrs Hin. rewrite base_plain; [done|]. apply list_elem_of_fmap in Hin as (r & -> & Hr). rewrite Forall_forall in Hrs. by apply Hrs. }
  destruct i as [r|rs]; cbn [item_read item_names item_resources] in *; [by apply (Hplain [r])|].
  destruct Hn as [name Hn]. destruct (numbered_ids name rs Hn _ _ Hid) as (j & Hj & ->). destruct rs as [|r rs]; [cbn in Hj; lia|].
  inversion Hn; inversion Hc; subst. rewrite base_numbered by done. cbn. set_solver.
Qed.

Lemma item_nodup i : names_ok i -> NoDup (item_names i) -> NoDup (r_id <$> item_read i).
Proof.
  intros [_ Hn] Hd. destruct i as [r|rs]; cbn [item_read item_names] in *; [done|]. destruct Hn as [name Hn]. by apply (numbered_nodup name).
Qed.

(** Numbers tell the instances of a clone apart: the resources of a report have different
    identifiers when the names in the file are different. *)
Lemma document_ids_nodup items : Forall names_ok items -> NoDup (items ≫= item_names) -> NoDup (r_id <$> (items ≫= item_read)).
Proof.
  induction 1 as [|i items Hi Hall IH]; intros Hd; [constructor|]. rewrite bind_cons in Hd. rewrite bind_cons, fmap_app.
  apply NoDup_app in Hd as (H1 & H2 & H3). apply NoDup_app. split; [by apply item_nodup|]. split; [|by apply IH].
  intros id Hid Hrest. apply (H2 (base_name id)); [by apply item_base|]. apply list_elem_of_fmap in Hrest as (r & -> & Hr).
  apply list_elem_of_bind in Hr as (i' & Hr & Hi'). rewrite Forall_forall in Hall.
  apply list_elem_of_bind. exists i'. split; [|done]. apply item_base; [by apply Hall|by apply list_elem_of_fmap_2].
Qed.

(** A report with different nodes, names and bans does not end the service. *)
Theorem report_storable hosts fqdn id d bs mounts t : clusters_ok t -> Forall names_ok (d_items d) ->
  NoDup (node_key <$> d_nodes d) -> NoDup (d_items d ≫= item_names) -> NoDup ((fun b => (b_id b, b_resource b, b_node b)) <$> bs) ->
  exists t', corosync_message hosts fqdn id (MkCluster (d_nodes d) (d_items d ≫= item_read) bs mounts) t = Some t'.
Proof.
  intros Hok Hi Hn Hd Hb. unfold corosync_message. destruct (_ <$> find_host fqdn hosts) as [h|]; [|by exists t].
  destruct (snd <$> list_find _ _) as [n|]; [|by exists t]. apply store_cluster_total; cbn; [done|done|by apply document_ids_nodup|done].
Qed.

(** * Witnesses *)

Definition sample_primitive : Reader :=
  ([Ok (EvStart "primitive" (printed [("id", "fs-OST0000"); ("class", "ocf"); ("provider", "lustre"); ("type", "Lustre")])); Ok EvOther] ++
   (nvpair_event <$> [("target", "/dev/ost0"); ("mountpoint", "/lustre/ost0")]) ++ [Ok (EvEnd "primitive")])%list.

Definition stopped_resource (id : string) : Resource := MkResource id "ocf::heartbeat:Dummy" "Stopped" false false true false false 0 None None.

(** Like what the repository's tests read: attributes in another order than the fields, others
    between them, a clone and a group with attributes of their own, elements around the lists. *)
Definition mon_attrs (extra m : list (string * string)) : Attributes := printed (extra ++ rev m)%list.
Definition node_element (n : Node) : Result HaError Event := Ok (EvEmpty "node" (mon_attrs [("feature_set", "3.0.14")] (node_map n))).
Definition stopped_element (id : string) : Result HaError Event :=
  Ok (EvEmpty "resource" (mon_attrs [("blocked", "false"); ("target_role", "Stopped")] (resource_map (stopped_resource id)))).

Definition sample_mon : Reader :=
  [Ok EvOther; Ok (EvStart "crm_mon" (printed [("version", "1.1.21")])); Ok (EvStart "summary" []);
   Ok (EvEmpty "nodes_configured" (printed [("number", "2")])); Ok (EvEnd "summary");
   Ok (EvStart "nodes" []); node_element (sample_node "1" "oss1"); node_element (sample_node "2" "oss2"); Ok (EvEnd "nodes");
   Ok (EvStart "resources" []);
   Ok (EvStart "resource" (mon_attrs [("blocked", "false")] (resource_map (sample_resource "fs-OST0000"))));
   Ok (EvEmpty "node" (printed ([("cached", "false")] ++ match r_active_node_name (sample_resource "fs-OST0000") with Some n => [("name", n)] | None => [] end
     ++ match r_active_node_id (sample_resource "fs-OST0000") with Some n => [("id", n)] | None => [] end)%list)); Ok (EvEnd "resource");
   Ok (EvStart "clone" (printed [("id", "cl-check"); ("managed", "true"); ("target_role", "Stopped")])); stopped_element "check"; stopped_element "check"; Ok (EvEnd "clone");
   Ok (EvStart "group" (printed [("id", "docker-grp"); ("number_resources", "1")])); stopped_element "docker"; Ok (EvEnd "group");
   Ok (EvEnd "resources"); Ok (EvStart "node_history" []); Ok (EvStart "node" (printed [("name", "oss1")])); Ok (EvEnd "node");
   Ok (EvEnd "node_history"); Ok (EvEnd "crm_mon")].

Definition sample_document : Document :=
  MkDocument [sample_node "1" "oss1"; sample_node "2" "oss2"]
    [Single (sample_resource "fs-OST0000"); Clone [stopped_resource "check"; stopped_resource "check"]; Single (stopped_resource "docker")].

Definition sample_ban : Ban := MkBan "ban1" "fs-OST0000" "oss2" (-1000000) false.

Definition sample_neg : Reader :=
  [Ok (EvStart "crm_mon" []); Ok (EvStart "bans" []); Ok (EvEmpty "ban" (printed (ban_map sample_ban))); Ok (EvEnd "bans"); Ok (EvEnd "crm_mon")].

(** The texts stand for the documents. *)
Definition sample_events (s : string) : Reader :=
  if String.eqb s "mon" then sample_mon
  else if String.eqb s "neg" then sample_neg
  else if String.eqb s "cut" then [Ok (EvStart "crm_mon" []); Ok (EvStart "nodes" []); node_element (sample_node "1" "oss1")]
  else if String.eqb s "<primitive>" then sample_primitive else [].


Lemma mon_attrs_shows extra m : NoDup (extra ++ rev m)%list.*1 -> shows (mon_attrs extra m) m.
Proof.
  intros Hd. exists (extra ++ rev m)%list. split; [by split|]. intros kv Hkv. apply elem_of_app. right.
  apply list_elem_of_In, in_rev. rewrite rev_involutive. by apply list_elem_of_In.
Qed.

Ltac solve_shows := apply mon_attrs_shows; apply (bool_decide_unpack _); by vm_compute.
Ltac solve_passed := repeat (constructor; [eexists; split; [reflexivity|]; cbn; try done; apply (bool_decide_unpack _); by vm_compute|]); constructor.

Lemma sample_document_prints : document_prints sample_document sample_mon.
Proof.
  apply (document_of sample_document (take 5 sample_mon) [] (take 2 (drop 6 sample_mon)) [] [] (take 10 (drop 10 sample_mon)) (drop 21 sample_mon)).
  - solve_passed.
  - apply np_node; [unfold node_fits; cbn; lia|solve_shows|]. apply np_node; [unfold node_fits; cbn; lia|solve_shows|]. apply np_nil.
  - constructor.
  - apply (ip_single [_; _; _]); [unfold resource_fits; cbn; lia| |].
    + apply (rp_active _ _ [] _ []); [solve_shows| |constructor..].
      eexists. split; [split; [reflexivity|apply (bool_decide_unpack _); by vm_compute]|]. split; intros v; vm_compute; set_solver.
    + apply (ip_clone _ [_; _]).
      { apply (rsp_resource [_]); [unfold resource_fits; cbn; lia|apply rp_empty; [solve_shows|done]|].
        apply (rsp_resource [_] _ []); [unfold resource_fits; cbn; lia|apply rp_empty; [solve_shows|done]|]. apply rsp_nil. }
      apply ip_neutral; [done|]. apply (ip_single [_]); [unfold resource_fits; cbn; lia|apply rp_empty; [solve_shows|done]|].
      apply ip_neutral; [done|]. apply ip_nil.
  - solve_passed.
Qed.



Lemma unclosed_document_hangs_witness :
  update_session sample_events 1000 (MkHaWorld false true (Err XmlError) (Ok "cut") (fun _ => Err XmlError) (Err XmlError)) = None.
Proof.
  apply (unclosed_document_hangs sample_events _ [Ok (EvStart "crm_mon" [])] [] [node_element (sample_node "1" "oss1")] [sample_node "1" "oss1"] "cut" 1000);
    try reflexivity.
  - solve_passed.
  - apply np_node; [unfold node_fits; cbn; lia|solve_shows|apply np_nil].
Defined.

(** Both clones are waited for. *)
Lemma wait_resource_witness : wait_resource sample_events 40 (fun _ => Ok "mon") "check" false = Some (Ok tt).
Proof.
  apply (wait_resource_iff sample_events 40 (fun _ => Ok "mon") (fun _ => document_cluster sample_document) "check" false).
  - intros j _. exists "mon". split; [done|]. apply read_document; [exact sample_document_prints|]. by apply (bool_decide_unpack _); vm_compute.
  - exists 0%nat. split; [lia|by vm_compute].
Defined.
