(* ===== verification/HaActions.v ===== *)
(** * Resources of clusters ([iml-agent/src/action_plugins/high_availability/mod.rs])

    The agent lists, creates, moves, starts, stops and removes the resources of a cluster with
    pacemaker's commands. XML elements are an interface, the one of [Stonith] with the operations
    that build elements. What a command answers may depend on the commands before it. *)
From S2P Require Import Prelude RustStd Ldev Alerts FidActions Stonith Corosync CrmMon.
From stdpp Require Import base gmap sets list strings.
From Stdlib Require Import Ascii ZArith Lia.
Open Scope string_scope.
Open Scope Z_scope.

(** ** Elements that are built *)

Class ElementBuild (Element : Type) `{ElementTree Element} : Type := {
  new_element : string -> Element;
  set_attr : Element -> string -> string -> Element;
  append_child : Element -> Element -> Element }.

(** A tag is kept, an attribute is set, a child comes after those that are there. *)
Class ElementLaws (Element : Type) `{ElementBuild Element} : Prop := {
  tag_new t : tag (new_element t) = t;
  get_attr_new t k : get_attr (new_element t) k = None;
  find_all_new t n : find_all (new_element t) n = [];
  tag_set e k v : tag (set_attr e k v) = tag e;
  get_attr_set e k v k' : get_attr (set_attr e k v) k' = if String.eqb k k' then Some v else get_attr e k';
  find_all_set e k v n : find_all (set_attr e k v) n = find_all e n;
  tag_append e c : tag (append_child e c) = tag e;
  get_attr_append e c k : get_attr (append_child e c) k = get_attr e k;
  find_all_append e c n : find_all (append_child e c) n = (find_all e n ++ if String.eqb (tag c) n then [c] else [])%list }.

(** ** Agents and constraints ([iml-wire-types/src/lib.rs]) *)

Record ResourceAgentType : Type := MkAgentType { standard : string; provider : option string; ocftype : string }.

Definition ResourceAgentType_new (standard provider ocftype : option string) : ResourceAgentType :=
  MkAgentType (default "" standard) provider (default "" ocftype).

Record PacemakerOperations : Type := MkOperations { op_start : option string; op_monitor : option string; op_stop : option string }.

Definition is_any_some (o : PacemakerOperations) : bool :=
  bool_decide (is_Some (op_start o)) || bool_decide (is_Some (op_stop o)) || bool_decide (is_Some (op_monitor o)).

Record ResourceAgentInfo : Type := MkAgentInfo { ra_agent : ResourceAgentType; ra_id : string; ra_args : gmap string string; ra_ops : PacemakerOperations }.

Inductive OrderingKind : Type := Mandatory | Optional | Serialize.
Inductive PacemakerScore : Type := Infinity | ScoreValue (x : Z) | NegInfinity.
Inductive PacemakerKindOrScore : Type := PKind (k : OrderingKind) | PScore (s : PacemakerScore).
Inductive LossPolicy : Type := LossStop | LossDemote | LossFence | LossFreeze.
Inductive PacemakerActions : Type := ActStart | ActPromote | ActDemote | ActStop.

Definition OrderingKind_to_string (k : OrderingKind) : string :=
  match k with Mandatory => "Mandatory" | Optional => "Optional" | Serialize => "Serialize" end.
Definition PacemakerScore_to_string (s : PacemakerScore) : string :=
  match s with ScoreValue v => fmt_int v | Infinity => "INFINITY" | NegInfinity => "-INFINITY" end.
Definition LossPolicy_to_string (p : LossPolicy) : string :=
  match p with LossStop => "stop" | LossDemote => "demote" | LossFence => "fence" | LossFreeze => "freeze" end.
Definition PacemakerActions_to_string (a : PacemakerActions) : string :=
  match a with ActDemote => "demote" | ActPromote => "promote" | ActStart => "start" | ActStop => "stop" end.

Inductive ResourceConstraint : Type :=
  | Order (id first : string) (first_action : option PacemakerActions) (then_ : string) (then_action : option PacemakerActions)
      (kind : option PacemakerKindOrScore)
  | Location (id rsc node : string) (score : PacemakerScore)
  | Colocation (id rsc with_rsc : string) (score : PacemakerScore)
  | Ticket (id rsc ticket : string) (loss_policy : option LossPolicy).

(** ** Commands *)

Inductive Cmd : Type :=
  | CibAdmin (args : list string)
  | CrmResource (args : list string)
  | CrmMonXml.

#[export] Instance Cmd_eq_dec : EqDecision Cmd.
Proof. solve_decision. Defined.

Section actions.
Context {Element : Type} `{ElementBuild Element}.
(** The text of an element and back. *)
Context (to_string : Element -> Result HaError string) (from_reader : string -> Result HaError Element).
(** How the XML library cuts a text into events, and how many rounds its readers have. *)
Context (events : string -> Reader) (fuel : nat).
(** The order in which a [HashMap] is walked. *)
Context (iter : gmap string string -> list (string * string)).
(** The answer to a command, after those that were run. *)
Context (answer : list Cmd -> Cmd -> Result HaError string).

(** A computation adds its commands to those that were run; [None] is that it does not return. *)
Definition M (A : Type) : Type := list Cmd -> option (Result HaError A * list Cmd).

Definition done_with {A} (x : Result HaError A) : M A := fun h => Some (x, h).

Definition and_then {A B} (m : M A) (k : A -> M B) : M B := fun h =>
  match m h with
  | None => None
  | Some (Err e, h) => Some (Err e, h)
  | Some (Ok x, h) => k x h
  end.

Definition run (c : Cmd) : M string := fun h => Some (answer h c, (h ++ [c])%list).

(** The result as a value: [match m.await]. *)
Definition attempt {A} (m : M A) : M (Result HaError A) := fun h =>
  match m h with None => None | Some (x, h) => Some (Ok x, h) end.

Definition set_resource_role (resource : string) (running : bool) : M unit :=
  and_then (run (CrmResource ["--resource"; resource; "--set-parameter"; "target-role"; "--meta"; "--parameter-value";
                              if running then "Started" else "Stopped"])) (fun _ => done_with (Ok tt)).

Definition cibcreate (scope xml : string) : M unit :=
  and_then (run (CibAdmin ["--create"; "--scope"; scope; "--xml-text"; xml])) (fun _ => done_with (Ok tt)).

Definition cibxpath (op xpath : string) (extra : list string) : M string :=
  run (CibAdmin (["--" +:+ op; "--xpath"; xpath] ++ extra)%list).

Definition crm_resource (args : list string) : M string := run (CrmResource args).

(** ** Reading a resource *)

(** [collect] into a map: a later entry replaces an earlier one. *)
Definition collect {V} (xs : list (string * V)) : gmap string V := foldl (fun m kv => <[kv.1 := kv.2]> m) ∅ xs.

Definition create (elem : Element) : ResourceAgentInfo :=
  let ops := collect (find_all elem "operations" ≫= fun e =>
    (fun nv => (default "" (get_attr nv "name"), (get_attr nv "interval", get_attr nv "timeout"))) <$> find_all e "op") in
  MkAgentInfo (ResourceAgentType_new (get_attr elem "class") (get_attr elem "provider") (get_attr elem "type"))
    (default "" (get_attr elem "id"))
    (collect (find_all elem "instance_attributes" ≫= fun e =>
      (fun nv => (default "" (get_attr nv "name"), default "" (get_attr nv "value"))) <$> find_all e "nvpair"))
    (MkOperations (ops !! "start" ≫= snd) (ops !! "monitor" ≫= fst) (ops !! "stop" ≫= snd)).

Definition process_resource (output : string) : Result HaError ResourceAgentInfo := create <$> from_reader output.

(** Of the instances of a clone, the first. *)
Definition listed (res : string) : bool :=
  match str_split ":" res !! 1%nat with
  | Some n => match parse_i32 n with Ok z => z =? 0 | Err _ => false end
  | None => true
  end.

Definition resource_list : M (list string) :=
  and_then (attempt (crm_resource ["--list-raw"])) (fun res =>
  match res with
  | Err _ => done_with (Ok [])
  | Ok resources => done_with (Ok (List.filter listed (str_lines (trim resources))))
  end).

(** [split(p).last()] for a pattern that does not overlap with itself. *)
Fixpoint after_last (fuel : nat) (p s : string) : string :=
  match fuel with
  | O => s
  | S fuel => match split_first p s with Some (_, r) => after_last fuel p r | None => s end
  end.

Definition query_resource (res : string) : M ResourceAgentInfo :=
  and_then (crm_resource ["--query-xml"; "--resource"; res]) (fun output => done_with (process_resource (after_last (slen output) "xml:" output))).

(** [try_join_all]: the queries, here one after the other; the first failure is the answer. *)
Fixpoint query_all (xs : list string) : M (list ResourceAgentInfo) :=
  match xs with
  | [] => done_with (Ok [])
  | x :: xs => and_then (query_resource x) (fun r => and_then (query_all xs) (fun rs => done_with (Ok (r :: rs))))
  end.

Definition get_ha_resource_list : M (list ResourceAgentInfo) := and_then resource_list query_all.

(** ** Writing a resource *)

Definition xml_add_op (res : Element) (id name : string) (timeout interval : option string) : Element :=
  if bool_decide (timeout = None) && bool_decide (interval = None) then res
  else
    let op := set_attr (new_element "op") "name" name in
    let op := match interval with
              | Some value => set_attr (set_attr op "id" (id +:+ "-" +:+ name +:+ "-interval-" +:+ value)) "interval" value
              | None => set_attr op "interval" "0"
              end in
    let op := match timeout with
              | Some value => set_attr (set_attr op "id" (id +:+ "-" +:+ name +:+ "-timeout-" +:+ value)) "timeout" value
              | None => op
              end in
    append_child res op.

Definition xml_add_nvpair (elem : Element) (id name value : string) : Element :=
  append_child elem (set_attr (set_attr (set_attr (new_element "nvpair") "id" (id +:+ "-" +:+ name)) "name" name) "value" value).

Definition instance_attributes (agent : ResourceAgentInfo) : Element :=
  let iaid := ra_id agent +:+ "-instance_attributes" in
  foldl (fun ia kv => xml_add_nvpair ia iaid kv.1 kv.2) (set_attr (new_element "instance_attributes") "id" iaid) (iter (ra_args agent)).

Definition operations (agent : ResourceAgentInfo) : Element :=
  let ops := new_element "operations" in
  let ops := xml_add_op ops (ra_id agent) "start" (op_start (ra_ops agent)) None in
  let ops := xml_add_op ops (ra_id agent) "stop" (op_stop (ra_ops agent)) None in
  xml_add_op ops (ra_id agent) "monitor" None (op_monitor (ra_ops agent)).

(** The resource is created in the stopped state. *)
Definition meta_attributes (agent : ResourceAgentInfo) : Element :=
  let maid := ra_id agent +:+ "-meta_attributes" in
  xml_add_nvpair (set_attr (new_element "meta_attributes") "id" maid) maid "target-role" "Stopped".

Definition primitive_xml (agent : ResourceAgentInfo) : Element :=
  let res := new_element "primitive" in
  let res := set_attr (set_attr (set_attr res "id" (ra_id agent)) "class" (standard (ra_agent agent))) "type" (ocftype (ra_agent agent)) in
  let res := match provider (ra_agent agent) with Some p => set_attr res "provider" p | None => res end in
  let res := if bool_decide (ra_args agent = ∅) then res else append_child res (instance_attributes agent) in
  let res := if is_any_some (ra_ops agent) then append_child res (operations agent) else res in
  append_child res (meta_attributes agent).

Definition resource_xml (agent : ResourceAgentInfo) (cloned : bool) : Element :=
  if cloned then append_child (set_attr (new_element "clone") "id" ("cl-" +:+ ra_id agent)) (primitive_xml agent) else primitive_xml agent.

Definition resource_xml_string (agent : ResourceAgentInfo) (cloned : bool) : Result HaError string := to_string (resource_xml agent cloned).

Definition check_id (cloned : bool) (id res : string) : string := if cloned && String.eqb id res then "cl-" +:+ id else res.

Definition set_opt (k : string) (v : option string) (e : Element) : Element := match v with Some v => set_attr e k v | None => e end.

Definition constraint_xml (cloned : bool) (agent_id : string) (c : ResourceConstraint) : Element :=
  match c with
  | Order id first first_action then_ then_action kind =>
      let con := new_element "rsc_order" in
      let con := match kind with
                 | Some (PKind kind) => set_attr con "kind" (OrderingKind_to_string kind)
                 | Some (PScore score) => set_attr con "score" (PacemakerScore_to_string score)
                 | None => con
                 end in
      let con := set_attr (set_attr (set_attr con "id" id) "first" (check_id cloned agent_id first)) "then" (check_id cloned agent_id then_) in
      let con := set_opt "first-action" (PacemakerActions_to_string <$> first_action) con in
      set_opt "then-action" (PacemakerActions_to_string <$> then_action) con
  | Location id rsc node score =>
      set_attr (set_attr (set_attr (set_attr (new_element "rsc_location") "id" id) "rsc" (check_id cloned agent_id rsc)) "node" node) "score"
        (PacemakerScore_to_string score)
  | Colocation id rsc with_rsc score =>
      set_attr (set_attr (set_attr (set_attr (new_element "rsc_colocation") "id" id) "rsc" (check_id cloned agent_id rsc)) "with-rsc"
        (check_id cloned agent_id with_rsc)) "score" (PacemakerScore_to_string score)
  | Ticket id rsc ticket loss_policy =>
      set_opt "loss-policy" (LossPolicy_to_string <$> loss_policy)
        (set_attr (set_attr (set_attr (new_element "rsc_ticket") "id" id) "rsc" (check_id cloned agent_id rsc)) "ticket" ticket)
  end.

Fixpoint create_constraints (cloned : bool) (agent_id : string) (cs : list ResourceConstraint) : M unit :=
  match cs with
  | [] => done_with (Ok tt)
  | c :: cs =>
      and_then (done_with (to_string (constraint_xml cloned agent_id c))) (fun xml =>
      and_then (cibcreate "constraints" xml) (fun _ => create_constraints cloned agent_id cs))
  end.

Definition dquote : string := String "034" "".

Definition by_id (path id : string) : string := path +:+ "[@id=" +:+ dquote +:+ id +:+ dquote +:+ "]".

Definition create_resource (agent : ResourceAgentInfo) (cloned : bool) (constraints : list ResourceConstraint) (started : bool) : M unit :=
  and_then (done_with (resource_xml_string agent cloned)) (fun xml =>
  and_then (cibcreate "resources" xml) (fun _ =>
  and_then (create_constraints cloned (ra_id agent) constraints) (fun _ =>
  if started then
    and_then (cibxpath "delete" (by_id "//resources/primitive" (ra_id agent) +:+ "/meta_attributes") []) (fun _ => done_with (Ok tt))
  else done_with (Ok tt)))).

Definition create_single_resource (agent : ResourceAgentInfo) (constraints : list ResourceConstraint) : M unit :=
  and_then resource_list (fun ids =>
  if bool_decide (ra_id agent ∈ ids) then done_with (Ok tt) else create_resource agent false constraints true).

Definition create_cloned_resource (agent : ResourceAgentInfo) (constraints : list ResourceConstraint) : M unit :=
  and_then resource_list (fun ids =>
  if bool_decide ("cl-" +:+ ra_id agent ∈ ids) then done_with (Ok tt) else create_resource agent true constraints true).

(** ** Clients *)

(** The templates of the file system's servers, with the service that each is for. *)
Definition server_templates (fsname o : string) : list (string * string) :=
  omap (fun line =>
    match str_split "'" line !! 2%nat with
    | None => None
    | Some id =>
        if starts_with ("lustre-" +:+ fsname +:+ "-") id then (fun serv => (id, serv)) <$> last (str_split "-" id) else None
    end) (str_lines o).

Definition query_templates : M (Result HaError string) :=
  attempt (cibxpath "query" ("//template[@type=" +:+ dquote +:+ "lustre-server" +:+ dquote +:+ "]") ["-e"]).

(** The failing query leaves the constraints on templates out. *)
Definition templates (fsname : string) (o : Result HaError string) : list (string * string) :=
  match o with Ok o => server_templates fsname o | Err _ => [] end.

Definition destroy_paths (fsname : string) (ids : list string) (ts : list (string * string)) : list string :=
  (((fun t => by_id "//constraints/rsc_order" (fsname +:+ "-client-after-" +:+ t.2)) <$> ts) ++
   (if bool_decide (fsname ∈ ids) then [by_id "//constraints/rsc_ticket" ("ticket-" +:+ fsname +:+ "-allocated-client")] else []) ++
   (if bool_decide ("mgs" ∈ ids) then [by_id "//constraints/rsc_order" (fsname +:+ "-client-after-mgs")] else []) ++
   [by_id "//resources/clone" ("cl-" +:+ fsname +:+ "-client")])%list.

Definition destroy_cloned_client (fsname : string) : M unit :=
  and_then resource_list (fun ids =>
  if bool_decide (fsname +:+ "-client:0" ∈ ids) then
    and_then query_templates (fun o =>
    and_then (cibxpath "delete-all" (str_join "|" (destroy_paths fsname ids (templates fsname o))) ["--force"]) (fun _ => done_with (Ok tt)))
  else done_with (Ok tt)).

Definition client_unit (mountpoint : string) : string :=
  replace_char "/" "-" (replace_char "-" "--" (trim_start_matches "/" mountpoint)) +:+ ".mount".

Definition client_agent (fsname mountpoint : string) : ResourceAgentInfo :=
  MkAgentInfo (MkAgentType "systemd" None (client_unit mountpoint)) (fsname +:+ "-client") ∅ (MkOperations (Some "900s") (Some "60s") None).

Definition client_order (fsname first serv : string) : ResourceConstraint :=
  Order (fsname +:+ "-client-after-" +:+ serv) first (Some ActStart) (fsname +:+ "-client") (Some ActStart) (Some (PScore (ScoreValue 0))).

Definition client_constraints (fsname : string) (ids : list string) (ts : list (string * string)) : list ResourceConstraint :=
  ((if bool_decide (fsname ∈ ids)
    then [Ticket ("ticket-" +:+ fsname +:+ "-allocated-client") (fsname +:+ "-client") (fsname +:+ "-allocated") (Some LossStop)] else []) ++
   (if bool_decide ("mgs" ∈ ids) then [client_order fsname "mgs" "mgs"] else []) ++
   ((fun t => client_order fsname t.1 t.2) <$> ts))%list.

(** ** Waiting *)

Definition read_cluster (output : string) : M Cluster := fun h =>
  match read_crm_output events fuel output with None => None | Some c => Some (c, h) end.

Definition wait_failed (resource : string) (running : bool) : HaError :=
  HaRequired ("Waiting for resource " +:+ (if running then "start" else "stop") +:+ " of " +:+ resource +:+ " failed after " +:+
    fmt_int (Z.of_nat WAIT_SEC) +:+ " sec").

Fixpoint wait_calls (resource : string) (running : bool) (n : nat) : M unit :=
  match n with
  | O => done_with (Err (wait_failed resource running))
  | S n =>
      and_then (run CrmMonXml) (fun output =>
      and_then (read_cluster output) (fun cluster =>
      if settled resource running cluster then done_with (Ok tt) else wait_calls resource running n))
  end.

Definition wait_for (resource : string) (running : bool) : M unit := wait_calls resource running (WAIT_SEC / WAIT_DELAY).

Definition create_cloned_client (fsname mountpoint : string) : M unit :=
  and_then resource_list (fun ids =>
  if bool_decide (fsname +:+ "-client:0" ∈ ids) then done_with (Ok tt)
  else
    and_then query_templates (fun o =>
    and_then (create_resource (client_agent fsname mountpoint) true (client_constraints fsname ids (templates fsname o)) false) (fun _ =>
    wait_for (fsname +:+ "-client") false))).

Definition destroy_resource (label : string) (constraints : list string) : M unit :=
  let paths := by_id "//resources/primitive" label :: (by_id "//constraints/*" <$> constraints) in
  and_then (cibxpath "delete-all" (str_join "|" paths) ["--force"]) (fun _ => done_with (Ok tt)).

Definition start_resource (resource : string) : M unit :=
  and_then (set_resource_role resource true) (fun _ => wait_for resource true).

Definition stop_resource (resource : string) : M unit :=
  and_then (set_resource_role resource false) (fun _ => wait_for resource false).

(** ** Moving *)

Definition moved (resource dest_host : string) (cluster : Cluster) : bool :=
  match List.find (fun r => String.eqb (r_id r) resource) (c_resources cluster) with
  | Some r => String.eqb (default "" (r_active_node_name r)) dest_host
  | None => false
  end.

Definition move_failed (resource dest_host : string) : HaError :=
  HaRequired ("Waiting for resource " +:+ resource +:+ " to move to " +:+ dest_host +:+ " failed after " +:+ fmt_int (Z.of_nat WAIT_SEC) +:+ " sec").

(** The loop, with [n] rounds left after this one: the counter is [WAIT_SEC] in the last. The value
    is the result of the loop, a failing command is the result of the action. *)
Fixpoint move_calls (resource dest_host : string) (n : nat) : M (Result HaError unit) :=
  and_then (run CrmMonXml) (fun output =>
  and_then (read_cluster output) (fun cluster =>
  if moved resource dest_host cluster then done_with (Ok (Ok tt))
  else match n with
       | O => done_with (Ok (Err (move_failed resource dest_host)))
       | S n => move_calls resource dest_host n
       end)).

Definition move_resource (resource dest_host : string) : M unit :=
  and_then (crm_resource ["--resource"; resource; "--move"; "--node"; dest_host]) (fun _ =>
  and_then (move_calls resource dest_host (WAIT_SEC / WAIT_DELAY)) (fun rc =>
  and_then (crm_resource ["--resource"; resource; "--un-move"; "--node"; dest_host]) (fun _ => done_with rc))).

(** ** The state of the parts *)

(** [systemd_unit_servicestate]: a state that cannot be read is none. *)
Definition unit_servicestate {E} (get_run_state : string -> Result E RunState) (name : string) : ServiceState :=
  match get_run_state (name +:+ ".service") with Ok s => Configured s | Err _ => Unconfigured end.

Definition no_component : ComponentState bool := MkComponentState Unconfigured Unknown "" false.

Definition cmapctl_expected : string :=
  "totem.interface.0.mcastaddr (str) = 226.94.0.1" +:+ String newline ("totem.interface.1.mcastaddr (str) = 226.94.1.1" +:+ String newline "").

Definition check_corosync {E} (get_run_state : string -> Result E RunState) (conf_exists : bool) (cmapctl : Result HaError string)
    : Result HaError (ComponentState bool) :=
  if conf_exists then
    stdout ← cmapctl;
    Ok (MkComponentState (unit_servicestate get_run_state "corosync") (if String.eqb stdout cmapctl_expected then IML else Unknown) "" false)
  else Ok no_component.

Definition pacemaker_config (resources : list ResourceAgentInfo) : ConfigState :=
  if existsb (fun res => String.eqb (ra_id res) "st-fencing" && String.eqb (ocftype (ra_agent res)) "fence_chroma") resources then IML
  else match resources with [] => Default | _ => Unknown end.

Definition check_pacemaker {E} (get_run_state : string -> Result E RunState) (cib_exists : bool) : M (ComponentState bool) :=
  if cib_exists then
    and_then get_ha_resource_list (fun resources =>
    done_with (Ok (MkComponentState (unit_servicestate get_run_state "pacemaker") (pacemaker_config resources) "" false)))
  else done_with (Ok no_component).

Definition check_pcs {E} (get_run_state : string -> Result E RunState) (tokens_exist : bool) : ComponentState bool :=
  if tokens_exist then MkComponentState (unit_servicestate get_run_state "pcsd") IML "" false else no_component.

(** [try_join]: the first failure is the answer. *)
Definition check_ha {E} (get_run_state : string -> Result E RunState) (conf_exists cib_exists tokens_exist : bool) (cmapctl : Result HaError string)
    : M (ComponentState bool * ComponentState bool * ComponentState bool) :=
  and_then (done_with (check_corosync get_run_state conf_exists cmapctl)) (fun corosync =>
  and_then (check_pacemaker get_run_state cib_exists) (fun pacemaker => done_with (Ok (corosync, pacemaker, check_pcs get_run_state tokens_exist)))).
End actions.
Arguments collect {V} xs : simpl never.

(** * What is written is read *)

Create HintDb elements.
#[export] Hint Rewrite @tag_new @get_attr_new @find_all_new @tag_set @get_attr_set @find_all_set @tag_append @get_attr_append @find_all_append
  using typeclasses eauto : elements.

Section laws.
Context {Element : Type} `{ElementLaws Element} (iter : gmap string string -> list (string * string)).
Context (iter_perm : forall m, iter m ≡ₚ map_to_list m).

Ltac elements := repeat (progress (autorewrite with elements; cbn)).

Lemma collect_app {V} (xs : list (string * V)) kv : collect (xs ++ [kv])%list = <[kv.1 := kv.2]> (collect xs).
Proof. unfold collect. by rewrite foldl_app. Qed.

(** Without duplicates, a map is collected from its entries in any order. *)
Lemma collect_entries {V} (xs : list (string * V)) : NoDup xs.*1 -> forall k, collect xs !! k = list_to_map (M := gmap string V) xs !! k.
Proof.
  induction xs as [|[k v] xs IH] using rev_ind; intros Hd j; [done|]. rewrite collect_app, fmap_app in *. cbn in *.
  apply NoDup_app in Hd as (Hd & Hk & _). rewrite list_to_map_app. assert (k ∉ xs.*1) as Hn by (intros Hin; apply (Hk k Hin); set_solver).
  destruct (decide (j = k)) as [->|Hne].
  - rewrite lookup_insert_eq, lookup_union_r by (by apply not_elem_of_list_to_map). cbn. by rewrite lookup_insert_eq.
  - rewrite lookup_insert_ne, IH by done. cbn. rewrite insert_empty. destruct (list_to_map xs !! j) eqn:E.
    + by rewrite (lookup_union_Some_l _ _ _ _ E).
    + by rewrite lookup_union_r, lookup_singleton_ne by done.
Qed.

Lemma collect_iter m : collect (iter m) = m.
Proof.
  apply map_eq. intros k. rewrite collect_entries.
  - rewrite <-(list_to_map_to_list m) at 2. f_equal. apply list_to_map_proper; [|apply iter_perm]. rewrite iter_perm. apply NoDup_fst_map_to_list.
  - rewrite iter_perm. apply NoDup_fst_map_to_list.
Qed.

Definition pair_of (nv : Element) : string * string := (default "" (get_attr nv "name"), default "" (get_attr nv "value")).

Lemma nvpairs_read iaid kvs : forall e, pair_of <$> find_all (foldl (fun ia kv => xml_add_nvpair ia iaid kv.1 kv.2) e kvs) "nvpair" =
  ((pair_of <$> find_all e "nvpair") ++ kvs)%list.
Proof.
  induction kvs as [|[k v] kvs IH]; intros e; cbn [foldl]; [by rewrite app_nil_r|]. rewrite IH. unfold xml_add_nvpair. elements.
  rewrite fmap_app, <-app_assoc. f_equal. cbn. f_equal. unfold pair_of. by elements.
Qed.

Lemma nvpairs_keep iaid kvs : forall e, tag (foldl (fun ia kv => xml_add_nvpair ia iaid kv.1 kv.2) e kvs) = tag e.
Proof. induction kvs as [|[k v] kvs IH]; intros e; cbn [foldl]; [done|]. rewrite IH. unfold xml_add_nvpair. by elements. Qed.

Definition op_of (nv : Element) : string * (option string * option string) :=
  (default "" (get_attr nv "name"), (get_attr nv "interval", get_attr nv "timeout")).

Lemma xml_add_op_read e id name timeout interval : op_of <$> find_all (xml_add_op e id name timeout interval) "op" =
  ((op_of <$> find_all e "op") ++ if bool_decide (timeout = None) && bool_decide (interval = None) then [] else [(name, (Some (default "0" interval), timeout))])%list.
Proof.
  unfold xml_add_op, op_of. destruct timeout as [t|], interval as [i|]; cbn; elements; rewrite ?fmap_app, ?app_nil_r; cbn; elements; done.
Qed.

Lemma xml_add_op_tag e id name timeout interval : tag (xml_add_op e id name timeout interval) = tag e.
Proof. unfold xml_add_op. destruct timeout, interval; cbn; by elements. Qed.

Lemma operations_tag agent : tag (operations agent) = "operations".
Proof. unfold operations. rewrite !xml_add_op_tag. by elements. Qed.

Lemma operations_read agent : let ops := collect (op_of <$> find_all (operations agent) "op") in
  MkOperations (ops !! "start" ≫= snd) (ops !! "monitor" ≫= fst) (ops !! "stop" ≫= snd) = ra_ops agent.
Proof.
  unfold operations. rewrite !xml_add_op_read. destruct (ra_ops agent) as [[s|] [m|] [t|]]; elements; unfold collect; done.
Qed.

Lemma instance_attributes_tag agent : tag (instance_attributes iter agent) = "instance_attributes".
Proof. unfold instance_attributes. rewrite nvpairs_keep. by elements. Qed.

Lemma instance_attributes_read agent : pair_of <$> find_all (instance_attributes iter agent) "nvpair" = iter (ra_args agent).
Proof. unfold instance_attributes. rewrite nvpairs_read. elements. done. Qed.

Lemma meta_attributes_tag agent : tag (meta_attributes agent) = "meta_attributes".
Proof. unfold meta_attributes, xml_add_nvpair. by elements. Qed.

(** The element that is created for a resource is read as that resource, in whatever order its
    arguments are written. *)
Theorem create_reads_back agent : create (primitive_xml iter agent) = agent.
Proof.
  unfold create, primitive_xml. pose proof (operations_read agent) as Ho. cbn zeta in Ho. unfold op_of in Ho.
  pose proof (instance_attributes_read agent) as Ha. unfold pair_of in Ha.
  destruct agent as [[st pr oc] id args ops]. cbn [ra_agent ra_id ra_args ra_ops standard provider ocftype] in *.
  assert (is_any_some ops = false -> ops = MkOperations None None None) as Hn by (destruct ops as [[] [] []]; by cbn).
  destruct pr as [p|]; (case_bool_decide as Eargs); (destruct (is_any_some ops) eqn:Eops);
    autorewrite with elements; rewrite ?instance_attributes_tag, ?operations_tag, ?meta_attributes_tag; elements; rewrite ?app_nil_r;
    rewrite ?Ha, ?Ho, ?collect_iter; subst; try rewrite (Hn eq_refl); done.
Qed.

(** The meta attributes of an element say that it is to be stopped. *)
Definition says_stopped (e : Element) : Prop :=
  exists ma nv, find_all e "meta_attributes" = [ma] /\ find_all ma "nvpair" = [nv] /\
    get_attr nv "name" = Some "target-role" /\ get_attr nv "value" = Some "Stopped".

Lemma primitive_tag agent : tag (primitive_xml iter agent) = "primitive".
Proof. unfold primitive_xml. destruct (provider _), (bool_decide _), (is_any_some _); by elements. Qed.

Lemma primitive_stopped agent : says_stopped (primitive_xml iter agent).
Proof.
  unfold says_stopped. exists (meta_attributes agent). eexists. split_and!.
  - unfold primitive_xml. destruct (provider _), (bool_decide _), (is_any_some _); autorewrite with elements;
      rewrite ?instance_attributes_tag, ?operations_tag, ?meta_attributes_tag; elements; done.
  - unfold meta_attributes, xml_add_nvpair. elements. reflexivity.
  - by elements.
  - by elements.
Qed.

(** A resource is created stopped. The path from which [create_resource] then deletes the meta
    attributes is that of a primitive among the resources: of a clone, the primitive is a child of
    the clone, and stays stopped. *)
Theorem clone_stays_stopped agent :
  tag (resource_xml iter agent true) = "clone" /\ find_all (resource_xml iter agent true) "primitive" = [primitive_xml iter agent] /\
  says_stopped (primitive_xml iter agent) /\ tag (resource_xml iter agent false) = "primitive".
Proof.
  unfold resource_xml. split_and!; [by elements| |apply primitive_stopped|apply primitive_tag]. autorewrite with elements. rewrite primitive_tag. done.
Qed.
End laws.

(** * Commands *)

Section commands.
Context {Element : Type} `{ElementBuild Element} (text : Element -> string).
Context (events : string -> Reader) (fuel : nat) (iter : gmap string string -> list (string * string)).
Context (answer : list Cmd -> Cmd -> Result HaError string).

Abbreviation to_string := (fun e => Ok (text e)) (only parsing).

(** The computation runs the commands of [plan], in order, up to the first that fails, and its
    result is [r] when none does. *)
Fixpoint follows {A} (plan : list Cmd) (r : Result HaError A) (h : list Cmd) : Result HaError A * list Cmd :=
  match plan with
  | [] => (r, h)
  | c :: plan => match answer h c with Err e => (Err e, (h ++ [c])%list) | Ok _ => follows plan r (h ++ [c])%list end
  end.

Lemma follows_app {B} plan plan' (r : Result HaError B) h :
  follows (A := B) (plan ++ plan')%list r h =
  match follows (A := unit) plan (Ok tt) h with (Ok _, h) => follows plan' r h | (Err e, h) => (Err e, h) end.
Proof. revert h. induction plan as [|c plan IH]; intros h; cbn; [done|]. by destruct (answer h c). Qed.

(** A prefix of the plan was run; the whole when the computation succeeds. *)
Lemma follows_prefix {A} plan (r : Result HaError A) h x h' : follows plan r h = (x, h') ->
  exists k, h' = (h ++ take k plan)%list /\ (forall y, x = Ok y -> r = Ok y /\ h' = (h ++ plan)%list).
Proof.
  revert h. induction plan as [|c plan IH]; intros h E; cbn in E.
  - injection E as <- <-. exists 0%nat. cbn. rewrite app_nil_r. split; [done|]. intros y ->. done.
  - destruct (answer h c) as [o|e].
    + destruct (IH _ E) as (k & -> & Hok). exists (S k). cbn. split; [by rewrite <-app_assoc|].
      intros y Hy. destruct (Hok y Hy) as [-> Ek]. split; [done|]. by rewrite Ek, <-app_assoc.
    + injection E as <- <-. exists 1%nat. cbn. split; [done|]. intros y [=].
Qed.

Definition create_command (scope : string) (e : Element) : Cmd := CibAdmin ["--create"; "--scope"; scope; "--xml-text"; text e].

Definition unstop_command (id : string) : Cmd := CibAdmin ["--delete"; "--xpath"; by_id "//resources/primitive" id +:+ "/meta_attributes"].

(** The plan: the stopped resource, its constraints, and only then the start. *)
Definition create_plan (agent : ResourceAgentInfo) (cloned : bool) (constraints : list ResourceConstraint) (started : bool) : list Cmd :=
  (create_command "resources" (resource_xml iter agent cloned) ::
   ((fun c => create_command "constraints" (constraint_xml cloned (ra_id agent) c)) <$> constraints) ++
   (if started then [unstop_command (ra_id agent)] else []))%list.

Lemma create_constraints_follows cloned id cs h :
  create_constraints to_string answer cloned id cs h =
  Some (follows ((fun c => create_command "constraints" (constraint_xml cloned id c)) <$> cs) (Ok tt) h).
Proof.
  revert h. induction cs as [|c cs IH]; intros h; cbn; [done|]. unfold and_then at 1. cbn. unfold cibcreate, and_then, run. cbn.
  unfold create_command at 1. destruct (answer h _); [|done].
  unfold done_with. by rewrite IH.
Qed.

Theorem create_resource_follows agent cloned constraints started h :
  create_resource to_string iter answer agent cloned constraints started h =
  Some (follows (create_plan agent cloned constraints started) (Ok tt) h).
Proof.
  unfold create_resource, create_plan, resource_xml_string, cibcreate, and_then at 1 2 3, run, done_with. cbn. unfold create_command at 1.
  destruct (answer h _) as [o|e]; [|done]. rewrite follows_app. unfold and_then. rewrite create_constraints_follows.
  destruct (follows _ _ _) as [[[]|e] h']; [|done]. destruct started; [|done]. cbn. unfold cibxpath, run, unstop_command.
  cbn. by destruct (answer h' _).
Qed.

(** The names that a listing gives; a listing that fails gives none. *)
Definition list_command : Cmd := CrmResource ["--list-raw"].
Definition names (h : list Cmd) : list string :=
  match answer h list_command with Ok o => List.filter listed (str_lines (trim o)) | Err _ => [] end.

Lemma resource_list_names h : resource_list answer h = Some (Ok (names h), (h ++ [list_command])%list).
Proof. unfold resource_list, attempt, crm_resource, and_then, run, names. fold list_command. by destruct (answer h list_command). Qed.

(** A resource that is listed is not created again. *)
Theorem create_single_once agent constraints h :
  create_single_resource to_string iter answer agent constraints h =
  Some (if bool_decide (ra_id agent ∈ names h) then (Ok tt, (h ++ [list_command])%list)
        else follows (create_plan agent false constraints true) (Ok tt) (h ++ [list_command])%list).
Proof.
  unfold create_single_resource, and_then at 1. rewrite resource_list_names. case_bool_decide; [done|]. apply create_resource_follows.
Qed.

(** Listed names are those of instances, with a colon, or of resources; the name of a clone is
    asked for. When the listing has the first instance only, the clone is created again. *)
Theorem cloned_created_again agent constraints h : names h = [ra_id agent +:+ ":0"] ->
  create_cloned_resource to_string iter answer agent constraints h =
  Some (follows (create_plan agent true constraints true) (Ok tt) (h ++ [list_command])%list).
Proof.
  intros Hn. unfold create_cloned_resource, and_then at 1. rewrite resource_list_names, Hn. rewrite bool_decide_false; [apply create_resource_follows|].
  intros E%list_elem_of_singleton. apply (f_equal slen) in E. revert E. rewrite !slen_app. cbn. lia.
Qed.

(** ** Clients *)

Definition constraint_path (c : ResourceConstraint) : string :=
  match c with
  | Order id _ _ _ _ _ => by_id "//constraints/rsc_order" id
  | Location id _ _ _ => by_id "//constraints/rsc_location" id
  | Colocation id _ _ _ => by_id "//constraints/rsc_colocation" id
  | Ticket id _ _ _ => by_id "//constraints/rsc_ticket" id
  end.

(** Removing a client deletes the clone and the constraints that creating it has made, when the
    other resources and the templates are the same. *)
Theorem destroy_undoes_create fsname ids ids' ts : (fsname ∈ ids <-> fsname ∈ ids') -> ("mgs" ∈ ids <-> "mgs" ∈ ids') ->
  destroy_paths fsname ids' ts ≡ₚ by_id "//resources/clone" ("cl-" +:+ fsname +:+ "-client") :: (constraint_path <$> client_constraints fsname ids ts).
Proof.
  intros H1 H2. unfold destroy_paths, client_constraints. rewrite (bool_decide_ext _ _ H1), (bool_decide_ext _ _ H2), !fmap_app.
  rewrite <-list_fmap_compose. cbn. case_bool_decide; case_bool_decide; cbn; solve_Permutation.
Qed.

(** All constraints of a client are on the clone. *)
Lemma client_constraints_clone fsname ids ts c : c ∈ client_constraints fsname ids ts ->
  match c with
  | Order _ _ _ then_ _ _ => check_id true (fsname +:+ "-client") then_ = "cl-" +:+ fsname +:+ "-client"
  | Ticket _ rsc _ _ => check_id true (fsname +:+ "-client") rsc = "cl-" +:+ fsname +:+ "-client"
  | _ => False
  end.
Proof.
  unfold client_constraints, check_id. rewrite !elem_of_app, list_elem_of_fmap. intros [Hc|[Hc|(t & -> & _)]];
    repeat case_bool_decide; try (apply list_elem_of_singleton in Hc as ->); try (by apply not_elem_of_nil in Hc); cbn; by rewrite String.eqb_refl.
Qed.

(** ** Waiting *)

Definition mon_at (h : list Cmd) (k : nat) : Result HaError string := answer (h ++ replicate k CrmMonXml)%list CrmMonXml.

(** The wait is the one of [CrmMon], on the answers that come. *)
Lemma wait_calls_polls resource running n : forall h k,
  fst <$> wait_calls events fuel answer resource running n (h ++ replicate k CrmMonXml)%list =
  wait_polls events fuel (mon_at h) resource running n k.
Proof.
  induction n as [|n IH]; intros h k; cbn [wait_calls wait_polls]; [done|]. unfold and_then, run, mon_at. destruct (answer _ CrmMonXml) as [o|e]; [|done].
  unfold read_cluster. destruct (read_crm_output events fuel o) as [[c|e]|]; [|done|done]. destruct (settled resource running c); [done|].
  rewrite <-app_assoc, <-(replicate_S_end k CrmMonXml). apply IH.
Qed.

Lemma wait_for_wait resource running h : fst <$> wait_for events fuel answer resource running h = wait_resource events fuel (mon_at h) resource running.
Proof. pose proof (wait_calls_polls resource running (WAIT_SEC / WAIT_DELAY) h 0) as E. cbn [replicate] in E. rewrite app_nil_r in E. exact E. Qed.

(** Starting a resource sets its role once and succeeds exactly when the resource is then seen in
    that role, all its instances, at one of 150 readings. *)
Theorem start_resource_spec (running : bool) resource clusters h :
  let role := CrmResource ["--resource"; resource; "--set-parameter"; "target-role"; "--meta"; "--parameter-value";
                           if running then "Started" else "Stopped"] in
  let action := if running then start_resource events fuel answer resource else stop_resource events fuel answer resource in
  (exists o, answer h role = Ok o) ->
  (forall j, (j < 150)%nat -> exists output, mon_at (h ++ [role])%list j = Ok output /\ read_crm_output events fuel output = Some (Ok (clusters j))) ->
  fst <$> action h = Some (Ok tt) <-> exists j, (j < 150)%nat /\ settled resource running (clusters j) = true.
Proof.
  intros role action [o Eo] Hc. assert (fst <$> action h = wait_resource events fuel (mon_at (h ++ [role])%list) resource running) as ->.
  { rewrite <-wait_for_wait. subst action. unfold start_resource, stop_resource, set_resource_role, and_then, run.
    destruct running; subst role; by rewrite Eo. }
  by apply wait_resource_iff.
Qed.

(** ** Moving *)

Section move.
Context (resource dest_host : string) (clusters : nat -> Cluster) (h : list Cmd).

(** The [j]th reading after [h] gives the cluster [clusters j]. *)
Definition reads (h : list Cmd) (j : nat) : Prop :=
  exists output, mon_at h j = Ok output /\ read_crm_output events fuel output = Some (Ok (clusters j)).

Definition elsewhere (j : nat) : Prop := moved resource dest_host (clusters j) = false.

Lemma move_calls_on n k h0 : (k <= n)%nat -> (forall j, (j < k)%nat -> reads h0 j /\ elsewhere j) ->
  move_calls events fuel answer resource dest_host n h0 = move_calls events fuel answer resource dest_host (n - k) (h0 ++ replicate k CrmMonXml)%list.
Proof.
  intros Hk Hr. induction k as [|k IH]; [by rewrite Nat.sub_0_r, app_nil_r|]. rewrite IH by (lia || (intros j Hj; apply Hr; lia)).
  destruct (Hr k ltac:(lia)) as [(o & Eo & Ec) He]. destruct (n - k)%nat as [|m] eqn:Em; [lia|]. cbn [move_calls]. unfold and_then at 1, run.
  unfold mon_at in Eo. rewrite Eo. unfold and_then, read_cluster. rewrite Ec. unfold elsewhere in He. rewrite He.
  rewrite <-app_assoc, <-(replicate_S_end k CrmMonXml). by replace (n - S k)%nat with m by lia.
Qed.

(** One reading. *)
Lemma move_calls_here n h0 : reads h0 0 -> move_calls events fuel answer resource dest_host n h0 =
  if moved resource dest_host (clusters 0) then Some (Ok (Ok tt), (h0 ++ [CrmMonXml])%list)
  else match n with
       | O => Some (Ok (Err (move_failed resource dest_host)), (h0 ++ [CrmMonXml])%list)
       | S n => move_calls events fuel answer resource dest_host n (h0 ++ [CrmMonXml])%list
       end.
Proof.
  intros (o & Eo & Ec). unfold mon_at in Eo. cbn [replicate] in Eo. rewrite app_nil_r in Eo. destruct n; cbn [move_calls]; unfold and_then, run, read_cluster;
    rewrite Eo, Ec; by destruct (moved _ _ _).
Qed.
End move.

Definition move_command (resource dest_host : string) : Cmd := CrmResource ["--resource"; resource; "--move"; "--node"; dest_host].
Definition unmove_command (resource dest_host : string) : Cmd := CrmResource ["--resource"; resource; "--un-move"; "--node"; dest_host].

Lemma reads_shift clusters h k : reads clusters h k -> reads (fun j => clusters (k + j)%nat) (h ++ replicate k CrmMonXml)%list 0.
Proof. intros (o & Eo & Ec). exists o. unfold mon_at in *. cbn [replicate]. rewrite app_nil_r, Nat.add_0_r. done. Qed.

(** Once the move was asked for, what the readings give decides. *)
Lemma move_resource_calls resource dest_host h o : answer h (move_command resource dest_host) = Ok o ->
  move_resource events fuel answer resource dest_host h =
  match move_calls events fuel answer resource dest_host 150 (h ++ [move_command resource dest_host])%list with
  | None => None
  | Some (Err e, h) => Some (Err e, h)
  | Some (Ok rc, h) =>
      match answer h (unmove_command resource dest_host) with
      | Err e => Some (Err e, (h ++ [unmove_command resource dest_host])%list)
      | Ok _ => Some (rc, (h ++ [unmove_command resource dest_host])%list)
      end
  end.
Proof.
  intros Eo. unfold move_resource, crm_resource, and_then, run. fold (move_command resource dest_host). rewrite Eo.
  change (WAIT_SEC / WAIT_DELAY)%nat with 150%nat. destruct (move_calls _ _ _ _ _ _ _) as [[[rc|e] h']|]; [|done|done].
  fold (unmove_command resource dest_host). by destruct (answer h' _).
Qed.

(** When the resource is first seen on the host at a reading, of the 151 there are, the move is
    taken back and succeeds; when it is seen at none, it is taken back and fails. *)
Theorem move_resource_spec resource dest_host clusters h k :
  let h0 := (h ++ [move_command resource dest_host])%list in
  (exists o, answer h (move_command resource dest_host) = Ok o) -> (k <= 150)%nat -> (forall j, (j <= k)%nat -> reads clusters h0 j) ->
  (forall j, (j < k)%nat -> elsewhere resource dest_host clusters j) ->
  let h1 := (h0 ++ replicate (S k) CrmMonXml)%list in
  (exists o, answer h1 (unmove_command resource dest_host) = Ok o) ->
  let res := move_resource events fuel answer resource dest_host h in
  (moved resource dest_host (clusters k) = true -> res = Some (Ok tt, (h1 ++ [unmove_command resource dest_host])%list)) /\
  (k = 150%nat -> elsewhere resource dest_host clusters k ->
   res = Some (Err (move_failed resource dest_host), (h1 ++ [unmove_command resource dest_host])%list)).
Proof.
  intros h0 [o Eo] Hk Hr He h1 [u Eu] res. subst res. rewrite (move_resource_calls resource dest_host h o Eo). fold h0.
  rewrite (move_calls_on resource dest_host clusters 150 k h0 Hk) by (intros j Hj; split; [apply Hr; lia|by apply He]).
  pose proof (reads_shift clusters h0 k (Hr k ltac:(lia))) as Hs. rewrite (move_calls_here resource dest_host _ _ _ Hs). cbn beta. rewrite Nat.add_0_r.
  rewrite <-app_assoc, <-(replicate_S_end k CrmMonXml). fold h1. split.
  - intros ->. by rewrite Eu.
  - intros -> En. unfold elsewhere in En. rewrite En. cbn [Nat.sub]. by rewrite Eu.
Qed.

(** A reading that fails is the result, and the move is not taken back. *)
Theorem move_left_behind resource dest_host clusters h k e :
  let h0 := (h ++ [move_command resource dest_host])%list in
  (exists o, answer h (move_command resource dest_host) = Ok o) -> (k <= 150)%nat ->
  (forall j, (j < k)%nat -> reads clusters h0 j /\ elsewhere resource dest_host clusters j) -> mon_at h0 k = Err e ->
  move_resource events fuel answer resource dest_host h = Some (Err e, (h0 ++ replicate (S k) CrmMonXml)%list).
Proof.
  intros h0 [o Eo] Hk Hr Ee. rewrite (move_resource_calls resource dest_host h o Eo). fold h0.
  rewrite (move_calls_on resource dest_host clusters 150 k h0 Hk Hr).
  unfold mon_at in Ee. destruct (150 - k)%nat; cbn [move_calls]; unfold and_then, run; rewrite Ee; by rewrite <-app_assoc, <-(replicate_S_end k CrmMonXml).
Qed.
End commands.

(** * Witnesses *)

(** Elements as trees. *)
Inductive SampleTree : Type := SampleNode (t : string) (attrs : list (string * string)) (cs : list SampleTree).

Definition tree_tag (e : SampleTree) : string := let '(SampleNode t _ _) := e in t.
Definition tree_children (e : SampleTree) : list SampleTree := let '(SampleNode _ _ cs) := e in cs.
Definition tree_attr (e : SampleTree) (k : string) : option string := let '(SampleNode _ attrs _) := e in snd <$> List.find (fun kv => String.eqb kv.1 k) attrs.
Definition tree_all (e : SampleTree) (n : string) : list SampleTree := List.filter (fun c => String.eqb (tree_tag c) n) (tree_children e).

#[local] Instance tree_elements : ElementTree SampleTree := {|
  tag := tree_tag; get_attr := tree_attr; children := tree_children; Stonith.find := fun e n => head (tree_all e n); find_all := tree_all |}.
#[local] Instance tree_build : ElementBuild SampleTree := {|
  new_element t := SampleNode t [] [];
  set_attr e k v := let '(SampleNode t attrs cs) := e in SampleNode t ((k, v) :: attrs) cs;
  append_child e c := let '(SampleNode t attrs cs) := e in SampleNode t attrs (cs ++ [c])%list |}.

#[local] Instance tree_laws : ElementLaws SampleTree.
Proof.
  split; try done; try (intros [? ? ?] *; done).
  - intros [t attrs cs] k v k'. cbn. by destruct (String.eqb k k').
  - intros [t attrs cs] c n. cbn. unfold tree_all. cbn. rewrite List.filter_app. cbn. by destruct (String.eqb (tree_tag c) n).
Qed.

Definition sample_agent : ResourceAgentInfo :=
  MkAgentInfo (MkAgentType "ocf" (Some "lustre") "Lustre") "MGS" (<["target" := "/dev/mgs"]> {["mountpoint" := "/mnt/MGS"]})
    (MkOperations (Some "300s") (Some "20s") None).

Lemma create_reads_back_witness : create (primitive_xml map_to_list sample_agent) = sample_agent.
Proof. apply (create_reads_back map_to_list (fun m => reflexivity (map_to_list m)) sample_agent). Defined.

(** The move is not taken back when the second reading fails. *)
Definition failing_answer (h : list Cmd) (c : Cmd) : Result HaError string :=
  if bool_decide (c = CrmMonXml) then if (length h =? 2)%nat then Err CrmMon.XmlError else Ok "mon" else Ok "".

Lemma move_left_behind_witness : move_resource sample_events 40 failing_answer "fs-OST0000" "oss2" [] =
  Some (Err CrmMon.XmlError, [move_command "fs-OST0000" "oss2"; CrmMonXml; CrmMonXml]).
Proof.
  apply (move_left_behind sample_events 40 failing_answer "fs-OST0000" "oss2" (fun _ => document_cluster sample_document) [] 1 CrmMon.XmlError).
  - by exists "".
  - lia.
  - intros j Hj. assert (j = 0%nat) as -> by lia. split; [exists "mon"; split; by vm_compute|by vm_compute].
  - by vm_compute.
Defined.

(** Two mount points have one unit. *)
Example client_units_collide : client_unit "/mnt/a-/b" = client_unit "/mnt/a/-b".
Proof. by vm_compute. Qed.
