(* ===== verification/CorosyncConf.v ===== *)
(** * The configuration of corosync ([iml-agent/src/action_plugins/high_availability/corosync_conf.rs])

    The agent changes the multicast port of all interfaces in [corosync.conf] and raises the
    version of the configuration, which it reads from [corosync-cmapctl]. *)
From S2P Require Import Prelude RustStd Ldev NtpConfig CommandModal ModalSpec CrmMon.
From stdpp Require Import base gmap sets list strings pretty.
From Stdlib Require Import Ascii ZArith Lia.
Open Scope string_scope.
Open Scope Z_scope.

(** ** What corosync runs with *)

Inductive ConfError : Type :=
  | NotFound (property : string)
  | ConfParseInt (e : ParseIntError)
  | ConfIo
  | ConfCommand.

Abbreviation StringMap := (gmap string string) (only parsing).

Record Totem : Type := MkTotem { config_version : option Z; cluster_name : string; token : Z }.

Record Interface : Type := MkInterface {
  ringnumber : Z; bindnetaddr : string; mcastaddr : option string; broadcast : option string; mcastport : Z }.

Definition try_get (hm : StringMap) (k : string) : Result ConfError string := ok_or (NotFound k) (hm !! k).

(** [str::parse] for the unsigned integers of [w] bits. *)
Definition parse_uint (w : Z) (s : string) : Result ConfError Z := map_err ConfParseInt (from_str_radix 10 0 (2 ^ w - 1) s).

(** The addition is one of [u64]: it wraps in a release build. *)
Definition next_version (t : Totem) : Z := match config_version t with Some x => (x + 1) mod 2 ^ 64 | None => 1 end.

Definition Totem_try_from (x : StringMap) : Result ConfError Totem :=
  config_version ← match x !! "config_version (u64)" with Some v => Some <$> parse_uint 64 v | None => Ok None end;
  cluster_name ← try_get x "cluster_name (str)";
  tok ← try_get x "token (u32)";
  token ← parse_uint 32 tok;
  Ok (MkTotem config_version cluster_name token).

Definition Interface_try_from (ringnumber : string) (x : StringMap) : Result ConfError Interface :=
  ringnumber ← parse_uint 32 ringnumber;
  bindnetaddr ← try_get x "bindnetaddr (str)";
  port ← try_get x "mcastport (u16)";
  mcastport ← parse_uint 16 port;
  Ok (MkInterface ringnumber bindnetaddr (x !! "mcastaddr (str)") (x !! "broadcast (str)") mcastport).

(** A line is a key and a value when it has one sign of equality. *)
Definition key_value (y : string) : option (list string * string) :=
  match str_split "=" y with [k; v] => Some (str_split "." (trim k), trim v) | _ => None end.

Definition add_entry (acc : StringMap * gmap string StringMap) (kv : list string * string) : StringMap * gmap string StringMap :=
  let '(totem, interfaces) := acc in
  let '(k, v) := kv in
  match k with
  | [a; y] => if String.eqb a "totem" then (<[y := v]> totem, interfaces) else acc
  | [a; b; x; y] =>
      if String.eqb a "totem" && String.eqb b "interface" then (totem, <[x := <[y := v]> (default ∅ (interfaces !! x))]> interfaces) else acc
  | _ => acc
  end.

Definition cmapctl_maps (x : string) : StringMap * gmap string StringMap := foldl add_entry (∅, ∅) (omap key_value (str_lines (trim x))).

Section conf.
(** The order in which a [HashMap] is walked. *)
Context (iter : gmap string StringMap -> list (string * StringMap)).
(** What follows a decimal digit, with which the text begins, for the library of regular
    expressions. *)
Context (digit : string -> option string).

Definition corosync_cmapctl_parser (x : string) : Result ConfError (Totem * list Interface) :=
  let '(totem, interfaces) := cmapctl_maps x in
  t ← Totem_try_from totem;
  xs ← mapM (M := Result ConfError) (fun '(r, m) => Interface_try_from r m) (iter interfaces);
  Ok (t, xs).

(** ** The edits *)

Definition is_config_version (x : string) : bool := starts_with "config_version:" (trim x).
Definition is_version (x : string) : bool := starts_with "version:" (trim x).

Definition version_text (next_version : Z) (x : string) : string := x +:+ String newline ("    config_version: " +:+ fmt_int next_version).

Definition update_config_version (s : list string) (next_version : Z) : list string :=
  (fun x => if is_version x then version_text next_version x else x) <$> List.filter (fun x => negb (is_config_version x)) s.

Fixpoint strip_digits (fuel : nat) (s : string) : string :=
  match fuel with O => s | S fuel => match digit s with Some r => strip_digits fuel r | None => s end end.

(** The match at the start of a text, of white space, the key, white space, all of them the group,
    and digits: the group, and what follows the match. *)
Definition mcastport_at (s : string) : option (string * string) :=
  let s1 := trim_start s in
  if starts_with "mcastport:" s1 then
    let s2 := trim_start (sdrop 10 s1) in
    let s3 := strip_digits (slen s2) s2 in
    if String.eqb s3 s2 then None else Some (stake (slen s - slen s2) s, s3)
  else None.

(** [Regex::replace]: the first match. *)
Fixpoint replace_port (new_port : Z) (s : string) : string :=
  match mcastport_at s with
  | Some (group, rest) => group +:+ fmt_int new_port +:+ rest
  | None => match s with EmptyString => EmptyString | String a s => String a (replace_port new_port s) end
  end.

Definition update_mcast_port (s : list string) (new_port : Z) : list string :=
  (fun x => if starts_with "mcastport:" (trim x) then replace_port new_port x else x) <$> s.

(** The new text, from the text and the version of the configuration. *)
Definition changed_conf (conf : string) (version new_port : Z) : string :=
  str_join (String newline "") (update_mcast_port (update_config_version (str_lines (trim conf)) version) new_port).

(** The result and the file; what a failing write leaves in it is the file system's. *)
Definition change_mcast_port (file : Result ConfError string) (cmapctl : Result ConfError string) (new_port : Z) : Result ConfError string :=
  conf ← file;
  x ← cmapctl;
  '(totem, _) ← corosync_cmapctl_parser x;
  Ok (changed_conf conf (next_version totem) new_port).
End conf.

(** * What is read *)

Definition entry_totem (y v : string) : list string * string := (["totem"; y], v).
Definition entry_interface (r y v : string) : list string * string := (["totem"; "interface"; r; y], v).

Lemma key_cases k : (exists y, k = ["totem"; y]) \/ (exists r y, k = ["totem"; "interface"; r; y]) \/
  ((forall y, k <> ["totem"; y]) /\ (forall r y, k <> ["totem"; "interface"; r; y]) /\ forall acc v, add_entry acc (k, v) = acc).
Proof.
  destruct k as [|a [|b [|c [|d [|e k]]]]].
  all: try (right; right; split_and!; [done|done|by intros [? ?]]).
  - destruct (decide (a = "totem")) as [->|Ha]; [left; by exists b|]. right; right. split_and!; [congruence|done|]. intros [t m] v. cbn.
    by rewrite (proj2 (String.eqb_neq _ _) Ha).
  - destruct (decide (a = "totem" /\ b = "interface")) as [[-> ->]|Ha]; [right; left; by exists c, d|]. right; right. split_and!; [done| |].
    + intros r y [= -> -> _ _]. by destruct Ha.
    + intros [t m] v. cbn. destruct (String.eqb_spec a "totem") as [->|]; [|done]. destruct (String.eqb_spec b "interface") as [->|]; [|done]. by destruct Ha.
Qed.

(** With different keys, the maps have exactly the entries. *)
Definition maps_have (es : list (list string * string)) (acc : StringMap * gmap string StringMap) : Prop :=
  (forall y v, acc.1 !! y = Some v <-> entry_totem y v ∈ es) /\
  (forall r y v, (acc.2 !! r ≫= (fun m => m !! y)) = Some v <-> entry_interface r y v ∈ es) /\
  (forall r, is_Some (acc.2 !! r) <-> exists y v, entry_interface r y v ∈ es).

Lemma maps_have_step es k v acc : (forall w, (k, w) ∉ es) -> maps_have es acc -> maps_have (es ++ [(k, v)])%list (add_entry acc (k, v)).
Proof.
  intros Hnew (I1 & I2 & I3). unfold maps_have. setoid_rewrite elem_of_app. setoid_rewrite list_elem_of_singleton.
  destruct (key_cases k) as [(y0 & ->)|[(r0 & y0 & ->)|(N1 & N2 & ->)]].
  - destruct acc as [totem ifs]. cbn [fst snd add_entry String.eqb Ascii.eqb Bool.eqb] in *. cbn. split_and!.
    + intros y w. rewrite lookup_insert_Some, I1. unfold entry_totem. split; [intros [[-> ->]|[_ ?]]; tauto|].
      intros [Hin|[= -> ->]]; [|by left]. right. split; [|done]. intros ->. by apply (Hnew w).
    + intros r y w. rewrite I2. split; [tauto|]. by intros [?|[=]].
    + intros r. rewrite I3. split; intros (y & w & Hw); exists y, w; [by left|]. by destruct Hw as [?|[=]].
  - destruct acc as [totem ifs]. cbn [fst snd] in *. cbn. split_and!.
    + intros y w. rewrite I1. split; [tauto|]. by intros [?|[=]].
    + intros r y w. destruct (decide (r = r0)) as [->|Hr].
      * rewrite lookup_insert_eq. cbn. rewrite lookup_insert_Some. specialize (I2 r0 y w).
        assert (default ∅ (ifs !! r0) !! y = Some w <-> entry_interface r0 y w ∈ es) as E.
        { rewrite <-I2. by destruct (ifs !! r0). }
        rewrite E. unfold entry_interface. split; [intros [[-> ->]|[_ ?]]; tauto|].
        intros [Hin|[= -> ->]]; [|by left]. right. split; [|done]. intros ->. by apply (Hnew w).
      * rewrite lookup_insert_ne, I2 by done. split; [tauto|]. intros [?|E]; [done|]. by injection E.
    + intros r. destruct (decide (r = r0)) as [->|Hr].
      * rewrite lookup_insert_eq. split; [|done]. intros _. exists y0, v. by right.
      * rewrite lookup_insert_ne, I3 by done. split; intros (y & w & Hw); exists y, w; [by left|]. destruct Hw as [?|E]; [done|]. by injection E.
  - split_and!.
    + intros y w. rewrite I1. split; [tauto|]. intros [?|[= E _]]; [done|]. by destruct (N1 y).
    + intros r y w. rewrite I2. split; [tauto|]. intros [?|[= E _]]; [done|]. by destruct (N2 r y).
    + intros r. rewrite I3. split; intros (y & w & Hw); exists y, w; [by left|]. destruct Hw as [?|[= E _]]; [done|]. by destruct (N2 r y).
Qed.

Lemma maps_lookup es : NoDup es.*1 -> maps_have es (foldl add_entry (∅, ∅) es).
Proof.
  induction es as [|[k v] es IH] using rev_ind; intros Hd.
  - cbn. split_and!; intros *; cbn; rewrite ?lookup_empty; cbn.
    + split; [done|]. by intros ?%not_elem_of_nil.
    + split; [done|]. by intros ?%not_elem_of_nil.
    + split; [by intros []|]. by intros (? & ? & ?%not_elem_of_nil).
  - rewrite fmap_app in Hd. apply NoDup_app in Hd as (Hd & Hk & _). rewrite foldl_app. cbn [foldl]. apply maps_have_step; [|by apply IH].
    intros w Hw. apply (Hk k); [by apply (list_elem_of_fmap_2 fst es (k, w))|set_solver].
Qed.

(** Entries that say what corosync runs with; there may be others, in any order. *)
Record says_totem (es : list (list string * string)) (t : Totem) : Prop := MkSaysTotem {
  says_name : entry_totem "cluster_name (str)" (cluster_name t) ∈ es;
  says_token : entry_totem "token (u32)" (fmt_int (token t)) ∈ es;
  says_version : forall v, entry_totem "config_version (u64)" v ∈ es <-> fmt_int <$> config_version t = Some v;
  token_fits : 0 <= token t < 2 ^ 32;
  version_fits : forall x, config_version t = Some x -> 0 <= x < 2 ^ 64 }.

Record says_interface (es : list (list string * string)) (i : Interface) : Prop := MkSaysInterface {
  says_bind : entry_interface (fmt_int (ringnumber i)) "bindnetaddr (str)" (bindnetaddr i) ∈ es;
  says_port : entry_interface (fmt_int (ringnumber i)) "mcastport (u16)" (fmt_int (mcastport i)) ∈ es;
  says_mcastaddr : forall v, entry_interface (fmt_int (ringnumber i)) "mcastaddr (str)" v ∈ es <-> mcastaddr i = Some v;
  says_broadcast : forall v, entry_interface (fmt_int (ringnumber i)) "broadcast (str)" v ∈ es <-> broadcast i = Some v;
  ring_fits : 0 <= ringnumber i < 2 ^ 32;
  port_fits : 0 <= mcastport i < 2 ^ 16 }.

Lemma parse_uint_fmt w z : 0 <= z < 2 ^ w -> parse_uint w (fmt_int z) = Ok z.
Proof. intros Hz. unfold parse_uint. by rewrite parse_fmt_unsigned by lia. Qed.

Lemma option_of {A} (o o' : option A) : (forall v, o = Some v <-> o' = Some v) -> o = o'.
Proof. intros Hv. destruct o as [x|]; [symmetry; by apply Hv|]. destruct o' as [x|]; [by apply Hv|done]. Qed.

Lemma totem_read es t m : (forall y v, m !! y = Some v <-> entry_totem y v ∈ es) -> says_totem es t -> Totem_try_from m = Ok t.
Proof.
  intros Hm [H1 H2 H3 H4 H5]. unfold Totem_try_from, try_get. apply Hm in H1. apply Hm in H2.
  assert (m !! "config_version (u64)" = fmt_int <$> config_version t) as -> by (apply option_of; intros v; by rewrite Hm, H3).
  rewrite H1, H2. destruct t as [[x|] name tok]; cbn in *.
  - rewrite (parse_uint_fmt 64 x) by (by apply H5). cbn. by rewrite parse_uint_fmt.
  - by rewrite parse_uint_fmt.
Qed.

Lemma interface_read es i m : (forall y v, m !! y = Some v <-> entry_interface (fmt_int (ringnumber i)) y v ∈ es) -> says_interface es i ->
  Interface_try_from (fmt_int (ringnumber i)) m = Ok i.
Proof.
  intros Hm [H1 H2 H3 H4 H5 H6]. unfold Interface_try_from, try_get. apply Hm in H1. apply Hm in H2.
  assert (m !! "mcastaddr (str)" = mcastaddr i) as -> by (apply option_of; intros v; by rewrite Hm, H3).
  assert (m !! "broadcast (str)" = broadcast i) as -> by (apply option_of; intros v; by rewrite Hm, H4).
  rewrite H1, H2, parse_uint_fmt by done. cbn. rewrite parse_uint_fmt by done. by destruct i.
Qed.

Lemma mapM_ok {E A B} (f : A -> Result E B) (g : B -> A) xs : Forall (fun x => f (g x) = Ok x) xs -> mapM (M := Result E) f (g <$> xs) = Ok xs.
Proof. induction 1 as [|x xs Hx _ IH]; [done|]. cbn. rewrite Hx. cbn. cbn in IH. by rewrite IH. Qed.

(** Whatever else [corosync-cmapctl] prints, and in whatever order: the totem and the interfaces
    are read as they are. *)
Theorem cmapctl_read iter x t ifs : (forall m, iter m ≡ₚ map_to_list m) ->
  let es := omap key_value (str_lines (trim x)) in
  NoDup es.*1 -> says_totem es t -> NoDup (ringnumber <$> ifs) -> Forall (says_interface es) ifs ->
  (forall r y v, entry_interface r y v ∈ es -> exists i, i ∈ ifs /\ r = fmt_int (ringnumber i)) ->
  exists l, l ≡ₚ ifs /\ corosync_cmapctl_parser iter x = Ok (t, l).
Proof.
  intros Hiter es Hd Ht Hn Hi Honly. destruct (maps_lookup es Hd) as (M1 & M2 & M3). unfold corosync_cmapctl_parser, cmapctl_maps. fold es.
  destruct (foldl add_entry (∅, ∅) es) as [totem ims]. cbn [fst snd] in *. rewrite (totem_read es t totem M1 Ht). cbn -[mapM].
  set (g := fun i => (fmt_int (ringnumber i), default ∅ (ims !! fmt_int (ringnumber i)))).
  assert (Hg : forall i, i ∈ ifs -> ims !! fmt_int (ringnumber i) = Some (g i).2).
  { intros i Hin. rewrite Forall_forall in Hi. destruct (Hi i Hin) as [Hb _ _ _ _ _].
    destruct (proj2 (M3 (fmt_int (ringnumber i)))) as [m Em]; [by do 2 eexists|]. unfold g. cbn. by rewrite Em. }
  assert (Hp : iter ims ≡ₚ g <$> ifs).
  { rewrite Hiter. apply NoDup_Permutation; [apply NoDup_map_to_list| |].
    - apply (NoDup_fmap_1 fst). rewrite <-list_fmap_compose. cbn. change (fst ∘ g) with (fmt_int ∘ ringnumber). rewrite list_fmap_compose.
      unfold fmt_int. by apply (NoDup_fmap_2 pretty).
    - intros [r m]. rewrite elem_of_map_to_list, list_elem_of_fmap. split.
      + intros Em. destruct (proj1 (M3 r) (ex_intro _ m Em)) as (y & v & Hin). destruct (Honly r y v Hin) as (i & Hin' & ->). exists i. split; [|done].
        unfold g. by rewrite Em.
      + intros (i & [= -> ->] & Hin). by apply (Hg i). }
  apply Permutation_map_inv in Hp as (l & El & Hl). exists l. split; [by symmetry|]. change (List.map g l) with (g <$> l) in El. rewrite El.
  rewrite (mapM_ok (fun '(r, m) => Interface_try_from r m) g l); [done|]. apply Forall_forall. intros i Hin. rewrite <-Hl in Hin.
  cbn. rewrite Forall_forall in Hi. apply (interface_read es); [|by apply Hi]. intros y v. rewrite <-M2, (Hg i Hin). done.
Qed.

(** * What is written *)

(** ** White space *)

Fixpoint spaces (n : nat) : string := match n with O => "" | S n => String " " (spaces n) end.

(** A visible character of ASCII. *)
Definition visible (a : ascii) : bool := in_range 33 126 a.

Lemma white_parts p : p ∈ white_space -> (exists c q, p = String c q /\ visible c = false) /\ exists c q, String.rev p = String c q /\ visible c = false.
Proof.
  revert p. apply Forall_forall. repeat (constructor; [split; by eexists _, _|]). constructor.
Qed.

Lemma visible_start a s n : visible a = true -> strip_prefixes white_space n (String a s) = String a s.
Proof.
  intros Ha. apply strip_prefixes_stop, Forall_forall. intros p Hp. destruct (white_parts p Hp) as [(c & q & -> & Hc) _].
  unfold starts_with. cbn. destruct (ascii_dec c a) as [->|]; [congruence|done].
Qed.

Lemma trim_start_space s : trim_start (String " " s) = trim_start s.
Proof. unfold trim_start. by destruct s. Qed.

Lemma trim_start_spaces n a s : visible a = true -> trim_start (spaces n +:+ String a s) = String a s.
Proof.
  intros Ha. induction n as [|n IH]; cbn [spaces]; [unfold trim_start; rewrite str_app_nil_l; by apply visible_start|].
  by rewrite str_app_cons, trim_start_space.
Qed.

Lemma trim_end_visible r a : visible a = true -> trim_end (r +:+ String a "") = r +:+ String a "".
Proof.
  intros Ha. unfold trim_end. rewrite strip_prefixes_stop; [apply str_rev_involutive|]. apply Forall_forall.
  intros p (p' & -> & Hp)%list_elem_of_fmap. destruct (white_parts p' Hp) as [_ (c & q & -> & Hc)]. rewrite str_rev_app.
  change (starts_with (String c q) (String a (String.rev r)) = false). unfold starts_with. cbn. destruct (ascii_dec c a) as [->|]; [congruence|done].
Qed.

(** A line that ends in digits, or in another visible character. *)
Lemma trim_visible n a r b : visible a = true -> visible b = true ->
  trim (spaces n +:+ String a (r +:+ String b "")) = String a (r +:+ String b "").
Proof. intros Ha Hb. unfold trim. rewrite trim_start_spaces by done. rewrite <-str_app_cons. by apply trim_end_visible. Qed.

Lemma digit_visible a : is_digit a -> visible a = true.
Proof. unfold is_digit, visible, in_range. intros [H1 H2]%andb_true_iff. apply Z.leb_le in H1, H2. rewrite andb_true_iff, !Z.leb_le. lia. Qed.

Lemma digits_last s : all_chars is_digit s -> s <> "" -> exists r b, s = r +:+ String b "" /\ is_digit b.
Proof.
  induction s as [|a s IH]; [done|]. intros [Ha Hs] _. destruct s as [|b s]; [by exists "", a|].
  destruct IH as (r & c & -> & Hc); [done|done|]. exists (String a r), c. split; [|done]. by rewrite str_app_cons.
Qed.

(** ** The version *)

Definition version_line (version : Z) : string := "    config_version: " +:+ fmt_int version.

Lemma version_line_trim v : 0 <= v -> trim (version_line v) = "config_version: " +:+ fmt_int v.
Proof.
  intros Hv. destruct (fmt_digits v Hv) as [Hd Hne]. destruct (digits_last _ Hd Hne) as (r & b & E & Hb). unfold version_line. rewrite E.
  apply (trim_visible 4 "c" ("onfig_version: " +:+ r) b); [done|]. by apply digit_visible.
Qed.

Lemma version_line_kind v : 0 <= v -> is_config_version (version_line v) = true /\ is_version (version_line v) = false.
Proof. intros Hv. unfold is_config_version, is_version. rewrite version_line_trim by done. by destruct (fmt_int v). Qed.

Lemma version_not_config x : is_version x = true -> is_config_version x = false.
Proof.
  unfold is_version, is_config_version. destruct (trim x) as [|a s]; [done|]. unfold starts_with. cbn [String.prefix].
  destruct (ascii_dec "v" a) as [<-|]; [|done]. by destruct (ascii_dec "c" "v").
Qed.

(** The lines of the new file. *)
Definition updated_lines (version : Z) (s : list string) : list string :=
  s ≫= fun x => if is_config_version x then [] else if is_version x then [x; version_line version] else [x].

(** Raising the version again replaces what was written: the versions do not pile up. *)
Theorem last_version_counts v1 v2 s : 0 <= v1 -> updated_lines v2 (updated_lines v1 s) = updated_lines v2 s.
Proof.
  intros Hv. unfold updated_lines. destruct (version_line_kind v1 Hv) as [K1 K2].
  induction s as [|x s IH]; [done|]. rewrite bind_cons, bind_app, IH, bind_cons. f_equal. destruct (is_config_version x) eqn:E1; [done|].
  destruct (is_version x) eqn:E2; cbn; rewrite ?E1, ?E2, ?K1; by rewrite ?app_nil_r.
Qed.

(** One version for each version of the protocol, the new one. *)
Theorem versions_written v s : 0 <= v ->
  List.filter is_config_version (updated_lines v s) = replicate (length (List.filter is_version s)) (version_line v).
Proof.
  intros Hv. unfold updated_lines. destruct (version_line_kind v Hv) as [K1 K2].
  induction s as [|x s IH]; [done|]. rewrite bind_cons, List.filter_app, IH. cbn [List.filter]. destruct (is_version x) eqn:E2.
  - rewrite (version_not_config x E2). cbn. by rewrite (version_not_config x E2), K1.
  - destruct (is_config_version x) eqn:E1; [done|]. cbn. by rewrite E1.
Qed.

(** The other lines are kept, in their order. *)
Theorem other_lines_kept v s : 0 <= v ->
  List.filter (fun x => negb (is_config_version x)) (updated_lines v s) = List.filter (fun x => negb (is_config_version x)) s.
Proof.
  intros Hv. unfold updated_lines. destruct (version_line_kind v Hv) as [K1 K2].
  induction s as [|x s IH]; [done|]. rewrite bind_cons, List.filter_app, IH. cbn [List.filter]. destruct (is_config_version x) eqn:E1; [done|].
  destruct (is_version x); cbn; by rewrite E1, ?K1.
Qed.

(** ** The ports *)

Section ports.
Context (digit : string -> option string).
(** What is relied on: the digits of ASCII are digits. *)
Context (digit_in : forall a s, is_digit a -> digit (String a s) = Some s).

Lemma strip_digits_all ds : all_chars is_digit ds -> strip_digits digit (slen ds) ds = "".
Proof. induction ds as [|a ds IH]; [done|]. intros [Ha Hds]. change (slen (String a ds)) with (S (slen ds)). cbn [strip_digits]. rewrite digit_in by done. by apply IH. Qed.

(** A line that sets a port. *)
Definition port_line (n k : nat) (ds : string) : string := spaces n +:+ "mcastport:" +:+ spaces k +:+ ds.

Lemma port_line_key n k ds : all_chars is_digit ds -> ds <> "" -> starts_with "mcastport:" (trim (port_line n k ds)) = true.
Proof.
  intros Hd Hne. destruct (digits_last ds Hd Hne) as (r & b & -> & Hb). unfold port_line.
  pose proof (trim_visible n "m" ("castport:" +:+ spaces k +:+ r) b eq_refl (digit_visible b Hb)) as E.
  rewrite <-!str_app_assoc in E. change (String "m" ("castport:" +:+ ?t)) with ("mcastport:" +:+ t) in E. rewrite E. by destruct (spaces k +:+ r +:+ String b "").
Qed.

Lemma replace_port_line n k ds p : all_chars is_digit ds -> ds <> "" ->
  replace_port digit p (port_line n k ds) = port_line n k (fmt_int p).
Proof.
  intros Hd Hne. assert (mcastport_at digit (port_line n k ds) = Some (spaces n +:+ "mcastport:" +:+ spaces k, "")) as E.
  { unfold mcastport_at, port_line. change ("mcastport:" +:+ ?t) with (String "m" ("castport:" +:+ t)). rewrite trim_start_spaces by done.
    assert (starts_with "mcastport:" (String "m" ("castport:" +:+ spaces k +:+ ds)) = true) as -> by (by destruct (spaces k +:+ ds)).
    change (sdrop 10 (String "m" ("castport:" +:+ spaces k +:+ ds))) with (spaces k +:+ ds).
    assert (trim_start (spaces k +:+ ds) = ds) as ->.
    { destruct ds as [|a ds']; [done|]. apply trim_start_spaces, digit_visible. by destruct Hd. }
    rewrite strip_digits_all by done. destruct (String.eqb_spec "" ds) as [E|_]; [by destruct Hne|].
    do 2 f_equal. change (String "m" ("castport:" +:+ ?t)) with ("mcastport:" +:+ t). rewrite !str_app_assoc, slen_app, Nat.add_sub. apply stake_app. }
  unfold port_line in *. destruct (spaces n +:+ "mcastport:" +:+ spaces k +:+ ds) as [|a s] eqn:Es; [by destruct n|].
  cbn [replace_port]. rewrite E. by rewrite str_app_nil_r, <-!str_app_assoc.
Qed.

(** The lines of a file: those that set a port do so with a number. *)
Definition port_ok (x : string) : Prop :=
  starts_with "mcastport:" (trim x) = true -> exists n k ds, x = port_line n k ds /\ all_chars is_digit ds /\ ds <> "".

(** All interfaces get the new port: a line that sets one sets the new one, the others are kept. *)
Theorem ports_changed p s i x : 0 <= p -> Forall port_ok s -> s !! i = Some x ->
  exists y, update_mcast_port digit s p !! i = Some y /\
    ((exists n k ds, x = port_line n k ds /\ y = port_line n k (fmt_int p)) \/ starts_with "mcastport:" (trim x) = false /\ y = x).
Proof.
  intros Hp Hs Hx. unfold update_mcast_port. rewrite list_lookup_fmap, Hx. cbn. eexists. split; [done|].
  rewrite Forall_lookup in Hs. specialize (Hs i x Hx). unfold port_ok in Hs. destruct (starts_with "mcastport:" (trim x)); [|by right].
  destruct (Hs eq_refl) as (n & k & ds & -> & Hd & Hne). left. exists n, k, ds. by rewrite replace_port_line.
Qed.

(** The port that is set last counts. *)
Theorem last_port_counts p1 p2 s : 0 <= p1 -> Forall port_ok s ->
  update_mcast_port digit (update_mcast_port digit s p1) p2 = update_mcast_port digit s p2.
Proof.
  intros Hp Hs. unfold update_mcast_port. rewrite <-list_fmap_compose. apply list_fmap_ext. intros i x Hx. unfold compose. cbv beta.
  rewrite Forall_lookup in Hs. specialize (Hs i x Hx). unfold port_ok in Hs. destruct (starts_with "mcastport:" (trim x)) eqn:E; [|by rewrite E].
  destruct (Hs eq_refl) as (n & k & ds & -> & Hd & Hne). destruct (fmt_digits p1 Hp) as [F1 F2]. rewrite !replace_port_line by done.
  by rewrite port_line_key.
Qed.

(** ** The file *)

Definition eol_text : string := String newline "".

Lemma str_join_cons sep x y l : str_join sep (x :: y :: l) = x +:+ sep +:+ str_join sep (y :: l).
Proof. done. Qed.

Lemma join_tail sep x l1 l2 : (l1 = [] <-> l2 = []) -> str_join sep l1 = str_join sep l2 -> str_join sep (x :: l1) = str_join sep (x :: l2).
Proof.
  intros Hn E. destruct l1 as [|y1 l1], l2 as [|y2 l2]; [done|by destruct (proj1 Hn)|by destruct (proj2 Hn)|]. by rewrite !str_join_cons, E.
Qed.

Lemma join_pair x y l : str_join eol_text ((x +:+ eol_text +:+ y) :: l) = str_join eol_text (x :: y :: l).
Proof. destruct l as [|z l]; [done|]. by rewrite !str_join_cons, <-!str_app_assoc. Qed.

(** A version line, with the version after it, and no port. *)
Definition version_ok (x : string) : Prop := is_version x = true -> exists n r, x = spaces n +:+ "version:" +:+ r.

Lemma version_text_kind v x : 0 <= v -> version_ok x -> is_version x = true -> starts_with "mcastport:" (trim (version_text v x)) = false.
Proof.
  intros Hv Hx E. destruct (Hx E) as (n & r & ->). destruct (fmt_digits v Hv) as [Hd Hne]. destruct (digits_last _ Hd Hne) as (q & b & Ef & Hb).
  unfold version_text. rewrite Ef.
  pose proof (trim_visible n "v" ("ersion:" +:+ r +:+ String newline ("    config_version: " +:+ q)) b eq_refl (digit_visible b Hb)) as Et.
  assert ((spaces n +:+ "version:" +:+ r) +:+ String newline ("    config_version: " +:+ q +:+ String b "") =
    spaces n +:+ String "v" (("ersion:" +:+ r +:+ String newline ("    config_version: " +:+ q)) +:+ String b "")) as ->.
  { by rewrite <-!str_app_assoc. }
  rewrite Et. done.
Qed.

Lemma join_updated v p s : 0 <= v -> Forall version_ok s ->
  (update_mcast_port digit (update_config_version s v) p = [] <-> update_mcast_port digit (updated_lines v s) p = []) /\
  str_join eol_text (update_mcast_port digit (update_config_version s v) p) = str_join eol_text (update_mcast_port digit (updated_lines v s) p).
Proof.
  intros Hv Hs. destruct (version_line_kind v Hv) as [K1 K2].
  assert (starts_with "mcastport:" (trim (version_line v)) = false) as K3 by (rewrite version_line_trim by done; done).
  induction Hs as [|x s Hx Hs [IH1 IH2]]; [done|]. unfold update_config_version, updated_lines, update_mcast_port in *.
  rewrite bind_cons. cbn [List.filter]. destruct (is_config_version x) eqn:E1; cbn [negb]; [exact (conj IH1 IH2)|].
  rewrite fmap_cons. destruct (is_version x) eqn:E2.
  - cbn [app]. rewrite !fmap_cons. split; [done|]. rewrite (version_text_kind v x Hv Hx E2), K3.
    assert (starts_with "mcastport:" (trim x) = false) as ->.
    { destruct (starts_with "mcastport:" (trim x)) eqn:Em; [|done]. unfold is_version in E2. destruct (trim x) as [|a t]; [done|].
      unfold starts_with in *. cbn [String.prefix] in *. destruct (ascii_dec "m" a) as [<-|]; [|done]. by destruct (ascii_dec "v" "m"). }
    rewrite <-join_pair. by apply join_tail.
  - cbn [app]. rewrite !fmap_cons. split; [done|]. by apply join_tail.
Qed.

(** The new file is the old one with the new version after the version of the protocol and the new
    port in every interface. *)
Theorem conf_changed conf v p : 0 <= v -> Forall version_ok (str_lines (trim conf)) ->
  changed_conf digit conf v p = str_join eol_text (update_mcast_port digit (updated_lines v (str_lines (trim conf))) p).
Proof. intros Hv Hs. by apply join_updated. Qed.
End ports.

(** The version that is written is above the one that corosync runs with, below the largest. *)
Lemma next_version_above t x : config_version t = Some x -> 0 <= x < 2 ^ 64 - 1 -> next_version t = x + 1.
Proof. intros E Hx. unfold next_version. rewrite E. apply Z.mod_small. lia. Qed.

(** * Witnesses *)

Definition ascii_digit (s : string) : option string := match s with String a r => if in_range 48 57 a then Some r else None | EmptyString => None end.

Definition sample_cmapctl : string :=
  str_join eol_text
    ["totem.cluster_name (str) = lustre-ha-cluster"; "totem.config_version (u64) = 3"; "totem.fail_recv_const (u32) = 10";
     "totem.interface.0.bindnetaddr (str) = 10.128.0.22"; "totem.interface.0.mcastaddr (str) = 226.94.0.1";
     "totem.interface.0.mcastport (u16) = 40011"; "totem.token (u32) = 17000"].

Definition sample_conf : string :=
  str_join eol_text ["totem {"; "    version: 2"; "    config_version: 5"; "    interface {"; "        mcastport: 40015"; "    }"; "}"].

(** The version is counted from the one that runs, not from the one in the file. *)
Example version_may_fall : change_mcast_port map_to_list ascii_digit (Ok sample_conf) (Ok sample_cmapctl) 40001 =
  Ok (str_join eol_text ["totem {"; "    version: 2"; "    config_version: 4"; "    interface {"; "        mcastport: 40001"; "    }"; "}"]).
Proof. by vm_compute. Qed.

Lemma cmapctl_read_witness : exists l, l ≡ₚ [MkInterface 0 "10.128.0.22" (Some "226.94.0.1") None 40011] /\
  corosync_cmapctl_parser map_to_list sample_cmapctl = Ok (MkTotem (Some 3) "lustre-ha-cluster" 17000, l).
Proof.
  apply (cmapctl_read map_to_list sample_cmapctl (MkTotem (Some 3) "lustre-ha-cluster" 17000) [MkInterface 0 "10.128.0.22" (Some "226.94.0.1") None 40011]).
  - done.
  - apply (bool_decide_unpack _). by vm_compute.
  - split; cbn; try lia; try (apply (bool_decide_unpack _); by vm_compute).
    + intros w. vm_compute omap. unfold entry_totem. rewrite !elem_of_cons, elem_of_nil. naive_solver.
    + intros x [= <-]. lia.
  - apply (bool_decide_unpack _). by vm_compute.
  - constructor; [|constructor]. split; cbn; try lia; try (apply (bool_decide_unpack _); by vm_compute).
    + intros w. vm_compute omap. unfold entry_interface. rewrite !elem_of_cons, elem_of_nil. naive_solver.
    + intros w. vm_compute omap. unfold entry_interface. rewrite !elem_of_cons, elem_of_nil. naive_solver.
  - intros r y w. vm_compute omap. unfold entry_interface. rewrite !elem_of_cons, elem_of_nil. intros Hw. exists (MkInterface 0 "10.128.0.22" (Some "226.94.0.1") None 40011).
    split; [set_solver|]. cbn. naive_solver.
Defined.
